(* ===== verification/_CoqProject ===== *)
-Q . S2P
Prelude.v
Bytes.v
Frame.v
Envelope.v
Conn.v
WireBodies.v
ProtoMessages.v
ProtoCodec.v
Base64.v
SecretPayload.v
NodeCodec.v
Router.v
Hub.v
Replay.v
AsyncReplay.v
Snowflake.v
GoStrings.v
Strconv.v
Sha.v
Totp.v
Password.v
E2E.v
SecretSession.v
Breaker.v
Resilient.v
Model.v
EventBus.v
MemChats.v
MemMessages.v
MessageLog.v
Outbox.v
ChatService.v
Summaries.v
MessageService.v
Sharded.v
MessageRules.v
MemAccounts.v
TwoFactor.v
Auth.v
AuthRules.v
AuthSessions.v
Invite.v
Utf8.v
Social.v
Reaction.v
SyncPage.v
Contact.v
Pin.v
Poll.v
Interleave.v
Call.v
Schedule.v
Billing.v
Fanout.v
Delivery.v
KeyDir.v
SecretQueue.v
ClientConn.v
Presence.v
Gateway.v
GatewayRules.v
SecretRelay.v
Erasure.v
Media.v
MediaRules.v
Search.v
Edge.v
Rpc.v
RpcAuth.v
