(* ===== verification/Prelude.v ===== *)
(** * SyncApp server: verification library

    A model of the Go server of SyncApp (src/server) and what it is proved to do.  The server
    is a messenger: clients hold framed connections to gateway nodes; services behind them
    keep accounts, chats and messages; events staged with each write are relayed to a bus and
    fanned out to the sockets of their audience; secret chats go end to end, the server
    relaying ciphertext only.

    ** How the code is modelled

    Each Go method is a definition of the same name, its receiver's fields a record, a call
    under a mutex one step.  Effects are a state and error monad ([M] below): a failed call
    keeps the state it left.  A Go error value is a constructor of [error], [errors.Is]
    equality.  Integers are [Z], cut to their width where Go computes on them ([i32], [u64]
    and so on); strings are byte strings, or [string] where only their equality matters; a
    map is a [gmap].  The order in which Go ranges over a map is the class [RangeOrder]: the
    theorems hold for every order.  Clock readings, random bytes, fresh ids and the outcomes
    of rate limiters are arguments, in the order the code takes them; several readings of one
    call are several arguments.

    Third-party code is a class with the laws it documents, instantiated in the witnesses:
    [Compressors] (Frame), [ProtoRuntime] (ProtoCodec), [Crypto] (E2E), [Argon2] (Password),
    [AEAD] (TwoFactor), [Grpc] (Rpc), [SharedRouter] (Resilient), payment providers (Billing),
    [encoding/json] (NodeCodec).  [Unicode] stands for Go's Unicode tables, with ASCII
    computed.  Services meet through interfaces too: [HasStore], [Chats], [Bus],
    [MediaCollector] with [MessageLaws] (MessageService), [ChatAuthority] and [Table] with
    [SocialLaws] (Social), [OutboxStore] (Outbox), [FanoutLaws] (Fanout), [MessageStore]
    (Sharded).  A client's theorems are proved from the laws and the implementation
    discharges them.

    ** The files

    Libraries.  This file: errors, the monad, machine integers, lists, maps, tactics and the
    hint database [syncapp].  Bytes, Base64, GoStrings, Strconv, Utf8, Sha: the parts of Go's
    standard library the server uses.  Interleave: methods cut at their store calls.

    The wire, pkg/wire.  Frame (frame.go, compress.go), Envelope (envelope.go), Conn (codec.go,
    wsconn.go), WireBodies (messages.go), ProtoMessages and ProtoCodec (body.proto,
    protocodec.go), SecretPayload (secretpayload.go).  What is written is read back, through
    every layer and for each of the 105 bodies; no input makes a decoder exceed its bounds.

    Nodes.  NodeCodec, Router and Resilient (internal/router), Hub (internal/delivery), Breaker
    (pkg/breaker), Replay and AsyncReplay (internal/replay), Snowflake (pkg/id), Edge
    (internal/gateway clientip.go, proxyproto.go, ipguard.go).  The registry and the hub
    represent the live connections; in an outage a node keeps its own; the asynchronous
    replay buffer answers as the synchronous one; a client behind trusted proxies cannot
    exceed its share of connections.

    The store, internal/store/memory.  Model (internal/model), MemChats, MemMessages,
    MemAccounts; MessageLog, the theorems on the log: numbers without gaps, idempotent
    retries, history pages.  Sharded (internal/store/sharded): splitting the log over shards
    is invisible.

    Chats and messages.  EventBus (pkg/eventbus), Outbox (internal/outbox), ChatService and
    Summaries (internal/chat), MessageService and MessageRules (internal/message), Invite,
    Social, Reaction, Contact with SyncPage, Pin, Poll, Call, Schedule, Search, Media and
    MediaRules (the packages of those names), Billing.  The authorization caches decide as
    the store would; a write happens only for who may make it; every staged event is
    published, in order; threads, tallies and rooms keep their invariants; one idempotency
    key is charged once; a search shows what its caller may read; stored objects are those
    ticketed, fetched by those who see them and collected when nobody does.

    Accounts, internal/auth and pkg/totp.  Password, Totp, TwoFactor, Auth; AuthRules and
    AuthSessions, the theorems: a revoked session stays dead, a replayed resume token kills
    its session, a login needs its factors and succeeds with them.  Erasure: a deleted account
    leaves the maps it is in.

    End to end, pkg/e2e.  E2E, the cryptography; SecretSession: two devices agree and every
    genuine frame opens, whatever the order.  KeyDir, SecretQueue and SecretRelay, the server's
    part: one-time keys once, ciphertext kept until acknowledged.

    The gateway, internal/gateway.  ClientConn (a connection's lanes, numbering and resume),
    Presence, Gateway and GatewayRules (the handlers that write messages, contacts and
    schedules; what a block and a secret chat enforce), Fanout and Delivery (internal/fanout
    and the node side: a message reaches every socket of its audience once).  Rpc and RpcAuth
    (internal/rpc): the deployment split over gRPC does what one process does, except for
    failed logins.

    Some theorems show where the code falls short of its own comments; their doc comments say
    so.  A theorem with hypotheses is followed, at the end of its file or of a file that has
    its deployment, by a [_witness] that applies it to a concrete state.

    ** Fuel

    Loops whose recursion is not structural take fuel and return [None] when it runs out.
    Their theorems give an amount that is enough: pages of a membership or of a sync for the
    walks (ChatService, Fanout, Contact, Pin, SecretQueue), batches of pending records for the
    relay and the purges (Outbox, Schedule, SecretQueue), the queued entries for a flush
    (AsyncReplay).  Encoders and parsers (Bytes, Strconv, Edge) take fuel above the digits,
    groups or bytes there can be.

    ** Not modelled

    The Postgres, Redis and NATS backends, which are queries to external services (their
    interfaces are modelled through the in-memory ones); generated protobuf code; the handlers
    for sessions, security, privacy, profiles, membership, call signalling, billing, search
    and media, which translate a request into a service call modelled here, and the platform
    role cache; token buckets, in floating point; push providers and payment acquirers, HTTP
    clients; moderation, audit, metrics and tracing, which change nothing else; configuration,
    wiring, commands and the client applications; accept loops, timers and shutdown.
    Goroutines are interleaved only where a file says so (Interleave, Call, Billing, Presence,
    AsyncReplay, Fanout's shards). *)

From stdpp Require Export base tactics option list gmap strings sorting.
From Stdlib Require Export ZArith Lia Ascii.

(** ** Errors

    Go's sentinel errors.  Each [errors.New] value of the modelled packages is
    one constructor, prefixed with its package, so that [errors.Is] is equality. *)

Inductive error :=
  (* io, encoding *)
  | io_EOF
  | io_ErrUnexpectedEOF
  | codec_error
  (* pkg/wire *)
  | wire_ErrBadMagic
  | wire_ErrBadVersion
  | wire_ErrTooLarge
  | wire_ErrCompressionNotNegotiated
  | wire_ErrShortEnvelope
  | wire_no_protobuf_mapping
  (* internal/router *)
  | router_errBadNodeDelivery
  (* internal/store *)
  | store_ErrNotFound
  | store_ErrConflict
  | store_ErrPollClosed
  | store_ErrUnsupported
  (* pkg/breaker, pkg/id *)
  | breaker_ErrOpen
  | id_ErrNodeRange
  (* pkg/e2e *)
  | e2e_ErrDecrypt
  | e2e_errTooManySkipped
  | e2e_errNoOneTimeKey
  | e2e_ErrBadPreKeySignature
  | e2e_ErrIdentityChanged
  | ecdh_error
  (* internal/message *)
  | message_ErrForbidden
  | message_ErrEmptyMessage
  | message_ErrTooLong
  | message_ErrBadCommand
  (* internal/chat *)
  | chat_ErrSecretSelfChat
  (* internal/auth *)
  | auth_ErrBadCredentials
  | auth_ErrInvalidSession
  | auth_ErrBadUsername
  | auth_ErrUsernameTaken
  | auth_ErrResumeReplayed
  | auth_ErrWrongPassword
  | auth_ErrTwoFactorRequired
  | auth_ErrBadTOTPCode
  | auth_ErrTwoFactorEnabled
  | auth_ErrNoTOTPKey
  | auth_ErrWeakPassword
  | auth_ErrSamePassword
  (* pkg/totp *)
  | totp_error
  | rand_error
  (* internal/invite *)
  | invite_ErrForbidden
  | invite_ErrBadUsername
  | invite_ErrTaken
  | invite_ErrInvalidLink
  | invite_ErrLastOwner
  (* internal/poll *)
  | poll_ErrForbidden
  | poll_ErrClosed
  | poll_ErrBadPoll
  | poll_ErrBadOption
  (* internal/call *)
  | call_ErrForbidden
  | call_ErrCallEnded
  | call_ErrBadKind
  (* internal/contact *)
  | contact_ErrSelf
  | contact_ErrBadName
  (* internal/pin, internal/reaction *)
  | pin_ErrForbidden
  | pin_ErrTooLong
  | reaction_ErrForbidden
  | reaction_ErrBadEmoji
  (* internal/schedule *)
  | schedule_ErrForbidden
  | schedule_ErrPastTime
  | schedule_ErrTooFar
  (* internal/gateway *)
  | gateway_errNewChatThrottled
  | gateway_errBlocked
  | gateway_errLookupThrottled
  | gateway_invalid_chat_id
  | gateway_no_such_user
  | gateway_errLoginThrottled
  | gateway_errBadDisplayName
  | gateway_no_credentials
  (* internal/billing *)
  | billing_ErrNoUser
  | billing_ErrNoIdempotencyKey
  | billing_ErrNoPrice
  | billing_ErrNoProvider
  | billing_ErrBadMethod
  | billing_ErrChargeFailed
  | billing_ErrNoProviderRef
  | billing_ErrBadSignature
  | billing_ErrUntrustedSource
  | billing_ErrProviderUnavailable
  | billing_ErrAmountMismatch
  (* internal/rpc: a gRPC status that is none of the sentinels *)
  | rpc_status
  (* internal/media *)
  | media_ErrExists
  | media_ErrTooLargeForTier
  | media_size_out_of_range
  | media_not_found
  | media_bad_expiry
  | media_bad_size
  | media_url_expired
  | media_bad_signature
  | media_malware
  | os_error
  (* a nil dereference: the goroutine panics instead of returning *)
  | go_panic
  (* an error value of a dependency outside the modelled packages *)
  | other_error.

#[global] Instance error_eq_dec : EqDecision error.
Proof. solve_decision. Defined.

(** ** Results and the error-state monad

    A Go function returning [(T, error)] is a [result T]; a method that also
    mutates its receiver is a computation [M S T].  The state survives an error:
    Go does not roll anything back on an early return. *)

Inductive result (A : Type) : Type :=
  | Ok (a : A)
  | Err (e : error).
Arguments Ok {A} a.
Arguments Err {A} e.

#[global] Instance result_eq_dec {A} `{EqDecision A} : EqDecision (result A).
Proof. solve_decision. Defined.

#[global] Instance result_ret : MRet result := λ A, Ok.

#[global] Instance result_bind : MBind result := λ A B f r,
  match r with Ok a => f a | Err e => Err e end.

Definition M (S A : Type) : Type := S → S * result A.

#[global] Instance M_ret {S} : MRet (M S) := λ A a s, (s, Ok a).

#[global] Instance M_bind {S} : MBind (M S) := λ A B f m s,
  match m s with
  | (s', Ok a) => f a s'
  | (s', Err e) => (s', Err e)
  end.

(** [return nil, err]. *)
Definition fail {S A} (e : error) : M S A := λ s, (s, Err e).
(** Read a field of the receiver. *)
Definition gets {S A} (f : S → A) : M S A := λ s, (s, Ok (f s)).
(** Read the receiver. *)
Definition get {S} : M S S := λ s, (s, Ok s).
(** Mutate the receiver. *)
Definition modify {S} (f : S → S) : M S unit := λ s, (f s, Ok tt).
(** A call whose error is inspected rather than returned. *)
Definition attempt {S A} (m : M S A) : M S (result A) := λ s,
  let '(s', r) := m s in (s', Ok r).
(** A pure fallible call. *)
Definition lift {S A} (r : result A) : M S A := λ s, (s, r).

(** [if !b { return nil, e }]. *)
Definition guard_or {S} (b : bool) (e : error) : M S unit :=
  if b then mret tt else fail e.

Lemma result_bind_Ok {A B} (r : result A) (f : A → result B) b :
  (r ≫= f) = Ok b → ∃ a, r = Ok a ∧ f a = Ok b.
Proof. destruct r; simpl; [eauto | done]. Qed.

Lemma M_bind_eq {S A B} (m : M S A) (f : A → M S B) s :
  (m ≫= f) s = match m s with
               | (s', Ok a) => f a s'
               | (s', Err e) => (s', Err e)
               end.
Proof. done. Qed.

Lemma M_bind_Ok {S A B} (m : M S A) (f : A → M S B) s s' b :
  (m ≫= f) s = (s', Ok b) →
  ∃ s1 a, m s = (s1, Ok a) ∧ f a s1 = (s', Ok b).
Proof.
  unfold mbind, M_bind. destruct (m s) as [s1 [a|e]]; [eauto | by intros [=]].
Qed.

(** Running one call of a sequence. *)
Lemma bind_Ok {S A B} (m : M S A) (f : A → M S B) s s' a :
  m s = (s', Ok a) → (m ≫= f) s = f a s'.
Proof. intros Hm. by rewrite M_bind_eq, Hm. Qed.
Lemma bind_Err {S A B} (m : M S A) (f : A → M S B) s s' e :
  m s = (s', Err e) → (m ≫= f) s = (s', Err e).
Proof. intros Hm. by rewrite M_bind_eq, Hm. Qed.
Lemma guard_or_true {S} b e (s : S) : b = true → guard_or b e s = (s, Ok tt).
Proof. by intros ->. Qed.
Lemma guard_or_false {S} b e (s : S) : b = false → guard_or b e s = (s, Err e).
Proof. by intros ->. Qed.

Lemma guard_or_Ok {S} b e (s s' : S) u :
  guard_or b e s = (s', Ok u) → b = true ∧ s' = s.
Proof. destruct b; simpl; [by intros [= -> _] | by intros [=]]. Qed.

(** A run related to where it started, whatever it returns. *)
Definition runs {S A} (R : relation S) (s : S) (m : M S A) : Prop := R s (m s).1.

Section runs.
Context {S : Type} {R : relation S} `{!PreOrder R}.

Lemma runs_bind {A B} (m : M S A) (f : A → M S B) s :
  runs R s m → (∀ s' a, m s = (s', Ok a) → runs R s' (f a)) → runs R s (m ≫= f).
Proof.
  unfold runs. rewrite M_bind_eq. destruct (m s) as [s' [a|e]]; simpl; [|done].
  intros Hm Hf. etrans; [exact Hm | by apply Hf].
Qed.
Lemma runs_ret {A} (a : A) s : runs R s (mret a).
Proof. unfold runs. simpl. done. Qed.
Lemma runs_fail {A} e s : runs R s (fail (A := A) e).
Proof. unfold runs. simpl. done. Qed.
Lemma runs_get s : runs R s get.
Proof. unfold runs. simpl. done. Qed.
Lemma runs_get_bind {A} (f : S → M S A) s : runs R s (f s) → runs R s (get ≫= f).
Proof. done. Qed.
Lemma runs_gets {A} (f : S → A) s : runs R s (gets f).
Proof. unfold runs. simpl. done. Qed.
Lemma runs_lift {A} (r : result A) s : runs R s (lift r).
Proof. unfold runs. simpl. done. Qed.
Lemma runs_guard_or b e s : runs R s (guard_or b e).
Proof. destruct b; [apply runs_ret | apply runs_fail]. Qed.
Lemma runs_attempt {A} (m : M S A) s : runs R s m → runs R s (attempt m).
Proof. unfold runs, attempt. by destruct (m s). Qed.
Lemma runs_modify f s : R s (f s) → runs R s (modify f).
Proof. done. Qed.
(** A call known to leave the state alone. *)
Lemma runs_reads {A} (m : M S A) s : (m s).1 = s → runs R s m.
Proof. unfold runs. by intros ->. Qed.
End runs.

(** ** Machine integers *)

Open Scope Z_scope.

Definition u8 (z : Z) : Z := z mod 2 ^ 8.
Definition u16 (z : Z) : Z := z mod 2 ^ 16.
Definition u32 (z : Z) : Z := z mod 2 ^ 32.
Definition u64 (z : Z) : Z := z mod 2 ^ 64.
(** Two's complement reading of the low [w] bits. *)
Definition sext (w z : Z) : Z := (z + 2 ^ (w - 1)) mod 2 ^ w - 2 ^ (w - 1).
Definition i32 (z : Z) : Z := sext 32 z.
Definition i64 (z : Z) : Z := sext 64 z.

Lemma u16_small z : 0 ≤ z < 2 ^ 16 → u16 z = z.
Proof. apply Z.mod_small. Qed.
Lemma u32_small z : 0 ≤ z < 2 ^ 32 → u32 z = z.
Proof. apply Z.mod_small. Qed.
Lemma u64_small z : 0 ≤ z < 2 ^ 64 → u64 z = z.
Proof. apply Z.mod_small. Qed.
Lemma u32_range z : 0 ≤ u32 z < 2 ^ 32.
Proof. apply Z.mod_pos_bound. lia. Qed.
Lemma u64_range z : 0 ≤ u64 z < 2 ^ 64.
Proof. apply Z.mod_pos_bound. lia. Qed.
Lemma i32_small z : - 2 ^ 31 ≤ z < 2 ^ 31 → i32 z = z.
Proof.
  intros Hz. unfold i32, sext. replace (32 - 1) with 31 by lia. rewrite Z.mod_small; lia.
Qed.
Lemma i64_small z : - 2 ^ 63 ≤ z < 2 ^ 63 → i64 z = z.
Proof.
  intros Hz. unfold i64, sext. replace (64 - 1) with 63 by lia.
  rewrite Z.mod_small; lia.
Qed.

(** [len(xs)] as a Go [int]. *)
Definition len {A} (l : list A) : Z := Z.of_nat (length l).

Lemma len_nonneg {A} (l : list A) : 0 ≤ len l.
Proof. unfold len. lia. Qed.
Lemma len_nil {A} : len (@nil A) = 0.
Proof. done. Qed.
Lemma len_cons {A} (x : A) l : len (x :: l) = 1 + len l.
Proof. unfold len. simpl length. lia. Qed.
Lemma len_app {A} (k l : list A) : len (k ++ l) = len k + len l.
Proof. unfold len. rewrite length_app. lia. Qed.
#[global] Instance len_Permutation {A} : Proper ((≡ₚ) ==> (=)) (@len A).
Proof. intros k l Hkl. unfold len. by rewrite Hkl. Qed.

(** [xs[:n]] and [xs[n:]] on a Go [int] index (callers stay in range). *)
Definition ztake {A} (n : Z) (l : list A) : list A := take (Z.to_nat n) l.
Definition zdrop {A} (n : Z) (l : list A) : list A := drop (Z.to_nat n) l.

Lemma ztake_app_len {A} (k l : list A) : ztake (len k) (k ++ l) = k.
Proof. unfold ztake, len. by rewrite Nat2Z.id, take_app_length. Qed.
Lemma zdrop_app_len {A} (k l : list A) : zdrop (len k) (k ++ l) = l.
Proof. unfold zdrop, len. by rewrite Nat2Z.id, drop_app_length. Qed.
Lemma ztake_zdrop {A} n (l : list A) : ztake n l ++ zdrop n l = l.
Proof. apply take_drop. Qed.
Lemma len_ztake {A} n (l : list A) : 0 ≤ n ≤ len l → len (ztake n l) = n.
Proof. unfold len, ztake. rewrite length_take. lia. Qed.
Lemma len_zdrop {A} n (l : list A) : 0 ≤ n ≤ len l → len (zdrop n l) = len l - n.
Proof. unfold len, zdrop. rewrite length_drop. lia. Qed.

Lemma elem_of_ztake {A} n (l : list A) x : x ∈ ztake n l → x ∈ l.
Proof. intros Hx. rewrite <- (ztake_zdrop n l). apply elem_of_app. by left. Qed.

(** ** Lists *)

Lemma filter_Forall {A} (P : A → Prop) `{∀ x, Decision (P x)} (l : list A) :
  Forall P l → filter P l = l.
Proof.
  induction 1 as [|x l Hx _ IH]; [done|].
  by rewrite filter_cons_True, IH.
Qed.

Lemma filter_none {A} (P : A → Prop) `{∀ x, Decision (P x)} (l : list A) :
  Forall (λ x, ¬ P x) l → filter P l = [].
Proof.
  induction 1 as [|x l Hx _ IH]; [done|].
  by rewrite filter_cons_False, IH.
Qed.

Lemma filter_ext_in {A} (P Q : A → Prop) `{∀ x, Decision (P x), ∀ x, Decision (Q x)}
    (l : list A) :
  (∀ x, x ∈ l → P x ↔ Q x) → filter P l = filter Q l.
Proof.
  induction l as [|x l IH]; intros Hl; [done|]. rewrite !filter_cons.
  rewrite IH by (intros y Hy; apply Hl; by right).
  destruct (Hl x) as [H1 H2]; [left|]. case_decide; case_decide; tauto.
Qed.

Lemma filter_fmap {A B} (f : A → B) (P : B → Prop) `{∀ x, Decision (P x)} (l : list A) :
  filter P (f <$> l) = f <$> filter (λ x, P (f x)) l.
Proof.
  induction l as [|x l IH]; [done|]. rewrite fmap_cons, !filter_cons.
  case_decide; [by rewrite fmap_cons, IH | done].
Qed.

Lemma NoDup_fmap_filter {A B} (f : A → B) (P : A → Prop) `{∀ x, Decision (P x)} (l : list A) :
  NoDup (f <$> l) → NoDup (f <$> filter P l).
Proof.
  induction l as [|x l IH]; [done|]. rewrite fmap_cons, filter_cons. intros [Hx Hl]%NoDup_cons.
  case_decide; [|by apply IH]. rewrite fmap_cons. apply NoDup_cons. split; [|by apply IH].
  intros (y & Hy & Hin)%list_elem_of_fmap. apply list_elem_of_filter in Hin as [_ Hin].
  apply Hx. rewrite Hy. by apply list_elem_of_fmap_2.
Qed.

Lemma take_drop_same {A} (l : list A) j k :
  length (take j l) = length (take k l) → take j l = take k l ∧ drop j l = drop k l.
Proof.
  revert j k. induction l as [|x l IH]; intros [|j] [|k] Hl; simpl in *; try done.
  injection Hl as Hl. by destruct (IH j k Hl) as [-> ->].
Qed.

Lemma find_app {A} (f : A → bool) (l k : list A) :
  find f (l ++ k) = match find f l with Some x => Some x | None => find f k end.
Proof. induction l as [|x l IH]; [done|]. simpl. by destruct (f x). Qed.

Lemma elem_of_snoc_ne {A} (l : list A) x y : x ≠ y → x ∈ l ++ [y] ↔ x ∈ l.
Proof. rewrite elem_of_app, list_elem_of_singleton. tauto. Qed.

(** A list sorted by decreasing key with distinct keys is the only sorted
    arrangement of its elements. *)
Lemma sorted_desc_unique {A} (f : A → Z) (l k : list A) :
  l ≡ₚ k → StronglySorted (λ a b, f b ≤ f a) l → StronglySorted (λ a b, f b < f a) k → l = k.
Proof.
  revert k. induction l as [|x l IH]; intros k Hp Hl Hk.
  { by apply Permutation_nil_l in Hp. }
  destruct k as [|y k]; [by apply Permutation_nil_r in Hp|].
  apply StronglySorted_inv in Hl as [Hl Hx]. apply StronglySorted_inv in Hk as [Hk Hy].
  rewrite Forall_forall in Hx, Hy.
  assert (x = y) as ->.
  { assert (x ∈ y :: k) as [->|Hin]%elem_of_cons by (rewrite <- Hp; left); [done|].
    assert (y ∈ x :: l) as [->|Hin']%elem_of_cons by (rewrite Hp; left); [done|].
    apply Hy in Hin. apply Hx in Hin'. lia. }
  f_equal. apply IH; [by apply Permutation_cons_inv with y | done..].
Qed.

Lemma StronglySorted_snoc {A} (R : A → A → Prop) l x :
  StronglySorted R l → Forall (λ y, R y x) l → StronglySorted R (l ++ [x]).
Proof.
  induction 1 as [|y l Hl IH Hy]; intros Hx; [by repeat constructor|].
  apply Forall_cons in Hx as [Hyx Hx]. simpl. constructor; [by apply IH|].
  apply Forall_app. by split; [|constructor].
Qed.

Lemma StronglySorted_reverse {A} (R : A → A → Prop) l :
  StronglySorted R l → StronglySorted (flip R) (reverse l).
Proof.
  induction 1 as [|x l Hl IH Hx]; [constructor|]. rewrite reverse_cons.
  apply StronglySorted_snoc; [done|]. by apply Forall_reverse.
Qed.

Lemma StronglySorted_filter {A} (R : A → A → Prop) (P : A → Prop) `{∀ x, Decision (P x)} l :
  StronglySorted R l → StronglySorted R (filter P l).
Proof.
  induction 1 as [|x l Hl IH Hx]; [constructor|]. rewrite filter_cons. case_decide; [|done].
  constructor; [done|]. rewrite Forall_forall in *. intros y [_ Hy]%list_elem_of_filter. auto.
Qed.

Lemma StronglySorted_fmap {A B} (R : B → B → Prop) (f : A → B) l :
  StronglySorted R (f <$> l) ↔ StronglySorted (λ a b, R (f a) (f b)) l.
Proof.
  induction l as [|x l IH]; [by split; constructor|]. rewrite fmap_cons. split.
  - intros [Hl Hx]%StronglySorted_inv. constructor; [by apply IH|].
    apply (proj1 (Forall_fmap f (R (f x)) l)) in Hx. exact Hx.
  - intros [Hl Hx]%StronglySorted_inv. constructor; [by apply IH|]. by apply Forall_fmap.
Qed.

Lemma seqZ_sorted m n : StronglySorted Z.lt (seqZ m n).
Proof.
  unfold seqZ. apply StronglySorted_fmap. generalize 0%nat.
  induction (Z.to_nat n) as [|k IH]; intros i; simpl; constructor; [apply IH|].
  apply Forall_forall. intros j Hj%elem_of_seq. lia.
Qed.

(** Properties of a small range of integers, by evaluation. *)
Lemma seqZ_forall (P : Z → Prop) `{∀ z, Decision (P z)} lo n :
  forallb (λ z, bool_decide (P z)) (seqZ lo n) = true → ∀ z, lo ≤ z < lo + n → P z.
Proof.
  intros HF z Hz. rewrite forallb_forall in HF.
  assert (In z (seqZ lo n)) as Hin by (apply list_elem_of_In, elem_of_seqZ; lia).
  by apply HF, bool_decide_eq_true in Hin.
Qed.

(** ** Ranging over Go maps

    Go leaves the iteration order of a map unspecified.  Code that ranges over a
    map takes the order from this class; nothing but its law is assumed of it. *)

Class RangeOrder := {
  range_map {K} `{Countable K} {A} : gmap K A → list (K * A);
  range_map_perm {K} `{Countable K} {A} (m : gmap K A) : range_map m ≡ₚ map_to_list m;
}.

(** One order, for evaluation. *)
Definition canonical_order : RangeOrder :=
  {| range_map _ _ _ _ m := map_to_list m; range_map_perm _ _ _ _ m := reflexivity _ |}.

Section range.
Context `{RangeOrder} `{Countable K} {A : Type}.
Implicit Types m : gmap K A.

Lemma elem_of_range_map m k x : (k, x) ∈ range_map m ↔ m !! k = Some x.
Proof. by rewrite range_map_perm, elem_of_map_to_list. Qed.
Lemma length_range_map m : length (range_map m) = size m.
Proof. by rewrite range_map_perm, length_map_to_list. Qed.
Lemma NoDup_range_keys m : NoDup (range_map m).*1.
Proof. rewrite range_map_perm. apply NoDup_fst_map_to_list. Qed.
Lemma range_map_empty : range_map (∅ : gmap K A) = [].
Proof. apply Permutation_nil_r. by rewrite range_map_perm, map_to_list_empty. Qed.

Lemma range_map_insert m k x : range_map (<[k := x]> m) ≡ₚ (k, x) :: range_map (delete k m).
Proof.
  rewrite !range_map_perm, <- insert_delete_eq. apply map_to_list_insert. by rewrite lookup_delete_eq.
Qed.
Lemma range_map_delete m k x : m !! k = Some x → range_map m ≡ₚ (k, x) :: range_map (delete k m).
Proof. intros Hx. rewrite <- range_map_insert. by rewrite insert_id. Qed.

(** Writing a key adds at most one value to what a filter keeps. *)
Lemma range_insert_filter (P : A → Prop) `{∀ x, Decision (P x)} k x m :
  len (filter P (range_map (<[k := x]> m)).*2) ≤ 1 + len (filter P (range_map m).*2).
Proof.
  rewrite range_map_insert. cbn [fmap list_fmap snd]. rewrite filter_cons.
  assert (len (filter P (range_map (delete k m)).*2) ≤ len (filter P (range_map m).*2)).
  { destruct (m !! k) as [y|] eqn:E; [|by rewrite delete_id].
    rewrite (range_map_delete m k y E). cbn [fmap list_fmap snd]. rewrite filter_cons.
    destruct (decide (P y)); rewrite ?len_cons; lia. }
  destruct (decide (P x)); rewrite ?len_cons; lia.
Qed.

(** [for k := range m]. *)
Definition range_keys m : list K := (range_map m).*1.

Lemma elem_of_range_keys m k : k ∈ range_keys m ↔ is_Some (m !! k).
Proof.
  unfold range_keys. rewrite list_elem_of_fmap. split.
  - intros ([k' x] & -> & Hx%elem_of_range_map). by exists x.
  - intros [x Hx%elem_of_range_map]. by exists (k, x).
Qed.
End range.

(** [len(m)]. *)
Definition maplen `{Countable K} {A} (m : gmap K A) : Z := Z.of_nat (size m).

(** [for _, x := range l { out[f(x)]++ }]. *)
Definition tally_by {A} `{Countable K} (f : A → K) (l : list A) (out : gmap K Z) : gmap K Z :=
  foldl (λ out x, <[f x := default 0 (out !! f x) + 1]> out) out l.

Lemma tally_by_app {A} `{Countable K} (f : A → K) (l l' : list A) out :
  tally_by f (l ++ l') out = tally_by f l' (tally_by f l out).
Proof. apply foldl_app. Qed.

Lemma tally_by_lookup {A} `{Countable K} (f : A → K) (l : list A) k :
  tally_by f l ∅ !! k = let n := len (filter (λ x, f x = k) l) in if n =? 0 then None else Some n.
Proof.
  assert (∀ m : gmap K Z, 0 ≤ default 0 (m !! k) → (∀ n, m !! k = Some n → n ≠ 0) →
    tally_by f l m !! k =
    let n := default 0 (m !! k) + len (filter (λ x, f x = k) l) in if n =? 0 then None else Some n) as Hgen.
  { induction l as [|x l IH]; intros m Hm Hnz.
    - cbn. rewrite Z.add_0_r. destruct (m !! k) as [n|] eqn:Em; [|done]. cbn.
      by rewrite (proj2 (Z.eqb_neq _ _) (Hnz n eq_refl)).
    - unfold tally_by in *. cbn [foldl]. rewrite filter_cons. destruct (decide (f x = k)) as [<-|Hne].
      + rewrite IH; rewrite lookup_insert_eq; cbn [default from_option id]; [| lia | intros n [= <-]; lia].
        cbv zeta. rewrite len_cons, Z.add_assoc. done.
      + rewrite IH; rewrite lookup_insert_ne by done; done. }
  by rewrite Hgen; rewrite lookup_empty.
Qed.

(** [for _, n := range l { total += n }]. *)
Definition zsum (l : list Z) : Z := foldl Z.add 0 l.

Lemma zsum_cons x l : zsum (x :: l) = x + zsum l.
Proof.
  unfold zsum. cbn [foldl]. rewrite Z.add_comm.
  assert (∀ a b, foldl Z.add (a + b) l = a + foldl Z.add b l) as Hgen.
  { induction l as [|y l IH]; intros b c; [done|]. cbn [foldl]. by rewrite <- Z.add_assoc, IH. }
  apply Hgen.
Qed.
Lemma zsum_app l k : zsum (l ++ k) = zsum l + zsum k.
Proof. induction l as [|x l IH]; [done|]. cbn [app]. rewrite !zsum_cons, IH. lia. Qed.
#[global] Instance zsum_Permutation : Proper ((≡ₚ) ==> (=)) zsum.
Proof. induction 1; rewrite ?zsum_cons; lia. Qed.

(** A tally adds up to the number of things tallied. *)
Lemma tally_by_sum `{RangeOrder} {A} `{Countable K} (f : A → K) (l : list A) (m : gmap K Z) :
  zsum (range_map (tally_by f l m)).*2 = zsum (range_map m).*2 + len l.
Proof.
  revert m. induction l as [|x l IH]; intros m; [cbn; rewrite len_nil; lia|].
  unfold tally_by in *. cbn [foldl]. rewrite IH, len_cons.
  assert (zsum (range_map (<[f x := default 0 (m !! f x) + 1]> m)).*2 = zsum (range_map m).*2 + 1) as ->; [|lia].
  rewrite range_map_insert. cbn [fmap list_fmap snd]. rewrite zsum_cons.
  destruct (m !! f x) as [n|] eqn:E; cbn [default from_option id].
  - rewrite (range_map_delete m _ _ E). cbn [fmap list_fmap snd]. rewrite zsum_cons. unfold fmap. lia.
  - rewrite delete_id by done. unfold fmap. lia.
Qed.

Lemma len_filter_or {A} (P Q : A → Prop) `{∀ x, Decision (P x), ∀ x, Decision (Q x)} (l : list A) :
  (∀ x, P x → ¬ Q x) → len (filter (λ x, P x ∨ Q x) l) = len (filter P l) + len (filter Q l).
Proof.
  intros Hd. induction l as [|x l IH]; [done|]. rewrite !filter_cons.
  destruct (decide (P x ∨ Q x)), (decide (P x)) as [Hp|], (decide (Q x)); rewrite ?len_cons; try lia;
    solve [tauto | by destruct (Hd x Hp)].
Qed.

(** Counting by value. *)
Lemma count_by_value (l : list Z) n :
  0 ≤ n → Forall (λ x, 0 ≤ x < n) l →
  zsum ((λ i, len (filter (λ x, x = i) l)) <$> seqZ 0 n) = len l.
Proof.
  intros Hn Hl. transitivity (len (filter (λ x, 0 ≤ x < n) l)); [|by rewrite filter_Forall].
  clear Hl. revert n Hn. apply natlike_ind.
  - rewrite filter_none by (apply Forall_forall; intros; lia). done.
  - intros n Hn IH. rewrite <- Z.add_1_r, seqZ_app by lia. rewrite fmap_app, zsum_app, IH.
    change (seqZ (0 + n) 1) with [0 + Z.of_nat 0 + n]. cbn [fmap list_fmap]. rewrite zsum_cons.
    rewrite (filter_ext_in (λ x, 0 ≤ x < n + 1) (λ x, 0 ≤ x < n ∨ x = n)) by (intros; lia).
    rewrite len_filter_or by (intros; lia). rewrite !Z.add_0_l. change (zsum []) with 0. lia.
Qed.

(** [for k := range m { if len(m) < max { break }; delete(m, k) }]. *)
Fixpoint evict `{Countable K} {A} (max : Z) (ks : list K) (m : gmap K A) : gmap K A :=
  match ks with
  | [] => m
  | k :: ks => if maplen m <? max then m else evict max ks (delete k m)
  end.

Lemma evict_subseteq `{Countable K} {A} max ks (m : gmap K A) : evict max ks m ⊆ m.
Proof.
  revert m. induction ks as [|k ks IH]; intros m; simpl; [done|].
  case_match; [done|]. etransitivity; [apply IH|]. apply delete_subseteq.
Qed.

(** Evicting over all keys leaves fewer entries than the ceiling. *)
Lemma evict_size `{Countable K} {A} max ks (m : gmap K A) :
  0 < max → (∀ k, is_Some (m !! k) → k ∈ ks) → NoDup ks → maplen (evict max ks m) < max.
Proof.
  intros Hmax. revert m. induction ks as [|k ks IH]; intros m Hk Hnd; simpl.
  - assert (m = ∅) as ->; [|done]. apply map_empty. intros k.
    destruct (m !! k) eqn:E; [|done]. by destruct (not_elem_of_nil k); apply Hk.
  - case_match eqn:E; [by apply Z.ltb_lt in E|]. apply NoDup_cons in Hnd as [_ Hnd].
    apply IH; [|done]. intros k' [x Hx]. apply lookup_delete_Some in Hx as [Hne Hx].
    assert (k' ∈ k :: ks) as [->|?]%elem_of_cons by eauto; done.
Qed.

(** ** Automation *)

Create HintDb syncapp.
#[export] Hint Resolve len_nonneg u32_range u64_range : syncapp.
#[export] Hint Resolve runs_ret runs_fail runs_get runs_gets runs_lift runs_guard_or
  runs_attempt : syncapp.
#[export] Hint Extern 0 (PreOrder _) => typeclasses eauto : syncapp.

(** Invert a successful monadic run, one bind after the other. *)
Ltac minv H :=
  lazymatch type of H with
  | (_ ≫= _) _ = (_, Ok _) =>
      let s := fresh "s" in let a := fresh "a" in
      let H1 := fresh "Hrun" in
      apply M_bind_Ok in H as (s & a & H1 & H); minv H1; minv H
  | (_ ≫= _) = Ok _ =>
      let a := fresh "a" in let H1 := fresh "Hrun" in
      apply result_bind_Ok in H as (a & H1 & H); minv H1; minv H
  | guard_or _ _ _ = (_, Ok _) => apply guard_or_Ok in H as [H ->]
  | gets _ _ = (_, Ok _) => injection H as <- <-
  | get _ = (_, Ok _) => injection H as <- <-
  | modify _ _ = (_, Ok _) => injection H as <- _
  | mret _ _ = (_, Ok _) => injection H as <- <-
  | fail _ _ = (_, Ok _) => discriminate H
  | _ => idtac
  end.

(** Case on the scrutinee of a [match] in the goal, keeping the equation. *)
Ltac case_scrut :=
  match goal with
  | |- context [match ?x with _ => _ end] => destruct x eqn:?
  end.

(** Boolean comparisons in hypotheses and goal, as propositions. *)
Ltac bool_to_prop :=
  repeat match goal with
  | H : (_ && _)%bool = true |- _ => apply andb_prop in H as [? ?]
  | H : (_ || _)%bool = false |- _ => apply orb_false_elim in H as [? ?]
  | H : negb _ = true |- _ => apply negb_true_iff in H
  | H : negb _ = false |- _ => apply negb_false_iff in H
  | H : (_ <? _) = true |- _ => apply Z.ltb_lt in H
  | H : (_ <? _) = false |- _ => apply Z.ltb_ge in H
  | H : (_ <=? _) = true |- _ => apply Z.leb_le in H
  | H : (_ <=? _) = false |- _ => apply Z.leb_gt in H
  | H : (_ =? _) = true |- _ => apply Z.eqb_eq in H
  | H : (_ =? _) = false |- _ => apply Z.eqb_neq in H
  | H : bool_decide _ = true |- _ => apply bool_decide_eq_true in H
  | H : bool_decide _ = false |- _ => apply bool_decide_eq_false in H
  end.

(** ** Composite string keys

    [a + "|" + b].  Ids are decimal numerals, so the separator never occurs in [a]. *)

Fixpoint no_bar (s : string) : bool :=
  match s with
  | EmptyString => true
  | String a s' => negb (bool_decide (a = "|"%char)) && no_bar s'
  end.

Lemma bar_key_inj u u' d d' :
  no_bar u = true → no_bar u' = true →
  u +:+ "|" +:+ d = u' +:+ "|" +:+ d' → u = u' ∧ d = d'.
Proof.
  revert u'. induction u as [|a u IH]; intros [|a' u']; simpl;
    intros Hu Hu' Heq; bool_to_prop; try (by simplify_eq).
  injection Heq as -> Heq. destruct (IH u') as [-> ->]; done.
Qed.

Lemma prefix_cons a b s t :
  String.prefix (String a s) (String b t) = true → a = b ∧ String.prefix s t = true.
Proof. cbn [String.prefix]. by destruct (ascii_dec a b). Qed.

(** The keys under [u] are those that extend [u + "|"]. *)
Lemma bar_key_prefix u u' d :
  no_bar u' = true → String.prefix (u +:+ "|") (u' +:+ "|" +:+ d) = true → no_bar u = true → u = u'.
Proof.
  revert u'. induction u as [|a u IH]; intros [|a' u'] Hu' Hp Hu; cbn [no_bar] in *; bool_to_prop.
  - done.
  - by apply prefix_cons in Hp as [<- _].
  - by apply (prefix_cons a "|" (u +:+ "|") d) in Hp as [-> _].
  - apply (prefix_cons a a' (u +:+ "|") (u' +:+ "|" +:+ d)) in Hp as [<- Hp]. by rewrite (IH u').
Qed.

Lemma prefix_app_l p s : String.prefix p (p +:+ s) = true.
Proof. induction p as [|c p IH]; [by destruct s|]. simpl. by destruct (ascii_dec c c). Qed.
