(* ===== verification/Bytes.v ===== *)
(** * Bytes

    Byte strings and the parts of Go's [encoding/binary] that the protocol code calls:
    fixed-width big-endian integers and unsigned LEB128 varints, each with its round
    trip. *)

From Stdlib Require Import Strings.Byte.
From S2P Require Import Prelude.

Abbreviation byte := Byte.byte.
Abbreviation bytes := (list Byte.byte).

#[global] Instance byte_eq_dec : EqDecision byte := Byte.byte_eq_dec.

(** ** One byte *)

(** [uint64(b)] and the conversion [byte(z)], which keeps the low eight bits. *)
Definition Zbyte (b : byte) : Z := Z.of_N (Byte.to_N b).
Definition byteZ (z : Z) : byte :=
  default Byte.x00 (Byte.of_N (Z.to_N (z mod 256))).

Lemma Zbyte_range b : 0 ≤ Zbyte b < 256.
Proof. unfold Zbyte. pose proof (Byte.to_N_bounded b). lia. Qed.

Lemma Zbyte_inj b c : Zbyte b = Zbyte c → b = c.
Proof.
  unfold Zbyte. intros H%N2Z.inj.
  pose proof (Byte.of_to_N b) as Hb. pose proof (Byte.of_to_N c) as Hc.
  rewrite H in Hb. congruence.
Qed.

Lemma Zbyte_byteZ z : Zbyte (byteZ z) = z mod 256.
Proof.
  pose proof (Z.mod_pos_bound z 256 ltac:(lia)) as Hz.
  unfold Zbyte, byteZ. destruct (Byte.of_N (Z.to_N (z mod 256))) as [b|] eqn:E; simpl.
  - apply Byte.to_of_N in E. rewrite E. lia.
  - apply Byte.of_N_None_iff in E. lia.
Qed.

Lemma byteZ_Zbyte b : byteZ (Zbyte b) = b.
Proof.
  apply Zbyte_inj. rewrite Zbyte_byteZ. apply Z.mod_small, Zbyte_range.
Qed.

Lemma Zbyte_byteZ_small z : 0 ≤ z < 256 → Zbyte (byteZ z) = z.
Proof. intros. rewrite Zbyte_byteZ. by apply Z.mod_small. Qed.

#[export] Hint Resolve Zbyte_range : syncapp.

(** ** Big-endian integers of [n] bytes *)

(** [binary.BigEndian.PutUint16/32/64] ([n] = 2, 4, 8). *)
Fixpoint be_put (n : nat) (v : Z) : bytes :=
  match n with
  | O => []
  | S n' => byteZ (Z.shiftr v (8 * Z.of_nat n')) :: be_put n' v
  end.

(** [binary.BigEndian.Uint16/32/64]. *)
Fixpoint be_get (bs : bytes) : Z :=
  match bs with
  | [] => 0
  | b :: t => Zbyte b * 2 ^ (8 * len t) + be_get t
  end.

Lemma length_be_put n v : length (be_put n v) = n.
Proof. induction n; simpl; congruence. Qed.

Lemma len_be_put n v : len (be_put n v) = Z.of_nat n.
Proof. unfold len. by rewrite length_be_put. Qed.

Lemma be_get_put n v : be_get (be_put n v) = v mod 2 ^ (8 * Z.of_nat n).
Proof.
  induction n as [|n IH]; cbn [be_put be_get].
  { by rewrite Z.mod_1_r. }
  rewrite IH, len_be_put, Zbyte_byteZ, Z.shiftr_div_pow2 by lia.
  replace (8 * Z.of_nat (S n)) with (8 * Z.of_nat n + 8) by lia.
  rewrite Z.pow_add_r by lia. change (2 ^ 8) with 256.
  rewrite Z.rem_mul_r by lia. lia.
Qed.

Lemma be_get_range bs : 0 ≤ be_get bs < 2 ^ (8 * len bs).
Proof.
  induction bs as [|b t IH]; cbn [be_get].
  { unfold len. simpl. lia. }
  rewrite len_cons. replace (8 * (1 + len t)) with (8 + 8 * len t) by lia.
  rewrite Z.pow_add_r by (pose proof (len_nonneg t); lia).
  pose proof (Zbyte_range b). nia.
Qed.

Lemma be_put_get bs : be_put (length bs) (be_get bs) = bs.
Proof.
  assert (∀ n v k, be_put n (v + k * 2 ^ (8 * Z.of_nat n)) = be_put n v) as Hhigh.
  { induction n as [|n IH]; intros v k; [done|]. cbn [be_put]. f_equal.
    - apply Zbyte_inj. rewrite !Zbyte_byteZ, !Z.shiftr_div_pow2 by lia.
      replace (8 * Z.of_nat (S n)) with (8 * Z.of_nat n + 8) by lia.
      rewrite Z.pow_add_r by lia.
      replace (k * (2 ^ (8 * Z.of_nat n) * 2 ^ 8))
        with ((k * 256) * 2 ^ (8 * Z.of_nat n)) by lia.
      rewrite Z.div_add by lia. by rewrite Z.mod_add by lia.
    - replace (8 * Z.of_nat (S n)) with (8 + 8 * Z.of_nat n) by lia.
      rewrite Z.pow_add_r by lia. rewrite Z.mul_assoc. apply IH. }
  induction bs as [|b t IH]; [done|]. cbn [be_get length be_put]. f_equal.
  - apply Zbyte_inj. rewrite Zbyte_byteZ, Z.shiftr_div_pow2 by lia.
    fold (len t). pose proof (be_get_range t) as Hr. pose proof (Zbyte_range b).
    rewrite Z.div_add_l by lia. rewrite Z.div_small, Z.add_0_r by lia.
    by apply Z.mod_small.
  - rewrite Z.add_comm. unfold len. by rewrite Hhigh.
Qed.

(** ** Unsigned varints *)

(** [binary.AppendUvarint(nil, x)]: seven bits per byte, low group first.
    Ten rounds exhaust a [uint64]. *)
Fixpoint append_uvarint_loop (fuel : nat) (x : Z) : bytes :=
  match fuel with
  | O => []
  | S fuel' =>
      if 128 <=? x
      then byteZ (Z.lor (x mod 256) 128) :: append_uvarint_loop fuel' (Z.shiftr x 7)
      else [byteZ x]
  end.
Definition append_uvarint (x : Z) : bytes := append_uvarint_loop 10 x.

(** [binary.Uvarint]: the value and the number of bytes read; the count is 0 on
    a truncated input and negative on an overflow. *)
Fixpoint uvarint_loop (buf : bytes) (i x s : Z) : Z * Z :=
  match buf with
  | [] => (0, 0)
  | b :: rest =>
      if i =? 10 then (0, - (i + 1))
      else if Zbyte b <? 128 then
        if (i =? 9) && (1 <? Zbyte b) then (0, - (i + 1))
        else (Z.lor x (u64 (Z.shiftl (Zbyte b) s)), i + 1)
      else uvarint_loop rest (i + 1)
             (Z.lor x (u64 (Z.shiftl (Z.land (Zbyte b) 127) s))) (s + 7)
  end.
Definition uvarint (buf : bytes) : Z * Z := uvarint_loop buf 0 0 0.

Lemma lor_128 r : 0 ≤ r < 256 → Z.lor r 128 = r mod 128 + 128.
Proof.
  apply (seqZ_forall (λ r, Z.lor r 128 = r mod 128 + 128) 0 256).
  by vm_compute.
Qed.

Lemma lor_shiftl_add a x s :
  0 ≤ s → 0 ≤ a < 2 ^ s → Z.lor a (Z.shiftl x s) = a + x * 2 ^ s.
Proof.
  intros Hs Ha.
  assert (Z.land a (Z.shiftl x s) = 0) as Hd.
  { destruct (decide (a = 0)) as [->|Hne]; [apply Z.land_0_l|].
    apply Z.bits_inj'. intros n Hn. rewrite Z.land_spec, Z.bits_0.
    destruct (Z.lt_ge_cases n s).
    - rewrite Z.shiftl_spec_low by lia. apply andb_false_r.
    - rewrite (Z.bits_above_log2 a n); [done|lia|].
      apply Z.log2_lt_pow2; [lia|].
      eapply Z.lt_le_trans; [apply Ha|]. apply Z.pow_le_mono_r; lia. }
  rewrite <- Z.lxor_lor by done. rewrite <- Z.add_nocarry_lxor by done.
  by rewrite Z.shiftl_mul_pow2.
Qed.

Lemma append_uvarint_loop_len fuel x :
  0 ≤ x < 2 ^ (7 * Z.of_nat fuel) → (0 < fuel)%nat →
  1 ≤ len (append_uvarint_loop fuel x) ≤ Z.of_nat fuel.
Proof.
  revert x. induction fuel as [|fuel IH]; intros x Hx Hf; [lia|].
  cbn [append_uvarint_loop]. destruct (128 <=? x) eqn:E; bool_to_prop.
  - assert (0 < fuel)%nat.
    { destruct fuel; [change (2 ^ (7 * Z.of_nat 1)) with 128 in Hx; lia | lia]. }
    rewrite len_cons. rewrite Z.shiftr_div_pow2 by lia.
    enough (1 ≤ len (append_uvarint_loop fuel (x / 2 ^ 7)) ≤ Z.of_nat fuel) by lia.
    apply IH; [|done]. split; [apply Z.div_pos; lia|].
    apply Z.div_lt_upper_bound; [lia|]. rewrite <- Z.pow_add_r by lia.
    replace (7 + 7 * Z.of_nat fuel) with (7 * Z.of_nat (S fuel)) by lia. lia.
  - rewrite len_cons, len_nil. lia.
Qed.

(** Decoding a varint and whatever follows it returns the value and its width. *)
Lemma uvarint_loop_append fuel x rest i acc :
  0 ≤ i → i + Z.of_nat fuel = 10 →
  0 ≤ acc < 2 ^ (7 * i) → 0 ≤ x < 2 ^ (64 - 7 * i) →
  uvarint_loop (append_uvarint_loop fuel x ++ rest) i acc (7 * i) =
  (acc + x * 2 ^ (7 * i), i + len (append_uvarint_loop fuel x)).
Proof.
  revert x i acc. induction fuel as [|fuel IH]; intros x i acc Hi Hf Ha Hx.
  { replace (64 - 7 * i) with (-6) in Hx by lia. simpl in Hx. lia. }
  assert (x * 2 ^ (7 * i) < 2 ^ 64) as Hx64.
  { replace 64 with ((64 - 7 * i) + 7 * i) by lia. rewrite Z.pow_add_r by lia. nia. }
  cbn [append_uvarint_loop]. destruct (128 <=? x) eqn:E; bool_to_prop.
  - assert (Zbyte (byteZ (Z.lor (x mod 256) 128)) = x mod 128 + 128) as Hb.
    { pose proof (Z.mod_pos_bound x 256 ltac:(lia)).
      pose proof (Z.mod_pos_bound x 128 ltac:(lia)).
      assert ((x mod 256) mod 128 = x mod 128) as Hm by (Z.div_mod_to_equations; lia).
      rewrite lor_128, Hm by done. apply Zbyte_byteZ_small. lia. }
    cbn [app uvarint_loop]. rewrite Hb.
    assert (i < 9) as Hi9.
    { destruct (decide (9 ≤ i)); [|lia]. assert (i = 9) as -> by lia.
      simpl in Hx. lia. }
    rewrite (proj2 (Z.eqb_neq i 10)) by lia.
    pose proof (Z.mod_pos_bound x 128 ltac:(lia)) as Hm.
    rewrite (proj2 (Z.ltb_ge _ 128)) by lia.
    assert (Z.land (x mod 128 + 128) 127 = x mod 128) as ->.
    { change 127 with (Z.ones 7). rewrite Z.land_ones by lia.
      change (2 ^ 7) with 128. replace (x mod 128 + 128) with (x mod 128 + 1 * 128) by lia.
      rewrite Z.mod_add by lia. apply Z.mod_mod. lia. }
    assert (x mod 128 ≤ x) by (apply Z.mod_le; lia).
    assert (0 < 2 ^ (7 * i)) by lia.
    unfold u64. rewrite (Z.mod_small (Z.shiftl (x mod 128) _))
      by (rewrite Z.shiftl_mul_pow2 by lia; nia).
    rewrite lor_shiftl_add by lia.
    replace (7 * i + 7) with (7 * (i + 1)) by lia.
    assert (2 ^ (7 * (i + 1)) = 2 ^ (7 * i) * 128) as Hp.
    { replace (7 * (i + 1)) with (7 * i + 7) by lia. by rewrite Z.pow_add_r by lia. }
    rewrite Z.shiftr_div_pow2 by lia. change (2 ^ 7) with 128.
    rewrite IH; [| lia | lia | nia |].
    + rewrite len_cons, Hp. f_equal; [|lia].
      rewrite (Z.div_mod x 128) at 3 by lia. ring.
    + split; [apply Z.div_pos; lia|]. apply Z.div_lt_upper_bound; [lia|].
      change 128 with (2 ^ 7). rewrite <- Z.pow_add_r by lia.
      replace (7 + (64 - 7 * (i + 1))) with (64 - 7 * i) by lia. lia.
  - cbn [app uvarint_loop]. rewrite Zbyte_byteZ_small by lia.
    rewrite (proj2 (Z.eqb_neq i 10)) by lia. rewrite (proj2 (Z.ltb_lt x 128)) by lia.
    assert ((i =? 9) && (1 <? x) = false) as ->.
    { destruct (i =? 9) eqn:E9; [|done]. bool_to_prop. subst i. simpl in Hx.
      apply Z.ltb_ge. lia. }
    unfold u64. rewrite (Z.mod_small (Z.shiftl x _))
      by (rewrite Z.shiftl_mul_pow2 by lia; nia).
    rewrite lor_shiftl_add by lia. by rewrite len_cons, len_nil.
Qed.

Lemma uvarint_append x rest :
  0 ≤ x < 2 ^ 64 →
  uvarint (append_uvarint x ++ rest) = (x, len (append_uvarint x)).
Proof.
  intros Hx. unfold uvarint, append_uvarint.
  replace (uvarint_loop _ 0 0 0)
    with (uvarint_loop (append_uvarint_loop 10 x ++ rest) 0 0 (7 * 0)) by done.
  rewrite uvarint_loop_append by (simpl; lia).
  rewrite Z.mul_0_r. simpl (7 * 0). f_equal; lia.
Qed.

Lemma append_uvarint_len x :
  0 ≤ x < 2 ^ 64 → 1 ≤ len (append_uvarint x) ≤ 10.
Proof.
  intros Hx. apply (append_uvarint_loop_len 10 x); [|lia].
  split; [lia|]. change (2 ^ (7 * Z.of_nat 10)) with (2 ^ 70). lia.
Qed.

(** A successful read consumes at least one and at most ten bytes, all of them
    in the buffer, and yields a [uint64]. *)
Lemma uvarint_loop_bound buf i x s v n :
  0 ≤ i ≤ 10 → s = 7 * i → 0 ≤ x < 2 ^ 64 →
  uvarint_loop buf i x s = (v, n) → 0 < n →
  i < n ≤ 10 ∧ n - i ≤ len buf ∧ 0 ≤ v < 2 ^ 64.
Proof.
  assert (∀ a b, 0 ≤ a < 2 ^ 64 → 0 ≤ b < 2 ^ 64 → 0 ≤ Z.lor a b < 2 ^ 64) as Hlor.
  { intros a b Ha Hb. split; [apply Z.lor_nonneg; lia|].
    destruct (decide (Z.lor a b = 0)) as [->|]; [lia|].
    assert (0 ≤ Z.lor a b) by (apply Z.lor_nonneg; lia).
    apply Z.log2_lt_pow2; [lia|]. rewrite Z.log2_lor by lia.
    apply Z.max_lub_lt.
    - destruct (decide (a = 0)) as [->|]; [simpl; lia|]. apply Z.log2_lt_pow2; lia.
    - destruct (decide (b = 0)) as [->|]; [simpl; lia|]. apply Z.log2_lt_pow2; lia. }
  revert i x s. induction buf as [|b buf IH]; intros i x s Hi Hs Hx; cbn [uvarint_loop].
  { intros [= <- <-]. lia. }
  rewrite len_cons. pose proof (len_nonneg buf).
  repeat case_scrut; bool_to_prop; intros Heq Hn.
  1,2: injection Heq as <- <-; lia.
  - injection Heq as <- <-. pose proof (u64_range (Z.shiftl (Zbyte b) s)).
    split_and!; try lia; by apply Hlor.
  - apply IH in Heq; [| lia | lia | |lia].
    + lia.
    + apply Hlor; [done|]. apply u64_range.
Qed.

(** ** Go strings as byte strings *)

Definition sbytes (s : string) : bytes := String.list_byte_of_string s.
Definition bstring (b : bytes) : string := String.string_of_list_byte b.

Lemma bstring_sbytes s : bstring (sbytes s) = s.
Proof. apply String.string_of_list_byte_of_string. Qed.
Lemma sbytes_bstring b : sbytes (bstring b) = b.
Proof. apply String.list_byte_of_string_of_list_byte. Qed.

(** ** FNV-1a, 32 bits ([hash/fnv.New32a]) *)

Definition fnv32a (b : bytes) : Z :=
  foldl (λ h c, u32 (Z.lxor h (Zbyte c) * 16777619)) 2166136261 b.

Lemma fnv32a_range b : 0 ≤ fnv32a b < 2 ^ 32.
Proof.
  unfold fnv32a. induction b as [|c b IH] using rev_ind; [done|].
  rewrite foldl_app. apply u32_range.
Qed.
