(* ===== verification/Frame.v ===== *)
(** * Frame

    The framing layer of [pkg/wire] (frame.go, compress.go): header validation,
    the in-memory and the stream decoders, both encoders, and the bounds every
    decoding path puts on attacker-controlled sizes.

    The two compressors are libraries, hence parameters: [zstd]'s [EncodeAll] and
    [DecodeAll] (klauspost/compress) and gzip's writer and reader.  The gzip
    reader is a stream that yields some bytes and then ends or fails, so that the
    [io.LimitReader] cut in [gzipDecompress] is modelled and not assumed. *)

From Stdlib Require Import Strings.Byte.
From S2P Require Import Prelude Bytes.

(** ** Constants *)

Definition Magic0 : byte := byteZ 0x53.
Definition Magic1 : byte := byteZ 0x43.
Definition Version : byte := byteZ 0x01.
Definition HeaderSize : Z := 8.
Definition MaxPayloadSize : Z := Z.shiftl 16 20.
Definition FlagCompressed : Z := Z.shiftl 1 0.
Definition FlagZstd : Z := Z.shiftl 1 1.

(** [flags&f != 0]. *)
Definition has_flag (flags f : Z) : bool := negb (Z.land flags f =? 0).

(** ** The compressors *)

(** The errors [DecodeAll] distinguishes. *)
Inductive zstd_error :=
  | ErrDecoderSizeExceeded
  | ErrWindowSizeExceeded
  | ZstdOther.

Class Compressors := {
  zstdEncodeAll : bytes → bytes;
  zstdDecodeAll : bytes → bytes + zstd_error;
  (** [gzip.NewWriter]; [Write]; [Close]. *)
  gzipWrite : bytes → result bytes;
  (** [gzip.NewReader]: [None] when the header is refused; otherwise everything
      the reader yields, and the error that ends the stream ([None] is EOF). *)
  gzipRead : bytes → option (bytes * option error);
}.

(** What the protocol relies on: each library inverts itself on payloads that
    fit a frame. *)
Class CompressorLaws `{Compressors} := {
  zstd_roundtrip p : len p ≤ MaxPayloadSize → zstdDecodeAll (zstdEncodeAll p) = inl p;
  gzip_roundtrip p c : gzipWrite p = Ok c → gzipRead c = Some (p, None);
}.

Section frame.
Context `{Compressors}.

Definition zstdCompress (b : bytes) : bytes := zstdEncodeAll b.

Definition zstdDecompress (b : bytes) : result bytes :=
  match zstdDecodeAll b with
  | inr ErrDecoderSizeExceeded | inr ErrWindowSizeExceeded => Err wire_ErrTooLarge
  | inr ZstdOther => Err codec_error
  | inl out => if MaxPayloadSize <? len out then Err wire_ErrTooLarge else Ok out
  end.

Definition gzipCompress (b : bytes) : result bytes := gzipWrite b.

(** [io.ReadAll(io.LimitReader(zr, limit))]: the error surfaces only when the
    stream ends before the limit is reached. *)
Definition read_all_limited (limit : Z) (stream : bytes * option error) : result bytes :=
  let '(out, e) := stream in
  if limit <=? len out then Ok (ztake limit out)
  else match e with Some err => Err err | None => Ok out end.

Definition gzipDecompress (b : bytes) : result bytes :=
  match gzipRead b with
  | None => Err codec_error
  | Some stream =>
      out ← read_all_limited (MaxPayloadSize + 1) stream;
      if MaxPayloadSize <? len out then Err wire_ErrTooLarge else Ok out
  end.

Definition decompress (flags : Z) (payload : bytes) : result bytes :=
  if has_flag flags FlagZstd then zstdDecompress payload
  else if has_flag flags FlagCompressed then gzipDecompress payload
  else Ok payload.

(** The compression step shared by both encoders. *)
Definition compress_for (flags : Z) (payload : bytes) : result bytes :=
  if has_flag flags FlagZstd then Ok (zstdCompress payload)
  else if has_flag flags FlagCompressed then gzipCompress payload
  else Ok payload.

(** ** Headers *)

(** [parseHeader hdr max] on an eight-byte header. *)
Definition parseHeader (hdr : bytes) (max : Z) : result (Z * Z) :=
  match hdr with
  | m0 :: m1 :: ver :: flags :: rest =>
      if negb (bool_decide (m0 = Magic0) && bool_decide (m1 = Magic1))
      then Err wire_ErrBadMagic
      else if negb (bool_decide (ver = Version)) then Err wire_ErrBadVersion
      else
        let n := be_get (ztake 4 rest) in
        let max := if (MaxPayloadSize <? max) || (max <=? 0) then MaxPayloadSize else max in
        if max <? n then Err wire_ErrTooLarge else Ok (Zbyte flags, n)
  | _ => Err io_ErrUnexpectedEOF
  end.

(** The bytes [buf[0:8]] both encoders lay out. *)
Definition frame_header (flags n : Z) : bytes :=
  [Magic0; Magic1; Version; byteZ flags] ++ be_put 4 (u32 n).

(** ** In-memory frames *)

Definition EncodeFrame (flags : Z) (payload : bytes) : result bytes :=
  payload ← compress_for flags payload;
  if MaxPayloadSize <? len payload then Err wire_ErrTooLarge
  else Ok (frame_header flags (len payload) ++ payload).

Definition decodeRawFrame (b : bytes) (max : Z) : result (Z * bytes) :=
  if len b <? HeaderSize then Err io_ErrUnexpectedEOF
  else
    '(flags, n) ← parseHeader (ztake HeaderSize b) max;
    if len b <? HeaderSize + n then Err io_ErrUnexpectedEOF
    else Ok (flags, ztake n (zdrop HeaderSize b)).

Definition DecodeFrame (b : bytes) : result bytes :=
  '(flags, raw) ← decodeRawFrame b MaxPayloadSize;
  decompress flags raw.

(** ** Stream frames *)

(** [io.ReadFull(r, buf)] with [len(buf) = n]; the state is what the reader
    still has to deliver. *)
Definition ReadFull (n : Z) : M bytes bytes := λ s,
  if n <=? 0 then (s, Ok [])
  else if len s =? 0 then (s, Err io_EOF)
  else if len s <? n then ([], Err io_ErrUnexpectedEOF)
  else (zdrop n s, Ok (ztake n s)).

Definition readRawFrame (max : Z) : M bytes (Z * bytes) :=
  hdr ← ReadFull HeaderSize;
  '(flags, n) ← lift (parseHeader hdr max);
  buf ← ReadFull n;
  mret (flags, buf).

Definition ReadFrame : M bytes bytes :=
  '(flags, raw) ← readRawFrame MaxPayloadSize;
  lift (decompress flags raw).

(** [WriteFrame] appends to what the writer has sent.  [pooled] is whatever the
    recycled assembly buffer still holds; [PutUint32] overwrites the four length
    bytes in place. *)
Definition WriteFrame (pooled : bytes) (flags : Z) (payload : bytes) : M bytes unit :=
  payload ← lift (compress_for flags payload);
  if MaxPayloadSize <? len payload then fail wire_ErrTooLarge
  else
    let buf := ztake 0 pooled ++
      [Magic0; Magic1; Version; byteZ flags; Byte.x00; Byte.x00; Byte.x00; Byte.x00] in
    let buf := ztake 4 buf ++ be_put 4 (u32 (len payload)) ++ zdrop 8 buf in
    modify (λ sent, sent ++ (buf ++ payload)).

(** ** Lemmas *)

Lemma MaxPayloadSize_eq : MaxPayloadSize = 16777216.
Proof. done. Qed.

Lemma frame_header_len flags n : len (frame_header flags n) = HeaderSize.
Proof. done. Qed.

(** Header validation accepts what the encoders lay out. *)
Lemma parseHeader_frame_header flags n max :
  0 ≤ flags < 256 → 0 ≤ n ≤ MaxPayloadSize → (0 < max → n ≤ max) →
  parseHeader (frame_header flags n) max = Ok (flags, n).
Proof.
  intros Hf Hn Hmax. unfold frame_header. cbn [app parseHeader].
  rewrite !bool_decide_true by done. cbn [negb andb].
  assert (ztake 4 (be_put 4 (u32 n)) = be_put 4 (u32 n)) as -> by done.
  rewrite MaxPayloadSize_eq in *.
  rewrite be_get_put, u32_small by lia. change (8 * Z.of_nat 4) with 32.
  rewrite Z.mod_small by lia. rewrite Zbyte_byteZ_small by done.
  destruct ((16777216 <? max) || (max <=? 0)) eqn:E; bool_to_prop;
    by rewrite (proj2 (Z.ltb_ge _ n)) by lia.
Qed.

Lemma parseHeader_Ok hdr max flags n :
  parseHeader hdr max = Ok (flags, n) →
  0 ≤ flags < 256 ∧ 0 ≤ n ≤ MaxPayloadSize ∧ (0 < max → n ≤ max).
Proof.
  unfold parseHeader. destruct hdr as [|m0 [|m1 [|v [|f rest]]]]; try done.
  repeat case_scrut; try done; intros [= <- <-].
  pose proof (Zbyte_range f). pose proof (be_get_range (ztake 4 rest)).
  repeat match goal with H : ((if ?c then _ else _) <? _) = _ |- _ =>
    destruct c eqn:?; bool_to_prop end; rewrite ?orb_true_iff in *;
  bool_to_prop; split_and!; lia.
Qed.

Lemma decodeRawFrame_header flags p rest max :
  0 ≤ flags < 256 → len p ≤ MaxPayloadSize →
  parseHeader (frame_header flags (len p)) max = Ok (flags, len p) →
  decodeRawFrame (frame_header flags (len p) ++ p ++ rest) max = Ok (flags, p).
Proof.
  intros Hf Hp Hh. unfold decodeRawFrame.
  pose proof (frame_header_len flags (len p)) as Hl.
  pose proof (len_nonneg p). pose proof (len_nonneg rest).
  rewrite !len_app, Hl. rewrite (proj2 (Z.ltb_ge _ HeaderSize)) by lia.
  rewrite <- Hl at 1. rewrite ztake_app_len, Hh. cbn [mbind result_bind].
  rewrite (proj2 (Z.ltb_ge _ _)) by lia.
  rewrite <- Hl. by rewrite zdrop_app_len, ztake_app_len.
Qed.

Lemma compress_for_plain flags p :
  has_flag flags FlagZstd = false → has_flag flags FlagCompressed = false →
  compress_for flags p = Ok p.
Proof. unfold compress_for. by intros -> ->. Qed.

Lemma decompress_compress `{!CompressorLaws} flags p c :
  len p ≤ MaxPayloadSize → compress_for flags p = Ok c → decompress flags c = Ok p.
Proof.
  intros Hp. unfold compress_for, decompress, zstdCompress, zstdDecompress,
    gzipCompress, gzipDecompress. pose proof (len_nonneg p).
  destruct (has_flag flags FlagZstd).
  { intros [= <-]. rewrite zstd_roundtrip by done.
    by rewrite (proj2 (Z.ltb_ge _ _)) by lia. }
  destruct (has_flag flags FlagCompressed); [|by intros [= <-]].
  intros Hc. rewrite (gzip_roundtrip p c) by done. unfold read_all_limited.
  rewrite (proj2 (Z.leb_gt _ _)) by lia. simpl.
  by rewrite (proj2 (Z.ltb_ge _ _)) by lia.
Qed.

Lemma decompress_bound flags p out :
  len p ≤ MaxPayloadSize → decompress flags p = Ok out → len out ≤ MaxPayloadSize.
Proof.
  intros Hp. unfold decompress, zstdDecompress, gzipDecompress.
  repeat case_scrut; try done.
  - intros [= <-]. by bool_to_prop.
  - intros Hd. apply result_bind_Ok in Hd as (o & _ & Hd).
    destruct (MaxPayloadSize <? len o) eqn:E; [done|].
    injection Hd as <-. by bool_to_prop.
  - by intros [= <-].
Qed.

Lemma ReadFull_app k rest :
  ReadFull (len k) (k ++ rest) = (rest, Ok k).
Proof.
  unfold ReadFull. pose proof (len_nonneg k). pose proof (len_nonneg rest).
  destruct (len k <=? 0) eqn:E; bool_to_prop.
  { destruct k; [done|]. rewrite len_cons in *. pose proof (len_nonneg k). lia. }
  rewrite len_app, (proj2 (Z.eqb_neq _ 0)), (proj2 (Z.ltb_ge _ _)) by lia.
  by rewrite zdrop_app_len, ztake_app_len.
Qed.

(** The stream decoder and the in-memory decoder read the same frame. *)
Lemma readRawFrame_header flags p rest max :
  parseHeader (frame_header flags (len p)) max = Ok (flags, len p) →
  readRawFrame max (frame_header flags (len p) ++ p ++ rest) = (rest, Ok (flags, p)).
Proof.
  intros Hh. unfold readRawFrame. rewrite M_bind_eq.
  rewrite <- (frame_header_len flags (len p)), ReadFull_app.
  rewrite M_bind_eq. unfold lift. rewrite Hh.
  by rewrite M_bind_eq, ReadFull_app.
Qed.

Lemma EncodeFrame_Ok flags p b :
  EncodeFrame flags p = Ok b →
  ∃ c, compress_for flags p = Ok c ∧ len c ≤ MaxPayloadSize ∧
       b = frame_header flags (len c) ++ c.
Proof.
  unfold EncodeFrame. intros He. apply result_bind_Ok in He as (c & Hc & He).
  destruct (MaxPayloadSize <? len c) eqn:E; [done|]. bool_to_prop.
  injection He as <-. eauto.
Qed.

Lemma WriteFrame_eq pooled flags p sent :
  WriteFrame pooled flags p sent =
  match EncodeFrame flags p with
  | Ok b => (sent ++ b, Ok tt)
  | Err e => (sent, Err e)
  end.
Proof.
  unfold WriteFrame, EncodeFrame. rewrite M_bind_eq. unfold lift.
  destruct (compress_for flags p) as [c|e]; [|done]. simpl.
  by destruct (MaxPayloadSize <? len c).
Qed.

End frame.

(** ** Properties *)

(** Sending a list of frames over one stream, and reading [n] of them back. *)
Fixpoint write_frames `{Compressors} (fs : list (bytes * (Z * bytes))) : M bytes unit :=
  match fs with
  | [] => mret tt
  | (pooled, (flags, p)) :: fs' => WriteFrame pooled flags p ;; write_frames fs'
  end.

Fixpoint read_frames `{Compressors} (n : nat) : M bytes (list bytes) :=
  match n with
  | O => mret []
  | S n' => p ← ReadFrame; ps ← read_frames n'; mret (p :: ps)
  end.

Lemma write_frames_app `{Compressors} fs sent :
  write_frames fs sent = let '(out, r) := write_frames fs [] in (sent ++ out, r).
Proof.
  revert sent. induction fs as [|[pooled [fl p]] fs IH]; intros sent; cbn [write_frames].
  { unfold mret, M_ret. by rewrite app_nil_r. }
  rewrite !M_bind_eq, !WriteFrame_eq.
  destruct (EncodeFrame fl p) as [b|e]; [|by rewrite app_nil_r].
  rewrite IH, (IH ([] ++ b)). destruct (write_frames fs []) as [o r].
  by rewrite app_assoc.
Qed.

Lemma ReadFrame_EncodeFrame `{CompressorLaws} flags p b rest :
  0 ≤ flags < 256 → len p ≤ MaxPayloadSize →
  EncodeFrame flags p = Ok b → ReadFrame (b ++ rest) = (rest, Ok p).
Proof.
  intros Hf Hp (c & Hc & Hlc & ->)%EncodeFrame_Ok. pose proof (len_nonneg c).
  unfold ReadFrame. rewrite <- app_assoc, M_bind_eq, (readRawFrame_header flags c).
  - unfold lift. by erewrite decompress_compress.
  - apply parseHeader_frame_header; lia.
Qed.

(** In-memory frames round-trip: whatever [EncodeFrame] produces, followed by
    arbitrary bytes, [DecodeFrame] reads back as the original payload, for every
    flag byte (plain, gzip, zstd), the compressors being inverted by their
    decompressors. *)
Theorem DecodeFrame_EncodeFrame `{CompressorLaws} flags p b rest :
  0 ≤ flags < 256 → len p ≤ MaxPayloadSize →
  EncodeFrame flags p = Ok b → DecodeFrame (b ++ rest) = Ok p.
Proof.
  intros Hf Hp (c & Hc & Hlc & ->)%EncodeFrame_Ok.
  unfold DecodeFrame. rewrite <- app_assoc, (decodeRawFrame_header flags c); try done.
  - simpl. by eapply decompress_compress.
  - pose proof (len_nonneg c). apply parseHeader_frame_header; lia.
Qed.

(** Stream framing keeps message boundaries: frames written one after another
    through the pooled [WriteFrame], each under its own flags, are read back by
    [ReadFrame] in order, payload by payload, and the bytes after the last frame
    are left in the stream. *)
Theorem read_write_frames `{CompressorLaws} fs stream rest :
  Forall (λ f, 0 ≤ f.2.1 < 256 ∧ len f.2.2 ≤ MaxPayloadSize) fs →
  write_frames fs [] = (stream, Ok tt) →
  read_frames (length fs) (stream ++ rest) = (rest, Ok (snd ∘ snd <$> fs)).
Proof.
  revert stream. induction fs as [|[pooled [fl p]] fs IH]; intros stream Hok.
  { by intros [= <-]. }
  apply Forall_cons in Hok as [[Hfl Hp] Hok]. cbn [write_frames length read_frames].
  rewrite M_bind_eq, WriteFrame_eq.
  destruct (EncodeFrame fl p) as [b|e] eqn:He; [|done].
  rewrite write_frames_app. destruct (write_frames fs []) as [out r] eqn:Hout.
  intros [= <- ->]. rewrite <- app_assoc, M_bind_eq.
  change (([] ++ b) ++ ?x) with (b ++ x).
  rewrite (ReadFrame_EncodeFrame fl p) by done.
  by rewrite M_bind_eq, (IH out) by done.
Qed.

(** C37: No input makes a decoder return more than [MaxPayloadSize] bytes,
    whatever its flags, its length prefix and its compressed contents: the
    in-memory path and the stream path are both bounded, for any behaviour of the
    decompression libraries. *)
Theorem decoded_payload_bounded `{Compressors} b out s s' :
  (DecodeFrame b = Ok out → len out ≤ MaxPayloadSize) ∧
  (ReadFrame s = (s', Ok out) → len out ≤ MaxPayloadSize).
Proof.
  split.
  - unfold DecodeFrame, decodeRawFrame. intros Hd.
    apply result_bind_Ok in Hd as ([fl raw] & Hraw & Hd).
    destruct (len b <? HeaderSize); [done|].
    apply result_bind_Ok in Hraw as ([fl' n] & Hh & Hraw).
    destruct (len b <? HeaderSize + n) eqn:E; [done|]. injection Hraw as -> <-.
    apply parseHeader_Ok in Hh as (? & ? & _). bool_to_prop.
    assert (HeaderSize = 8) by done.
    apply (decompress_bound fl) in Hd; [done|].
    rewrite len_ztake; [lia|]. rewrite len_zdrop; lia.
  - unfold ReadFrame, readRawFrame. intros Hd. apply M_bind_Ok in Hd as (s1 & [fl raw] & Hraw & Hd).
    apply M_bind_Ok in Hraw as (s2 & hdr & _ & Hraw).
    apply M_bind_Ok in Hraw as (s3 & [fl' n] & Hh & Hraw).
    apply M_bind_Ok in Hraw as (s4 & buf & Hbuf & Hraw).
    injection Hh as <- Hh. injection Hraw as -> -> ->. injection Hd as _ Hd.
    apply parseHeader_Ok in Hh as (? & ? & _).
    apply (decompress_bound fl) in Hd; [done|].
    revert Hbuf. unfold ReadFull. repeat case_scrut; bool_to_prop; try done;
      intros [= <- <-]; [rewrite len_nil; lia|]. rewrite len_ztake; lia.
Qed.

(** ** Witnesses

    Stored blocks: a one-byte tag in front of the payload stands for each
    compressed format. *)
Definition stored : Compressors := {|
  zstdEncodeAll p := Byte.x28 :: p;
  zstdDecodeAll b := match b with Byte.x28 :: p => inl p | _ => inr ZstdOther end;
  gzipWrite p := Ok (Byte.x1f :: p);
  gzipRead b := match b with Byte.x1f :: p => Some (p, None) | _ => None end;
|}.

#[local] Instance stored_laws : @CompressorLaws stored.
Proof. split; simpl; [done | by intros p c [= <-]]. Qed.

Definition sample : bytes := [Byte.x68; Byte.x69].

Lemma DecodeFrame_EncodeFrame_witness :
  ∃ b, @EncodeFrame stored FlagZstd sample = Ok b ∧
       @DecodeFrame stored (b ++ [Byte.x00]) = Ok sample.
Proof.
  eexists. split; [reflexivity|].
  apply (@DecodeFrame_EncodeFrame stored stored_laws FlagZstd sample);
    [by vm_compute | by vm_compute | reflexivity].
Defined.

Lemma read_write_frames_witness :
  ∃ stream,
    @read_frames stored 2 (stream ++ [Byte.x00]) = ([Byte.x00], Ok [sample; []]) ∧
    @write_frames stored [([], (FlagCompressed, sample)); (sample, (0, []))] [] =
      (stream, Ok tt).
Proof.
  eexists. split; [|reflexivity].
  apply (@read_write_frames stored stored_laws
           [([], (FlagCompressed, sample)); (sample, (0, []))] _ [Byte.x00]);
    [by repeat constructor | reflexivity].
Defined.
