(* ===== verification/Envelope.v ===== *)
(** * Envelope

    The envelope codec of [pkg/wire] (envelope.go): five unsigned varints (type,
    seq, ack, request id, body length) followed by the body. *)

From Stdlib Require Import Strings.Byte.
From S2P Require Import Prelude Bytes.

Record Envelope := mkEnvelope {
  Type_ : Z;      (* MsgType, uint16 *)
  Seq : Z;        (* uint64 *)
  Ack : Z;        (* uint64 *)
  RequestID : Z;  (* uint64 *)
  Body : bytes;
}.

(** The ranges the Go field types impose; a body cannot outgrow an [int]. *)
Definition envelope_ok (e : Envelope) : Prop :=
  0 ≤ Type_ e < 2 ^ 16 ∧ 0 ≤ Seq e < 2 ^ 64 ∧ 0 ≤ Ack e < 2 ^ 64 ∧
  0 ≤ RequestID e < 2 ^ 64 ∧ len (Body e) < 2 ^ 63.

Definition Encode (e : Envelope) : bytes :=
  append_uvarint (Type_ e) ++ append_uvarint (Seq e) ++ append_uvarint (Ack e) ++
  append_uvarint (RequestID e) ++ append_uvarint (len (Body e)) ++ Body e.

(** The closure [read] of [DecodeEnvelope]; the state is [b[off:]]. *)
Definition read_uvarint : M bytes Z := λ b,
  let '(v, n) := uvarint b in
  if n <=? 0 then (b, Err wire_ErrShortEnvelope) else (zdrop n b, Ok v).

Definition decode_envelope : M bytes Envelope :=
  t ← read_uvarint;
  seq ← read_uvarint;
  ack ← read_uvarint;
  rid ← read_uvarint;
  blen ← read_uvarint;
  left ← gets len;
  guard_or (negb (left <? blen)) wire_ErrShortEnvelope ;;
  body ← gets (λ b, if 0 <? blen then ztake blen b else []);
  mret (mkEnvelope (u16 t) seq ack rid body).

Definition DecodeEnvelope (b : bytes) : result Envelope := snd (decode_envelope b).

(** ** Lemmas *)

Lemma read_uvarint_append x rest :
  0 ≤ x < 2 ^ 64 → read_uvarint (append_uvarint x ++ rest) = (rest, Ok x).
Proof.
  intros Hx. unfold read_uvarint. rewrite uvarint_append by done.
  pose proof (append_uvarint_len x Hx).
  rewrite (proj2 (Z.leb_gt _ 0)) by lia. by rewrite zdrop_app_len.
Qed.

Lemma read_uvarint_Ok b b' v :
  read_uvarint b = (b', Ok v) → 0 ≤ v < 2 ^ 64 ∧ len b' ≤ len b.
Proof.
  unfold read_uvarint. destruct (uvarint b) as [v' n] eqn:E.
  destruct (n <=? 0) eqn:En; [done|]. intros [= <- <-]. bool_to_prop.
  apply uvarint_loop_bound in E; [| lia | done | lia | lia].
  split; [lia|]. rewrite len_zdrop; lia.
Qed.

Lemma decode_encode e rest :
  envelope_ok e → DecodeEnvelope (Encode e ++ rest) = Ok e.
Proof.
  intros (Ht & Hs & Ha & Hr & Hb). pose proof (len_nonneg (Body e)).
  pose proof (len_nonneg rest). unfold DecodeEnvelope, decode_envelope, Encode.
  repeat rewrite <- app_assoc.
  rewrite M_bind_eq, read_uvarint_append by lia.
  do 4 rewrite M_bind_eq, read_uvarint_append by lia.
  rewrite M_bind_eq. unfold gets at 1. rewrite M_bind_eq.
  rewrite (proj2 (Z.ltb_ge _ _)) by (rewrite len_app; lia). simpl.
  destruct e as [t s a r body]; simpl in *. rewrite u16_small by done.
  destruct (0 <? len body) eqn:E; bool_to_prop.
  - by rewrite ztake_app_len.
  - destruct body; [done|]. rewrite len_cons in *. pose proof (len_nonneg body). lia.
Qed.

(** ** Properties *)

(** Envelopes round-trip: decoding an encoded envelope, with any bytes after
    it, returns the envelope, for every type, sequence, ack and request id of
    their Go widths and every body. *)
Theorem DecodeEnvelope_Encode e rest :
  envelope_ok e → DecodeEnvelope (Encode e ++ rest) = Ok e.
Proof. apply decode_encode. Qed.

Definition sample_envelope : Envelope :=
  mkEnvelope 10 300 (2 ^ 64 - 1) 0 [Byte.x01; Byte.x80].

Lemma DecodeEnvelope_Encode_witness :
  envelope_ok sample_envelope ∧
  DecodeEnvelope (Encode sample_envelope ++ [Byte.xff]) = Ok sample_envelope.
Proof.
  assert (envelope_ok sample_envelope) as Hok by (repeat split; by vm_compute).
  split; [done|]. apply (DecodeEnvelope_Encode sample_envelope [Byte.xff] Hok).
Defined.


