(* ===== verification/Conn.v ===== *)
(** * Conn

    The envelope-oriented connection of [pkg/wire] (codec.go, wsconn.go) over an
    abstract [Transport], with the two transports of the package: byte streams
    (TCP, QUIC) and WebSocket messages.  Deadlines and [Close] only forward to
    the socket and are left out; the write mutexes are implicit, since each
    operation is one step. *)

From Stdlib Require Import Strings.Byte.
From S2P Require Import Prelude Bytes Frame Envelope.

(** ** Transports *)

Class Transport (T : Type) := {
  t_ReadFrame : M T bytes;
  t_WriteFrame : Z → bytes → M T unit;
  (** the type assertion [c.t.(rawTransport)] *)
  t_readRawFrame : option (Z → M T (Z * bytes));
}.

(** A stream: what is still to be received, what was sent, and the contents of
    the pooled assembly buffer. *)
Record streamTransport := mkStream {
  s_in : bytes;
  s_out : bytes;
  s_pool : bytes;
}.

(** Run a reader over the inbound half, a writer over the outbound half. *)
Definition on_in {A} (m : M bytes A) : M streamTransport A := λ t,
  let '(i, r) := m (s_in t) in (mkStream i (s_out t) (s_pool t), r).
Definition on_out {A} (m : M bytes A) : M streamTransport A := λ t,
  let '(o, r) := m (s_out t) in (mkStream (s_in t) o (s_pool t), r).

(** A WebSocket: messages to be received (binary or not, with their data) and
    the binary messages sent. *)
Record wsTransport := mkWS {
  ws_in : list (bool * bytes);
  ws_out : list bytes;
}.

Section transports.
Context `{Compressors}.

#[global] Instance stream_Transport : Transport streamTransport := {|
  t_ReadFrame := on_in ReadFrame;
  t_WriteFrame flags p := λ t, on_out (WriteFrame (s_pool t) flags p) t;
  t_readRawFrame := Some (λ max, on_in (readRawFrame max));
|}.

(** The loop of [wsTransport.readRawFrame]: [ReadMessage] under the read limit,
    skipping everything that is not a binary message. *)
Fixpoint ws_read_message (limit : Z) (msgs : list (bool * bytes))
    : list (bool * bytes) * result bytes :=
  match msgs with
  | [] => ([], Err io_EOF)
  | (binary, data) :: rest =>
      if limit <? len data then (rest, Err other_error)
      else if binary then (rest, Ok data) else ws_read_message limit rest
  end.

Definition ws_readRawFrame (max : Z) : M wsTransport (Z * bytes) := λ t,
  let max := if (max <=? 0) || (MaxPayloadSize <? max) then MaxPayloadSize else max in
  match ws_read_message (HeaderSize + max) (ws_in t) with
  | (rest, Ok data) => (mkWS rest (ws_out t), decodeRawFrame data max)
  | (rest, Err e) => (mkWS rest (ws_out t), Err e)
  end.

Definition ws_ReadFrame : M wsTransport bytes :=
  '(flags, raw) ← ws_readRawFrame MaxPayloadSize;
  lift (decompress flags raw).

Definition ws_WriteFrame (flags : Z) (payload : bytes) : M wsTransport unit :=
  b ← lift (EncodeFrame flags payload);
  modify (λ t, mkWS (ws_in t) (ws_out t ++ [b])).

#[global] Instance ws_Transport : Transport wsTransport := {|
  t_ReadFrame := ws_ReadFrame;
  t_WriteFrame := ws_WriteFrame;
  t_readRawFrame := Some ws_readRawFrame;
|}.

End transports.

(** ** Connections *)

Record Conn (T : Type) := mkConn {
  t : T;
  compress : bool;
  zstd : bool;
  compressMinLen : Z;
  restrictIn : bool;
  maxIn : Z;
  allowIn : Z;
}.
Arguments mkConn {T}. Arguments t {T}. Arguments compress {T}. Arguments zstd {T}.
Arguments compressMinLen {T}. Arguments restrictIn {T}. Arguments maxIn {T}.
Arguments allowIn {T}.

Definition set_t {T} (t' : T) (c : Conn T) : Conn T :=
  mkConn t' (compress c) (zstd c) (compressMinLen c) (restrictIn c) (maxIn c) (allowIn c).

Definition compression_flags : Z := Z.lor FlagCompressed FlagZstd.

Section conn.
Context {T : Type} `{Transport T} `{Compressors}.

Definition NewConn (t : T) (peerCompression : bool) : Conn T :=
  mkConn t peerCompression false 256 false 0 0.

Definition on_t {A} (m : M T A) : M (Conn T) A := λ c,
  let '(t', r) := m (t c) in (set_t t' c, r).

Definition readPayload : M (Conn T) bytes := λ c,
  match t_readRawFrame with
  | Some readRaw =>
      if negb (restrictIn c) then on_t t_ReadFrame c
      else
        ('(flags, raw) ← on_t (readRaw (maxIn c));
         guard_or (Z.ldiff (Z.land flags compression_flags) (allowIn c) =? 0)
           wire_ErrCompressionNotNegotiated ;;
         lift (decompress flags raw)) c
  | None => on_t t_ReadFrame c
  end.

Definition ReadEnvelope : M (Conn T) Envelope :=
  payload ← readPayload;
  lift (DecodeEnvelope payload).

Definition SetInboundPolicy (maxPayload allowed : Z) : M (Conn T) unit :=
  modify (λ c, mkConn (t c) (compress c) (zstd c) (compressMinLen c) true maxPayload
                 (Z.land allowed compression_flags)).

Definition SetZstd (on : bool) : M (Conn T) unit :=
  modify (λ c, mkConn (t c) (compress c) on (compressMinLen c) (restrictIn c)
                 (maxIn c) (allowIn c)).

Definition SetCompression (on : bool) : M (Conn T) unit :=
  modify (λ c, mkConn (t c) on (zstd c) (compressMinLen c) (restrictIn c)
                 (maxIn c) (allowIn c)).

(** The flags [WriteRaw] computes from the policy. *)
Definition write_flags (c : Conn T) (payload : bytes) : Z :=
  if compressMinLen c <=? len payload then
    if zstd c then Z.lor 0 FlagZstd
    else if compress c then Z.lor 0 FlagCompressed else 0
  else 0.

Definition WriteRaw (payload : bytes) : M (Conn T) unit := λ c,
  on_t (t_WriteFrame (write_flags c payload) payload) c.

Definition WriteEnvelope (e : Envelope) : M (Conn T) unit := WriteRaw (Encode e).

(** [Send] with a body that is already encoded ([EncodeBody] of a nil body is
    empty; [Marshal] belongs to the protobuf codec). *)
Definition Send (ty seq ack reqID : Z) (body : bytes) : M (Conn T) unit :=
  WriteEnvelope (mkEnvelope ty seq ack reqID body).

Lemma write_flags_range c p : 0 ≤ write_flags c p < 256.
Proof. unfold write_flags. repeat case_scrut; by vm_compute. Qed.

End conn.

(** What a connection puts on a stream: one encoded frame. *)
Lemma WriteEnvelope_stream `{Compressors} (c c' : Conn streamTransport) e :
  WriteEnvelope e c = (c', Ok tt) →
  ∃ b, EncodeFrame (write_flags c (Encode e)) (Encode e) = Ok b ∧
       s_out (t c') = s_out (t c) ++ b.
Proof.
  unfold WriteEnvelope, WriteRaw, on_t. simpl. unfold on_out. rewrite WriteFrame_eq.
  destruct (EncodeFrame _ _) as [b|] eqn:E; intros [= <-]. eauto.
Qed.

Lemma readRawFrame_len max s s' fl raw :
  readRawFrame max s = (s', Ok (fl, raw)) → len raw ≤ MaxPayloadSize ∧ (0 < max → len raw ≤ max).
Proof.
  intros Hr. unfold readRawFrame in Hr. apply M_bind_Ok in Hr as (s1 & hdr & _ & Hr).
  apply M_bind_Ok in Hr as (s2 & [fl' n] & Hh & Hr). injection Hh as <- Hh.
  apply M_bind_Ok in Hr as (s3 & buf & Hbuf & Hr). injection Hr as -> -> ->.
  apply parseHeader_Ok in Hh as (_ & ? & ?).
  assert (len raw = n ∨ n ≤ 0 ∧ raw = []) as [|[? ->]].
  { revert Hbuf. unfold ReadFull. repeat case_scrut; bool_to_prop; try done;
      intros [= <- <-]; [by right | left]. rewrite len_ztake; lia. }
  all: unfold len in *; simpl in *; lia.
Qed.

(** ** Properties *)


(** The inbound policy holds before anything is decompressed: on a restricted
    connection every accepted payload came from a frame whose compression flags
    were all allowed and whose payload, as sent, was within the limit; a frame
    with a compression flag outside the policy is refused with
    [ErrCompressionNotNegotiated] whatever the decompressors would have said. *)
Theorem readPayload_policy `{Compressors} (c : Conn streamTransport) fl raw s' :
  restrictIn c = true →
  readRawFrame (maxIn c) (s_in (t c)) = (s', Ok (fl, raw)) →
  (0 < maxIn c → len raw ≤ maxIn c) ∧
  snd (readPayload c) =
    (if Z.ldiff (Z.land fl compression_flags) (allowIn c) =? 0
     then decompress fl raw else Err wire_ErrCompressionNotNegotiated).
Proof.
  intros Hres Hr. split; [by apply readRawFrame_len in Hr as [_ ?]|].
  unfold readPayload. simpl. rewrite Hres. simpl. rewrite M_bind_eq.
  unfold on_t, on_in. rewrite Hr, M_bind_eq. by destruct (_ =? 0).
Qed.

(** ** Witnesses *)

Definition wit_sender : Conn streamTransport :=
  mkConn (mkStream [] [] sample) true true 4 false 0 0.
Definition wit_sent : Conn streamTransport :=
  fst (@WriteEnvelope _ (@stream_Transport stored) sample_envelope wit_sender).
Definition wit_receiver : Conn streamTransport :=
  mkConn (mkStream (s_out (t wit_sent) ++ [Byte.xff]) [] []) false false 256 true 4096 FlagZstd.


Lemma readPayload_policy_witness :
  let c := mkConn (mkStream (frame_header FlagZstd 2 ++ sample) [] [])
             false false 256 true 4096 FlagCompressed in
  (0 < maxIn c → len sample ≤ maxIn c) ∧
  snd (@readPayload _ (@stream_Transport stored) stored c) =
    Err wire_ErrCompressionNotNegotiated.
Proof.
  intros c.
  apply (@readPayload_policy stored c FlagZstd sample []); by vm_compute.
Defined.
