(* ===== verification/WireBodies.v ===== *)
(** The typed bodies of pkg/wire/messages.go: one record per struct, with the
    struct's fields in their order.  Go's [int], [int32], [int64], [uint64],
    [Cap] and [ErrorCode] are [Z]; a pointer is an [option], a slice a [list],
    a map a [gmap]; a nil slice or map is the empty one. *)
From stdpp Require Import strings gmap.
From S2P Require Import Prelude Bytes.
Local Open Scope Z_scope.

Module wire.

Record HelloBody := mkHelloBody {
  HelloBody_ClientVersion : string;
  HelloBody_DeviceID : string;
  HelloBody_Platform : string;
  HelloBody_Caps : Z;
  HelloBody_ResumeToken : string;
}.
Record WelcomeBody := mkWelcomeBody {
  WelcomeBody_ServerVersion : string;
  WelcomeBody_SessionID : string;
  WelcomeBody_Caps : Z;
  WelcomeBody_HeartbeatMs : Z;
  WelcomeBody_MaxInflight : Z;
  WelcomeBody_ResumeSupported : bool;
}.
Record AuthBody := mkAuthBody {
  AuthBody_Token : string;
  AuthBody_Username : string;
  AuthBody_Password : string;
  AuthBody_Register : bool;
  AuthBody_DisplayName : string;
  AuthBody_TOTPCode : string;
}.
Record AuthOKBody := mkAuthOKBody {
  AuthOKBody_UserID : string;
  AuthOKBody_DeviceID : string;
  AuthOKBody_SessionID : string;
  AuthOKBody_Token : string;
  AuthOKBody_ResumeToken : string;
  AuthOKBody_Username : string;
  AuthOKBody_DisplayName : string;
  AuthOKBody_AvatarRef : string;
}.
Record Attachment := mkAttachment {
  Attachment_Kind : string;
  Attachment_MediaRef : string;
  Attachment_Filename : string;
  Attachment_MIME : string;
  Attachment_Size : Z;
  Attachment_DurationMs : Z;
  Attachment_Waveform : list Z;
  Attachment_Width : Z;
  Attachment_Height : Z;
  Attachment_ThumbRef : string;
}.
Record SendBody := mkSendBody {
  SendBody_ChatID : string;
  SendBody_DedupKey : string;
  SendBody_Text : string;
  SendBody_MediaRef : string;
  SendBody_ReplyTo : string;
  SendBody_TTLSeconds : Z;
  SendBody_Attachment : option Attachment;
}.
Record SendAckBody := mkSendAckBody {
  SendAckBody_DedupKey : string;
  SendAckBody_MessageID : string;
  SendAckBody_ChatID : string;
  SendAckBody_ChatSeq : Z;
  SendAckBody_Timestamp : Z;
  SendAckBody_Duplicate : bool;
}.
Record ForwardOrigin := mkForwardOrigin {
  ForwardOrigin_ChatID : string;
  ForwardOrigin_MessageID : string;
  ForwardOrigin_SenderID : string;
}.
Record NewMessageBody := mkNewMessageBody {
  NewMessageBody_MessageID : string;
  NewMessageBody_ChatID : string;
  NewMessageBody_SenderID : string;
  NewMessageBody_ChatSeq : Z;
  NewMessageBody_Text : string;
  NewMessageBody_MediaRef : string;
  NewMessageBody_ReplyTo : string;
  NewMessageBody_Attachment : option Attachment;
  NewMessageBody_Forward : option ForwardOrigin;
  NewMessageBody_ExpiresAt : Z;
  NewMessageBody_ThreadRoot : string;
  NewMessageBody_ReplyCount : Z;
  NewMessageBody_Edited : bool;
  NewMessageBody_Deleted : bool;
  NewMessageBody_Timestamp : Z;
}.
Record ReadBody := mkReadBody {
  ReadBody_ChatID : string;
  ReadBody_UpToMessageID : string;
  ReadBody_UpToChatSeq : Z;
}.
Record ReadUpdateBody := mkReadUpdateBody {
  ReadUpdateBody_ChatID : string;
  ReadUpdateBody_UserID : string;
  ReadUpdateBody_UpToChatSeq : Z;
}.
Record ReactBody := mkReactBody {
  ReactBody_ChatID : string;
  ReactBody_MessageID : string;
  ReactBody_Emoji : string;
}.
Record ReactUpdateBody := mkReactUpdateBody {
  ReactUpdateBody_ChatID : string;
  ReactUpdateBody_MessageID : string;
  ReactUpdateBody_UserID : string;
  ReactUpdateBody_Emoji : string;
  ReactUpdateBody_Added : bool;
  ReactUpdateBody_Counts : gmap string Z;
}.
Record TypingBody := mkTypingBody {
  TypingBody_ChatID : string;
  TypingBody_UserID : string;
  TypingBody_Active : bool;
}.
Record PresenceBody := mkPresenceBody {
  PresenceBody_UserID : string;
  PresenceBody_Online : bool;
  PresenceBody_LastSeenMs : Z;
}.
Record EditBody := mkEditBody {
  EditBody_ChatID : string;
  EditBody_MessageID : string;
  EditBody_Text : string;
}.
Record DeleteBody := mkDeleteBody {
  DeleteBody_ChatID : string;
  DeleteBody_MessageID : string;
  DeleteBody_ForAll : bool;
}.
Record HistoryBody := mkHistoryBody {
  HistoryBody_ChatID : string;
  HistoryBody_BeforeSeq : Z;
  HistoryBody_Limit : Z;
}.
Record HistoryOKBody := mkHistoryOKBody {
  HistoryOKBody_ChatID : string;
  HistoryOKBody_NextBefore : Z;
  HistoryOKBody_Done : bool;
}.
Record ResumeBody := mkResumeBody { ResumeBody_ResumeToken : string; ResumeBody_LastAckSeq : Z }.
Record ResumeOKBody := mkResumeOKBody {
  ResumeOKBody_SessionID : string;
  ResumeOKBody_FromSeq : Z;
  ResumeOKBody_ResumeToken : string;
}.
Record ErrorBody := mkErrorBody {
  ErrorBody_Code : Z;
  ErrorBody_Message : string;
  ErrorBody_RetryAfterMs : Z;
}.
Record MediaInitBody := mkMediaInitBody {
  MediaInitBody_Filename : string;
  MediaInitBody_ContentType : string;
  MediaInitBody_Size : Z;
}.
Record MediaTicketBody := mkMediaTicketBody {
  MediaTicketBody_MediaRef : string;
  MediaTicketBody_UploadURL : string;
  MediaTicketBody_ExpiresAt : Z;
}.
Record MediaFetchBody := mkMediaFetchBody { MediaFetchBody_MediaRef : string }.
Record MediaURLBody := mkMediaURLBody {
  MediaURLBody_MediaRef : string;
  MediaURLBody_DownloadURL : string;
  MediaURLBody_ExpiresAt : Z;
}.
Record SearchBody := mkSearchBody {
  SearchBody_Query : string;
  SearchBody_Limit : Z;
  SearchBody_ChatID : string;
  SearchBody_SenderID : string;
}.
Record SearchHit := mkSearchHit {
  SearchHit_MessageID : string;
  SearchHit_ChatID : string;
  SearchHit_SenderID : string;
  SearchHit_Seq : Z;
  SearchHit_Text : string;
  SearchHit_CreatedAt : Z;
}.
Record SearchResultsBody := mkSearchResultsBody {
  SearchResultsBody_Query : string;
  SearchResultsBody_Hits : list SearchHit;
}.
Record KeyPublishBody := mkKeyPublishBody {
  KeyPublishBody_IdentityKey : string;
  KeyPublishBody_SigningKey : string;
  KeyPublishBody_SignedPreKey : string;
  KeyPublishBody_SignedPreKeySig : string;
  KeyPublishBody_PreKeys : list string;
}.
Record KeyFetchBody := mkKeyFetchBody { KeyFetchBody_UserID : string; KeyFetchBody_DeviceID : string }.
Record KeyBundleBody := mkKeyBundleBody {
  KeyBundleBody_UserID : string;
  KeyBundleBody_DeviceID : string;
  KeyBundleBody_IdentityKey : string;
  KeyBundleBody_SigningKey : string;
  KeyBundleBody_SignedPreKey : string;
  KeyBundleBody_SignedPreKeySig : string;
  KeyBundleBody_OneTimePreKey : string;
}.
Record KeyStateBody := mkKeyStateBody {
  KeyStateBody_OneTimePreKeysLeft : Z;
  KeyStateBody_SignedPreKeyAgeMs : Z;
  KeyStateBody_Accepted : Z;
}.
Record KeyBundlesBody := mkKeyBundlesBody {
  KeyBundlesBody_UserID : string;
  KeyBundlesBody_Bundles : list KeyBundleBody;
}.
Record ChatExportBody := mkChatExportBody { ChatExportBody_ChatID : string }.
Record ChatMemberInfo := mkChatMemberInfo {
  ChatMemberInfo_UserID : string;
  ChatMemberInfo_Role : string;
  ChatMemberInfo_JoinedAt : Z;
}.
Record ChatExportResultBody := mkChatExportResultBody {
  ChatExportResultBody_ChatID : string;
  ChatExportResultBody_Type : string;
  ChatExportResultBody_Title : string;
  ChatExportResultBody_OwnerID : string;
  ChatExportResultBody_Members : list ChatMemberInfo;
  ChatExportResultBody_Messages : list NewMessageBody;
  ChatExportResultBody_Done : bool;
}.
Record SecretMsgBody := mkSecretMsgBody {
  SecretMsgBody_ToUserID : string;
  SecretMsgBody_ToDeviceID : string;
  SecretMsgBody_FromUserID : string;
  SecretMsgBody_FromDeviceID : string;
  SecretMsgBody_RatchetHeader : string;
  SecretMsgBody_Ciphertext : string;
  SecretMsgBody_Header : bytes;
  SecretMsgBody_Cipher : bytes;
  SecretMsgBody_QueueID : string;
}.
Record SecretAckBody := mkSecretAckBody {
  SecretAckBody_ToUserID : string;
  SecretAckBody_ToDeviceID : string;
  SecretAckBody_Devices : Z;
  SecretAckBody_Queued : bool;
}.
Record SecretSyncBody := mkSecretSyncBody { SecretSyncBody_After : string; SecretSyncBody_Limit : Z }.
Record SecretSyncedBody := mkSecretSyncedBody {
  SecretSyncedBody_Count : Z;
  SecretSyncedBody_NextAfter : string;
  SecretSyncedBody_Done : bool;
}.
Record SecretAckedBody := mkSecretAckedBody { SecretAckedBody_IDs : list string }.
Record ThreadBody := mkThreadBody {
  ThreadBody_ChatID : string;
  ThreadBody_RootID : string;
  ThreadBody_AfterSeq : Z;
  ThreadBody_Limit : Z;
}.
Record ThreadOKBody := mkThreadOKBody {
  ThreadOKBody_ChatID : string;
  ThreadOKBody_RootID : string;
  ThreadOKBody_NextAfter : Z;
  ThreadOKBody_Done : bool;
}.
Record CallInviteBody := mkCallInviteBody { CallInviteBody_ChatID : string; CallInviteBody_Kind : string }.
Record CallActionBody := mkCallActionBody { CallActionBody_CallID : string }.
Record CallParticipant := mkCallParticipant {
  CallParticipant_UserID : string;
  CallParticipant_DeviceID : string;
  CallParticipant_State : string;
}.
Record CallStateBody := mkCallStateBody {
  CallStateBody_CallID : string;
  CallStateBody_ChatID : string;
  CallStateBody_InitiatorID : string;
  CallStateBody_Kind : string;
  CallStateBody_State : string;
  CallStateBody_Participants : list CallParticipant;
}.
Record CallSignalBody := mkCallSignalBody {
  CallSignalBody_CallID : string;
  CallSignalBody_ToUserID : string;
  CallSignalBody_ToDeviceID : string;
  CallSignalBody_FromUserID : string;
  CallSignalBody_FromDeviceID : string;
  CallSignalBody_SignalType : string;
  CallSignalBody_Payload : string;
}.
Record PollCreateBody := mkPollCreateBody {
  PollCreateBody_ChatID : string;
  PollCreateBody_Question : string;
  PollCreateBody_Options : list string;
  PollCreateBody_MultiChoice : bool;
  PollCreateBody_Anonymous : bool;
}.
Record PollVoteBody := mkPollVoteBody { PollVoteBody_PollID : string; PollVoteBody_Option : Z }.
Record PollCloseBody := mkPollCloseBody { PollCloseBody_PollID : string }.
Record PollOption := mkPollOption { PollOption_Index : Z; PollOption_Text : string; PollOption_Votes : Z }.
Record PollStateBody := mkPollStateBody {
  PollStateBody_PollID : string;
  PollStateBody_ChatID : string;
  PollStateBody_MessageID : string;
  PollStateBody_Question : string;
  PollStateBody_Options : list PollOption;
  PollStateBody_TotalVotes : Z;
  PollStateBody_MultiChoice : bool;
  PollStateBody_Anonymous : bool;
  PollStateBody_Closed : bool;
  PollStateBody_MyVotes : list Z;
}.
Record ContactAddBody := mkContactAddBody { ContactAddBody_Target : string; ContactAddBody_Name : string }.
Record ContactRemoveBody := mkContactRemoveBody { ContactRemoveBody_Target : string }.
Record ContactSyncBody := mkContactSyncBody { ContactSyncBody_Since : Z }.
Record Contact := mkContact {
  Contact_UserID : string;
  Contact_Name : string;
  Contact_Blocked : bool;
  Contact_UpdatedAt : Z;
}.
Record ContactListBody := mkContactListBody {
  ContactListBody_Contacts : list Contact;
  ContactListBody_Cursor : Z;
}.
Record BlockBody := mkBlockBody { BlockBody_Target : string; BlockBody_Blocked : bool }.
Record ForwardBody := mkForwardBody {
  ForwardBody_FromChatID : string;
  ForwardBody_MessageID : string;
  ForwardBody_ToChatID : string;
  ForwardBody_DedupKey : string;
}.
Record ScheduleBody := mkScheduleBody {
  ScheduleBody_ChatID : string;
  ScheduleBody_Text : string;
  ScheduleBody_MediaRef : string;
  ScheduleBody_Attachment : option Attachment;
  ScheduleBody_ReplyTo : string;
  ScheduleBody_TTLSeconds : Z;
  ScheduleBody_SendAt : Z;
}.
Record ScheduleListBody := mkScheduleListBody { ScheduleListBody_ChatID : string }.
Record ScheduleCancelBody := mkScheduleCancelBody { ScheduleCancelBody_ID : string }.
Record ScheduledItem := mkScheduledItem {
  ScheduledItem_ID : string;
  ScheduledItem_ChatID : string;
  ScheduledItem_Text : string;
  ScheduledItem_SendAt : Z;
}.
Record ScheduledBody := mkScheduledBody { ScheduledBody_Items : list ScheduledItem }.
Record Pin := mkPin { Pin_MessageID : string; Pin_PinnedBy : string; Pin_PinnedAt : Z }.
Record PinBody := mkPinBody { PinBody_ChatID : string; PinBody_MessageID : string }.
Record PinnedBody := mkPinnedBody { PinnedBody_ChatID : string; PinnedBody_Pins : list Pin }.
Record DraftBody := mkDraftBody {
  DraftBody_ChatID : string;
  DraftBody_Text : string;
  DraftBody_ReplyTo : string;
}.
Record DraftSyncBody := mkDraftSyncBody { DraftSyncBody_Since : Z }.
Record DraftItem := mkDraftItem {
  DraftItem_ChatID : string;
  DraftItem_Text : string;
  DraftItem_ReplyTo : string;
  DraftItem_UpdatedAt : Z;
}.
Record DraftsBody := mkDraftsBody { DraftsBody_Drafts : list DraftItem; DraftsBody_Cursor : Z }.
Record SetUsernameBody := mkSetUsernameBody {
  SetUsernameBody_ChatID : string;
  SetUsernameBody_Username : string;
}.
Record InviteCreateBody := mkInviteCreateBody {
  InviteCreateBody_ChatID : string;
  InviteCreateBody_ExpiresAt : Z;
  InviteCreateBody_MaxUses : Z;
}.
Record InviteRevokeBody := mkInviteRevokeBody {
  InviteRevokeBody_ChatID : string;
  InviteRevokeBody_Code : string;
}.
Record InviteListBody := mkInviteListBody { InviteListBody_ChatID : string }.
Record JoinBody := mkJoinBody { JoinBody_Code : string; JoinBody_Handle : string }.
Record SetRoleBody := mkSetRoleBody {
  SetRoleBody_ChatID : string;
  SetRoleBody_UserID : string;
  SetRoleBody_Role : string;
}.
Record InviteLink := mkInviteLink {
  InviteLink_Code : string;
  InviteLink_ChatID : string;
  InviteLink_ExpiresAt : Z;
  InviteLink_MaxUses : Z;
  InviteLink_Uses : Z;
}.
Record PushTokenBody := mkPushTokenBody { PushTokenBody_Token : string }.
Record ChatCreateBody := mkChatCreateBody {
  ChatCreateBody_Type : string;
  ChatCreateBody_Title : string;
  ChatCreateBody_Members : list string;
}.
Record ChatInfoBody := mkChatInfoBody {
  ChatInfoBody_ChatID : string;
  ChatInfoBody_Type : string;
  ChatInfoBody_Title : string;
  ChatInfoBody_OwnerID : string;
}.
Record BillingPlansBody := mkBillingPlansBody { BillingPlansBody_Country : string }.
Record PlanOfferWire := mkPlanOfferWire {
  PlanOfferWire_Plan : string;
  PlanOfferWire_AmountMinor : Z;
  PlanOfferWire_Currency : string;
  PlanOfferWire_PeriodDays : Z;
  PlanOfferWire_Methods : list string;
}.
Record BillingOffersBody := mkBillingOffersBody { BillingOffersBody_Offers : list PlanOfferWire }.
Record BillingCheckoutBody := mkBillingCheckoutBody {
  BillingCheckoutBody_Plan : string;
  BillingCheckoutBody_Method : string;
  BillingCheckoutBody_IdempotencyKey : string;
  BillingCheckoutBody_Country : string;
  BillingCheckoutBody_ReturnURL : string;
}.
Record BillingPaymentBody := mkBillingPaymentBody {
  BillingPaymentBody_PaymentID : string;
  BillingPaymentBody_Status : string;
  BillingPaymentBody_AmountMinor : Z;
  BillingPaymentBody_Currency : string;
  BillingPaymentBody_PayURL : string;
  BillingPaymentBody_QRPayload : string;
  BillingPaymentBody_Deduplicated : bool;
}.
Record BillingStatusBody := mkBillingStatusBody { }.
Record BillingCancelBody := mkBillingCancelBody { }.
Record SubscriptionBody := mkSubscriptionBody {
  SubscriptionBody_Plan : string;
  SubscriptionBody_Status : string;
  SubscriptionBody_PeriodEnd : Z;
  SubscriptionBody_CancelAtPeriodEnd : bool;
  SubscriptionBody_SecretChats : bool;
  SubscriptionBody_MaxUploadBytes : Z;
  SubscriptionBody_MaxPinnedChats : Z;
  SubscriptionBody_Folders : bool;
  SubscriptionBody_AdvancedSearch : bool;
  SubscriptionBody_PriorityDelivery : bool;
  SubscriptionBody_VoiceTranscription : bool;
  SubscriptionBody_Badge : bool;
  SubscriptionBody_CustomThemes : bool;
}.
Record PasswordChangeBody := mkPasswordChangeBody {
  PasswordChangeBody_OldPassword : string;
  PasswordChangeBody_NewPassword : string;
}.
Record PasswordChangedBody := mkPasswordChangedBody { PasswordChangedBody_SessionsRevoked : Z }.
Record TOTPSetupBody := mkTOTPSetupBody { }.
Record TOTPSetupInfoBody := mkTOTPSetupInfoBody {
  TOTPSetupInfoBody_Secret : string;
  TOTPSetupInfoBody_URI : string;
}.
Record TOTPConfirmBody := mkTOTPConfirmBody { TOTPConfirmBody_Code : string }.
Record TOTPDisableBody := mkTOTPDisableBody {
  TOTPDisableBody_Password : string;
  TOTPDisableBody_Code : string;
}.
Record TOTPStateBody := mkTOTPStateBody {
  TOTPStateBody_Enabled : bool;
  TOTPStateBody_RecoveryLeft : Z;
  TOTPStateBody_RecoveryCodes : list string;
  TOTPStateBody_ConfirmedAtMs : Z;
}.
Record ChatFlagsBody := mkChatFlagsBody {
  ChatFlagsBody_ChatID : string;
  ChatFlagsBody_MutedUntil : Z;
  ChatFlagsBody_Pinned : bool;
  ChatFlagsBody_Archived : bool;
}.
Record ChatFlagsSetBody := mkChatFlagsSetBody {
  ChatFlagsSetBody_ChatID : string;
  ChatFlagsSetBody_MutedUntil : Z;
  ChatFlagsSetBody_Pinned : bool;
  ChatFlagsSetBody_Archived : bool;
}.
Record ChatListBody := mkChatListBody {
  ChatListBody_After : string;
  ChatListBody_Limit : Z;
  ChatListBody_AfterActivity : Z;
  ChatListBody_IncludeArchived : bool;
}.
Record ChatSummary := mkChatSummary {
  ChatSummary_ChatID : string;
  ChatSummary_Type : string;
  ChatSummary_Title : string;
  ChatSummary_OwnerID : string;
  ChatSummary_Username : string;
  ChatSummary_LastSeq : Z;
  ChatSummary_MyRole : string;
  ChatSummary_PeerID : string;
  ChatSummary_LastMessage : option NewMessageBody;
  ChatSummary_UnreadCount : Z;
  ChatSummary_LastActivityAt : Z;
  ChatSummary_MutedUntil : Z;
  ChatSummary_Pinned : bool;
  ChatSummary_Archived : bool;
}.
Record ChatsBody := mkChatsBody {
  ChatsBody_Chats : list ChatSummary;
  ChatsBody_NextAfter : string;
  ChatsBody_NextAfterActivity : Z;
  ChatsBody_Done : bool;
}.
Record ProfileGetBody := mkProfileGetBody { ProfileGetBody_Target : string }.
Record ProfileSetBody := mkProfileSetBody {
  ProfileSetBody_DisplayName : string;
  ProfileSetBody_AvatarRef : string;
  ProfileSetBody_ClearAvatar : bool;
}.
Record ProfileBody := mkProfileBody {
  ProfileBody_UserID : string;
  ProfileBody_Username : string;
  ProfileBody_DisplayName : string;
  ProfileBody_AvatarRef : string;
  ProfileBody_Premium : bool;
}.
Record AccountDeleteBody := mkAccountDeleteBody {
  AccountDeleteBody_Password : string;
  AccountDeleteBody_Reason : string;
}.
Record AccountDeletedBody := mkAccountDeletedBody {
  AccountDeletedBody_UserID : string;
  AccountDeletedBody_DeletedAt : Z;
}.
Record PrivacyGetBody := mkPrivacyGetBody { }.
Record PrivacySetBody := mkPrivacySetBody {
  PrivacySetBody_LastSeen : string;
  PrivacySetBody_Avatar : string;
  PrivacySetBody_Groups : string;
  PrivacySetBody_PushPreview : bool;
}.
Record PrivacyBody := mkPrivacyBody {
  PrivacyBody_LastSeen : string;
  PrivacyBody_Avatar : string;
  PrivacyBody_Groups : string;
  PrivacyBody_PushPreview : bool;
}.
Record HistoryPageBody := mkHistoryPageBody {
  HistoryPageBody_Messages : list NewMessageBody;
  HistoryPageBody_ChatID : string;
  HistoryPageBody_NextBefore : Z;
  HistoryPageBody_Done : bool;
}.
Record SessionListBody := mkSessionListBody { }.
Record SessionInfo := mkSessionInfo {
  SessionInfo_SessionID : string;
  SessionInfo_DeviceID : string;
  SessionInfo_Platform : string;
  SessionInfo_CreatedAt : Z;
  SessionInfo_ExpiresAt : Z;
  SessionInfo_Current : bool;
}.
Record SessionsBody := mkSessionsBody { SessionsBody_Sessions : list SessionInfo }.
Record SessionRevokeBody := mkSessionRevokeBody {
  SessionRevokeBody_SessionID : string;
  SessionRevokeBody_AllIncludingCurrent : bool;
}.
Record SessionRevokedBody := mkSessionRevokedBody {
  SessionRevokedBody_Revoked : Z;
  SessionRevokedBody_Self : bool;
}.
Record FanoutShardBody := mkFanoutShardBody {
  FanoutShardBody_Body : NewMessageBody;
  FanoutShardBody_Members : list string;
}.
Record InvitesBody := mkInvitesBody { InvitesBody_Links : list InviteLink; InvitesBody_JoinedChat : string }.

End wire.
