(* ===== verification/ProtoMessages.v ===== *)
(** The protobuf messages of proto/syncapp/v1/body.proto, as the generated
    package internal/wirepb declares them: one record per message, its fields
    in the order of the schema with their Go names.  A sub-message field is a
    pointer, hence an [option]; a repeated field is a [list]. *)
From stdpp Require Import strings gmap.
From S2P Require Import Prelude Bytes.
Local Open Scope Z_scope.

Module pb.

Record Hello := mkHello {
  Hello_ClientVersion : string;
  Hello_DeviceId : string;
  Hello_Platform : string;
  Hello_Caps : Z;
  Hello_ResumeToken : string;
}.
Record Welcome := mkWelcome {
  Welcome_ServerVersion : string;
  Welcome_SessionId : string;
  Welcome_Caps : Z;
  Welcome_HeartbeatMs : Z;
  Welcome_MaxInflight : Z;
  Welcome_ResumeSupported : bool;
}.
Record Auth := mkAuth {
  Auth_Token : string;
  Auth_Username : string;
  Auth_Password : string;
  Auth_Register : bool;
  Auth_DisplayName : string;
  Auth_TotpCode : string;
}.
Record AuthOK := mkAuthOK {
  AuthOK_UserId : string;
  AuthOK_DeviceId : string;
  AuthOK_SessionId : string;
  AuthOK_Token : string;
  AuthOK_ResumeToken : string;
  AuthOK_Username : string;
  AuthOK_DisplayName : string;
  AuthOK_AvatarRef : string;
}.
Record Attachment := mkAttachment {
  Attachment_Kind : string;
  Attachment_MediaRef : string;
  Attachment_Filename : string;
  Attachment_Mime : string;
  Attachment_Size : Z;
  Attachment_DurationMs : Z;
  Attachment_Waveform : list Z;
  Attachment_Width : Z;
  Attachment_Height : Z;
  Attachment_ThumbRef : string;
}.
Record Send := mkSend {
  Send_ChatId : string;
  Send_DedupKey : string;
  Send_Text : string;
  Send_MediaRef : string;
  Send_ReplyTo : string;
  Send_Attachment : option Attachment;
  Send_TtlSeconds : Z;
}.
Record SendAck := mkSendAck {
  SendAck_DedupKey : string;
  SendAck_MessageId : string;
  SendAck_ChatId : string;
  SendAck_ChatSeq : Z;
  SendAck_Timestamp : Z;
  SendAck_Duplicate : bool;
}.
Record ForwardOrigin := mkForwardOrigin {
  ForwardOrigin_ChatId : string;
  ForwardOrigin_MessageId : string;
  ForwardOrigin_SenderId : string;
}.
Record NewMessage := mkNewMessage {
  NewMessage_MessageId : string;
  NewMessage_ChatId : string;
  NewMessage_SenderId : string;
  NewMessage_ChatSeq : Z;
  NewMessage_Text : string;
  NewMessage_MediaRef : string;
  NewMessage_ReplyTo : string;
  NewMessage_Edited : bool;
  NewMessage_Deleted : bool;
  NewMessage_Timestamp : Z;
  NewMessage_Attachment : option Attachment;
  NewMessage_ThreadRoot : string;
  NewMessage_ReplyCount : Z;
  NewMessage_Forward : option ForwardOrigin;
  NewMessage_ExpiresAt : Z;
}.
Record Thread := mkThread {
  Thread_ChatId : string;
  Thread_RootId : string;
  Thread_AfterSeq : Z;
  Thread_Limit : Z;
}.
Record ThreadOK := mkThreadOK {
  ThreadOK_ChatId : string;
  ThreadOK_RootId : string;
  ThreadOK_NextAfter : Z;
  ThreadOK_Done : bool;
}.
Record Read := mkRead { Read_ChatId : string; Read_UpToMessageId : string; Read_UpToChatSeq : Z }.
Record ReadUpdate := mkReadUpdate {
  ReadUpdate_ChatId : string;
  ReadUpdate_UserId : string;
  ReadUpdate_UpToChatSeq : Z;
}.
Record Typing := mkTyping { Typing_ChatId : string; Typing_UserId : string; Typing_Active : bool }.
Record React := mkReact { React_ChatId : string; React_MessageId : string; React_Emoji : string }.
Record ReactUpdate := mkReactUpdate {
  ReactUpdate_ChatId : string;
  ReactUpdate_MessageId : string;
  ReactUpdate_UserId : string;
  ReactUpdate_Emoji : string;
  ReactUpdate_Added : bool;
  ReactUpdate_Counts : gmap string Z;
}.
Record Presence := mkPresence { Presence_UserId : string; Presence_Online : bool; Presence_LastSeenMs : Z }.
Record Edit := mkEdit { Edit_ChatId : string; Edit_MessageId : string; Edit_Text : string }.
Record Delete := mkDelete { Delete_ChatId : string; Delete_MessageId : string; Delete_ForAll : bool }.
Record History := mkHistory { History_ChatId : string; History_BeforeSeq : Z; History_Limit : Z }.
Record HistoryOK := mkHistoryOK {
  HistoryOK_ChatId : string;
  HistoryOK_NextBefore : Z;
  HistoryOK_Done : bool;
}.
Record Resume := mkResume { Resume_ResumeToken : string; Resume_LastAckSeq : Z }.
Record ResumeOK := mkResumeOK {
  ResumeOK_SessionId : string;
  ResumeOK_FromSeq : Z;
  ResumeOK_ResumeToken : string;
}.
Record Error := mkError { Error_Code : Z; Error_Message : string; Error_RetryAfterMs : Z }.
Record MediaInit := mkMediaInit {
  MediaInit_Filename : string;
  MediaInit_ContentType : string;
  MediaInit_Size : Z;
}.
Record MediaTicket := mkMediaTicket {
  MediaTicket_MediaRef : string;
  MediaTicket_UploadUrl : string;
  MediaTicket_ExpiresAt : Z;
}.
Record MediaFetch := mkMediaFetch { MediaFetch_MediaRef : string }.
Record MediaURL := mkMediaURL {
  MediaURL_MediaRef : string;
  MediaURL_DownloadUrl : string;
  MediaURL_ExpiresAt : Z;
}.
Record Search := mkSearch {
  Search_Query : string;
  Search_Limit : Z;
  Search_ChatId : string;
  Search_SenderId : string;
}.
Record SearchHit := mkSearchHit {
  SearchHit_MessageId : string;
  SearchHit_ChatId : string;
  SearchHit_SenderId : string;
  SearchHit_Seq : Z;
  SearchHit_Text : string;
  SearchHit_CreatedAt : Z;
}.
Record SearchResults := mkSearchResults { SearchResults_Query : string; SearchResults_Hits : list SearchHit }.
Record KeyPublish := mkKeyPublish {
  KeyPublish_IdentityKey : string;
  KeyPublish_SigningKey : string;
  KeyPublish_SignedPrekey : string;
  KeyPublish_SignedPrekeySig : string;
  KeyPublish_Prekeys : list string;
}.
Record KeyFetch := mkKeyFetch { KeyFetch_UserId : string; KeyFetch_DeviceId : string }.
Record KeyBundle := mkKeyBundle {
  KeyBundle_UserId : string;
  KeyBundle_DeviceId : string;
  KeyBundle_IdentityKey : string;
  KeyBundle_SigningKey : string;
  KeyBundle_SignedPrekey : string;
  KeyBundle_SignedPrekeySig : string;
  KeyBundle_OneTimePrekey : string;
}.
Record KeyState := mkKeyState {
  KeyState_OneTimePrekeysLeft : Z;
  KeyState_SignedPrekeyAgeMs : Z;
  KeyState_Accepted : Z;
}.
Record KeyBundles := mkKeyBundles { KeyBundles_UserId : string; KeyBundles_Bundles : list KeyBundle }.
Record SecretMsg := mkSecretMsg {
  SecretMsg_ToUserId : string;
  SecretMsg_ToDeviceId : string;
  SecretMsg_FromUserId : string;
  SecretMsg_FromDeviceId : string;
  SecretMsg_RatchetHeader : string;
  SecretMsg_Ciphertext : string;
  SecretMsg_QueueId : string;
  SecretMsg_RatchetHeaderBin : bytes;
  SecretMsg_CiphertextBin : bytes;
}.
Record BillingPlans := mkBillingPlans { BillingPlans_Country : string }.
Record PlanOffer := mkPlanOffer {
  PlanOffer_Plan : string;
  PlanOffer_AmountMinor : Z;
  PlanOffer_Currency : string;
  PlanOffer_PeriodDays : Z;
  PlanOffer_Methods : list string;
}.
Record BillingOffers := mkBillingOffers { BillingOffers_Offers : list PlanOffer }.
Record BillingCheckout := mkBillingCheckout {
  BillingCheckout_Plan : string;
  BillingCheckout_Method : string;
  BillingCheckout_IdempotencyKey : string;
  BillingCheckout_Country : string;
  BillingCheckout_ReturnUrl : string;
}.
Record BillingPayment := mkBillingPayment {
  BillingPayment_PaymentId : string;
  BillingPayment_Status : string;
  BillingPayment_AmountMinor : Z;
  BillingPayment_Currency : string;
  BillingPayment_PayUrl : string;
  BillingPayment_QrPayload : string;
  BillingPayment_Deduplicated : bool;
}.
Record BillingStatus := mkBillingStatus { }.
Record BillingCancel := mkBillingCancel { }.
Record Subscription := mkSubscription {
  Subscription_Plan : string;
  Subscription_Status : string;
  Subscription_PeriodEnd : Z;
  Subscription_CancelAtPeriodEnd : bool;
  Subscription_SecretChats : bool;
  Subscription_MaxUploadBytes : Z;
  Subscription_MaxPinnedChats : Z;
  Subscription_Folders : bool;
  Subscription_AdvancedSearch : bool;
  Subscription_PriorityDelivery : bool;
  Subscription_VoiceTranscription : bool;
  Subscription_Badge : bool;
  Subscription_CustomThemes : bool;
}.
Record PasswordChange := mkPasswordChange {
  PasswordChange_OldPassword : string;
  PasswordChange_NewPassword : string;
}.
Record PasswordChanged := mkPasswordChanged { PasswordChanged_SessionsRevoked : Z }.
Record TOTPSetup := mkTOTPSetup { }.
Record TOTPSetupInfo := mkTOTPSetupInfo { TOTPSetupInfo_Secret : string; TOTPSetupInfo_Uri : string }.
Record TOTPConfirm := mkTOTPConfirm { TOTPConfirm_Code : string }.
Record TOTPDisable := mkTOTPDisable { TOTPDisable_Password : string; TOTPDisable_Code : string }.
Record TOTPState := mkTOTPState {
  TOTPState_Enabled : bool;
  TOTPState_RecoveryLeft : Z;
  TOTPState_RecoveryCodes : list string;
  TOTPState_ConfirmedAtMs : Z;
}.
Record SecretAck := mkSecretAck {
  SecretAck_ToUserId : string;
  SecretAck_ToDeviceId : string;
  SecretAck_Devices : Z;
  SecretAck_Queued : bool;
}.
Record SecretSync := mkSecretSync { SecretSync_After : string; SecretSync_Limit : Z }.
Record SecretSynced := mkSecretSynced {
  SecretSynced_Count : Z;
  SecretSynced_NextAfter : string;
  SecretSynced_Done : bool;
}.
Record SecretAcked := mkSecretAcked { SecretAcked_Ids : list string }.
Record ChatExport := mkChatExport { ChatExport_ChatId : string }.
Record ChatMember := mkChatMember {
  ChatMember_UserId : string;
  ChatMember_Role : string;
  ChatMember_JoinedAt : Z;
}.
Record ChatExportResult := mkChatExportResult {
  ChatExportResult_ChatId : string;
  ChatExportResult_Type : string;
  ChatExportResult_Title : string;
  ChatExportResult_OwnerId : string;
  ChatExportResult_Members : list ChatMember;
  ChatExportResult_Messages : list NewMessage;
  ChatExportResult_Done : bool;
}.
Record CallInvite := mkCallInvite { CallInvite_ChatId : string; CallInvite_Kind : string }.
Record CallAction := mkCallAction { CallAction_CallId : string }.
Record CallParticipant := mkCallParticipant {
  CallParticipant_UserId : string;
  CallParticipant_DeviceId : string;
  CallParticipant_State : string;
}.
Record CallState := mkCallState {
  CallState_CallId : string;
  CallState_ChatId : string;
  CallState_InitiatorId : string;
  CallState_Kind : string;
  CallState_State : string;
  CallState_Participants : list CallParticipant;
}.
Record CallSignal := mkCallSignal {
  CallSignal_CallId : string;
  CallSignal_ToUserId : string;
  CallSignal_ToDeviceId : string;
  CallSignal_FromUserId : string;
  CallSignal_FromDeviceId : string;
  CallSignal_SignalType : string;
  CallSignal_Payload : string;
}.
Record PollCreate := mkPollCreate {
  PollCreate_ChatId : string;
  PollCreate_Question : string;
  PollCreate_Options : list string;
  PollCreate_MultiChoice : bool;
  PollCreate_Anonymous : bool;
}.
Record PollVote := mkPollVote { PollVote_PollId : string; PollVote_Option : Z }.
Record PollClose := mkPollClose { PollClose_PollId : string }.
Record PollOption := mkPollOption { PollOption_Index : Z; PollOption_Text : string; PollOption_Votes : Z }.
Record PollState := mkPollState {
  PollState_PollId : string;
  PollState_ChatId : string;
  PollState_MessageId : string;
  PollState_Question : string;
  PollState_Options : list PollOption;
  PollState_TotalVotes : Z;
  PollState_MultiChoice : bool;
  PollState_Anonymous : bool;
  PollState_Closed : bool;
  PollState_MyVotes : list Z;
}.
Record ContactAdd := mkContactAdd { ContactAdd_Target : string; ContactAdd_Name : string }.
Record ContactRemove := mkContactRemove { ContactRemove_Target : string }.
Record ContactSync := mkContactSync { ContactSync_Since : Z }.
Record Contact := mkContact {
  Contact_UserId : string;
  Contact_Name : string;
  Contact_Blocked : bool;
  Contact_UpdatedAt : Z;
}.
Record ContactList := mkContactList { ContactList_Contacts : list Contact; ContactList_Cursor : Z }.
Record Block := mkBlock { Block_Target : string; Block_Blocked : bool }.
Record Forward := mkForward {
  Forward_FromChatId : string;
  Forward_MessageId : string;
  Forward_ToChatId : string;
  Forward_DedupKey : string;
}.
Record Schedule := mkSchedule {
  Schedule_ChatId : string;
  Schedule_Text : string;
  Schedule_MediaRef : string;
  Schedule_Attachment : option Attachment;
  Schedule_ReplyTo : string;
  Schedule_TtlSeconds : Z;
  Schedule_SendAt : Z;
}.
Record ScheduleList := mkScheduleList { ScheduleList_ChatId : string }.
Record ScheduleCancel := mkScheduleCancel { ScheduleCancel_Id : string }.
Record ScheduledItem := mkScheduledItem {
  ScheduledItem_Id : string;
  ScheduledItem_ChatId : string;
  ScheduledItem_Text : string;
  ScheduledItem_SendAt : Z;
}.
Record Scheduled := mkScheduled { Scheduled_Items : list ScheduledItem }.
Record Pin := mkPin { Pin_MessageId : string; Pin_PinnedBy : string; Pin_PinnedAt : Z }.
Record PinAction := mkPinAction { PinAction_ChatId : string; PinAction_MessageId : string }.
Record Pinned := mkPinned { Pinned_ChatId : string; Pinned_Pins : list Pin }.
Record Draft := mkDraft { Draft_ChatId : string; Draft_Text : string; Draft_ReplyTo : string }.
Record DraftSync := mkDraftSync { DraftSync_Since : Z }.
Record DraftItem := mkDraftItem {
  DraftItem_ChatId : string;
  DraftItem_Text : string;
  DraftItem_ReplyTo : string;
  DraftItem_UpdatedAt : Z;
}.
Record Drafts := mkDrafts { Drafts_Drafts : list DraftItem; Drafts_Cursor : Z }.
Record SetUsername := mkSetUsername { SetUsername_ChatId : string; SetUsername_Username : string }.
Record InviteCreate := mkInviteCreate {
  InviteCreate_ChatId : string;
  InviteCreate_ExpiresAt : Z;
  InviteCreate_MaxUses : Z;
}.
Record InviteRevoke := mkInviteRevoke { InviteRevoke_ChatId : string; InviteRevoke_Code : string }.
Record InviteList := mkInviteList { InviteList_ChatId : string }.
Record Join := mkJoin { Join_Code : string; Join_Handle : string }.
Record SetRole := mkSetRole { SetRole_ChatId : string; SetRole_UserId : string; SetRole_Role : string }.
Record InviteLink := mkInviteLink {
  InviteLink_Code : string;
  InviteLink_ChatId : string;
  InviteLink_ExpiresAt : Z;
  InviteLink_MaxUses : Z;
  InviteLink_Uses : Z;
}.
Record Invites := mkInvites { Invites_Links : list InviteLink; Invites_JoinedChat : string }.
Record FanoutShard := mkFanoutShard {
  FanoutShard_Body : option NewMessage;
  FanoutShard_Members : list string;
}.
Record ChatCreate := mkChatCreate {
  ChatCreate_Type : string;
  ChatCreate_Title : string;
  ChatCreate_Members : list string;
}.
Record ChatInfo := mkChatInfo {
  ChatInfo_ChatId : string;
  ChatInfo_Type : string;
  ChatInfo_Title : string;
  ChatInfo_OwnerId : string;
}.
Record PushToken := mkPushToken { PushToken_Token : string }.
Record ChatList := mkChatList {
  ChatList_After : string;
  ChatList_Limit : Z;
  ChatList_AfterActivity : Z;
  ChatList_IncludeArchived : bool;
}.
Record ChatSummary := mkChatSummary {
  ChatSummary_ChatId : string;
  ChatSummary_Type : string;
  ChatSummary_Title : string;
  ChatSummary_OwnerId : string;
  ChatSummary_Username : string;
  ChatSummary_LastSeq : Z;
  ChatSummary_MyRole : string;
  ChatSummary_PeerId : string;
  ChatSummary_LastMessage : option NewMessage;
  ChatSummary_UnreadCount : Z;
  ChatSummary_LastActivityAt : Z;
  ChatSummary_MutedUntil : Z;
  ChatSummary_Pinned : bool;
  ChatSummary_Archived : bool;
}.
Record Chats := mkChats {
  Chats_Chats : list ChatSummary;
  Chats_NextAfter : string;
  Chats_Done : bool;
  Chats_NextAfterActivity : Z;
}.
Record ChatFlags := mkChatFlags {
  ChatFlags_ChatId : string;
  ChatFlags_MutedUntil : Z;
  ChatFlags_Pinned : bool;
  ChatFlags_Archived : bool;
}.
Record ChatFlagsSet := mkChatFlagsSet {
  ChatFlagsSet_ChatId : string;
  ChatFlagsSet_MutedUntil : Z;
  ChatFlagsSet_Pinned : bool;
  ChatFlagsSet_Archived : bool;
}.
Record ProfileGet := mkProfileGet { ProfileGet_Target : string }.
Record ProfileSet := mkProfileSet {
  ProfileSet_DisplayName : string;
  ProfileSet_AvatarRef : string;
  ProfileSet_ClearAvatar : bool;
}.
Record Profile := mkProfile {
  Profile_UserId : string;
  Profile_Username : string;
  Profile_DisplayName : string;
  Profile_AvatarRef : string;
  Profile_Premium : bool;
}.
Record AccountDelete := mkAccountDelete { AccountDelete_Password : string; AccountDelete_Reason : string }.
Record AccountDeleted := mkAccountDeleted { AccountDeleted_UserId : string; AccountDeleted_DeletedAt : Z }.
Record SessionList := mkSessionList { }.
Record SessionInfo := mkSessionInfo {
  SessionInfo_SessionId : string;
  SessionInfo_DeviceId : string;
  SessionInfo_Platform : string;
  SessionInfo_CreatedAt : Z;
  SessionInfo_ExpiresAt : Z;
  SessionInfo_Current : bool;
}.
Record Sessions := mkSessions { Sessions_Sessions : list SessionInfo }.
Record SessionRevoke := mkSessionRevoke {
  SessionRevoke_SessionId : string;
  SessionRevoke_AllIncludingCurrent : bool;
}.
Record SessionRevoked := mkSessionRevoked { SessionRevoked_Revoked : Z; SessionRevoked_Self : bool }.
Record HistoryPage := mkHistoryPage {
  HistoryPage_Messages : list NewMessage;
  HistoryPage_ChatId : string;
  HistoryPage_NextBefore : Z;
  HistoryPage_Done : bool;
}.
Record PrivacyGet := mkPrivacyGet { }.
Record PrivacySet := mkPrivacySet {
  PrivacySet_LastSeen : string;
  PrivacySet_Avatar : string;
  PrivacySet_Groups : string;
  PrivacySet_PushPreview : bool;
}.
Record Privacy := mkPrivacy {
  Privacy_LastSeen : string;
  Privacy_Avatar : string;
  Privacy_Groups : string;
  Privacy_PushPreview : bool;
}.

End pb.
