(* ===== verification/ProtoCodec.v ===== *)
(** pkg/wire/protocodec.go: the codec that turns every [wire] body into its
    protobuf twin and back.  A [Kind] names one arm of the two type switches;
    [toProto] and [fromProto] are the arms, [Marshal] and [Unmarshal] the codec
    over the protobuf runtime, which is third-party code and so an interface
    ([ProtoRuntime]).  The theorems show that no arm of the two switches loses
    or mixes up a field. *)
From stdpp Require Import strings gmap.
From S2P Require Import Prelude Bytes WireBodies ProtoMessages.
Local Open Scope Z_scope.
Local Open Scope string_scope.

(** ** The conversions of the composite bodies *)

(** A nil map and an empty one are the same map here. *)
Definition countsToProto (m : gmap string Z) : gmap string Z := i32 <$> m.
Definition countsFromProto (m : gmap string Z) : gmap string Z := m.

Definition attachToProto (a : option wire.Attachment) : option pb.Attachment :=
  (λ a, {| pb.Attachment_Kind := wire.Attachment_Kind a; pb.Attachment_MediaRef := wire.Attachment_MediaRef a;
     pb.Attachment_Filename := wire.Attachment_Filename a; pb.Attachment_Mime := wire.Attachment_MIME a;
     pb.Attachment_Size := wire.Attachment_Size a; pb.Attachment_DurationMs := wire.Attachment_DurationMs a;
     pb.Attachment_Waveform := wire.Attachment_Waveform a; pb.Attachment_Width := wire.Attachment_Width a;
     pb.Attachment_Height := wire.Attachment_Height a; pb.Attachment_ThumbRef := wire.Attachment_ThumbRef a |}) <$> a.

Definition attachFromProto (a : option pb.Attachment) : option wire.Attachment :=
  (λ a, {| wire.Attachment_Kind := pb.Attachment_Kind a; wire.Attachment_MediaRef := pb.Attachment_MediaRef a;
     wire.Attachment_Filename := pb.Attachment_Filename a; wire.Attachment_MIME := pb.Attachment_Mime a;
     wire.Attachment_Size := pb.Attachment_Size a; wire.Attachment_DurationMs := pb.Attachment_DurationMs a;
     wire.Attachment_Waveform := pb.Attachment_Waveform a; wire.Attachment_Width := pb.Attachment_Width a;
     wire.Attachment_Height := pb.Attachment_Height a; wire.Attachment_ThumbRef := pb.Attachment_ThumbRef a |}) <$> a.

Definition fwdToProto (f : option wire.ForwardOrigin) : option pb.ForwardOrigin :=
  (λ f, {| pb.ForwardOrigin_ChatId := wire.ForwardOrigin_ChatID f;
     pb.ForwardOrigin_MessageId := wire.ForwardOrigin_MessageID f;
     pb.ForwardOrigin_SenderId := wire.ForwardOrigin_SenderID f |}) <$> f.

Definition fwdFromProto (f : option pb.ForwardOrigin) : option wire.ForwardOrigin :=
  (λ f, {| wire.ForwardOrigin_ChatID := pb.ForwardOrigin_ChatId f;
     wire.ForwardOrigin_MessageID := pb.ForwardOrigin_MessageId f;
     wire.ForwardOrigin_SenderID := pb.ForwardOrigin_SenderId f |}) <$> f.

Definition newMessageToProto (b : wire.NewMessageBody) : pb.NewMessage :=
  {| pb.NewMessage_MessageId := wire.NewMessageBody_MessageID b; pb.NewMessage_ChatId := wire.NewMessageBody_ChatID b;
     pb.NewMessage_SenderId := wire.NewMessageBody_SenderID b; pb.NewMessage_ChatSeq := wire.NewMessageBody_ChatSeq b;
     pb.NewMessage_Text := wire.NewMessageBody_Text b; pb.NewMessage_MediaRef := wire.NewMessageBody_MediaRef b;
     pb.NewMessage_ReplyTo := wire.NewMessageBody_ReplyTo b; pb.NewMessage_Edited := wire.NewMessageBody_Edited b;
     pb.NewMessage_Deleted := wire.NewMessageBody_Deleted b;
     pb.NewMessage_Timestamp := wire.NewMessageBody_Timestamp b;
     pb.NewMessage_Attachment := attachToProto (wire.NewMessageBody_Attachment b);
     pb.NewMessage_ThreadRoot := wire.NewMessageBody_ThreadRoot b;
     pb.NewMessage_ReplyCount := wire.NewMessageBody_ReplyCount b;
     pb.NewMessage_Forward := fwdToProto (wire.NewMessageBody_Forward b);
     pb.NewMessage_ExpiresAt := wire.NewMessageBody_ExpiresAt b |}.

Definition newMessageFromProto (m : pb.NewMessage) : wire.NewMessageBody :=
  {| wire.NewMessageBody_MessageID := pb.NewMessage_MessageId m; wire.NewMessageBody_ChatID := pb.NewMessage_ChatId m;
     wire.NewMessageBody_SenderID := pb.NewMessage_SenderId m; wire.NewMessageBody_ChatSeq := pb.NewMessage_ChatSeq m;
     wire.NewMessageBody_Text := pb.NewMessage_Text m; wire.NewMessageBody_MediaRef := pb.NewMessage_MediaRef m;
     wire.NewMessageBody_ReplyTo := pb.NewMessage_ReplyTo m;
     wire.NewMessageBody_Attachment := attachFromProto (pb.NewMessage_Attachment m);
     wire.NewMessageBody_Forward := fwdFromProto (pb.NewMessage_Forward m);
     wire.NewMessageBody_ExpiresAt := pb.NewMessage_ExpiresAt m;
     wire.NewMessageBody_ThreadRoot := pb.NewMessage_ThreadRoot m;
     wire.NewMessageBody_ReplyCount := pb.NewMessage_ReplyCount m;
     wire.NewMessageBody_Edited := pb.NewMessage_Edited m; wire.NewMessageBody_Deleted := pb.NewMessage_Deleted m;
     wire.NewMessageBody_Timestamp := pb.NewMessage_Timestamp m |}.

Definition searchResultsToProto (b : wire.SearchResultsBody) : pb.SearchResults :=
  {| pb.SearchResults_Query := wire.SearchResultsBody_Query b;
     pb.SearchResults_Hits := (λ h, {| pb.SearchHit_MessageId := wire.SearchHit_MessageID h; pb.SearchHit_ChatId := wire.SearchHit_ChatID h;
        pb.SearchHit_SenderId := wire.SearchHit_SenderID h; pb.SearchHit_Seq := wire.SearchHit_Seq h;
        pb.SearchHit_Text := wire.SearchHit_Text h; pb.SearchHit_CreatedAt := wire.SearchHit_CreatedAt h |}) <$> wire.SearchResultsBody_Hits b |}.

Definition searchResultsFromProto (m : pb.SearchResults) : wire.SearchResultsBody :=
  {| wire.SearchResultsBody_Query := pb.SearchResults_Query m;
     wire.SearchResultsBody_Hits := (λ h, {| wire.SearchHit_MessageID := pb.SearchHit_MessageId h; wire.SearchHit_ChatID := pb.SearchHit_ChatId h;
        wire.SearchHit_SenderID := pb.SearchHit_SenderId h; wire.SearchHit_Seq := pb.SearchHit_Seq h;
        wire.SearchHit_Text := pb.SearchHit_Text h; wire.SearchHit_CreatedAt := pb.SearchHit_CreatedAt h |}) <$> pb.SearchResults_Hits m |}.

Definition keyBundleToProto (b : wire.KeyBundleBody) : pb.KeyBundle :=
  {| pb.KeyBundle_UserId := wire.KeyBundleBody_UserID b; pb.KeyBundle_DeviceId := wire.KeyBundleBody_DeviceID b;
     pb.KeyBundle_IdentityKey := wire.KeyBundleBody_IdentityKey b;
     pb.KeyBundle_SigningKey := wire.KeyBundleBody_SigningKey b;
     pb.KeyBundle_SignedPrekey := wire.KeyBundleBody_SignedPreKey b;
     pb.KeyBundle_SignedPrekeySig := wire.KeyBundleBody_SignedPreKeySig b;
     pb.KeyBundle_OneTimePrekey := wire.KeyBundleBody_OneTimePreKey b |}.

Definition keyBundleFromProto (m : pb.KeyBundle) : wire.KeyBundleBody :=
  {| wire.KeyBundleBody_UserID := pb.KeyBundle_UserId m; wire.KeyBundleBody_DeviceID := pb.KeyBundle_DeviceId m;
     wire.KeyBundleBody_IdentityKey := pb.KeyBundle_IdentityKey m;
     wire.KeyBundleBody_SigningKey := pb.KeyBundle_SigningKey m;
     wire.KeyBundleBody_SignedPreKey := pb.KeyBundle_SignedPrekey m;
     wire.KeyBundleBody_SignedPreKeySig := pb.KeyBundle_SignedPrekeySig m;
     wire.KeyBundleBody_OneTimePreKey := pb.KeyBundle_OneTimePrekey m |}.

Definition keyBundlesToProto (b : wire.KeyBundlesBody) : pb.KeyBundles :=
  {| pb.KeyBundles_UserId := wire.KeyBundlesBody_UserID b;
     pb.KeyBundles_Bundles := keyBundleToProto <$> wire.KeyBundlesBody_Bundles b |}.

Definition keyBundlesFromProto (m : pb.KeyBundles) : wire.KeyBundlesBody :=
  {| wire.KeyBundlesBody_UserID := pb.KeyBundles_UserId m;
     wire.KeyBundlesBody_Bundles := keyBundleFromProto <$> pb.KeyBundles_Bundles m |}.

Definition chatExportToProto (b : wire.ChatExportResultBody) : pb.ChatExportResult :=
  {| pb.ChatExportResult_ChatId := wire.ChatExportResultBody_ChatID b;
     pb.ChatExportResult_Type := wire.ChatExportResultBody_Type b;
     pb.ChatExportResult_Title := wire.ChatExportResultBody_Title b;
     pb.ChatExportResult_OwnerId := wire.ChatExportResultBody_OwnerID b;
     pb.ChatExportResult_Members := (λ m, {| pb.ChatMember_UserId := wire.ChatMemberInfo_UserID m; pb.ChatMember_Role := wire.ChatMemberInfo_Role m;
        pb.ChatMember_JoinedAt := wire.ChatMemberInfo_JoinedAt m |}) <$> wire.ChatExportResultBody_Members b;
     pb.ChatExportResult_Messages := newMessageToProto <$> wire.ChatExportResultBody_Messages b;
     pb.ChatExportResult_Done := wire.ChatExportResultBody_Done b |}.

Definition chatExportFromProto (m : pb.ChatExportResult) : wire.ChatExportResultBody :=
  {| wire.ChatExportResultBody_ChatID := pb.ChatExportResult_ChatId m;
     wire.ChatExportResultBody_Type := pb.ChatExportResult_Type m;
     wire.ChatExportResultBody_Title := pb.ChatExportResult_Title m;
     wire.ChatExportResultBody_OwnerID := pb.ChatExportResult_OwnerId m;
     wire.ChatExportResultBody_Members := (λ mm, {| wire.ChatMemberInfo_UserID := pb.ChatMember_UserId mm; wire.ChatMemberInfo_Role := pb.ChatMember_Role mm;
        wire.ChatMemberInfo_JoinedAt := pb.ChatMember_JoinedAt mm |}) <$> pb.ChatExportResult_Members m;
     wire.ChatExportResultBody_Messages := newMessageFromProto <$> pb.ChatExportResult_Messages m;
     wire.ChatExportResultBody_Done := pb.ChatExportResult_Done m |}.

Definition callStateToProto (b : wire.CallStateBody) : pb.CallState :=
  {| pb.CallState_CallId := wire.CallStateBody_CallID b; pb.CallState_ChatId := wire.CallStateBody_ChatID b;
     pb.CallState_InitiatorId := wire.CallStateBody_InitiatorID b; pb.CallState_Kind := wire.CallStateBody_Kind b;
     pb.CallState_State := wire.CallStateBody_State b;
     pb.CallState_Participants := (λ p, {| pb.CallParticipant_UserId := wire.CallParticipant_UserID p;
        pb.CallParticipant_DeviceId := wire.CallParticipant_DeviceID p;
        pb.CallParticipant_State := wire.CallParticipant_State p |}) <$> wire.CallStateBody_Participants b |}.

Definition callStateFromProto (m : pb.CallState) : wire.CallStateBody :=
  {| wire.CallStateBody_CallID := pb.CallState_CallId m; wire.CallStateBody_ChatID := pb.CallState_ChatId m;
     wire.CallStateBody_InitiatorID := pb.CallState_InitiatorId m; wire.CallStateBody_Kind := pb.CallState_Kind m;
     wire.CallStateBody_State := pb.CallState_State m;
     wire.CallStateBody_Participants := (λ p, {| wire.CallParticipant_UserID := pb.CallParticipant_UserId p;
        wire.CallParticipant_DeviceID := pb.CallParticipant_DeviceId p;
        wire.CallParticipant_State := pb.CallParticipant_State p |}) <$> pb.CallState_Participants m |}.

Definition pollStateToProto (b : wire.PollStateBody) : pb.PollState :=
  {| pb.PollState_PollId := wire.PollStateBody_PollID b; pb.PollState_ChatId := wire.PollStateBody_ChatID b;
     pb.PollState_MessageId := wire.PollStateBody_MessageID b; pb.PollState_Question := wire.PollStateBody_Question b;
     pb.PollState_Options := (λ o, {| pb.PollOption_Index := wire.PollOption_Index o; pb.PollOption_Text := wire.PollOption_Text o;
        pb.PollOption_Votes := wire.PollOption_Votes o |}) <$> wire.PollStateBody_Options b;
     pb.PollState_TotalVotes := wire.PollStateBody_TotalVotes b;
     pb.PollState_MultiChoice := wire.PollStateBody_MultiChoice b;
     pb.PollState_Anonymous := wire.PollStateBody_Anonymous b; pb.PollState_Closed := wire.PollStateBody_Closed b;
     pb.PollState_MyVotes := wire.PollStateBody_MyVotes b |}.

Definition pollStateFromProto (m : pb.PollState) : wire.PollStateBody :=
  {| wire.PollStateBody_PollID := pb.PollState_PollId m; wire.PollStateBody_ChatID := pb.PollState_ChatId m;
     wire.PollStateBody_MessageID := pb.PollState_MessageId m; wire.PollStateBody_Question := pb.PollState_Question m;
     wire.PollStateBody_Options := (λ o, {| wire.PollOption_Index := pb.PollOption_Index o; wire.PollOption_Text := pb.PollOption_Text o;
        wire.PollOption_Votes := pb.PollOption_Votes o |}) <$> pb.PollState_Options m;
     wire.PollStateBody_TotalVotes := pb.PollState_TotalVotes m;
     wire.PollStateBody_MultiChoice := pb.PollState_MultiChoice m;
     wire.PollStateBody_Anonymous := pb.PollState_Anonymous m; wire.PollStateBody_Closed := pb.PollState_Closed m;
     wire.PollStateBody_MyVotes := pb.PollState_MyVotes m |}.

Definition contactListToProto (b : wire.ContactListBody) : pb.ContactList :=
  {| pb.ContactList_Contacts := (λ c, {| pb.Contact_UserId := wire.Contact_UserID c; pb.Contact_Name := wire.Contact_Name c;
        pb.Contact_Blocked := wire.Contact_Blocked c; pb.Contact_UpdatedAt := wire.Contact_UpdatedAt c |}) <$> wire.ContactListBody_Contacts b;
     pb.ContactList_Cursor := wire.ContactListBody_Cursor b |}.

Definition contactListFromProto (m : pb.ContactList) : wire.ContactListBody :=
  {| wire.ContactListBody_Contacts := (λ c, {| wire.Contact_UserID := pb.Contact_UserId c; wire.Contact_Name := pb.Contact_Name c;
        wire.Contact_Blocked := pb.Contact_Blocked c; wire.Contact_UpdatedAt := pb.Contact_UpdatedAt c |}) <$> pb.ContactList_Contacts m;
     wire.ContactListBody_Cursor := pb.ContactList_Cursor m |}.

Definition scheduledToProto (b : wire.ScheduledBody) : pb.Scheduled :=
  {| pb.Scheduled_Items := (λ i, {| pb.ScheduledItem_Id := wire.ScheduledItem_ID i; pb.ScheduledItem_ChatId := wire.ScheduledItem_ChatID i;
        pb.ScheduledItem_Text := wire.ScheduledItem_Text i; pb.ScheduledItem_SendAt := wire.ScheduledItem_SendAt i |}) <$> wire.ScheduledBody_Items b |}.

Definition scheduledFromProto (m : pb.Scheduled) : wire.ScheduledBody :=
  {| wire.ScheduledBody_Items := (λ i, {| wire.ScheduledItem_ID := pb.ScheduledItem_Id i; wire.ScheduledItem_ChatID := pb.ScheduledItem_ChatId i;
        wire.ScheduledItem_Text := pb.ScheduledItem_Text i; wire.ScheduledItem_SendAt := pb.ScheduledItem_SendAt i |}) <$> pb.Scheduled_Items m |}.

Definition pinnedToProto (b : wire.PinnedBody) : pb.Pinned :=
  {| pb.Pinned_ChatId := wire.PinnedBody_ChatID b;
     pb.Pinned_Pins := (λ p, {| pb.Pin_MessageId := wire.Pin_MessageID p; pb.Pin_PinnedBy := wire.Pin_PinnedBy p;
        pb.Pin_PinnedAt := wire.Pin_PinnedAt p |}) <$> wire.PinnedBody_Pins b |}.

Definition pinnedFromProto (m : pb.Pinned) : wire.PinnedBody :=
  {| wire.PinnedBody_ChatID := pb.Pinned_ChatId m;
     wire.PinnedBody_Pins := (λ p, {| wire.Pin_MessageID := pb.Pin_MessageId p; wire.Pin_PinnedBy := pb.Pin_PinnedBy p;
        wire.Pin_PinnedAt := pb.Pin_PinnedAt p |}) <$> pb.Pinned_Pins m |}.

Definition draftsToProto (b : wire.DraftsBody) : pb.Drafts :=
  {| pb.Drafts_Drafts := (λ d, {| pb.DraftItem_ChatId := wire.DraftItem_ChatID d; pb.DraftItem_Text := wire.DraftItem_Text d;
        pb.DraftItem_ReplyTo := wire.DraftItem_ReplyTo d; pb.DraftItem_UpdatedAt := wire.DraftItem_UpdatedAt d |}) <$> wire.DraftsBody_Drafts b;
     pb.Drafts_Cursor := wire.DraftsBody_Cursor b |}.

Definition draftsFromProto (m : pb.Drafts) : wire.DraftsBody :=
  {| wire.DraftsBody_Drafts := (λ d, {| wire.DraftItem_ChatID := pb.DraftItem_ChatId d; wire.DraftItem_Text := pb.DraftItem_Text d;
        wire.DraftItem_ReplyTo := pb.DraftItem_ReplyTo d; wire.DraftItem_UpdatedAt := pb.DraftItem_UpdatedAt d |}) <$> pb.Drafts_Drafts m;
     wire.DraftsBody_Cursor := pb.Drafts_Cursor m |}.

Definition chatsToProto (b : wire.ChatsBody) : pb.Chats :=
  {| pb.Chats_Chats := (λ c, {| pb.ChatSummary_ChatId := wire.ChatSummary_ChatID c; pb.ChatSummary_Type := wire.ChatSummary_Type c;
        pb.ChatSummary_Title := wire.ChatSummary_Title c; pb.ChatSummary_OwnerId := wire.ChatSummary_OwnerID c;
        pb.ChatSummary_Username := wire.ChatSummary_Username c; pb.ChatSummary_LastSeq := wire.ChatSummary_LastSeq c;
        pb.ChatSummary_MyRole := wire.ChatSummary_MyRole c; pb.ChatSummary_PeerId := wire.ChatSummary_PeerID c;
        pb.ChatSummary_LastMessage := newMessageToProto <$> wire.ChatSummary_LastMessage c;
        pb.ChatSummary_UnreadCount := wire.ChatSummary_UnreadCount c;
        pb.ChatSummary_LastActivityAt := wire.ChatSummary_LastActivityAt c;
        pb.ChatSummary_MutedUntil := wire.ChatSummary_MutedUntil c;
        pb.ChatSummary_Pinned := wire.ChatSummary_Pinned c; pb.ChatSummary_Archived := wire.ChatSummary_Archived c |}) <$> wire.ChatsBody_Chats b;
     pb.Chats_NextAfter := wire.ChatsBody_NextAfter b; pb.Chats_Done := wire.ChatsBody_Done b;
     pb.Chats_NextAfterActivity := wire.ChatsBody_NextAfterActivity b |}.

Definition chatsFromProto (m : pb.Chats) : wire.ChatsBody :=
  {| wire.ChatsBody_Chats := (λ c, {| wire.ChatSummary_ChatID := pb.ChatSummary_ChatId c; wire.ChatSummary_Type := pb.ChatSummary_Type c;
        wire.ChatSummary_Title := pb.ChatSummary_Title c; wire.ChatSummary_OwnerID := pb.ChatSummary_OwnerId c;
        wire.ChatSummary_Username := pb.ChatSummary_Username c; wire.ChatSummary_LastSeq := pb.ChatSummary_LastSeq c;
        wire.ChatSummary_MyRole := pb.ChatSummary_MyRole c; wire.ChatSummary_PeerID := pb.ChatSummary_PeerId c;
        wire.ChatSummary_LastMessage := newMessageFromProto <$> pb.ChatSummary_LastMessage c;
        wire.ChatSummary_UnreadCount := pb.ChatSummary_UnreadCount c;
        wire.ChatSummary_LastActivityAt := pb.ChatSummary_LastActivityAt c;
        wire.ChatSummary_MutedUntil := pb.ChatSummary_MutedUntil c;
        wire.ChatSummary_Pinned := pb.ChatSummary_Pinned c; wire.ChatSummary_Archived := pb.ChatSummary_Archived c |}) <$> pb.Chats_Chats m;
     wire.ChatsBody_NextAfter := pb.Chats_NextAfter m;
     wire.ChatsBody_NextAfterActivity := pb.Chats_NextAfterActivity m; wire.ChatsBody_Done := pb.Chats_Done m |}.

Definition invitesToProto (b : wire.InvitesBody) : pb.Invites :=
  {| pb.Invites_Links := (λ l, {| pb.InviteLink_Code := wire.InviteLink_Code l; pb.InviteLink_ChatId := wire.InviteLink_ChatID l;
        pb.InviteLink_ExpiresAt := wire.InviteLink_ExpiresAt l; pb.InviteLink_MaxUses := wire.InviteLink_MaxUses l;
        pb.InviteLink_Uses := wire.InviteLink_Uses l |}) <$> wire.InvitesBody_Links b;
     pb.Invites_JoinedChat := wire.InvitesBody_JoinedChat b |}.

Definition invitesFromProto (m : pb.Invites) : wire.InvitesBody :=
  {| wire.InvitesBody_Links := (λ l, {| wire.InviteLink_Code := pb.InviteLink_Code l; wire.InviteLink_ChatID := pb.InviteLink_ChatId l;
        wire.InviteLink_ExpiresAt := pb.InviteLink_ExpiresAt l; wire.InviteLink_MaxUses := pb.InviteLink_MaxUses l;
        wire.InviteLink_Uses := pb.InviteLink_Uses l |}) <$> pb.Invites_Links m;
     wire.InvitesBody_JoinedChat := pb.Invites_JoinedChat m |}.

Definition sessionsToProto (b : wire.SessionsBody) : pb.Sessions :=
  {| pb.Sessions_Sessions := (λ s, {| pb.SessionInfo_SessionId := wire.SessionInfo_SessionID s;
        pb.SessionInfo_DeviceId := wire.SessionInfo_DeviceID s;
        pb.SessionInfo_Platform := wire.SessionInfo_Platform s;
        pb.SessionInfo_CreatedAt := wire.SessionInfo_CreatedAt s;
        pb.SessionInfo_ExpiresAt := wire.SessionInfo_ExpiresAt s;
        pb.SessionInfo_Current := wire.SessionInfo_Current s |}) <$> wire.SessionsBody_Sessions b |}.

Definition sessionsFromProto (m : pb.Sessions) : wire.SessionsBody :=
  {| wire.SessionsBody_Sessions := (λ s, {| wire.SessionInfo_SessionID := pb.SessionInfo_SessionId s;
        wire.SessionInfo_DeviceID := pb.SessionInfo_DeviceId s;
        wire.SessionInfo_Platform := pb.SessionInfo_Platform s;
        wire.SessionInfo_CreatedAt := pb.SessionInfo_CreatedAt s;
        wire.SessionInfo_ExpiresAt := pb.SessionInfo_ExpiresAt s;
        wire.SessionInfo_Current := pb.SessionInfo_Current s |}) <$> pb.Sessions_Sessions m |}.

Definition historyPageToProto (b : wire.HistoryPageBody) : pb.HistoryPage :=
  {| pb.HistoryPage_Messages := newMessageToProto <$> wire.HistoryPageBody_Messages b;
     pb.HistoryPage_ChatId := wire.HistoryPageBody_ChatID b;
     pb.HistoryPage_NextBefore := wire.HistoryPageBody_NextBefore b;
     pb.HistoryPage_Done := wire.HistoryPageBody_Done b |}.

Definition historyPageFromProto (m : pb.HistoryPage) : wire.HistoryPageBody :=
  {| wire.HistoryPageBody_Messages := newMessageFromProto <$> pb.HistoryPage_Messages m;
     wire.HistoryPageBody_ChatID := pb.HistoryPage_ChatId m;
     wire.HistoryPageBody_NextBefore := pb.HistoryPage_NextBefore m;
     wire.HistoryPageBody_Done := pb.HistoryPage_Done m |}.

Definition billingOffersToProto (b : wire.BillingOffersBody) : pb.BillingOffers :=
  {| pb.BillingOffers_Offers := (λ o, {| pb.PlanOffer_Plan := wire.PlanOfferWire_Plan o; pb.PlanOffer_AmountMinor := wire.PlanOfferWire_AmountMinor o;
        pb.PlanOffer_Currency := wire.PlanOfferWire_Currency o;
        pb.PlanOffer_PeriodDays := wire.PlanOfferWire_PeriodDays o;
        pb.PlanOffer_Methods := wire.PlanOfferWire_Methods o |}) <$> wire.BillingOffersBody_Offers b |}.

Definition billingOffersFromProto (m : pb.BillingOffers) : wire.BillingOffersBody :=
  {| wire.BillingOffersBody_Offers := (λ o, {| wire.PlanOfferWire_Plan := pb.PlanOffer_Plan o; wire.PlanOfferWire_AmountMinor := pb.PlanOffer_AmountMinor o;
        wire.PlanOfferWire_Currency := pb.PlanOffer_Currency o;
        wire.PlanOfferWire_PeriodDays := pb.PlanOffer_PeriodDays o;
        wire.PlanOfferWire_Methods := pb.PlanOffer_Methods o |}) <$> pb.BillingOffers_Offers m |}.

(** The zero [NewMessageBody], what a target holds before its body is copied. *)
Definition zeroNewMessage : wire.NewMessageBody :=
  {| wire.NewMessageBody_MessageID := "";
     wire.NewMessageBody_ChatID := "";
     wire.NewMessageBody_SenderID := "";
     wire.NewMessageBody_ChatSeq := 0;
     wire.NewMessageBody_Text := "";
     wire.NewMessageBody_MediaRef := "";
     wire.NewMessageBody_ReplyTo := "";
     wire.NewMessageBody_Attachment := None;
     wire.NewMessageBody_Forward := None;
     wire.NewMessageBody_ExpiresAt := 0;
     wire.NewMessageBody_ThreadRoot := "";
     wire.NewMessageBody_ReplyCount := 0;
     wire.NewMessageBody_Edited := false;
     wire.NewMessageBody_Deleted := false;
     wire.NewMessageBody_Timestamp := 0 |}.

(** ** The arms of the type switches, in the order of the source *)

Inductive TalkKind :=
  | KHello | KWelcome | KAuth | KAuthOK | KSend | KSendAck | KNewMessage | KRead | KReadUpdate | KTyping
  | KReact | KReactUpdate | KPresence | KEdit | KDelete | KThread | KThreadOK | KHistory | KHistoryOK
  | KResume | KResumeOK | KError | KMediaInit | KMediaTicket | KMediaFetch | KMediaURL.

Definition talk_body (k : TalkKind) : Type :=
  match k with
  | KHello => wire.HelloBody | KWelcome => wire.WelcomeBody | KAuth => wire.AuthBody
  | KAuthOK => wire.AuthOKBody | KSend => wire.SendBody | KSendAck => wire.SendAckBody
  | KNewMessage => wire.NewMessageBody | KRead => wire.ReadBody | KReadUpdate => wire.ReadUpdateBody
  | KTyping => wire.TypingBody | KReact => wire.ReactBody | KReactUpdate => wire.ReactUpdateBody
  | KPresence => wire.PresenceBody | KEdit => wire.EditBody | KDelete => wire.DeleteBody
  | KThread => wire.ThreadBody | KThreadOK => wire.ThreadOKBody | KHistory => wire.HistoryBody
  | KHistoryOK => wire.HistoryOKBody | KResume => wire.ResumeBody | KResumeOK => wire.ResumeOKBody
  | KError => wire.ErrorBody | KMediaInit => wire.MediaInitBody | KMediaTicket => wire.MediaTicketBody
  | KMediaFetch => wire.MediaFetchBody | KMediaURL => wire.MediaURLBody
  end.

Definition talk_message (k : TalkKind) : Type :=
  match k with
  | KHello => pb.Hello | KWelcome => pb.Welcome | KAuth => pb.Auth | KAuthOK => pb.AuthOK | KSend => pb.Send
  | KSendAck => pb.SendAck | KNewMessage => pb.NewMessage | KRead => pb.Read | KReadUpdate => pb.ReadUpdate
  | KTyping => pb.Typing | KReact => pb.React | KReactUpdate => pb.ReactUpdate | KPresence => pb.Presence
  | KEdit => pb.Edit | KDelete => pb.Delete | KThread => pb.Thread | KThreadOK => pb.ThreadOK
  | KHistory => pb.History | KHistoryOK => pb.HistoryOK | KResume => pb.Resume | KResumeOK => pb.ResumeOK
  | KError => pb.Error | KMediaInit => pb.MediaInit | KMediaTicket => pb.MediaTicket
  | KMediaFetch => pb.MediaFetch | KMediaURL => pb.MediaURL
  end.

Inductive PeerKind :=
  | KSearch | KSearchResults | KKeyPublish | KKeyFetch | KKeyBundle | KKeyBundles | KKeyState | KSecretMsg
  | KChatFlags | KChatFlagsSet | KSecretAck | KSecretSync | KSecretSynced | KSecretAcked | KSetUsername
  | KInviteCreate | KInviteRevoke | KInviteList | KJoin | KSetRole | KPushToken | KChatCreate | KChatInfo.

Definition peer_body (k : PeerKind) : Type :=
  match k with
  | KSearch => wire.SearchBody | KSearchResults => wire.SearchResultsBody | KKeyPublish => wire.KeyPublishBody
  | KKeyFetch => wire.KeyFetchBody | KKeyBundle => wire.KeyBundleBody | KKeyBundles => wire.KeyBundlesBody
  | KKeyState => wire.KeyStateBody | KSecretMsg => wire.SecretMsgBody | KChatFlags => wire.ChatFlagsBody
  | KChatFlagsSet => wire.ChatFlagsSetBody | KSecretAck => wire.SecretAckBody
  | KSecretSync => wire.SecretSyncBody | KSecretSynced => wire.SecretSyncedBody
  | KSecretAcked => wire.SecretAckedBody | KSetUsername => wire.SetUsernameBody
  | KInviteCreate => wire.InviteCreateBody | KInviteRevoke => wire.InviteRevokeBody
  | KInviteList => wire.InviteListBody | KJoin => wire.JoinBody | KSetRole => wire.SetRoleBody
  | KPushToken => wire.PushTokenBody | KChatCreate => wire.ChatCreateBody | KChatInfo => wire.ChatInfoBody
  end.

Definition peer_message (k : PeerKind) : Type :=
  match k with
  | KSearch => pb.Search | KSearchResults => pb.SearchResults | KKeyPublish => pb.KeyPublish
  | KKeyFetch => pb.KeyFetch | KKeyBundle => pb.KeyBundle | KKeyBundles => pb.KeyBundles
  | KKeyState => pb.KeyState | KSecretMsg => pb.SecretMsg | KChatFlags => pb.ChatFlags
  | KChatFlagsSet => pb.ChatFlagsSet | KSecretAck => pb.SecretAck | KSecretSync => pb.SecretSync
  | KSecretSynced => pb.SecretSynced | KSecretAcked => pb.SecretAcked | KSetUsername => pb.SetUsername
  | KInviteCreate => pb.InviteCreate | KInviteRevoke => pb.InviteRevoke | KInviteList => pb.InviteList
  | KJoin => pb.Join | KSetRole => pb.SetRole | KPushToken => pb.PushToken | KChatCreate => pb.ChatCreate
  | KChatInfo => pb.ChatInfo
  end.

Inductive AccountKind :=
  | KChatList | KChats | KProfileGet | KProfileSet | KProfile | KAccountDelete | KAccountDeleted
  | KBillingPlans | KBillingOffers | KBillingCheckout | KBillingPayment | KBillingStatus | KBillingCancel
  | KSubscription | KPasswordChange | KPasswordChanged | KTOTPSetup | KTOTPSetupInfo | KTOTPConfirm
  | KTOTPDisable | KTOTPState | KPrivacyGet | KPrivacySet | KPrivacy | KHistoryPage | KSessionList | KSessions
  | KSessionRevoke | KSessionRevoked | KFanoutShard.

Definition account_body (k : AccountKind) : Type :=
  match k with
  | KChatList => wire.ChatListBody | KChats => wire.ChatsBody | KProfileGet => wire.ProfileGetBody
  | KProfileSet => wire.ProfileSetBody | KProfile => wire.ProfileBody
  | KAccountDelete => wire.AccountDeleteBody | KAccountDeleted => wire.AccountDeletedBody
  | KBillingPlans => wire.BillingPlansBody | KBillingOffers => wire.BillingOffersBody
  | KBillingCheckout => wire.BillingCheckoutBody | KBillingPayment => wire.BillingPaymentBody
  | KBillingStatus => wire.BillingStatusBody | KBillingCancel => wire.BillingCancelBody
  | KSubscription => wire.SubscriptionBody | KPasswordChange => wire.PasswordChangeBody
  | KPasswordChanged => wire.PasswordChangedBody | KTOTPSetup => wire.TOTPSetupBody
  | KTOTPSetupInfo => wire.TOTPSetupInfoBody | KTOTPConfirm => wire.TOTPConfirmBody
  | KTOTPDisable => wire.TOTPDisableBody | KTOTPState => wire.TOTPStateBody
  | KPrivacyGet => wire.PrivacyGetBody | KPrivacySet => wire.PrivacySetBody | KPrivacy => wire.PrivacyBody
  | KHistoryPage => wire.HistoryPageBody | KSessionList => wire.SessionListBody
  | KSessions => wire.SessionsBody | KSessionRevoke => wire.SessionRevokeBody
  | KSessionRevoked => wire.SessionRevokedBody | KFanoutShard => wire.FanoutShardBody
  end.

Definition account_message (k : AccountKind) : Type :=
  match k with
  | KChatList => pb.ChatList | KChats => pb.Chats | KProfileGet => pb.ProfileGet
  | KProfileSet => pb.ProfileSet | KProfile => pb.Profile | KAccountDelete => pb.AccountDelete
  | KAccountDeleted => pb.AccountDeleted | KBillingPlans => pb.BillingPlans
  | KBillingOffers => pb.BillingOffers | KBillingCheckout => pb.BillingCheckout
  | KBillingPayment => pb.BillingPayment | KBillingStatus => pb.BillingStatus
  | KBillingCancel => pb.BillingCancel | KSubscription => pb.Subscription
  | KPasswordChange => pb.PasswordChange | KPasswordChanged => pb.PasswordChanged | KTOTPSetup => pb.TOTPSetup
  | KTOTPSetupInfo => pb.TOTPSetupInfo | KTOTPConfirm => pb.TOTPConfirm | KTOTPDisable => pb.TOTPDisable
  | KTOTPState => pb.TOTPState | KPrivacyGet => pb.PrivacyGet | KPrivacySet => pb.PrivacySet
  | KPrivacy => pb.Privacy | KHistoryPage => pb.HistoryPage | KSessionList => pb.SessionList
  | KSessions => pb.Sessions | KSessionRevoke => pb.SessionRevoke | KSessionRevoked => pb.SessionRevoked
  | KFanoutShard => pb.FanoutShard
  end.

Inductive SocialKind :=
  | KInvites | KPin | KPinned | KDraft | KDraftSync | KDrafts | KForward | KSchedule | KScheduleList
  | KScheduleCancel | KScheduled | KContactAdd | KContactRemove | KContactSync | KContactList | KBlock
  | KPollCreate | KPollVote | KPollClose | KPollState | KCallInvite | KCallAction | KCallState | KCallSignal
  | KChatExport | KChatExportResult.

Definition social_body (k : SocialKind) : Type :=
  match k with
  | KInvites => wire.InvitesBody | KPin => wire.PinBody | KPinned => wire.PinnedBody
  | KDraft => wire.DraftBody | KDraftSync => wire.DraftSyncBody | KDrafts => wire.DraftsBody
  | KForward => wire.ForwardBody | KSchedule => wire.ScheduleBody | KScheduleList => wire.ScheduleListBody
  | KScheduleCancel => wire.ScheduleCancelBody | KScheduled => wire.ScheduledBody
  | KContactAdd => wire.ContactAddBody | KContactRemove => wire.ContactRemoveBody
  | KContactSync => wire.ContactSyncBody | KContactList => wire.ContactListBody | KBlock => wire.BlockBody
  | KPollCreate => wire.PollCreateBody | KPollVote => wire.PollVoteBody | KPollClose => wire.PollCloseBody
  | KPollState => wire.PollStateBody | KCallInvite => wire.CallInviteBody | KCallAction => wire.CallActionBody
  | KCallState => wire.CallStateBody | KCallSignal => wire.CallSignalBody | KChatExport => wire.ChatExportBody
  | KChatExportResult => wire.ChatExportResultBody
  end.

Definition social_message (k : SocialKind) : Type :=
  match k with
  | KInvites => pb.Invites | KPin => pb.PinAction | KPinned => pb.Pinned | KDraft => pb.Draft
  | KDraftSync => pb.DraftSync | KDrafts => pb.Drafts | KForward => pb.Forward | KSchedule => pb.Schedule
  | KScheduleList => pb.ScheduleList | KScheduleCancel => pb.ScheduleCancel | KScheduled => pb.Scheduled
  | KContactAdd => pb.ContactAdd | KContactRemove => pb.ContactRemove | KContactSync => pb.ContactSync
  | KContactList => pb.ContactList | KBlock => pb.Block | KPollCreate => pb.PollCreate
  | KPollVote => pb.PollVote | KPollClose => pb.PollClose | KPollState => pb.PollState
  | KCallInvite => pb.CallInvite | KCallAction => pb.CallAction | KCallState => pb.CallState
  | KCallSignal => pb.CallSignal | KChatExport => pb.ChatExport | KChatExportResult => pb.ChatExportResult
  end.

Definition talk_toProto (k : TalkKind) : talk_body k → talk_message k :=
  match k with
  | KHello => λ b,
      {| pb.Hello_ClientVersion := wire.HelloBody_ClientVersion b; pb.Hello_DeviceId := wire.HelloBody_DeviceID b;
         pb.Hello_Platform := wire.HelloBody_Platform b; pb.Hello_Caps := u32 (wire.HelloBody_Caps b);
         pb.Hello_ResumeToken := wire.HelloBody_ResumeToken b |}
  | KWelcome => λ b,
      {| pb.Welcome_ServerVersion := wire.WelcomeBody_ServerVersion b;
         pb.Welcome_SessionId := wire.WelcomeBody_SessionID b; pb.Welcome_Caps := u32 (wire.WelcomeBody_Caps b);
         pb.Welcome_HeartbeatMs := i32 (wire.WelcomeBody_HeartbeatMs b);
         pb.Welcome_MaxInflight := i32 (wire.WelcomeBody_MaxInflight b);
         pb.Welcome_ResumeSupported := wire.WelcomeBody_ResumeSupported b |}
  | KAuth => λ b,
      {| pb.Auth_Token := wire.AuthBody_Token b; pb.Auth_Username := wire.AuthBody_Username b;
         pb.Auth_Password := wire.AuthBody_Password b; pb.Auth_Register := wire.AuthBody_Register b;
         pb.Auth_DisplayName := wire.AuthBody_DisplayName b; pb.Auth_TotpCode := wire.AuthBody_TOTPCode b |}
  | KAuthOK => λ b,
      {| pb.AuthOK_UserId := wire.AuthOKBody_UserID b; pb.AuthOK_DeviceId := wire.AuthOKBody_DeviceID b;
         pb.AuthOK_SessionId := wire.AuthOKBody_SessionID b; pb.AuthOK_Token := wire.AuthOKBody_Token b;
         pb.AuthOK_ResumeToken := wire.AuthOKBody_ResumeToken b; pb.AuthOK_Username := wire.AuthOKBody_Username b;
         pb.AuthOK_DisplayName := wire.AuthOKBody_DisplayName b; pb.AuthOK_AvatarRef := wire.AuthOKBody_AvatarRef b |}
  | KSend => λ b,
      {| pb.Send_ChatId := wire.SendBody_ChatID b; pb.Send_DedupKey := wire.SendBody_DedupKey b;
         pb.Send_Text := wire.SendBody_Text b; pb.Send_MediaRef := wire.SendBody_MediaRef b;
         pb.Send_ReplyTo := wire.SendBody_ReplyTo b; pb.Send_Attachment := attachToProto (wire.SendBody_Attachment b);
         pb.Send_TtlSeconds := wire.SendBody_TTLSeconds b |}
  | KSendAck => λ b,
      {| pb.SendAck_DedupKey := wire.SendAckBody_DedupKey b; pb.SendAck_MessageId := wire.SendAckBody_MessageID b;
         pb.SendAck_ChatId := wire.SendAckBody_ChatID b; pb.SendAck_ChatSeq := wire.SendAckBody_ChatSeq b;
         pb.SendAck_Timestamp := wire.SendAckBody_Timestamp b; pb.SendAck_Duplicate := wire.SendAckBody_Duplicate b |}
  | KNewMessage => λ b, newMessageToProto b
  | KRead => λ b,
      {| pb.Read_ChatId := wire.ReadBody_ChatID b; pb.Read_UpToMessageId := wire.ReadBody_UpToMessageID b;
         pb.Read_UpToChatSeq := wire.ReadBody_UpToChatSeq b |}
  | KReadUpdate => λ b,
      {| pb.ReadUpdate_ChatId := wire.ReadUpdateBody_ChatID b; pb.ReadUpdate_UserId := wire.ReadUpdateBody_UserID b;
         pb.ReadUpdate_UpToChatSeq := wire.ReadUpdateBody_UpToChatSeq b |}
  | KTyping => λ b,
      {| pb.Typing_ChatId := wire.TypingBody_ChatID b; pb.Typing_UserId := wire.TypingBody_UserID b;
         pb.Typing_Active := wire.TypingBody_Active b |}
  | KReact => λ b,
      {| pb.React_ChatId := wire.ReactBody_ChatID b; pb.React_MessageId := wire.ReactBody_MessageID b;
         pb.React_Emoji := wire.ReactBody_Emoji b |}
  | KReactUpdate => λ b,
      {| pb.ReactUpdate_ChatId := wire.ReactUpdateBody_ChatID b;
         pb.ReactUpdate_MessageId := wire.ReactUpdateBody_MessageID b;
         pb.ReactUpdate_UserId := wire.ReactUpdateBody_UserID b; pb.ReactUpdate_Emoji := wire.ReactUpdateBody_Emoji b;
         pb.ReactUpdate_Added := wire.ReactUpdateBody_Added b;
         pb.ReactUpdate_Counts := countsToProto (wire.ReactUpdateBody_Counts b) |}
  | KPresence => λ b,
      {| pb.Presence_UserId := wire.PresenceBody_UserID b; pb.Presence_Online := wire.PresenceBody_Online b;
         pb.Presence_LastSeenMs := wire.PresenceBody_LastSeenMs b |}
  | KEdit => λ b,
      {| pb.Edit_ChatId := wire.EditBody_ChatID b; pb.Edit_MessageId := wire.EditBody_MessageID b;
         pb.Edit_Text := wire.EditBody_Text b |}
  | KDelete => λ b,
      {| pb.Delete_ChatId := wire.DeleteBody_ChatID b; pb.Delete_MessageId := wire.DeleteBody_MessageID b;
         pb.Delete_ForAll := wire.DeleteBody_ForAll b |}
  | KThread => λ b,
      {| pb.Thread_ChatId := wire.ThreadBody_ChatID b; pb.Thread_RootId := wire.ThreadBody_RootID b;
         pb.Thread_AfterSeq := wire.ThreadBody_AfterSeq b; pb.Thread_Limit := i32 (wire.ThreadBody_Limit b) |}
  | KThreadOK => λ b,
      {| pb.ThreadOK_ChatId := wire.ThreadOKBody_ChatID b; pb.ThreadOK_RootId := wire.ThreadOKBody_RootID b;
         pb.ThreadOK_NextAfter := wire.ThreadOKBody_NextAfter b; pb.ThreadOK_Done := wire.ThreadOKBody_Done b |}
  | KHistory => λ b,
      {| pb.History_ChatId := wire.HistoryBody_ChatID b; pb.History_BeforeSeq := wire.HistoryBody_BeforeSeq b;
         pb.History_Limit := i32 (wire.HistoryBody_Limit b) |}
  | KHistoryOK => λ b,
      {| pb.HistoryOK_ChatId := wire.HistoryOKBody_ChatID b;
         pb.HistoryOK_NextBefore := wire.HistoryOKBody_NextBefore b; pb.HistoryOK_Done := wire.HistoryOKBody_Done b |}
  | KResume => λ b,
      {| pb.Resume_ResumeToken := wire.ResumeBody_ResumeToken b; pb.Resume_LastAckSeq := wire.ResumeBody_LastAckSeq b |}
  | KResumeOK => λ b,
      {| pb.ResumeOK_SessionId := wire.ResumeOKBody_SessionID b; pb.ResumeOK_FromSeq := wire.ResumeOKBody_FromSeq b;
         pb.ResumeOK_ResumeToken := wire.ResumeOKBody_ResumeToken b |}
  | KError => λ b,
      {| pb.Error_Code := u32 (wire.ErrorBody_Code b); pb.Error_Message := wire.ErrorBody_Message b;
         pb.Error_RetryAfterMs := i32 (wire.ErrorBody_RetryAfterMs b) |}
  | KMediaInit => λ b,
      {| pb.MediaInit_Filename := wire.MediaInitBody_Filename b;
         pb.MediaInit_ContentType := wire.MediaInitBody_ContentType b; pb.MediaInit_Size := wire.MediaInitBody_Size b |}
  | KMediaTicket => λ b,
      {| pb.MediaTicket_MediaRef := wire.MediaTicketBody_MediaRef b;
         pb.MediaTicket_UploadUrl := wire.MediaTicketBody_UploadURL b;
         pb.MediaTicket_ExpiresAt := wire.MediaTicketBody_ExpiresAt b |}
  | KMediaFetch => λ b, {| pb.MediaFetch_MediaRef := wire.MediaFetchBody_MediaRef b |}
  | KMediaURL => λ b,
      {| pb.MediaURL_MediaRef := wire.MediaURLBody_MediaRef b;
         pb.MediaURL_DownloadUrl := wire.MediaURLBody_DownloadURL b;
         pb.MediaURL_ExpiresAt := wire.MediaURLBody_ExpiresAt b |}
  end.

Definition talk_fromProto (k : TalkKind) : talk_message k → talk_body k :=
  match k with
  | KHello => λ m,
      {| wire.HelloBody_ClientVersion := pb.Hello_ClientVersion m; wire.HelloBody_DeviceID := pb.Hello_DeviceId m;
         wire.HelloBody_Platform := pb.Hello_Platform m; wire.HelloBody_Caps := pb.Hello_Caps m;
         wire.HelloBody_ResumeToken := pb.Hello_ResumeToken m |}
  | KWelcome => λ m,
      {| wire.WelcomeBody_ServerVersion := pb.Welcome_ServerVersion m;
         wire.WelcomeBody_SessionID := pb.Welcome_SessionId m; wire.WelcomeBody_Caps := pb.Welcome_Caps m;
         wire.WelcomeBody_HeartbeatMs := pb.Welcome_HeartbeatMs m;
         wire.WelcomeBody_MaxInflight := pb.Welcome_MaxInflight m;
         wire.WelcomeBody_ResumeSupported := pb.Welcome_ResumeSupported m |}
  | KAuth => λ m,
      {| wire.AuthBody_Token := pb.Auth_Token m; wire.AuthBody_Username := pb.Auth_Username m;
         wire.AuthBody_Password := pb.Auth_Password m; wire.AuthBody_Register := pb.Auth_Register m;
         wire.AuthBody_DisplayName := pb.Auth_DisplayName m; wire.AuthBody_TOTPCode := pb.Auth_TotpCode m |}
  | KAuthOK => λ m,
      {| wire.AuthOKBody_UserID := pb.AuthOK_UserId m; wire.AuthOKBody_DeviceID := pb.AuthOK_DeviceId m;
         wire.AuthOKBody_SessionID := pb.AuthOK_SessionId m; wire.AuthOKBody_Token := pb.AuthOK_Token m;
         wire.AuthOKBody_ResumeToken := pb.AuthOK_ResumeToken m; wire.AuthOKBody_Username := pb.AuthOK_Username m;
         wire.AuthOKBody_DisplayName := pb.AuthOK_DisplayName m; wire.AuthOKBody_AvatarRef := pb.AuthOK_AvatarRef m |}
  | KSend => λ m,
      {| wire.SendBody_ChatID := pb.Send_ChatId m; wire.SendBody_DedupKey := pb.Send_DedupKey m;
         wire.SendBody_Text := pb.Send_Text m; wire.SendBody_MediaRef := pb.Send_MediaRef m;
         wire.SendBody_ReplyTo := pb.Send_ReplyTo m; wire.SendBody_TTLSeconds := pb.Send_TtlSeconds m;
         wire.SendBody_Attachment := attachFromProto (pb.Send_Attachment m) |}
  | KSendAck => λ m,
      {| wire.SendAckBody_DedupKey := pb.SendAck_DedupKey m; wire.SendAckBody_MessageID := pb.SendAck_MessageId m;
         wire.SendAckBody_ChatID := pb.SendAck_ChatId m; wire.SendAckBody_ChatSeq := pb.SendAck_ChatSeq m;
         wire.SendAckBody_Timestamp := pb.SendAck_Timestamp m; wire.SendAckBody_Duplicate := pb.SendAck_Duplicate m |}
  | KNewMessage => λ m, newMessageFromProto m
  | KRead => λ m,
      {| wire.ReadBody_ChatID := pb.Read_ChatId m; wire.ReadBody_UpToMessageID := pb.Read_UpToMessageId m;
         wire.ReadBody_UpToChatSeq := pb.Read_UpToChatSeq m |}
  | KReadUpdate => λ m,
      {| wire.ReadUpdateBody_ChatID := pb.ReadUpdate_ChatId m; wire.ReadUpdateBody_UserID := pb.ReadUpdate_UserId m;
         wire.ReadUpdateBody_UpToChatSeq := pb.ReadUpdate_UpToChatSeq m |}
  | KTyping => λ m,
      {| wire.TypingBody_ChatID := pb.Typing_ChatId m; wire.TypingBody_UserID := pb.Typing_UserId m;
         wire.TypingBody_Active := pb.Typing_Active m |}
  | KReact => λ m,
      {| wire.ReactBody_ChatID := pb.React_ChatId m; wire.ReactBody_MessageID := pb.React_MessageId m;
         wire.ReactBody_Emoji := pb.React_Emoji m |}
  | KReactUpdate => λ m,
      {| wire.ReactUpdateBody_ChatID := pb.ReactUpdate_ChatId m;
         wire.ReactUpdateBody_MessageID := pb.ReactUpdate_MessageId m;
         wire.ReactUpdateBody_UserID := pb.ReactUpdate_UserId m; wire.ReactUpdateBody_Emoji := pb.ReactUpdate_Emoji m;
         wire.ReactUpdateBody_Added := pb.ReactUpdate_Added m;
         wire.ReactUpdateBody_Counts := countsFromProto (pb.ReactUpdate_Counts m) |}
  | KPresence => λ m,
      {| wire.PresenceBody_UserID := pb.Presence_UserId m; wire.PresenceBody_Online := pb.Presence_Online m;
         wire.PresenceBody_LastSeenMs := pb.Presence_LastSeenMs m |}
  | KEdit => λ m,
      {| wire.EditBody_ChatID := pb.Edit_ChatId m; wire.EditBody_MessageID := pb.Edit_MessageId m;
         wire.EditBody_Text := pb.Edit_Text m |}
  | KDelete => λ m,
      {| wire.DeleteBody_ChatID := pb.Delete_ChatId m; wire.DeleteBody_MessageID := pb.Delete_MessageId m;
         wire.DeleteBody_ForAll := pb.Delete_ForAll m |}
  | KThread => λ m,
      {| wire.ThreadBody_ChatID := pb.Thread_ChatId m; wire.ThreadBody_RootID := pb.Thread_RootId m;
         wire.ThreadBody_AfterSeq := pb.Thread_AfterSeq m; wire.ThreadBody_Limit := pb.Thread_Limit m |}
  | KThreadOK => λ m,
      {| wire.ThreadOKBody_ChatID := pb.ThreadOK_ChatId m; wire.ThreadOKBody_RootID := pb.ThreadOK_RootId m;
         wire.ThreadOKBody_NextAfter := pb.ThreadOK_NextAfter m; wire.ThreadOKBody_Done := pb.ThreadOK_Done m |}
  | KHistory => λ m,
      {| wire.HistoryBody_ChatID := pb.History_ChatId m; wire.HistoryBody_BeforeSeq := pb.History_BeforeSeq m;
         wire.HistoryBody_Limit := pb.History_Limit m |}
  | KHistoryOK => λ m,
      {| wire.HistoryOKBody_ChatID := pb.HistoryOK_ChatId m;
         wire.HistoryOKBody_NextBefore := pb.HistoryOK_NextBefore m; wire.HistoryOKBody_Done := pb.HistoryOK_Done m |}
  | KResume => λ m,
      {| wire.ResumeBody_ResumeToken := pb.Resume_ResumeToken m; wire.ResumeBody_LastAckSeq := pb.Resume_LastAckSeq m |}
  | KResumeOK => λ m,
      {| wire.ResumeOKBody_SessionID := pb.ResumeOK_SessionId m; wire.ResumeOKBody_FromSeq := pb.ResumeOK_FromSeq m;
         wire.ResumeOKBody_ResumeToken := pb.ResumeOK_ResumeToken m |}
  | KError => λ m,
      {| wire.ErrorBody_Code := pb.Error_Code m; wire.ErrorBody_Message := pb.Error_Message m;
         wire.ErrorBody_RetryAfterMs := pb.Error_RetryAfterMs m |}
  | KMediaInit => λ m,
      {| wire.MediaInitBody_Filename := pb.MediaInit_Filename m;
         wire.MediaInitBody_ContentType := pb.MediaInit_ContentType m; wire.MediaInitBody_Size := pb.MediaInit_Size m |}
  | KMediaTicket => λ m,
      {| wire.MediaTicketBody_MediaRef := pb.MediaTicket_MediaRef m;
         wire.MediaTicketBody_UploadURL := pb.MediaTicket_UploadUrl m;
         wire.MediaTicketBody_ExpiresAt := pb.MediaTicket_ExpiresAt m |}
  | KMediaFetch => λ m, {| wire.MediaFetchBody_MediaRef := pb.MediaFetch_MediaRef m |}
  | KMediaURL => λ m,
      {| wire.MediaURLBody_MediaRef := pb.MediaURL_MediaRef m;
         wire.MediaURLBody_DownloadURL := pb.MediaURL_DownloadUrl m;
         wire.MediaURLBody_ExpiresAt := pb.MediaURL_ExpiresAt m |}
  end.

Definition peer_toProto (k : PeerKind) : peer_body k → peer_message k :=
  match k with
  | KSearch => λ b,
      {| pb.Search_Query := wire.SearchBody_Query b; pb.Search_Limit := i32 (wire.SearchBody_Limit b);
         pb.Search_ChatId := wire.SearchBody_ChatID b; pb.Search_SenderId := wire.SearchBody_SenderID b |}
  | KSearchResults => λ b, searchResultsToProto b
  | KKeyPublish => λ b,
      {| pb.KeyPublish_IdentityKey := wire.KeyPublishBody_IdentityKey b;
         pb.KeyPublish_SigningKey := wire.KeyPublishBody_SigningKey b;
         pb.KeyPublish_SignedPrekey := wire.KeyPublishBody_SignedPreKey b;
         pb.KeyPublish_SignedPrekeySig := wire.KeyPublishBody_SignedPreKeySig b;
         pb.KeyPublish_Prekeys := wire.KeyPublishBody_PreKeys b |}
  | KKeyFetch => λ b,
      {| pb.KeyFetch_UserId := wire.KeyFetchBody_UserID b; pb.KeyFetch_DeviceId := wire.KeyFetchBody_DeviceID b |}
  | KKeyBundle => λ b, keyBundleToProto b
  | KKeyBundles => λ b, keyBundlesToProto b
  | KKeyState => λ b,
      {| pb.KeyState_OneTimePrekeysLeft := i32 (wire.KeyStateBody_OneTimePreKeysLeft b);
         pb.KeyState_SignedPrekeyAgeMs := wire.KeyStateBody_SignedPreKeyAgeMs b;
         pb.KeyState_Accepted := i32 (wire.KeyStateBody_Accepted b) |}
  | KSecretMsg => λ b,
      {| pb.SecretMsg_ToUserId := wire.SecretMsgBody_ToUserID b;
         pb.SecretMsg_ToDeviceId := wire.SecretMsgBody_ToDeviceID b;
         pb.SecretMsg_FromUserId := wire.SecretMsgBody_FromUserID b;
         pb.SecretMsg_FromDeviceId := wire.SecretMsgBody_FromDeviceID b;
         pb.SecretMsg_RatchetHeader := wire.SecretMsgBody_RatchetHeader b;
         pb.SecretMsg_Ciphertext := wire.SecretMsgBody_Ciphertext b;
         pb.SecretMsg_QueueId := wire.SecretMsgBody_QueueID b;
         pb.SecretMsg_RatchetHeaderBin := wire.SecretMsgBody_Header b;
         pb.SecretMsg_CiphertextBin := wire.SecretMsgBody_Cipher b |}
  | KChatFlags => λ b,
      {| pb.ChatFlags_ChatId := wire.ChatFlagsBody_ChatID b;
         pb.ChatFlags_MutedUntil := wire.ChatFlagsBody_MutedUntil b;
         pb.ChatFlags_Pinned := wire.ChatFlagsBody_Pinned b; pb.ChatFlags_Archived := wire.ChatFlagsBody_Archived b |}
  | KChatFlagsSet => λ b,
      {| pb.ChatFlagsSet_ChatId := wire.ChatFlagsSetBody_ChatID b;
         pb.ChatFlagsSet_MutedUntil := wire.ChatFlagsSetBody_MutedUntil b;
         pb.ChatFlagsSet_Pinned := wire.ChatFlagsSetBody_Pinned b;
         pb.ChatFlagsSet_Archived := wire.ChatFlagsSetBody_Archived b |}
  | KSecretAck => λ b,
      {| pb.SecretAck_ToUserId := wire.SecretAckBody_ToUserID b;
         pb.SecretAck_ToDeviceId := wire.SecretAckBody_ToDeviceID b;
         pb.SecretAck_Devices := wire.SecretAckBody_Devices b; pb.SecretAck_Queued := wire.SecretAckBody_Queued b |}
  | KSecretSync => λ b,
      {| pb.SecretSync_After := wire.SecretSyncBody_After b; pb.SecretSync_Limit := wire.SecretSyncBody_Limit b |}
  | KSecretSynced => λ b,
      {| pb.SecretSynced_Count := wire.SecretSyncedBody_Count b;
         pb.SecretSynced_NextAfter := wire.SecretSyncedBody_NextAfter b;
         pb.SecretSynced_Done := wire.SecretSyncedBody_Done b |}
  | KSecretAcked => λ b, {| pb.SecretAcked_Ids := wire.SecretAckedBody_IDs b |}
  | KSetUsername => λ b,
      {| pb.SetUsername_ChatId := wire.SetUsernameBody_ChatID b;
         pb.SetUsername_Username := wire.SetUsernameBody_Username b |}
  | KInviteCreate => λ b,
      {| pb.InviteCreate_ChatId := wire.InviteCreateBody_ChatID b;
         pb.InviteCreate_ExpiresAt := wire.InviteCreateBody_ExpiresAt b;
         pb.InviteCreate_MaxUses := wire.InviteCreateBody_MaxUses b |}
  | KInviteRevoke => λ b,
      {| pb.InviteRevoke_ChatId := wire.InviteRevokeBody_ChatID b;
         pb.InviteRevoke_Code := wire.InviteRevokeBody_Code b |}
  | KInviteList => λ b, {| pb.InviteList_ChatId := wire.InviteListBody_ChatID b |}
  | KJoin => λ b, {| pb.Join_Code := wire.JoinBody_Code b; pb.Join_Handle := wire.JoinBody_Handle b |}
  | KSetRole => λ b,
      {| pb.SetRole_ChatId := wire.SetRoleBody_ChatID b; pb.SetRole_UserId := wire.SetRoleBody_UserID b;
         pb.SetRole_Role := wire.SetRoleBody_Role b |}
  | KPushToken => λ b, {| pb.PushToken_Token := wire.PushTokenBody_Token b |}
  | KChatCreate => λ b,
      {| pb.ChatCreate_Type := wire.ChatCreateBody_Type b; pb.ChatCreate_Title := wire.ChatCreateBody_Title b;
         pb.ChatCreate_Members := wire.ChatCreateBody_Members b |}
  | KChatInfo => λ b,
      {| pb.ChatInfo_ChatId := wire.ChatInfoBody_ChatID b; pb.ChatInfo_Type := wire.ChatInfoBody_Type b;
         pb.ChatInfo_Title := wire.ChatInfoBody_Title b; pb.ChatInfo_OwnerId := wire.ChatInfoBody_OwnerID b |}
  end.

Definition peer_fromProto (k : PeerKind) : peer_message k → peer_body k :=
  match k with
  | KSearch => λ m,
      {| wire.SearchBody_Query := pb.Search_Query m; wire.SearchBody_Limit := pb.Search_Limit m;
         wire.SearchBody_ChatID := pb.Search_ChatId m; wire.SearchBody_SenderID := pb.Search_SenderId m |}
  | KSearchResults => λ m, searchResultsFromProto m
  | KKeyPublish => λ m,
      {| wire.KeyPublishBody_IdentityKey := pb.KeyPublish_IdentityKey m;
         wire.KeyPublishBody_SigningKey := pb.KeyPublish_SigningKey m;
         wire.KeyPublishBody_SignedPreKey := pb.KeyPublish_SignedPrekey m;
         wire.KeyPublishBody_SignedPreKeySig := pb.KeyPublish_SignedPrekeySig m;
         wire.KeyPublishBody_PreKeys := pb.KeyPublish_Prekeys m |}
  | KKeyFetch => λ m,
      {| wire.KeyFetchBody_UserID := pb.KeyFetch_UserId m; wire.KeyFetchBody_DeviceID := pb.KeyFetch_DeviceId m |}
  | KKeyBundle => λ m, keyBundleFromProto m
  | KKeyBundles => λ m, keyBundlesFromProto m
  | KKeyState => λ m,
      {| wire.KeyStateBody_OneTimePreKeysLeft := pb.KeyState_OneTimePrekeysLeft m;
         wire.KeyStateBody_SignedPreKeyAgeMs := pb.KeyState_SignedPrekeyAgeMs m;
         wire.KeyStateBody_Accepted := pb.KeyState_Accepted m |}
  | KSecretMsg => λ m,
      {| wire.SecretMsgBody_ToUserID := pb.SecretMsg_ToUserId m;
         wire.SecretMsgBody_ToDeviceID := pb.SecretMsg_ToDeviceId m;
         wire.SecretMsgBody_FromUserID := pb.SecretMsg_FromUserId m;
         wire.SecretMsgBody_FromDeviceID := pb.SecretMsg_FromDeviceId m;
         wire.SecretMsgBody_RatchetHeader := pb.SecretMsg_RatchetHeader m;
         wire.SecretMsgBody_Ciphertext := pb.SecretMsg_Ciphertext m;
         wire.SecretMsgBody_Header := pb.SecretMsg_RatchetHeaderBin m;
         wire.SecretMsgBody_Cipher := pb.SecretMsg_CiphertextBin m;
         wire.SecretMsgBody_QueueID := pb.SecretMsg_QueueId m |}
  | KChatFlags => λ m,
      {| wire.ChatFlagsBody_ChatID := pb.ChatFlags_ChatId m;
         wire.ChatFlagsBody_MutedUntil := pb.ChatFlags_MutedUntil m;
         wire.ChatFlagsBody_Pinned := pb.ChatFlags_Pinned m; wire.ChatFlagsBody_Archived := pb.ChatFlags_Archived m |}
  | KChatFlagsSet => λ m,
      {| wire.ChatFlagsSetBody_ChatID := pb.ChatFlagsSet_ChatId m;
         wire.ChatFlagsSetBody_MutedUntil := pb.ChatFlagsSet_MutedUntil m;
         wire.ChatFlagsSetBody_Pinned := pb.ChatFlagsSet_Pinned m;
         wire.ChatFlagsSetBody_Archived := pb.ChatFlagsSet_Archived m |}
  | KSecretAck => λ m,
      {| wire.SecretAckBody_ToUserID := pb.SecretAck_ToUserId m;
         wire.SecretAckBody_ToDeviceID := pb.SecretAck_ToDeviceId m;
         wire.SecretAckBody_Devices := pb.SecretAck_Devices m; wire.SecretAckBody_Queued := pb.SecretAck_Queued m |}
  | KSecretSync => λ m,
      {| wire.SecretSyncBody_After := pb.SecretSync_After m; wire.SecretSyncBody_Limit := pb.SecretSync_Limit m |}
  | KSecretSynced => λ m,
      {| wire.SecretSyncedBody_Count := pb.SecretSynced_Count m;
         wire.SecretSyncedBody_NextAfter := pb.SecretSynced_NextAfter m;
         wire.SecretSyncedBody_Done := pb.SecretSynced_Done m |}
  | KSecretAcked => λ m, {| wire.SecretAckedBody_IDs := pb.SecretAcked_Ids m |}
  | KSetUsername => λ m,
      {| wire.SetUsernameBody_ChatID := pb.SetUsername_ChatId m;
         wire.SetUsernameBody_Username := pb.SetUsername_Username m |}
  | KInviteCreate => λ m,
      {| wire.InviteCreateBody_ChatID := pb.InviteCreate_ChatId m;
         wire.InviteCreateBody_ExpiresAt := pb.InviteCreate_ExpiresAt m;
         wire.InviteCreateBody_MaxUses := pb.InviteCreate_MaxUses m |}
  | KInviteRevoke => λ m,
      {| wire.InviteRevokeBody_ChatID := pb.InviteRevoke_ChatId m;
         wire.InviteRevokeBody_Code := pb.InviteRevoke_Code m |}
  | KInviteList => λ m, {| wire.InviteListBody_ChatID := pb.InviteList_ChatId m |}
  | KJoin => λ m, {| wire.JoinBody_Code := pb.Join_Code m; wire.JoinBody_Handle := pb.Join_Handle m |}
  | KSetRole => λ m,
      {| wire.SetRoleBody_ChatID := pb.SetRole_ChatId m; wire.SetRoleBody_UserID := pb.SetRole_UserId m;
         wire.SetRoleBody_Role := pb.SetRole_Role m |}
  | KPushToken => λ m, {| wire.PushTokenBody_Token := pb.PushToken_Token m |}
  | KChatCreate => λ m,
      {| wire.ChatCreateBody_Type := pb.ChatCreate_Type m; wire.ChatCreateBody_Title := pb.ChatCreate_Title m;
         wire.ChatCreateBody_Members := pb.ChatCreate_Members m |}
  | KChatInfo => λ m,
      {| wire.ChatInfoBody_ChatID := pb.ChatInfo_ChatId m; wire.ChatInfoBody_Type := pb.ChatInfo_Type m;
         wire.ChatInfoBody_Title := pb.ChatInfo_Title m; wire.ChatInfoBody_OwnerID := pb.ChatInfo_OwnerId m |}
  end.

Definition account_toProto (k : AccountKind) : account_body k → account_message k :=
  match k with
  | KChatList => λ b,
      {| pb.ChatList_After := wire.ChatListBody_After b; pb.ChatList_Limit := i32 (wire.ChatListBody_Limit b);
         pb.ChatList_AfterActivity := wire.ChatListBody_AfterActivity b;
         pb.ChatList_IncludeArchived := wire.ChatListBody_IncludeArchived b |}
  | KChats => λ b, chatsToProto b
  | KProfileGet => λ b, {| pb.ProfileGet_Target := wire.ProfileGetBody_Target b |}
  | KProfileSet => λ b,
      {| pb.ProfileSet_DisplayName := wire.ProfileSetBody_DisplayName b;
         pb.ProfileSet_AvatarRef := wire.ProfileSetBody_AvatarRef b;
         pb.ProfileSet_ClearAvatar := wire.ProfileSetBody_ClearAvatar b |}
  | KProfile => λ b,
      {| pb.Profile_UserId := wire.ProfileBody_UserID b; pb.Profile_Username := wire.ProfileBody_Username b;
         pb.Profile_DisplayName := wire.ProfileBody_DisplayName b;
         pb.Profile_AvatarRef := wire.ProfileBody_AvatarRef b; pb.Profile_Premium := wire.ProfileBody_Premium b |}
  | KAccountDelete => λ b,
      {| pb.AccountDelete_Password := wire.AccountDeleteBody_Password b;
         pb.AccountDelete_Reason := wire.AccountDeleteBody_Reason b |}
  | KAccountDeleted => λ b,
      {| pb.AccountDeleted_UserId := wire.AccountDeletedBody_UserID b;
         pb.AccountDeleted_DeletedAt := wire.AccountDeletedBody_DeletedAt b |}
  | KBillingPlans => λ b, {| pb.BillingPlans_Country := wire.BillingPlansBody_Country b |}
  | KBillingOffers => λ b, billingOffersToProto b
  | KBillingCheckout => λ b,
      {| pb.BillingCheckout_Plan := wire.BillingCheckoutBody_Plan b;
         pb.BillingCheckout_Method := wire.BillingCheckoutBody_Method b;
         pb.BillingCheckout_IdempotencyKey := wire.BillingCheckoutBody_IdempotencyKey b;
         pb.BillingCheckout_Country := wire.BillingCheckoutBody_Country b;
         pb.BillingCheckout_ReturnUrl := wire.BillingCheckoutBody_ReturnURL b |}
  | KBillingPayment => λ b,
      {| pb.BillingPayment_PaymentId := wire.BillingPaymentBody_PaymentID b;
         pb.BillingPayment_Status := wire.BillingPaymentBody_Status b;
         pb.BillingPayment_AmountMinor := wire.BillingPaymentBody_AmountMinor b;
         pb.BillingPayment_Currency := wire.BillingPaymentBody_Currency b;
         pb.BillingPayment_PayUrl := wire.BillingPaymentBody_PayURL b;
         pb.BillingPayment_QrPayload := wire.BillingPaymentBody_QRPayload b;
         pb.BillingPayment_Deduplicated := wire.BillingPaymentBody_Deduplicated b |}
  | KBillingStatus => λ b, pb.mkBillingStatus
  | KBillingCancel => λ b, pb.mkBillingCancel
  | KSubscription => λ b,
      {| pb.Subscription_Plan := wire.SubscriptionBody_Plan b;
         pb.Subscription_Status := wire.SubscriptionBody_Status b;
         pb.Subscription_PeriodEnd := wire.SubscriptionBody_PeriodEnd b;
         pb.Subscription_CancelAtPeriodEnd := wire.SubscriptionBody_CancelAtPeriodEnd b;
         pb.Subscription_SecretChats := wire.SubscriptionBody_SecretChats b;
         pb.Subscription_MaxUploadBytes := wire.SubscriptionBody_MaxUploadBytes b;
         pb.Subscription_MaxPinnedChats := wire.SubscriptionBody_MaxPinnedChats b;
         pb.Subscription_Folders := wire.SubscriptionBody_Folders b;
         pb.Subscription_AdvancedSearch := wire.SubscriptionBody_AdvancedSearch b;
         pb.Subscription_PriorityDelivery := wire.SubscriptionBody_PriorityDelivery b;
         pb.Subscription_VoiceTranscription := wire.SubscriptionBody_VoiceTranscription b;
         pb.Subscription_Badge := wire.SubscriptionBody_Badge b;
         pb.Subscription_CustomThemes := wire.SubscriptionBody_CustomThemes b |}
  | KPasswordChange => λ b,
      {| pb.PasswordChange_OldPassword := wire.PasswordChangeBody_OldPassword b;
         pb.PasswordChange_NewPassword := wire.PasswordChangeBody_NewPassword b |}
  | KPasswordChanged => λ b, {| pb.PasswordChanged_SessionsRevoked := wire.PasswordChangedBody_SessionsRevoked b |}
  | KTOTPSetup => λ b, pb.mkTOTPSetup
  | KTOTPSetupInfo => λ b,
      {| pb.TOTPSetupInfo_Secret := wire.TOTPSetupInfoBody_Secret b;
         pb.TOTPSetupInfo_Uri := wire.TOTPSetupInfoBody_URI b |}
  | KTOTPConfirm => λ b, {| pb.TOTPConfirm_Code := wire.TOTPConfirmBody_Code b |}
  | KTOTPDisable => λ b,
      {| pb.TOTPDisable_Password := wire.TOTPDisableBody_Password b;
         pb.TOTPDisable_Code := wire.TOTPDisableBody_Code b |}
  | KTOTPState => λ b,
      {| pb.TOTPState_Enabled := wire.TOTPStateBody_Enabled b;
         pb.TOTPState_RecoveryLeft := wire.TOTPStateBody_RecoveryLeft b;
         pb.TOTPState_RecoveryCodes := wire.TOTPStateBody_RecoveryCodes b;
         pb.TOTPState_ConfirmedAtMs := wire.TOTPStateBody_ConfirmedAtMs b |}
  | KPrivacyGet => λ b, pb.mkPrivacyGet
  | KPrivacySet => λ b,
      {| pb.PrivacySet_LastSeen := wire.PrivacySetBody_LastSeen b;
         pb.PrivacySet_Avatar := wire.PrivacySetBody_Avatar b; pb.PrivacySet_Groups := wire.PrivacySetBody_Groups b;
         pb.PrivacySet_PushPreview := wire.PrivacySetBody_PushPreview b |}
  | KPrivacy => λ b,
      {| pb.Privacy_LastSeen := wire.PrivacyBody_LastSeen b; pb.Privacy_Avatar := wire.PrivacyBody_Avatar b;
         pb.Privacy_Groups := wire.PrivacyBody_Groups b; pb.Privacy_PushPreview := wire.PrivacyBody_PushPreview b |}
  | KHistoryPage => λ b, historyPageToProto b
  | KSessionList => λ b, pb.mkSessionList
  | KSessions => λ b, sessionsToProto b
  | KSessionRevoke => λ b,
      {| pb.SessionRevoke_SessionId := wire.SessionRevokeBody_SessionID b;
         pb.SessionRevoke_AllIncludingCurrent := wire.SessionRevokeBody_AllIncludingCurrent b |}
  | KSessionRevoked => λ b,
      {| pb.SessionRevoked_Revoked := i32 (wire.SessionRevokedBody_Revoked b);
         pb.SessionRevoked_Self := wire.SessionRevokedBody_Self b |}
  | KFanoutShard => λ b,
      {| pb.FanoutShard_Body := Some (newMessageToProto (wire.FanoutShardBody_Body b));
         pb.FanoutShard_Members := wire.FanoutShardBody_Members b |}
  end.

Definition account_fromProto (k : AccountKind) : account_message k → account_body k :=
  match k with
  | KChatList => λ m,
      {| wire.ChatListBody_After := pb.ChatList_After m; wire.ChatListBody_Limit := pb.ChatList_Limit m;
         wire.ChatListBody_AfterActivity := pb.ChatList_AfterActivity m;
         wire.ChatListBody_IncludeArchived := pb.ChatList_IncludeArchived m |}
  | KChats => λ m, chatsFromProto m
  | KProfileGet => λ m, {| wire.ProfileGetBody_Target := pb.ProfileGet_Target m |}
  | KProfileSet => λ m,
      {| wire.ProfileSetBody_DisplayName := pb.ProfileSet_DisplayName m;
         wire.ProfileSetBody_AvatarRef := pb.ProfileSet_AvatarRef m;
         wire.ProfileSetBody_ClearAvatar := pb.ProfileSet_ClearAvatar m |}
  | KProfile => λ m,
      {| wire.ProfileBody_UserID := pb.Profile_UserId m; wire.ProfileBody_Username := pb.Profile_Username m;
         wire.ProfileBody_DisplayName := pb.Profile_DisplayName m;
         wire.ProfileBody_AvatarRef := pb.Profile_AvatarRef m; wire.ProfileBody_Premium := pb.Profile_Premium m |}
  | KAccountDelete => λ m,
      {| wire.AccountDeleteBody_Password := pb.AccountDelete_Password m;
         wire.AccountDeleteBody_Reason := pb.AccountDelete_Reason m |}
  | KAccountDeleted => λ m,
      {| wire.AccountDeletedBody_UserID := pb.AccountDeleted_UserId m;
         wire.AccountDeletedBody_DeletedAt := pb.AccountDeleted_DeletedAt m |}
  | KBillingPlans => λ m, {| wire.BillingPlansBody_Country := pb.BillingPlans_Country m |}
  | KBillingOffers => λ m, billingOffersFromProto m
  | KBillingCheckout => λ m,
      {| wire.BillingCheckoutBody_Plan := pb.BillingCheckout_Plan m;
         wire.BillingCheckoutBody_Method := pb.BillingCheckout_Method m;
         wire.BillingCheckoutBody_IdempotencyKey := pb.BillingCheckout_IdempotencyKey m;
         wire.BillingCheckoutBody_Country := pb.BillingCheckout_Country m;
         wire.BillingCheckoutBody_ReturnURL := pb.BillingCheckout_ReturnUrl m |}
  | KBillingPayment => λ m,
      {| wire.BillingPaymentBody_PaymentID := pb.BillingPayment_PaymentId m;
         wire.BillingPaymentBody_Status := pb.BillingPayment_Status m;
         wire.BillingPaymentBody_AmountMinor := pb.BillingPayment_AmountMinor m;
         wire.BillingPaymentBody_Currency := pb.BillingPayment_Currency m;
         wire.BillingPaymentBody_PayURL := pb.BillingPayment_PayUrl m;
         wire.BillingPaymentBody_QRPayload := pb.BillingPayment_QrPayload m;
         wire.BillingPaymentBody_Deduplicated := pb.BillingPayment_Deduplicated m |}
  | KBillingStatus => λ m, wire.mkBillingStatusBody
  | KBillingCancel => λ m, wire.mkBillingCancelBody
  | KSubscription => λ m,
      {| wire.SubscriptionBody_Plan := pb.Subscription_Plan m;
         wire.SubscriptionBody_Status := pb.Subscription_Status m;
         wire.SubscriptionBody_PeriodEnd := pb.Subscription_PeriodEnd m;
         wire.SubscriptionBody_CancelAtPeriodEnd := pb.Subscription_CancelAtPeriodEnd m;
         wire.SubscriptionBody_SecretChats := pb.Subscription_SecretChats m;
         wire.SubscriptionBody_MaxUploadBytes := pb.Subscription_MaxUploadBytes m;
         wire.SubscriptionBody_MaxPinnedChats := pb.Subscription_MaxPinnedChats m;
         wire.SubscriptionBody_Folders := pb.Subscription_Folders m;
         wire.SubscriptionBody_AdvancedSearch := pb.Subscription_AdvancedSearch m;
         wire.SubscriptionBody_PriorityDelivery := pb.Subscription_PriorityDelivery m;
         wire.SubscriptionBody_VoiceTranscription := pb.Subscription_VoiceTranscription m;
         wire.SubscriptionBody_Badge := pb.Subscription_Badge m;
         wire.SubscriptionBody_CustomThemes := pb.Subscription_CustomThemes m |}
  | KPasswordChange => λ m,
      {| wire.PasswordChangeBody_OldPassword := pb.PasswordChange_OldPassword m;
         wire.PasswordChangeBody_NewPassword := pb.PasswordChange_NewPassword m |}
  | KPasswordChanged => λ m, {| wire.PasswordChangedBody_SessionsRevoked := pb.PasswordChanged_SessionsRevoked m |}
  | KTOTPSetup => λ m, wire.mkTOTPSetupBody
  | KTOTPSetupInfo => λ m,
      {| wire.TOTPSetupInfoBody_Secret := pb.TOTPSetupInfo_Secret m;
         wire.TOTPSetupInfoBody_URI := pb.TOTPSetupInfo_Uri m |}
  | KTOTPConfirm => λ m, {| wire.TOTPConfirmBody_Code := pb.TOTPConfirm_Code m |}
  | KTOTPDisable => λ m,
      {| wire.TOTPDisableBody_Password := pb.TOTPDisable_Password m;
         wire.TOTPDisableBody_Code := pb.TOTPDisable_Code m |}
  | KTOTPState => λ m,
      {| wire.TOTPStateBody_Enabled := pb.TOTPState_Enabled m;
         wire.TOTPStateBody_RecoveryLeft := pb.TOTPState_RecoveryLeft m;
         wire.TOTPStateBody_RecoveryCodes := pb.TOTPState_RecoveryCodes m;
         wire.TOTPStateBody_ConfirmedAtMs := pb.TOTPState_ConfirmedAtMs m |}
  | KPrivacyGet => λ m, wire.mkPrivacyGetBody
  | KPrivacySet => λ m,
      {| wire.PrivacySetBody_LastSeen := pb.PrivacySet_LastSeen m;
         wire.PrivacySetBody_Avatar := pb.PrivacySet_Avatar m; wire.PrivacySetBody_Groups := pb.PrivacySet_Groups m;
         wire.PrivacySetBody_PushPreview := pb.PrivacySet_PushPreview m |}
  | KPrivacy => λ m,
      {| wire.PrivacyBody_LastSeen := pb.Privacy_LastSeen m; wire.PrivacyBody_Avatar := pb.Privacy_Avatar m;
         wire.PrivacyBody_Groups := pb.Privacy_Groups m; wire.PrivacyBody_PushPreview := pb.Privacy_PushPreview m |}
  | KHistoryPage => λ m, historyPageFromProto m
  | KSessionList => λ m, wire.mkSessionListBody
  | KSessions => λ m, sessionsFromProto m
  | KSessionRevoke => λ m,
      {| wire.SessionRevokeBody_SessionID := pb.SessionRevoke_SessionId m;
         wire.SessionRevokeBody_AllIncludingCurrent := pb.SessionRevoke_AllIncludingCurrent m |}
  | KSessionRevoked => λ m,
      {| wire.SessionRevokedBody_Revoked := pb.SessionRevoked_Revoked m;
         wire.SessionRevokedBody_Self := pb.SessionRevoked_Self m |}
  | KFanoutShard => λ m,
      {| wire.FanoutShardBody_Body := match pb.FanoutShard_Body m with Some x => newMessageFromProto x | None => zeroNewMessage end;
         wire.FanoutShardBody_Members := pb.FanoutShard_Members m |}
  end.

Definition social_toProto (k : SocialKind) : social_body k → social_message k :=
  match k with
  | KInvites => λ b, invitesToProto b
  | KPin => λ b,
      {| pb.PinAction_ChatId := wire.PinBody_ChatID b; pb.PinAction_MessageId := wire.PinBody_MessageID b |}
  | KPinned => λ b, pinnedToProto b
  | KDraft => λ b,
      {| pb.Draft_ChatId := wire.DraftBody_ChatID b; pb.Draft_Text := wire.DraftBody_Text b;
         pb.Draft_ReplyTo := wire.DraftBody_ReplyTo b |}
  | KDraftSync => λ b, {| pb.DraftSync_Since := wire.DraftSyncBody_Since b |}
  | KDrafts => λ b, draftsToProto b
  | KForward => λ b,
      {| pb.Forward_FromChatId := wire.ForwardBody_FromChatID b; pb.Forward_MessageId := wire.ForwardBody_MessageID b;
         pb.Forward_ToChatId := wire.ForwardBody_ToChatID b; pb.Forward_DedupKey := wire.ForwardBody_DedupKey b |}
  | KSchedule => λ b,
      {| pb.Schedule_ChatId := wire.ScheduleBody_ChatID b; pb.Schedule_Text := wire.ScheduleBody_Text b;
         pb.Schedule_MediaRef := wire.ScheduleBody_MediaRef b;
         pb.Schedule_Attachment := attachToProto (wire.ScheduleBody_Attachment b);
         pb.Schedule_ReplyTo := wire.ScheduleBody_ReplyTo b; pb.Schedule_TtlSeconds := wire.ScheduleBody_TTLSeconds b;
         pb.Schedule_SendAt := wire.ScheduleBody_SendAt b |}
  | KScheduleList => λ b, {| pb.ScheduleList_ChatId := wire.ScheduleListBody_ChatID b |}
  | KScheduleCancel => λ b, {| pb.ScheduleCancel_Id := wire.ScheduleCancelBody_ID b |}
  | KScheduled => λ b, scheduledToProto b
  | KContactAdd => λ b,
      {| pb.ContactAdd_Target := wire.ContactAddBody_Target b; pb.ContactAdd_Name := wire.ContactAddBody_Name b |}
  | KContactRemove => λ b, {| pb.ContactRemove_Target := wire.ContactRemoveBody_Target b |}
  | KContactSync => λ b, {| pb.ContactSync_Since := wire.ContactSyncBody_Since b |}
  | KContactList => λ b, contactListToProto b
  | KBlock => λ b,
      {| pb.Block_Target := wire.BlockBody_Target b; pb.Block_Blocked := wire.BlockBody_Blocked b |}
  | KPollCreate => λ b,
      {| pb.PollCreate_ChatId := wire.PollCreateBody_ChatID b;
         pb.PollCreate_Question := wire.PollCreateBody_Question b;
         pb.PollCreate_Options := wire.PollCreateBody_Options b;
         pb.PollCreate_MultiChoice := wire.PollCreateBody_MultiChoice b;
         pb.PollCreate_Anonymous := wire.PollCreateBody_Anonymous b |}
  | KPollVote => λ b,
      {| pb.PollVote_PollId := wire.PollVoteBody_PollID b; pb.PollVote_Option := wire.PollVoteBody_Option b |}
  | KPollClose => λ b, {| pb.PollClose_PollId := wire.PollCloseBody_PollID b |}
  | KPollState => λ b, pollStateToProto b
  | KCallInvite => λ b,
      {| pb.CallInvite_ChatId := wire.CallInviteBody_ChatID b; pb.CallInvite_Kind := wire.CallInviteBody_Kind b |}
  | KCallAction => λ b, {| pb.CallAction_CallId := wire.CallActionBody_CallID b |}
  | KCallState => λ b, callStateToProto b
  | KCallSignal => λ b,
      {| pb.CallSignal_CallId := wire.CallSignalBody_CallID b;
         pb.CallSignal_ToUserId := wire.CallSignalBody_ToUserID b;
         pb.CallSignal_ToDeviceId := wire.CallSignalBody_ToDeviceID b;
         pb.CallSignal_FromUserId := wire.CallSignalBody_FromUserID b;
         pb.CallSignal_FromDeviceId := wire.CallSignalBody_FromDeviceID b;
         pb.CallSignal_SignalType := wire.CallSignalBody_SignalType b;
         pb.CallSignal_Payload := wire.CallSignalBody_Payload b |}
  | KChatExport => λ b, {| pb.ChatExport_ChatId := wire.ChatExportBody_ChatID b |}
  | KChatExportResult => λ b, chatExportToProto b
  end.

Definition social_fromProto (k : SocialKind) : social_message k → social_body k :=
  match k with
  | KInvites => λ m, invitesFromProto m
  | KPin => λ m,
      {| wire.PinBody_ChatID := pb.PinAction_ChatId m; wire.PinBody_MessageID := pb.PinAction_MessageId m |}
  | KPinned => λ m, pinnedFromProto m
  | KDraft => λ m,
      {| wire.DraftBody_ChatID := pb.Draft_ChatId m; wire.DraftBody_Text := pb.Draft_Text m;
         wire.DraftBody_ReplyTo := pb.Draft_ReplyTo m |}
  | KDraftSync => λ m, {| wire.DraftSyncBody_Since := pb.DraftSync_Since m |}
  | KDrafts => λ m, draftsFromProto m
  | KForward => λ m,
      {| wire.ForwardBody_FromChatID := pb.Forward_FromChatId m; wire.ForwardBody_MessageID := pb.Forward_MessageId m;
         wire.ForwardBody_ToChatID := pb.Forward_ToChatId m; wire.ForwardBody_DedupKey := pb.Forward_DedupKey m |}
  | KSchedule => λ m,
      {| wire.ScheduleBody_ChatID := pb.Schedule_ChatId m; wire.ScheduleBody_Text := pb.Schedule_Text m;
         wire.ScheduleBody_MediaRef := pb.Schedule_MediaRef m;
         wire.ScheduleBody_Attachment := attachFromProto (pb.Schedule_Attachment m);
         wire.ScheduleBody_ReplyTo := pb.Schedule_ReplyTo m; wire.ScheduleBody_TTLSeconds := pb.Schedule_TtlSeconds m;
         wire.ScheduleBody_SendAt := pb.Schedule_SendAt m |}
  | KScheduleList => λ m, {| wire.ScheduleListBody_ChatID := pb.ScheduleList_ChatId m |}
  | KScheduleCancel => λ m, {| wire.ScheduleCancelBody_ID := pb.ScheduleCancel_Id m |}
  | KScheduled => λ m, scheduledFromProto m
  | KContactAdd => λ m,
      {| wire.ContactAddBody_Target := pb.ContactAdd_Target m; wire.ContactAddBody_Name := pb.ContactAdd_Name m |}
  | KContactRemove => λ m, {| wire.ContactRemoveBody_Target := pb.ContactRemove_Target m |}
  | KContactSync => λ m, {| wire.ContactSyncBody_Since := pb.ContactSync_Since m |}
  | KContactList => λ m, contactListFromProto m
  | KBlock => λ m,
      {| wire.BlockBody_Target := pb.Block_Target m; wire.BlockBody_Blocked := pb.Block_Blocked m |}
  | KPollCreate => λ m,
      {| wire.PollCreateBody_ChatID := pb.PollCreate_ChatId m;
         wire.PollCreateBody_Question := pb.PollCreate_Question m;
         wire.PollCreateBody_Options := pb.PollCreate_Options m;
         wire.PollCreateBody_MultiChoice := pb.PollCreate_MultiChoice m;
         wire.PollCreateBody_Anonymous := pb.PollCreate_Anonymous m |}
  | KPollVote => λ m,
      {| wire.PollVoteBody_PollID := pb.PollVote_PollId m; wire.PollVoteBody_Option := pb.PollVote_Option m |}
  | KPollClose => λ m, {| wire.PollCloseBody_PollID := pb.PollClose_PollId m |}
  | KPollState => λ m, pollStateFromProto m
  | KCallInvite => λ m,
      {| wire.CallInviteBody_ChatID := pb.CallInvite_ChatId m; wire.CallInviteBody_Kind := pb.CallInvite_Kind m |}
  | KCallAction => λ m, {| wire.CallActionBody_CallID := pb.CallAction_CallId m |}
  | KCallState => λ m, callStateFromProto m
  | KCallSignal => λ m,
      {| wire.CallSignalBody_CallID := pb.CallSignal_CallId m;
         wire.CallSignalBody_ToUserID := pb.CallSignal_ToUserId m;
         wire.CallSignalBody_ToDeviceID := pb.CallSignal_ToDeviceId m;
         wire.CallSignalBody_FromUserID := pb.CallSignal_FromUserId m;
         wire.CallSignalBody_FromDeviceID := pb.CallSignal_FromDeviceId m;
         wire.CallSignalBody_SignalType := pb.CallSignal_SignalType m;
         wire.CallSignalBody_Payload := pb.CallSignal_Payload m |}
  | KChatExport => λ m, {| wire.ChatExportBody_ChatID := pb.ChatExport_ChatId m |}
  | KChatExportResult => λ m, chatExportFromProto m
  end.

(** The bodies that cross the switch unchanged: a field the code narrows to
    [int32] (or holds in a [uint32]) is within that type's range. *)
Definition in_int32 (z : Z) : Prop := - 2 ^ 31 ≤ z < 2 ^ 31.

Definition talk_fits (k : TalkKind) : talk_body k → Prop :=
  match k with
  | KHello => λ b, 0 ≤ wire.HelloBody_Caps b < 2 ^ 32
  | KWelcome => λ b, 0 ≤ wire.WelcomeBody_Caps b < 2 ^ 32 ∧ in_int32 (wire.WelcomeBody_HeartbeatMs b) ∧ in_int32 (wire.WelcomeBody_MaxInflight b)
  | KReactUpdate => λ b, map_Forall (λ _, in_int32) (wire.ReactUpdateBody_Counts b)
  | KThread => λ b, in_int32 (wire.ThreadBody_Limit b)
  | KHistory => λ b, in_int32 (wire.HistoryBody_Limit b)
  | KError => λ b, 0 ≤ wire.ErrorBody_Code b < 2 ^ 32 ∧ in_int32 (wire.ErrorBody_RetryAfterMs b)
  | _ => λ _, True
  end.

Definition peer_fits (k : PeerKind) : peer_body k → Prop :=
  match k with
  | KSearch => λ b, in_int32 (wire.SearchBody_Limit b)
  | KKeyState => λ b, in_int32 (wire.KeyStateBody_OneTimePreKeysLeft b) ∧ in_int32 (wire.KeyStateBody_Accepted b)
  | _ => λ _, True
  end.

Definition account_fits (k : AccountKind) : account_body k → Prop :=
  match k with
  | KChatList => λ b, in_int32 (wire.ChatListBody_Limit b)
  | KSessionRevoked => λ b, in_int32 (wire.SessionRevokedBody_Revoked b)
  | _ => λ _, True
  end.

Definition social_fits (k : SocialKind) (b : social_body k) : Prop := True.

(** A body type of the switch. *)
Inductive Kind := Talk (k : TalkKind) | Peer (k : PeerKind) | Account (k : AccountKind) | Social (k : SocialKind).

Definition WireBody (k : Kind) : Type :=
  match k with
  | Talk k => talk_body k
  | Peer k => peer_body k
  | Account k => account_body k
  | Social k => social_body k
  end.

Definition PbMessage (k : Kind) : Type :=
  match k with
  | Talk k => talk_message k
  | Peer k => peer_message k
  | Account k => account_message k
  | Social k => social_message k
  end.

Definition bodyToProto (k : Kind) : WireBody k → PbMessage k :=
  match k with
  | Talk k => talk_toProto k
  | Peer k => peer_toProto k
  | Account k => account_toProto k
  | Social k => social_toProto k
  end.

Definition bodyFromProto (k : Kind) : PbMessage k → WireBody k :=
  match k with
  | Talk k => talk_fromProto k
  | Peer k => peer_fromProto k
  | Account k => account_fromProto k
  | Social k => social_fromProto k
  end.

Definition fits (k : Kind) : WireBody k → Prop :=
  match k with
  | Talk k => talk_fits k
  | Peer k => peer_fits k
  | Account k => account_fits k
  | Social k => social_fits k
  end.

(** A Go value of type [any]: a body, a pointer to a value, or something the
    codec has no mapping for (nil pointers included). *)
Inductive Any := Value (k : Kind) (b : WireBody k) | Pointer (v : Any) | Unmapped.

Definition toProto (v : Any) : option { k : Kind & PbMessage k } :=
  match v with
  | Value k b => Some (existT k (bodyToProto k b))
  | _ => None
  end.

(** google.golang.org/protobuf/proto: [Marshal] of a message and [Unmarshal]
    into an empty message of a given type.  Documented: the bytes of a
    marshalled message unmarshal into an equal message. *)
Class ProtoRuntime := {
  proto_Marshal : ∀ k, PbMessage k → result bytes;
  proto_Unmarshal : ∀ k, bytes → result (PbMessage k);
}.
Definition faithful_runtime `{ProtoRuntime} : Prop :=
  ∀ k m bs, proto_Marshal k m = Ok bs → proto_Unmarshal k bs = Ok m.

Section codec.
Context `{ProtoRuntime}.

Definition protoCodec_Marshal (v : Any) : result bytes :=
  let m := match toProto v with
           | None => match v with Pointer w => toProto w | _ => None end
           | Some m => Some m
           end in
  match m with
  | None => Err wire_no_protobuf_mapping
  | Some (existT k m) => proto_Marshal k m
  end.

(** The target is a pointer to a body of some kind, or ([None]) a value the
    switch does not know; the body it holds afterwards is the result. *)
Definition protoCodec_Unmarshal (b : bytes) (target : option Kind) : result { k : Kind & WireBody k } :=
  match target with
  | None => Err wire_no_protobuf_mapping
  | Some k => m ← proto_Unmarshal k b; Ok (existT k (bodyFromProto k m))
  end.

(** [wire.Marshal] of messages.go drops the codec's error. *)
Definition Marshal (v : Any) : bytes :=
  match protoCodec_Marshal v with Ok b => b | Err _ => [] end.
Definition Unmarshal (b : bytes) (target : option Kind) : result { k : Kind & WireBody k } :=
  protoCodec_Unmarshal b target.

End codec.

(** ** Every arm is inverted by its twin *)

Lemma fmap_inverse {A B} (f : A → B) (g : B → A) (l : list A) :
  (∀ x, g (f x) = x) → g <$> (f <$> l) = l.
Proof. intros Hgf. induction l as [|x l IH]; cbn; [done|]. by rewrite Hgf; f_equal. Qed.
Lemma option_inverse {A B} (f : A → B) (g : B → A) (o : option A) :
  (∀ x, g (f x) = x) → g <$> (f <$> o) = o.
Proof. intros Hgf. destruct o; cbn; [by rewrite Hgf|done]. Qed.

Arguments countsToProto : simpl never.
Arguments countsFromProto : simpl never.

Lemma counts_twin m : map_Forall (λ _, in_int32) m → countsFromProto (countsToProto m) = m.
Proof.
  intros Hm. apply map_eq. intros k. unfold countsFromProto, countsToProto. rewrite lookup_fmap.
  destruct (m !! k) as [v|] eqn:E; cbn; [|done]. f_equal. apply i32_small, (Hm k v E).
Qed.
Lemma attach_twin a : attachFromProto (attachToProto a) = a.
Proof. by apply option_inverse; intros []. Qed.
Lemma fwd_twin f : fwdFromProto (fwdToProto f) = f.
Proof. by apply option_inverse; intros []. Qed.
Lemma newMessage_twin b : newMessageFromProto (newMessageToProto b) = b.
Proof. destruct b. unfold newMessageFromProto. cbn. by rewrite attach_twin, fwd_twin. Qed.
Lemma keyBundle_twin b : keyBundleFromProto (keyBundleToProto b) = b.
Proof. by destruct b. Qed.
Lemma chatSummary_message_twin (o : option wire.NewMessageBody) : newMessageFromProto <$> (newMessageToProto <$> o) = o.
Proof. apply option_inverse, newMessage_twin. Qed.

Create Rewrite HintDb twins.
#[export] Hint Rewrite attach_twin fwd_twin newMessage_twin keyBundle_twin chatSummary_message_twin : twins.

(** Destruct the record, then undo each list conversion element by element. *)
Ltac twin :=
  intros []; cbn; f_equal;
  try (apply fmap_inverse; first [apply newMessage_twin | apply keyBundle_twin | intros []; cbn]);
  autorewrite with twins; try reflexivity.

Lemma searchResults_twin b : searchResultsFromProto (searchResultsToProto b) = b.
Proof. revert b. unfold searchResultsFromProto. twin. Qed.
Lemma keyBundles_twin b : keyBundlesFromProto (keyBundlesToProto b) = b.
Proof. revert b. unfold keyBundlesFromProto. twin. Qed.
Lemma chatExport_twin b : chatExportFromProto (chatExportToProto b) = b.
Proof. revert b. unfold chatExportFromProto. twin. Qed.
Lemma callState_twin b : callStateFromProto (callStateToProto b) = b.
Proof. revert b. unfold callStateFromProto. twin. Qed.
Lemma pollState_twin b : pollStateFromProto (pollStateToProto b) = b.
Proof. revert b. unfold pollStateFromProto. twin. Qed.
Lemma contactList_twin b : contactListFromProto (contactListToProto b) = b.
Proof. revert b. unfold contactListFromProto. twin. Qed.
Lemma scheduled_twin b : scheduledFromProto (scheduledToProto b) = b.
Proof. revert b. unfold scheduledFromProto. twin. Qed.
Lemma pinned_twin b : pinnedFromProto (pinnedToProto b) = b.
Proof. revert b. unfold pinnedFromProto. twin. Qed.
Lemma drafts_twin b : draftsFromProto (draftsToProto b) = b.
Proof. revert b. unfold draftsFromProto. twin. Qed.
Lemma chats_twin b : chatsFromProto (chatsToProto b) = b.
Proof. revert b. unfold chatsFromProto. twin. Qed.
Lemma invites_twin b : invitesFromProto (invitesToProto b) = b.
Proof. revert b. unfold invitesFromProto. twin. Qed.
Lemma sessions_twin b : sessionsFromProto (sessionsToProto b) = b.
Proof. revert b. unfold sessionsFromProto. twin. Qed.
Lemma historyPage_twin b : historyPageFromProto (historyPageToProto b) = b.
Proof. revert b. unfold historyPageFromProto. twin. Qed.
Lemma billingOffers_twin b : billingOffersFromProto (billingOffersToProto b) = b.
Proof. revert b. unfold billingOffersFromProto. twin. Qed.

#[export] Hint Rewrite searchResults_twin keyBundles_twin chatExport_twin callState_twin pollState_twin
  contactList_twin scheduled_twin pinned_twin drafts_twin chats_twin invites_twin sessions_twin
  historyPage_twin billingOffers_twin : twins.

(** One arm: either a composite whose twin is known, or a record copied field
    by field with its narrowings undone. *)
Ltac arm :=
  intros b Hfit; cbn in b, Hfit |- *; autorewrite with twins; try reflexivity;
  destruct b; cbn in *; autorewrite with twins;
  rewrite ?u32_small, ?i32_small by (unfold in_int32 in *; lia);
  rewrite ?counts_twin by assumption; reflexivity.

Lemma talk_twin k : ∀ b, talk_fits k b → talk_fromProto k (talk_toProto k b) = b.
Proof. destruct k; arm. Qed.
Lemma peer_twin k : ∀ b, peer_fits k b → peer_fromProto k (peer_toProto k b) = b.
Proof. destruct k; arm. Qed.
Lemma account_twin k : ∀ b, account_fits k b → account_fromProto k (account_toProto k b) = b.
Proof. destruct k; arm. Qed.
Lemma social_twin k : ∀ b, social_fits k b → social_fromProto k (social_toProto k b) = b.
Proof. destruct k; arm. Qed.

Lemma body_twin k b : fits k b → bodyFromProto k (bodyToProto k b) = b.
Proof. destruct k; [apply talk_twin|apply peer_twin|apply account_twin|apply social_twin]. Qed.

(** C35: over a runtime whose bytes read back as the message they were made
    from, every one of the 105 body types survives the codec: what [Marshal]
    wrote for a body (given by value or by pointer) [Unmarshal] reads back as
    that same body, provided its narrowed integers fit 32 bits. *)
Theorem codec_roundtrip `{ProtoRuntime} k (b : WireBody k) bs :
  faithful_runtime → fits k b →
  protoCodec_Marshal (Value k b) = Ok bs →
  protoCodec_Marshal (Pointer (Value k b)) = Ok bs ∧ Unmarshal bs (Some k) = Ok (existT k b).
Proof.
  intros Hrt Hfit Hm. split; [exact Hm|]. unfold Unmarshal, protoCodec_Unmarshal.
  cbn in Hm. rewrite (Hrt _ _ _ Hm). cbn. by rewrite body_twin.
Qed.

(** A runtime that knows one message, the push token: its bytes are the token. *)
Definition token_runtime : ProtoRuntime := {|
  proto_Marshal := λ k, match k with
                        | Peer KPushToken => λ m, Ok (sbytes (pb.PushToken_Token m))
                        | _ => λ _, Err codec_error
                        end;
  proto_Unmarshal := λ k bs, match k with
                             | Peer KPushToken => Ok (pb.mkPushToken (bstring bs))
                             | _ => Err codec_error
                             end;
|}.
Lemma token_runtime_faithful : @faithful_runtime token_runtime.
Proof.
  intros k m bs. destruct k as [k|k|k|k]; [done| |done|done].
  destruct k; try discriminate. intros [= <-]. destruct m as [t].
  change (Ok (pb.mkPushToken (bstring (sbytes t))) = Ok (pb.mkPushToken t)). by rewrite bstring_sbytes.
Qed.
Lemma codec_roundtrip_witness :
  protoCodec_Marshal (H := token_runtime) (Pointer (Value (Peer KPushToken) (wire.mkPushTokenBody "apns:42")))
    = Ok (sbytes "apns:42")
  ∧ Unmarshal (H := token_runtime) (sbytes "apns:42") (Some (Peer KPushToken))
    = Ok (existT (Peer KPushToken) (wire.mkPushTokenBody "apns:42")).
Proof.
  apply (codec_roundtrip (H := token_runtime) (Peer KPushToken) (wire.mkPushTokenBody "apns:42"));
    [exact token_runtime_faithful|exact I|reflexivity].
Defined.
