(* ===== verification/Base64.v ===== *)
(** * Base64

    [encoding/base64]: the padded standard encoding the wire format uses, and the raw
    standard and URL encodings of [internal/auth], with their round trips. *)

From Stdlib Require Import Strings.Byte.
From S2P Require Import Prelude Bytes.

(** ** base64.StdEncoding *)

Definition b64_char (v : Z) : byte :=
  byteZ (if v <? 26 then 65 + v
         else if v <? 52 then 97 + (v - 26)
         else if v <? 62 then 48 + (v - 52)
         else if v =? 62 then 43 else 47).

Definition b64_val (c : byte) : option Z :=
  let z := Zbyte c in
  if (65 <=? z) && (z <=? 90) then Some (z - 65)
  else if (97 <=? z) && (z <=? 122) then Some (z - 97 + 26)
  else if (48 <=? z) && (z <=? 57) then Some (z - 48 + 52)
  else if z =? 43 then Some 62
  else if z =? 47 then Some 63 else None.

Definition b64_pad : byte := byteZ 61.

(** Three bytes as four six-bit groups, and back. *)
Definition b64_split (a b c : Z) : Z * Z * Z * Z :=
  let v := a * 2 ^ 16 + b * 2 ^ 8 + c in
  (v / 2 ^ 18, v / 2 ^ 12 mod 64, v / 2 ^ 6 mod 64, v mod 64).
Definition b64_join (d0 d1 d2 d3 : Z) : Z * Z * Z :=
  let v := d0 * 2 ^ 18 + d1 * 2 ^ 12 + d2 * 2 ^ 6 + d3 in
  (v / 2 ^ 16 mod 256, v / 2 ^ 8 mod 256, v mod 256).

Fixpoint b64_EncodeToString (src : bytes) : bytes :=
  match src with
  | [] => []
  | [a] =>
      let '(d0, d1, _, _) := b64_split (Zbyte a) 0 0 in
      [b64_char d0; b64_char d1; b64_pad; b64_pad]
  | [a; b] =>
      let '(d0, d1, d2, _) := b64_split (Zbyte a) (Zbyte b) 0 in
      [b64_char d0; b64_char d1; b64_char d2; b64_pad]
  | a :: b :: c :: rest =>
      let '(d0, d1, d2, d3) := b64_split (Zbyte a) (Zbyte b) (Zbyte c) in
      b64_char d0 :: b64_char d1 :: b64_char d2 :: b64_char d3 :: b64_EncodeToString rest
  end.

(** One padded quantum of four characters at a time; after padding nothing may
    follow.  Trailing bits of a padded quantum are ignored (non-strict mode). *)
Fixpoint b64_decode (src : bytes) : option bytes :=
  match src with
  | [] => Some []
  | c0 :: c1 :: c2 :: c3 :: rest =>
      match b64_val c0, b64_val c1 with
      | Some d0, Some d1 =>
          if bool_decide (c2 = b64_pad) then
            if bool_decide (c3 = b64_pad) && bool_decide (rest = []) then
              let '(a, _, _) := b64_join d0 d1 0 0 in Some [byteZ a]
            else None
          else
            match b64_val c2 with
            | None => None
            | Some d2 =>
                if bool_decide (c3 = b64_pad) then
                  if bool_decide (rest = []) then
                    let '(a, b, _) := b64_join d0 d1 d2 0 in Some [byteZ a; byteZ b]
                  else None
                else
                  match b64_val c3 with
                  | None => None
                  | Some d3 =>
                      let '(a, b, c) := b64_join d0 d1 d2 d3 in
                      r ← b64_decode rest; Some (byteZ a :: byteZ b :: byteZ c :: r)
                  end
            end
      | _, _ => None
      end
  | _ => None
  end.

(** Carriage returns and newlines are skipped wherever they stand. *)
Definition not_newline (c : byte) : Prop := c ≠ byteZ 10 ∧ c ≠ byteZ 13.
#[global] Instance not_newline_dec c : Decision (not_newline c).
Proof. unfold not_newline. apply _. Defined.

Definition b64_DecodeString (s : bytes) : option bytes := b64_decode (filter not_newline s).

(** ** The raw encodings

    [base64.RawStdEncoding] and [base64.RawURLEncoding]: no padding, so that a last
    quantum of two or three characters stands for one or two bytes. *)

Definition url_char (v : Z) : byte :=
  if v =? 62 then byteZ 45 else if v =? 63 then byteZ 95 else b64_char v.

Fixpoint raw_encode (char : Z → byte) (src : bytes) : bytes :=
  match src with
  | [] => []
  | [a] =>
      let '(d0, d1, _, _) := b64_split (Zbyte a) 0 0 in [char d0; char d1]
  | [a; b] =>
      let '(d0, d1, d2, _) := b64_split (Zbyte a) (Zbyte b) 0 in [char d0; char d1; char d2]
  | a :: b :: c :: rest =>
      let '(d0, d1, d2, d3) := b64_split (Zbyte a) (Zbyte b) (Zbyte c) in
      char d0 :: char d1 :: char d2 :: char d3 :: raw_encode char rest
  end.

Definition RawStd_EncodeToString (src : bytes) : string := bstring (raw_encode b64_char src).
Definition RawURL_EncodeToString (src : bytes) : string := bstring (raw_encode url_char src).

Fixpoint raw_decode (src : bytes) : option bytes :=
  match src with
  | [] => Some []
  | [_] => None
  | [c0; c1] =>
      d0 ← b64_val c0; d1 ← b64_val c1;
      let '(a, _, _) := b64_join d0 d1 0 0 in Some [byteZ a]
  | [c0; c1; c2] =>
      d0 ← b64_val c0; d1 ← b64_val c1; d2 ← b64_val c2;
      let '(a, b, _) := b64_join d0 d1 d2 0 in Some [byteZ a; byteZ b]
  | c0 :: c1 :: c2 :: c3 :: rest =>
      d0 ← b64_val c0; d1 ← b64_val c1; d2 ← b64_val c2; d3 ← b64_val c3;
      let '(a, b, c) := b64_join d0 d1 d2 d3 in
      r ← raw_decode rest; Some (byteZ a :: byteZ b :: byteZ c :: r)
  end.

Definition RawStd_DecodeString (s : string) : option bytes :=
  raw_decode (filter not_newline (sbytes s)).

(** ** Lemmas *)

Lemma b64_char_spec v : 0 ≤ v < 64 →
  b64_val (b64_char v) = Some v ∧ b64_char v ≠ b64_pad ∧ not_newline (b64_char v).
Proof.
  apply (seqZ_forall (λ v, b64_val (b64_char v) = Some v ∧ b64_char v ≠ b64_pad ∧
                           not_newline (b64_char v)) 0 64).
  by vm_compute.
Qed.

Lemma b64_split_range a b c : 0 ≤ a < 256 → 0 ≤ b < 256 → 0 ≤ c < 256 →
  let '(d0, d1, d2, d3) := b64_split a b c in
  0 ≤ d0 < 64 ∧ 0 ≤ d1 < 64 ∧ 0 ≤ d2 < 64 ∧ 0 ≤ d3 < 64.
Proof.
  intros. unfold b64_split. split_and!; try apply Z.mod_pos_bound; try lia.
  - apply Z.div_pos; lia.
  - apply Z.div_lt_upper_bound; lia.
Qed.

Lemma b64_join_split a b c : 0 ≤ a < 256 → 0 ≤ b < 256 → 0 ≤ c < 256 →
  let '(d0, d1, d2, d3) := b64_split a b c in b64_join d0 d1 d2 d3 = (a, b, c).
Proof.
  intros. unfold b64_split, b64_join.
  set (v := a * 2 ^ 16 + b * 2 ^ 8 + c).
  assert (v / 2 ^ 18 * 2 ^ 18 + v / 2 ^ 12 mod 64 * 2 ^ 12 + v / 2 ^ 6 mod 64 * 2 ^ 6 + v mod 64 = v)
    as ->.
  { assert (v / 2 ^ 12 = v / 2 ^ 6 / 64) as -> by (by rewrite Z.div_div).
    assert (v / 2 ^ 18 = v / 2 ^ 6 / 64 / 64) as -> by (by rewrite !Z.div_div).
    change (2 ^ 6) with 64. pose proof (Z.div_mod v 64). pose proof (Z.div_mod (v / 64) 64).
    pose proof (Z.div_mod (v / 64 / 64) 64). lia. }
  assert (v / 2 ^ 16 = a) as -> by (symmetry; apply (Z.div_unique_pos _ _ _ (b * 256 + c)); lia).
  assert (v / 2 ^ 8 = a * 256 + b) as -> by (symmetry; apply (Z.div_unique_pos _ _ _ c); lia).
  assert (v mod 256 = c) as -> by (symmetry; apply (Z.mod_unique_pos _ _ (a * 256 + b)); lia).
  rewrite (Z.mod_small a) by lia. f_equal. f_equal.
  symmetry. apply (Z.mod_unique_pos _ _ a); lia.
Qed.

(** Induction by quanta of three bytes. *)
Lemma bytes_ind3 (P : bytes → Prop) :
  P [] → (∀ a, P [a]) → (∀ a b, P [a; b]) →
  (∀ a b c l, P l → P (a :: b :: c :: l)) → ∀ l, P l.
Proof.
  intros H0 H1 H2 H3. fix IH 1.
  intros [|a [|b [|c l]]]; [done | apply H1 | apply H2 | apply H3, IH].
Qed.

(** Missing bytes leave zero groups, which is what the padded quantum decodes. *)
Lemma b64_split_pad a b :
  let '(_, _, _, d3) := b64_split a b 0 in
  let '(_, _, e2, e3) := b64_split a 0 0 in d3 = 0 ∧ e2 = 0 ∧ e3 = 0.
Proof.
  unfold b64_split. split_and!; symmetry.
  - apply (Z.mod_unique_pos _ _ (a * 2 ^ 10 + b * 4)); lia.
  - apply (Z.mod_unique_pos _ _ (a * 2 ^ 4)); [lia|].
    symmetry. apply Z.div_unique_exact; lia.
  - apply (Z.mod_unique_pos _ _ (a * 2 ^ 10)); lia.
Qed.

(** The groups of a quantum, their characters, and the bytes they join to. *)
Lemma b64_quantum a b c : 0 ≤ a < 256 → 0 ≤ b < 256 → 0 ≤ c < 256 →
  ∃ d0 d1 d2 d3, b64_split a b c = (d0, d1, d2, d3) ∧ b64_join d0 d1 d2 d3 = (a, b, c) ∧
    ∀ d, d ∈ [d0; d1; d2; d3] → b64_val (b64_char d) = Some d ∧ b64_char d ≠ b64_pad ∧
      not_newline (b64_char d).
Proof.
  intros Ha Hb Hc. pose proof (b64_split_range a b c Ha Hb Hc) as Hr.
  pose proof (b64_join_split a b c Ha Hb Hc) as Hj.
  destruct (b64_split a b c) as [[[d0 d1] d2] d3]. exists d0, d1, d2, d3.
  split_and!; [done|done|]. intros d Hd. apply b64_char_spec.
  rewrite !elem_of_cons, elem_of_nil in Hd. destruct Hr as (? & ? & ? & ?).
  by destruct Hd as [->|[->|[->|[->|[]]]]].
Qed.

Ltac quantum a b c :=
  let Hs := fresh "Hs" in let Hj := fresh "Hj" in let Hd := fresh "Hd" in
  destruct (b64_quantum a b c) as (d0 & d1 & d2 & d3 & Hs & Hj & Hd);
  [by auto with syncapp lia..|];
  destruct (Hd d0) as (Hv0 & _ & Hn0); [by repeat constructor|];
  destruct (Hd d1) as (Hv1 & _ & Hn1); [by repeat constructor|];
  destruct (Hd d2) as (Hv2 & Hp2 & Hn2); [by repeat constructor|];
  destruct (Hd d3) as (Hv3 & Hp3 & Hn3); [by repeat constructor|]; rewrite ?Hs.

Lemma b64_decode_encode src :
  b64_decode (b64_EncodeToString src) = Some src ∧ Forall not_newline (b64_EncodeToString src).
Proof.
  assert (not_newline b64_pad) by by vm_compute.
  induction src as [|a|a b|a b c l [IH IHn]] using bytes_ind3; cbn [b64_EncodeToString]; [done|..].
  - quantum (Zbyte a) 0 0. pose proof (b64_split_pad (Zbyte a) 0) as Hp.
    rewrite Hs in Hp. destruct Hp as (_ & -> & ->).
    split; [|by rewrite !Forall_cons, ?Forall_nil]. cbn [b64_decode].
    rewrite Hv0, Hv1, !bool_decide_true by done. cbn [andb]. rewrite Hj. by rewrite byteZ_Zbyte.
  - quantum (Zbyte a) (Zbyte b) 0. pose proof (b64_split_pad (Zbyte a) (Zbyte b)) as Hp.
    rewrite Hs in Hp. destruct (b64_split (Zbyte a) 0 0) as [[[? ?] ?] ?].
    destruct Hp as (-> & _). split; [|by rewrite !Forall_cons, ?Forall_nil]. cbn [b64_decode].
    rewrite Hv0, Hv1, bool_decide_false, Hv2, !bool_decide_true by done. rewrite Hj.
    by rewrite !byteZ_Zbyte.
  - quantum (Zbyte a) (Zbyte b) (Zbyte c). split; [|by rewrite !Forall_cons, ?Forall_nil].
    cbn [b64_decode]. rewrite Hv0, Hv1, bool_decide_false, Hv2 by done.
    rewrite bool_decide_false, Hv3, Hj, IH by done. simpl. by rewrite !byteZ_Zbyte.
Qed.

Lemma b64_roundtrip src : b64_DecodeString (b64_EncodeToString src) = Some src.
Proof.
  unfold b64_DecodeString. destruct (b64_decode_encode src) as [Hd Hn].
  by rewrite filter_Forall.
Qed.

Lemma b64_EncodeToString_nil src : b64_EncodeToString src = [] → src = [].
Proof. intros He. pose proof (b64_decode_encode src) as [Hd _]. rewrite He in Hd. by injection Hd. Qed.

(** The raw form round-trips, and its characters are base64 digits. *)
Lemma raw_decode_encode src :
  raw_decode (raw_encode b64_char src) = Some src ∧
  Forall (λ c, is_Some (b64_val c) ∧ not_newline c) (raw_encode b64_char src).
Proof.
  induction src as [|a|a b|a b c l [IH IHn]] using bytes_ind3; cbn [raw_encode]; [done|..].
  - quantum (Zbyte a) 0 0. pose proof (b64_split_pad (Zbyte a) 0) as Hp.
    rewrite Hs in Hp. destruct Hp as (_ & -> & ->).
    split; [|by rewrite !Forall_cons, Forall_nil, Hv0, Hv1; eauto 10]. cbn [raw_decode].
    rewrite Hv0, Hv1. cbn [mbind option_bind]. rewrite Hj. by rewrite byteZ_Zbyte.
  - quantum (Zbyte a) (Zbyte b) 0. pose proof (b64_split_pad (Zbyte a) (Zbyte b)) as Hp.
    rewrite Hs in Hp. destruct (b64_split (Zbyte a) 0 0) as [[[? ?] ?] ?].
    destruct Hp as (-> & _). split; [|by rewrite !Forall_cons, Forall_nil, Hv0, Hv1, Hv2; eauto 10].
    cbn [raw_decode]. rewrite Hv0, Hv1, Hv2. cbn [mbind option_bind]. rewrite Hj. by rewrite !byteZ_Zbyte.
  - quantum (Zbyte a) (Zbyte b) (Zbyte c).
    split; [|by rewrite !Forall_cons, Hv0, Hv1, Hv2, Hv3; eauto 10].
    cbn [raw_decode]. rewrite Hv0, Hv1, Hv2, Hv3. cbn [mbind option_bind]. rewrite Hj, IH. cbn [mbind option_bind]. by rewrite !byteZ_Zbyte.
Qed.

Lemma RawStd_roundtrip src : RawStd_DecodeString (RawStd_EncodeToString src) = Some src.
Proof.
  unfold RawStd_DecodeString, RawStd_EncodeToString. rewrite sbytes_bstring.
  destruct (raw_decode_encode src) as [Hd Hn]. rewrite filter_Forall; [done|].
  eapply Forall_impl; [exact Hn|]. by intros c [_ ?].
Qed.
