(* ===== verification/SecretPayload.v ===== *)
(** * Secret payloads

    [pkg/wire] secretpayload.go: the two encodings of a secret message's ratchet
    header and ciphertext, text or raw. *)

From Stdlib Require Import Strings.Byte.
From S2P Require Import Prelude Bytes Base64.

(** ** The message body

    [SecretMsgBody]; Go strings are byte strings. *)

Record SecretMsgBody := mkSecret {
  ToUserID : string;
  ToDeviceID : string;
  FromUserID : string;
  FromDeviceID : string;
  RatchetHeader : bytes;
  Ciphertext : bytes;
  Header : bytes;
  Cipher : bytes;
  QueueID : string;
}.

(** [SecretPayload]: [None] is [ok = false]. *)
Definition SecretPayload (b : SecretMsgBody) : option (bytes * bytes) :=
  if (0 <? len (Header b)) || (0 <? len (Cipher b)) then Some (Header b, Cipher b)
  else if bool_decide (RatchetHeader b = []) && bool_decide (Ciphertext b = []) then None
  else
    match b64_DecodeString (Ciphertext b) with
    | None => None
    | Some c => Some (RatchetHeader b, c)
    end.

Definition SetSecretPayloadBinary (b : SecretMsgBody) (header cipher : bytes) : SecretMsgBody :=
  mkSecret (ToUserID b) (ToDeviceID b) (FromUserID b) (FromDeviceID b) [] [] header cipher (QueueID b).

Definition SetSecretPayloadLegacy (b : SecretMsgBody) (header cipher : bytes) : SecretMsgBody :=
  mkSecret (ToUserID b) (ToDeviceID b) (FromUserID b) (FromDeviceID b)
    header (b64_EncodeToString cipher) [] [] (QueueID b).

Definition CapSecretQueue : Z := Z.shiftl 1 6.

Definition SetSecretPayloadFor (b : SecretMsgBody) (caps : Z) (header cipher : bytes)
    : SecretMsgBody :=
  if negb (Z.land caps CapSecretQueue =? 0)
  then SetSecretPayloadBinary b header cipher
  else SetSecretPayloadLegacy b header cipher.

(** ** Properties *)

(** Re-encoding a secret message for a peer loses nothing: whichever form the
    peer's capabilities select (raw bytes, or text header and base64 ciphertext),
    [SecretPayload] reads back exactly the header and ciphertext that were set,
    and only one of the two forms is populated. *)
Theorem SecretPayload_SetSecretPayloadFor b caps header cipher :
  (header, cipher) ≠ ([], []) →
  let b' := SetSecretPayloadFor b caps header cipher in
  SecretPayload b' = Some (header, cipher) ∧
  ((RatchetHeader b' = [] ∧ Ciphertext b' = []) ∨ (Header b' = [] ∧ Cipher b' = [])).
Proof.
  intros Hne. unfold SetSecretPayloadFor.
  destruct (negb (Z.land caps CapSecretQueue =? 0)); simpl; (split; [|auto]).
  - unfold SecretPayload; simpl. destruct header as [|h hs]; [|done].
    destruct cipher as [|c cs]; [done|]. done.
  - unfold SecretPayload; simpl. rewrite b64_roundtrip.
    destruct (decide (header = [])) as [->|]; [|by rewrite (bool_decide_false (header = []))].
    rewrite (bool_decide_false (b64_EncodeToString cipher = [])); [by rewrite andb_false_r|].
    intros ->%b64_EncodeToString_nil. done.
Qed.

Lemma SecretPayload_SetSecretPayloadFor_witness :
  let b := mkSecret "1" "2" "3" "4" [] [] [Byte.x00] [] "" in
  let b' := SetSecretPayloadFor b 0 [Byte.x7b; Byte.x7d] [Byte.xff; Byte.x00] in
  Ciphertext b' = [Byte.x2f; Byte.x77; Byte.x41; Byte.x3d] ∧
  SecretPayload b' = Some ([Byte.x7b; Byte.x7d], [Byte.xff; Byte.x00]) ∧
  ((RatchetHeader b' = [] ∧ Ciphertext b' = []) ∨ (Header b' = [] ∧ Cipher b' = [])).
Proof.
  split; [by vm_compute|].
  apply (SecretPayload_SetSecretPayloadFor
           (mkSecret "1" "2" "3" "4" [] [] [Byte.x00] [] "") 0 [Byte.x7b; Byte.x7d]); done.
Defined.
