(* ===== verification/NodeCodec.v ===== *)
(** * Node deliveries

    [internal/router] codec.go: the binary envelope that carries every delivered
    message between gateway nodes, its bounds-checked reader with a latched error,
    and the dispatch to the legacy JSON form.  [encoding/json] is a parameter. *)

From Stdlib Require Import Strings.Byte.
From S2P Require Import Prelude Bytes.

Record NodeDelivery := mkNodeDelivery {
  Users : list string;
  DeviceID : string;
  DType : Z;
  DBody : bytes;
}.

Definition nodeDeliveryV1 : byte := Byte.x01.

(** ** Encoding *)

Definition appendLenPrefixed (b : bytes) (s : string) : bytes :=
  b ++ be_put 2 (u16 (len (sbytes s))) ++ sbytes s.

Definition Encode (n : NodeDelivery) : bytes :=
  let b := [nodeDeliveryV1] in
  let b := b ++ be_put 2 (DType n) in
  let b := appendLenPrefixed b (DeviceID n) in
  let b := b ++ be_put 2 (u16 (len (Users n))) in
  let b := foldl appendLenPrefixed b (Users n) in
  let b := b ++ be_put 4 (u32 (len (DBody n))) in
  b ++ DBody n.

(** ** The reader *)

Record reader := mkReader { rb : bytes; ri : Z; rerr : bool }.

Definition remaining (r : reader) : Z :=
  if rerr r || (len (rb r) <? ri r) then 0 else len (rb r) - ri r.

Definition latch (r : reader) : reader := mkReader (rb r) (ri r) true.

Definition advance (r : reader) (n : Z) : reader := mkReader (rb r) (ri r + n) (rerr r).

Definition uint16 (r : reader) : reader * Z :=
  if remaining r <? 2 then (latch r, 0)
  else (advance r 2, be_get (ztake 2 (zdrop (ri r) (rb r)))).

Definition uint32 (r : reader) : reader * Z :=
  if remaining r <? 4 then (latch r, 0)
  else (advance r 4, be_get (ztake 4 (zdrop (ri r) (rb r)))).

Definition str (r : reader) : reader * string :=
  let '(r, n) := uint16 r in
  if rerr r || (remaining r <? n) then (latch r, "")
  else (advance r n, bstring (ztake n (zdrop (ri r) (rb r)))).

(** [for i := range n.Users { n.Users[i] = r.str() }]. *)
Fixpoint strs (count : nat) (r : reader) : reader * list string :=
  match count with
  | O => (r, [])
  | S count' =>
      let '(r, u) := str r in
      let '(r, us) := strs count' r in
      (r, u :: us)
  end.

Section decode.
(** [json.Unmarshal] into the legacy struct: user, device, type, body. *)
Context (legacyJSON : bytes → result (string * string * Z * bytes)).

Definition decodeLegacyJSON (b : bytes) : result NodeDelivery :=
  '(u, d, t, body) ← legacyJSON b;
  Ok (mkNodeDelivery (if bool_decide (u = "") then [] else [u]) d t body).

Definition decodeBinary (b : bytes) : result NodeDelivery :=
  let r := mkReader b 1 false in
  let '(r, ty) := uint16 r in
  let '(r, dev) := str r in
  let '(r, count) := uint16 r in
  if (0 <? count) && (remaining r <? count * 2) then Err router_errBadNodeDelivery
  else
    let '(r, users) := if 0 <? count then strs (Z.to_nat count) r else (r, []) in
    let '(r, bodyLen) := uint32 r in
    if rerr r || (remaining r <? bodyLen) then Err router_errBadNodeDelivery
    else Ok (mkNodeDelivery users dev ty (ztake bodyLen (zdrop (ri r) (rb r)))).

Definition DecodeNodeDelivery (b : bytes) : result NodeDelivery :=
  match b with
  | [] => Err router_errBadNodeDelivery
  | b0 :: _ =>
      if bool_decide (b0 = byteZ 0x7b) then decodeLegacyJSON b
      else if negb (bool_decide (b0 = nodeDeliveryV1)) then Err router_errBadNodeDelivery
      else decodeBinary b
  end.
End decode.

(** The sizes the length prefixes can express. *)
Definition delivery_ok (n : NodeDelivery) : Prop :=
  0 ≤ DType n < 2 ^ 16 ∧ len (sbytes (DeviceID n)) < 2 ^ 16 ∧
  len (Users n) < 2 ^ 16 ∧ Forall (λ u, len (sbytes u) < 2 ^ 16) (Users n) ∧
  len (DBody n) < 2 ^ 32.

(** ** Lemmas *)

(** A healthy reader about to read [s]. *)
Definition reads (r : reader) (s : bytes) : Prop :=
  rerr r = false ∧ 0 ≤ ri r ≤ len (rb r) ∧ zdrop (ri r) (rb r) = s.

Lemma remaining_reads r s : reads r s → remaining r = len s.
Proof.
  intros (He & Hi & <-). unfold remaining. rewrite He, (proj2 (Z.ltb_ge _ _)) by lia.
  simpl. rewrite len_zdrop; lia.
Qed.

Lemma advance_reads r k s : reads r (k ++ s) → reads (advance r (len k)) s.
Proof.
  intros (He & Hi & Hd). pose proof (len_nonneg k). pose proof (len_nonneg s).
  assert (len (rb r) - ri r = len k + len s) as Hl.
  { rewrite <- len_zdrop, Hd, len_app by lia. done. }
  unfold reads, advance; simpl. split_and!; [done | lia | lia |].
  unfold zdrop in *. rewrite Z2Nat.inj_add by lia. rewrite <- drop_drop, Hd.
  unfold len. by rewrite Nat2Z.id, drop_app_length.
Qed.

Lemma uint16_reads r v s :
  0 ≤ v < 2 ^ 16 → reads r (be_put 2 v ++ s) →
  uint16 r = (advance r 2, v) ∧ reads (advance r 2) s.
Proof.
  intros Hv Hr. pose proof (len_nonneg s).
  split; [|by apply (advance_reads r (be_put 2 v))].
  unfold uint16. rewrite (remaining_reads r _ Hr), len_app, len_be_put.
  rewrite (proj2 (Z.ltb_ge _ _)) by lia. destruct Hr as (_ & _ & ->).
  rewrite (ztake_app_len (be_put 2 v)), be_get_put.
  by rewrite Z.mod_small.
Qed.

Lemma uint32_reads r v s :
  0 ≤ v < 2 ^ 32 → reads r (be_put 4 v ++ s) →
  uint32 r = (advance r 4, v) ∧ reads (advance r 4) s.
Proof.
  intros Hv Hr. pose proof (len_nonneg s).
  split; [|by apply (advance_reads r (be_put 4 v))].
  unfold uint32. rewrite (remaining_reads r _ Hr), len_app, len_be_put.
  rewrite (proj2 (Z.ltb_ge _ _)) by lia. destruct Hr as (_ & _ & ->).
  rewrite (ztake_app_len (be_put 4 v)), be_get_put.
  by rewrite Z.mod_small.
Qed.

(** One length-prefixed string. *)
Definition field (u : string) : bytes := be_put 2 (len (sbytes u)) ++ sbytes u.

Lemma str_reads r u s :
  len (sbytes u) < 2 ^ 16 → reads r (field u ++ s) →
  ∃ r', str r = (r', u) ∧ reads r' s.
Proof.
  intros Hu Hr. unfold field in Hr. rewrite <- app_assoc in Hr.
  pose proof (len_nonneg (sbytes u)). pose proof (len_nonneg s).
  apply uint16_reads in Hr as [He Hr]; [|lia]. unfold str. rewrite He.
  rewrite (remaining_reads _ _ Hr), len_app, (proj1 Hr).
  rewrite (proj2 (Z.ltb_ge _ _)) by lia. simpl orb. cbn match.
  eexists. split; [|by apply advance_reads].
  destruct Hr as (_ & _ & ->). by rewrite ztake_app_len, bstring_sbytes.
Qed.

Lemma strs_reads us r s :
  Forall (λ u, len (sbytes u) < 2 ^ 16) us → reads r (concat (field <$> us) ++ s) →
  ∃ r', strs (length us) r = (r', us) ∧ reads r' s.
Proof.
  intros Hus. revert r. induction Hus as [|u us Hu _ IH]; intros r; simpl.
  { eauto. }
  rewrite <- app_assoc. intros Hr. apply str_reads in Hr as (r1 & -> & Hr); [|done].
  apply IH in Hr as (r2 & -> & Hr). eauto.
Qed.

(** The error latches: once set, every later read fails too. *)
Lemma uint16_latched r : rerr r = true → rerr (uint16 r).1 = true.
Proof. intros He. unfold uint16, remaining. by rewrite He. Qed.
Lemma uint32_latched r : rerr r = true → rerr (uint32 r).1 = true.
Proof. intros He. unfold uint32, remaining. by rewrite He. Qed.
Lemma str_latched r : rerr r = true → rerr (str r).1 = true.
Proof.
  intros He%uint16_latched. unfold str. destruct (uint16 r) as [r1 n]; simpl in *.
  by rewrite He.
Qed.
Lemma strs_latched k r : rerr r = true → rerr (strs k r).1 = true.
Proof.
  revert r. induction k as [|k IH]; intros r He; [done|]. simpl.
  apply str_latched in He. destruct (str r) as [r1 u]; simpl in He.
  apply IH in He. by destruct (strs k r1).
Qed.

Lemma healthy_before {A} (f : reader → reader * A) r :
  (rerr r = true → rerr (f r).1 = true) → rerr (f r).1 = false → rerr r = false.
Proof. destruct (rerr r); [|done]. intros H. by rewrite H. Qed.

(** A read that leaves the reader healthy consumed exactly the bytes of its value. *)
Lemma be_get_split k (s : bytes) :
  Z.of_nat k ≤ len s → 
  s = be_put k (be_get (ztake (Z.of_nat k) s)) ++ zdrop (Z.of_nat k) s.
Proof.
  intros Hk. assert (length (ztake (Z.of_nat k) s) = k) as Hl.
  { unfold ztake, len in *. rewrite length_take. lia. }
  pose proof (be_put_get (ztake (Z.of_nat k) s)) as Hp. rewrite Hl in Hp.
  by rewrite Hp, ztake_zdrop.
Qed.

Lemma uint16_inv r s :
  reads r s → rerr (uint16 r).1 = false →
  ∃ v s', s = be_put 2 v ++ s' ∧ 0 ≤ v < 2 ^ 16.
Proof.
  intros Hr. unfold uint16. rewrite (remaining_reads _ _ Hr).
  destruct (len s <? 2) eqn:E; [done|]. bool_to_prop. intros _.
  eexists _, _. split; [by apply (be_get_split 2)|].
  pose proof (be_get_range (ztake (Z.of_nat 2) s)) as Hg.
  rewrite len_ztake in Hg by lia. done.
Qed.

Lemma uint32_inv r s :
  reads r s → rerr (uint32 r).1 = false →
  ∃ v s', s = be_put 4 v ++ s' ∧ 0 ≤ v < 2 ^ 32.
Proof.
  intros Hr. unfold uint32. rewrite (remaining_reads _ _ Hr).
  destruct (len s <? 4) eqn:E; [done|]. bool_to_prop. intros _.
  eexists _, _. split; [by apply (be_get_split 4)|].
  pose proof (be_get_range (ztake (Z.of_nat 4) s)) as Hg.
  rewrite len_ztake in Hg by lia. done.
Qed.

Lemma str_inv r s :
  reads r s → rerr (str r).1 = false →
  ∃ u s', s = field u ++ s' ∧ len (sbytes u) < 2 ^ 16.
Proof.
  intros Hr Hs. destruct (rerr (uint16 r).1) eqn:E1.
  { unfold str in Hs. destruct (uint16 r); simpl in E1. by rewrite E1 in Hs. }
  destruct (uint16_inv r s Hr E1) as (v & s1 & -> & Hv).
  destruct (uint16_reads r v s1 Hv Hr) as [He Hr1].
  unfold str in Hs. rewrite He, (proj1 Hr1), (remaining_reads _ _ Hr1) in Hs.
  destruct (len s1 <? v) eqn:E; [done|]. bool_to_prop.
  exists (bstring (ztake v s1)), (zdrop v s1). unfold field.
  rewrite sbytes_bstring, len_ztake, <- app_assoc, ztake_zdrop by lia. split; [done | lia].
Qed.

Lemma strs_inv k r s :
  reads r s → rerr (strs k r).1 = false →
  ∃ us s', s = concat (field <$> us) ++ s' ∧ length us = k ∧
           Forall (λ u, len (sbytes u) < 2 ^ 16) us.
Proof.
  revert r s. induction k as [|k IH]; intros r s Hr Hs; [by exists [], s|].
  destruct (rerr (str r).1) eqn:E1.
  { simpl in Hs. destruct (str r) as [r1 u]; simpl in E1.
    apply (strs_latched k) in E1. destruct (strs k r1); simpl in *. congruence. }
  destruct (str_inv r s Hr E1) as (u & s1 & -> & Hu).
  destruct (str_reads r u s1 Hu Hr) as (r1 & He & Hr1).
  simpl in Hs. rewrite He in Hs.
  destruct (IH r1 s1 Hr1) as (us & s' & -> & <- & Hus).
  { by destruct (strs k r1). }
  exists (u :: us), s'. rewrite fmap_cons. cbn [concat]. rewrite <- app_assoc.
  split_and!; [done | done | by constructor].
Qed.

Lemma Encode_eq n : delivery_ok n →
  Encode n = nodeDeliveryV1 :: be_put 2 (DType n) ++ field (DeviceID n) ++
    be_put 2 (len (Users n)) ++ concat (field <$> Users n) ++
    be_put 4 (len (DBody n)) ++ DBody n.
Proof.
  intros (Ht & Hd & Hl & Hu & Hb). unfold Encode, appendLenPrefixed, field.
  pose proof (len_nonneg (sbytes (DeviceID n))). pose proof (len_nonneg (Users n)).
  pose proof (len_nonneg (DBody n)). rewrite !u16_small, u32_small by lia.
  assert (∀ b, foldl (λ b u, b ++ be_put 2 (u16 (len (sbytes u))) ++ sbytes u) b (Users n) =
    b ++ concat ((λ u, be_put 2 (len (sbytes u)) ++ sbytes u) <$> Users n)) as ->.
  { clear -Hu. induction Hu as [|u us Hu _ IH]; intros b; simpl; [by rewrite app_nil_r|].
    pose proof (len_nonneg (sbytes u)). rewrite u16_small by lia.
    by rewrite IH, <- !app_assoc. }
  by rewrite <- !app_assoc.
Qed.

Lemma concat_field_len us : 2 * len us ≤ len (concat (field <$> us)).
Proof.
  induction us as [|u us IH]; [done|]. rewrite fmap_cons, len_cons.
  cbn [concat]. unfold field at 1.
  rewrite !len_app, len_be_put. pose proof (len_nonneg (sbytes u)). lia.
Qed.

Lemma node_decode_encode json n rest :
  delivery_ok n → DecodeNodeDelivery json (Encode n ++ rest) = Ok n.
Proof.
  intros Hok. rewrite Encode_eq by done. destruct Hok as (Ht & Hd & Hl & Hu & Hb).
  destruct n as [us dev ty body]; cbn [Users DeviceID DType DBody] in *.
  pose proof (len_nonneg us). pose proof (len_nonneg body). pose proof (len_nonneg rest).
  unfold DecodeNodeDelivery, decodeBinary. cbn [app].
  set (tail := (be_put 2 ty ++ _) ++ rest).
  assert (reads (mkReader (nodeDeliveryV1 :: tail) 1 false) tail) as Hr.
  { split_and!; simpl; [done | done | | done]. rewrite len_cons.
    pose proof (len_nonneg tail). lia. }
  subst tail. rewrite <- !app_assoc in Hr. rewrite <- !app_assoc.
  apply uint16_reads in Hr as [-> Hr]; [|done]. cbn match.
  apply str_reads in Hr as (r2 & -> & Hr); [|done].
  apply uint16_reads in Hr as [-> Hr]; [|lia].
  rewrite (remaining_reads _ _ Hr), !len_app, len_be_put.
  pose proof (concat_field_len us).
  rewrite (proj2 (Z.ltb_ge _ (len us * 2))) by lia. rewrite andb_false_r. cbn [negb].
  assert (∃ r', (if 0 <? len us then strs (Z.to_nat (len us)) (advance r2 2)
                 else (advance r2 2, [])) = (r', us) ∧
                reads r' (be_put 4 (len body) ++ body ++ rest)) as (r3 & -> & Hr3).
  { destruct (0 <? len us) eqn:E; bool_to_prop.
    - unfold len. rewrite Nat2Z.id. by apply strs_reads.
    - destruct us as [|u us]; [by eauto|]. rewrite len_cons in *.
      pose proof (len_nonneg us). lia. }
  apply uint32_reads in Hr3 as [-> Hr3]; [|lia].
  rewrite (remaining_reads _ _ Hr3), (proj1 Hr3), len_app.
  rewrite (proj2 (Z.ltb_ge _ _)) by lia. destruct Hr3 as (_ & _ & ->).
  by rewrite ztake_app_len.
Qed.

(** ** Properties *)

(** Node deliveries round-trip: for every delivery whose sizes fit the length
    prefixes, decoding its encoding (with any trailing bytes) gives it back. *)
Theorem DecodeNodeDelivery_Encode json n rest :
  delivery_ok n → DecodeNodeDelivery json (Encode n ++ rest) = Ok n.
Proof. apply node_decode_encode. Qed.

(** Nothing but an encoding is accepted: a payload decoded by the binary format is
    the canonical encoding of the result, possibly followed by bytes that are
    ignored, and the result fits the length prefixes. *)
Theorem decodeBinary_sound tail n :
  decodeBinary (nodeDeliveryV1 :: tail) = Ok n →
  delivery_ok n ∧ ∃ rest, nodeDeliveryV1 :: tail = Encode n ++ rest.
Proof.
  unfold decodeBinary. set (r0 := mkReader _ 1 false).
  assert (reads r0 tail) as Hr.
  { split_and!; simpl; [done | done | | done]. rewrite len_cons.
    pose proof (len_nonneg tail). lia. }
  clearbody r0.
  destruct (uint16 r0) as [r1 ty] eqn:R1, (str r1) as [r2 dev] eqn:R2,
    (uint16 r2) as [r3 count] eqn:R3.
  case_match; [done|]. destruct (if 0 <? count then _ else _) as [r4 us] eqn:R4.
  destruct (uint32 r4) as [r5 bl] eqn:R5. destruct (rerr r5 || _) eqn:HE; [done|]. intros [= <-]. bool_to_prop.
  assert (rerr r4 = false) as E4 by (eapply healthy_before; [apply uint32_latched|by rewrite R5]).
  assert (rerr r3 = false) as E3.
  { destruct (0 <? count); [|congruence].
    eapply healthy_before; [apply (strs_latched (Z.to_nat count))|by rewrite R4]. }
  assert (rerr r2 = false) as E2 by (eapply healthy_before; [apply uint16_latched|by rewrite R3]).
  assert (rerr r1 = false) as E1 by (eapply healthy_before; [apply str_latched|by rewrite R2]).
  destruct (uint16_inv r0 tail Hr) as (v & s1 & -> & Hv); [by rewrite R1|].
  destruct (uint16_reads r0 v s1 Hv Hr) as [R Hr1]. rewrite R in R1. injection R1 as <- <-.
  destruct (str_inv _ _ Hr1) as (u & s2 & -> & Hu); [by rewrite R2|].
  destruct (str_reads _ u s2 Hu Hr1) as (? & Rs & Hr2). rewrite Rs in R2. injection R2 as -> ->.
  destruct (uint16_inv _ _ Hr2) as (c & s3 & -> & Hc); [by rewrite R3|].
  destruct (uint16_reads _ c s3 Hc Hr2) as [R' Hr3]. rewrite R' in R3. injection R3 as <- <-.
  assert (∃ s4, s3 = concat (field <$> us) ++ s4 ∧ reads r4 s4 ∧ len us = c ∧
    Forall (λ u, len (sbytes u) < 2 ^ 16) us) as (s4 & -> & Hr4 & Hlen & Hus).
  { destruct (0 <? c) eqn:Ec; bool_to_prop.
    - destruct (strs_inv (Z.to_nat c) _ _ Hr3) as (us' & s4 & -> & Hl & Hus); [by rewrite R4|].
      destruct (strs_reads _ _ s4 Hus Hr3) as (? & R4' & Hr4).
      rewrite <- Hl, R4' in R4. injection R4 as -> ->. exists s4.
      unfold len. rewrite Hl. split_and!; [done | done | lia | done].
    - injection R4 as <- <-. exists s3. split_and!; [done | done | | done].
      unfold len; simpl; lia. }
  destruct (uint32_inv _ _ Hr4) as (w & s5 & -> & Hw); [by rewrite R5|].
  destruct (uint32_reads _ w s5 Hw Hr4) as [R5' Hr5]. rewrite R5' in R5. injection R5 as <- <-.
  rewrite (remaining_reads _ _ Hr5) in *. destruct Hr5 as (_ & _ & ->).
  assert (delivery_ok (mkNodeDelivery us dev v (ztake w s5))) as Hok.
  { unfold delivery_ok. cbn [Users DeviceID DType DBody]. rewrite len_ztake by lia.
    split_and!; lia || done. }
  split; [done|]. exists (zdrop w s5). rewrite Encode_eq by done.
  cbn [Users DeviceID DType DBody]. rewrite len_ztake, Hlen by lia.
  cbn [app]. rewrite <- !app_assoc. do 6 f_equal. by rewrite ztake_zdrop.
Qed.

(** ** Witnesses *)

Definition sample_delivery : NodeDelivery :=
  mkNodeDelivery ["alice"; "bob"] "phone" 13 [Byte.x0a; Byte.x00; Byte.xff].

Lemma DecodeNodeDelivery_Encode_witness :
  delivery_ok sample_delivery ∧
  DecodeNodeDelivery (λ _, Err codec_error) (Encode sample_delivery ++ [Byte.x07])
  = Ok sample_delivery.
Proof.
  assert (delivery_ok sample_delivery) as Hok.
  { split_and!; [done | done | done | done | by repeat constructor | done]. }
  split; [done|]. by apply DecodeNodeDelivery_Encode.
Defined.

Lemma decodeBinary_sound_witness :
  delivery_ok sample_delivery ∧
  ∃ rest, Encode sample_delivery ++ [Byte.x07] = Encode sample_delivery ++ rest.
Proof.
  apply (decodeBinary_sound (tail (Encode sample_delivery ++ [Byte.x07])) sample_delivery).
  by vm_compute.
Defined.
