(* ===== verification/Router.v ===== *)
(** * The delivery registry

    [internal/router] router.go: the in-memory [Router], which counts for every user
    (and every device of a user) how many live connections each gateway node holds.
    The counters are proved to represent the list of live connections. *)

From S2P Require Import Prelude.

(** [map[string]map[string]int]: key, node, reference count. *)
Abbreviation index := (gmap string (gmap string Z)).

Record memoryRouter := mkRouter { users : index; devices : index }.

Definition DeliverSubject (nodeID : string) : string := "deliver." +:+ nodeID.

Definition NewMemory : memoryRouter := mkRouter ∅ ∅.

Definition deviceKey (userID deviceID : string) : string := userID +:+ "|" +:+ deviceID.

(** [if index[key] == nil { index[key] = make(...) }; index[key][nodeID]++]. *)
Definition incRef (ix : index) (key nodeID : string) : index :=
  let nodes := default ∅ (ix !! key) in
  <[key := <[nodeID := default 0 (nodes !! nodeID) + 1]> nodes]> ix.

Definition decRef (ix : index) (key nodeID : string) : index :=
  match ix !! key with
  | None => ix
  | Some nodes =>
      let c := default 0 (nodes !! nodeID) in
      let nodes :=
        if 0 <? c then
          let nodes := <[nodeID := c - 1]> nodes in
          if c - 1 =? 0 then delete nodeID nodes else nodes
        else nodes in
      if maplen nodes =? 0 then delete key ix else <[key := nodes]> ix
  end.

Definition Bind (m : memoryRouter) (userID deviceID nodeID : string) : memoryRouter :=
  let us := incRef (users m) userID nodeID in
  if bool_decide (deviceID = "") then mkRouter us (devices m)
  else mkRouter us (incRef (devices m) (deviceKey userID deviceID) nodeID).

Definition Unbind (m : memoryRouter) (userID deviceID nodeID : string) : memoryRouter :=
  let us := decRef (users m) userID nodeID in
  if negb (bool_decide (deviceID = ""))
  then mkRouter us (decRef (devices m) (deviceKey userID deviceID) nodeID)
  else mkRouter us (devices m).

Section queries.
Context `{RangeOrder}.

Definition NodesFor (m : memoryRouter) (userID : string) : list string :=
  range_keys (default ∅ (users m !! userID)).

Definition NodesForMany (m : memoryRouter) (userIDs : list string)
    : gmap string (list string) :=
  foldl (λ out uid,
    let nodes := default ∅ (users m !! uid) in
    if maplen nodes =? 0 then out else <[uid := range_keys nodes]> out) ∅ userIDs.

Definition NodesForDevice (m : memoryRouter) (userID deviceID : string) : list string :=
  if bool_decide (deviceID = "") then NodesFor m userID
  else range_keys (default ∅ (devices m !! deviceKey userID deviceID)).
End queries.

(** The in-memory registry has no expiry to extend. *)
Definition Refresh (m : memoryRouter) (userID deviceID : string) : memoryRouter := m.

(** ** Live connections: what the registry is meant to know *)

Record conn := mkConn { cuser : string; cdevice : string; cnode : string }.

#[global] Instance conn_eq_dec : EqDecision conn.
Proof. solve_decision. Defined.

(** The registries a gateway fleet can produce, with the connections then open: a
    connection is bound when it opens and unbound, once, when it closes. *)
Inductive reachable : memoryRouter → list conn → Prop :=
  | reach_new : reachable NewMemory []
  | reach_bind m live u d n :
      reachable m live → reachable (Bind m u d n) (mkConn u d n :: live)
  | reach_unbind m live live' u d n :
      reachable m live → live ≡ₚ mkConn u d n :: live' →
      reachable (Unbind m u d n) live'
  | reach_refresh m live u d :
      reachable m live → reachable (Refresh m u d) live.

(** ** Counters *)

Definition refs (ix : index) (k n : string) : Z :=
  default 0 (nodes ← ix !! k; nodes !! n).

Definition index_wf (ix : index) : Prop :=
  ∀ k nodes, ix !! k = Some nodes →
    nodes ≠ ∅ ∧ ∀ n c, nodes !! n = Some c → 0 < c.

(** The counters are the multiplicities of a list of (key, node) references. *)
Definition counts (ix : index) (l : list (string * string)) : Prop :=
  index_wf ix ∧ ∀ k n, refs ix k n = len (filter (.= (k, n)) l).

Lemma incRef_refs ix key node k n :
  refs (incRef ix key node) k n =
  refs ix k n + (if bool_decide ((key, node) = (k, n)) then 1 else 0).
Proof.
  unfold refs, incRef. destruct (decide (key = k)) as [->|Hk].
  - rewrite lookup_insert_eq. simpl. destruct (decide (node = n)) as [->|Hn].
    + rewrite lookup_insert_eq, bool_decide_true by done. simpl.
      by destruct (ix !! k).
    + rewrite lookup_insert_ne, bool_decide_false by congruence.
      rewrite Z.add_0_r. by destruct (ix !! k).
  - rewrite lookup_insert_ne, bool_decide_false by congruence. lia.
Qed.

Lemma incRef_wf ix key node : index_wf ix → index_wf (incRef ix key node).
Proof.
  intros Hwf k nodes. unfold incRef. destruct (decide (key = k)) as [->|Hk].
  - rewrite lookup_insert_eq. intros [= <-]. split; [apply insert_non_empty|].
    assert (∀ n c, default ∅ (ix !! k) !! n = Some c → 0 < c) as Hpos.
    { intros n c. destruct (ix !! k) as [ns|] eqn:E; simpl; [by apply Hwf in E as [_ E]; apply E|].
      by rewrite lookup_empty. }
    intros n c [[-> <-]|[_ Hc]]%lookup_insert_Some; [|by eapply Hpos].
    destruct (default ∅ (ix !! k) !! n) as [c'|] eqn:E; simpl; [|lia].
    apply Hpos in E. lia.
  - rewrite lookup_insert_ne by done. apply Hwf.
Qed.

Lemma decRef_refs ix key node k n :
  index_wf ix → 0 < refs ix key node →
  refs (decRef ix key node) k n =
  refs ix k n - (if bool_decide ((key, node) = (k, n)) then 1 else 0).
Proof.
  intros Hwf. unfold refs, decRef. destruct (ix !! key) as [nodes|] eqn:E; simpl; [|lia].
  intros Hc. rewrite (proj2 (Z.ltb_lt _ _)) by done.
  set (nodes' := if _ - 1 =? 0 then _ else _).
  assert (∀ m, default 0 (nodes' !! m) =
    default 0 (nodes !! m) - if bool_decide (node = m) then 1 else 0) as Hn.
  { intros m. unfold nodes'. destruct (decide (node = m)) as [->|Hm].
    - rewrite bool_decide_true by done. destruct (_ =? 0) eqn:E0; bool_to_prop.
      + rewrite lookup_delete_eq. simpl. lia.
      + by rewrite lookup_insert_eq.
    - rewrite bool_decide_false by done.
      case_match; by rewrite ?lookup_delete_ne, ?lookup_insert_ne, Z.sub_0_r. }
  clearbody nodes'. destruct (decide (key = k)) as [->|Hk].
  - rewrite E. simpl. replace (bool_decide ((k, node) = (k, n))) with (bool_decide (node = n))
      by (apply bool_decide_ext; naive_solver).
    rewrite <- Hn. destruct (maplen nodes' =? 0) eqn:E0; bool_to_prop.
    + assert (nodes' = ∅) as -> by (apply map_size_empty_inv; unfold maplen in E0; lia).
      by rewrite lookup_delete_eq, lookup_empty.
    + by rewrite lookup_insert_eq.
  - rewrite bool_decide_false by congruence.
    case_match; by rewrite ?lookup_delete_ne, ?lookup_insert_ne, Z.sub_0_r.
Qed.

Lemma decRef_wf ix key node : index_wf ix → index_wf (decRef ix key node).
Proof.
  intros Hwf k nodes. unfold decRef. destruct (ix !! key) as [ns|] eqn:E; [|apply Hwf].
  apply Hwf in E as [Hne Hpos]. set (ns' := if 0 <? _ then _ else _).
  assert (∀ n c, ns' !! n = Some c → 0 < c) as Hpos'.
  { intros n c. unfold ns'. destruct (0 <? _) eqn:E0; [|apply Hpos].
    destruct (_ =? 0) eqn:E1; bool_to_prop.
    - rewrite delete_insert_eq. intros [_ ?]%lookup_delete_Some. by eapply Hpos.
    - intros [[-> <-]|[_ ?]]%lookup_insert_Some; [lia | by eapply Hpos]. }
  clearbody ns'. destruct (maplen ns' =? 0) eqn:E0; bool_to_prop.
  - intros [_ Hk]%lookup_delete_Some. by apply Hwf in Hk.
  - intros [[-> <-]|[_ Hk]]%lookup_insert_Some; [|by apply Hwf in Hk].
    split; [|done]. intros ->. done.
Qed.

Lemma incRef_counts ix l k n : counts ix l → counts (incRef ix k n) ((k, n) :: l).
Proof.
  intros [Hwf Hc]. split; [by apply incRef_wf|]. intros k' n'.
  rewrite incRef_refs, Hc, filter_cons. case_decide; case_bool_decide; try done;
    rewrite ?len_cons; lia.
Qed.

Lemma decRef_counts ix l l' k n :
  counts ix l → l ≡ₚ (k, n) :: l' → counts (decRef ix k n) l'.
Proof.
  intros [Hwf Hc] Hl. split; [by apply decRef_wf|]. intros k' n'.
  assert (∀ k' n', refs ix k' n' = (if bool_decide ((k, n) = (k', n')) then 1 else 0) +
    len (filter (.= (k', n')) l')) as Hc'.
  { intros k0 n0. rewrite Hc, Hl, filter_cons.
    case_decide; case_bool_decide; try done; rewrite ?len_cons; lia. }
  rewrite decRef_refs, Hc'; [lia | done |]. rewrite Hc', bool_decide_true by done.
  pose proof (len_nonneg (filter (.= (k, n)) l')). lia.
Qed.

Lemma counts_lookup ix l k n :
  counts ix l → is_Some (default ∅ (ix !! k) !! n) ↔ (k, n) ∈ l.
Proof.
  intros [Hwf Hc]. specialize (Hc k n). unfold refs in Hc.
  assert (is_Some (default ∅ (ix !! k) !! n) ↔ 0 < refs ix k n) as ->.
  { unfold refs. destruct (ix !! k) as [nodes|] eqn:E; simpl.
    - apply Hwf in E as [_ Hpos]. destruct (nodes !! n) as [c|] eqn:En; simpl.
      + apply Hpos in En. split; [done | by eauto].
      + split; [by intros []|lia].
    - rewrite lookup_empty. split; [by intros []|lia]. }
  unfold refs. rewrite Hc. unfold len. split.
  - intros Hp. destruct (filter (.= (k, n)) l) as [|p l'] eqn:E; [simpl in Hp; lia|].
    assert (p ∈ filter (.= (k, n)) l) as [-> ?]%list_elem_of_filter by (rewrite E; left). done.
  - intros Hin. assert ((k, n) ∈ filter (.= (k, n)) l) as Hf by (by apply list_elem_of_filter).
    destruct (filter _ l); [by apply not_elem_of_nil in Hf|simpl; lia].
Qed.

(** The two counter maps of a reachable registry count its live connections. *)
Lemma reachable_counts m live :
  reachable m live →
  counts (users m) ((λ c, (cuser c, cnode c)) <$> live) ∧
  counts (devices m) ((λ c, (deviceKey (cuser c) (cdevice c), cnode c)) <$>
    filter (λ c, cdevice c ≠ "") live).
Proof.
  induction 1 as [|m live u d n _ [IHu IHd]|m live live' u d n _ [IHu IHd] Hl|]; [| | |done].
  - split; (split; [intros k nodes; simpl; by rewrite lookup_empty | done]).
  - unfold Bind. destruct (decide (d = "")) as [->|Hd].
    + rewrite filter_cons_False by (simpl; tauto).
      split; [by apply incRef_counts|done].
    + rewrite filter_cons_True, bool_decide_false by done. split; by apply incRef_counts.
  - assert (filter (λ c, cdevice c ≠ "") live ≡ₚ
      filter (λ c, cdevice c ≠ "") (mkConn u d n :: live')) as Hf by by rewrite Hl.
    unfold Unbind. destruct (decide (d = "")) as [->|Hd].
    + rewrite filter_cons_False in Hf by (simpl; tauto).
      split; simpl; [eapply decRef_counts; [done|by rewrite Hl]|].
      destruct IHd as [Hw Hc]. split; [done|]. intros k n'. by rewrite Hc, Hf.
    + rewrite filter_cons_True in Hf by done. rewrite bool_decide_false by done.
      split; simpl; (eapply decRef_counts; [done|]); [by rewrite Hl | by rewrite Hf].
Qed.

Lemma nodes_live `{RangeOrder} m live u n : reachable m live → n ∈ NodesFor m u ↔ ∃ d, mkConn u d n ∈ live.
Proof.
  intros [Hc _]%reachable_counts. unfold NodesFor. rewrite elem_of_range_keys, counts_lookup by done.
  rewrite list_elem_of_fmap. split.
  - intros ([u' d n'] & Heq & Hin). simpl in Heq. simplify_eq. by exists d.
  - intros [d Hin]. by exists (mkConn u d n).
Qed.

(** ** Properties *)

(** The registry is exact: in every reachable registry, [NodesFor u] lists, each once,
    exactly the nodes that hold an open connection of user [u]; no node leaks after
    its last connection closes and none is lost while a connection is open. *)
Theorem NodesFor_live `{RangeOrder} m live u :
  reachable m live →
  NoDup (NodesFor m u) ∧
  ∀ n, n ∈ NodesFor m u ↔ ∃ d, mkConn u d n ∈ live.
Proof. intros Hre. split; [apply NoDup_range_keys|]. intros n. by apply nodes_live. Qed.

(** The per-device index answers the question the secret relay asks: for a non-empty
    device id, [NodesForDevice u d] lists, each once, exactly the nodes holding a
    connection of that very device, whatever the user's other devices do. *)
Theorem NodesForDevice_live `{RangeOrder} m live u d :
  reachable m live → d ≠ "" →
  no_bar u = true → Forall (λ c, no_bar (cuser c) = true) live →
  NoDup (NodesForDevice m u d) ∧
  ∀ n, n ∈ NodesForDevice m u d ↔ mkConn u d n ∈ live.
Proof.
  intros [_ Hc]%reachable_counts Hd Hu Hbars. unfold NodesForDevice.
  rewrite bool_decide_false by done. split; [apply NoDup_range_keys|].
  intros n. rewrite elem_of_range_keys, counts_lookup, list_elem_of_fmap by done. split.
  - intros ([u' d' n'] & Heq & [_ Hin]%list_elem_of_filter). simpl in Heq.
    injection Heq as Hk ->. rewrite Forall_forall in Hbars.
    apply bar_key_inj in Hk as [-> ->]; [done | done | by apply Hbars in Hin].
  - intros Hin. exists (mkConn u d n). by rewrite list_elem_of_filter.
Qed.

(** The batched lookup is the per-user lookup: [NodesForMany] has an entry for exactly
    the requested users that are online, and the entry is [NodesFor]. *)
Theorem NodesForMany_NodesFor `{RangeOrder} m us u :
  NodesForMany m us !! u =
  if bool_decide (u ∈ us) && negb (bool_decide (NodesFor m u = []))
  then Some (NodesFor m u) else None.
Proof.
  unfold NodesForMany.
  assert (∀ v, (maplen (default ∅ (users m !! v)) =? 0) = bool_decide (NodesFor m v = [])) as Hz.
  { intros v. unfold NodesFor, range_keys, maplen. rewrite <- length_range_map.
    destruct (range_map _); [done|]. rewrite bool_decide_false by done. apply Z.eqb_neq. simpl. lia. }
  induction us as [|v us IH] using rev_ind; [done|].
  rewrite foldl_app. cbn [foldl]. rewrite Hz. destruct (bool_decide (NodesFor m v = [])) eqn:Hv.
  - rewrite IH. destruct (decide (u = v)) as [->|Hne].
    + by rewrite Hv, !andb_false_r.
    + by rewrite (bool_decide_ext _ _ (elem_of_snoc_ne us u v Hne)).
  - destruct (decide (u = v)) as [->|Hne].
    + by rewrite lookup_insert_eq, Hv, bool_decide_true by set_solver.
    + rewrite lookup_insert_ne, IH by done.
      by rewrite (bool_decide_ext _ _ (elem_of_snoc_ne us u v Hne)).
Qed.

(** ** Witnesses *)

Definition sample_router : memoryRouter :=
  Unbind (Bind (Bind (Bind NewMemory "7" "phone" "n1") "7" "laptop" "n1") "7" "tab" "n2")
    "7" "phone" "n1".
Definition sample_live : list conn := [mkConn "7" "tab" "n2"; mkConn "7" "laptop" "n1"].

Lemma sample_reachable : reachable sample_router sample_live.
Proof.
  eapply reach_unbind; [repeat constructor|].
  apply (Permutation_app_comm sample_live [mkConn "7" "phone" "n1"]).
Defined.

Lemma NodesFor_live_witness :
  reachable sample_router sample_live ∧
  (let H := canonical_order in "n1" ∈ NodesFor sample_router "7").
Proof.
  split; [apply sample_reachable|]. simpl.
  apply (NodesFor_live (H := canonical_order) sample_router sample_live "7").
  - apply sample_reachable.
  - exists "laptop". right. left.
Defined.

Lemma NodesForDevice_live_witness :
  reachable sample_router sample_live ∧
  (let H := canonical_order in ¬ "n1" ∈ NodesForDevice sample_router "7" "phone").
Proof.
  split; [apply sample_reachable|]. intros H.
  rewrite (proj2 (NodesForDevice_live (H := H) sample_router sample_live "7" "phone"
    sample_reachable ltac:(done) eq_refl ltac:(by repeat constructor)) "n1").
  by vm_compute; intros [[=]|[[=]|[]%not_elem_of_nil]%elem_of_cons]%elem_of_cons.
Defined.
