(* ===== verification/Hub.v ===== *)
(** * The in-node routing table

    [internal/delivery] hub.go and types.go: the sharded table from a user and a
    device to the live connection ([Sink]).  Connections are an interface; what
    they do with a delivery is an effect on a world the table does not look at. *)

From S2P Require Import Prelude Bytes.

(** The [Sink] interface.  Two connections are the same sink when they are the same
    object, hence the decidable equality. *)
Class SinkOps (Sink Delivery W : Type) := {
  Sink_eq_dec :: EqDecision Sink;
  DeviceID : Sink → string;
  Send : Sink → Delivery → W → W * bool;
}.

Definition hubShards : Z := 256.

(** userID → deviceID → sink. *)
Abbreviation hubShard Sink := (gmap string (gmap string Sink)).

Record Hub (Sink : Type) := mkHub { shards : list (hubShard Sink) }.
Arguments mkHub {Sink} shards.
Arguments shards {Sink} h.

(** The specification: a flat table. *)
Abbreviation table Sink := (gmap (string * string) Sink).

Section hub.
Context `{SinkOps Sink Delivery W} `{RangeOrder}.

Definition NewHub : Hub Sink := mkHub (replicate (Z.to_nat hubShards) ∅).

(** The index of the shard that owns a user. *)
Definition shardFor (userID : string) : nat :=
  Z.to_nat (fnv32a (sbytes userID) mod hubShards).

(** [sh.users] for the user's shard, and its update under the shard's lock. *)
Definition shard (h : Hub Sink) (userID : string) : hubShard Sink :=
  default ∅ (shards h !! shardFor userID).
Definition set_shard (h : Hub Sink) (userID : string) (sh : hubShard Sink) : Hub Sink :=
  mkHub (<[shardFor userID := sh]> (shards h)).

Definition Register (h : Hub Sink) (userID : string) (s : Sink) : Hub Sink :=
  let sh := shard h userID in
  let devs := default ∅ (sh !! userID) in
  set_shard h userID (<[userID := <[DeviceID s := s]> devs]> sh).

(** The function [Register] returns. *)
Definition unregister (userID : string) (s : Sink) (h : Hub Sink) : Hub Sink :=
  let sh := shard h userID in
  match sh !! userID with
  | None => h
  | Some devs =>
      let devs := if bool_decide (devs !! DeviceID s = Some s)
                  then delete (DeviceID s) devs else devs in
      set_shard h userID
        (if maplen devs =? 0 then delete userID sh else <[userID := devs]> sh)
  end.

(** [for _, s := range sinks { if s.Send(d) { n++ } }]. *)
Fixpoint send_all (sinks : list Sink) (d : Delivery) (n : Z) (w : W) : W * Z :=
  match sinks with
  | [] => (w, n)
  | s :: sinks =>
      let '(w, ok) := Send s d w in
      send_all sinks d (if ok then n + 1 else n) w
  end.

Definition Route (h : Hub Sink) (userID : string) (d : Delivery) (w : W) : W * Z :=
  let devs := default ∅ (shard h userID !! userID) in
  send_all (range_map devs).*2 d 0 w.

Definition RouteDevice (h : Hub Sink) (userID deviceID : string) (d : Delivery) (w : W)
    : W * bool :=
  match shard h userID !! userID ≫= (.!! deviceID) with
  | None => (w, false)
  | Some s => Send s d w
  end.

Definition IsOnline (h : Hub Sink) (userID : string) : bool :=
  0 <? maplen (default ∅ (shard h userID !! userID)).

(** ** Specification: a flat table *)

Definition t_register (t : table Sink) (u : string) (s : Sink) : table Sink :=
  <[(u, DeviceID s) := s]> t.
Definition t_unregister (u : string) (s : Sink) (t : table Sink) : table Sink :=
  if bool_decide (t !! (u, DeviceID s) = Some s) then delete (u, DeviceID s) t else t.

Inductive op := ORegister (u : string) (s : Sink) | OUnregister (u : string) (s : Sink).

Definition apply_op (h : Hub Sink) (o : op) : Hub Sink :=
  match o with ORegister u s => Register h u s | OUnregister u s => unregister u s h end.
Definition apply_spec (t : table Sink) (o : op) : table Sink :=
  match o with ORegister u s => t_register t u s | OUnregister u s => t_unregister u s t end.

(** The sharded table holds the flat table, each user in its own shard, and keeps
    no user without devices. *)
Definition represents (h : Hub Sink) (t : table Sink) : Prop :=
  length (shards h) = Z.to_nat hubShards ∧
  (∀ u d, (shard h u !! u ≫= (.!! d)) = t !! (u, d)) ∧
  (∀ u, shard h u !! u ≠ Some ∅).

(** ** Lemmas *)

Lemma shardFor_lt u : (shardFor u < Z.to_nat hubShards)%nat.
Proof.
  unfold shardFor, hubShards.
  pose proof (Z.mod_pos_bound (fnv32a (sbytes u)) 256 ltac:(lia)). lia.
Qed.

(** A write to one user's entry leaves every other user's entry alone, in the same
    shard or not. *)
Lemma shard_set_shard h u v sh :
  length (shards h) = Z.to_nat hubShards →
  (∀ w, w ≠ u → sh !! w = shard h u !! w) →
  shard (set_shard h u sh) v !! v = (if bool_decide (u = v) then sh else shard h v) !! v.
Proof.
  intros Hlen Hsh. unfold shard at 1, set_shard; simpl. pose proof (shardFor_lt u).
  destruct (decide (shardFor u = shardFor v)) as [Heq|Hne].
  - rewrite Heq, list_lookup_insert_eq by (rewrite <- Heq; lia). simpl.
    case_bool_decide as Huv; [done|]. rewrite Hsh by done. unfold shard. by rewrite Heq.
  - rewrite list_lookup_insert_ne by done. rewrite bool_decide_false by congruence. done.
Qed.

Lemma represents_NewHub : represents NewHub ∅.
Proof.
  assert (∀ u, shard NewHub u !! u = None) as Hnone.
  { intros u. unfold shard, NewHub. cbn [shards]. rewrite lookup_replicate_2 by apply shardFor_lt.
    done. }
  split_and!; [done | intros u d; by rewrite Hnone | intros u; by rewrite Hnone].
Qed.

Lemma represents_Register h t u s :
  represents h t → represents (Register h u s) (t_register t u s).
Proof.
  intros (Hlen & Hrep & Hne). unfold Register, t_register.
  set (devs := <[DeviceID s := s]> _).
  assert (∀ v, shard (set_shard h u (<[u := devs]> (shard h u))) v !! v =
    if bool_decide (u = v) then Some devs else shard h v !! v) as Hsh.
  { intros v. rewrite shard_set_shard; [|done|].
    - case_bool_decide; [subst; by rewrite lookup_insert_eq | done].
    - intros w Hw. by rewrite lookup_insert_ne. }
  split_and!.
  - unfold set_shard; simpl. by rewrite length_insert.
  - intros v d. rewrite Hsh. case_bool_decide as Huv; subst; simpl.
    + unfold devs. destruct (decide (DeviceID s = d)) as [<-|Hd].
      * by rewrite !lookup_insert_eq.
      * rewrite !lookup_insert_ne by congruence. rewrite <- Hrep.
        destruct (shard h v !! v); simpl; [done | by rewrite lookup_empty].
    + by rewrite lookup_insert_ne, Hrep by congruence.
  - intros v. rewrite Hsh. case_bool_decide; [|apply Hne].
    intros [= He]. by apply insert_non_empty in He.
Qed.

Lemma represents_unregister h t u s :
  represents h t → represents (unregister u s h) (t_unregister u s t).
Proof.
  intros (Hlen & Hrep & Hne). unfold unregister, t_unregister.
  pose proof (Hrep u (DeviceID s)) as Hu.
  destruct (shard h u !! u) as [devs|] eqn:E; simpl in Hu.
  2:{ rewrite <- Hu, bool_decide_false by done. by split_and!. }
  rewrite <- Hu. set (devs' := if bool_decide _ then delete _ devs else devs).
  set (t' := if bool_decide _ then delete _ t else t).
  set (sh' := if _ =? 0 then _ else _).
  assert (sh' !! u = if bool_decide (devs' = ∅) then None else Some devs') as Hu'.
  { unfold sh', maplen. clearbody devs'. destruct (decide (devs' = ∅)) as [->|Hz].
    - rewrite map_size_empty. apply lookup_delete_eq.
    - rewrite bool_decide_false by done. apply map_size_non_empty_iff in Hz.
      rewrite (proj2 (Z.eqb_neq _ _)) by lia. by rewrite lookup_insert_eq. }
  assert (∀ w, w ≠ u → sh' !! w = shard h u !! w) as Hother.
  { intros w Hw. unfold sh'.
    destruct (maplen devs' =? 0); [apply lookup_delete_ne | apply lookup_insert_ne]; congruence. }
  assert (∀ v, shard (set_shard h u sh') v !! v =
    if bool_decide (u = v) then (if bool_decide (devs' = ∅) then None else Some devs')
    else shard h v !! v) as Hsh.
  { intros v. rewrite shard_set_shard by done.
    destruct (bool_decide_reflect (u = v)); [by subst | done]. }
  split_and!.
  - unfold set_shard; simpl. by rewrite length_insert.
  - intros v d. rewrite Hsh. destruct (bool_decide_reflect (u = v)) as [Huv|Huv]; subst; simpl.
    + transitivity (devs' !! d).
      { destruct (bool_decide_reflect (devs' = ∅)) as [->|]; [by rewrite lookup_empty | done]. }
      pose proof (Hrep v d) as Hvd. rewrite E in Hvd. simpl in Hvd.
      unfold devs', t'. destruct (bool_decide (devs !! DeviceID s = Some s)); [|done].
      destruct (decide (DeviceID s = d)) as [<-|Hd].
      * by rewrite !lookup_delete_eq.
      * by rewrite !lookup_delete_ne, Hvd by congruence.
    + unfold t'. destruct (bool_decide (devs !! DeviceID s = Some s));
        [rewrite lookup_delete_ne by congruence|]; apply Hrep.
  - intros v. rewrite Hsh. destruct (bool_decide_reflect (u = v)); [|apply Hne].
    destruct (bool_decide_reflect (devs' = ∅)); [done | congruence].
Qed.

Lemma represents_run ops : represents (foldl apply_op NewHub ops) (foldl apply_spec ∅ ops).
Proof.
  induction ops as [|o ops IH] using rev_ind; [apply represents_NewHub|].
  rewrite !foldl_app. destruct o; cbn [foldl apply_op apply_spec].
  - by apply represents_Register.
  - by apply represents_unregister.
Qed.

Lemma represents_online h t u : represents h t → IsOnline h u = true ↔ ∃ d s, t !! (u, d) = Some s.
Proof.
  intros (_ & Hrep & Hne). unfold IsOnline, maplen. rewrite Z.ltb_lt. setoid_rewrite <- Hrep.
  specialize (Hne u). destruct (shard _ u !! u) as [devs|]; simpl.
  - assert (devs ≠ ∅) as Hz by congruence. apply map_choose in Hz as Hs.
    apply map_size_non_empty_iff in Hz. split; [done | lia].
  - split; [done | by intros (? & ? & ?)].
Qed.

(** The sinks a flat table holds for one user. *)
Definition sinks_of (t : table Sink) (u : string) : list Sink :=
  (filter (λ e, e.1.1 = u) (map_to_list t)).*2.

Lemma represents_sinks h t u :
  represents h t → (range_map (default ∅ (shard h u !! u))).*2 ≡ₚ sinks_of t u.
Proof.
  intros (_ & Hrep & _). unfold sinks_of.
  set (devs := default ∅ (shard h u !! u)).
  assert (∀ d, devs !! d = t !! (u, d)) as Hd.
  { intros d. rewrite <- Hrep. unfold devs. by destruct (shard h u !! u). }
  clearbody devs. rewrite range_map_perm.
  transitivity (((λ e : string * Sink, ((u, e.1), e.2)) <$> map_to_list devs).*2).
  { by rewrite <- list_fmap_compose. }
  apply fmap_Permutation, NoDup_Permutation.
  - apply NoDup_fmap_2; [|apply NoDup_map_to_list]. intros [] [] ?. by simplify_eq/=.
  - apply NoDup_filter, NoDup_map_to_list.
  - intros [[v d] s]. rewrite list_elem_of_filter, elem_of_map_to_list, list_elem_of_fmap. split.
    + intros ([d' s'] & ? & Hin%elem_of_map_to_list). simplify_eq/=. by rewrite <- Hd.
    + intros [Hv Hs]. simpl in Hv. subst v. rewrite <- Hd in Hs.
      exists (d, s). by rewrite elem_of_map_to_list.
Qed.
End hub.

(** ** Deliveries, observed

    A world that logs each push; [accepts] says which connections have room in
    their queue. *)

Definition log_sinks {Sink Delivery} `{EqDecision Sink} (dev : Sink → string)
    (accepts : Sink → bool) : SinkOps Sink Delivery (list (Sink * Delivery)) :=
  {| DeviceID := dev; Send s d w := (w ++ [(s, d)], accepts s) |}.

Section observed.
Context {Sink Delivery : Type} `{EqDecision Sink} `{RangeOrder}.
Context (dev : Sink → string) (accepts : Sink → bool).

#[local] Instance logged : SinkOps Sink Delivery (list (Sink * Delivery)) :=
  log_sinks dev accepts.

Lemma send_all_logged sinks (d : Delivery) n w :
  send_all sinks d n w =
  (w ++ ((., d) <$> sinks), n + len (filter (λ s, accepts s = true) sinks)).
Proof.
  revert n w. induction sinks as [|s sinks IH]; intros n w; simpl.
  { unfold len; simpl. by rewrite app_nil_r, Z.add_0_r. }
  rewrite IH, <- app_assoc, filter_cons. f_equal.
  destruct (accepts s); case_decide; try done; rewrite ?len_cons; lia.
Qed.

(** C33: The sharded hub is a plain table under any interleaving of connects and
    disconnects: whatever sequence of [Register]s and unregister calls ran, a lookup
    finds exactly the last sink registered for that user and device and not since
    unregistered, so a late disconnect never evicts the reconnected socket, and a
    user is online iff some device is. *)
Theorem Hub_refines_table (ops : list (op (Sink := Sink))) :
  let h := foldl apply_op NewHub ops in
  let t := foldl apply_spec ∅ ops in
  (∀ u d, (shard h u !! u ≫= (.!! d)) = t !! (u, d)) ∧
  (∀ u, IsOnline h u = true ↔ ∃ d s, t !! (u, d) = Some s).
Proof.
  simpl. split; [apply represents_run|]. intros u. apply represents_online, represents_run.
Qed.

(** Fan-out within a node is exact: [Route] pushes the delivery to every sink the
    user has in the table, once each and to nobody else, and returns how many
    queues took it. *)
Theorem Route_exact (ops : list (op (Sink := Sink))) u (d : Delivery) w :
  let h := foldl apply_op NewHub ops in
  let t := foldl apply_spec ∅ ops in
  ∃ sinks, sinks ≡ₚ sinks_of t u ∧
    Route h u d w = (w ++ ((., d) <$> sinks), len (filter (λ s, accepts s = true) (sinks_of t u))).
Proof.
  simpl. eexists. split; [apply represents_sinks, represents_run|].
  unfold Route. rewrite send_all_logged, Z.add_0_l.
  f_equal. by rewrite (represents_sinks _ _ u (represents_run ops)).
Qed.
End observed.
