(* ===== verification/Replay.v ===== *)
(** * The replay buffer

    [internal/replay] replay.go: the in-process ring of recent outbound frames per
    session, which lets a reconnecting client receive exactly what it missed.  Clock
    readings are inputs, in nanoseconds; the cache gauge is not modelled. *)

From S2P Require Import Prelude Bytes.

Definition maxFrames : Z := 1024.
Definition second : Z := 1000000000.
Definition sessionTTL : Z := 10 * 60 * second.
Definition sweepEvery : Z := 60 * second.
Definition maxSessions : Z := 100000.

Record Frame := mkFrame { Seq : Z; Payload : bytes }.

Record sessionBuf := mkBuf { frames : list Frame; lastSeen : Z }.

Record memoryBuffer := mkBuffer {
  sessions : gmap string sessionBuf;
  lastSweep : Z;
}.

Definition NewMemory (now : Z) : memoryBuffer := mkBuffer ∅ now.

Definition expired (now : Z) (s : sessionBuf) : bool := sessionTTL <? now - lastSeen s.

Section buffer.
Context `{RangeOrder}.

(** The first loop deletes each expired entry, so its order is immaterial. *)
Definition sweepLocked (now : Z) (m : memoryBuffer) : memoryBuffer :=
  if (now - lastSweep m <? sweepEvery) && (maplen (sessions m) <? maxSessions) then m
  else
    let live := filter (λ e, expired now e.2 = false) (sessions m) in
    mkBuffer (evict maxSessions (range_keys live) live) now.

(** [now] is the clock reading of the sweep, [now'] the one that stamps the session. *)
Definition Append (m : memoryBuffer) (sessionID : string) (seq : Z) (payload : bytes)
    (now now' : Z) : memoryBuffer :=
  let m := sweepLocked now m in
  let fs := match sessions m !! sessionID with Some s => frames s | None => [] end in
  let fs := fs ++ [mkFrame seq payload] in
  let fs := if maxFrames <? len fs then zdrop (len fs - maxFrames) fs else fs in
  mkBuffer (<[sessionID := mkBuf fs now']> (sessions m)) (lastSweep m).

Definition Since (m : memoryBuffer) (sessionID : string) (afterSeq now : Z)
    : memoryBuffer * list Frame :=
  match sessions m !! sessionID with
  | None => (m, [])
  | Some s =>
      (mkBuffer (<[sessionID := mkBuf (frames s) now]> (sessions m)) (lastSweep m),
       filter (λ f, afterSeq < Seq f) (frames s))
  end.

Definition HighWater (m : memoryBuffer) (sessionID : string) : Z :=
  match sessions m !! sessionID with
  | None => 0
  | Some s => match last (frames s) with None => 0 | Some f => Seq f end
  end.

Definition Drop (m : memoryBuffer) (sessionID : string) : memoryBuffer :=
  mkBuffer (delete sessionID (sessions m)) (lastSweep m).

(** ** What was sent to a session since its buffer last started empty *)

Definition held (m : memoryBuffer) (sid : string) (fs : list Frame) : list Frame :=
  match sessions m !! sid with Some _ => fs | None => [] end.

Inductive history (sid : string) : memoryBuffer → list Frame → Prop :=
  | hist_new now : history sid (NewMemory now) []
  | hist_append m fs seq payload now now' :
      history sid m fs →
      history sid (Append m sid seq payload now now')
        (held (sweepLocked now m) sid fs ++ [mkFrame seq payload])
  | hist_other m fs sid' seq payload now now' :
      sid' ≠ sid → history sid m fs →
      history sid (Append m sid' seq payload now now') (held (sweepLocked now m) sid fs)
  | hist_since m fs sid' afterSeq now :
      history sid m fs → history sid (Since m sid' afterSeq now).1 fs
  | hist_drop m fs sid' :
      history sid m fs → history sid (Drop m sid') (held (Drop m sid') sid fs).

(** The most recent [maxFrames] frames. *)
Definition recent (fs : list Frame) : list Frame := zdrop (len fs - maxFrames) fs.

(** ** Lemmas *)

Lemma sweepLocked_subseteq now m : sessions (sweepLocked now m) ⊆ sessions m.
Proof.
  unfold sweepLocked. case_match; [done|]. simpl.
  etransitivity; [apply evict_subseteq|]. apply map_filter_subseteq.
Qed.

Lemma sweepLocked_size now m : maplen (sessions (sweepLocked now m)) < maxSessions.
Proof.
  unfold sweepLocked. case_match; bool_to_prop; [done|]. simpl.
  apply evict_size; [done| |apply NoDup_range_keys]. intros k. by rewrite elem_of_range_keys.
Qed.

Lemma recent_snoc fs f :
  recent (fs ++ [f]) =
  let gs := recent fs ++ [f] in if maxFrames <? len gs then zdrop (len gs - maxFrames) gs else gs.
Proof.
  unfold recent, maxFrames, zdrop. cbv zeta. rewrite !len_app. change (len [f]) with 1.
  pose proof (len_nonneg fs). unfold len in *. rewrite length_drop, drop_app_le by lia.
  destruct (1024 <? _) eqn:E; bool_to_prop.
  - rewrite drop_app_le, drop_drop by (rewrite length_drop; lia). do 2 f_equal. lia.
  - do 2 f_equal. lia.
Qed.

(** A sweep keeps a session's buffer whole or discards it whole. *)
Lemma held_sweep now m sid fs :
  (if sessions m !! sid is Some s then frames s else []) = recent fs →
  match sessions (sweepLocked now m) !! sid with Some s => frames s | None => [] end =
  recent (held (sweepLocked now m) sid fs).
Proof.
  intros Hm. unfold held. destruct (sessions (sweepLocked now m) !! sid) as [s|] eqn:E; [|done].
  apply (lookup_weaken _ (sessions m)) in E; [|apply sweepLocked_subseteq].
  by rewrite E in Hm.
Qed.

(** The buffer of a session is the tail of its history. *)
Lemma history_frames sid m fs :
  history sid m fs →
  (if sessions m !! sid is Some s then frames s else []) = recent fs ∧
  (sessions m !! sid = None → fs = []).
Proof.
  induction 1 as [now|m fs seq pl now now' _ [IH IH0]|m fs sid' seq pl now now' Hne _ [IH IH0]
    |m fs sid' af now _ [IH IH0]|m fs sid' _ [IH IH0]].
  - done.
  - unfold Append; cbn [sessions]. rewrite lookup_insert_eq. split; [|done].
    cbn [frames]. rewrite recent_snoc. cbv zeta.
    assert (match sessions (sweepLocked now m) !! sid with
            | Some s => frames s | None => [] end =
            recent (held (sweepLocked now m) sid fs)) as ->; [|done].
    by apply held_sweep.
  - unfold Append; cbn [sessions]. rewrite lookup_insert_ne by done.
    split; [by apply held_sweep|].
    unfold held. by intros ->.
  - unfold Since. destruct (sessions m !! sid') as [s'|] eqn:E; [|done]. simpl.
    destruct (decide (sid' = sid)) as [->|Hne].
    + rewrite lookup_insert_eq. simpl. rewrite E in IH. done.
    + by rewrite lookup_insert_ne.
  - unfold Drop, held; simpl. destruct (decide (sid' = sid)) as [->|Hne].
    + by rewrite lookup_delete_eq.
    + rewrite lookup_delete_ne by done. by destruct (sessions m !! sid).
Qed.

Lemma Append_bounds m sid seq pl now now' :
  map_Forall (λ _ s, len (frames s) ≤ maxFrames) (sessions m) →
  maplen (sessions (Append m sid seq pl now now')) ≤ maxSessions ∧
  map_Forall (λ _ s, len (frames s) ≤ maxFrames) (sessions (Append m sid seq pl now now')).
Proof.
  intros Hm. pose proof (sweepLocked_size now m) as Hsz. unfold Append; cbn [sessions]. split.
  - unfold maplen in *. rewrite map_size_insert.
    destruct (sessions (sweepLocked now m) !! sid); simpl; lia.
  - apply map_Forall_insert_2.
    + simpl. case_match eqn:E; bool_to_prop; [|done].
      rewrite len_zdrop by (unfold maxFrames in *; lia). lia.
    + intros k s Hk. apply (Hm k). eapply lookup_weaken; [done | apply sweepLocked_subseteq].
Qed.

Lemma last_recent fs : last (recent fs) = last fs.
Proof.
  induction fs as [|f fs _] using rev_ind; [done|]. rewrite recent_snoc. cbv zeta.
  case_match; bool_to_prop; [|by rewrite !last_snoc].
  rewrite len_app in *. unfold zdrop. change (len [f]) with 1 in *.
  rewrite drop_app_le by (unfold len, maxFrames in *; lia). by rewrite !last_snoc.
Qed.

(** In an ascending list the frames above a number are a suffix; if it is short
    enough, it is part of the recent frames. *)
Lemma filter_recent afterSeq fs :
  StronglySorted (λ f g, Seq f < Seq g) fs →
  len (filter (λ f, afterSeq < Seq f) fs) ≤ maxFrames →
  filter (λ f, afterSeq < Seq f) (recent fs) = filter (λ f, afterSeq < Seq f) fs.
Proof.
  induction 1 as [|f fs Hs IH Hlt]; [done|]. intros Hn.
  destruct (decide (len (f :: fs) ≤ maxFrames)) as [Hle|Hgt].
  { unfold recent, zdrop. by replace (Z.to_nat _) with 0%nat by (unfold len in *; lia). }
  assert (recent (f :: fs) = recent fs) as ->.
  { unfold recent, zdrop. rewrite len_cons in *.
    replace (Z.to_nat _) with (S (Z.to_nat (len fs - maxFrames))) by lia. done. }
  rewrite filter_cons in *. destruct (decide (afterSeq < Seq f)) as [Ha|Ha].
  - rewrite filter_Forall, len_cons in Hn; [rewrite len_cons in Hgt; lia|].
    eapply Forall_impl; [done|]. simpl. lia.
  - by apply IH.
Qed.

(** Memory is bounded in every reachable state: at most [maxSessions] buffers of at
    most [maxFrames] frames. *)
Theorem buffer_bounded sid m fs :
  history sid m fs →
  maplen (sessions m) ≤ maxSessions ∧
  map_Forall (λ _ s, len (frames s) ≤ maxFrames) (sessions m).
Proof.
  induction 1 as [now|m fs seq pl now now' _ [IH IH0]|m fs sid' seq pl now now' Hne _ [IH IH0]
    |m fs sid' af now _ [IH IH0]|m fs sid' _ [IH IH0]].
  - done.
  - by apply Append_bounds.
  - by apply Append_bounds.
  - unfold Since. destruct (sessions m !! sid') as [s'|] eqn:E; [|done]. simpl. split.
    + unfold maplen. rewrite map_size_insert, E. done.
    + apply map_Forall_insert_2; [by apply IH0 in E | done].
  - split; simpl.
    + unfold maplen in *. rewrite map_size_delete.
      destruct (sessions m !! sid'); simpl; lia.
    + by apply map_Forall_delete.
Qed.

Lemma since_missed sid m fs afterSeq now :
  history sid m fs → StronglySorted (λ f g, Seq f < Seq g) fs →
  len (filter (λ f, afterSeq < Seq f) fs) ≤ maxFrames →
  (Since m sid afterSeq now).2 = filter (λ f, afterSeq < Seq f) fs.
Proof.
  intros [Hf _]%history_frames Hs Hn. transitivity (filter (λ f, afterSeq < Seq f) (recent fs)).
  - unfold Since. destruct (sessions m !! sid); simpl; by rewrite <- Hf.
  - by apply filter_recent.
Qed.

(** ** Properties *)

(** Resume is lossless: if at most [maxFrames] of the frames sent since the buffer
    started carry a number above the one the client acknowledged, [Since] returns
    exactly those frames, in order, and nothing else. *)
Theorem Since_lossless sid m fs afterSeq now :
  history sid m fs → StronglySorted (λ f g, Seq f < Seq g) fs →
  len (filter (λ f, afterSeq < Seq f) fs) ≤ maxFrames →
  (Since m sid afterSeq now).2 = filter (λ f, afterSeq < Seq f) fs.
Proof. apply since_missed. Qed.

(** The high-water mark is the number of the last frame sent (0 before any), whether
    or not the client has acknowledged it. *)
Theorem HighWater_last sid m fs :
  history sid m fs →
  HighWater m sid = match last fs with Some f => Seq f | None => 0 end.
Proof.
  intros [Hf _]%history_frames. rewrite <- last_recent, <- Hf. unfold HighWater.
  by destruct (sessions m !! sid).
Qed.

(** The sweep never discards a buffer a client can still resume into: below the
    session ceiling, a session seen within [sessionTTL] survives unchanged. *)
Theorem sweepLocked_keeps now m sid s :
  sessions m !! sid = Some s → now - lastSeen s ≤ sessionTTL →
  maplen (sessions m) < maxSessions →
  sessions (sweepLocked now m) !! sid = Some s.
Proof.
  intros Hs Hl Hn. unfold sweepLocked. case_match; [done|]. simpl.
  set (live := filter _ (sessions m)).
  assert (maplen live < maxSessions) as Hn'.
  { unfold maplen in *. pose proof (map_subseteq_size live (sessions m)
      (map_filter_subseteq _ _)). lia. }
  assert (evict maxSessions (range_keys live) live = live) as ->.
  { destruct (range_keys live); [done|]. simpl. by rewrite (proj2 (Z.ltb_lt _ _)). }
  apply map_lookup_filter_Some. split; [done|]. unfold expired. simpl. by apply Z.ltb_ge.
Qed.
End buffer.

(** ** Witnesses *)

Definition sample_buffer : memoryBuffer :=
  let H := canonical_order in
  Append (Append (Append (NewMemory 0) "s" 1 [] 5 6) "t" 1 [] 7 8) "s" 2 [] 9 10.
Definition sample_history : list Frame := [mkFrame 1 []; mkFrame 2 []].

Lemma sample_hist : history (H := canonical_order) "s" sample_buffer sample_history.
Proof.
  change sample_history with
    (held (sweepLocked (H := canonical_order) 9 (Append (H := canonical_order)
       (Append (H := canonical_order) (NewMemory 0) "s" 1 [] 5 6) "t" 1 [] 7 8)) "s"
       [mkFrame 1 []] ++ [mkFrame 2 []]).
  apply hist_append.
  change [mkFrame 1 []] with
    (held (sweepLocked (H := canonical_order) 7 (Append (H := canonical_order)
       (NewMemory 0) "s" 1 [] 5 6)) "s" [mkFrame 1 []]).
  apply hist_other; [done|].
  apply (hist_append "s" (NewMemory 0) []). constructor.
Defined.

Lemma Since_lossless_witness :
  (Since sample_buffer "s" 1 11).2 = [mkFrame 2 []].
Proof.
  apply (Since_lossless (H := canonical_order) "s" sample_buffer sample_history 1 11).
  - apply sample_hist.
  - repeat constructor.
  - done.
Defined.

Lemma HighWater_last_witness : HighWater sample_buffer "s" = 2.
Proof. apply (HighWater_last (H := canonical_order) "s" _ _ sample_hist). Defined.

Lemma buffer_bounded_witness : maplen (sessions sample_buffer) ≤ maxSessions.
Proof. apply (buffer_bounded (H := canonical_order) "s" _ _ sample_hist). Defined.

Lemma sweepLocked_keeps_witness :
  sessions (sweepLocked (H := canonical_order) (5 * 60 * second) sample_buffer) !! "t" =
  Some (mkBuf [mkFrame 1 []] 8).
Proof.
  apply (sweepLocked_keeps (H := canonical_order)).
  - by vm_compute.
  - by vm_compute.
  - by vm_compute.
Defined.
