(* ===== verification/AsyncReplay.v ===== *)
(** * The replay buffer off the write path

    [internal/replay] async.go over the in-memory buffer of Replay.v: appends go to a bounded
    queue that one worker drains in batches, reads flush the queue first.  The queue, the
    batch the worker holds and the buffer are the state; a step is a call of a connection or
    a move of the worker.  A write takes the clock readings of the buffer's [Append]. *)

From S2P Require Import Prelude Bytes Replay.

Record Entry := mkEntry { E_SessionID : string; E_Seq : Z; E_Payload : bytes }.

Definition asyncMaxBatch : Z := 256.
Definition defaultQueue : Z := 2 ^ 16.

Record Async := mkAsync {
  inner : memoryBuffer;
  q : list Entry;
  qcap : Z;
  batch : list Entry;  (* drained and not written yet *)
  dropped : Z;         (* metrics.ReplayDropped *)
}.

Section async.
Context `{RangeOrder}.

Definition NewAsync (m : memoryBuffer) (queue : Z) : Async :=
  mkAsync m [] (if queue <=? 0 then defaultQueue else queue) [] 0.

(** The [select] on a channel of capacity [qcap]. *)
Definition async_Append (e : Entry) (a : Async) : Async :=
  if len (q a) <? qcap a then mkAsync (inner a) (q a ++ [e]) (qcap a) (batch a) (dropped a)
  else mkAsync (inner a) (q a) (qcap a) (batch a) (dropped a + 1).

(** [drain] from the queue into a batch of at most [max]. *)
Fixpoint drain (b : list Entry) (max : Z) (queued : list Entry) : list Entry * list Entry :=
  match queued with
  | [] => (b, [])
  | e :: rest => if len b <? max then drain (b ++ [e]) max rest else (b, queued)
  end.

Definition write_entry (t : Z * Z) (e : Entry) (m : memoryBuffer) : memoryBuffer :=
  Append m (E_SessionID e) (E_Seq e) (E_Payload e) t.1 t.2.
(** [write]: the buffer has no batch operation.  One pair of readings for each entry. *)
Fixpoint write (ts : nat → Z * Z) (b : list Entry) (m : memoryBuffer) : memoryBuffer :=
  match b with
  | [] => m
  | e :: b => write (λ i, ts (S i)) b (write_entry (ts O) e m)
  end.

(** The worker: it takes what is queued, up to a batch, and writes what it took. *)
Definition worker_take (a : Async) : Async :=
  let '(b, rest) := drain (batch a) asyncMaxBatch (q a) in mkAsync (inner a) rest (qcap a) b (dropped a).
Definition worker_write (t : Z * Z) (a : Async) : Async :=
  match batch a with
  | [] => a
  | e :: b => mkAsync (write_entry t e (inner a)) (q a) (qcap a) b (dropped a)
  end.

(** The loop that answers a flush: batches until there are none.  The fuel is above the
    number of batches. *)
Fixpoint flush_loop (fuel : nat) (ts : nat → Z * Z) (queued : list Entry) (m : memoryBuffer) : option memoryBuffer :=
  match fuel with
  | O => None
  | S fuel =>
      let '(b, rest) := drain [] asyncMaxBatch queued in
      match b with
      | [] => Some m
      | _ => flush_loop fuel (λ i, ts (length b + i)%nat) rest (write ts b m)
      end
  end.
(** The worker finishes the batch it holds before it sees the request. *)
Definition Flush (ts : nat → Z * Z) (a : Async) : option Async :=
  m ← flush_loop (S (length (q a))) (λ i, ts (length (batch a) + i)%nat) (q a) (write ts (batch a) (inner a));
  Some (mkAsync m [] (qcap a) [] (dropped a)).

Definition async_Since (ts : nat → Z * Z) (sessionID : string) (afterSeq now : Z) (a : Async) : option (Async * list Frame) :=
  a ← Flush ts a;
  let '(m, fs) := Since (inner a) sessionID afterSeq now in
  Some (mkAsync m (q a) (qcap a) (batch a) (dropped a), fs).
Definition async_HighWater (ts : nat → Z * Z) (sessionID : string) (a : Async) : option (Async * Z) :=
  a ← Flush ts a; Some (a, HighWater (inner a) sessionID).
Definition async_Drop (ts : nat → Z * Z) (sessionID : string) (a : Async) : option Async :=
  a ← Flush ts a; Some (mkAsync (Drop (inner a) sessionID) (q a) (qcap a) (batch a) (dropped a)).

(** ** Calls and their answers *)

Inductive acall := AAppend (e : Entry) | ASince (sid : string) (after now : Z) | AHigh (sid : string) | ADrop (sid : string).
Inductive answer := ANone | AFrames (fs : list Frame) | ASeq (n : Z).

(** The calls a connection makes of the synchronous buffer, each append with its readings. *)
Definition sync_call (t : Z * Z) (c : acall) (m : memoryBuffer) : memoryBuffer * answer :=
  match c with
  | AAppend e => (write_entry t e m, ANone)
  | ASince sid after now => let '(m, fs) := Since m sid after now in (m, AFrames fs)
  | AHigh sid => (m, ASeq (HighWater m sid))
  | ADrop sid => (Drop m sid, ANone)
  end.
Inductive sync_run (m0 : memoryBuffer) : list (acall * answer) → memoryBuffer → Prop :=
  | sync_nil : sync_run m0 [] m0
  | sync_snoc log m t c m' r :
      sync_run m0 log m → sync_call t c m = (m', r) → sync_run m0 (log ++ [(c, r)]) m'.

(** The calls of connections interleaved with the worker's moves. *)
Inductive async_run (a0 : Async) : list (acall * answer) → Async → Prop :=
  | run_nil : async_run a0 [] a0
  | run_append log a e : async_run a0 log a → async_run a0 (log ++ [(AAppend e, ANone)]) (async_Append e a)
  | run_take log a : async_run a0 log a → async_run a0 log (worker_take a)
  | run_write log a t : async_run a0 log a → async_run a0 log (worker_write t a)
  | run_since log a a' ts sid after now fs :
      async_run a0 log a → async_Since ts sid after now a = Some (a', fs) →
      async_run a0 (log ++ [(ASince sid after now, AFrames fs)]) a'
  | run_high log a a' ts sid n :
      async_run a0 log a → async_HighWater ts sid a = Some (a', n) → async_run a0 (log ++ [(AHigh sid, ASeq n)]) a'
  | run_drop log a a' ts sid :
      async_run a0 log a → async_Drop ts sid a = Some a' → async_run a0 (log ++ [(ADrop sid, ANone)]) a'.

(** ** Lemmas *)

Lemma drain_app b max queued b' rest : drain b max queued = (b', rest) → b ++ queued = b' ++ rest.
Proof.
  revert b. induction queued as [|e queued IH]; intros b; cbn [drain].
  { intros [= <- <-]. done. }
  destruct (len b <? max); [|by intros [= <- <-]]. intros E%IH. by rewrite <- E, <- app_assoc.
Qed.
Lemma drain_some max queued : 0 < max → (drain [] max queued).1 = [] → queued = [].
Proof.
  intros Hm. destruct queued as [|e queued]; [done|]. cbn [drain]. rewrite len_nil, (proj2 (Z.ltb_lt _ _)) by done.
  assert (∀ b l, b ≠ [] → (drain b max l).1 ≠ []) as Hne.
  { intros b l. revert b. induction l as [|x l IH]; intros b Hb; [done|]. cbn [drain]. destruct (len b <? max); [|done].
    apply IH. by destruct b. }
  intros E. by destruct (Hne ([] ++ [e]) queued ltac:(done)).
Qed.

(** Entries written one after the other, at some readings. *)
Inductive wrote : list Entry → memoryBuffer → memoryBuffer → Prop :=
  | wrote_nil m : wrote [] m m
  | wrote_cons e l m m' t : wrote l (write_entry t e m) m' → wrote (e :: l) m m'.

Lemma wrote_app l l' m m1 m2 : wrote l m m1 → wrote l' m1 m2 → wrote (l ++ l') m m2.
Proof. induction 1 as [|e l m m1 t _ IH]; intros H'; [done|]. apply (wrote_cons _ _ _ _ t). by apply IH. Qed.
Lemma write_wrote ts b m : wrote b m (write ts b m).
Proof. revert ts m. induction b as [|e b IH]; intros ts m; cbn [write]; [constructor|]. apply (wrote_cons _ _ _ _ (ts O)), IH. Qed.

(** A flush writes everything, in order, and comes back. *)
Lemma flush_loop_run fuel ts queued m : (length queued < fuel)%nat → ∃ m', flush_loop fuel ts queued m = Some m' ∧ wrote queued m m'.
Proof.
  revert ts queued m. induction fuel as [|fuel IH]; intros ts queued m Hl; [lia|]. cbn [flush_loop].
  destruct (drain [] asyncMaxBatch queued) as [b rest] eqn:Ed. pose proof (drain_app _ _ _ _ _ Ed) as Happ. cbn [app] in Happ.
  destruct b as [|e b].
  { assert (queued = []) as -> by (apply (drain_some asyncMaxBatch); [done|by rewrite Ed]). exists m. split; [done|constructor]. }
  destruct (IH (λ i, ts (length (e :: b) + i)%nat) rest (write ts (e :: b) m)) as (m' & Hr & Hw).
  { subst queued. rewrite length_app in Hl. cbn [length] in Hl. lia. }
  exists m'. split; [done|]. rewrite Happ. by eapply wrote_app; [apply write_wrote|].
Qed.
Lemma Flush_run ts a : ∃ m, Flush ts a = Some (mkAsync m [] (qcap a) [] (dropped a)) ∧ wrote (batch a ++ q a) (inner a) m.
Proof.
  destruct (flush_loop_run (S (length (q a))) (λ i, ts (length (batch a) + i)%nat) (q a) (write ts (batch a) (inner a))) as (m & Hf & Hw); [lia|].
  exists m. split; [unfold Flush; by rewrite Hf|]. by eapply wrote_app; [apply write_wrote|].
Qed.

Definition appends (l : list Entry) : list (acall * answer) := (λ e, (AAppend e, ANone)) <$> l.

Lemma sync_wrote m0 log m l m' : sync_run m0 log m → wrote l m m' → sync_run m0 (log ++ appends l) m'.
Proof.
  intros Hs Hw. revert log Hs. induction Hw as [m|e l m m' t _ IH]; intros log Hs; [by rewrite app_nil_r|].
  cbn [appends fmap list_fmap]. rewrite (cons_middle (AAppend e, ANone)), app_assoc. apply IH. by apply (sync_snoc _ _ m t).
Qed.

(** While nothing was dropped, the buffer is the one a synchronous run of the calls made so
    far, apart from the appends not yet written, has. *)
Definition caught_up (m0 : memoryBuffer) (log : list (acall * answer)) (a : Async) : Prop :=
  0 ≤ dropped a ∧ (dropped a = 0 → ∃ calls, log = calls ++ appends (batch a ++ q a) ∧ sync_run m0 calls (inner a)).

(** A call that flushes first is served as the synchronous buffer would serve it. *)
Lemma caught_up_flush m0 log a ts c m2 r :
  caught_up m0 log a →
  (∀ m, Flush ts a = Some (mkAsync m [] (qcap a) [] (dropped a)) → sync_call (0, 0) c m = (m2, r)) →
  caught_up m0 (log ++ [(c, r)]) (mkAsync m2 [] (qcap a) [] (dropped a)).
Proof.
  intros [Hd Ha] Hc. split; [done|]. cbn. intros H0. destruct (Ha H0) as (calls & Hlog & Hs).
  destruct (Flush_run ts a) as (m & HF & Hw). exists (log ++ [(c, r)]). split; [by rewrite app_nil_r|].
  apply (sync_snoc _ _ m (0, 0)); [|by apply Hc]. rewrite Hlog. by eapply sync_wrote.
Qed.

Lemma async_sim m0 queue log a : async_run (NewAsync m0 queue) log a → caught_up m0 log a.
Proof.
  induction 1 as [|log a e _ [Hd IH]|log a _ [Hd IH]|log a t _ [Hd IH]|log a a1 ts sid af now fs _ IH Hs|log a a1 ts sid n _ IH Hs|log a a1 ts sid _ IH Hs].
  - split; [done|]. intros _. exists []. split; [done|constructor].
  - unfold async_Append. destruct (_ <? _); split; cbn; try lia. intros H0. destruct (IH H0) as (calls & -> & Hs).
    exists calls. split; [|done]. unfold appends. by rewrite !fmap_app, !app_assoc.
  - unfold worker_take. destruct (drain (batch a) asyncMaxBatch (q a)) as [b rest] eqn:Ed. apply drain_app in Ed.
    split; [done|]. cbn. by rewrite <- Ed.
  - unfold worker_write. destruct (batch a) as [|e b] eqn:Eb; [by split; [|rewrite Eb in *]|]. split; [done|]. cbn. intros H0.
    destruct (IH H0) as (calls & -> & Hs). exists (calls ++ [(AAppend e, ANone)]). split; [by rewrite <- app_assoc|].
    by apply (sync_snoc _ _ (inner a) t).
  - unfold async_Since in Hs. destruct (Flush_run ts a) as (m & HF & _). rewrite HF in Hs. cbn in Hs.
    destruct (Since m sid af now) as [m2 fs2] eqn:Es. injection Hs as <- <-. apply (caught_up_flush _ _ _ ts); [done|].
    intros m' Hm'. rewrite HF in Hm'. injection Hm' as <-. cbn. by rewrite Es.
  - unfold async_HighWater in Hs. destruct (Flush_run ts a) as (m & HF & _). rewrite HF in Hs. injection Hs as <- <-.
    apply (caught_up_flush _ _ _ ts); [done|]. intros m' Hm'. rewrite HF in Hm'. by injection Hm' as <-.
  - unfold async_Drop in Hs. destruct (Flush_run ts a) as (m & HF & _). rewrite HF in Hs. injection Hs as <-.
    apply (caught_up_flush _ _ _ ts); [done|]. intros m' Hm'. rewrite HF in Hm'. by injection Hm' as <-.
Qed.


(** The queue is bounded: appending never lets it outgrow its capacity, and what does not
    fit is counted. *)
Lemma async_queue_bounded e a : len (q a) ≤ qcap a → len (q (async_Append e a)) ≤ qcap a ∧
  (len (q a) = qcap a → dropped (async_Append e a) = dropped a + 1).
Proof.
  intros Hq. unfold async_Append. destruct (Z.ltb_spec (len (q a)) (qcap a)); cbn; [|lia].
  rewrite len_app, len_cons, len_nil. lia.
Qed.
End async.

(** ** Witness *)

Section witness.
#[local] Existing Instance canonical_order.

Definition w_entry : Entry := mkEntry "s" 1 [byteZ 9].
End witness.
