(* ===== verification/Snowflake.v ===== *)
(** * Snowflake identifiers

    [pkg/id] snowflake.go.  The clock is the list of its successive readings in
    milliseconds; a call consumes the readings it makes, one to begin with and one
    per turn of the wait for the next millisecond. *)

From stdpp Require Import pretty.
From S2P Require Import Prelude Bytes.

Definition Epoch : Z := 1704067200000.
Definition nodeBits : Z := 10.
Definition seqBits : Z := 12.
Definition maxNode : Z := Z.lxor (-1) (Z.shiftl (-1) nodeBits).
Definition maxSeq : Z := Z.lxor (-1) (Z.shiftl (-1) seqBits).
Definition timeShift : Z := nodeBits + seqBits.
Definition nodeShift : Z := seqBits.

Record Generator := mkGen { node : Z; lastMs : Z; sequence : Z }.

Definition NewGenerator (n : Z) : result Generator :=
  if (n <? 0) || (maxNode <? n) then Err id_ErrNodeRange else Ok (mkGen n 0 0).

(** [for now <= g.lastMs { now = time.Now().UnixMilli() }]; [None] is a wait that
    outlasts the given readings. *)
Fixpoint spin (last now : Z) (clock : list Z) : option (Z * list Z) :=
  if now <=? last then
    match clock with
    | [] => None
    | now' :: clock => spin last now' clock
    end
  else Some (now, clock).

Definition compose (now n seq : Z) : Z :=
  i64 (Z.lor (Z.lor (Z.shiftl (i64 (now - Epoch)) timeShift) (Z.shiftl n nodeShift)) seq).

Definition Next (g : Generator) (clock : list Z) : option (Z * Generator * list Z) :=
  match clock with
  | [] => None
  | now :: clock =>
      let now := if now <? lastMs g then lastMs g else now in
      '(now, seq, clock) ←
        (if now =? lastMs g then
           let seq := Z.land (sequence g + 1) maxSeq in
           if seq =? 0 then
             '(now, clock) ← spin (lastMs g) now clock; Some (now, seq, clock)
           else Some (now, seq, clock)
         else Some (now, 0, clock));
      Some (compose now (node g) seq, mkGen (node g) now seq, clock)
  end.

Definition NextString (g : Generator) (clock : list Z)
    : option (string * Generator * list Z) :=
  '(i, g, clock) ← Next g clock; Some (pretty i, g, clock).

(** Milliseconds since the Unix epoch. *)
Definition TimeOf (i : Z) : Z := i64 (Z.shiftr i timeShift + Epoch).

(** ** Specification helpers *)

(** [n] calls in a row. *)
Fixpoint NextN (n : nat) (g : Generator) (clock : list Z)
    : option (list Z * Generator * list Z) :=
  match n with
  | O => Some ([], g, clock)
  | S n =>
      '(i, g, clock) ← Next g clock;
      '(ids, g, clock) ← NextN n g clock;
      Some (i :: ids, g, clock)
  end.

(** The 41 bits of milliseconds the layout has room for, about 69 years on either
    side of the epoch (which covers a fresh generator's [lastMs] of 0). *)
Definition in_era (ms : Z) : Prop := - 2 ^ 41 ≤ ms - Epoch < 2 ^ 41.

Definition gen_ok (g : Generator) : Prop :=
  0 ≤ node g ≤ maxNode ∧ 0 ≤ sequence g ≤ maxSeq ∧ in_era (lastMs g).

(** The id a generator state stands for: the last one it returned. *)
Definition ident (g : Generator) : Z := compose (lastMs g) (node g) (sequence g).

(** ** Lemmas *)

Lemma compose_eq ms n seq :
  in_era ms → 0 ≤ n ≤ maxNode → 0 ≤ seq ≤ maxSeq →
  compose ms n seq = (ms - Epoch) * 2 ^ 22 + n * 2 ^ 12 + seq.
Proof.
  intros Hms Hn Hs. change maxNode with 1023 in Hn. change maxSeq with 4095 in Hs.
  unfold compose, in_era in *. change timeShift with 22. change nodeShift with 12.
  rewrite (i64_small (ms - Epoch)) by lia.
  rewrite (Z.lor_comm (Z.shiftl (ms - Epoch) 22)), <- (Z.shiftl_mul_pow2 n 12) by lia.
  rewrite (Z.shiftl_mul_pow2 n 12) by lia. rewrite (lor_shiftl_add (n * 2 ^ 12)) by lia.
  replace (n * 2 ^ 12 + (ms - Epoch) * 2 ^ 22) with ((n + (ms - Epoch) * 2 ^ 10) * 2 ^ 12) by lia.
  rewrite <- Z.shiftl_mul_pow2, Z.lor_comm, lor_shiftl_add by lia.
  rewrite i64_small; lia.
Qed.

Lemma spin_spec last now clock now' clock' :
  spin last now clock = Some (now', clock') → last < now' ∧ now' ∈ now :: clock.
Proof.
  revert now. induction clock as [|c clock IH]; intros now; simpl.
  - case_match; bool_to_prop; [done|]. intros [= <- _]. split; [done|left].
  - case_match; bool_to_prop.
    + intros [? ?]%IH. split; [done | by right].
    + intros [= <- _]. split; [done | left].
Qed.

Lemma spin_suffix last now clock now' clock' :
  spin last now clock = Some (now', clock') → clock' `suffix_of` clock.
Proof.
  revert now. induction clock as [|c clock IH]; intros now; simpl; case_match; try done.
  - by intros [= _ <-].
  - intros ?%IH. by apply suffix_cons_r.
  - by intros [= _ <-].
Qed.

Lemma spin_returns last now clock :
  Exists (λ ms, last < ms) clock → is_Some (spin last now clock).
Proof.
  intros Hex. revert now. induction Hex as [c clock Hc|c clock _ IH]; intros now; simpl.
  - case_match; [|by eexists].
    assert (spin last c clock = Some (c, clock)) as ->; [|by eexists].
    destruct clock; simpl; by rewrite (proj2 (Z.leb_gt _ _)).
  - case_match; [apply IH | by eexists].
Qed.

(** One call: the next state is valid, its id is the one returned, and it is larger
    than every id before it. *)
Lemma Next_step g clock i g' clock' :
  gen_ok g → Forall in_era clock → Next g clock = Some (i, g', clock') →
  gen_ok g' ∧ i = ident g' ∧ node g' = node g ∧ ident g < i ∧ clock' `suffix_of` clock.
Proof.
  intros (Hn & Hs & Hl) Hc. destruct clock as [|now clock]; [done|]. simpl.
  apply Forall_cons in Hc as [Hnow Hc].
  set (now1 := if now <? lastMs g then lastMs g else now).
  assert (lastMs g ≤ now1 ∧ in_era now1) as [Hge Hera].
  { unfold now1. case_match; bool_to_prop; split; done || lia. }
  clearbody now1. intros Hrun.
  apply bind_Some in Hrun as ([[ms seq] c1] & Hsel & [= <- <- <-]).
  assert (in_era ms ∧ 0 ≤ seq ≤ maxSeq ∧ c1 `suffix_of` clock ∧
    (lastMs g < ms ∨ ms = lastMs g ∧ sequence g < seq)) as (Hms & Hseq & Hsuf & Hgt).
  { destruct (now1 =? lastMs g) eqn:E; bool_to_prop.
    2:{ injection Hsel as <- <- <-. change maxSeq with 4095. split_and!; try done; lia. }
    change maxSeq with (Z.ones 12) in Hsel. rewrite Z.land_ones in Hsel by lia.
    change maxSeq with 4095 in *. destruct (_ =? 0) eqn:E0; bool_to_prop.
    - apply bind_Some in Hsel as ([ms' c'] & Hsp & [= <- <- <-]).
      pose proof (spin_suffix _ _ _ _ _ Hsp) as Hsuf'.
      apply spin_spec in Hsp as [Hlt Hin]. rewrite E0. split_and!; try lia; try done.
      apply elem_of_cons in Hin as [->|Hin]; [done|]. rewrite Forall_forall in Hc.
      by apply Hc.
    - injection Hsel as <- <- <-. subst now1.
      assert (sequence g + 1 < 2 ^ 12) by (destruct (decide (sequence g = 4095)) as [Hx|]; [by rewrite Hx in E0|lia]).
      rewrite Z.mod_small by lia. split_and!; try done; lia. }
  assert (gen_ok (mkGen (node g) ms seq)) as Hok.
  { split; [done|]. by split. }
  split_and!; try done; [|by apply suffix_cons_r].
  unfold ident. rewrite !compose_eq by done.
  change maxSeq with 4095 in *. change maxNode with 1023 in *. lia.
Qed.

(** ** Properties *)

(** Identifiers are unique and time-ordered: any number of consecutive calls of one
    generator, whatever the clock does (stalls and backward jumps included), return
    strictly increasing ids, each above the ids returned before. *)
Theorem NextN_increasing n g clock ids g' clock' :
  gen_ok g → Forall in_era clock → NextN n g clock = Some (ids, g', clock') →
  StronglySorted Z.lt ids ∧ Forall (λ i, ident g < i) ids ∧ gen_ok g'.
Proof.
  revert g clock ids. induction n as [|n IH]; intros g clock ids Hg Hc; simpl.
  { intros [= <- <- _]. split_and!; [constructor | constructor | done..]. }
  intros ([[i g1] c1] & H1 & ([[ids' g2] c2] & H2 & [= <- <- <-])%bind_Some)%bind_Some.
  apply Next_step in H1 as (Hg1 & -> & _ & Hlt & [pre ->]); [|done..].
  apply Forall_app in Hc as [_ Hc].
  apply IH in H2 as (Hs & Hall & Hok); [|done..].
  split_and!; [by constructor | constructor; [done|] | done].
  eapply Forall_impl; [done|]. simpl. lia.
Qed.

(** A call returns as soon as the clock moves past the last millisecond used: the wait
    inside [Next] ends at the first such reading. *)
Theorem Next_returns g now clock :
  Exists (λ ms, lastMs g < ms) (now :: clock) → is_Some (Next g (now :: clock)).
Proof.
  intros Hex. simpl. set (now1 := if now <? lastMs g then lastMs g else now).
  destruct (now1 =? lastMs g) eqn:E; bool_to_prop; [|by eexists].
  destruct (_ =? 0) eqn:E0; [|by eexists].
  assert (Exists (λ ms, lastMs g < ms) clock) as Hex'.
  { apply Exists_cons in Hex as [Hlt|]; [|done]. unfold now1 in E.
    destruct (now <? lastMs g) eqn:E1; bool_to_prop; lia. }
  apply (spin_returns _ now1) in Hex' as [[ms c] ->]. by eexists.
Qed.

(** Ids of different nodes never collide, so writers need no coordination. *)
Theorem Next_node_disjoint g1 g2 clock1 clock2 i1 i2 g1' g2' c1 c2 :
  gen_ok g1 → gen_ok g2 → Forall in_era clock1 → Forall in_era clock2 →
  node g1 ≠ node g2 →
  Next g1 clock1 = Some (i1, g1', c1) → Next g2 clock2 = Some (i2, g2', c2) →
  i1 ≠ i2.
Proof.
  intros Hg1 Hg2 Hc1 Hc2 Hne H1 H2.
  apply Next_step in H1 as ((Hn1 & Hs1 & He1) & -> & Heq1 & _); [|done..].
  apply Next_step in H2 as ((Hn2 & Hs2 & He2) & -> & Heq2 & _); [|done..].
  unfold ident. rewrite !compose_eq by done.
  change maxSeq with 4095 in *. change maxNode with 1023 in *. lia.
Qed.

(** The creation time can be read back from an id: [TimeOf] of a returned id is the
    millisecond the generator used for it. *)
Theorem TimeOf_Next g clock i g' clock' :
  gen_ok g → Forall in_era clock → Next g clock = Some (i, g', clock') →
  TimeOf i = lastMs g'.
Proof.
  intros Hg Hc H1. apply Next_step in H1 as ((Hn & Hs & He) & -> & _); [|done..].
  unfold TimeOf, ident. rewrite compose_eq by done. change timeShift with 22.
  change maxSeq with 4095 in *. change maxNode with 1023 in *. unfold in_era in *.
  rewrite Z.shiftr_div_pow2 by lia.
  rewrite <- (Z.div_unique_pos _ (2 ^ 22) (lastMs g' - Epoch) (node g' * 2 ^ 12 + sequence g')) by lia.
  rewrite i64_small; unfold Epoch in *; lia.
Qed.

(** ** Witnesses *)

Definition sample_gen : Generator := mkGen 5 1704067200005 4094.
(** Two ids in the last millisecond exhaust its sequence; the clock then stalls, jumps
    back and recovers. *)
Definition sample_clock : list Z :=
  [1704067200005; 1704067200005; 1704067200005; 1704067200003; 1704067200006; 1704067200007].

Lemma sample_gen_ok : gen_ok sample_gen ∧ Forall in_era sample_clock.
Proof. by split; [split_and! | repeat constructor]. Defined.

Lemma NextN_increasing_witness :
  ∃ ids g' c', NextN 3 sample_gen sample_clock = Some (ids, g', c') ∧
    StronglySorted Z.lt ids ∧ Forall (λ i, ident sample_gen < i) ids ∧ gen_ok g'.
Proof.
  eexists _, _, _. split; [by vm_compute|].
  eapply (NextN_increasing 3 sample_gen sample_clock); [apply sample_gen_ok..|by vm_compute].
Defined.

Lemma Next_returns_witness :
  is_Some (Next (mkGen 5 1704067200005 4095) sample_clock).
Proof.
  apply (Next_returns (mkGen 5 1704067200005 4095) 1704067200005 (tail sample_clock)).
  do 4 right. by left.
Defined.

Lemma Next_node_disjoint_witness :
  ∃ i1 i2 r1 r2, Next sample_gen sample_clock = Some (i1, r1.1, r1.2) ∧
    Next (mkGen 6 0 0) sample_clock = Some (i2, r2.1, r2.2) ∧ i1 ≠ i2.
Proof.
  eexists _, _, (_, _), (_, _). split; [by vm_compute|]. split; [by vm_compute|].
  eapply (Next_node_disjoint sample_gen (mkGen 6 0 0) sample_clock sample_clock);
    [apply sample_gen_ok | by split_and! | apply sample_gen_ok.. | done | by vm_compute
    | by vm_compute].
Defined.

Lemma TimeOf_Next_witness :
  ∃ i g' c', Next sample_gen sample_clock = Some (i, g', c') ∧ TimeOf i = lastMs g'.
Proof.
  eexists _, _, _. split; [by vm_compute|].
  eapply (TimeOf_Next sample_gen sample_clock); [apply sample_gen_ok..|by vm_compute].
Defined.
