(* ===== verification/GoStrings.v ===== *)
(** * Go's [strings] package

    [TrimSpace], [ToLower], [ToUpper], [EqualFold], [ReplaceAll], [TrimPrefix], [TrimRight]
    and [Split] on byte strings.  The first four have an ASCII fast path, modelled here, and
    consult the Unicode tables otherwise: the tables are the class [Unicode]. *)

From Stdlib Require Import Strings.Byte.
From S2P Require Import Prelude Bytes.

Class Unicode := {
  unicode_lower : bytes → bytes;
  unicode_upper : bytes → bytes;
  unicode_trim : bytes → bytes;
  unicode_fold : bytes → bytes → bool;
}.
(** Tables that leave every text as it is, to run the code on ASCII. *)
Definition ascii_tables : Unicode := {|
  unicode_lower b := b; unicode_upper b := b; unicode_trim b := b;
  unicode_fold a b := bool_decide (a = b) |}.

(** Every byte below [utf8.RuneSelf]. *)
Definition ascii_only (b : bytes) : bool := forallb (λ c, Zbyte c <? 128) b.

Definition lower_byte (c : byte) : byte :=
  let z := Zbyte c in if (65 <=? z) && (z <=? 90) then byteZ (z + 32) else c.
Definition upper_byte (c : byte) : byte :=
  let z := Zbyte c in if (97 <=? z) && (z <=? 122) then byteZ (z - 32) else c.

(** Tab, newline, vertical tab, form feed, carriage return, space. *)
Definition is_space (c : byte) : bool :=
  let z := Zbyte c in ((9 <=? z) && (z <=? 13)) || (z =? 32).

Fixpoint drop_while {A} (p : A → bool) (l : list A) : list A :=
  match l with
  | [] => []
  | x :: l' => if p x then drop_while p l' else l
  end.

Definition trim_both {A} (p : A → bool) (l : list A) : list A :=
  reverse (drop_while p (reverse (drop_while p l))).

(** Drop every occurrence of one byte: [ReplaceAll(s, c, "")]. *)
Definition remove_byte (c : byte) (b : bytes) : bytes := filter (λ x, x ≠ c) b.

(** [TrimRight(s, c)] for a one-byte cutset. *)
Definition TrimRight (c : byte) (b : bytes) : bytes :=
  reverse (drop_while (λ x, bool_decide (x = c)) (reverse b)).

(** [TrimPrefix(s, c)] for a one-byte prefix. *)
Definition TrimPrefix (c : byte) (b : bytes) : bytes :=
  match b with
  | x :: b' => if bool_decide (x = c) then b' else b
  | [] => []
  end.

(** [Split(s, c)] for a one-byte separator: at least one part. *)
Fixpoint Split (c : byte) (b : bytes) : list bytes :=
  match b with
  | [] => [[]]
  | x :: b' =>
      let parts := Split c b' in
      if bool_decide (x = c) then [] :: parts
      else match parts with p :: ps => (x :: p) :: ps | [] => [[x]] end
  end.

Section unicode.
Context `{Unicode}.

Definition ToLower (b : bytes) : bytes :=
  if ascii_only b then lower_byte <$> b else unicode_lower b.
Definition ToUpper (b : bytes) : bytes :=
  if ascii_only b then upper_byte <$> b else unicode_upper b.
Definition TrimSpace (b : bytes) : bytes :=
  if ascii_only b then trim_both is_space b else unicode_trim b.
Definition EqualFold (a b : bytes) : bool :=
  if ascii_only a && ascii_only b then bool_decide (lower_byte <$> a = lower_byte <$> b)
  else unicode_fold a b.
End unicode.

(** ** Lemmas *)

Lemma drop_while_none {A} (p : A → bool) l :
  (∀ x, head l = Some x → p x = false) → drop_while p l = l.
Proof. destruct l as [|x l]; [done|]. simpl. intros Hx. by rewrite (Hx x). Qed.

Lemma trim_both_none {A} (p : A → bool) l : Forall (λ x, p x = false) l → trim_both p l = l.
Proof.
  intros Hl. unfold trim_both. rewrite (drop_while_none p l), drop_while_none, reverse_involutive; [done|..].
  - intros x Hx. apply Forall_reverse in Hl. destruct (reverse l) as [|y k]; [done|].
    apply Forall_cons in Hl as [? _]. naive_solver.
  - intros x Hx. destruct l as [|y k]; [done|]. apply Forall_cons in Hl as [? _]. naive_solver.
Qed.

Lemma remove_byte_none c b : Forall (λ x, x ≠ c) b → remove_byte c b = b.
Proof. apply filter_Forall. Qed.

Lemma TrimRight_none c b : Forall (λ x, x ≠ c) b → TrimRight c b = b.
Proof.
  intros Hb. unfold TrimRight. rewrite drop_while_none, reverse_involutive; [done|].
  intros x Hx. apply Forall_reverse in Hb. destruct (reverse b) as [|y k]; [done|].
  apply Forall_cons in Hb as [? _]. injection Hx as ->. by apply bool_decide_eq_false.
Qed.

(** Splitting at a separator the first part does not contain. *)
Lemma Split_app c p rest :
  Forall (λ x, x ≠ c) p → Split c (p ++ c :: rest) = p :: Split c rest.
Proof.
  induction 1 as [|x p Hx _ IH]; simpl.
  - by rewrite bool_decide_true.
  - by rewrite bool_decide_false, IH.
Qed.

Lemma Split_none c p : Forall (λ x, x ≠ c) p → Split c p = [p].
Proof.
  induction 1 as [|x p Hx _ IH]; simpl; [done|]. by rewrite bool_decide_false, IH.
Qed.
