(* ===== verification/Strconv.v ===== *)
(** * Go's [strconv], base 10

    [FormatInt], [ParseUint] and [ParseInt] with 64 bits, on byte strings.  A parse gives a
    number, or says that the text is not one, or that it is out of range, in which case
    there is a number all the same: the nearest bound. *)

From Stdlib Require Import Strings.Byte.
From S2P Require Import Prelude Bytes.

Definition digit (d : Z) : byte := byteZ (48 + d).

(** The digits of a natural number; the fuel is above the number of its digits. *)
Fixpoint digits (fuel : nat) (n : Z) (out : bytes) : bytes :=
  match fuel with
  | O => out
  | S fuel => if n <? 10 then digit n :: out else digits fuel (n / 10) (digit (n mod 10) :: out)
  end.
Definition FormatUint (n : Z) : bytes := digits (S (Z.to_nat (Z.log2 n))) n [].
Definition FormatInt (z : Z) : bytes := if z <? 0 then byteZ 45 :: FormatUint (- z) else FormatUint z.

Inductive number := NumOk (z : Z) | NumSyntax | NumRange (bound : Z).
Definition number_value (n : number) : Z := match n with NumOk z => z | NumSyntax => 0 | NumRange z => z end.
Definition number_result (n : number) : result Z := match n with NumOk z => Ok z | _ => Err other_error end.

Definition is_digit (c : byte) : bool := (48 <=? Zbyte c) && (Zbyte c <=? 57).
Fixpoint uint_loop (n : Z) (b : bytes) : number :=
  match b with
  | [] => NumOk n
  | c :: b =>
      if negb (is_digit c) then NumSyntax
      else
        let n := n * 10 + (Zbyte c - 48) in
        if 2 ^ 64 <=? n then NumRange (2 ^ 64 - 1) else uint_loop n b
  end.
Definition ParseUint (b : bytes) : number := if len b =? 0 then NumSyntax else uint_loop 0 b.

Definition ParseInt (b : bytes) : number :=
  match b with
  | [] => NumSyntax
  | c :: rest =>
      let neg := bool_decide (c = byteZ 45) in
      let digits := if neg || bool_decide (c = byteZ 43) then rest else b in
      match ParseUint digits with
      | NumSyntax => NumSyntax
      | NumOk un | NumRange un =>
          if negb neg && (2 ^ 63 <=? un) then NumRange (2 ^ 63 - 1)
          else if neg && (2 ^ 63 <? un) then NumRange (- 2 ^ 63)
          else NumOk (if neg then - un else un)
      end
  end.

(** ** Lemmas *)

Lemma Zbyte_digit d : 0 ≤ d < 10 → Zbyte (digit d) = 48 + d.
Proof. intros Hd. unfold digit. apply Zbyte_byteZ_small. lia. Qed.
Lemma is_digit_digit d : 0 ≤ d < 10 → is_digit (digit d) = true.
Proof. intros Hd. unfold is_digit. rewrite Zbyte_digit by done. apply andb_true_iff. split; apply Z.leb_le; lia. Qed.

Lemma digits_app fuel n out : digits fuel n out = digits fuel n [] ++ out.
Proof.
  revert n out. induction fuel as [|fuel IH]; intros n out; [done|]. cbn [digits]. destruct (n <? 10); [done|].
  rewrite IH, (IH (n / 10) [_]). by rewrite <- app_assoc.
Qed.

Lemma digits_all fuel n : 0 ≤ n → Forall (λ c, is_digit c = true) (digits fuel n []).
Proof.
  revert n. induction fuel as [|fuel IH]; intros n Hn; [constructor|]. cbn [digits]. destruct (Z.ltb_spec n 10).
  - repeat constructor. apply is_digit_digit. lia.
  - rewrite digits_app. apply Forall_app_2; [apply IH, Z.div_pos; lia|]. repeat constructor. apply is_digit_digit, Z.mod_pos_bound. lia.
Qed.

Lemma FormatUint_digits n : 0 ≤ n → Forall (λ c, is_digit c = true) (FormatUint n).
Proof. apply digits_all. Qed.
Lemma FormatUint_nonempty n : FormatUint n ≠ [].
Proof.
  unfold FormatUint. set (k := Z.to_nat _). clearbody k. cbn [digits]. destruct (n <? 10); [done|].
  rewrite digits_app. by destruct (digits k (n / 10) []).
Qed.

(** Reading the digits of a number builds it. *)
Lemma uint_digits fuel n rest :
  0 ≤ n < 2 ^ 64 → n < 10 ^ Z.of_nat fuel → uint_loop 0 (digits fuel n [] ++ rest) = uint_loop n rest.
Proof.
  revert n rest. induction fuel as [|fuel IH]; intros n rest Hn Hf; [cbn in Hf; by assert (n = 0) as -> by lia|].
  assert (∀ m d, 0 ≤ d < 10 → m * 10 + d < 2 ^ 64 → uint_loop m (digit d :: rest) = uint_loop (m * 10 + d) rest) as Hstep.
  { intros m d Hd Hm. cbn [uint_loop]. rewrite is_digit_digit, Zbyte_digit by done. cbn [negb].
    replace (48 + d - 48) with d by lia. by rewrite (proj2 (Z.leb_gt _ _)). }
  cbn [digits]. destruct (Z.ltb_spec n 10) as [Hlt|Hge].
  - cbn [app]. by rewrite Hstep by lia.
  - pose proof (Z.div_mod n 10 ltac:(lia)) as Hdm. pose proof (Z.mod_pos_bound n 10 ltac:(lia)) as Hmod.
    rewrite digits_app, <- app_assoc. cbn [app]. rewrite IH, Hstep; [f_equal; lia | done | lia | lia |].
    rewrite Nat2Z.inj_succ, Z.pow_succ_r in Hf by lia. apply Z.div_lt_upper_bound; lia.
Qed.

Lemma ParseUint_FormatUint n : 0 ≤ n < 2 ^ 64 → ParseUint (FormatUint n) = NumOk n.
Proof.
  intros Hn. unfold ParseUint. pose proof (FormatUint_nonempty n) as Hne. destruct (Z.eqb_spec (len (FormatUint n)) 0) as [Hz|_].
  { destruct (FormatUint n); [done|]. rewrite len_cons in Hz. pose proof (len_nonneg l). lia. }
  unfold FormatUint. rewrite <- (app_nil_r (digits _ n [])), uint_digits; [done | done|].
  rewrite Nat2Z.inj_succ, Z2Nat.id by apply Z.log2_nonneg. destruct (Z.eq_dec n 0) as [->|Hz]; [done|].
  pose proof (Z.log2_spec n ltac:(lia)) as [_ Hl]. eapply Z.lt_le_trans; [exact Hl|]. apply Z.pow_le_mono_l. lia.
Qed.

(** Printing and parsing: every [int64] is read back, the least one included. *)
Lemma ParseInt_FormatInt z : - 2 ^ 63 ≤ z < 2 ^ 63 → ParseInt (FormatInt z) = NumOk z.
Proof.
  intros Hz. unfold FormatInt. destruct (Z.ltb_spec z 0) as [Hneg|Hpos].
  - unfold ParseInt. rewrite bool_decide_true by done. cbn [orb negb andb]. rewrite ParseUint_FormatUint by lia.
    rewrite (proj2 (Z.ltb_ge _ _)) by lia. f_equal. lia.
  - pose proof (FormatUint_digits z Hpos) as Hd. pose proof (ParseUint_FormatUint z ltac:(lia)) as Hp. unfold ParseInt.
    pose proof (FormatUint_nonempty z) as Hne. destruct (FormatUint z) as [|c b]; [done|].
    apply Forall_cons in Hd as [Hc _]. assert (c ≠ byteZ 45 ∧ c ≠ byteZ 43) as [H1 H2] by (split; by intros ->).
    rewrite !bool_decide_false by done. cbn [orb negb andb]. rewrite Hp, (proj2 (Z.leb_gt _ _)) by lia. done.
Qed.

Example strconv_examples :
  (ParseInt (sbytes "-9223372036854775808"), ParseInt (sbytes "9223372036854775808"), ParseInt (sbytes "+07"),
   ParseInt (sbytes "-"), ParseInt (sbytes "1_0"), ParseInt (sbytes "99999999999999999999999x")) =
  (NumOk (- 2 ^ 63), NumRange (2 ^ 63 - 1), NumOk 7, NumSyntax, NumSyntax, NumRange (2 ^ 63 - 1)).
Proof. by vm_compute. Qed.
