(* ===== verification/Sha.v ===== *)
(** * SHA-256, SHA-1, HMAC and hexadecimal

    [crypto/sha256], [crypto/sha1], [crypto/hmac] and [encoding/hex], as the token hashing
    of [internal/auth], the codes of [pkg/totp], the ratchet of [pkg/e2e] and the signed URLs
    of [internal/media] use them: the FIPS 180-4 functions on
    byte strings, executable, checked against the published vectors. *)

From S2P Require Import Prelude Bytes.

(** ** SHA-256 *)

Definition sha256_K : list Z :=
  [1116352408; 1899447441; 3049323471; 3921009573; 961987163; 1508970993;
   2453635748; 2870763221; 3624381080; 310598401; 607225278; 1426881987;
   1925078388; 2162078206; 2614888103; 3248222580; 3835390401; 4022224774;
   264347078; 604807628; 770255983; 1249150122; 1555081692; 1996064986;
   2554220882; 2821834349; 2952996808; 3210313671; 3336571891; 3584528711;
   113926993; 338241895; 666307205; 773529912; 1294757372; 1396182291;
   1695183700; 1986661051; 2177026350; 2456956037; 2730485921; 2820302411;
   3259730800; 3345764771; 3516065817; 3600352804; 4094571909; 275423344;
   430227734; 506948616; 659060556; 883997877; 958139571; 1322822218;
   1537002063; 1747873779; 1955562222; 2024104815; 2227730452; 2361852424;
   2428436474; 2756734187; 3204031479; 3329325298].

Definition sha256_H0 : list Z :=
  [1779033703; 3144134277; 1013904242; 2773480762; 1359893119; 2600822924;
   528734635; 1541459225].

Definition rotr32 (n x : Z) : Z := Z.lor (Z.shiftr x n) (u32 (Z.shiftl x (32 - n))).

Definition Ch (x y z : Z) : Z := Z.lxor (Z.land x y) (Z.land (Z.lxor x 4294967295) z).
Definition Maj (x y z : Z) : Z := Z.lxor (Z.lxor (Z.land x y) (Z.land x z)) (Z.land y z).
Definition Sigma0 (x : Z) : Z := Z.lxor (Z.lxor (rotr32 2 x) (rotr32 13 x)) (rotr32 22 x).
Definition Sigma1 (x : Z) : Z := Z.lxor (Z.lxor (rotr32 6 x) (rotr32 11 x)) (rotr32 25 x).
Definition sigma0 (x : Z) : Z := Z.lxor (Z.lxor (rotr32 7 x) (rotr32 18 x)) (Z.shiftr x 3).
Definition sigma1 (x : Z) : Z := Z.lxor (Z.lxor (rotr32 17 x) (rotr32 19 x)) (Z.shiftr x 10).

(** The message with its [1] bit, zeros and 64-bit length. *)
Definition sha_pad (m : bytes) : bytes :=
  m ++ byteZ 128 :: replicate (Z.to_nat ((55 - len m) mod 64)) (byteZ 0) ++ be_put 8 (8 * len m).

(** The 32-bit words of a block. *)
Fixpoint words (n : nat) (b : bytes) : list Z :=
  match n with
  | O => []
  | S n => be_get (take 4 b) :: words n (drop 4 b)
  end.

(** The message schedule; the list is held newest word first. *)
Fixpoint schedule (n : nat) (w : list Z) : list Z :=
  match n with
  | O => reverse w
  | S n =>
      schedule n (u32 (sigma1 (nth 1 w 0) + nth 6 w 0 + sigma0 (nth 14 w 0) + nth 15 w 0) :: w)
  end.

Definition sha_round (s : list Z) (kw : Z * Z) : list Z :=
  match s with
  | [a; b; c; d; e; f; g; h] =>
      let t1 := h + Sigma1 e + Ch e f g + kw.1 + kw.2 in
      let t2 := Sigma0 a + Maj a b c in
      [u32 (t1 + t2); a; b; c; u32 (d + t1); e; f; g]
  | _ => s
  end.

Definition sha_block (h : list Z) (block : bytes) : list Z :=
  let w := schedule 48 (reverse (words 16 block)) in
  zip_with (λ x y, u32 (x + y)) h (foldl sha_round h (zip sha256_K w)).

(** [n] blocks of 64 bytes. *)
Fixpoint sha_blocks (n : nat) (h : list Z) (m : bytes) : list Z :=
  match n with
  | O => h
  | S n => sha_blocks n (sha_block h (take 64 m)) (drop 64 m)
  end.

Definition sha256_Sum256 (m : bytes) : bytes :=
  let p := sha_pad m in
  concat (be_put 4 <$> sha_blocks (length p / 64) sha256_H0 p).

(** ** SHA-1 *)

Definition rotl32 (n x : Z) : Z := Z.lor (u32 (Z.shiftl x n)) (Z.shiftr x (32 - n)).

Fixpoint sha1_schedule (n : nat) (w : list Z) : list Z :=
  match n with
  | O => reverse w
  | S n =>
      sha1_schedule n
        (rotl32 1 (Z.lxor (Z.lxor (nth 2 w 0) (nth 7 w 0)) (Z.lxor (nth 13 w 0) (nth 15 w 0))) :: w)
  end.

(** Round [t]: the function and the constant. *)
Definition sha1_f (t : nat) (b c d : Z) : Z * Z :=
  if (t <? 20)%nat then (Ch b c d, 1518500249)
  else if (t <? 40)%nat then (Z.lxor (Z.lxor b c) d, 1859775393)
  else if (t <? 60)%nat then (Maj b c d, 2400959708)
  else (Z.lxor (Z.lxor b c) d, 3395469782).

Definition sha1_round (s : list Z) (tw : nat * Z) : list Z :=
  match s with
  | [a; b; c; d; e] =>
      let '(f, k) := sha1_f tw.1 b c d in
      [u32 (rotl32 5 a + f + e + k + tw.2); a; rotl32 30 b; c; d]
  | _ => s
  end.

Definition sha1_block (h : list Z) (block : bytes) : list Z :=
  let w := sha1_schedule 64 (reverse (words 16 block)) in
  zip_with (λ x y, u32 (x + y)) h (foldl sha1_round h (zip (seq 0 80) w)).

Fixpoint sha1_blocks (n : nat) (h : list Z) (m : bytes) : list Z :=
  match n with
  | O => h
  | S n => sha1_blocks n (sha1_block h (take 64 m)) (drop 64 m)
  end.

Definition sha1_H0 : list Z := [1732584193; 4023233417; 2562383102; 271733878; 3285377520].

Definition sha1_Sum (m : bytes) : bytes :=
  let p := sha_pad m in
  concat (be_put 4 <$> sha1_blocks (length p / 64) sha1_H0 p).

(** [hmac.New(sha1.New, key)] over one message. *)
Definition hmac_sha1 (key msg : bytes) : bytes :=
  let key := if 64 <? len key then sha1_Sum key else key in
  let key := key ++ replicate (64 - length key) (byteZ 0) in
  let pad v := (λ b, byteZ (Z.lxor (Zbyte b) v)) <$> key in
  sha1_Sum (pad 92 ++ sha1_Sum (pad 54 ++ msg)).

(** [hmac.New(sha256.New, key)] over one message. *)
Definition hmac_sha256 (key msg : bytes) : bytes :=
  let key := if 64 <? len key then sha256_Sum256 key else key in
  let key := key ++ replicate (64 - length key) (byteZ 0) in
  let pad v := (λ b, byteZ (Z.lxor (Zbyte b) v)) <$> key in
  sha256_Sum256 (pad 92 ++ sha256_Sum256 (pad 54 ++ msg)).

(** ** Hexadecimal *)

Definition hex_digit (v : Z) : byte := byteZ (if v <? 10 then 48 + v else 87 + v).

Definition hex_EncodeToString (b : bytes) : string :=
  bstring (concat ((λ x, [hex_digit (Z.shiftr (Zbyte x) 4); hex_digit (Z.land (Zbyte x) 15)]) <$> b)).

(** ** Checks *)

Example sha256_empty :
  hex_EncodeToString (sha256_Sum256 []) =
  "e3b0c44298fc1c149afbf4c8996fb92427ae41e4649b934ca495991b7852b855".
Proof. by vm_compute. Qed.

Example sha256_abc :
  hex_EncodeToString (sha256_Sum256 (sbytes "abc")) =
  "ba7816bf8f01cfea414140de5dae2223b00361a396177a9cb410ff61f20015ad".
Proof. by vm_compute. Qed.

Example sha256_two_blocks :
  hex_EncodeToString
    (sha256_Sum256 (sbytes "abcdbcdecdefdefgefghfghighijhijkijkljklmklmnlmnomnopnopq")) =
  "248d6a61d20638b8e5c026930c3e6039a33ce45964ff2167f6ecedd419db06c1".
Proof. by vm_compute. Qed.

Example sha1_abc :
  hex_EncodeToString (sha1_Sum (sbytes "abc")) = "a9993e364706816aba3e25717850c26c9cd0d89d".
Proof. by vm_compute. Qed.

(** RFC 2202, test case 2. *)
Example hmac_jefe :
  hex_EncodeToString (hmac_sha1 (sbytes "Jefe") (sbytes "what do ya want for nothing?")) =
  "effcdf6ae5eb2fa2d27416d5f184df9c259a7c79".
Proof. by vm_compute. Qed.

Lemma length_sha1_blocks n m : length (sha1_blocks n sha1_H0 m) = 5%nat.
Proof.
  assert (∀ h, length h = 5%nat → length (sha1_blocks n h m) = 5%nat) as Hn; [|by apply Hn].
  revert m. induction n as [|n IH]; intros m h Hh; [done|]. cbn [sha1_blocks]. apply IH.
  unfold sha1_block. rewrite length_zip_with.
  assert (∀ l s, length s = 5%nat → length (foldl sha1_round s l) = 5%nat) as Hf.
  { induction l as [|x l IHl]; intros s Hs; [done|]. cbn [foldl]. apply IHl.
    destruct s as [|? [|? [|? [|? [|? []]]]]]; try done. unfold sha1_round.
    by destruct (sha1_f _ _ _ _). }
  rewrite Hf by done. lia.
Qed.

Lemma length_sha1_Sum m : length (sha1_Sum m) = 20%nat.
Proof.
  unfold sha1_Sum. pose proof (length_sha1_blocks (length (sha_pad m) / 64) (sha_pad m)) as Hl.
  destruct (sha1_blocks _ _ _) as [|? [|? [|? [|? [|? []]]]]]; try done.
Qed.
