(* ===== verification/Totp.v ===== *)
(** * Time-based one-time passwords

    [pkg/totp] totp.go, with [encoding/base32]'s unpadded standard encoding.  Times are
    unix seconds.  [ProvisioningURI], which only formats, is not modelled. *)

From Stdlib Require Import Strings.Byte.
From S2P Require Import Prelude Bytes GoStrings Base64 Sha.

(** ** base32.StdEncoding.WithPadding(base32.NoPadding) *)

Definition b32_char (v : Z) : byte := byteZ (if v <? 26 then 65 + v else 24 + v).

Definition b32_val (c : byte) : option Z :=
  let z := Zbyte c in
  if (65 <=? z) && (z <=? 90) then Some (z - 65)
  else if (50 <=? z) && (z <=? 55) then Some (z - 24) else None.

(** The first [n] five-bit groups of a 40-bit quantum. *)
Fixpoint b32_groups (n : nat) (shift v : Z) : list Z :=
  match n with
  | O => []
  | S n => (v / 2 ^ shift) mod 32 :: b32_groups n (shift - 5) v
  end.

(** Up to five bytes at the top of a 40-bit quantum. *)
Definition quantum5 (b : bytes) : Z := be_get b * 2 ^ (8 * (5 - len b)).

Fixpoint b32_encode (src : bytes) : bytes :=
  match src with
  | [] => []
  | [a] => b32_char <$> b32_groups 2 35 (quantum5 [a])
  | [a; b] => b32_char <$> b32_groups 4 35 (quantum5 [a; b])
  | [a; b; c] => b32_char <$> b32_groups 5 35 (quantum5 [a; b; c])
  | [a; b; c; d] => b32_char <$> b32_groups 7 35 (quantum5 [a; b; c; d])
  | a :: b :: c :: d :: e :: rest =>
      (b32_char <$> b32_groups 8 35 (quantum5 [a; b; c; d; e])) ++ b32_encode rest
  end.

(** The quantum of up to eight groups. *)
Fixpoint b32_join (shift : Z) (ds : list Z) : Z :=
  match ds with
  | [] => 0
  | d :: ds => d * 2 ^ shift + b32_join (shift - 5) ds
  end.

(** How many bytes a quantum of [n] characters carries. *)
Definition b32_bytes (n : nat) : nat :=
  match n with
  | 8%nat => 5 | 7%nat => 4 | 5%nat => 3 | 4%nat => 2 | 2%nat => 1 | _ => 0
  end.

Definition b32_quantum (cs : bytes) : option bytes :=
  ds ← mapM b32_val cs;
  Some (take (b32_bytes (length cs)) (be_put 5 (b32_join 35 ds))).

Fixpoint b32_decode (src : bytes) : option bytes :=
  match src with
  | [] => Some []
  | c0 :: c1 :: c2 :: c3 :: c4 :: c5 :: c6 :: c7 :: rest =>
      q ← b32_quantum [c0; c1; c2; c3; c4; c5; c6; c7];
      r ← b32_decode rest;
      Some (q ++ r)
  | _ => b32_quantum src
  end.

Definition b32_DecodeString (s : bytes) : option bytes := b32_decode (filter not_newline s).

(** ** The codes *)

Definition digits : Z := 6.
Definition period : Z := 30.
Definition secretBytes : nat := 20.

(** [rand.Read] of [secretBytes] bytes, or its failure. *)
Definition GenerateSecret (rand : option bytes) : result bytes :=
  match rand with
  | None => Err rand_error
  | Some b => Ok (b32_encode b)
  end.

(** [fmt.Sprintf("%0*d", 6, v)] for [0 <= v < 10^6]. *)
Definition six_digits (v : Z) : bytes :=
  (λ k, byteZ (48 + v / 10 ^ k mod 10)) <$> [5; 4; 3; 2; 1; 0].

Definition codeAtCounter (key : bytes) (counter : Z) : bytes :=
  let sum := hmac_sha1 key (be_put 8 counter) in
  let offset := Z.land (Zbyte (nth (length sum - 1) sum (byteZ 0))) 15 in
  let truncated := Z.land (be_get (ztake 4 (zdrop offset sum))) 2147483647 in
  six_digits (truncated mod 10 ^ digits).

(** ** The provisioning URI

    [url.PathEscape] and [url.QueryEscape]; [Values.Encode] sorts by key. *)

Definition url_unreserved (c : byte) : bool :=
  let z := Zbyte c in
  ((97 <=? z) && (z <=? 122)) || ((65 <=? z) && (z <=? 90)) || ((48 <=? z) && (z <=? 57))
  || existsb (Z.eqb z) [45; 95; 46; 126].
Definition upper_hex (v : Z) : byte := byteZ (if v <? 10 then 48 + v else 55 + v).
Definition percent (c : byte) : bytes :=
  [byteZ 37; upper_hex (Z.shiftr (Zbyte c) 4); upper_hex (Z.land (Zbyte c) 15)].
(** In a path segment [$ & + : = @] stand for themselves. *)
Definition PathEscape (s : bytes) : bytes :=
  concat ((λ c, if url_unreserved c || existsb (Z.eqb (Zbyte c)) [36; 38; 43; 58; 61; 64]
                then [c] else percent c) <$> s).
Definition QueryEscape (s : bytes) : bytes :=
  concat ((λ c, if Zbyte c =? 32 then [byteZ 43]
                else if url_unreserved c then [c] else percent c) <$> s).

Definition ProvisioningURI (issuer account secret : bytes) : bytes :=
  sbytes "otpauth://totp/" ++ PathEscape (issuer ++ sbytes ":" ++ account)
  ++ sbytes "?algorithm=SHA1&digits=6&issuer=" ++ QueryEscape issuer
  ++ sbytes "&period=30&secret=" ++ QueryEscape secret.

Section totp.
Context `{Unicode}.

Definition decodeSecret (secret : bytes) : result bytes :=
  let s := ToUpper (remove_byte (byteZ 32) (TrimSpace secret)) in
  let s := TrimRight (byteZ 61) s in
  match b32_DecodeString s with
  | None | Some [] => Err totp_error
  | Some key => Ok key
  end.

Definition Code (secret : bytes) (at_ : Z) : result bytes :=
  match decodeSecret secret with
  | Err e => Err e
  | Ok key => Ok (codeAtCounter key (u64 at_ / period))
  end.

Definition Verify (secret code : bytes) (now : Z) : bool :=
  let code := TrimSpace code in
  if negb (len code =? digits) then false
  else
    match decodeSecret secret with
    | Err _ => false
    | Ok key =>
        let counter := u64 now / period in
        existsb (λ delta,
          let c := i64 counter + delta in
          (0 <=? c) && bool_decide (codeAtCounter key (u64 c) = code)) [0; -1; 1]
    end.
End totp.

(** ** Lemmas *)

Lemma b32_char_spec v : 0 ≤ v < 32 →
  b32_val (b32_char v) = Some v ∧ Zbyte (b32_char v) < 128 ∧ is_space (b32_char v) = false ∧
  upper_byte (b32_char v) = b32_char v ∧ b32_char v ≠ byteZ 61 ∧ b32_char v ≠ byteZ 32 ∧
  not_newline (b32_char v).
Proof.
  apply (seqZ_forall (λ v, b32_val (b32_char v) = Some v ∧ Zbyte (b32_char v) < 128 ∧
    is_space (b32_char v) = false ∧ upper_byte (b32_char v) = b32_char v ∧
    b32_char v ≠ byteZ 61 ∧ b32_char v ≠ byteZ 32 ∧ not_newline (b32_char v)) 0 32).
  by vm_compute.
Qed.

Lemma b32_join_groups n s v :
  5 * Z.of_nat n ≤ s + 5 →
  b32_join s (b32_groups n s v) = v mod 2 ^ (s + 5) - v mod 2 ^ (s + 5 - 5 * Z.of_nat n).
Proof.
  revert s. induction n as [|n IH]; intros s Hs.
  { cbn [b32_groups b32_join]. rewrite Z.sub_0_r. lia. }
  cbn [b32_groups b32_join]. rewrite IH by lia.
  replace (s - 5 + 5) with s by lia.
  replace (s + 5 - 5 * Z.of_nat (S n)) with (s - 5 * Z.of_nat n) by lia.
  rewrite (Z.pow_add_r 2 s 5) by lia. rewrite Z.rem_mul_r by (try apply Z.pow_nonzero; lia).
  change (2 ^ 5) with 32. lia.
Qed.

Lemma b32_groups_range n s v : Forall (λ d, 0 ≤ d < 32) (b32_groups n s v).
Proof.
  revert s. induction n as [|n IH]; intros s; constructor; [apply Z.mod_pos_bound; lia | apply IH].
Qed.

Lemma length_b32_groups n s v : length (b32_groups n s v) = n.
Proof. revert s. induction n as [|n IH]; intros s; simpl; [done|]. by rewrite IH. Qed.

Lemma mapM_b32 ds : Forall (λ d, 0 ≤ d < 32) ds → mapM b32_val (b32_char <$> ds) = Some ds.
Proof.
  induction 1 as [|d ds Hd _ IH]; [done|]. rewrite fmap_cons. cbn [mapM].
  rewrite (proj1 (b32_char_spec d Hd)). cbn [mbind option_bind]. by rewrite IH.
Qed.

(** Zero bytes at the end scale the value. *)
Lemma be_get_pad b j : be_get b * 2 ^ (8 * Z.of_nat j) = be_get (b ++ replicate j (byteZ 0)).
Proof.
  induction b as [|x b IH]; cbn [app be_get].
  - induction j as [|j IHj]; [done|]. cbn [replicate be_get]. change (Zbyte (byteZ 0)) with 0. lia.
  - rewrite <- IH, len_app. replace (len (replicate j (byteZ 0))) with (Z.of_nat j)
      by (unfold len; by rewrite length_replicate).
    rewrite Z.mul_add_distr_l, Z.pow_add_r by (pose proof (len_nonneg b); lia). lia.
Qed.

(** A quantum of [k] bytes comes back from its [n] characters. *)
Lemma b32_quantum_encode n b :
  len b ≤ 5 → Z.of_nat n ≤ 8 → 8 * len b ≤ 5 * Z.of_nat n → b32_bytes n = length b →
  b32_quantum (b32_char <$> b32_groups n 35 (quantum5 b)) = Some b.
Proof.
  intros Hb Hn Hbits Hk. unfold b32_quantum. rewrite mapM_b32 by apply b32_groups_range.
  cbn [mbind option_bind]. rewrite length_fmap, length_b32_groups, Hk. f_equal.
  rewrite b32_join_groups by lia. change (35 + 5) with 40.
  set (k := len b) in *. assert (0 ≤ k) by apply len_nonneg.
  pose proof (be_get_range b) as Hr. fold k in Hr. unfold quantum5. fold k.
  assert ((be_get b * 2 ^ (8 * (5 - k))) mod 2 ^ (40 - 5 * Z.of_nat n) = 0) as ->.
  { replace (8 * (5 - k)) with ((5 * Z.of_nat n - 8 * k) + (40 - 5 * Z.of_nat n)) by lia.
    rewrite Z.pow_add_r, Z.mul_assoc by lia. apply Z.mod_mul, Z.pow_nonzero; lia. }
  rewrite Z.sub_0_r, Z.mod_small; cycle 1.
  { split; [apply Z.mul_nonneg_nonneg; [lia | apply Z.pow_nonneg; lia]|].
    replace 40 with (8 * k + 8 * (5 - k)) by lia. rewrite Z.pow_add_r by lia.
    apply Z.mul_lt_mono_pos_r; [apply Z.pow_pos_nonneg; lia | lia]. }
  clear Hr Hbits Hk Hn. unfold k in *. clear k.
  replace (8 * (5 - len b)) with (8 * Z.of_nat (5 - length b)) by (unfold len in *; lia).
  rewrite be_get_pad. set (l := b ++ _).
  assert (length l = 5%nat) as Hl by (unfold l; rewrite length_app, length_replicate; unfold len in *; lia).
  rewrite <- Hl, be_put_get. unfold l. by rewrite take_app_length.
Qed.

(** Induction by quanta of five bytes. *)
Lemma bytes_ind5 (P : bytes → Prop) :
  (∀ l, (length l < 5)%nat → P l) → (∀ a b c d e l, P l → P (a :: b :: c :: d :: e :: l)) → ∀ l, P l.
Proof.
  intros H0 H5. fix IH 1.
  intros [|a [|b [|c [|d [|e l]]]]]; [apply H0; simpl; lia..|]. apply H5, IH.
Qed.

Lemma b32_decode_encode src : b32_decode (b32_encode src) = Some src.
Proof.
  induction src as [l Hl|a b c d e l IH] using bytes_ind5.
  - destruct l as [|a [|b [|c [|d [|e l]]]]]; [done|..|simpl in Hl; lia]; cbn [b32_encode].
    + apply (b32_quantum_encode 2 [a]); done.
    + apply (b32_quantum_encode 4 [a; b]); done.
    + apply (b32_quantum_encode 5 [a; b; c]); done.
    + apply (b32_quantum_encode 7 [a; b; c; d]); done.
  - cbn [b32_encode].
    pose proof (b32_quantum_encode 8 [a; b; c; d; e] ltac:(done) ltac:(done) ltac:(done) eq_refl) as Hq.
    pose proof (length_b32_groups 8 35 (quantum5 [a; b; c; d; e])) as Hlen.
    destruct (b32_groups 8 35 _) as [|g0 [|g1 [|g2 [|g3 [|g4 [|g5 [|g6 [|g7 []]]]]]]]]; try done.
    rewrite !fmap_cons, fmap_nil in *. cbn [app b32_decode]. rewrite Hq. cbn [mbind option_bind].
    by rewrite IH.
Qed.

Lemma b32_encode_chars src : Forall (λ c, ∃ v, 0 ≤ v < 32 ∧ c = b32_char v) (b32_encode src).
Proof.
  assert (∀ n s v, Forall (λ c, ∃ v, 0 ≤ v < 32 ∧ c = b32_char v) (b32_char <$> b32_groups n s v)) as Hg.
  { intros. rewrite Forall_fmap. eapply Forall_impl; [apply b32_groups_range|]. simpl. eauto. }
  induction src as [l Hl|a b c d e l IH] using bytes_ind5.
  - destruct l as [|a [|b [|c [|d [|e l]]]]]; [constructor|apply Hg..|simpl in Hl; lia].
  - cbn [b32_encode]. apply Forall_app. split; [apply Hg | apply IH].
Qed.

Section proofs.
Context `{Unicode}.

(** Text of base32 characters is left as it is by every clean-up step. *)
Lemma decodeSecret_clean s :
  Forall (λ c, ∃ v, 0 ≤ v < 32 ∧ c = b32_char v) s →
  decodeSecret s = match b32_decode s with
                   | None | Some [] => Err totp_error
                   | Some key => Ok key end.
Proof.
  intros Hs.
  assert (∀ P : byte → Prop, (∀ v, 0 ≤ v < 32 → P (b32_char v)) → Forall P s) as Hall.
  { intros P HP. eapply Forall_impl; [exact Hs|]. intros c (v & Hv & ->). by apply HP. }
  assert (ascii_only s = true) as Ha.
  { apply forallb_forall. intros c Hc. apply Z.ltb_lt.
    pose proof (Hall (λ c, Zbyte c < 128)) as Hf. rewrite Forall_forall in Hf. apply Hf.
    - intros v Hv. by apply b32_char_spec.
    - by apply list_elem_of_In. }
  unfold decodeSecret, TrimSpace. rewrite Ha, trim_both_none.
  2:{ apply Hall. intros v Hv. by apply b32_char_spec. }
  rewrite remove_byte_none.
  2:{ apply Hall. intros v Hv. by apply b32_char_spec. }
  unfold ToUpper. rewrite Ha. assert (upper_byte <$> s = s) as ->.
  { rewrite <- (list_fmap_id s) at 2. apply list_fmap_ext. intros i c Hc.
    apply (Forall_lookup_1 (λ c, upper_byte c = c) s i); [|done].
    apply Hall. intros v Hv. by apply b32_char_spec. }
  rewrite TrimRight_none.
  2:{ apply Hall. intros v Hv. by apply b32_char_spec. }
  unfold b32_DecodeString. rewrite filter_Forall; [done|].
  apply Hall. intros v Hv. by apply b32_char_spec.
Qed.

Lemma decodeSecret_encode b : b ≠ [] → decodeSecret (b32_encode b) = Ok b.
Proof.
  intros Hb. rewrite decodeSecret_clean by apply b32_encode_chars. rewrite b32_decode_encode.
  by destruct b.
Qed.

(** A generated secret decodes to the bytes it was made of: what the authenticator
    scans and what the server verifies with are the same key. *)
Theorem decodeSecret_GenerateSecret b :
  length b = secretBytes → ∃ s, GenerateSecret (Some b) = Ok s ∧ decodeSecret s = Ok b.
Proof.
  intros Hb. exists (b32_encode b). split; [done|]. apply decodeSecret_encode. by intros ->.
Qed.

Lemma six_digits_spec v :
  length (six_digits v) = 6%nat ∧ Forall (λ c, 48 ≤ Zbyte c < 58) (six_digits v).
Proof.
  split; [done|]. unfold six_digits. rewrite Forall_fmap. apply Forall_forall. intros k _. simpl.
  pose proof (Z.mod_pos_bound (v / 10 ^ k) 10 ltac:(lia)). rewrite Zbyte_byteZ_small; lia.
Qed.

Lemma codeAtCounter_digits key c :
  length (codeAtCounter key c) = 6%nat ∧ Forall (λ c, 48 ≤ Zbyte c < 58) (codeAtCounter key c).
Proof. unfold codeAtCounter. apply six_digits_spec. Qed.
#[local] Opaque codeAtCounter.

Lemma TrimSpace_digits s : Forall (λ c, 48 ≤ Zbyte c < 58) s → TrimSpace s = s.
Proof.
  intros Hs. unfold TrimSpace. assert (ascii_only s = true) as ->.
  { apply forallb_forall. intros c Hc. apply Z.ltb_lt. rewrite Forall_forall in Hs.
    apply list_elem_of_In in Hc. apply Hs in Hc. lia. }
  apply trim_both_none. eapply Forall_impl; [exact Hs|]. intros c Hc. unfold is_space. simpl in Hc.
  apply orb_false_iff. split; [apply andb_false_iff; right|]; lia.
Qed.

(** The step a moment falls in, for the next 2^60 years. *)
Definition step (t : Z) : Z := t / period.

Lemma Verify_spec secret key code now :
  decodeSecret secret = Ok key → 0 ≤ now < 2 ^ 63 →
  Verify secret code now = true ↔
  len (TrimSpace code) = digits ∧
  ∃ c, 0 ≤ c ∧ step now - 1 ≤ c ≤ step now + 1 ∧ codeAtCounter key c = TrimSpace code.
Proof.
  intros Hk Hn. unfold Verify. rewrite Hk.
  assert (0 ≤ step now < 2 ^ 62) as Hs.
  { unfold step, period. split; [apply Z.div_pos; lia | apply Z.div_lt_upper_bound; lia]. }
  rewrite (u64_small now) by lia. fold (step now). rewrite i64_small by lia.
  destruct (Z.eqb_spec (len (TrimSpace code)) digits) as [Hl|Hl]; cbn [negb].
  2:{ split; [done | by intros [? _]]. }
  rewrite existsb_exists. split.
  - intros (d & Hd & [Hc Heq]%andb_true_iff). bool_to_prop. split; [done|].
    exists (step now + d). simpl in Hd. rewrite u64_small in Heq by lia. split_and!; [lia..|done].
  - intros (_ & c & Hc & Hw & Heq). exists (c - step now). split.
    + simpl. lia.
    + apply andb_true_iff. split; [lia|]. apply bool_decide_eq_true.
      replace (step now + (c - step now)) with c by lia. by rewrite u64_small by lia.
Qed.

(** A code is accepted exactly in its own time step and the two next to it: [Verify]
    accepts a text iff, trimmed, it is the code of a step at most one away. *)
Theorem Verify_window secret key code now :
  decodeSecret secret = Ok key → 0 ≤ now < 2 ^ 63 →
  Verify secret code now = true ↔
  ∃ c, 0 ≤ c ∧ step now - 1 ≤ c ≤ step now + 1 ∧ codeAtCounter key c = TrimSpace code.
Proof.
  intros Hk Hn. rewrite (Verify_spec secret key) by done. split.
  - intros [_ Hc]. exact Hc.
  - intros (c & Hc & Hw & Heq). split; [|by exists c]. rewrite <- Heq. unfold len.
    by rewrite (proj1 (codeAtCounter_digits key c)).
Qed.

(** The code an authenticator shows is accepted while the clocks are within one step. *)
Lemma Verify_Code secret key at_ now code :
  decodeSecret secret = Ok key → 0 ≤ at_ < 2 ^ 63 → 0 ≤ now < 2 ^ 63 →
  Code secret at_ = Ok code → Z.abs (step now - step at_) ≤ 1 → Verify secret code now = true.
Proof.
  intros Hk Ha Hn Hc Hd. unfold Code in Hc. rewrite Hk in Hc. injection Hc as <-.
  rewrite u64_small by lia. fold (step at_). apply (Verify_spec secret key); [done..|].
  destruct (codeAtCounter_digits key (step at_)) as [Hl Hdig].
  rewrite TrimSpace_digits by exact Hdig. split; [unfold len; by rewrite Hl|].
  exists (step at_). split; [apply Z.div_pos; [lia | done]|]. split; [lia | done].
Qed.
End proofs.

(** ** Checks and witnesses *)

Section witnesses.
(** No text outside ASCII. *)
#[local] Existing Instance ascii_tables.

Definition rfc_key : bytes := sbytes "12345678901234567890".
Definition rfc_secret : bytes := b32_encode rfc_key.

(** RFC 6238, appendix B, the last six digits. *)
Example rfc_6238 :
  (λ t, Code rfc_secret t) <$> [59; 1111111109; 1234567890; 20000000000] =
  [Ok (sbytes "287082"); Ok (sbytes "081804"); Ok (sbytes "005924"); Ok (sbytes "353130")].
Proof. by vm_compute. Qed.

Lemma decodeSecret_GenerateSecret_witness :
  ∃ s, GenerateSecret (Some rfc_key) = Ok s ∧ decodeSecret s = Ok rfc_key.
Proof. apply (decodeSecret_GenerateSecret rfc_key). reflexivity. Defined.

Lemma rfc_secret_ok : decodeSecret rfc_secret = Ok rfc_key.
Proof. by vm_compute. Qed.

Lemma Verify_window_witness :
  Verify rfc_secret (sbytes " 287082") 59 = true ∧
  Verify rfc_secret (sbytes "287082") 89 = true ∧
  ∃ c, 0 ≤ c ∧ step 89 - 1 ≤ c ≤ step 89 + 1 ∧
    codeAtCounter rfc_key c = TrimSpace (sbytes "287082").
Proof.
  split; [by vm_compute|]. assert (Verify rfc_secret (sbytes "287082") 89 = true) as Hv by (by vm_compute).
  split; [exact Hv|].
  assert (0 ≤ 89 < 2 ^ 63) as Hn by lia.
  destruct (Verify_window rfc_secret rfc_key (sbytes "287082") 89 rfc_secret_ok Hn) as [Hw _].
  exact (Hw Hv).
Defined.
End witnesses.
