(* ===== verification/Password.v ===== *)
(** * Passwords and tokens

    The credential helpers of [internal/auth] auth.go: argon2id password records, random
    bearer tokens and their at-rest hashes.  The argon2id function itself
    ([golang.org/x/crypto/argon2]) is a parameter; [crypto/rand] is an argument, [None]
    being its failure. *)

From Stdlib Require Import Strings.Byte.
From S2P Require Import Prelude Bytes Base64 GoStrings Sha.

Definition argonTime : Z := 1.
Definition argonMemory : Z := 64 * 1024.
Definition argonThreads : Z := 4.
Definition argonKeyLen : Z := 32.
Definition saltLen : nat := 16.

(** [argon2.IDKey(password, salt, time, memory, threads, keyLen)]. *)
Class Argon2 := argon2_IDKey : bytes → bytes → Z → Z → Z → Z → bytes.

(** What the package documents: a key of the requested length. *)
Class Argon2Laws `{Argon2} := {
  argon2_len p salt t m th n : 0 ≤ n → len (argon2_IDKey p salt t m th n) = n;
}.

Definition dollar : byte := byteZ 36.
Definition argon_tag : bytes := sbytes "argon2id".

(** 32 random bytes in URL-safe base64. *)
Definition randToken (rand : option bytes) : result string :=
  match rand with
  | None => Err rand_error
  | Some b => Ok (RawURL_EncodeToString b)
  end.

Definition hashToken (token : string) : string := hex_EncodeToString (sha256_Sum256 (sbytes token)).

Section password.
Context `{Argon2}.

Definition argon2Key (password : string) (salt : bytes) (keyLen : Z) : bytes :=
  argon2_IDKey (sbytes password) salt argonTime argonMemory argonThreads keyLen.

(** [argon2id$<salt>$<hash>]. *)
Definition hashPassword (salt : option bytes) (password : string) : result string :=
  match salt with
  | None => Err rand_error
  | Some salt =>
      let key := argon2Key password salt argonKeyLen in
      Ok (bstring (argon_tag ++ dollar :: sbytes (RawStd_EncodeToString salt) ++
                   dollar :: sbytes (RawStd_EncodeToString key)))
  end.

Definition verifyPassword (password encoded : string) : bool :=
  match Split dollar (sbytes encoded) with
  | [tag; b64salt; b64hash] =>
      if negb (bool_decide (tag = argon_tag)) then false
      else
        match RawStd_DecodeString (bstring b64salt), RawStd_DecodeString (bstring b64hash) with
        | Some salt, Some want => bool_decide (argon2Key password salt (u32 (len want)) = want)
        | _, _ => false
        end
  | _ => false
  end.

(** ** Lemmas *)

(** No base64 digit is a dollar sign. *)
Lemma RawStd_no_dollar src : Forall (λ c, c ≠ dollar) (sbytes (RawStd_EncodeToString src)).
Proof.
  unfold RawStd_EncodeToString. rewrite sbytes_bstring.
  eapply Forall_impl; [apply raw_decode_encode|]. intros c [[v Hv] _] ->. by vm_compute in Hv.
Qed.

Context `{!Argon2Laws}.

(** Verifying against a fresh hash compares the two derived keys. *)
Lemma verifyPassword_hash salt p q h :
  hashPassword (Some salt) p = Ok h →
  verifyPassword q h = bool_decide (argon2Key q salt argonKeyLen = argon2Key p salt argonKeyLen).
Proof.
  unfold hashPassword. intros Hh.
  match type of Hh with Ok ?x = Ok h => assert (h = x) as -> by congruence end. clear Hh.
  unfold verifyPassword. rewrite sbytes_bstring.
  rewrite Split_app by (by repeat constructor). rewrite Split_app by apply RawStd_no_dollar.
  rewrite Split_none by apply RawStd_no_dollar. rewrite bool_decide_true by done. cbn [negb].
  rewrite !bstring_sbytes, !RawStd_roundtrip.
  assert (len (argon2Key p salt argonKeyLen) = argonKeyLen) as -> by (by apply argon2_len). done.
Qed.

(** A password verifies against its own record, and another password verifies
    against it only by colliding under argon2id with the record's salt. *)
Theorem password_roundtrip salt p h :
  hashPassword (Some salt) p = Ok h →
  verifyPassword p h = true ∧
  ∀ q, verifyPassword q h = true → argon2Key q salt argonKeyLen = argon2Key p salt argonKeyLen.
Proof.
  intros Hh. split; [by rewrite (verifyPassword_hash salt p p h Hh), bool_decide_true|].
  intros q. rewrite (verifyPassword_hash salt p q h Hh). apply bool_decide_eq_true.
Qed.
End password.

(** ** Witness *)

Section witness.
(** A toy derivation: SHA-256 of salt and password, stretched to the length. *)
Definition toy_argon : Argon2 := λ p salt _ _ _ n,
  take (Z.to_nat n) (sha256_Sum256 (salt ++ p) ++ replicate (Z.to_nat n) (byteZ 0)).
#[local] Existing Instance toy_argon.

#[local] Instance toy_laws : Argon2Laws.
Proof.
  constructor. intros p salt t m th n Hn. unfold argon2_IDKey, toy_argon, len.
  rewrite length_take, length_app, length_replicate. lia.
Defined.

Definition toy_record : string :=
  match hashPassword (Some (sbytes "0123456789abcdef")) "secret" with Ok h => h | Err _ => "" end.

Lemma password_roundtrip_witness :
  verifyPassword "secret" toy_record = true ∧ verifyPassword "Secret" toy_record = false.
Proof.
  split; [|by vm_compute].
  exact (proj1 (password_roundtrip (sbytes "0123456789abcdef") "secret" toy_record eq_refl)).
Defined.
End witness.
