(* ===== verification/E2E.v ===== *)
(** * End-to-end encryption

    [pkg/e2e]: keys.go, sign.go, x3dh.go, ratchet.go, safety.go and trust.go, the
    cryptography the clients run.  X25519, Ed25519, HKDF, ChaCha20-Poly1305 and SHA-512 are an
    interface ([Crypto]); HMAC-SHA256 is computed.  A key pair drawn from the random source is
    an argument of the call that draws it.  The receiver of a method is the state of a monad;
    the copy [Decrypt] works on is the state before it. *)

From S2P Require Import Prelude Bytes Base64 Strconv Sha.

(** The primitives: [crypto/ecdh] X25519 (the public key of a private one, and the shared
    secret), [ed25519.Verify], [hkdf.New(sha256.New, secret, salt, info)] read to [n] bytes,
    ChaCha20-Poly1305 and [sha512.Sum512]. *)
Class Crypto := {
  x25519_Public : bytes → bytes;
  x25519_ECDH : bytes → bytes → result bytes;
  ed25519_Verify : bytes → bytes → bytes → bool;
  hkdf : bytes → bytes → bytes → Z → bytes;
  chacha_Seal : bytes → bytes → bytes → bytes → bytes;         (* key, nonce, plaintext, data *)
  chacha_Open : bytes → bytes → bytes → bytes → result bytes;  (* key, nonce, ciphertext, data *)
  sha512_Sum512 : bytes → bytes;
}.

(** What is documented of them, as far as the code relies on it. *)
Class CryptoLaws `{Crypto} := {
  ECDH_agrees a b : x25519_ECDH a (x25519_Public b) = x25519_ECDH b (x25519_Public a);
  len_Public a : len (x25519_Public a) = 32;
  Open_Seal key nonce pt ad : chacha_Open key nonce (chacha_Seal key nonce pt ad) ad = Ok pt;
}.

Record KeyPair := mkKeyPair { Priv : bytes; Pub : bytes }.
#[global] Instance KeyPair_eq_dec : EqDecision KeyPair.
Proof. solve_decision. Defined.

Record PreKeyBundle := mkPreKeyBundle {
  PB_IdentityKey : bytes;
  PB_SigningKey : bytes;
  PB_SignedPreKey : bytes;
  PB_SignedPreKeySig : bytes;
  PB_OneTimePreKey : bytes;
}.
Record InitiatorKeys := mkInitiator { IK_Identity : KeyPair; IK_Ephemeral : KeyPair }.
Record ResponderKeys := mkResponder {
  RK_Identity : KeyPair;
  RK_SignedPreKey : KeyPair;
  RK_OneTimePreKey : option KeyPair;
}.

Record Header := mkHeader { H_DH : bytes; H_PN : Z; H_N : Z; H_raw : option bytes }.

Record Session := mkSession {
  dhs : KeyPair;
  dhr : option bytes;
  rk : bytes;
  cks : option bytes;
  ckr : option bytes;
  ns : Z;
  nr : Z;
  pn : Z;
  skipped : gmap string bytes;
  skippedOrder : list string;
}.

Definition maxSkip : Z := 1000.
Definition maxSkippedKeys : Z := 2 * maxSkip.

(** ** Headers *)

(** [json.Marshal] of a header: dh in base64, then the two counters; 34 is the quote. *)
Definition json_header (h : Header) : bytes :=
  let q := [byteZ 34] in
  sbytes "{" ++ q ++ sbytes "dh" ++ q ++ sbytes ":" ++ q ++ b64_EncodeToString (H_DH h) ++ q ++
  sbytes "," ++ q ++ sbytes "pn" ++ q ++ sbytes ":" ++ FormatInt (H_PN h) ++
  sbytes "," ++ q ++ sbytes "n" ++ q ++ sbytes ":" ++ FormatInt (H_N h) ++ sbytes "}".
Definition header_bytes (h : Header) : bytes := match H_raw h with Some raw => raw | None => json_header h end.

Definition skKey (dhPub : bytes) (n : Z) : string := bstring (dhPub ++ [byteZ 124] ++ be_put 4 n).

Section e2e.
Context `{Crypto}.

Definition PublicKeyFromBytes (b : bytes) : result bytes := if len b =? 32 then Ok b else Err ecdh_error.
Definition dh (priv pub : bytes) : result bytes := x25519_ECDH priv pub.

Definition E2E_VerifyPreKey (signingPub signedPreKeyPub sig : bytes) : bool :=
  if negb (len signingPub =? 32) || negb (len sig =? 64) then false else ed25519_Verify signingPub signedPreKeyPub sig.

(** ** X3DH *)

Definition kdfRootFromX3DH (dhConcat : bytes) : bytes :=
  hkdf (replicate 32 (byteZ 255) ++ dhConcat) [] (sbytes "SyncApp-X3DH") 32.

(** The shared secret and the ephemeral public key. *)
Definition X3DHInitiator (a : InitiatorKeys) (bundle : PreKeyBundle) : result (bytes * bytes) :=
  if negb (E2E_VerifyPreKey (PB_SigningKey bundle) (PB_SignedPreKey bundle) (PB_SignedPreKeySig bundle)) then Err e2e_ErrBadPreKeySignature
  else
    ikB ← PublicKeyFromBytes (PB_IdentityKey bundle);
    spkB ← PublicKeyFromBytes (PB_SignedPreKey bundle);
    dh1 ← dh (Priv (IK_Identity a)) spkB;
    dh2 ← dh (Priv (IK_Ephemeral a)) ikB;
    dh3 ← dh (Priv (IK_Ephemeral a)) spkB;
    let concat := dh1 ++ dh2 ++ dh3 in
    concat ← (if 0 <? len (PB_OneTimePreKey bundle) then
                opkB ← PublicKeyFromBytes (PB_OneTimePreKey bundle);
                dh4 ← dh (Priv (IK_Ephemeral a)) opkB;
                Ok (concat ++ dh4)
              else Ok concat);
    Ok (kdfRootFromX3DH concat, Pub (IK_Ephemeral a)).

Definition X3DHResponder (b : ResponderKeys) (aIdentityPub aEphemeralPub : bytes) (usedOneTime : bool) : result bytes :=
  ikA ← PublicKeyFromBytes aIdentityPub;
  ekA ← PublicKeyFromBytes aEphemeralPub;
  dh1 ← dh (Priv (RK_SignedPreKey b)) ikA;
  dh2 ← dh (Priv (RK_Identity b)) ekA;
  dh3 ← dh (Priv (RK_SignedPreKey b)) ekA;
  let concat := dh1 ++ dh2 ++ dh3 in
  concat ← (if usedOneTime then
              match RK_OneTimePreKey b with
              | None => Err e2e_errNoOneTimeKey
              | Some opk => dh4 ← dh (Priv opk) ekA; Ok (concat ++ dh4)
              end
            else Ok concat);
  Ok (kdfRootFromX3DH concat).

(** ** Key derivation and sealing *)

Definition kdfRK (rk dhOut : bytes) : bytes * bytes :=
  let out := hkdf dhOut rk (sbytes "SyncApp-Ratchet-RK") 64 in (ztake 32 out, zdrop 32 out).
(** A nil chain key is HMAC's empty key. *)
Definition kdfCK (ck : bytes) : bytes * bytes := (hmac_sha256 ck [byteZ 2], hmac_sha256 ck [byteZ 1]).

Definition aeadFor (mk : bytes) : bytes * bytes :=
  let buf := hkdf mk [] (sbytes "SyncApp-Ratchet-Msg") (32 + 12) in (ztake 32 buf, zdrop 32 buf).
Definition aeadSeal (mk ad plaintext : bytes) : bytes := let '(k, nonce) := aeadFor mk in chacha_Seal k nonce plaintext ad.
Definition aeadOpen (mk ad ciphertext : bytes) : result bytes := let '(k, nonce) := aeadFor mk in chacha_Open k nonce ciphertext ad.

(** ** Sessions *)

(** [keys] is the key pair drawn for the session's first ratchet key. *)
Definition newInitiatorSession (sk theirSignedPreKey : bytes) (keys : result KeyPair) : result Session :=
  dhr ← PublicKeyFromBytes theirSignedPreKey;
  dhs ← keys;
  dhOut ← dh (Priv dhs) dhr;
  let '(rk, cks) := kdfRK sk dhOut in
  Ok (mkSession dhs (Some dhr) rk (Some cks) None 0 0 0 ∅ []).
Definition newResponderSession (sk : bytes) (signedPreKey : KeyPair) : Session :=
  mkSession signedPreKey None sk None None 0 0 0 ∅ [].

Definition Encrypt (plaintext : bytes) : M Session (Header * bytes) := λ s,
  let '(cks', mk) := kdfCK (default [] (cks s)) in
  let hdr := mkHeader (Pub (dhs s)) (pn s) (ns s) None in
  let ad := header_bytes hdr in
  let hdr := mkHeader (H_DH hdr) (H_PN hdr) (H_N hdr) (Some ad) in
  (mkSession (dhs s) (dhr s) (rk s) (Some cks') (ckr s) (u32 (ns s + 1)) (nr s) (pn s) (skipped s) (skippedOrder s),
   Ok (hdr, aeadSeal mk ad plaintext)).

(** [for len(skipped) > maxSkippedKeys && len(skippedOrder) > 0]: each turn drops a name. *)
Fixpoint evict_oldest (order : list string) (sk : gmap string bytes) : gmap string bytes * list string :=
  if maxSkippedKeys <? maplen sk then
    match order with
    | [] => (sk, [])
    | oldest :: order => evict_oldest order (delete oldest sk)
    end
  else (sk, order).
Definition storeSkipped (key : string) (mk : bytes) (s : Session) : Session :=
  let order := match skipped s !! key with Some _ => skippedOrder s | None => skippedOrder s ++ [key] end in
  let '(sk, order) := evict_oldest order (<[key := mk]> (skipped s)) in
  mkSession (dhs s) (dhr s) (rk s) (cks s) (ckr s) (ns s) (nr s) (pn s) sk order.

(** [n] turns of the loop; [dhr] is set whenever [ckr] is. *)
Fixpoint skip_loop (n : nat) (c : bytes) (s : Session) : Session :=
  match n with
  | O => s
  | S n =>
      let '(c', mk) := kdfCK c in
      let s := storeSkipped (skKey (default [] (dhr s)) (nr s)) mk s in
      skip_loop n c' (mkSession (dhs s) (dhr s) (rk s) (cks s) (Some c') (ns s) (u32 (nr s + 1)) (pn s) (skipped s) (skippedOrder s))
  end.
Definition skipMessageKeys (until : Z) : M Session unit := λ s,
  match ckr s with
  | None => (s, Ok tt)
  | Some c =>
      if maxSkip <? u32 (until - nr s) then (s, Err e2e_errTooManySkipped)
      else (skip_loop (Z.to_nat (until - nr s)) c s, Ok tt)
  end.

Definition sameDHr (s : Session) (dhPub : bytes) : bool := match dhr s with Some d => bool_decide (d = dhPub) | None => false end.

(** [fresh] is the key pair [newKey] draws. *)
Definition dhRatchet (fresh : result KeyPair) (hdr : Header) : M Session unit := λ s,
  match PublicKeyFromBytes (H_DH hdr) with
  | Err e => (s, Err e)
  | Ok newDHr =>
      let s := mkSession (dhs s) (Some newDHr) (rk s) (cks s) (ckr s) 0 0 (ns s) (skipped s) (skippedOrder s) in
      match dh (Priv (dhs s)) newDHr with
      | Err e => (s, Err e)
      | Ok dhOut =>
          let '(rk1, ckr1) := kdfRK (rk s) dhOut in
          let s := mkSession (dhs s) (dhr s) rk1 (cks s) (Some ckr1) (ns s) (nr s) (pn s) (skipped s) (skippedOrder s) in
          match fresh with
          | Err e => (s, Err e)
          | Ok k =>
              let s := mkSession k (dhr s) (rk s) (cks s) (ckr s) (ns s) (nr s) (pn s) (skipped s) (skippedOrder s) in
              match dh (Priv k) newDHr with
              | Err e => (s, Err e)
              | Ok dhOut2 =>
                  let '(rk2, cks2) := kdfRK (rk s) dhOut2 in
                  (mkSession (dhs s) (dhr s) rk2 (Some cks2) (ckr s) (ns s) (nr s) (pn s) (skipped s) (skippedOrder s), Ok tt)
              end
          end
      end
  end.

Definition open_next (hdr : Header) (ciphertext : bytes) : M Session bytes := λ s,
  match ckr s with
  | None => (s, Err e2e_ErrDecrypt)
  | Some c =>
      let '(c', mk) := kdfCK c in
      (mkSession (dhs s) (dhr s) (rk s) (cks s) (Some c') (ns s) (u32 (nr s + 1)) (pn s) (skipped s) (skippedOrder s),
       match aeadOpen mk (header_bytes hdr) ciphertext with Ok pt => Ok pt | Err _ => Err e2e_ErrDecrypt end)
  end.
Definition advance (fresh : result KeyPair) (hdr : Header) (ciphertext : bytes) : M Session bytes :=
  s ← get;
  (if sameDHr s (H_DH hdr) then mret tt else skipMessageKeys (H_PN hdr);; dhRatchet fresh hdr);;
  skipMessageKeys (H_N hdr);;
  open_next hdr ciphertext.

(** The session with the key consumed, and the plaintext. *)
Definition trySkipped (hdr : Header) (ct : bytes) (s : Session) : option (Session * bytes) :=
  let key := skKey (H_DH hdr) (H_N hdr) in
  match skipped s !! key with
  | None => None
  | Some mk =>
      match aeadOpen mk (header_bytes hdr) ct with
      | Err _ => None
      | Ok pt => Some (mkSession (dhs s) (dhr s) (rk s) (cks s) (ckr s) (ns s) (nr s) (pn s) (delete key (skipped s)) (skippedOrder s), pt)
      end
  end.

Definition Decrypt (fresh : result KeyPair) (hdr : Header) (ciphertext : bytes) : M Session bytes := λ s,
  match trySkipped hdr ciphertext s with
  | Some (s', pt) => (s', Ok pt)
  | None =>
      let staged := match advance fresh hdr ciphertext s with (trial, Ok pt) => (trial, Ok pt) | (_, Err e) => (s, Err e) end in
      match ckr s with
      | Some c =>
          if sameDHr s (H_DH hdr) && (H_N hdr =? nr s) then
            let '(c', mk) := kdfCK c in
            match aeadOpen mk (header_bytes hdr) ciphertext with
            | Err _ => (s, Err e2e_ErrDecrypt)
            | Ok pt =>
                (mkSession (dhs s) (dhr s) (rk s) (cks s) (Some c') (ns s) (u32 (nr s + 1)) (pn s) (skipped s) (skippedOrder s), Ok pt)
            end
          else staged
      | None => staged
      end
  end.
End e2e.

(** ** Safety numbers *)

Section safety.
Context `{Crypto}.

Definition safetyIterations : nat := Z.to_nat 5200.
Definition fingerprintBytes : Z := 30.
Definition safetyVersion : Z := 0.

Definition identityMaterial (identityKey signingKey : bytes) : bytes := identityKey ++ signingKey.
Definition fingerprint (identityKey signingKey : bytes) (stableID : string) : bytes :=
  let key := identityMaterial identityKey signingKey in
  let h := sha512_Sum512 (be_put 2 safetyVersion ++ key ++ sbytes stableID) in
  ztake fingerprintBytes (Nat.iter safetyIterations (λ h, sha512_Sum512 (h ++ key)) h).

(** [%05d] *)
Definition five_digits (v : Z) : string :=
  let d := FormatInt v in bstring (replicate (5 - length d) (byteZ 48) ++ d).
(** Groups of five bytes, as long as five are left. *)
Fixpoint groups (fuel : nat) (fp : bytes) : list string :=
  match fuel with
  | O => []
  | S fuel => if len fp <? 5 then [] else five_digits (be_get (ztake 5 fp) mod 100000) :: groups fuel (zdrop 5 fp)
  end.
Definition displayFingerprint (fp : bytes) : string := String.concat " " (groups (length fp) fp).

Definition SafetyNumber (localID : string) (localIdentityKey localSigningKey : bytes)
    (remoteID : string) (remoteIdentityKey remoteSigningKey : bytes) : string :=
  let local := displayFingerprint (fingerprint localIdentityKey localSigningKey localID) in
  let remote := displayFingerprint (fingerprint remoteIdentityKey remoteSigningKey remoteID) in
  if String.leb local remote then local +:+ " " +:+ remote else remote +:+ " " +:+ local.
End safety.

(** ** Pinned identities *)

Record PinnedIdentity := mkPinned {
  PI_UserID : string;
  PI_DeviceID : string;
  PI_IdentityKey : bytes;
  PI_SigningKey : bytes;
  PI_FirstSeen : Z;
}.
Abbreviation TrustStore := (gmap string PinnedIdentity).

Definition trustKey (userID deviceID : string) : string := userID +:+ "|" +:+ deviceID.
Definition Pinned (userID deviceID : string) (t : TrustStore) : option PinnedIdentity := t !! trustKey userID deviceID.
Definition Verify (userID deviceID : string) (identityKey signingKey : bytes) (t : TrustStore) : result bool :=
  match Pinned userID deviceID t with
  | None => Ok true
  | Some p =>
      if negb (bool_decide (PI_IdentityKey p = identityKey)) || negb (bool_decide (PI_SigningKey p = signingKey))
      then Err e2e_ErrIdentityChanged else Ok false
  end.
Definition Accept (userID deviceID : string) (identityKey signingKey : bytes) (now : Z) (t : TrustStore) : TrustStore :=
  <[trustKey userID deviceID := mkPinned userID deviceID identityKey signingKey now]> t.
Definition Forget (userID deviceID : string) (t : TrustStore) : TrustStore := delete (trustKey userID deviceID) t.
Definition All `{RangeOrder} (t : TrustStore) : list PinnedIdentity := (range_map t).*2.
