(* ===== verification/SecretSession.v ===== *)
(** * Secret sessions

    What the cryptography of E2E.v achieves for two honest devices.  X3DH gives both the same
    secret; from it a Double Ratchet conversation may interleave sends and deliveries in any
    order, forged frames included, and every genuine message opens to its plaintext. *)

From S2P Require Import Prelude Bytes E2E.

(** ** Chains *)

(** The chain key after [n] steps, and the message key of message [n]. *)
Definition ck_at (c : bytes) (n : Z) : bytes := Nat.iter (Z.to_nat n) (λ c, (kdfCK c).1) c.
Definition mk_at (c : bytes) (n : Z) : bytes := (kdfCK (ck_at c n)).2.

Section conversation.
Context `{Crypto}.

(** The keys are numbered in the order they enter the conversation: the responder's signed
    prekey is key 0, the initiator's first ratchet key is key 1, and so on in turn.  Chain [i]
    is the sending chain of the owner of key [i].  The root key and the first chain key: *)
Definition shared (priv pub : bytes) : bytes := match dh priv pub with Ok s => s | Err _ => [] end.
Fixpoint keys_at (sk : bytes) (ring : list KeyPair) (i : nat) : bytes * bytes :=
  match i with
  | O => (sk, [])
  | S j =>
      match ring !! j, ring !! S j with
      | Some k, Some k' => kdfRK (keys_at sk ring j).1 (shared (Priv k') (Pub k))
      | _, _ => ([], [])
      end
  end.

(** ** Conversations *)

(** A frame, with what it was made from and whether it arrived; [true] is the initiator. *)
Record Msg := mkMsg { m_from : bool; m_hdr : Header; m_ct : bytes; m_pt : bytes; m_done : bool }.
(** The two sessions, the frames sent so far, and the keys drawn so far. *)
Record Talk := mkTalk { t_sess : bool → Session; t_sent : list Msg; t_ring : list KeyPair }.

Definition set_sess (side : bool) (s : Session) (f : bool → Session) : bool → Session :=
  λ b, if bool_decide (b = side) then s else f b.
Definition arrived (m : Msg) : Msg := mkMsg (m_from m) (m_hdr m) (m_ct m) (m_pt m) true.
(** The frames on their way to a side. *)
Definition waiting (side : bool) (w : Talk) : list Msg :=
  filter (λ m, m_from m = negb side ∧ m_done m = false) (t_sent w).

(** A key pair as [GenerateKeyPair] draws it: its own public key, not seen before, and with a
    shared secret with the last key drawn. *)
Definition fresh_key (ring : list KeyPair) (k : KeyPair) : Prop :=
  Pub k = x25519_Public (Priv k) ∧ (Pub k ∉ Pub <$> ring) ∧
  ∃ k0 s, last ring = Some k0 ∧ dh (Priv k) (Pub k0) = Ok s.

(** What may happen: a side that has a sending chain sends, while fewer than [maxSkip] frames
    are on their way to the other and the chain's counter has not reached its end; a frame
    arrives that did not arrive before; somebody's frame is refused. *)
Inductive step (w : Talk) : Talk → Prop :=
  | step_send side pt s' h ct :
      cks (t_sess w side) ≠ None → len (waiting (negb side) w) < maxSkip → ns (t_sess w side) < 2 ^ 32 - 1 →
      Encrypt pt (t_sess w side) = (s', Ok (h, ct)) →
      step w (mkTalk (set_sess side s' (t_sess w)) (t_sent w ++ [mkMsg side h ct pt false]) (t_ring w))
  | step_deliver k m fresh s' r :
      t_sent w !! k = Some m → m_done m = false → fresh_key (t_ring w) fresh →
      Decrypt (Ok fresh) (m_hdr m) (m_ct m) (t_sess w (negb (m_from m))) = (s', r) →
      step w (mkTalk (set_sess (negb (m_from m)) s' (t_sess w)) (<[k := arrived m]> (t_sent w))
                (if decide (dhs s' = dhs (t_sess w (negb (m_from m)))) then t_ring w else t_ring w ++ [dhs s']))
  | step_refused side fresh hdr ct s' e :
      Decrypt fresh hdr ct (t_sess w side) = (s', Err e) →
      step w (mkTalk (set_sess side s' (t_sess w)) (t_sent w) (t_ring w)).
Definition conversation : relation Talk := rtc step.

(** The start: the initiator's session on the responder's signed prekey [spk], with a fresh
    ratchet key, and the responder's. *)
Inductive opening (sk_a sk_b : bytes) (spk : KeyPair) : Talk → Prop :=
  | opening_intro k1 sa :
      Pub spk = x25519_Public (Priv spk) → fresh_key [spk] k1 →
      newInitiatorSession sk_a (Pub spk) (Ok k1) = Ok sa →
      opening sk_a sk_b spk (mkTalk (λ b, if b then sa else newResponderSession sk_b spk) [] [spk; k1]).

(** ** The invariant *)

(** What a genuine frame of chain [j] is; [L] counts the frames of each chain. *)
Definition genuine (sk : bytes) (ring : list KeyPair) (L : nat → Z) (j : nat) (m : Msg) : Prop :=
  ∃ kp, ring !! j = Some kp ∧ (1 ≤ j)%nat ∧ m_from m = Nat.odd j ∧ H_DH (m_hdr m) = Pub kp ∧
    H_PN (m_hdr m) = L (j - 2)%nat ∧ 0 ≤ H_N (m_hdr m) < L j ∧
    m_ct m = aeadSeal (mk_at (keys_at sk ring j).2 (H_N (m_hdr m))) (header_bytes (m_hdr m)) (m_pt m).

Definition of_chain (ring : list KeyPair) (j : nat) (m : Msg) : Prop :=
  ∃ kp, ring !! j = Some kp ∧ H_DH (m_hdr m) = Pub kp.

(** A side whose sending chain is [i] has stepped over message [n] of chain [j]. *)
Definition passed (i : nat) (nr : Z) (j : nat) (n : Z) : Prop := (j < i)%nat ∧ (S j = i → n < nr).

(** A key is stored for a frame. *)
Definition kept (sk : bytes) (ring : list KeyPair) (j : nat) (m : Msg) (key : string) (mk : bytes) : Prop :=
  key = skKey (H_DH (m_hdr m)) (H_N (m_hdr m)) ∧ mk = mk_at (keys_at sk ring j).2 (H_N (m_hdr m)).

(** What a side made of the frames addressed to it: those that arrived were passed, and the
    keys stored are those of the frames passed that did not arrive. *)
Record view (sk : bytes) (ring : list KeyPair) (sent : list Msg) (side : bool) (i : nat) (nr : Z) (store : gmap string bytes) : Prop := mkView {
  v_done k m j : sent !! k = Some m → m_from m = negb side → m_done m = true → of_chain ring j m → passed i nr j (H_N (m_hdr m));
  v_store key mk : store !! key = Some mk ↔
    ∃ k m j, sent !! k = Some m ∧ m_from m = negb side ∧ m_done m = false ∧ of_chain ring j m ∧
      passed i nr j (H_N (m_hdr m)) ∧ kept sk ring j m key mk;
}.

Record party (sk : bytes) (ring : list KeyPair) (L : nat → Z) (i : nat) (s : Session) : Prop := mkParty {
  p_dhs : ring !! i = Some (dhs s);
  p_rk : rk s = (keys_at sk ring i).1;
  p_cks : cks s = match i with O => None | _ => Some (ck_at (keys_at sk ring i).2 (L i)) end;
  p_ns : ns s = L i;
  p_pn : pn s = L (i - 2)%nat;
  p_dhr : dhr s = match i with O => None | S j => Pub <$> ring !! j end;
  p_ckr : ckr s = match i with O | 1%nat => None | S j => Some (ck_at (keys_at sk ring j).2 (nr s)) end;
  p_nr : 0 ≤ nr s ≤ L (i - 1)%nat;
}.

Record inv (sk : bytes) (w : Talk) (ix : bool → nat) (L : nat → Z) : Prop := mkInv {
  v_side side : Nat.odd (ix side) = side;
  v_near side : (ix side ≤ S (ix (negb side)))%nat;
  v_ring : length (t_ring w) = S (max (ix true) (ix false));
  v_pubs : Forall (λ k, Pub k = x25519_Public (Priv k)) (t_ring w);
  v_nodup : NoDup (Pub <$> t_ring w);
  v_dh i k k' : t_ring w !! i = Some k → t_ring w !! S i = Some k' → ∃ s, dh (Priv k') (Pub k) = Ok s;
  v_L j : 0 ≤ L j < 2 ^ 32;
  v_L0 : L O = 0;
  v_Lhi j : (ix (Nat.odd j) < j)%nat → L j = 0;
  v_party side : party sk (t_ring w) L (ix side) (t_sess w side);
  v_view side : view sk (t_ring w) (t_sent w) side (ix side) (nr (t_sess w side)) (skipped (t_sess w side));
  v_sent k m : t_sent w !! k = Some m → ∃ j, (j ≤ ix (m_from m))%nat ∧ genuine sk (t_ring w) L j m;
  v_all j n : 0 ≤ n < L j → ∃ k m, t_sent w !! k = Some m ∧ genuine sk (t_ring w) L j m ∧ H_N (m_hdr m) = n;
  v_uniq k k' m m' : t_sent w !! k = Some m → t_sent w !! k' = Some m' →
    H_DH (m_hdr m) = H_DH (m_hdr m') → H_N (m_hdr m) = H_N (m_hdr m') → k = k';
  v_room side : len (waiting side w) ≤ maxSkip;
}.

(** ** Lemmas *)

Lemma ck_at_succ c n : 0 ≤ n → ck_at c (n + 1) = (kdfCK (ck_at c n)).1.
Proof. intros Hn. unfold ck_at. rewrite Z2Nat.inj_add by lia. rewrite Nat.add_comm. done. Qed.
Lemma skKey_inj d d' n n' :
  len d = 32 → len d' = 32 → 0 ≤ n < 2 ^ 32 → 0 ≤ n' < 2 ^ 32 → skKey d n = skKey d' n' → d = d' ∧ n = n'.
Proof.
  intros Hd Hd' Hn Hn' Heq. unfold skKey in Heq. apply (f_equal sbytes) in Heq. rewrite !sbytes_bstring in Heq.
  apply app_inj_1 in Heq as [-> Heq]; [|unfold len in *; lia]. split; [done|].
  apply (app_inv_head [byteZ 124]) in Heq. apply (f_equal be_get) in Heq. rewrite !be_get_put in Heq.
  change (8 * Z.of_nat 4) with 32 in Heq. by rewrite !Z.mod_small in Heq by lia.
Qed.

(** The keys of messages [a] to [b] of a chain. *)
Definition key_range (d c : bytes) (a b : Z) : gmap string bytes :=
  list_to_map ((λ n, (skKey d n, mk_at c n)) <$> seqZ a (b - a)).

Lemma key_range_nil d c a : key_range d c a a = ∅.
Proof. unfold key_range. by rewrite Z.sub_diag. Qed.
Lemma lookup_key_range d c a b key mk :
  len d = 32 → 0 ≤ a → b ≤ 2 ^ 32 →
  key_range d c a b !! key = Some mk ↔ ∃ n, a ≤ n < b ∧ key = skKey d n ∧ mk = mk_at c n.
Proof.
  intros Hd Ha Hb. unfold key_range. rewrite <- elem_of_list_to_map.
  - rewrite list_elem_of_fmap. split.
    + intros (n & [= -> ->] & Hn). exists n. apply elem_of_seqZ in Hn. repeat split; lia.
    + intros (n & Hn & -> & ->). exists n. split; [done|]. apply elem_of_seqZ. lia.
  - rewrite <- list_fmap_compose. apply NoDup_fmap_2_strong; [|apply NoDup_seqZ].
    intros n n' Hn Hn' Heq. apply elem_of_seqZ in Hn, Hn'. cbn in Heq. apply skKey_inj in Heq; [tauto|done..|lia|lia].
Qed.
Lemma key_range_cons d c a b :
  0 ≤ a < b → b ≤ 2 ^ 32 → len d = 32 →
  key_range d c a b = <[skKey d a := mk_at c a]> (key_range d c (a + 1) b).
Proof.
  intros Hab Hb Hd. unfold key_range. rewrite (seqZ_cons a (b - a)) by lia. cbn [fmap list_fmap list_to_map fst snd foldr uncurry].
  by replace (Z.pred (b - a)) with (b - (a + 1)) by lia; replace (Z.succ a) with (a + 1) by lia.
Qed.

Lemma evict_none order sk : maplen sk ≤ maxSkippedKeys → evict_oldest order sk = (sk, order).
Proof. intros Hle. destruct order; cbn [evict_oldest]; by rewrite (proj2 (Z.ltb_ge _ _)). Qed.
Lemma maplen_union_r (m m' : gmap string bytes) : maplen m' ≤ maplen (m ∪ m').
Proof.
  unfold maplen. apply Nat2Z.inj_le. rewrite <- !size_dom. apply subseteq_size. rewrite dom_union_L. apply union_subseteq_r.
Qed.

(** Skipping forward in a chain, when the store has room. *)
Lemma skip_loop_run d c until s :
  dhr s = Some d → len d = 32 → ckr s = Some (ck_at c (nr s)) → 0 ≤ nr s ≤ until → until < 2 ^ 32 →
  maplen (key_range d c (nr s) until ∪ skipped s) ≤ maxSkippedKeys →
  (∀ n, nr s ≤ n < until → skipped s !! skKey d n = None) →
  ∃ order, skip_loop (Z.to_nat (until - nr s)) (ck_at c (nr s)) s =
    mkSession (dhs s) (dhr s) (rk s) (cks s) (Some (ck_at c until)) (ns s) until (pn s)
      (key_range d c (nr s) until ∪ skipped s) order.
Proof.
  intros Hd Hlen Hc Hn Hu. remember (Z.to_nat (until - nr s)) as f eqn:Hf. revert s Hd Hc Hn Hf.
  induction f as [|f IH]; intros s Hd Hc Hn Hf Hroom Hnew.
  - assert (until = nr s) as -> by lia. exists (skippedOrder s). cbn [skip_loop]. rewrite key_range_nil, map_empty_union, <- Hc. by destruct s.
  - cbn [skip_loop]. destruct (kdfCK (ck_at c (nr s))) as [c' mk] eqn:Ek. unfold storeSkipped. rewrite Hd. cbn [default from_option id].
    rewrite Hnew by lia. assert (mk = mk_at c (nr s)) as -> by (unfold mk_at; by rewrite Ek).
    assert (c' = ck_at c (nr s + 1)) as -> by (rewrite ck_at_succ, Ek by lia; done).
    assert (key_range d c (nr s + 1) until !! skKey d (nr s) = None) as Hout.
    { apply eq_None_not_Some. intros [x (n & Hx & Heq & _)%lookup_key_range]; [|done|lia|lia].
      apply skKey_inj in Heq as [_ He]; [lia|done|done|lia|lia]. }
    assert (key_range d c (nr s) until ∪ skipped s = key_range d c (nr s + 1) until ∪ <[skKey d (nr s) := mk_at c (nr s)]> (skipped s)) as Hun.
    { rewrite (key_range_cons d c (nr s) until), <- insert_union_l by (done || lia). by apply insert_union_r. }
    rewrite Hun in Hroom |- *. rewrite evict_none by (etrans; [apply maplen_union_r|done]).
    cbn [dhs dhr rk cks ckr ns nr pn skipped skippedOrder]. rewrite u32_small by lia.
    match goal with |- context [skip_loop f _ ?s1] => apply (IH s1) end; cbn [dhr ckr nr skipped]; [done | done | lia | lia | done|].
    intros n Hn'. rewrite lookup_insert_ne; [apply Hnew; lia|]. intros Heq%skKey_inj; [lia|done|done|lia|lia].
Qed.

Lemma skip_run d c until s :
  dhr s = Some d → len d = 32 → ckr s = Some (ck_at c (nr s)) → 0 ≤ nr s ≤ until → until < 2 ^ 32 → until - nr s ≤ maxSkip →
  maplen (key_range d c (nr s) until ∪ skipped s) ≤ maxSkippedKeys →
  (∀ n, nr s ≤ n < until → skipped s !! skKey d n = None) →
  ∃ order, skipMessageKeys until s =
    (mkSession (dhs s) (dhr s) (rk s) (cks s) (Some (ck_at c until)) (ns s) until (pn s)
      (key_range d c (nr s) until ∪ skipped s) order, Ok tt).
Proof.
  intros Hd Hlen Hc Hn Hu Hskip Hroom Hnew. unfold skipMessageKeys. rewrite Hc, u32_small, (proj2 (Z.ltb_ge _ _)) by lia.
  destruct (skip_loop_run d c until s) as [order ->]; [done..|]. by exists order.
Qed.

Context `{!CryptoLaws}.

Lemma Open_seal mk ad pt : aeadOpen mk ad (aeadSeal mk ad pt) = Ok pt.
Proof. unfold aeadOpen, aeadSeal. destruct (aeadFor mk). apply Open_Seal. Qed.

(** The end of [advance]: skip to the message, and open it. *)
Lemma tail_run d c hdr ct pt s :
  dhr s = Some d → len d = 32 → ckr s = Some (ck_at c (nr s)) → 0 ≤ nr s ≤ H_N hdr → H_N hdr + 1 < 2 ^ 32 →
  H_N hdr - nr s ≤ maxSkip → maplen (key_range d c (nr s) (H_N hdr) ∪ skipped s) ≤ maxSkippedKeys →
  (∀ n, nr s ≤ n < H_N hdr → skipped s !! skKey d n = None) →
  ct = aeadSeal (mk_at c (H_N hdr)) (header_bytes hdr) pt →
  ∃ order, (skipMessageKeys (H_N hdr);; open_next hdr ct) s =
    (mkSession (dhs s) (dhr s) (rk s) (cks s) (Some (ck_at c (H_N hdr + 1))) (ns s) (H_N hdr + 1) (pn s)
      (key_range d c (nr s) (H_N hdr) ∪ skipped s) order, Ok pt).
Proof.
  intros Hd Hlen Hc Hn Hu Hskip Hroom Hnew ->. destruct (skip_run d c (H_N hdr) s) as [order Hs]; [done|done|done|done|lia|done|done|done|].
  exists order. rewrite (bind_Ok _ _ _ _ _ Hs). unfold open_next. cbn [dhs dhr rk cks ckr ns nr pn skipped skippedOrder].
  rewrite ck_at_succ by lia. unfold mk_at. destruct (kdfCK (ck_at c (H_N hdr))) as [c' mk]. cbn [fst snd]. by rewrite Open_seal, u32_small by lia.
Qed.

Lemma advance_same fresh hdr ct s :
  sameDHr s (H_DH hdr) = true → advance fresh hdr ct s = (skipMessageKeys (H_N hdr);; open_next hdr ct) s.
Proof. intros Hs. unfold advance. rewrite M_bind_eq. cbn [get]. by rewrite Hs. Qed.
Lemma advance_other fresh hdr ct s s1 s2 :
  sameDHr s (H_DH hdr) = false → skipMessageKeys (H_PN hdr) s = (s1, Ok tt) → dhRatchet fresh hdr s1 = (s2, Ok tt) →
  advance fresh hdr ct s = (skipMessageKeys (H_N hdr);; open_next hdr ct) s2.
Proof.
  intros Hs H1 H2. unfold advance. rewrite M_bind_eq. cbn [get]. rewrite Hs, M_bind_eq, (bind_Ok _ _ _ _ _ H1), H2. done.
Qed.

(** The shortcut for the next message of the chain is what [advance] does. *)
Lemma Decrypt_advance fresh hdr ct s s' pt :
  trySkipped hdr ct s = None → advance fresh hdr ct s = (s', Ok pt) → Decrypt fresh hdr ct s = (s', Ok pt).
Proof.
  intros Ht Ha. unfold Decrypt. rewrite Ht, Ha. destruct (ckr s) as [c|] eqn:Ec; [|done].
  destruct (sameDHr s (H_DH hdr) && (H_N hdr =? nr s)) eqn:E; [|done]. apply andb_prop in E as [Es En%Z.eqb_eq].
  unfold advance in Ha. rewrite (bind_Ok _ _ s s s eq_refl), Es in Ha. rewrite (bind_Ok _ _ s s tt eq_refl) in Ha.
  assert (skipMessageKeys (H_N hdr) s = (s, Ok tt)) as Hs by (unfold skipMessageKeys; by rewrite Ec, En, Z.sub_diag).
  rewrite (bind_Ok _ _ _ _ _ Hs) in Ha. unfold open_next in Ha. rewrite Ec in Ha. destruct (kdfCK c) as [c' mk].
  by destruct (aeadOpen mk (header_bytes hdr) ct).
Qed.

(** *** The ring grows at its end *)

Lemma keys_at_app sk ring l i : (i < length ring)%nat → keys_at sk (ring ++ l) i = keys_at sk ring i.
Proof.
  induction i as [|i IH]; intros Hi; [done|]. cbn [keys_at]. rewrite !lookup_app_l by lia. by rewrite IH by lia.
Qed.
Lemma of_chain_app ring l j m : of_chain ring j m → of_chain (ring ++ l) j m.
Proof. intros (kp & Hj & Hd). exists kp. split; [by apply lookup_app_l_Some|done]. Qed.
Lemma of_chain_unique ring j j' m : NoDup (Pub <$> ring) → of_chain ring j m → of_chain ring j' m → j = j'.
Proof.
  intros Hnd (k & Hj & Hd) (k' & Hj' & Hd'). rewrite Hd in Hd'.
  eapply (NoDup_lookup _ j j' (Pub k)); [exact Hnd| |]; rewrite list_lookup_fmap, ?Hj, ?Hj'; cbn; congruence.
Qed.
Lemma of_chain_lt ring j m : of_chain ring j m → (j < length ring)%nat.
Proof. intros (k & Hj%lookup_lt_Some & _). done. Qed.
Lemma genuine_chain sk ring L j m : genuine sk ring L j m → of_chain ring j m.
Proof. intros (kp & Hj & _ & _ & Hd & _). by exists kp. Qed.

(** A view is not disturbed by new keys, nor by what happens to frames for the other side. *)
Lemma view_frame sk ring l sent sent' side i nr store :
  view sk ring sent side i nr store → NoDup (Pub <$> ring ++ l) →
  (∀ k m, m_from m = negb side → sent' !! k = Some m ↔ sent !! k = Some m) →
  (∀ k m, sent !! k = Some m → ∃ j, of_chain ring j m) →
  view sk (ring ++ l) sent' side i nr store.
Proof.
  intros [Hdone Hstore] Hnd Hsent Hch.
  assert (∀ k m j, sent !! k = Some m → of_chain (ring ++ l) j m ↔ of_chain ring j m) as Hiff.
  { intros k m j Hm. split; [|apply of_chain_app]. intros Hj. destruct (Hch k m Hm) as [j' Hj'].
    by rewrite (of_chain_unique _ j j' m Hnd Hj (of_chain_app _ _ _ _ Hj')). }
  split.
  - intros k m j Hm Hf Hd Hj. rewrite Hsent in Hm by done. rewrite Hiff in Hj by done. by eapply Hdone.
  - intros key mk. rewrite Hstore. split; intros (k & m & j & Hm & Hf & Hd & Hj & Hp & Hk & Hmk); exists k, m, j.
    + rewrite Hsent by done. rewrite Hiff by done. unfold kept. rewrite keys_at_app by by eapply of_chain_lt. done.
    + rewrite Hsent in Hm by done. rewrite Hiff in Hj by done. unfold kept in *. rewrite keys_at_app in Hmk by by eapply of_chain_lt. done.
Qed.
Lemma party_frame sk ring l L L' i s :
  party sk ring L i s → L' i = L i → L' (i - 2)%nat = L (i - 2)%nat → L (i - 1)%nat ≤ L' (i - 1)%nat →
  party sk (ring ++ l) L' i s.
Proof.
  intros [Hs Hrk Hck Hn Hp Hr Hcr Hnr] Li Li2 Li1. pose proof (lookup_lt_Some _ _ _ Hs) as Hi. split.
  - by apply lookup_app_l_Some.
  - by rewrite keys_at_app.
  - rewrite Hck, keys_at_app, Li by done. done.
  - by rewrite Li.
  - by rewrite Li2.
  - rewrite Hr. destruct i as [|i]; [done|]. by rewrite lookup_app_l by lia.
  - rewrite Hcr. destruct i as [|[|i]]; [done..|]. by rewrite keys_at_app by lia.
  - lia.
Qed.

Lemma key_range_size d c a b : len d = 32 → 0 ≤ a ≤ b → b ≤ 2 ^ 32 → maplen (key_range d c a b) = b - a.
Proof.
  intros Hd Ha Hb. unfold maplen, key_range. rewrite map_size_list_to_map.
  - rewrite length_fmap, length_seqZ. lia.
  - rewrite <- list_fmap_compose. apply NoDup_fmap_2_strong; [|apply NoDup_seqZ].
    intros n n' Hn Hn' Heq. apply elem_of_seqZ in Hn, Hn'. cbn in Heq. apply skKey_inj in Heq; [tauto|done..|lia|lia].
Qed.

Lemma size_list_to_set_le (l : list string) : (size (list_to_set l : gset string) ≤ length l)%nat.
Proof.
  induction l as [|x l IH]; [done|]. cbn [list_to_set length]. rewrite size_union_alt, size_singleton.
  assert (size (list_to_set l ∖ {[x]} : gset string) ≤ size (list_to_set l : gset string))%nat by (apply subseteq_size, subseteq_difference_l; done). lia.
Qed.

Section at_a_state.
Context (sk : bytes) (w : Talk) (ix : bool → nat) (L : nat → Z).
Hypothesis Hinv : inv sk w ix L.
Abbreviation ring := (t_ring w).
Abbreviation sent := (t_sent w).
Abbreviation store side := (skipped (t_sess w side)).
Abbreviation next side := (nr (t_sess w side)).

Lemma pub_len j kp : ring !! j = Some kp → len (Pub kp) = 32.
Proof.
  intros Hj. pose proof (v_pubs _ _ _ _ Hinv) as Hp. rewrite Forall_lookup in Hp. rewrite (Hp j kp Hj). apply len_Public.
Qed.
Lemma sent_chain k m : sent !! k = Some m → ∃ j, of_chain ring j m.
Proof. intros Hm. destruct (v_sent _ _ _ _ Hinv k m Hm) as (j & _ & Hg). exists j. by eapply genuine_chain. Qed.
Lemma sent_genuine k m j : sent !! k = Some m → of_chain ring j m → (j ≤ ix (m_from m))%nat ∧ genuine sk ring L j m.
Proof.
  intros Hm Hj. destruct (v_sent _ _ _ _ Hinv k m Hm) as (j' & Hle & Hg).
  by rewrite (of_chain_unique ring j j' m (v_nodup _ _ _ _ Hinv) Hj (genuine_chain _ _ _ _ _ Hg)).
Qed.
Lemma sent_key k m : sent !! k = Some m → len (H_DH (m_hdr m)) = 32 ∧ 0 ≤ H_N (m_hdr m) < 2 ^ 32.
Proof.
  intros Hm. destruct (v_sent _ _ _ _ Hinv k m Hm) as (j & _ & kp & Hj & _ & _ & -> & _ & Hn & _).
  split; [by eapply pub_len|]. pose proof (v_L _ _ _ _ Hinv j). lia.
Qed.
(** A stored key names its frame. *)
Lemma same_frame k m k' m' :
  sent !! k = Some m → sent !! k' = Some m' →
  skKey (H_DH (m_hdr m)) (H_N (m_hdr m)) = skKey (H_DH (m_hdr m')) (H_N (m_hdr m')) → k = k'.
Proof.
  intros Hm Hm' Heq. destruct (sent_key k m Hm), (sent_key k' m' Hm'). apply skKey_inj in Heq as [Hd Hn]; [|done..].
  by eapply (v_uniq _ _ _ _ Hinv).
Qed.
Lemma no_key side k m j :
  sent !! k = Some m → of_chain ring j m → ¬ passed (ix side) (next side) j (H_N (m_hdr m)) →
  store side !! skKey (H_DH (m_hdr m)) (H_N (m_hdr m)) = None.
Proof.
  intros Hm Hj Hnp. apply eq_None_not_Some. intros [mk Hmk]. apply (v_store _ _ _ _ _ _ _ (v_view _ _ _ _ Hinv side)) in Hmk.
  destruct Hmk as (k' & m' & j' & Hm' & _ & _ & Hj' & Hp & Heq & _). pose proof (same_frame k m k' m' Hm Hm' Heq). subst k'.
  rewrite Hm in Hm'. injection Hm' as <-. rewrite (of_chain_unique ring j j' m (v_nodup _ _ _ _ Hinv) Hj Hj') in Hnp. done.
Qed.

(** Where a frame on its way to a side stands. *)
Lemma waiting_cases side k m :
  sent !! k = Some m → m_from m = negb side →
  ∃ j, genuine sk ring L j m ∧
    (passed (ix side) (next side) j (H_N (m_hdr m)) ∨ (S j = ix side ∧ next side ≤ H_N (m_hdr m)) ∨
     (j = S (ix side) ∧ ix (negb side) = S (ix side))).
Proof.
  intros Hm Hf. destruct (v_sent _ _ _ _ Hinv k m Hm) as (j & Hle & Hg). exists j. split; [done|]. rewrite Hf in Hle.
  assert (Nat.odd j = negb side) as Hpar by (destruct Hg as (kp & _ & _ & Hx & _); congruence).
  pose proof (v_side _ _ _ _ Hinv side) as Hs. pose proof (v_near _ _ _ _ Hinv (negb side)) as Hn. rewrite negb_involutive in Hn.
  assert (j ≠ ix side) by (intros ->; rewrite Hs in Hpar; by destruct side).
  destruct (decide (j < ix side)%nat); [|right; right; split; lia].
  destruct (decide (S j = ix side)); [|left; split; [done|lia]].
  destruct (Z_lt_ge_dec (H_N (m_hdr m)) (next side)); [left; by split|right; left; lia].
Qed.

(** Keys of waiting frames fit the store. *)
Lemma keys_fit side (M : gmap string bytes) :
  (∀ key mk, M !! key = Some mk → ∃ k m, sent !! k = Some m ∧ m_from m = negb side ∧ m_done m = false ∧
    key = skKey (H_DH (m_hdr m)) (H_N (m_hdr m))) →
  maplen M ≤ maxSkip.
Proof.
  intros HM. etrans; [|apply (v_room _ _ _ _ Hinv side)]. unfold maplen, len. apply Nat2Z.inj_le.
  set (keys := (λ m, skKey (H_DH (m_hdr m)) (H_N (m_hdr m))) <$> waiting side w).
  assert (dom M ⊆ (list_to_set keys : gset string)) as Hsub.
  { intros key [mk Hk]%elem_of_dom. destruct (HM key mk Hk) as (k & m & Hm & Hf & Hd & ->). apply elem_of_list_to_set, list_elem_of_fmap.
    exists m. split; [done|]. apply list_elem_of_filter. split; [done|]. by eapply list_elem_of_lookup_2. }
  rewrite <- size_dom. etrans; [by apply subseteq_size|]. rewrite <- (length_fmap (λ m, skKey (H_DH (m_hdr m)) (H_N (m_hdr m))) (waiting side w)).
  fold keys. apply size_list_to_set_le.
Qed.

(** A range of message keys of a chain, none of which was passed, is the keys of frames on
    their way. *)
Lemma range_frames side j kp a b key mk :
  ring !! j = Some kp → Nat.odd j = negb side → 0 ≤ a → b ≤ L j → (∀ n, a ≤ n < b → ¬ passed (ix side) (next side) j n) →
  key_range (Pub kp) (keys_at sk ring j).2 a b !! key = Some mk ↔
  ∃ k m, sent !! k = Some m ∧ m_from m = negb side ∧ m_done m = false ∧ of_chain ring j m ∧ a ≤ H_N (m_hdr m) < b ∧ kept sk ring j m key mk.
Proof.
  intros Hj Hpar Ha Hb Hnp. pose proof (v_L _ _ _ _ Hinv j) as HL. rewrite lookup_key_range by (by eapply pub_len || lia). split.
  - intros (n & Hn & -> & ->). destruct (v_all _ _ _ _ Hinv j n) as (k & m & Hm & Hg & HN); [lia|]. exists k, m.
    pose proof (genuine_chain _ _ _ _ _ Hg) as Hc. destruct Hg as (kp' & Hj' & _ & Hf & Hd & _). rewrite Hj in Hj'. injection Hj' as <-.
    rewrite Hpar in Hf. split; [done|]. split; [done|]. split.
    + destruct (m_done m) eqn:Ed; [|done]. exfalso. apply (Hnp n); [lia|]. rewrite <- HN. by eapply (v_done _ _ _ _ _ _ _ (v_view _ _ _ _ Hinv side)).
    + split; [done|]. unfold kept. by rewrite HN, Hd.
  - intros (k & m & Hm & _ & _ & (kp' & Hj' & Hd) & Hn & -> & ->). rewrite Hj in Hj'. injection Hj' as <-. exists (H_N (m_hdr m)). by rewrite Hd.
Qed.

(** *** A frame arrives *)

Lemma sent_after k m k' m' :
  sent !! k = Some m → <[k := arrived m]> sent !! k' = Some m' →
  ∃ m0, sent !! k' = Some m0 ∧ m_from m0 = m_from m' ∧ m_hdr m0 = m_hdr m' ∧ m_ct m0 = m_ct m' ∧ m_pt m0 = m_pt m' ∧
    (k' = k ∧ m_done m' = true ∨ k' ≠ k ∧ m0 = m').
Proof.
  intros Hm Hm'. apply list_lookup_insert_Some in Hm' as [(-> & <- & _)|[Hne Hm']].
  - exists m. by repeat split; auto.
  - exists m'. by repeat split; auto.
Qed.
Lemma genuine_same sk' ring' L' j m m' :
  m_from m = m_from m' → m_hdr m = m_hdr m' → m_ct m = m_ct m' → m_pt m = m_pt m' →
  genuine sk' ring' L' j m → genuine sk' ring' L' j m'.
Proof. intros Hf Hh Hc Hp (kp & ? & ? & ? & ? & ? & ? & ?). exists kp. rewrite <- Hf, <- Hh, <- Hc, <- Hp. done. Qed.
Lemma genuine_app l j m : genuine sk ring L j m → genuine sk (ring ++ l) L j m.
Proof.
  intros (kp & Hj & Hg). exists kp. split; [by apply lookup_app_l_Some|]. rewrite keys_at_app by by eapply lookup_lt_Some. done.
Qed.
Lemma room_after k m side s ring' :
  sent !! k = Some m → len (waiting side (mkTalk s (<[k := arrived m]> sent) ring')) ≤ maxSkip.
Proof.
  intros Hm. etrans; [|apply (v_room _ _ _ _ Hinv side)]. unfold len, waiting. apply Nat2Z.inj_le. cbn [t_sent].
  rewrite <- (take_drop_middle sent k m Hm) at 2. rewrite insert_take_drop by by eapply lookup_lt_Some.
  rewrite !filter_app, !length_app, !filter_cons, decide_False by (intros [_ Hd]; done).
  case_decide; cbn [length]; lia.
Qed.

(** The keys stay a good ring when a fresh one is added. *)
Lemma ring_after l :
  (l = [] ∨ ∃ f, l = [f] ∧ fresh_key ring f) →
  Forall (λ k, Pub k = x25519_Public (Priv k)) (ring ++ l) ∧ NoDup (Pub <$> ring ++ l) ∧
  ∀ i k k', (ring ++ l) !! i = Some k → (ring ++ l) !! S i = Some k' → ∃ s, dh (Priv k') (Pub k) = Ok s.
Proof.
  pose proof (v_pubs _ _ _ _ Hinv) as Hp. pose proof (v_nodup _ _ _ _ Hinv) as Hnd. pose proof (v_dh _ _ _ _ Hinv) as Hdh.
  intros [->|(f & -> & Hf & Hnew & k0 & x & Hlast & Hx)]; [by rewrite app_nil_r|]. split_and!.
  - apply Forall_app. split; [done|by repeat constructor].
  - rewrite fmap_app. apply NoDup_app. split; [done|]. split; [|apply NoDup_singleton]. by intros y Hy ->%list_elem_of_singleton.
  - intros i ka kb Ha Hb. destruct (decide (S i < length ring)%nat) as [Hlt|Hge].
    + rewrite lookup_app_l in Ha, Hb by lia. by eapply Hdh.
    + rewrite lookup_app_r in Hb by lia. pose proof (lookup_lt_Some _ _ _ Hb) as Hlt. cbn in Hlt. assert (S i = length ring) as Hi by lia.
      rewrite Hi, Nat.sub_diag in Hb. cbn in Hb. injection Hb as <-. rewrite lookup_app_l in Ha by lia.
      rewrite last_lookup, <- Hi in Hlast. cbn in Hlast. rewrite Ha in Hlast. injection Hlast as ->. by exists x.
Qed.
(** The frames stay genuine. *)
Lemma frames_after k m l :
  sent !! k = Some m → let sent' := <[k := arrived m]> sent in
  (∀ k' m', sent' !! k' = Some m' → ∃ j, (j ≤ ix (m_from m'))%nat ∧ genuine sk (ring ++ l) L j m') ∧
  (∀ j n, 0 ≤ n < L j → ∃ k' m', sent' !! k' = Some m' ∧ genuine sk (ring ++ l) L j m' ∧ H_N (m_hdr m') = n) ∧
  (∀ k1 k2 m1 m2, sent' !! k1 = Some m1 → sent' !! k2 = Some m2 →
    H_DH (m_hdr m1) = H_DH (m_hdr m2) → H_N (m_hdr m1) = H_N (m_hdr m2) → k1 = k2).
Proof.
  intros Hm sent'. split_and!.
  - intros k' m' Hm'. destruct (sent_after k m k' m' Hm Hm') as (m0 & Hm0 & Hf & Hh & Hc & Hpt & _).
    destruct (v_sent _ _ _ _ Hinv k' m0 Hm0) as (j & Hj & Hg). exists j. rewrite <- Hf. split; [done|]. by apply (genuine_same _ _ _ _ m0), genuine_app.
  - intros j n Hjn. destruct (v_all _ _ _ _ Hinv j n Hjn) as (k' & m' & Hm' & Hg & HN). destruct (decide (k' = k)) as [->|Hne].
    + exists k, (arrived m). rewrite Hm in Hm'. injection Hm' as <-. split; [apply list_lookup_insert_eq; by eapply lookup_lt_Some|].
      split; [by apply (genuine_same _ _ _ _ m), genuine_app|done].
    + exists k', m'. unfold sent'. rewrite list_lookup_insert_ne by done. split; [done|]. split; [by apply genuine_app|done].
  - intros k1 k2 m1 m2 H1 H2. destruct (sent_after k m k1 m1 Hm H1) as (m1' & Hm1 & _ & <- & _).
    destruct (sent_after k m k2 m2 Hm H2) as (m2' & Hm2 & _ & <- & _). by apply (v_uniq _ _ _ _ Hinv).
Qed.

(** The frame's receiver either stays in its chain, or ratchets to a fresh key. *)
Definition moves (side : bool) (l : list KeyPair) (i' : nat) : Prop :=
  l = [] ∧ i' = ix side ∨ ∃ f, l = [f] ∧ fresh_key ring f ∧ i' = S (S (ix side)) ∧ ix (negb side) = S (ix side).
Lemma inv_deliver k m side l s' i' :
  sent !! k = Some m → m_done m = false → side = negb (m_from m) → moves side l i' →
  party sk (ring ++ l) L i' s' →
  view sk (ring ++ l) (<[k := arrived m]> sent) side i' (nr s') (skipped s') →
  inv sk (mkTalk (set_sess side s' (t_sess w)) (<[k := arrived m]> sent) (ring ++ l)) (λ b, if bool_decide (b = side) then i' else ix b) L.
Proof.
  intros Hm Hd Hside Hl Hparty Hview. pose proof Hinv as [Hs Hn Hr _ _ _ HL HL0 HLhi Hpa Hv _ _ _ _].
  destruct (ring_after l) as (Hp & Hnd & Hdh); [destruct Hl as [[-> _]|(f & -> & ? & _)]; eauto|].
  destruct (frames_after k m l Hm) as (Hsent & Hall & Hu).
  assert (∀ b, b = side ∨ b = negb side) as Hb by (intros b; destruct b, side; auto).
  assert (ix side ≤ i')%nat as Hi' by (destruct Hl as [[_ ->]|(f & _ & _ & -> & _)]; lia).
  assert (∀ b, ix b ≤ (if bool_decide (b = side) then i' else ix b))%nat as Hge by (intros b; case_bool_decide; [by subst|done]).
  split; cbn [t_sess t_sent t_ring]; unfold set_sess; try done.
  - intros b. case_bool_decide as Eb; [subst b|apply Hs]. destruct Hl as [[_ ->]|(f & _ & _ & -> & _)]; apply Hs.
  - intros b. pose proof (Hn true) as N1. pose proof (Hn false) as N2. cbn [negb] in N1, N2. clear -Hl N1 N2.
    destruct Hl as [[_ ->]|(f & _ & _ & -> & Ho)]; destruct b, side; cbn [negb] in *; repeat case_bool_decide; done || lia.
  - rewrite length_app, Hr. clear -Hl.
    destruct Hl as [[-> ->]|(f & -> & _ & -> & Ho)]; cbn [length]; destruct side; cbn [negb] in *; repeat case_bool_decide; done || lia.
  - intros j Hj. apply HLhi. eapply Nat.le_lt_trans; [apply Hge|exact Hj].
  - intros b. case_bool_decide as Eb; [done|]. apply (party_frame _ _ _ L); [apply Hpa|done|done|lia].
  - intros b. case_bool_decide as Eb; [by subst|]. apply (view_frame _ _ _ sent); [apply Hv|done| |apply sent_chain].
    intros k' m' Hf. assert (b = m_from m) as -> by (destruct (Hb b) as [?|Hx]; [done|by rewrite Hx, Hside, negb_involutive]).
    rewrite list_lookup_insert_Some. split; [intros [(-> & <- & _)|[_ Hx]]; [cbn in Hf; by destruct (m_from m)|done]|].
    intros Hx. right. split; [intros ->; rewrite Hm in Hx; injection Hx as ->; by destruct (m_from m')|done].
  - intros k' m' Hm'. destruct (Hsent k' m' Hm') as (j & Hj & Hg). exists j. split; [etrans; [exact Hj|apply Hge]|done].
  - intros b. by eapply room_after.
Qed.

Lemma view_after ring' k m side i' nr' store' :
  sent !! k = Some m →
  (∀ j, of_chain ring' j m → passed i' nr' j (H_N (m_hdr m))) →
  (∀ k' m' j, sent !! k' = Some m' → m_from m' = negb side → m_done m' = true → of_chain ring' j m' → passed i' nr' j (H_N (m_hdr m'))) →
  (∀ key mk, store' !! key = Some mk ↔ ∃ k' m' j, k' ≠ k ∧ sent !! k' = Some m' ∧ m_from m' = negb side ∧ m_done m' = false ∧
     of_chain ring' j m' ∧ passed i' nr' j (H_N (m_hdr m')) ∧ kept sk ring' j m' key mk) →
  view sk ring' (<[k := arrived m]> sent) side i' nr' store'.
Proof.
  intros Hm Hthis Hdone Hstore. split.
  - intros k' m' j Hm' Hf Hd Hj. apply list_lookup_insert_Some in Hm' as [(-> & <- & _)|[Hne Hm']]; [by apply Hthis|by eapply Hdone].
  - intros key mk. rewrite Hstore. split.
    + intros (k' & m' & j & Hne & Hm' & Hrest). exists k', m', j. by rewrite list_lookup_insert_ne by done.
    + intros (k' & m' & j & Hm' & Hf & Hd & Hrest). apply list_lookup_insert_Some in Hm' as [(-> & <- & _)|[Hne Hm']]; [done|].
      by exists k', m', j.
Qed.

(** *** A frame already passed *)

Lemma deliver_passed fresh side k m j :
  sent !! k = Some m → m_from m = negb side → m_done m = false → genuine sk ring L j m → passed (ix side) (next side) j (H_N (m_hdr m)) →
  ∃ s', Decrypt fresh (m_hdr m) (m_ct m) (t_sess w side) = (s', Ok (m_pt m)) ∧ dhs s' = dhs (t_sess w side) ∧
    party sk ring L (ix side) s' ∧ view sk ring (<[k := arrived m]> sent) side (ix side) (nr s') (skipped s').
Proof.
  intros Hm Hf Hd Hg Hp. pose proof (v_view _ _ _ _ Hinv side) as [Hdone Hstore]. pose proof (genuine_chain _ _ _ _ _ Hg) as Hj.
  set (key := skKey (H_DH (m_hdr m)) (H_N (m_hdr m))).
  assert (store side !! key = Some (mk_at (keys_at sk ring j).2 (H_N (m_hdr m)))) as Hk by (apply Hstore; by exists k, m, j).
  eexists. split; [unfold Decrypt, trySkipped; fold key; rewrite Hk|].
  { destruct Hg as (kp & _ & _ & _ & _ & _ & _ & ->). rewrite Open_seal. reflexivity. }
  split; [done|]. split; [destruct (v_party _ _ _ _ Hinv side); by split|]. cbn [nr skipped].
  apply view_after; [done|..].
  - intros j' Hj'. by rewrite (of_chain_unique ring j' j m (v_nodup _ _ _ _ Hinv)).
  - intros; by eapply Hdone.
  - intros key' mk. rewrite lookup_delete_Some, Hstore. split.
    + intros (Hne & k' & m' & j' & Hm' & Hrest). exists k', m', j'. split; [|done]. intros ->. rewrite Hm in Hm'. injection Hm' as <-.
      destruct Hrest as (_ & _ & _ & _ & -> & _). done.
    + intros (k' & m' & j' & Hne & Hm' & Hrest). split; [|by exists k', m', j']. intros Heq. apply Hne.
      destruct Hrest as (_ & _ & _ & _ & Hk' & _). eapply (same_frame k' m' k m); [done..|]. by rewrite <- Hk'.
Qed.

(** *** Skipping within a chain *)

(** Keys from message [a] on of chain [j] go well with a store of other waiting frames. *)
Lemma range_room side j kp a b (St : gmap string bytes) :
  ring !! j = Some kp → Nat.odd j = negb side → 0 ≤ a ≤ b → b ≤ L j → (∀ n, a ≤ n < b → ¬ passed (ix side) (next side) j n) →
  (∀ key mk, St !! key = Some mk → ∃ k m j', sent !! k = Some m ∧ m_from m = negb side ∧ m_done m = false ∧ of_chain ring j' m ∧
     (j' = j → H_N (m_hdr m) < a) ∧ key = skKey (H_DH (m_hdr m)) (H_N (m_hdr m))) →
  let R := key_range (Pub kp) (keys_at sk ring j).2 a b in
  R ##ₘ St ∧ maplen (R ∪ St) ≤ maxSkip ∧ b - a ≤ maxSkip ∧ (∀ n, a ≤ n < b → St !! skKey (Pub kp) n = None).
Proof.
  intros Hj Hpar Ha Hb Hnp HS R. pose proof (λ key mk, range_frames side j kp a b key mk Hj Hpar (proj1 Ha) Hb Hnp) as HR. fold R in HR.
  pose proof (v_L _ _ _ _ Hinv j) as HL.
  assert (R ##ₘ St) as Hdis.
  { apply map_disjoint_spec. intros key x y Hx Hy. apply HR in Hx as (k & m & Hm & _ & _ & Hc & Hn & Hk & _).
    destruct (HS key y Hy) as (k' & m' & j' & Hm' & _ & _ & Hc' & Hlt & Hk'). rewrite Hk in Hk'.
    pose proof (same_frame k m k' m' Hm Hm' Hk'). subst k'. rewrite Hm in Hm'. injection Hm' as <-.
    rewrite (of_chain_unique ring j' j m (v_nodup _ _ _ _ Hinv)) in Hlt by done. specialize (Hlt eq_refl). lia. }
  split; [done|]. split_and!.
  - apply (keys_fit side). intros key mk [Hx|Hx]%lookup_union_Some; [|apply HS in Hx|done].
    + apply HR in Hx as (k & m & Hm & Hf & Hd & _ & _ & Hk & _). by exists k, m.
    + destruct Hx as (k & m & j' & Hm & Hf & Hd & _ & _ & Hk). by exists k, m.
  - rewrite <- (key_range_size (Pub kp) (keys_at sk ring j).2 a b) by (by eapply pub_len || lia). apply (keys_fit side).
    intros key mk Hx%HR. destruct Hx as (k & m & Hm & Hf & Hd & _ & _ & Hk & _). by exists k, m.
  - intros n Hn. apply (map_disjoint_Some_l R St _ (mk_at (keys_at sk ring j).2 n) Hdis). apply lookup_key_range; [by eapply pub_len|lia|lia|].
    by exists n.
Qed.

(** No key is stored for a frame not passed. *)
Lemma not_skipped side k m j :
  sent !! k = Some m → of_chain ring j m → ¬ passed (ix side) (next side) j (H_N (m_hdr m)) →
  trySkipped (m_hdr m) (m_ct m) (t_sess w side) = None.
Proof. intros Hm Hj Hp. unfold trySkipped. by rewrite (no_key side k m j Hm Hj Hp). Qed.

(** The view once the side stepped to the frame in its receiving chain, from a store [St] of
    the frames of earlier chains and those of chain [j] before [a]. *)
Lemma view_next ring' i' k m side j kp a (St : gmap string bytes) l :
  ring' = ring ++ l → NoDup (Pub <$> ring') →
  sent !! k = Some m → m_from m = negb side → m_done m = false → of_chain ring j m → ring !! j = Some kp → Nat.odd j = negb side →
  S j = i' → 0 ≤ a ≤ H_N (m_hdr m) → H_N (m_hdr m) ≤ L j → (∀ n, a ≤ n → ¬ passed (ix side) (next side) j n) →
  key_range (Pub kp) (keys_at sk ring j).2 a (H_N (m_hdr m)) ##ₘ St →
  (∀ key mk, St !! key = Some mk ↔ ∃ k' m' j', sent !! k' = Some m' ∧ m_from m' = negb side ∧ m_done m' = false ∧ of_chain ring j' m' ∧
     (j' < i')%nat ∧ (j' = j → H_N (m_hdr m') < a) ∧ kept sk ring j' m' key mk) →
  (∀ k' m' j', sent !! k' = Some m' → m_from m' = negb side → m_done m' = true → of_chain ring j' m' → (j' < i')%nat ∧ (j' = j → H_N (m_hdr m') < a)) →
  view sk ring' (<[k := arrived m]> sent) side i' (H_N (m_hdr m) + 1) (key_range (Pub kp) (keys_at sk ring j).2 a (H_N (m_hdr m)) ∪ St).
Proof.
  intros -> Hnd Hm Hf Hd Hc Hj Hpar <- Ha HL Hnp Hdis HSt Hdone.
  assert (∀ k m j, sent !! k = Some m → of_chain (ring ++ l) j m → of_chain ring j m) as Hback.
  { intros k' m' j' Hm' Hc'. destruct (sent_chain k' m' Hm') as [j2 Hj2].
    by rewrite (of_chain_unique _ j' j2 m' Hnd Hc' (of_chain_app _ _ _ _ Hj2)). }
  assert (∀ m' j' key mk, of_chain ring j' m' → kept sk (ring ++ l) j' m' key mk ↔ kept sk ring j' m' key mk) as Hkept.
  { intros m' j' key mk Hc'. unfold kept. by rewrite keys_at_app by by eapply of_chain_lt. }
  apply view_after; [done|..].
  - intros j' Hj'%(Hback k m j' Hm). rewrite (of_chain_unique ring j' j m (v_nodup _ _ _ _ Hinv)) by done. split; lia.
  - intros k' m' j' Hm' Hf' Hd' Hj'%(Hback k' m' j' Hm'). destruct (Hdone k' m' j' Hm' Hf' Hd' Hj') as [Hlt Hx]. split; [done|].
    intros [= ->]. specialize (Hx eq_refl). lia.
  - intros key mk. rewrite lookup_union_Some, (range_frames side j kp a (H_N (m_hdr m)) key mk Hj Hpar), HSt; [|lia|lia|intros; apply Hnp; lia|done]. split.
    + intros [(k' & m' & Hm' & Hf' & Hd' & Hc' & Hn & Hk)|(k' & m' & j' & Hm' & Hf' & Hd' & Hc' & Hlt & Hx & Hk)].
      * exists k', m', j. rewrite Hkept by done. split; [intros ->; rewrite Hm in Hm'; injection Hm' as <-; lia|].
        split_and!; try done; [by apply of_chain_app|]. split; lia.
      * exists k', m', j'. rewrite Hkept by done. split.
        { intros ->. rewrite Hm in Hm'. injection Hm' as <-. rewrite (of_chain_unique ring j' j m (v_nodup _ _ _ _ Hinv)) in Hx by done. specialize (Hx eq_refl). lia. }
        split_and!; try done; [by apply of_chain_app|]. split; [done|]. intros [= ->]. specialize (Hx eq_refl). lia.
    + intros (k' & m' & j' & Hne & Hm' & Hf' & Hd' & Hc' & [Hlt Hx] & Hk). apply (Hback k' m' j' Hm') in Hc'. rewrite Hkept in Hk by done.
      destruct (decide (j' = j)) as [->|Hjne]; [|right; by exists k', m', j'].
      destruct (Z_lt_ge_dec (H_N (m_hdr m')) a) as [Hlo|Hhi]; [right; by exists k', m', j|left]. exists k', m'. split_and!; try done; [lia|].
      specialize (Hx eq_refl). assert (H_N (m_hdr m') ≠ H_N (m_hdr m)); [|lia]. intros Heq. apply Hne.
      destruct Hc as (kp1 & Hk1 & Hd1), Hc' as (kp2 & Hk2 & Hd2). apply (v_uniq _ _ _ _ Hinv k' k m' m); [done..| |done]. congruence.
Qed.

Lemma deliver_next fresh side k m j :
  sent !! k = Some m → m_from m = negb side → m_done m = false → genuine sk ring L j m → S j = ix side → next side ≤ H_N (m_hdr m) →
  ∃ s', Decrypt fresh (m_hdr m) (m_ct m) (t_sess w side) = (s', Ok (m_pt m)) ∧ dhs s' = dhs (t_sess w side) ∧
    party sk ring L (ix side) s' ∧ view sk ring (<[k := arrived m]> sent) side (ix side) (nr s') (skipped s').
Proof.
  intros Hm Hf Hd Hg Hij Hn. pose proof (v_view _ _ _ _ Hinv side) as [Hdone Hstore]. pose proof (genuine_chain _ _ _ _ _ Hg) as Hc.
  destruct (v_party _ _ _ _ Hinv side) as [Hs Hrk Hck Hns Hpn Hr Hcr Hnr]. rewrite <- Hij in *.
  destruct Hg as (kp & Hj & Hj1 & Hfrom & HDH & HPN & HN & Hct). destruct j as [|j]; [lia|]. rewrite Hj in Hr. cbn [fmap option_fmap option_map] in Hr.
  rewrite Hf in Hfrom. assert (∀ n, next side ≤ n < H_N (m_hdr m) → ¬ passed (ix side) (next side) (S j) n) as Hnp.
  { intros n Hlt [_ Hp]. rewrite <- Hij in Hp. specialize (Hp eq_refl). lia. }
  assert (¬ passed (ix side) (next side) (S j) (H_N (m_hdr m))) as Hthis by (intros [_ Hp]; rewrite <- Hij in Hp; specialize (Hp eq_refl); lia).
  destruct (range_room side (S j) kp (next side) (H_N (m_hdr m)) (store side) Hj (eq_sym Hfrom)) as (Hdis & Hroom & Hskip & Hnew);
    [lia | lia | done | |].
  { intros key mk Hk%Hstore. destruct Hk as (k' & m' & j' & Hm' & Hf' & Hd' & Hc' & [_ Hp] & Hk & _). exists k', m', j'. split_and!; try done. intros ->. by apply Hp. }
  pose proof (v_L _ _ _ _ Hinv (S j)) as HL.
  destruct (tail_run (Pub kp) (keys_at sk ring (S j)).2 (m_hdr m) (m_ct m) (m_pt m) (t_sess w side)) as [order Htail];
    [done | by eapply pub_len | done | lia | lia | lia | unfold maxSkippedKeys, maxSkip in *; lia | done | done |].
  eexists. split; [apply Decrypt_advance|].
  - by apply (not_skipped side k m (S j)).
  - rewrite advance_same; [exact Htail|]. unfold sameDHr. by rewrite Hr, bool_decide_true.
  - split; [done|]. split.
    + split; cbn [dhs dhr rk cks ckr ns nr pn skipped skippedOrder]; try done; [by rewrite Hr, Hj|]. cbn [Nat.sub]. lia.
    + cbn [nr skipped]. eapply (view_next ring _ k m side (S j) kp (next side) (store side) []); try done.
      * by rewrite app_nil_r.
      * apply (v_nodup _ _ _ _ Hinv).
      * lia.
      * lia.
      * intros n Hlt [_ Hp]. rewrite <- Hij in Hp. specialize (Hp eq_refl). lia.
      * intros key mk. rewrite Hstore. split; intros (k' & m' & j' & Hm' & Hf' & Hd' & Hc' & Hp).
        { destruct Hp as [[Hlt Hp] Hk]. exists k', m', j'. split_and!; try done. intros ->. by apply Hp. }
        { destruct Hp as (Hlt & Hp & Hk). exists k', m', j'. split_and!; try done. split; [done|]. intros [= ->]. by apply Hp. }
      * intros k' m' j' Hm' Hf' Hd' Hc'. destruct (Hdone k' m' j' Hm' Hf' Hd' Hc') as [Hlt Hp]. split; [done|]. intros ->. by apply Hp.
Qed.

(** *** A frame under a new key *)

(** First the rest of the receiving chain is skipped. *)
Lemma skip_previous side :
  ∃ s1, skipMessageKeys (L (ix side - 1)%nat) (t_sess w side) = (s1, Ok tt) ∧
    dhs s1 = dhs (t_sess w side) ∧ rk s1 = rk (t_sess w side) ∧ ns s1 = ns (t_sess w side) ∧
    ∀ key mk, skipped s1 !! key = Some mk ↔ ∃ k m j, sent !! k = Some m ∧ m_from m = negb side ∧ m_done m = false ∧
      of_chain ring j m ∧ (j < ix side)%nat ∧ kept sk ring j m key mk.
Proof.
  pose proof (v_view _ _ _ _ Hinv side) as [Hdone Hstore]. destruct (v_party _ _ _ _ Hinv side) as [Hs _ _ _ _ Hr Hcr Hnr].
  pose proof (v_side _ _ _ _ Hinv side) as Hpar.
  destruct (decide (ix side ≤ 1)%nat) as [Hle|Hgt].
  - assert (ckr (t_sess w side) = None) as Ec by (rewrite Hcr; destruct (ix side) as [|[|]]; done || lia).
    exists (t_sess w side). split; [unfold skipMessageKeys; by rewrite Ec|]. split_and!; try done. intros key mk. rewrite Hstore.
    split; intros (k & m & j & Hm & Hf & Hd & Hc & Hp); exists k, m, j; [by destruct Hp as [[? _] ?]|].
    destruct Hp as [Hlt Hk]. destruct (sent_genuine k m j Hm Hc) as (_ & kp & _ & Hj & _). lia.
  - destruct (ix side) as [|[|j]] eqn:Ei; [lia..|]. clear Hgt. cbn [Nat.sub]. rewrite ?Nat.sub_0_r. assert (Nat.odd (S j) = negb side) as Hpar'.
    { rewrite <- Hpar. change (Nat.odd (S (S j))) with (Nat.odd j). rewrite Nat.odd_succ, <- Nat.negb_odd. done. }
    destruct (ring !! S j) as [kp|] eqn:Hj; [|apply lookup_ge_None in Hj; apply lookup_lt_Some in Hs; lia].
    cbn [Nat.sub] in Hnr. rewrite ?Nat.sub_0_r in Hnr. cbn [fmap option_fmap option_map] in Hr.
    destruct (range_room side (S j) kp (next side) (L (S j)) (store side) Hj Hpar') as (Hdis & Hroom & Hskip & Hnew); [done|lia| | |].
    { intros n Hn [_ Hp]. rewrite Ei in Hp. specialize (Hp eq_refl). lia. }
    { intros key mk Hk%Hstore. destruct Hk as (k & m & j' & Hm & Hf & Hd & Hc & [_ Hp] & Hk & _). exists k, m, j'. split_and!; try done. intros ->. by apply Hp. }
    pose proof (v_L _ _ _ _ Hinv (S j)) as HL.
    destruct (skip_run (Pub kp) (keys_at sk ring (S j)).2 (L (S j)) (t_sess w side)) as [order Hrun];
      [done | by eapply pub_len | done | lia | lia | lia | unfold maxSkippedKeys, maxSkip in *; lia | done |].
    eexists. split; [exact Hrun|]. split_and!; try done. intros key mk. cbn [skipped].
    rewrite lookup_union_Some, (range_frames side (S j) kp), Hstore; [|done|done|lia|lia| |done]. 2: { intros n Hn [_ Hp]. rewrite Ei in Hp. specialize (Hp eq_refl). lia. }
    split.
    + intros [(k & m & Hm & Hf & Hd & Hc & _ & Hk)|(k & m & j' & Hm & Hf & Hd & Hc & [Hlt _] & Hk)]; [exists k, m, (S j)|exists k, m, j']; split_and!; try done; lia.
    + intros (k & m & j' & Hm & Hf & Hd & Hc & Hlt & Hk). destruct (decide (j' = S j)) as [->|Hne].
      * destruct (Z_lt_ge_dec (H_N (m_hdr m)) (next side)) as [Hlo|Hhi]; [right; exists k, m, (S j); split_and!; try done; by split|].
        left. exists k, m. split_and!; try done; destruct (sent_genuine k m (S j) Hm Hc) as (_ & kp0 & _ & _ & _ & _ & _ & HN & _); lia.
      * right. exists k, m, j'. split_and!; try done. split; [done|]. intros [= ->]. done.
Qed.

(** Then both chains are renewed, from the same secrets the peer has. *)
Lemma ratchet_run side f kp hdr s1 :
  fresh_key ring f → ix (negb side) = S (ix side) → ring !! S (ix side) = Some kp → H_DH hdr = Pub kp →
  dhs s1 = dhs (t_sess w side) → rk s1 = rk (t_sess w side) →
  let '(rk', ck') := keys_at sk (ring ++ [f]) (S (S (ix side))) in
  dhRatchet (Ok f) hdr s1 =
    (mkSession f (Some (Pub kp)) rk' (Some ck') (Some (keys_at sk ring (S (ix side))).2) 0 0 (ns s1) (skipped s1) (skippedOrder s1), Ok tt) ∧
  (ring ++ [f]) !! S (S (ix side)) = Some f.
Proof.
  intros (Hpub & _ & k0 & x & Hlast & Hx) Ho Hkp HDH Hdhs Hrk. destruct (v_party _ _ _ _ Hinv side) as [Hs Hrk0 _ _ _ _ _ _].
  assert (length ring = S (S (ix side))) as Hlen.
  { rewrite (v_ring _ _ _ _ Hinv). destruct side; cbn [negb] in Ho; lia. }
  assert (k0 = kp) as -> by (rewrite last_lookup, Hlen in Hlast; cbn in Hlast; congruence).
  assert ((ring ++ [f]) !! S (S (ix side)) = Some f) as Hf by (rewrite lookup_app_r, Hlen, Nat.sub_diag by lia; done).
  destruct (v_dh _ _ _ _ Hinv (ix side) (dhs (t_sess w side)) kp Hs Hkp) as [y Hy].
  assert (dh (Priv (dhs (t_sess w side))) (Pub kp) = Ok y) as Hy'.
  { pose proof (v_pubs _ _ _ _ Hinv) as Hp. rewrite Forall_lookup in Hp. unfold dh in *. rewrite (Hp _ _ Hkp), ECDH_agrees, <- (Hp _ _ Hs). done. }
  assert (keys_at sk ring (S (ix side)) = kdfRK (rk s1) y) as HK.
  { cbn [keys_at]. rewrite Hs, Hkp, Hrk, Hrk0. unfold shared. by rewrite Hy. }
  assert (keys_at sk (ring ++ [f]) (S (S (ix side))) = kdfRK (kdfRK (rk s1) y).1 x) as HK2.
  { change (keys_at sk (ring ++ [f]) (S (S (ix side)))) with
      (match (ring ++ [f]) !! S (ix side), (ring ++ [f]) !! S (S (ix side)) with
       | Some k, Some k' => kdfRK (keys_at sk (ring ++ [f]) (S (ix side))).1 (shared (Priv k') (Pub k)) | _, _ => ([], []) end).
    rewrite Hf, lookup_app_l, Hkp, keys_at_app, HK by lia. unfold shared. by rewrite Hx. }
  rewrite HK2, HK. destruct (kdfRK (rk s1) y) as [rk1 ck1] eqn:E1. cbn [fst snd]. destruct (kdfRK rk1 x) as [rk2 ck2] eqn:E2. split; [|done].
  unfold dhRatchet, PublicKeyFromBytes. rewrite HDH, (pub_len _ _ Hkp). cbn [Z.eqb Pos.eqb]. cbn [dhs dhr rk cks ckr ns nr pn skipped skippedOrder].
  rewrite Hdhs, Hy', E1. cbn [dhs dhr rk cks ckr ns nr pn skipped skippedOrder]. by rewrite Hx, E2.
Qed.

Lemma deliver_ratchet f side k m :
  sent !! k = Some m → m_from m = negb side → m_done m = false → genuine sk ring L (S (ix side)) m → ix (negb side) = S (ix side) → fresh_key ring f →
  ∃ s', Decrypt (Ok f) (m_hdr m) (m_ct m) (t_sess w side) = (s', Ok (m_pt m)) ∧ dhs s' = f ∧
    party sk (ring ++ [f]) L (S (S (ix side))) s' ∧ view sk (ring ++ [f]) (<[k := arrived m]> sent) side (S (S (ix side))) (nr s') (skipped s').
Proof.
  intros Hm Hf Hd Hg Ho Hfresh. pose proof (v_view _ _ _ _ Hinv side) as [Hdone Hstore]. pose proof (genuine_chain _ _ _ _ _ Hg) as Hc.
  destruct (v_party _ _ _ _ Hinv side) as [Hs _ _ Hns _ Hr _ _]. pose proof (v_L _ _ _ _ Hinv (S (ix side))) as HL.
  destruct Hg as (kp & Hkp & _ & Hfrom & HDH & HPN & HN & Hct). rewrite Hf in Hfrom. cbn [Nat.sub] in HPN.
  assert (∀ n, ¬ passed (ix side) (next side) (S (ix side)) n) as Hnp by (intros n [Hlt _]; lia).
  destruct (skip_previous side) as (s1 & H1 & Hd1 & Hk1 & Hn1 & Hst1).
  pose proof (ratchet_run side f kp (m_hdr m) s1 Hfresh Ho Hkp HDH Hd1 Hk1) as Hrat. destruct (keys_at sk (ring ++ [f]) (S (S (ix side)))) as [rk' ck'] eqn:EK.
  destruct Hrat as [H2 Hlook]. set (s2 := mkSession f (Some (Pub kp)) rk' _ _ _ _ _ _ _) in H2.
  destruct (range_room side (S (ix side)) kp 0 (H_N (m_hdr m)) (skipped s1) Hkp (eq_sym Hfrom)) as (Hdis & Hroom & Hskip & Hnew); [lia|lia|by intros| |].
  { intros key mk Hk%Hst1. destruct Hk as (k' & m' & j' & Hm' & Hf' & Hd' & Hc' & Hlt & Hk & _). exists k', m', j'. split_and!; try done. lia. }
  destruct (tail_run (Pub kp) (keys_at sk ring (S (ix side))).2 (m_hdr m) (m_ct m) (m_pt m) s2) as [order Htail];
    [done | by eapply pub_len | done | change (nr s2) with 0; lia | lia | change (nr s2) with 0; lia
    | change (nr s2) with 0; change (skipped s2) with (skipped s1); unfold maxSkippedKeys, maxSkip in *; lia | done | done |].
  destruct (ring_after [f]) as (_ & Hnd & _); [right; by exists f|].
  eexists. split; [apply Decrypt_advance; [by eapply not_skipped|rewrite (advance_other _ _ _ _ s1 s2); [exact Htail| |by rewrite HPN|done]]|].
  { unfold sameDHr. rewrite Hr. destruct (ix side) as [|i] eqn:Ei; [done|]. destruct (ring !! i) as [ki|] eqn:Hi; [|done]. cbn. rewrite HDH. apply bool_decide_eq_false.
    intros Heq. pose proof (NoDup_lookup _ i (S (S i)) (Pub ki) (v_nodup _ _ _ _ Hinv)) as Hx. rewrite !list_lookup_fmap, Hi, Hkp in Hx. cbn in Hx.
    specialize (Hx eq_refl ltac:(congruence)). lia. }
  split; [done|]. split.
  - split; cbn [dhs dhr rk cks ckr ns nr pn skipped skippedOrder s2]; try done.
    + by rewrite EK.
    + rewrite EK, (v_Lhi _ _ _ _ Hinv (S (S (ix side)))); [done|]. change (Nat.odd (S (S (ix side)))) with (Nat.odd (ix side)). rewrite (v_side _ _ _ _ Hinv). lia.
    + rewrite (v_Lhi _ _ _ _ Hinv (S (S (ix side)))); [done|]. change (Nat.odd (S (S (ix side)))) with (Nat.odd (ix side)). rewrite (v_side _ _ _ _ Hinv). lia.
    + cbn [Nat.sub]. by rewrite Nat.sub_0_r, Hn1.
    + rewrite lookup_app_l, Hkp by by eapply lookup_lt_Some. done.
    + rewrite keys_at_app by by eapply lookup_lt_Some. done.
    + cbn [Nat.sub]. lia.
  - cbn [nr skipped s2]. eapply (view_next _ _ k m side (S (ix side)) kp 0 (skipped s1) [f]); try done; [lia|lia|..].
    + intros key mk. rewrite Hst1. split; intros (k' & m' & j' & Hm' & Hf' & Hd' & Hc' & Hlt & Hk); exists k', m', j'; split_and!; try done; try lia.
      * destruct Hk as [Hz _]. destruct (decide (j' = S (ix side))) as [->|]; [specialize (Hz eq_refl); pose proof (sent_key k' m' Hm'); lia|].
        destruct (sent_genuine k' m' j' Hm' Hc') as (_ & _ & _ & _ & Hodd & _). pose proof (v_side _ _ _ _ Hinv side) as Hs'.
        assert (j' ≠ ix side); [|lia]. intros ->. rewrite Hf', Hs' in Hodd. by destruct side.
      * by destruct Hk.
    + intros k' m' j' Hm' Hf' Hd' Hc'. destruct (Hdone k' m' j' Hm' Hf' Hd' Hc') as [Hlt _]. lia.
Qed.

(** *** A frame is sent *)

Lemma view_send m side i nr store' :
  view sk ring sent side i nr store' → m_done m = false → (∀ j, of_chain ring j m → ¬ passed i nr j (H_N (m_hdr m))) →
  view sk ring (sent ++ [m]) side i nr store'.
Proof.
  intros [Hdone Hstore] Hd Hnp. split.
  - intros k' m' j Hm' Hf' Hd' Hj. apply lookup_app_Some in Hm' as [Hm'|[_ Hm']]; [by eapply Hdone|].
    apply list_lookup_singleton_Some in Hm' as [_ <-]. congruence.
  - intros key mk. rewrite Hstore. split; intros (k' & m' & j & Hm' & Hrest); exists k', m', j.
    + split; [by apply lookup_app_l_Some|done].
    + split; [|done]. apply lookup_app_Some in Hm' as [Hm'|[_ Hm']]; [done|]. apply list_lookup_singleton_Some in Hm' as [_ <-].
      destruct Hrest as (_ & _ & Hj & Hp & _). by destruct (Hnp j Hj).
Qed.

(** The chain lengths after a send in chain [i]. *)
Definition longer (i : nat) : nat → Z := λ j, if bool_decide (j = i) then L i + 1 else L j.
Lemma genuine_longer i j m : (1 ≤ i)%nat → (j ≤ ix (m_from m))%nat → i = ix (Nat.odd i) → genuine sk ring L j m → genuine sk ring (longer i) j m.
Proof.
  intros Hi Hj Hii (kp & Hkp & Hj1 & Hf & HDH & HPN & HN & Hct). exists kp. split_and!; try done.
  - rewrite HPN. unfold longer. rewrite bool_decide_false; [done|]. intros He. assert (j = S (S i)) as -> by lia.
    rewrite Hf in Hj. change (Nat.odd (S (S i))) with (Nat.odd i) in Hj. lia.
  - lia.
  - unfold longer. case_bool_decide; [subst|]; lia.
Qed.

(** The frame [Encrypt] makes, and the session it leaves. *)
Lemma send_frame side pt s' h ct (i := ix side) (s := t_sess w side) :
  cks s ≠ None → ns s < 2 ^ 32 - 1 → Encrypt pt s = (s', Ok (h, ct)) →
  let m := mkMsg side h ct pt false in
  (1 ≤ i)%nat ∧ genuine sk ring (longer i) i m ∧ H_N h = L i ∧ party sk ring (longer i) i s' ∧
  nr s' = nr s ∧ skipped s' = skipped s.
Proof.
  intros Hck Hns HE m. destruct (v_party _ _ _ _ Hinv side) as [Hs Hrk Hcks Hn Hp Hr Hcr Hnr]. fold s i in Hs, Hrk, Hcks, Hn, Hp, Hr, Hcr, Hnr.
  assert (1 ≤ i)%nat as Hi by (destruct i; [by rewrite Hcks in Hck|lia]). pose proof (v_L _ _ _ _ Hinv i) as HL.
  assert (cks s = Some (ck_at (keys_at sk ring i).2 (L i))) as Hc by (rewrite Hcks; destruct i; [lia|done]).
  unfold Encrypt in HE. rewrite Hc in HE. cbn [default from_option id] in HE.
  pose proof (ck_at_succ (keys_at sk ring i).2 (L i) (proj1 HL)) as Hsucc.
  assert (mk_at (keys_at sk ring i).2 (L i) = (kdfCK (ck_at (keys_at sk ring i).2 (L i))).2) as Hmk by done.
  destruct (kdfCK (ck_at (keys_at sk ring i).2 (L i))) as [c' mk]. cbn [fst snd] in Hsucc, Hmk. injection HE as <- <- <-.
  assert (longer i i = L i + 1) as HLi by (unfold longer; by rewrite bool_decide_true).
  assert (∀ j, j ≠ i → longer i j = L j) as HLo by (intros j Hj; unfold longer; by rewrite bool_decide_false).
  split; [done|]. split_and!; [|done| |done|done].
  - exists (dhs s). unfold m. cbn [m_from m_hdr m_ct m_pt H_DH H_PN H_N header_bytes H_raw]. rewrite HLi, Hn, Hmk, HLo, Hp by lia. split_and!; try done; try lia.
    symmetry. apply (v_side _ _ _ _ Hinv).
  - split; cbn [dhs dhr rk cks ckr ns nr pn skipped skippedOrder]; try done.
    + rewrite HLi. destruct i; [lia|]. by rewrite Hsucc.
    + by rewrite HLi, Hn, u32_small by lia.
    + by rewrite HLo by lia.
    + by rewrite HLo by lia.
Qed.

Lemma room_send side m s' ring' :
  m_from m = negb (negb side) → len (waiting (negb side) w) < maxSkip →
  ∀ b, len (waiting b (mkTalk s' (sent ++ [m]) ring')) ≤ maxSkip.
Proof.
  intros Hf Hroom b. unfold waiting. cbn [t_sent]. rewrite filter_app, len_app. pose proof (v_room _ _ _ _ Hinv b) as Hb.
  fold (waiting b w). rewrite filter_cons, filter_nil. case_decide as Hd; [|rewrite len_nil; lia]. rewrite len_cons, len_nil.
  destruct Hd as [Hd _]. rewrite Hf in Hd. assert (b = negb side) as -> by (destruct b, side; done). lia.
Qed.
Lemma frames_send i m :
  (1 ≤ i)%nat → i = ix (Nat.odd i) → m_from m = Nat.odd i → genuine sk ring (longer i) i m → H_N (m_hdr m) = L i →
  (∀ k' m', (sent ++ [m]) !! k' = Some m' → ∃ j, (j ≤ ix (m_from m'))%nat ∧ genuine sk ring (longer i) j m') ∧
  (∀ j n, 0 ≤ n < longer i j → ∃ k' m', (sent ++ [m]) !! k' = Some m' ∧ genuine sk ring (longer i) j m' ∧ H_N (m_hdr m') = n) ∧
  (∀ k1 k2 m1 m2, (sent ++ [m]) !! k1 = Some m1 → (sent ++ [m]) !! k2 = Some m2 →
    H_DH (m_hdr m1) = H_DH (m_hdr m2) → H_N (m_hdr m1) = H_N (m_hdr m2) → k1 = k2).
Proof.
  intros Hi Hii Hf Hg HN.
  assert (∀ k' m', sent !! k' = Some m' → H_DH (m_hdr m') = H_DH (m_hdr m) → H_N (m_hdr m') ≠ H_N (m_hdr m)) as Hdiff.
  { intros k' m' Hm' HD HN'. destruct (genuine_chain _ _ _ _ _ Hg) as (kp & Hkp & Hd). destruct (sent_genuine k' m' i Hm') as (_ & kp' & _ & _ & _ & _ & _ & Hlt & _);
      [exists kp; split; [done|congruence]|]. lia. }
  split_and!.
  - intros k' m' [Hm'|[_ Hm']]%lookup_app_Some.
    + destruct (v_sent _ _ _ _ Hinv k' m' Hm') as (j & Hj & Hgj). exists j. split; [done|]. by apply genuine_longer.
    + apply list_lookup_singleton_Some in Hm' as [_ <-]. exists i. rewrite Hf. split; [lia|done].
  - intros j n Hn. unfold longer in Hn. destruct (decide (j = i ∧ n = L i)) as [[-> ->]|Hne].
    + exists (length sent), m. split; [by apply list_lookup_middle|done].
    + destruct (v_all _ _ _ _ Hinv j n) as (k' & m' & Hm' & Hgj & HNj); [case_bool_decide; [subst|]; destruct (decide (n = L i)); try tauto; lia|].
      exists k', m'. split; [by apply lookup_app_l_Some|]. split; [|done]. destruct (sent_genuine k' m' j Hm' (genuine_chain _ _ _ _ _ Hgj)). by apply genuine_longer.
  - intros k1 k2 m1 m2 [H1|[H1' H1]]%lookup_app_Some [H2|[H2' H2]]%lookup_app_Some HD HNN.
    + by eapply (v_uniq _ _ _ _ Hinv).
    + apply list_lookup_singleton_Some in H2 as [_ <-]. by destruct (Hdiff k1 m1 H1 HD).
    + apply list_lookup_singleton_Some in H1 as [_ <-]. by destruct (Hdiff k2 m2 H2 (eq_sym HD)).
    + apply list_lookup_singleton_Some in H1 as [E1 _], H2 as [E2 _]. lia.
Qed.

Lemma inv_send side pt s' h ct :
  cks (t_sess w side) ≠ None → len (waiting (negb side) w) < maxSkip → ns (t_sess w side) < 2 ^ 32 - 1 →
  Encrypt pt (t_sess w side) = (s', Ok (h, ct)) →
  inv sk (mkTalk (set_sess side s' (t_sess w)) (sent ++ [mkMsg side h ct pt false]) ring) ix (longer (ix side)).
Proof.
  intros Hck Hroom Hns HE. destruct (send_frame side pt s' h ct Hck Hns HE) as (Hi & Hg & HN & Hparty & Hnr & Hsk).
  set (m := mkMsg side h ct pt false) in *. pose proof (v_side _ _ _ _ Hinv side) as Hpar.
  assert (ix side = ix (Nat.odd (ix side))) as Hii by by rewrite Hpar.
  destruct (frames_send (ix side) m Hi Hii (eq_sym Hpar) Hg HN) as (Hsent & Hall & Hu).
  pose proof Hinv as [Hs Hn Hr Hp Hnd Hdh HL HL0 HLhi Hpa Hv _ _ _ _].
  assert (L (ix side) < 2 ^ 32 - 1) as Hlim by by rewrite <- (p_ns _ _ _ _ _ (Hpa side)).
  assert (∀ b, b ≠ side → b = negb side) as Hb by (intros b; destruct b, side; done).
  split; cbn [t_sess t_sent t_ring]; unfold set_sess; try done.
  - intros j. unfold longer. pose proof (HL j). case_bool_decide; [subst|]; pose proof (HL (ix side)); lia.
  - unfold longer. rewrite bool_decide_false; [done|lia].
  - intros j Hj. unfold longer. rewrite bool_decide_false; [by apply HLhi|]. intros ->. rewrite Hpar in Hj. lia.
  - intros b. case_bool_decide as Eb; [by subst|]. apply Hb in Eb as ->. pose proof (Hn (negb side)) as Hn'. rewrite negb_involutive in Hn'. pose proof (Hs (negb side)) as Hodd.
    assert (ix (negb side) ≠ ix side) by (intros He; rewrite He, Hpar in Hodd; by destruct side).
    rewrite <- (app_nil_r ring). apply (party_frame _ _ _ L); [apply Hpa|..]; unfold longer;
      [by rewrite bool_decide_false by lia|by rewrite bool_decide_false by lia|case_bool_decide as He; [rewrite He|]; lia].
  - intros b. case_bool_decide as Eb.
    + subst b. rewrite Hnr, Hsk, <- (app_nil_r ring). apply (view_frame _ _ _ sent); [apply Hv|by rewrite app_nil_r| |apply sent_chain].
      intros k' m' Hf'. rewrite lookup_snoc_Some. split; [intros [[_ ?]|[_ <-]]; [done|by destruct side]|]. intros Hm'. left. split; [by eapply lookup_lt_Some|done].
    + apply Hb in Eb as ->. apply view_send; [apply Hv|done|]. intros j Hj Hp'. cbn [m_hdr m] in Hp'. rewrite HN in Hp'.
      rewrite (of_chain_unique ring j (ix side) m Hnd Hj (genuine_chain _ _ _ _ _ Hg)) in Hp'. destruct Hp' as [Hlt Hx].
      pose proof (Hn (negb side)) as Hn'. rewrite negb_involutive in Hn'. assert (ix (negb side) = S (ix side)) as He by lia.
      specialize (Hx (eq_sym He)). pose proof (p_nr _ _ _ _ _ (Hpa (negb side))) as Hle. rewrite He in Hle. cbn [Nat.sub] in Hle. rewrite Nat.sub_0_r in Hle. lia.
  - apply (room_send side); [by rewrite negb_involutive|done].
Qed.
End at_a_state.

(** A refused frame changes nothing: [advance] works on a copy, and a skipped key goes only
    with the message it opens. *)
Lemma Decrypt_refused fresh hdr ct s s' e : Decrypt fresh hdr ct s = (s', Err e) → s' = s.
Proof.
  unfold Decrypt. destruct (trySkipped hdr ct s) as [[s1 pt]|]; [done|].
  destruct (advance fresh hdr ct s) as [s1 [pt|e1]]; (destruct (ckr s) as [c|]; [|by intros [= <-]]);
    (destruct (_ && _); [destruct (kdfCK c) as [c' mk]; destruct (aeadOpen mk _ ct); by intros [= <-]|by intros [= <-]]).
Qed.
Lemma inv_same sk w ix L f : inv sk w ix L → (∀ b, f b = t_sess w b) → inv sk (mkTalk f (t_sent w) (t_ring w)) ix L.
Proof. intros [Hs Hn Hr Hp Hnd Hdh HL HL0 HLhi Hpa Hv Hsent Hall Hu Hroom] Hf. split; cbn [t_sess t_sent t_ring]; try done; intros b; rewrite Hf; auto. Qed.

(** Every frame on its way opens, and the invariant goes on. *)
Lemma deliver_any sk w ix L k m f :
  inv sk w ix L → t_sent w !! k = Some m → m_done m = false → fresh_key (t_ring w) f →
  ∃ s', Decrypt (Ok f) (m_hdr m) (m_ct m) (t_sess w (negb (m_from m))) = (s', Ok (m_pt m)) ∧
    ∃ ix', inv sk (mkTalk (set_sess (negb (m_from m)) s' (t_sess w)) (<[k := arrived m]> (t_sent w))
      (if decide (dhs s' = dhs (t_sess w (negb (m_from m)))) then t_ring w else t_ring w ++ [dhs s'])) ix' L.
Proof.
  intros Hinv Hm Hd Hf. set (side := negb (m_from m)). assert (m_from m = negb side) as Hfrom by (unfold side; by rewrite negb_involutive).
  destruct (waiting_cases sk w ix L Hinv side k m Hm Hfrom) as (j & Hg & [Hp|[[Hij Hn]|[-> Ho]]]).
  - destruct (deliver_passed sk w ix L Hinv (Ok f) side k m j Hm Hfrom Hd Hg Hp) as (s' & HD & Hdh & Hpa & Hv). exists s'. split; [done|].
    eexists. rewrite decide_True, <- (app_nil_r (t_ring w)) by done. apply (inv_deliver sk w ix L Hinv k m side [] s' (ix side)); rewrite ?app_nil_r; try done. by left.
  - destruct (deliver_next sk w ix L Hinv (Ok f) side k m j Hm Hfrom Hd Hg Hij Hn) as (s' & HD & Hdh & Hpa & Hv). exists s'. split; [done|].
    eexists. rewrite decide_True, <- (app_nil_r (t_ring w)) by done. apply (inv_deliver sk w ix L Hinv k m side [] s' (ix side)); rewrite ?app_nil_r; try done. by left.
  - destruct (deliver_ratchet sk w ix L Hinv f side k m Hm Hfrom Hd Hg Ho Hf) as (s' & HD & Hdh & Hpa & Hv). exists s'. split; [done|].
    eexists. rewrite Hdh, decide_False.
    + apply (inv_deliver sk w ix L Hinv k m side [f] s' (S (S (ix side)))); try done. right. by exists f.
    + intros He. destruct Hf as (_ & Hnew & _). apply Hnew. rewrite He. pose proof (p_dhs _ _ _ _ _ (v_party _ _ _ _ Hinv side)) as Hx.
      apply list_elem_of_lookup_2 in Hx. by apply list_elem_of_fmap_2.
Qed.

Lemma inv_opening sk spk w : opening sk sk spk w → ∃ ix L, inv sk w ix L.
Proof.
  intros [k1 sa Hspk Hk1 Hsa]. exists (λ b : bool, if b then 1 else 0)%nat, (λ _ : nat, 0). destruct Hk1 as (Hp1 & Hnew & k0 & x & [= <-] & Hx).
  unfold newInitiatorSession, PublicKeyFromBytes in Hsa. rewrite Hspk, len_Public in Hsa. cbn in Hsa. rewrite <- Hspk, Hx in Hsa.
  destruct (kdfRK sk x) as [rk0 ck0] eqn:E. injection Hsa as <-.
  assert (keys_at sk [spk; k1] 1 = (rk0, ck0)) as EK by (cbn; unfold shared; by rewrite Hx).
  split; cbn [t_sess t_sent t_ring]; try done.
  - by intros [].
  - intros []; cbn; lia.
  - by repeat constructor.
  - cbn. apply NoDup_cons. split; [|apply NoDup_singleton]. intros He%list_elem_of_singleton. apply Hnew. rewrite <- He. by left.
  - intros [|[|i]] k k' Hk Hk'; [|done..]. injection Hk as <-. injection Hk' as <-. by exists x.
  - intros []; split; cbn [dhs dhr rk cks ckr ns nr pn skipped skippedOrder newResponderSession]; rewrite ?EK; try done; try lia;
      unfold kdfRK in E; by injection E as <- <-.
  - intros side. split; [done|]. intros key mk. split; [by destruct side|]. by intros (k & m & j & ? & _).
  - intros j n Hn. lia.
Qed.

Lemma conversation_inv sk spk w0 w : opening sk sk spk w0 → conversation w0 w → ∃ ix L, inv sk w ix L.
Proof.
  intros Ho%inv_opening Hc. induction Hc as [w0|w0 w1 w2 Hstep _ IH]; [done|]. apply IH. destruct Ho as (ix & L & Hinv).
  destruct Hstep as [side pt s' h ct Hck Hroom Hns HE|k m f s' r Hm Hd Hf HD|side f hdr ct s' e HD].
  - eexists _, _. by apply (inv_send sk w0 ix L Hinv).
  - destruct (deliver_any sk w0 ix L k m f Hinv Hm Hd Hf) as (s1 & HD1 & ix' & Hinv'). rewrite HD in HD1. injection HD1 as -> _. by exists ix', L.
  - apply Decrypt_refused in HD as ->. exists ix, L. apply inv_same; [done|]. intros b. unfold set_sess. by case_bool_decide; subst.
Qed.
End conversation.

(** ** Theorems *)

Section theorems.
Context `{CryptoLaws}.

Definition own_key (k : KeyPair) : Prop := Pub k = x25519_Public (Priv k).
(** The bundle a device publishes of its keys; the signature is whatever it signed. *)
Definition bundle_of (b : ResponderKeys) (bundle : PreKeyBundle) : Prop :=
  PB_IdentityKey bundle = Pub (RK_Identity b) ∧ PB_SignedPreKey bundle = Pub (RK_SignedPreKey b) ∧
  PB_OneTimePreKey bundle = match RK_OneTimePreKey b with Some k => Pub k | None => [] end.
Definition has_one_time (b : ResponderKeys) : bool := match RK_OneTimePreKey b with Some _ => true | None => false end.
Definition honest (a : InitiatorKeys) (b : ResponderKeys) : Prop :=
  own_key (IK_Identity a) ∧ own_key (IK_Ephemeral a) ∧ own_key (RK_Identity b) ∧ own_key (RK_SignedPreKey b) ∧
  match RK_OneTimePreKey b with Some k => own_key k | None => True end.

Lemma parse_own k : own_key k → PublicKeyFromBytes (Pub k) = Ok (Pub k).
Proof. intros ->. unfold PublicKeyFromBytes. by rewrite len_Public. Qed.
Lemma dh_agrees k k' : own_key k → own_key k' → dh (Priv k) (Pub k') = dh (Priv k') (Pub k).
Proof. intros -> ->. apply ECDH_agrees. Qed.

(** X3DH agrees: what the initiator derives from the bundle, the responder derives too. *)
Lemma x3dh_agrees a b bundle sk eph :
  honest a b → bundle_of b bundle → X3DHInitiator a bundle = Ok (sk, eph) →
  X3DHResponder b (Pub (IK_Identity a)) eph (has_one_time b) = Ok sk.
Proof.
  intros (Hia & Hea & Hib & Hsb & Hob) (Ei & Es & Eo). unfold X3DHInitiator, X3DHResponder. destruct (E2E_VerifyPreKey _ _ _); [cbn [negb]|done].
  rewrite Ei, Es, Eo, (parse_own (RK_Identity b)), (parse_own (RK_SignedPreKey b)), (parse_own (IK_Identity a)) by done. cbn [mbind result_bind].
  rewrite (dh_agrees (IK_Identity a) (RK_SignedPreKey b)), (dh_agrees (IK_Ephemeral a) (RK_Identity b)), (dh_agrees (IK_Ephemeral a) (RK_SignedPreKey b)) by done.
  destruct (dh (Priv (RK_SignedPreKey b)) (Pub (IK_Identity a))) as [d1|] eqn:E1; [|done].
  destruct (dh (Priv (RK_Identity b)) (Pub (IK_Ephemeral a))) as [d2|] eqn:E2; [|done].
  destruct (dh (Priv (RK_SignedPreKey b)) (Pub (IK_Ephemeral a))) as [d3|] eqn:E3; [|done]. cbn [mbind result_bind].
  unfold has_one_time. destruct (RK_OneTimePreKey b) as [o|].
  - assert (len (Pub o) = 32) as -> by (rewrite Hob; apply len_Public). cbn [Z.ltb Z.compare]. rewrite (parse_own o) by done. cbn [mbind result_bind].
    rewrite (dh_agrees (IK_Ephemeral a) o) by done. destruct (dh (Priv o) (Pub (IK_Ephemeral a))) as [d4|] eqn:E4; [|done]. cbn [mbind result_bind].
    intros [= <- <-]. rewrite (parse_own (IK_Ephemeral a)) by done. cbn [mbind result_bind]. by rewrite E2, E3, E4.
  - cbn [len length Z.of_nat Z.ltb Z.compare mbind result_bind]. intros [= <- <-]. rewrite (parse_own (IK_Ephemeral a)) by done. cbn [mbind result_bind].
    by rewrite E2, E3.
Qed.

(** C7: two honest devices understand each other.  When the initiator's X3DH on the bundle of
    the responder succeeds, the responder's does, with the same secret; and in any conversation
    of the two sessions made from it - sends and deliveries interleaved in any order, forged
    or repeated frames refused in between, at most [maxSkip] frames on their way to a side -
    every genuine frame that has not arrived yet opens to the plaintext it was made from. *)
Theorem secret_chat_works a b bundle sk eph :
  honest a b → bundle_of b bundle → X3DHInitiator a bundle = Ok (sk, eph) →
  ∃ sk', X3DHResponder b (Pub (IK_Identity a)) eph (has_one_time b) = Ok sk' ∧
    ∀ w0 w k m f, opening sk sk' (RK_SignedPreKey b) w0 → conversation w0 w →
      t_sent w !! k = Some m → m_done m = false → fresh_key (t_ring w) f →
      (Decrypt (Ok f) (m_hdr m) (m_ct m) (t_sess w (negb (m_from m)))).2 = Ok (m_pt m).
Proof.
  intros Hh Hb Ha. exists sk. split; [by eapply x3dh_agrees|]. intros w0 w k m f Ho Hc Hm Hd Hf.
  destruct (conversation_inv sk (RK_SignedPreKey b) w0 w Ho Hc) as (ix & L & Hinv).
  destruct (deliver_any sk w ix L k m f Hinv Hm Hd Hf) as (s' & -> & _). done.
Qed.

(** a responder that speaks first is heard by all.  Before it received anything a
    responder has no sending chain, but [Encrypt] does not refuse: it seals the message under
    a key derived from nothing, the same for every session, with which anybody opens it. *)
Theorem early_reply_public sk spk pt :
  ∃ s' h ct, Encrypt pt (newResponderSession sk spk) = (s', Ok (h, ct)) ∧ aeadOpen (kdfCK []).2 (header_bytes h) ct = Ok pt.
Proof.
  unfold Encrypt. cbn [cks newResponderSession default from_option id]. destruct (kdfCK []) as [c mk]. eexists _, _, _. split; [reflexivity|].
  cbn [header_bytes H_raw snd]. apply Open_seal.
Qed.
End theorems.

(** safety numbers are symmetric: both ends read out the same number. *)
Theorem SafetyNumber_symmetric `{Crypto} a ia sa b ib sb : SafetyNumber a ia sa b ib sb = SafetyNumber b ib sb a ia sa.
Proof.
  unfold SafetyNumber. set (x := displayFingerprint _). set (y := displayFingerprint _).
  destruct (String.leb x y) eqn:E, (String.leb y x) eqn:E'; try done.
  - by rewrite (String.leb_antisym x y).
  - destruct (String.leb_total x y); congruence.
Qed.

(** What happens to a trust store between two looks at a device's keys. *)
Inductive trust_op := TAccept (u d : string) (ik sk : bytes) (now : Z) | TForget (u d : string).
Definition trust_step (t : TrustStore) (o : trust_op) : TrustStore :=
  match o with TAccept u d ik sk now => Accept u d ik sk now t | TForget u d => Forget u d t end.
Definition names (o : trust_op) : string * string := match o with TAccept u d _ _ _ | TForget u d => (u, d) end.

(** a pin holds.  Once a device's keys were accepted, and until that device is accepted
    again or forgotten, whatever happens for other devices, exactly those keys pass, silently,
    and any others are reported as changed. *)
Theorem pin_holds u d ik sk now t os ik' sk' :
  no_bar u = true → (∀ o, o ∈ os → names o ≠ (u, d) ∧ no_bar (names o).1 = true) →
  Verify u d ik' sk' (foldl trust_step (Accept u d ik sk now t) os) =
  if bool_decide (ik' = ik ∧ sk' = sk) then Ok false else Err e2e_ErrIdentityChanged.
Proof.
  intros Hu Hos. assert (Pinned u d (foldl trust_step (Accept u d ik sk now t) os) = Some (mkPinned u d ik sk now)) as Hp.
  { assert (Pinned u d (Accept u d ik sk now t) = Some (mkPinned u d ik sk now)) as Ha by (unfold Pinned, Accept; by rewrite lookup_insert_eq).
    revert Ha Hos. generalize (Accept u d ik sk now t). clear t. induction os as [|o os IH]; intros t Ht Hos; [done|]. cbn [foldl].
    apply IH; [|intros o' Ho'; apply Hos; by right]. destruct (Hos o) as [Hne Hb]; [by left|].
    assert (trustKey (names o).1 (names o).2 ≠ trustKey u d) as Hk.
    { intros He. apply bar_key_inj in He as [E1 E2]; [|done..]. apply Hne. destruct (names o). cbn in *. congruence. }
    unfold Pinned in *. destruct o; cbn in Hk |- *; [unfold Accept; by rewrite lookup_insert_ne|unfold Forget; by rewrite lookup_delete_ne]. }
  unfold Verify. rewrite Hp. cbn [PI_IdentityKey PI_SigningKey].
  destruct (decide (ik = ik')) as [->|]; [|rewrite bool_decide_false by done; cbn; rewrite bool_decide_false; [done|by intros [-> _]]].
  destruct (decide (sk = sk')) as [->|]; [by rewrite !bool_decide_true by done|].
  rewrite (bool_decide_true (ik' = ik')), (bool_decide_false (sk = sk')), bool_decide_false by (done || tauto || (intros [_ ->]; done)). done.
Qed.

(** ** A concrete conversation *)

(** Stand-ins for the primitives: a commutative sum for the key agreement, and sealing that
    writes key, nonce and data in front of the plaintext and checks them on opening. *)
Definition pad32 (b : bytes) : bytes := ztake 32 (b ++ replicate 32 (byteZ 0)).
Fixpoint strip (p b : bytes) : result bytes :=
  match p, b with
  | [], _ => Ok b
  | x :: p, y :: b => if bool_decide (x = y) then strip p b else Err other_error
  | _, [] => Err other_error
  end.
#[local] Instance toy : Crypto := {|
  x25519_Public := pad32;
  x25519_ECDH a b := Ok (zip_with (λ x y, byteZ (Zbyte x + Zbyte y)) (pad32 a) b);
  ed25519_Verify _ _ _ := true;
  hkdf secret salt info n := ztake n (secret ++ salt ++ replicate (Z.to_nat n) (byteZ 7));
  chacha_Seal key nonce pt ad := (key ++ nonce ++ ad) ++ pt;
  chacha_Open key nonce ct ad := strip (key ++ nonce ++ ad) ct;
  sha512_Sum512 b := b;
|}.
Lemma strip_app p b : strip p (p ++ b) = Ok b.
Proof. induction p as [|x p IH]; [done|]. cbn. by rewrite bool_decide_true. Qed.
Lemma zip_sum_comm (a b : bytes) :
  zip_with (λ x y, byteZ (Zbyte x + Zbyte y)) a b = zip_with (λ x y, byteZ (Zbyte x + Zbyte y)) b a.
Proof. revert b. induction a as [|x a IH]; intros [|y b]; cbn; [done..|]. by rewrite Z.add_comm, IH. Qed.
#[local] Instance toy_laws : CryptoLaws.
Proof.
  split.
  - intros a b. cbn. f_equal. apply zip_sum_comm.
  - intros a. unfold x25519_Public, toy, pad32, ztake, len. rewrite length_take, length_app, length_replicate. lia.
  - intros. apply strip_app.
Qed.

Definition w_pair (n : Z) : KeyPair := mkKeyPair [byteZ n] (pad32 [byteZ n]).
Definition w_initiator : InitiatorKeys := mkInitiator (w_pair 1) (w_pair 2).
Definition w_responder : ResponderKeys := mkResponder (w_pair 3) (w_pair 4) (Some (w_pair 5)).
Definition w_published : PreKeyBundle :=
  mkPreKeyBundle (pad32 [byteZ 3]) (replicate 32 (byteZ 0)) (pad32 [byteZ 4]) (replicate 64 (byteZ 0)) (pad32 [byteZ 5]).
Definition w_root : bytes := match X3DHInitiator w_initiator w_published with Ok (sk, _) => sk | Err _ => [] end.
Definition w_first : Session := match newInitiatorSession w_root (Pub (w_pair 4)) (Ok (w_pair 6)) with Ok s => s | Err _ => newResponderSession [] (w_pair 0) end.
Definition w_opening : Talk := mkTalk (λ b, if b then w_first else newResponderSession w_root (w_pair 4)) [] [w_pair 4; w_pair 6].
(** One more frame of a side. *)
Definition w_send (side : bool) (pt : bytes) (w : Talk) : Talk :=
  match Encrypt pt (t_sess w side) with
  | (s', Ok (h, ct)) => mkTalk (set_sess side s' (t_sess w)) (t_sent w ++ [mkMsg side h ct pt false]) (t_ring w)
  | _ => w
  end.
(** The initiator sends two frames; the second arrives first. *)
Definition w_two : Talk := w_send true (sbytes "there") (w_send true (sbytes "hello") w_opening).
Definition w_second : Msg := List.nth 1 (t_sent w_two) (mkMsg true (mkHeader [] 0 0 None) [] [] true).

Lemma w_send_step side pt w :
  bool_decide (cks (t_sess w side) ≠ None) && (len (waiting (negb side) w) <? maxSkip) && (ns (t_sess w side) <? 2 ^ 32 - 1) = true →
  conversation w (w_send side pt w).
Proof.
  intros [[Hc%bool_decide_eq_true Hr%Z.ltb_lt]%andb_prop Hn%Z.ltb_lt]%andb_prop. apply rtc_once. unfold w_send.
  destruct (Encrypt pt (t_sess w side)) as [s' [[h ct]|e]] eqn:E; [by apply step_send|].
  unfold Encrypt in E. destruct (kdfCK _). discriminate.
Qed.
Lemma w_opening_ok : opening w_root w_root (w_pair 4) w_opening.
Proof.
  unfold w_opening. apply (opening_intro _ _ _ (w_pair 6) w_first); [reflexivity| |vm_compute; reflexivity].
  split; [reflexivity|]. split; [apply (bool_decide_eq_true_1 _); vm_compute; reflexivity|]. eexists _, _. split; [reflexivity|vm_compute; reflexivity].
Qed.
Lemma w_two_ok : conversation w_opening w_two.
Proof. etrans; apply w_send_step; vm_compute; reflexivity. Qed.

Lemma secret_chat_works_witness :
  X3DHInitiator w_initiator w_published = Ok (w_root, pad32 [byteZ 2]) ∧
  (Decrypt (Ok (w_pair 9)) (m_hdr w_second) (m_ct w_second) (t_sess w_two false)).2 = Ok (sbytes "there").
Proof.
  assert (X3DHInitiator w_initiator w_published = Ok (w_root, pad32 [byteZ 2])) as Hx by (vm_compute; reflexivity). split; [exact Hx|].
  destruct (secret_chat_works w_initiator w_responder w_published w_root (pad32 [byteZ 2])) as (sk' & Hr & Hall);
    [by vm_compute | by vm_compute | exact Hx|].
  assert (sk' = w_root) as -> by (vm_compute in Hr; injection Hr as <-; vm_compute; reflexivity).
  apply (Hall w_opening w_two 1%nat w_second (w_pair 9) w_opening_ok w_two_ok); [vm_compute; reflexivity|vm_compute; reflexivity|].
  split; [reflexivity|]. split; [apply (bool_decide_eq_true_1 _); vm_compute; reflexivity|]. eexists _, _. split; [reflexivity|vm_compute; reflexivity].
Defined.

Lemma early_reply_public_witness :
  ∃ s' h ct, Encrypt (sbytes "hi") (newResponderSession w_root (w_pair 4)) = (s', Ok (h, ct)) ∧ aeadOpen (kdfCK []).2 (header_bytes h) ct = Ok (sbytes "hi").
Proof. exact (early_reply_public w_root (w_pair 4) (sbytes "hi")). Defined.

Lemma pin_holds_witness :
  Verify "7" "web" [byteZ 9] [byteZ 2] (foldl trust_step (Accept "7" "web" [byteZ 1] [byteZ 2] 5 ∅) [TAccept "8" "web" [byteZ 3] [byteZ 3] 6; TForget "7" "phone"])
  = Err e2e_ErrIdentityChanged.
Proof.
  apply (pin_holds "7" "web" [byteZ 1] [byteZ 2] 5 ∅ [TAccept "8" "web" [byteZ 3] [byteZ 3] 6; TForget "7" "phone"] [byteZ 9] [byteZ 2]); [reflexivity|].
  intros o [->|[->|[]%elem_of_nil]%elem_of_cons]%elem_of_cons; split; done.
Defined.
