(* ===== verification/Breaker.v ===== *)
(** * The circuit breaker

    [pkg/breaker] breaker.go.  Clock readings (nanoseconds) are inputs; the guarded
    call [fn] is any fallible computation on a world of its own. *)

From S2P Require Import Prelude.

Inductive State := Closed | Open | HalfOpen.

#[global] Instance State_eq_dec : EqDecision State.
Proof. solve_decision. Defined.

Record Breaker := mkBreaker {
  state : State;
  failures : Z;
  threshold : Z;
  cooldown : Z;
  openedAt : Z;
  halfOpenMax : Z;
  halfOpen : Z;
}.

Definition set_state (st : State) (b : Breaker) : Breaker :=
  mkBreaker st (failures b) (threshold b) (cooldown b) (openedAt b) (halfOpenMax b) (halfOpen b).
Definition set_failures (n : Z) (b : Breaker) : Breaker :=
  mkBreaker (state b) n (threshold b) (cooldown b) (openedAt b) (halfOpenMax b) (halfOpen b).
Definition set_openedAt (t : Z) (b : Breaker) : Breaker :=
  mkBreaker (state b) (failures b) (threshold b) (cooldown b) t (halfOpenMax b) (halfOpen b).
Definition set_halfOpen (n : Z) (b : Breaker) : Breaker :=
  mkBreaker (state b) (failures b) (threshold b) (cooldown b) (openedAt b) (halfOpenMax b) n.

Definition New (thr cool : Z) : Breaker :=
  let thr := if thr <=? 0 then 5 else thr in
  let cool := if cool <=? 0 then 5 * 1000000000 else cool in
  mkBreaker Closed 0 thr cool 0 1 0.

Definition Allow (now : Z) (b : Breaker) : Breaker * bool :=
  match state b with
  | Closed => (b, true)
  | Open =>
      if cooldown b <=? now - openedAt b
      then (set_halfOpen 0 (set_state HalfOpen b), true)
      else (b, false)
  | HalfOpen =>
      if halfOpen b <? halfOpenMax b
      then (set_halfOpen (halfOpen b + 1) b, true)
      else (b, false)
  end.

Definition Success (b : Breaker) : Breaker :=
  let b := set_failures 0 b in
  if bool_decide (state b = HalfOpen) then set_state Closed b else b.

Definition Failure (now : Z) (b : Breaker) : Breaker :=
  let b := set_failures (failures b + 1) b in
  if bool_decide (state b = HalfOpen)
     || (bool_decide (state b = Closed) && (threshold b <=? failures b))
  then set_openedAt now (set_state Open b) else b.

(** [now] is read by [Allow], [now'] by [Failure]. *)
Definition Do {W} (now now' : Z) (fn : M W unit) (b : Breaker) (w : W)
    : Breaker * W * result unit :=
  let '(b, ok) := Allow now b in
  if negb ok then (b, w, Err breaker_ErrOpen)
  else
    match fn w with
    | (w, Err e) => (Failure now' b, w, Err e)
    | (w, Ok _) => (Success b, w, Ok tt)
    end.

(** ** Reachable breakers *)

Inductive reachable (thr cool : Z) : Breaker → Prop :=
  | reach_new : reachable thr cool (New thr cool)
  | reach_allow now b : reachable thr cool b → reachable thr cool (Allow now b).1
  | reach_success b : reachable thr cool b → reachable thr cool (Success b)
  | reach_failure now b : reachable thr cool b → reachable thr cool (Failure now b).

(** Failures reported one after the other, at the given times. *)
Definition fail_all (times : list Z) (b : Breaker) : Breaker :=
  foldl (λ b now, Failure now b) b times.

(** Admissions asked for one after the other: how many are granted. *)
Fixpoint admitted (times : list Z) (b : Breaker) : Z :=
  match times with
  | [] => 0
  | now :: times =>
      let '(b, ok) := Allow now b in (if ok then 1 else 0) + admitted times b
  end.

(** ** Lemmas *)

Lemma reachable_inv thr cool b :
  reachable thr cool b →
  0 < threshold b ∧ 0 < cooldown b ∧ 0 ≤ failures b ∧ 0 ≤ halfOpen b ∧ halfOpenMax b = 1 ∧
  (state b = Closed → failures b < threshold b).
Proof.
  induction 1 as [|now b _ IH|b _ IH|now b _ IH].
  - unfold New; cbv zeta. split_and!; simpl; repeat case_match; bool_to_prop; lia.
  - destruct IH as (?&?&?&?&?&?). unfold Allow. destruct (state b) eqn:E; simpl.
    + split_and!; auto.
    + destruct (_ <=? _); simpl; split_and!; simpl; auto; try lia; congruence.
    + destruct (_ <? _); simpl; split_and!; simpl; auto; try lia; congruence.
  - destruct IH as (?&?&?&?&?&?). unfold Success; cbv zeta.
    case_bool_decide; simpl; split_and!; simpl; auto; lia.
  - destruct IH as (?&?&?&?&?&Hc). unfold Failure; cbv zeta.
    destruct (_ || _) eqn:E; simpl in *; split_and!; simpl; auto; try lia; try congruence.
    intros Hst. rewrite Hst, !bool_decide_false in E by done.
    rewrite bool_decide_true in E by done. simpl in E. bool_to_prop. lia.
Qed.

Lemma Failure_closed b now :
  state b = Closed →
  Failure now b =
  if threshold b <=? failures b + 1
  then set_openedAt now (set_state Open (set_failures (failures b + 1) b))
  else set_failures (failures b + 1) b.
Proof. intros Hst. unfold Failure. cbv zeta. cbn [state set_failures]. by rewrite Hst. Qed.

Lemma fail_all_below b times :
  state b = Closed → failures b + len times < threshold b →
  state (fail_all times b) = Closed ∧ failures (fail_all times b) = failures b + len times ∧
  threshold (fail_all times b) = threshold b.
Proof.
  revert b. induction times as [|t times IH]; intros b Hst Hn.
  { unfold len; simpl. split_and!; [done | lia | done]. }
  rewrite len_cons in *. pose proof (len_nonneg times). cbn [fail_all foldl].
  rewrite Failure_closed, (proj2 (Z.leb_gt _ _)) by (done || lia).
  destruct (IH (set_failures (failures b + 1) b)) as (IHs & IHf & IHt);
    [done | simpl; lia |]. unfold fail_all in *. rewrite IHs, IHf, IHt. simpl.
  split_and!; [done | lia | done].
Qed.

Lemma admitted_exhausted b times :
  state b = HalfOpen → halfOpenMax b ≤ halfOpen b → admitted times b = 0.
Proof.
  intros Hst Hm. induction times as [|t times IH]; [done|]. cbn [admitted].
  unfold Allow. by rewrite Hst, (proj2 (Z.ltb_ge _ _)).
Qed.

(** ** Properties *)

(** The breaker opens exactly at the threshold: after a success (or afresh), the
    first [threshold - 1] failures in a row leave it closed and the next one opens
    it, recording the time of that failure. *)
Theorem opens_at_threshold b times now :
  state b = Closed → failures b = 0 → len times + 1 = threshold b →
  state (fail_all times b) = Closed ∧
  state (fail_all (times ++ [now]) b) = Open ∧
  openedAt (fail_all (times ++ [now]) b) = now.
Proof.
  intros Hst Hf Hn. destruct (fail_all_below b times) as (Hs & Hfl & Ht); [done|lia|].
  split; [done|]. unfold fail_all in *. rewrite foldl_app. cbn [foldl].
  rewrite Failure_closed, (proj2 (Z.leb_le _ _)) by (done || lia). done.
Qed.

(** While open and cooling down, [Do] fails fast: it returns [ErrOpen], does not run
    the call and changes nothing. *)
Theorem Do_fails_fast {W} b now now' (fn : M W unit) w :
  state b = Open → now - openedAt b < cooldown b →
  Do now now' fn b w = (b, w, Err breaker_ErrOpen).
Proof.
  intros Hst Hn. unfold Do, Allow. rewrite Hst, (proj2 (Z.leb_gt _ _)) by lia. done.
Qed.

(** The state decides what a call does: a closed breaker always
    runs the call; after the cooldown an open one runs it as a probe, closing on
    success and re-opening, with a fresh cooldown, on failure. *)
Theorem Do_recovers {W} b now now' (fn : M W unit) w :
  state b = Closed ∨ (state b = Open ∧ cooldown b ≤ now - openedAt b) →
  ∃ b', Do now now' fn b w = (b', (fn w).1, (fn w).2) ∧
    match (fn w).2 with
    | Ok _ => state b' = Closed ∧ failures b' = 0
    | Err _ => state b = Open → state b' = Open ∧ openedAt b' = now'
    end.
Proof.
  intros [Hst|[Hst Hn]]; unfold Do, Allow; rewrite Hst.
  - simpl. destruct (fn w) as [w' [[]|e]]; simpl; eexists; (split; [done|]).
    + unfold Success; simpl. rewrite Hst. done.
    + congruence.
  - rewrite (proj2 (Z.leb_le _ _)) by done. simpl.
    destruct (fn w) as [w' [[]|e]]; simpl; eexists; (split; [done|]); [by unfold Success|].
    by unfold Failure.
Qed.

(** Probing is limited, but to one call more than [halfOpenMax]: once the cooldown has
    passed, however many callers ask before an outcome is reported, exactly the
    first two are admitted (the call that moves the breaker to half-open is not
    counted against the limit of one). *)
Theorem half_open_probes thr cool b now now2 times :
  reachable thr cool b → state b = Open → cooldown b ≤ now - openedAt b →
  admitted (now :: now2 :: times) b = 2.
Proof.
  intros Hr Hst Hn. apply reachable_inv in Hr as (_ & _ & _ & _ & Hmax & _).
  cbn [admitted]. unfold Allow at 1. rewrite Hst, (proj2 (Z.leb_le _ _)) by done.
  cbn [admitted]. unfold Allow at 1. cbn [state set_state set_halfOpen halfOpen halfOpenMax].
  rewrite Hmax. change (0 <? 1) with true. cbv iota.
  by rewrite admitted_exhausted by (simpl; lia || done).
Qed.

(** A breaker that is closed is below its threshold, in every reachable state, so
    isolated failures separated by successes never open it. *)
Theorem closed_below_threshold thr cool b :
  reachable thr cool b → state b = Closed → 0 ≤ failures b < threshold b.
Proof. intros Hr Hst. apply reachable_inv in Hr as (?&?&?&?&?&Hc). auto. Qed.

(** ** Witnesses *)

Lemma opens_at_threshold_witness :
  state (fail_all [1; 2] (New 3 10)) = Closed ∧ state (fail_all [1; 2; 7] (New 3 10)) = Open
  ∧ openedAt (fail_all [1; 2; 7] (New 3 10)) = 7.
Proof. by apply (opens_at_threshold (New 3 10) [1; 2] 7). Defined.

Definition opened : Breaker := fail_all [1; 2; 7] (New 3 10).

Lemma opened_reachable : reachable 3 10 opened.
Proof. repeat constructor. Defined.

Lemma Do_fails_fast_witness :
  Do 16 16 (modify (λ n : Z, n + 1)) opened 0 = (opened, 0, Err breaker_ErrOpen).
Proof. by apply Do_fails_fast. Defined.

Lemma Do_recovers_witness :
  ∃ b', Do 17 18 (modify (λ n : Z, n + 1)) opened 0 = (b', 1, Ok tt) ∧ state b' = Closed.
Proof.
  destruct (Do_recovers opened 17 18 (modify (λ n : Z, n + 1)) 0) as (b' & Hd & Hs & _).
  - by right.
  - by exists b'.
Defined.

Lemma half_open_probes_witness : admitted [17; 17; 17; 18] opened = 2.
Proof. apply (half_open_probes 3 10); [apply opened_reachable | done | done]. Defined.

Lemma closed_below_threshold_witness : 0 ≤ failures (New 3 10) < threshold (New 3 10).
Proof. apply (closed_below_threshold 3 10); [constructor | done]. Defined.
