(* ===== verification/Resilient.v ===== *)
(** * The router in an outage

    [internal/router] resilient.go: a shared registry behind a circuit breaker with this
    node's own registry as the fallback.  The shared registry (Redis) is any implementation
    of the router's operations, which may fail; the local one is Router.v's, the breaker
    Breaker.v's.  A call takes the clock readings of [Allow] and of [Failure]. *)

From S2P Require Import Prelude Router Breaker.

(** The operations of a [Router] on a state of its own. *)
Class SharedRouter (P : Type) := {
  shared_Bind : string → string → string → M P unit;
  shared_Unbind : string → string → string → M P unit;
  shared_Refresh : string → string → M P unit;
  shared_NodesFor : string → M P (list string);
  shared_NodesForMany : list string → M P (gmap string (list string));
  shared_NodesForDevice : string → string → M P (list string);
}.

Section resilient.
Context `{RangeOrder} {P : Type} `{!SharedRouter P}.

Record resilientRouter := mkResilient { primary : P; local : memoryRouter; br : Breaker }.

Definition NewResilient (p : P) : resilientRouter := mkResilient p NewMemory (New 5 (5 * 10 ^ 9)).

(** Writes are best effort: the outcome is logged, not returned. *)
Definition viaBreaker (now now' : Z) (fn : M P unit) (r : resilientRouter) : resilientRouter :=
  let '(b, p, _) := Do now now' fn (br r) (primary r) in mkResilient p (local r) b.

Definition on_local (f : memoryRouter → memoryRouter) (r : resilientRouter) : resilientRouter :=
  mkResilient (primary r) (f (local r)) (br r).

Definition res_Bind (now now' : Z) (userID deviceID nodeID : string) : M resilientRouter unit := λ r,
  let r := on_local (λ m, Bind m userID deviceID nodeID) r in
  (viaBreaker now now' (shared_Bind userID deviceID nodeID) r, Ok tt).
Definition res_Unbind (now now' : Z) (userID deviceID nodeID : string) : M resilientRouter unit := λ r,
  let r := on_local (λ m, Unbind m userID deviceID nodeID) r in
  (viaBreaker now now' (shared_Unbind userID deviceID nodeID) r, Ok tt).
Definition res_Refresh (now now' : Z) (userID deviceID : string) : M resilientRouter unit := λ r,
  let r := on_local (λ m, Refresh m userID deviceID) r in
  (viaBreaker now now' (shared_Refresh userID deviceID) r, Ok tt).

(** The shared answer if there is one, the local one if not: the body the three lookups have. *)
Definition degrade {A} (now now' : Z) (shared : M P A) (fallback : memoryRouter → A) : M resilientRouter A := λ r,
  let '(b, ok) := Allow now (br r) in
  if ok then
    match shared (primary r) with
    | (p, Ok nodes) => (mkResilient p (local r) (Success b), Ok nodes)
    | (p, Err _) => (mkResilient p (local r) (Failure now' b), Ok (fallback (local r)))
    end
  else (mkResilient (primary r) (local r) b, Ok (fallback (local r))).
Definition res_NodesFor (now now' : Z) (userID : string) : M resilientRouter (list string) :=
  degrade now now' (shared_NodesFor userID) (λ m, NodesFor m userID).
Definition res_NodesForMany (now now' : Z) (userIDs : list string) : M resilientRouter (gmap string (list string)) :=
  degrade now now' (shared_NodesForMany userIDs) (λ m, NodesForMany m userIDs).
Definition res_NodesForDevice (now now' : Z) (userID deviceID : string) : M resilientRouter (list string) :=
  degrade now now' (shared_NodesForDevice userID deviceID) (λ m, NodesForDevice m userID deviceID).

(** ** Runs *)

(** One call, with its readings. *)
Inductive call := CBind (u d n : string) | CUnbind (u d n : string) | CRefresh (u d : string)
  | CFor (u : string) | CMany (us : list string) | CDevice (u d : string).
Definition run_call (now now' : Z) (c : call) (r : resilientRouter) : resilientRouter :=
  match c with
  | CBind u d n => (res_Bind now now' u d n r).1
  | CUnbind u d n => (res_Unbind now now' u d n r).1
  | CRefresh u d => (res_Refresh now now' u d r).1
  | CFor u => (res_NodesFor now now' u r).1
  | CMany us => (res_NodesForMany now now' us r).1
  | CDevice u d => (res_NodesForDevice now now' u d r).1
  end.

(** The routers a node can produce, with the connections it then has open. *)
Inductive serving (p0 : P) : resilientRouter → list conn → Prop :=
  | serving_new : serving p0 (NewResilient p0) []
  | serving_bind r live u d n now now' :
      serving p0 r live → serving p0 (run_call now now' (CBind u d n) r) (mkConn u d n :: live)
  | serving_unbind r live live' u d n now now' :
      serving p0 r live → live ≡ₚ mkConn u d n :: live' → serving p0 (run_call now now' (CUnbind u d n) r) live'
  | serving_refresh r live u d now now' :
      serving p0 r live → serving p0 (run_call now now' (CRefresh u d) r) live
  | serving_lookup r live c now now' :
      match c with CFor _ | CMany _ | CDevice _ _ => True | _ => False end →
      serving p0 r live → serving p0 (run_call now now' c r) live.

Lemma viaBreaker_local now now' fn r : local (viaBreaker now now' fn r) = local r.
Proof. unfold viaBreaker. by destruct (Do _ _ _ _ _) as [[b p] e]. Qed.
Lemma degrade_local {A} now now' (sh : M P A) f r : local (degrade now now' sh f r).1 = local r.
Proof. unfold degrade. destruct (Allow now (br r)) as [b []]; [|done]. by destruct (sh (primary r)) as [p []]. Qed.

Lemma serving_reachable p0 r live : serving p0 r live → Router.reachable (local r) live.
Proof.
  induction 1 as [|r live u d n now now' _ IH|r live live' u d n now now' _ IH Hp|r live u d now now' _ IH|r live c now now' Hc _ IH].
  - apply Router.reach_new.
  - cbn. rewrite viaBreaker_local. by apply reach_bind.
  - cbn. rewrite viaBreaker_local. by eapply reach_unbind.
  - cbn. rewrite viaBreaker_local. exact IH.
  - destruct c; try done; cbn; unfold res_NodesFor, res_NodesForMany, res_NodesForDevice; by rewrite degrade_local.
Qed.

(** A node never loses its own connections.  However the shared registry behaves, and
    whatever binds, unbinds, refreshes and lookups came before: no call fails, and a lookup
    is answered by the shared registry if the breaker lets it be asked and it answers, and
    otherwise by exactly the nodes of this node's own open connections of the user. *)
Theorem lookup_degrades p0 r live u now now' :
  serving p0 r live →
  ∃ r' nodes, res_NodesFor now now' u r = (r', Ok nodes) ∧
    ((Allow now (br r)).2 = true ∧ (shared_NodesFor u (primary r)).2 = Ok nodes ∨
     ((Allow now (br r)).2 = false ∨ ∃ e, (shared_NodesFor u (primary r)).2 = Err e) ∧
     NoDup nodes ∧ ∀ n, n ∈ nodes ↔ ∃ d, mkConn u d n ∈ live).
Proof.
  intros Hs%serving_reachable. unfold res_NodesFor, degrade.
  assert (NoDup (NodesFor (local r) u) ∧ ∀ n, n ∈ NodesFor (local r) u ↔ ∃ d, mkConn u d n ∈ live) as Hl.
  { split; [apply NoDup_range_keys|]. intros n. by apply nodes_live. }
  destruct (Allow now (br r)) as [b []]; cbn [snd].
  - destruct (shared_NodesFor u (primary r)) as [p [nodes|e]]; cbn [snd]; eexists _, _; (split; [done|]).
    + by left.
    + right. split; [right; by exists e|exact Hl].
  - eexists _, _. split; [done|]. right. split; [by left|exact Hl].
Qed.
End resilient.
Arguments resilientRouter : clear implicits.

(** ** An outage *)

(** A registry that is down, counting the calls that reach it. *)
Definition down_router : SharedRouter Z := {|
  shared_Bind _ _ _ n := (n + 1, Err other_error);
  shared_Unbind _ _ _ n := (n + 1, Err other_error);
  shared_Refresh _ _ n := (n + 1, Err other_error);
  shared_NodesFor _ n := (n + 1, Err other_error);
  shared_NodesForMany _ n := (n + 1, Err other_error);
  shared_NodesForDevice _ _ n := (n + 1, Err other_error);
|}.

Section outage.
Context `{RangeOrder}.
#[local] Existing Instance down_router.

Definition run_calls (l : list (Z * Z * call)) (r : resilientRouter Z) : resilientRouter Z :=
  foldl (λ r e, run_call e.1.1 e.1.2 e.2 r) r l.

Lemma down_call now now' c (r : resilientRouter Z) :
  (br (run_call now now' c r), primary (run_call now now' c r)) =
  let '(b, ok) := Allow now (br r) in if ok then (Failure now' b, primary r + 1) else (b, primary r).
Proof.
  destruct c; cbn; unfold res_NodesFor, res_NodesForMany, res_NodesForDevice, degrade, viaBreaker, Do; cbn;
    by destruct (Allow now (br r)) as [b []].
Qed.

Definition window (t0 t : Z) : Prop := t0 ≤ t < t0 + 5 * 10 ^ 9.
Definition holding_off (t0 : Z) (b : Breaker) (calls : Z) : Prop :=
  threshold b = 5 ∧ cooldown b = 5 * 10 ^ 9 ∧
  (state b = Closed ∧ failures b = calls ∧ calls < 5 ∨ state b = Open ∧ t0 ≤ openedAt b ∧ calls = 5).

Lemma holding_off_call t0 now now' c (r : resilientRouter Z) :
  window t0 now → window t0 now' → holding_off t0 (br r) (primary r) →
  holding_off t0 (br (run_call now now' c r)) (primary (run_call now now' c r)).
Proof.
  intros Hn Hn' (Ht & Hc & Hst). pose proof (down_call now now' c r) as E. set (r' := run_call now now' c r) in *.
  unfold Allow in E. destruct Hst as [(Hs & Hf & Hlt)|(Hs & Ho & H5)]; rewrite Hs in E.
  - injection E as -> ->. unfold Failure. cbn [state set_failures]. rewrite Hs.
    rewrite bool_decide_false, bool_decide_true by done. cbn [orb andb].
    change (threshold (set_failures (failures (br r) + 1) (br r))) with (threshold (br r)).
    change (failures (set_failures (failures (br r) + 1) (br r))) with (failures (br r) + 1).
    unfold holding_off, window in *. destruct (Z.leb_spec (threshold (br r)) (failures (br r) + 1)); cbn; rewrite ?Hs; split_and!; [done..| |done|done|].
    + right. split_and!; [done|lia|lia].
    + left. split_and!; [done|lia|lia].
  - rewrite Hc in E. unfold window in *. rewrite (proj2 (Z.leb_gt _ _)) in E by lia. injection E as -> ->.
    unfold holding_off. split_and!; [done..|]. by right.
Qed.

(** An outage is cheap.  While the shared registry fails, whatever calls a node makes
    within one cool-down, at most five of them reach it; all the others are served at once
    from the node's own registry. *)
Theorem outage_isolated t0 l :
  Forall (λ e, window t0 e.1.1 ∧ window t0 e.1.2) l → primary (run_calls l (NewResilient 0)) ≤ 5.
Proof.
  intros Hl. assert (∀ r, holding_off t0 (br r) (primary r) → holding_off t0 (br (run_calls l r)) (primary (run_calls l r))) as Hrun.
  { induction Hl as [|e l [He He'] _ IH]; intros r Hr; [done|]. cbn. apply IH. by apply holding_off_call. }
  destruct (Hrun (NewResilient 0)) as (_ & _ & [(_ & _ & ?)|(_ & _ & ?)]); [|lia..].
  split_and!; [done..|]. by left.
Qed.
End outage.

(** A registry that is up or down, and keeps what it is told while it is up. *)
Definition gated {A} (m : M memoryRouter A) : M (bool * memoryRouter) A := λ s,
  if s.1 then let '(m', r) := m s.2 in ((true, m'), r) else (s, Err other_error).
Definition gated_router `{RangeOrder} : SharedRouter (bool * memoryRouter) := {|
  shared_Bind u d n := gated (modify (λ m, Bind m u d n));
  shared_Unbind u d n := gated (modify (λ m, Unbind m u d n));
  shared_Refresh u d := gated (modify (λ m, Refresh m u d));
  shared_NodesFor u := gated (gets (λ m, NodesFor m u));
  shared_NodesForMany us := gated (gets (λ m, NodesForMany m us));
  shared_NodesForDevice u d := gated (gets (λ m, NodesForDevice m u d));
|}.

Section recovery.
Context `{RangeOrder}.
#[local] Existing Instance gated_router.

Lemma NodesFor_Bind m u d n : n ∈ NodesFor (Bind m u d n) u.
Proof.
  unfold NodesFor. apply elem_of_range_keys. unfold Bind. case_bool_decide; cbn [users]; unfold incRef;
    rewrite lookup_insert_eq; cbn; rewrite lookup_insert_eq; by eexists.
Qed.

Lemma refreshes_keep u d ts (r : resilientRouter (bool * memoryRouter)) :
  let r' := foldl (λ r t, run_call t.1 t.2 (CRefresh u d) r) r ts in primary r' = primary r ∧ local r' = local r.
Proof.
  cbv zeta. revert r. induction ts as [|t ts IH]; intros r; [done|]. cbn [foldl]. destruct (IH (run_call t.1 t.2 (CRefresh u d) r)) as [-> ->].
  cbn. rewrite viaBreaker_local. split; [|done]. unfold viaBreaker, Do. cbn. destruct (Allow t.1 (br r)) as [b []]; [|done].
  cbn. unfold gated. destruct (primary r) as [[] m]; done.
Qed.

(** A recovery forgets.  A user connects while the shared registry is down: only the
    node's own registry hears of it.  Once the shared registry is back, its answer is
    preferred and it knows of no connection; the refreshes of the connection, which extend
    what is there, do not tell it.  So the user is unreachable on the very node that holds
    their connection. *)
Theorem recovery_forgets u d n m loc b t t' ts t2 t2' :
  NodesFor m u = [] →
  let r1 := run_call t t' (CBind u d n) (mkResilient (false, m) loc b) in
  let r2 := foldl (λ r t, run_call t.1 t.2 (CRefresh u d) r) (mkResilient (true, (primary r1).2) (local r1) (br r1)) ts in
  (Allow t2 (br r2)).2 = true →
  n ∈ NodesFor (local r2) u ∧ (res_NodesFor t2 t2' u r2).2 = Ok [].
Proof.
  intros Hm r1 r2 Ha. destruct (refreshes_keep u d ts (mkResilient (true, (primary r1).2) (local r1) (br r1))) as [Hp Hl].
  fold r2 in Hp, Hl. cbn [primary local] in Hp, Hl. assert (primary r1 = (false, m)) as Hp1.
  { unfold r1. cbn. unfold viaBreaker, Do. cbn. by destruct (Allow t b) as [b' []]. }
  split.
  - rewrite Hl. unfold r1. cbn. rewrite viaBreaker_local. apply NodesFor_Bind.
  - unfold res_NodesFor, degrade. destruct (Allow t2 (br r2)) as [b' []]; [|done]. rewrite Hp, Hp1. cbn. by rewrite Hm.
Qed.
End recovery.

(** ** Witnesses *)

Section witnesses.
#[local] Existing Instance canonical_order.

Lemma lookup_degrades_witness :
  ∃ r' nodes, res_NodesFor (SharedRouter0 := down_router) 7 8 "u" (run_call (SharedRouter0 := down_router) 5 6 (CBind "u" "d" "n1") (NewResilient 0)) = (r', Ok nodes) ∧ "n1" ∈ nodes.
Proof.
  destruct (lookup_degrades (SharedRouter0 := down_router) 0 (run_call (SharedRouter0 := down_router) 5 6 (CBind "u" "d" "n1") (NewResilient 0)) [mkConn "u" "d" "n1"] "u" 7 8)
    as (r' & nodes & Hrun & Hor).
  { apply (serving_bind (SharedRouter0 := down_router)), serving_new. }
  exists r', nodes. split; [exact Hrun|]. destruct Hor as [[_ Hs]|(_ & _ & Hn)]; [discriminate Hs|].
  apply Hn. exists "d". left.
Defined.

Lemma outage_isolated_witness : primary (run_calls (replicate 9 (3, 4, CFor "u")) (NewResilient 0)) ≤ 5.
Proof. apply (outage_isolated 0). by repeat constructor. Defined.

Definition w_recovered : resilientRouter (bool * memoryRouter) :=
  let r := run_call (SharedRouter0 := gated_router) 1 2 (CBind "u" "d" "n1") (mkResilient (false, Router.NewMemory) Router.NewMemory (New 5 0)) in
  foldl (λ r t, run_call (SharedRouter0 := gated_router) t.1 t.2 (CRefresh "u" "d") r) (mkResilient (true, (primary r).2) (local r) (br r)) [(3, 4)].
Lemma recovery_forgets_witness : (res_NodesFor (SharedRouter0 := gated_router) 5 6 "u" w_recovered).2 = Ok [].
Proof. apply (recovery_forgets "u" "d" "n1" Router.NewMemory Router.NewMemory (New 5 0) 1 2 [(3, 4)] 5 6); by vm_compute. Defined.
End witnesses.
