(* ===== verification/Model.v ===== *)
(** * Domain entities

    [internal/model] model.go and [internal/store] store.go: the records the services
    and stores exchange.  Ids are strings, timestamps unix milliseconds.  A pointer
    field that may be nil is an option. *)

From S2P Require Import Prelude Bytes.

(** ** Chats *)

Abbreviation ChatType := string (only parsing).
Definition ChatDirect : ChatType := "direct".
Definition ChatGroup : ChatType := "group".
Definition ChatChannel : ChatType := "channel".
Definition ChatSecret : ChatType := "secret".

Definition IsSecret (t : ChatType) : bool := bool_decide (t = ChatSecret).
Definition Is1To1 (t : ChatType) : bool :=
  bool_decide (t = ChatDirect) || bool_decide (t = ChatSecret).

Record Chat := mkChat {
  Chat_ID : string;
  Chat_Type : ChatType;
  Chat_Title : string;
  Chat_OwnerID : string;
  Chat_CreatedAt : Z;
  Chat_LastSeq : Z;
  Chat_Username : string;
}.

Definition set_LastSeq (n : Z) (c : Chat) : Chat :=
  mkChat (Chat_ID c) (Chat_Type c) (Chat_Title c) (Chat_OwnerID c) (Chat_CreatedAt c) n
    (Chat_Username c).

Abbreviation MemberRole := string (only parsing).
Definition RoleMember : MemberRole := "member".
Definition RoleAdmin : MemberRole := "admin".
Definition RoleOwner : MemberRole := "owner".

Record MemberFlags := mkFlags {
  Flags_MutedUntil : Z;
  Flags_Pinned : bool;
  Flags_Archived : bool;
}.

Definition no_flags : MemberFlags := mkFlags 0 false false.

Definition MutedAt (f : MemberFlags) (now : Z) : bool :=
  negb (Flags_MutedUntil f =? 0) && (now <? Flags_MutedUntil f).

Record ChatMember := mkMember {
  Member_ChatID : string;
  Member_UserID : string;
  Member_Role : MemberRole;
  Member_JoinedAt : Z;
  Member_Muted : bool;
  Member_Flags : MemberFlags;
}.

(** ** Messages *)

Abbreviation AttachmentKind := string (only parsing).

Record Attachment := mkAttachment {
  Attach_Kind : AttachmentKind;
  Attach_MediaRef : string;
  Attach_Filename : string;
  Attach_MIME : string;
  Attach_Size : Z;
  Attach_DurationMs : Z;
  Attach_Waveform : list Z;
  Attach_Width : Z;
  Attach_Height : Z;
  Attach_ThumbRef : string;
}.

Record ForwardOrigin := mkOrigin {
  Origin_ChatID : string;
  Origin_MessageID : string;
  Origin_SenderID : string;
}.

Record Message := mkMessage {
  Message_ID : string;
  Message_ChatID : string;
  Message_SenderID : string;
  Message_Seq : Z;
  Message_Text : string;
  Message_MediaRef : string;
  Message_Attachment : option Attachment;
  Message_ReplyTo : string;
  Message_ThreadRoot : string;
  Message_ReplyCount : Z;
  Message_Forward : option ForwardOrigin;
  Message_ExpiresAt : Z;
  Message_Edited : bool;
  Message_Deleted : bool;
  Message_CreatedAt : Z;
  Message_EditedAt : Z;
}.

#[global] Instance ForwardOrigin_eq_dec : EqDecision ForwardOrigin.
Proof. solve_decision. Defined.
#[global] Instance Attachment_eq_dec : EqDecision Attachment.
Proof. solve_decision. Defined.
#[global] Instance Message_eq_dec : EqDecision Message.
Proof. solve_decision. Defined.

(** Field updates of a message. *)
Definition set_Seq (n : Z) (m : Message) : Message :=
  mkMessage (Message_ID m) (Message_ChatID m) (Message_SenderID m) n (Message_Text m)
    (Message_MediaRef m) (Message_Attachment m) (Message_ReplyTo m) (Message_ThreadRoot m)
    (Message_ReplyCount m) (Message_Forward m) (Message_ExpiresAt m) (Message_Edited m)
    (Message_Deleted m) (Message_CreatedAt m) (Message_EditedAt m).
Definition set_ReplyCount (n : Z) (m : Message) : Message :=
  mkMessage (Message_ID m) (Message_ChatID m) (Message_SenderID m) (Message_Seq m)
    (Message_Text m) (Message_MediaRef m) (Message_Attachment m) (Message_ReplyTo m)
    (Message_ThreadRoot m) n (Message_Forward m) (Message_ExpiresAt m) (Message_Edited m)
    (Message_Deleted m) (Message_CreatedAt m) (Message_EditedAt m).
Definition set_ThreadRoot (root : string) (m : Message) : Message :=
  mkMessage (Message_ID m) (Message_ChatID m) (Message_SenderID m) (Message_Seq m)
    (Message_Text m) (Message_MediaRef m) (Message_Attachment m) (Message_ReplyTo m)
    root (Message_ReplyCount m) (Message_Forward m) (Message_ExpiresAt m) (Message_Edited m)
    (Message_Deleted m) (Message_CreatedAt m) (Message_EditedAt m).
(** [m.Text = text; m.Edited = true; m.EditedAt = at]. *)
Definition set_edit (text : string) (at_ : Z) (m : Message) : Message :=
  mkMessage (Message_ID m) (Message_ChatID m) (Message_SenderID m) (Message_Seq m)
    text (Message_MediaRef m) (Message_Attachment m) (Message_ReplyTo m)
    (Message_ThreadRoot m) (Message_ReplyCount m) (Message_Forward m) (Message_ExpiresAt m)
    true (Message_Deleted m) (Message_CreatedAt m) at_.
(** The content fields cleared: [Text], [MediaRef], [Attachment]. *)
Definition clear_content (m : Message) : Message :=
  mkMessage (Message_ID m) (Message_ChatID m) (Message_SenderID m) (Message_Seq m)
    "" "" None (Message_ReplyTo m)
    (Message_ThreadRoot m) (Message_ReplyCount m) (Message_Forward m) (Message_ExpiresAt m)
    (Message_Edited m) (Message_Deleted m) (Message_CreatedAt m) (Message_EditedAt m).
(** [m.Deleted = true; m.EditedAt = at], content cleared. *)
Definition set_deleted (at_ : Z) (m : Message) : Message :=
  mkMessage (Message_ID m) (Message_ChatID m) (Message_SenderID m) (Message_Seq m)
    "" "" None (Message_ReplyTo m)
    (Message_ThreadRoot m) (Message_ReplyCount m) (Message_Forward m) (Message_ExpiresAt m)
    (Message_Edited m) true (Message_CreatedAt m) at_.
Definition set_SenderID (u : string) (m : Message) : Message :=
  mkMessage (Message_ID m) (Message_ChatID m) u (Message_Seq m)
    (Message_Text m) (Message_MediaRef m) (Message_Attachment m) (Message_ReplyTo m)
    (Message_ThreadRoot m) (Message_ReplyCount m) (Message_Forward m) (Message_ExpiresAt m)
    (Message_Edited m) (Message_Deleted m) (Message_CreatedAt m) (Message_EditedAt m).
Definition set_Forward (f : option ForwardOrigin) (m : Message) : Message :=
  mkMessage (Message_ID m) (Message_ChatID m) (Message_SenderID m) (Message_Seq m)
    (Message_Text m) (Message_MediaRef m) (Message_Attachment m) (Message_ReplyTo m)
    (Message_ThreadRoot m) (Message_ReplyCount m) f (Message_ExpiresAt m)
    (Message_Edited m) (Message_Deleted m) (Message_CreatedAt m) (Message_EditedAt m).

Record ReadState := mkRead {
  Read_ChatID : string;
  Read_UserID : string;
  Read_UpToSeq : Z;
  Read_UpdatedAt : Z;
}.

Record ChatSummary := mkSummary {
  Sum_Chat : option Chat;
  Sum_MyRole : MemberRole;
  Sum_PeerID : string;
  Sum_LastMessage : option Message;
  Sum_UnreadCount : Z;
  Sum_LastActivityAt : Z;
  Sum_Flags : MemberFlags;
}.

(** ** Wire bodies and the outbox

    The bodies events carry ([pkg/wire] messages.go), before [wire.Marshal]. *)

Record WireAttachment := mkWireAttachment {
  WA_Kind : string;
  WA_MediaRef : string;
  WA_Filename : string;
  WA_MIME : string;
  WA_Size : Z;
  WA_DurationMs : Z;
  WA_Waveform : list Z;
  WA_Width : Z;
  WA_Height : Z;
  WA_ThumbRef : string;
}.

Record WireForward := mkWireForward {
  WF_ChatID : string;
  WF_MessageID : string;
  WF_SenderID : string;
}.

Record NewMessageBody := mkNewMessage {
  NM_MessageID : string;
  NM_ChatID : string;
  NM_SenderID : string;
  NM_ChatSeq : Z;
  NM_Text : string;
  NM_MediaRef : string;
  NM_ReplyTo : string;
  NM_Attachment : option WireAttachment;
  NM_Forward : option WireForward;
  NM_ExpiresAt : Z;
  NM_ThreadRoot : string;
  NM_ReplyCount : Z;
  NM_Edited : bool;
  NM_Deleted : bool;
  NM_Timestamp : Z;
}.

Record ReadUpdateBody := mkReadUpdate {
  RU_ChatID : string;
  RU_UserID : string;
  RU_UpToChatSeq : Z;
}.

Inductive EventBody :=
  | MessageBody (b : NewMessageBody)
  | ReadBody (b : ReadUpdateBody).

Record OutboxRecord := mkOutbox {
  Outbox_ID : string;
  Outbox_Subject : string;
  Outbox_Key : string;
  Outbox_Data : EventBody;
  Outbox_Trace : gmap string string;
}.

(** [store.MakeOutbox]; a nil function stages nothing, like one returning nil. *)
Definition MakeOutbox : Type := Message → option OutboxRecord.

(** ** Accounts *)

Record Device := mkDevice {
  Device_ID : string;
  Device_UserID : string;
  Device_Platform : string;
  Device_PushToken : string;
  Device_CreatedAt : Z;
  Device_LastSeen : Z;
}.

Record Session := mkSession {
  Session_ID : string;
  Session_UserID : string;
  Session_DeviceID : string;
  Session_Token : string;
  Session_ResumeToken : string;
  Session_CreatedAt : Z;
  Session_ExpiresAt : Z;
  Session_RevokedAt : Z;
  Session_PrevResumeToken : string;
  Session_ResumeRotatedAt : Z;
}.

(** ** Strings *)

(** Go's [a < b] on strings. *)
Definition str_lt (a b : string) : bool := negb (String.leb b a).

Lemma str_lt_le a b : str_lt a b = true → String.le a b.
Proof.
  unfold str_lt. rewrite negb_true_iff. intros Hb.
  destruct (total String.le a b) as [|Hba]; [done|]. unfold String.le in Hba. by rewrite Hb in Hba.
Qed.
Lemma str_lt_false a b : str_lt a b = false ↔ String.le b a.
Proof.
  unfold str_lt, String.le. rewrite negb_false_iff. by destruct (String.leb b a).
Qed.
Lemma str_lt_irrefl a : str_lt a a = false.
Proof. by apply str_lt_false. Qed.

(** The snowflake strings of user and chat ids sort as in [sort.Strings]. *)
Definition sort_Strings (l : list string) : list string := merge_sort String.le l.

Lemma sort_Strings_perm l : sort_Strings l ≡ₚ l.
Proof. apply merge_sort_Permutation. Qed.
Lemma sort_Strings_sorted l : StronglySorted String.le (sort_Strings l).
Proof. apply StronglySorted_merge_sort; apply _. Qed.
