(* ===== verification/EventBus.v ===== *)
(** * The event bus

    [pkg/eventbus] bus.go and memory.go: subjects, events, the [Bus] interface and
    the in-process bus.  An event's payload type is a parameter: the services publish
    structured bodies, which the wire encodes.  [Publish] starts a goroutine per
    chosen subscriber; the model returns the subscribers so chosen. *)

From Stdlib Require Import Strings.Byte.
From S2P Require Import Prelude Bytes.

Definition SubjMessageCreated : string := "message.created".
Definition SubjMessageEdited : string := "message.edited".
Definition SubjMessageDeleted : string := "message.deleted".
Definition SubjMessageRead : string := "message.read".
Definition SubjReaction : string := "message.reaction".
Definition SubjCallState : string := "call.state".
Definition SubjPollState : string := "poll.state".
Definition SubjPinned : string := "chat.pinned".
Definition SubjTyping : string := "chat.typing".
Definition SubjPresence : string := "user.presence".
Definition SubjNotifyPush : string := "notify.push".
Definition SubjSubscription : string := "billing.subscription".

Abbreviation Headers := (gmap string string).

Record Event (D : Type) := mkEvent {
  Event_Subject : string;
  Event_Key : string;
  Event_Data : D;
  Event_Headers : Headers;
}.
Arguments mkEvent {D}.
Arguments Event_Subject {D}.
Arguments Event_Key {D}.
Arguments Event_Data {D}.
Arguments Event_Headers {D}.

(** The [Bus] as the producers see it. *)
Class Bus (D W : Type) := Publish : Event D → M W unit.

(** ** The in-process bus *)

Section memory.
Context {Handler : Type}.

Record subscription := mkSub { sub_queue : string; sub_h : Handler }.

(** pattern → subscriptions, in the order they were made. *)
Record memoryBus := mkBus { subs : gmap string (list subscription) }.

Definition NewMemory : memoryBus := mkBus ∅.

Definition Subscribe (subject queue : string) (h : Handler) (b : memoryBus) : memoryBus :=
  mkBus (<[subject := default [] (subs b !! subject) ++ [mkSub queue h]]> (subs b)).
End memory.
Arguments subscription : clear implicits.
Arguments memoryBus : clear implicits.

(** [strings.HasPrefix] and [strings.HasSuffix]. *)
Definition HasPrefix (s prefix : string) : bool := String.prefix prefix s.
Definition HasSuffix (s suffix : string) : bool :=
  bool_decide (sbytes suffix `suffix_of` sbytes s).

(** [pattern[:len(pattern)-1]]. *)
Definition drop_last (s : string) : string := String.substring 0 (String.length s - 1) s.

Definition match_ (pattern subject : string) : bool :=
  if bool_decide (pattern = subject) then true
  else if HasSuffix pattern ".*" then HasPrefix subject (drop_last pattern)
  else bool_decide (pattern = "*").

Definition hashKey (s : string) : Z :=
  let h := fnv32a (sbytes s) in if h =? 0 then 1 else h.

Section publish.
Context {Handler D : Type} `{RangeOrder}.
Implicit Types b : memoryBus Handler.

(** Every subscription whose pattern matches, pattern by pattern. *)
Definition matching (b : memoryBus Handler) (subject : string) : list (subscription Handler) :=
  concat (snd <$> filter (λ e, match_ e.1 subject = true) (range_map (subs b))).

(** The first loop: subscriptions without a queue, and the others by queue. *)
Definition direct_of (l : list (subscription Handler)) : list (subscription Handler) :=
  filter (λ s, sub_queue s = "") l.

Definition groups_of (l : list (subscription Handler))
    : gmap string (list (subscription Handler)) :=
  foldl (λ groups s,
    if bool_decide (sub_queue s = "") then groups
    else <[sub_queue s := default [] (groups !! sub_queue s) ++ [s]]> groups) ∅ l.

(** [list[hashKey(e.Key) % uint32(len(list))]]. *)
Definition pick (key : string) (l : list (subscription Handler))
    : option (subscription Handler) :=
  l !! Z.to_nat (hashKey key mod u32 (len l)).

(** The subscriptions [Publish] hands the event to. *)
Definition memory_Publish (b : memoryBus Handler) (e : Event D) : list (subscription Handler) :=
  let ms := matching b (Event_Subject e) in
  direct_of ms ++ omap (λ g, pick (Event_Key e) g.2) (range_map (groups_of ms)).

(** ** Lemmas *)

Lemma groups_lookup l q :
  q ≠ "" →
  groups_of l !! q =
  let g := filter (λ s, sub_queue s = q) l in if bool_decide (g = []) then None else Some g.
Proof.
  intros Hq. unfold groups_of. induction l as [|s l IH] using rev_ind; [done|].
  rewrite foldl_app, filter_app. cbn [foldl].
  destruct (decide (sub_queue s = q)) as [<-|Hne].
  - rewrite bool_decide_false, lookup_insert_eq by done. rewrite IH. cbv zeta.
    rewrite (filter_cons_True _ s []) by done. rewrite filter_nil.
    rewrite (bool_decide_false (_ ++ [s] = [])) by (by destruct (filter _ l)).
    case_bool_decide as Hg; [by rewrite Hg | done].
  - rewrite (filter_cons_False _ s []) by done. rewrite filter_nil, app_nil_r.
    destruct (bool_decide (sub_queue s = "")); [done|]. by rewrite lookup_insert_ne.
Qed.

Lemma groups_empty_queue l : groups_of l !! "" = None.
Proof.
  unfold groups_of. induction l as [|s l IH] using rev_ind; [done|].
  rewrite foldl_app. cbn [foldl]. case_bool_decide as Hs; [done|].
  by rewrite lookup_insert_ne.
Qed.

Lemma pick_elem key l : l ≠ [] → len l < 2 ^ 32 → ∃ s, pick key l = Some s ∧ s ∈ l.
Proof.
  intros Hl Hlen. unfold pick. pose proof (len_nonneg l).
  assert (0 < len l) by (destruct l; [done | rewrite len_cons; pose proof (len_nonneg l); lia]).
  rewrite u32_small by lia.
  pose proof (Z.mod_pos_bound (hashKey key) (len l) ltac:(lia)).
  destruct (lookup_lt_is_Some_2 l (Z.to_nat (hashKey key mod len l))) as [s Hs];
    [unfold len in *; lia|].
  exists s. split; [done|]. by eapply list_elem_of_lookup_2.
Qed.

(** The deliveries of one event to a queue. *)
Lemma omap_groups_queue key (gs : list (string * list (subscription Handler))) q :
  (∀ g s, g ∈ gs → s ∈ g.2 → sub_queue s = g.1) →
  NoDup gs.*1 →
  filter (λ s, sub_queue s = q) (omap (λ g, pick key g.2) gs) =
  match list_find (λ g, g.1 = q) gs with
  | Some (_, g) => option_list (pick key g.2)
  | None => []
  end.
Proof.
  intros Hq Hnd. induction gs as [|[q' l] gs IH]; [done|].
  rewrite fmap_cons in Hnd. apply NoDup_cons in Hnd as [Hnin Hnd].
  assert (∀ s, pick key l = Some s → sub_queue s = q') as Hpick.
  { intros s Hs. apply (Hq (q', l)); [left|]. by eapply list_elem_of_lookup_2. }
  specialize (IH (λ g s Hg, Hq g s (list_elem_of_further _ _ _ Hg)) Hnd).
  cbn [omap list_omap list_find fst snd]. destruct (decide (q' = q)) as [->|Hne].
  - assert (filter (λ s, sub_queue s = q) (omap (λ g, pick key g.2) gs) = []) as Hrest.
    { rewrite IH. destruct (list_find _ gs) as [[i g]|] eqn:E; [|done].
      apply list_find_Some in E as (Hi & Hgq & _). destruct Hnin. subst q.
      apply list_elem_of_fmap. exists g. split; [done|]. by eapply list_elem_of_lookup_2. }
    cbn [snd]. destruct (pick key l) as [s|] eqn:Es; [|done].
    rewrite filter_cons_True by auto. by rewrite Hrest.
  - destruct (list_find _ gs) as [[i g]|] eqn:E; simpl;
      (destruct (pick key l) as [s|] eqn:Es; [rewrite filter_cons_False by (rewrite Hpick; auto)|];
       by rewrite IH).
Qed.

Lemma find_range_map {A} (m : gmap string A) q :
  match list_find (λ g, g.1 = q) (range_map m) with
  | Some (_, g) => Some g.2 | None => None end = m !! q.
Proof.
  destruct (list_find _ (range_map m)) as [[i [q' a]]|] eqn:E.
  - apply list_find_Some in E as (Hi & Hq & _). simpl in Hq. subst q'.
    symmetry. apply elem_of_range_map. by eapply list_elem_of_lookup_2.
  - apply list_find_None in E. symmetry. apply eq_None_not_Some. intros [a Ha%elem_of_range_map].
    rewrite Forall_forall in E. by apply (E _ Ha).
Qed.

Lemma groups_members l g s : g ∈ range_map (groups_of l) → s ∈ g.2 → sub_queue s = g.1.
Proof.
  destruct g as [q gl]. rewrite elem_of_range_map. intros Hg Hs. simpl in *.
  destruct (decide (q = "")) as [->|Hq]; [by rewrite groups_empty_queue in Hg|].
  rewrite groups_lookup in Hg by done. cbv zeta in Hg. case_bool_decide; [done|].
  injection Hg as <-. by apply list_elem_of_filter in Hs as [? _].
Qed.

(** ** Properties *)

(** Every event reaches the right consumers: each matching subscriber outside a queue
    group gets it once; a queue group with a matching subscriber gets it exactly
    once, through the member its key selects; nobody else gets it. *)
Theorem Publish_exactly_once b (e : Event D) :
  let ms := matching b (Event_Subject e) in
  len ms < 2 ^ 32 →
  filter (λ s, sub_queue s = "") (memory_Publish b e) = filter (λ s, sub_queue s = "") ms ∧
  ∀ q, q ≠ "" →
    let group := filter (λ s, sub_queue s = q) ms in
    (group = [] ∧ filter (λ s, sub_queue s = q) (memory_Publish b e) = []) ∨
    ∃ s, s ∈ group ∧ pick (Event_Key e) group = Some s ∧
      filter (λ s, sub_queue s = q) (memory_Publish b e) = [s].
Proof.
  cbv zeta. intros Hlen. unfold memory_Publish, direct_of. set (ms := matching _ _) in *.
  split.
  - rewrite filter_app, omap_groups_queue;
      [|apply groups_members | apply NoDup_range_keys].
    pose proof (find_range_map (groups_of ms) "") as Hf. rewrite groups_empty_queue in Hf.
    destruct (list_find _ _) as [[i g]|]; [done|].
    rewrite app_nil_r. apply filter_Forall, Forall_forall. intros s Hs.
    by apply list_elem_of_filter in Hs as [? _].
  - intros q Hq. rewrite filter_app, omap_groups_queue;
      [|apply groups_members | apply NoDup_range_keys].
    assert (filter (λ s, sub_queue s = q) (filter (λ s, sub_queue s = "") ms) = []) as ->.
    { apply filter_none, Forall_forall. intros s [Hs _]%list_elem_of_filter. congruence. }
    pose proof (find_range_map (groups_of ms) q) as Hf.
    rewrite groups_lookup in Hf by done. cbv zeta in Hf.
    set (group := filter (λ s, sub_queue s = q) ms) in *.
    assert (len group ≤ len ms) as Hle.
    { unfold len, group. pose proof (length_filter (λ s, sub_queue s = q) ms). lia. }
    destruct (list_find _ _) as [[i g]|]; case_bool_decide as Hg; try done.
    + right. injection Hf as ->.
      destruct (pick_elem (Event_Key e) group) as (s & Hp & Hin); [done | lia |].
      exists s. by rewrite Hp.
    + by left.
Qed.
End publish.

(** ** Subject patterns *)

Lemma sbytes_app a b : sbytes (a +:+ b) = sbytes a ++ sbytes b.
Proof.
  unfold sbytes, String.list_byte_of_string. rewrite <- map_app. f_equal.
  induction a as [|c a IH]; [done|]. simpl. by rewrite IH.
Qed.

Lemma prefix_app p s t : String.prefix p s = true → String.prefix p (s +:+ t) = true.
Proof.
  revert s. induction p as [|c p IH]; intros [|d s]; simpl; try done.
  { by destruct t. }
  destruct (Ascii.ascii_dec c d); [apply IH | done].
Qed.

Lemma prefix_refl p : String.prefix p p = true.
Proof. induction p as [|c p IH]; [done|]. simpl. by destruct (Ascii.ascii_dec c c). Qed.

Lemma drop_last_snoc p c : drop_last (p +:+ String c "") = p.
Proof.
  unfold drop_last.
  assert (String.length (p +:+ String c "") = S (String.length p)) as ->.
  { induction p as [|d p IH]; [done|]. simpl. by rewrite IH. }
  rewrite Nat.sub_1_r, Nat.pred_succ.
  induction p as [|d p IH]; [done|]. simpl. by rewrite IH.
Qed.

(** Subject patterns mean what they say: [p.*] matches exactly the subjects that begin
    with [p.], and a pattern with no trailing wildcard matches only itself. *)
Theorem match_pattern p subject :
  match_ (p +:+ ".*") subject = HasPrefix subject (p +:+ ".") ∧
  (HasSuffix p ".*" = false → p ≠ "*" → match_ p subject = bool_decide (p = subject)).
Proof.
  split.
  - unfold match_.
    assert (HasSuffix (p +:+ ".*") ".*" = true) as ->.
    { apply bool_decide_true. rewrite sbytes_app. by exists (sbytes p). }
    assert (p +:+ ".*" = (p +:+ ".") +:+ "*") as Hp.
    { clear. induction p as [|c p IH]; [done|]. 
      change (String c (p +:+ ".*") = String c ((p +:+ ".") +:+ "*")). by rewrite IH. }
    rewrite Hp, drop_last_snoc. case_bool_decide as Hs; [|done].
    subst subject. symmetry. apply prefix_app, prefix_refl.
  - intros Hsuf Hstar. unfold match_. rewrite Hsuf. rewrite (bool_decide_false _ Hstar).
    by case_bool_decide.
Qed.

(** ** Witnesses *)

Definition sample_bus : memoryBus nat :=
  Subscribe "message.*" "fanout" 3%nat (Subscribe "message.created" "fanout" 2%nat
    (Subscribe "message.*" "" 1%nat NewMemory)).
Definition sample_event : Event unit := mkEvent SubjMessageCreated "chat" tt ∅.

Lemma Publish_exactly_once_witness :
  ∃ s, filter (λ s, sub_queue s = "fanout")
         (memory_Publish (H := canonical_order) sample_bus sample_event) = [s].
Proof.
  destruct (Publish_exactly_once (H := canonical_order) sample_bus sample_event) as [_ Hq];
    [by vm_compute|].
  destruct (Hq "fanout" ltac:(done)) as [[Hg _]|(s & _ & _ & Hs)]; [by vm_compute in Hg|].
  by exists s.
Defined.

Lemma match_pattern_witness : match_ "message.created" "message.read" = false.
Proof.
  destruct (match_pattern "message.created" "message.read") as [_ Hm].
  rewrite Hm; [by vm_compute | by vm_compute | done].
Defined.
