(* ===== verification/MemChats.v ===== *)
(** * The in-memory store: chats and membership

    [internal/store/memory] chats.go, util.go, the membership part of invites.go and
    summaries.go.  [ChatDB] groups the fields of [memory.Store] that hold chats,
    members, the message log and the outbox; every method runs under the store's
    lock, so it is one step on this state. *)

From S2P Require Import Prelude Model.
#[local] Set Warnings "-clear-no-such-hyp".

Record ChatDB := mkChatDB {
  chats : gmap string Chat;
  directIndex : gmap string string;
  members : gmap string (gmap string ChatMember);
  messages : gmap string (list Message);
  dedup : gmap string string;
  reads : gmap string (gmap string ReadState);
  outbox : list OutboxRecord;
  (** [map[string]bool] holding only [true]. *)
  outboxSent : gset string;
}.

Definition New : ChatDB := mkChatDB ∅ ∅ ∅ ∅ ∅ ∅ [] ∅.

Definition set_chats v db := mkChatDB v (directIndex db) (members db) (messages db)
  (dedup db) (reads db) (outbox db) (outboxSent db).
Definition set_directIndex v db := mkChatDB (chats db) v (members db) (messages db)
  (dedup db) (reads db) (outbox db) (outboxSent db).
Definition set_members v db := mkChatDB (chats db) (directIndex db) v (messages db)
  (dedup db) (reads db) (outbox db) (outboxSent db).
Definition set_messages v db := mkChatDB (chats db) (directIndex db) (members db) v
  (dedup db) (reads db) (outbox db) (outboxSent db).
Definition set_dedup v db := mkChatDB (chats db) (directIndex db) (members db) (messages db)
  v (reads db) (outbox db) (outboxSent db).
Definition set_reads v db := mkChatDB (chats db) (directIndex db) (members db) (messages db)
  (dedup db) v (outbox db) (outboxSent db).
Definition set_outbox v db := mkChatDB (chats db) (directIndex db) (members db) (messages db)
  (dedup db) (reads db) v (outboxSent db).
Definition set_outboxSent v db := mkChatDB (chats db) (directIndex db) (members db)
  (messages db) (dedup db) (reads db) (outbox db) v.

(** ** Keys *)

Definition directKey (a b : string) : string :=
  let '(a, b) := if str_lt b a then (b, a) else (a, b) in a +:+ "|" +:+ b.

Definition pairKey (typ : ChatType) (a b : string) : string :=
  if bool_decide (typ = ChatDirect) || bool_decide (typ = "") then directKey a b
  else typ +:+ ":" +:+ directKey a b.

(** ** Chats *)

Definition CreateChat (c : Chat) : M ChatDB unit :=
  modify (λ db, set_chats (<[Chat_ID c := c]> (chats db)) db).

Definition GetChat (id : string) : M ChatDB Chat :=
  db ← get;
  match chats db !! id with
  | None => fail store_ErrNotFound
  | Some c => mret c
  end.

Definition addMemberLocked (m : ChatMember) : M ChatDB unit :=
  modify (λ db,
    let mm := default ∅ (members db !! Member_ChatID m) in
    set_members (<[Member_ChatID m := <[Member_UserID m := m]> mm]> (members db)) db).

Definition GetOrCreatePair (typ : ChatType) (userA userB newID : string) (now : Z)
    : M ChatDB Chat :=
  let typ := if bool_decide (typ = "") then ChatDirect else typ in
  let key := pairKey typ userA userB in
  db ← get;
  match directIndex db !! key with
  | Some id =>
      match chats db !! id with
      | Some c => mret c
      | None => fail go_panic
      end
  | None =>
      let c := mkChat newID typ "" userA now 0 "" in
      modify (λ db, set_chats (<[newID := c]> (chats db)) db);;
      modify (λ db, set_directIndex (<[key := newID]> (directIndex db)) db);;
      addMemberLocked (mkMember newID userA RoleOwner now false no_flags);;
      addMemberLocked (mkMember newID userB RoleMember now false no_flags);;
      mret c
  end.

Definition GetOrCreateDirect (userA userB newID : string) (now : Z) : M ChatDB Chat :=
  GetOrCreatePair ChatDirect userA userB newID now.

Definition GetDirect (userA userB : string) : M ChatDB Chat :=
  db ← get;
  match directIndex db !! directKey userA userB with
  | None => fail store_ErrNotFound
  | Some id =>
      match chats db !! id with
      | Some c => mret c
      | None => fail go_panic
      end
  end.

Definition AddMember (m : ChatMember) : M ChatDB unit := addMemberLocked m.

Definition RemoveMember (chatID userID : string) : M ChatDB unit :=
  modify (λ db,
    match members db !! chatID with
    | None => db
    | Some mm => set_members (<[chatID := delete userID mm]> (members db)) db
    end).

(** [s.members[chatID]], a nil map read as empty. *)
Definition members_of (chatID : string) (db : ChatDB) : gmap string ChatMember :=
  default ∅ (members db !! chatID).

Definition GetMember (chatID userID : string) : M ChatDB ChatMember :=
  db ← get;
  match members_of chatID db !! userID with
  | None => fail store_ErrNotFound
  | Some m => mret m
  end.

Definition IsMember (chatID userID : string) : M ChatDB bool :=
  gets (λ db, bool_decide (is_Some (members_of chatID db !! userID))).

Definition BumpSeq (chatID : string) : M ChatDB Z :=
  db ← get;
  match chats db !! chatID with
  | None => fail store_ErrNotFound
  | Some c =>
      let n := u64 (Chat_LastSeq c + 1) in
      modify (λ db, set_chats (<[chatID := set_LastSeq n c]> (chats db)) db);;
      mret n
  end.

Definition set_Role (r : MemberRole) (m : ChatMember) : ChatMember :=
  mkMember (Member_ChatID m) (Member_UserID m) r (Member_JoinedAt m) (Member_Muted m)
    (Member_Flags m).

Definition SetMemberRole (chatID userID : string) (role : MemberRole) : M ChatDB unit :=
  db ← get;
  match members db !! chatID with
  | None => fail store_ErrNotFound
  | Some mm =>
      match mm !! userID with
      | None => fail store_ErrNotFound
      | Some mem =>
          modify (λ db, set_members (<[chatID := <[userID := set_Role role mem]> mm]> (members db)) db)
      end
  end.

Definition SetMemberFlags (chatID userID : string) (f : MemberFlags) : M ChatDB unit :=
  db ← get;
  match members db !! chatID with
  | None => fail store_ErrNotFound
  | Some mm =>
      match mm !! userID with
      | None => fail store_ErrNotFound
      | Some m =>
          let cp := mkMember (Member_ChatID m) (Member_UserID m) (Member_Role m)
            (Member_JoinedAt m) (negb (Flags_MutedUntil f =? 0)) f in
          modify (λ db, set_members (<[chatID := <[userID := cp]> mm]> (members db)) db)
      end
  end.

Definition GetMemberFlags (chatID userID : string) : M ChatDB MemberFlags :=
  db ← get;
  match members_of chatID db !! userID with
  | None => fail store_ErrNotFound
  | Some m => mret (Member_Flags m)
  end.

Section ranged.
Context `{RangeOrder}.

Definition ListMembers (chatID : string) : M ChatDB (list ChatMember) :=
  gets (λ db, (range_map (members_of chatID db)).*2).

(** The ids of a keyset page: strictly after the cursor, in order, cut at the limit. *)
Definition ids_page (mm : gmap string ChatMember) (afterUserID : string) (limit : Z)
    : list string :=
  let limit := if limit <=? 0 then 500 else limit in
  let ids := filter (λ uid, str_lt afterUserID uid = true) (range_keys mm) in
  let ids := sort_Strings ids in
  if limit <? len ids then ztake limit ids else ids.

Definition ListMemberIDsPage (chatID afterUserID : string) (limit : Z)
    : M ChatDB (list string) :=
  gets (λ db, ids_page (members_of chatID db) afterUserID limit).

Definition ListMembersPage (chatID afterUserID : string) (limit : Z)
    : M ChatDB (list ChatMember) :=
  gets (λ db, let mm := members_of chatID db in
    omap (λ uid, mm !! uid) (ids_page mm afterUserID limit)).

Definition CountMembersWithRole (chatID : string) (role : MemberRole) : M ChatDB Z :=
  gets (λ db, len (filter (λ m, Member_Role m = role) (range_map (members_of chatID db)).*2)).

Definition ListUserChats (userID : string) : M ChatDB (list string) :=
  gets (λ db, fst <$> filter (λ e, is_Some (e.2 !! userID)) (range_map (members db))).

Definition CountPinnedChatsExcept (userID exceptChatID : string) : M ChatDB Z :=
  gets (λ db, len (filter (λ e : string * gmap string ChatMember,
    e.1 ≠ exceptChatID ∧ (Flags_Pinned ∘ Member_Flags <$> e.2 !! userID) = Some true)
    (range_map (members db)))).
End ranged.

(** ** Lemmas *)

Lemma GetMember_eq cid uid db :
  GetMember cid uid db =
  (db, match members_of cid db !! uid with Some m => Ok m | None => Err store_ErrNotFound end).
Proof. unfold GetMember. rewrite M_bind_eq. cbn [get]. by case_match. Qed.

Lemma GetChat_eq id db :
  GetChat id db =
  (db, match chats db !! id with Some c => Ok c | None => Err store_ErrNotFound end).
Proof. unfold GetChat. rewrite M_bind_eq. cbn [get]. by case_match. Qed.

(** Members are filed under their own, non-empty, id. *)
Definition members_wf (mm : gmap string ChatMember) : Prop :=
  ∀ uid m, mm !! uid = Some m → Member_UserID m = uid ∧ uid ≠ "".

Lemma str_lt_empty uid : uid ≠ "" → str_lt "" uid = true.
Proof. by destruct uid. Qed.

Section pages.
Context `{RangeOrder}.
Implicit Types mm : gmap string ChatMember.

Lemma ids_page_eq mm after limit :
  0 < limit →
  ids_page mm after limit =
  ztake limit (sort_Strings (filter (λ uid, str_lt after uid = true) (range_keys mm))).
Proof.
  intros Hl. unfold ids_page. rewrite (proj2 (Z.leb_gt limit 0)) by done.
  destruct (limit <? _) eqn:E; bool_to_prop; [done|]. unfold ztake, len in *.
  by rewrite firstn_all2 by lia.
Qed.

(** A member of a page is a member of the chat. *)
Lemma elem_of_ids_page mm after limit uid :
  0 < limit → uid ∈ ids_page mm after limit → is_Some (mm !! uid) ∧ str_lt after uid = true.
Proof.
  intros Hl. rewrite ids_page_eq by done. intros Hin%elem_of_ztake.
  rewrite sort_Strings_perm in Hin. apply list_elem_of_filter in Hin as [? Hin].
  by apply elem_of_range_keys in Hin.
Qed.

Lemma NoDup_ids_page mm after limit : 0 < limit → NoDup (ids_page mm after limit).
Proof.
  intros Hl. rewrite ids_page_eq by done.
  eapply sublist_NoDup; [|apply sublist_take]. rewrite sort_Strings_perm.
  apply NoDup_filter, NoDup_range_keys.
Qed.

Lemma range_keys_nonempty mm :
  members_wf mm → filter (λ uid, str_lt "" uid = true) (range_keys mm) = range_keys mm.
Proof.
  intros Hwf. apply filter_Forall, Forall_forall. intros uid [m Hm]%elem_of_range_keys.
  apply str_lt_empty. by apply Hwf in Hm as [_ ?].
Qed.

Lemma len_first_page mm limit :
  members_wf mm → 0 < limit → len (ids_page mm "" limit) = Z.min limit (maplen mm).
Proof.
  intros Hwf Hl. rewrite ids_page_eq, range_keys_nonempty by done.
  unfold len, ztake, maplen. rewrite length_take, sort_Strings_perm.
  unfold range_keys. rewrite length_fmap, length_range_map. lia.
Qed.

Lemma omap_lookup_ids mm ids :
  Forall (λ uid, is_Some (mm !! uid)) ids →
  length (omap (λ uid, mm !! uid) ids) = length ids ∧
  ∀ m, m ∈ omap (λ uid, mm !! uid) ids ↔ ∃ uid, uid ∈ ids ∧ mm !! uid = Some m.
Proof.
  intros Hids. split.
  - induction Hids as [|uid ids [m Hm] _ IH]; [done|].
    cbn [omap list_omap]. rewrite Hm. cbn [length]. f_equal. exact IH.
  - intros m. rewrite list_elem_of_omap. naive_solver.
Qed.

(** The whole membership fits the first page when it is no larger. *)
Lemma ids_page_all mm limit :
  members_wf mm → 0 < limit → maplen mm ≤ limit → ids_page mm "" limit ≡ₚ range_keys mm.
Proof.
  intros Hwf Hl Hle. rewrite ids_page_eq, range_keys_nonempty by done.
  unfold ztake. rewrite firstn_all2; [apply sort_Strings_perm|].
  rewrite sort_Strings_perm. unfold range_keys, maplen in *.
  rewrite length_fmap, length_range_map. lia.
Qed.

(** *** Walking the pages *)

(** What a walk from a cursor has left. *)
Definition after_ids (mm : gmap string ChatMember) (after : string) : list string :=
  sort_Strings (filter (λ uid, str_lt after uid = true) (range_keys mm)).

Lemma after_ids_spec mm after :
  NoDup (after_ids mm after) ∧
  (∀ uid, uid ∈ after_ids mm after ↔ is_Some (mm !! uid) ∧ str_lt after uid = true).
Proof.
  unfold after_ids. split.
  - rewrite sort_Strings_perm. apply NoDup_filter, NoDup_range_keys.
  - intros uid. rewrite sort_Strings_perm, list_elem_of_filter, elem_of_range_keys. tauto.
Qed.

(** Everything up to the end of a non-empty prefix of a sorted list is at most its
    last element, and nothing after it is. *)
Lemma sorted_cut pg uid rest x :
  StronglySorted String.le ((pg ++ [uid]) ++ rest) → NoDup ((pg ++ [uid]) ++ rest) →
  x ∈ (pg ++ [uid]) ++ rest → x ∈ rest ↔ str_lt uid x = true.
Proof.
  intros Hs (_ & Hdis & _)%NoDup_app [Hx|Hx]%elem_of_app.
  - split; [intros Hr; by destruct (Hdis x)|]. intros Hlt. exfalso.
    assert (String.le x uid) as Hle%str_lt_false; [|congruence].
    apply elem_of_app in Hx as [Hx| ->%list_elem_of_singleton]; [|done].
    apply StronglySorted_app_1_l in Hs. eapply StronglySorted_app_1_elem_of; [exact Hs|done|set_solver].
  - split; [|done]. intros _. apply not_false_is_true. intros Hle%str_lt_false.
    assert (String.le uid x) as Hux.
    { eapply StronglySorted_app_1_elem_of; [exact Hs | set_solver | done]. }
    apply (Hdis x); [|done]. rewrite (anti_symm String.le _ _ Hle Hux). set_solver.
Qed.

Lemma str_lt_trans a b c : str_lt a b = true → str_lt b c = true → str_lt a c = true.
Proof.
  intros Hab%str_lt_le Hbc. apply not_false_is_true. intros Hle%str_lt_false.
  assert (String.le c b) as Hcb%str_lt_false by (by transitivity a). congruence.
Qed.

Lemma after_ids_next mm after limit uid :
  0 < limit → last (ids_page mm after limit) = Some uid →
  after_ids mm after = ids_page mm after limit ++ after_ids mm uid.
Proof.
  intros Hl Hlast. rewrite ids_page_eq in * by done. fold (after_ids mm after) in *.
  destruct (after_ids_spec mm after) as [Hnd Hin].
  pose proof (sort_Strings_sorted (filter (λ uid, str_lt after uid = true) (range_keys mm))) as Hs.
  fold (after_ids mm after) in Hs. apply last_Some in Hlast as [pg Hpg].
  assert (after_ids mm after = (pg ++ [uid]) ++ zdrop limit (after_ids mm after)) as Hcut.
  { rewrite <- Hpg. symmetry. apply ztake_zdrop. }
  set (rest := zdrop _ _) in *. rewrite Hpg. rewrite Hcut in *. clear Hcut. f_equal.
  assert (str_lt after uid = true) as Hau by (apply Hin; set_solver).
  apply (StronglySorted_unique String.le).
  - eapply StronglySorted_app_1_r, Hs.
  - apply sort_Strings_sorted.
  - apply NoDup_Permutation.
    + by apply NoDup_app in Hnd as (_ & _ & ?).
    + apply after_ids_spec.
    + intros x. rewrite (proj2 (after_ids_spec mm uid)).
      pose proof (sorted_cut pg uid rest x Hs Hnd) as Hx. split.
      * intros Hr. assert (x ∈ (pg ++ [uid]) ++ rest) as Ha by set_solver.
        split; [by apply Hin in Ha as [? _] | by apply Hx].
      * intros [Hs1 Hlt]. apply Hx; [|done]. apply Hin. split; [done|]. by eapply str_lt_trans.
Qed.
End pages.
