(* ===== verification/MemMessages.v ===== *)
(** * The in-memory store: the message log, read cursors and the outbox

    [internal/store/memory] messages.go, reads.go and the expiry pass of schedule.go,
    on the same [ChatDB] as MemChats.v. *)

From S2P Require Import Prelude Model MemChats.

(** [s.messages[chatID]]. *)
Definition messages_of (chatID : string) (db : ChatDB) : list Message :=
  default [] (messages db !! chatID).

Definition put_messages (chatID : string) (l : list Message) (db : ChatDB) : ChatDB :=
  set_messages (<[chatID := l]> (messages db)) db.

(** [for _, m := range msgs { if m.ID == id { ... } }]: the first match, and its
    update in place. *)
Definition find_msg (id : string) (l : list Message) : option Message :=
  find (λ m, bool_decide (Message_ID m = id)) l.

Fixpoint update_first (id : string) (f : Message → Message) (l : list Message) : list Message :=
  match l with
  | [] => []
  | m :: l => if bool_decide (Message_ID m = id) then f m :: l else m :: update_first id f l
  end.

Definition stageOutboxLocked (mkOb : MakeOutbox) (m : Message) : M ChatDB unit :=
  modify (λ db,
    match mkOb m with
    | None => db
    | Some rec => set_outbox (outbox db ++ [rec]) db
    end).

Definition dedup_key (senderID dedupKey : string) : string := senderID +:+ "|" +:+ dedupKey.

(** The stored message a retry resolves to, if any. *)
Definition dedup_hit (senderID chatID dedupKey : string) (db : ChatDB) : option Message :=
  if bool_decide (dedupKey = "") then None
  else existingID ← dedup db !! dedup_key senderID dedupKey;
       find_msg existingID (messages_of chatID db).

Definition InsertMessage (m : Message) (dedupKey : string) (mkOb : MakeOutbox)
    : M ChatDB (Message * bool) :=
  let dk := dedup_key (Message_SenderID m) dedupKey in
  let cid := Message_ChatID m in
  db ← get;
  match dedup_hit (Message_SenderID m) cid dedupKey db with
  | Some ex => mret (ex, true)
  | None =>
      match chats db !! cid with
      | None => fail store_ErrNotFound
      | Some c =>
          let n := u64 (Chat_LastSeq c + 1) in
          modify (λ db, set_chats (<[cid := set_LastSeq n c]> (chats db)) db);;
          let cp := set_Seq n m in
          let msgs := messages_of cid db ++ [cp] in
          let msgs := if bool_decide (Message_ThreadRoot m = "") then msgs
                      else update_first (Message_ThreadRoot m)
                             (λ ex, set_ReplyCount (i32 (Message_ReplyCount ex + 1)) ex) msgs in
          modify (put_messages cid msgs);;
          modify (λ db, if bool_decide (dedupKey = "") then db
                        else set_dedup (<[dk := Message_ID m]> (dedup db)) db);;
          let out := default cp (last msgs) in
          stageOutboxLocked mkOb out;;
          mret (out, false)
      end
  end.

Definition GetMessage (chatID id : string) : M ChatDB Message :=
  db ← get;
  match find_msg id (messages_of chatID db) with
  | None => fail store_ErrNotFound
  | Some m => mret m
  end.

(** The shape shared by [EditMessage] and [DeleteMessage]: update the first message
    with this id in place, then stage the event of the updated copy. *)
Definition update_message (chatID id : string) (f : Message → Message) (mkOb : MakeOutbox)
    : M ChatDB Message :=
  db ← get;
  match find_msg id (messages_of chatID db) with
  | None => fail store_ErrNotFound
  | Some m =>
      modify (put_messages chatID (update_first id f (messages_of chatID db)));;
      stageOutboxLocked mkOb (f m);;
      mret (f m)
  end.

Definition EditMessage (chatID id text : string) (at_ : Z) (mkOb : MakeOutbox)
    : M ChatDB Message :=
  update_message chatID id (set_edit text at_) mkOb.

Definition DeleteMessage (chatID id : string) (at_ : Z) (mkOb : MakeOutbox)
    : M ChatDB Message :=
  update_message chatID id (set_deleted at_) mkOb.

(** [ExpireMessages]: within one chat, and over the chats, until [budget] messages
    have been tombstoned. *)
Definition due (now : Z) (m : Message) : bool :=
  negb ((Message_ExpiresAt m =? 0) || (now <? Message_ExpiresAt m) || Message_Deleted m).

Fixpoint expire_msgs (now budget : Z) (l : list Message) : list Message * list Message :=
  match l with
  | [] => ([], [])
  | m :: l =>
      if due now m then
        let m' := set_deleted now m in
        if budget - 1 <=? 0 then (m' :: l, [m'])
        else let '(l', out) := expire_msgs now (budget - 1) l in (m' :: l', m' :: out)
      else let '(l', out) := expire_msgs now budget l in (m :: l', out)
  end.

Fixpoint expire_chats (now budget : Z) (cs : list (string * list Message)) (db : ChatDB)
    : ChatDB * list Message :=
  match cs with
  | [] => (db, [])
  | (cid, l) :: cs =>
      let '(l', out) := expire_msgs now budget l in
      let db := put_messages cid l' db in
      if budget - len out <=? 0 then (db, out)
      else let '(db, out') := expire_chats now (budget - len out) cs db in (db, out ++ out')
  end.

Definition ExpireMessages `{RangeOrder} (now limit : Z) : M ChatDB (list Message) :=
  let limit := if limit <=? 0 then 200 else limit in
  λ db, let '(db, out) := expire_chats now limit (range_map (messages db)) db in (db, Ok out).

(** ** Reading the log *)

(** Newest first. *)
Definition newer (a b : Message) : Prop := Message_Seq b ≤ Message_Seq a.
#[global] Instance newer_dec a b : Decision (newer a b).
Proof. unfold newer. apply _. Defined.

#[global] Instance newer_trans : Transitive newer.
Proof. intros a b c. unfold newer. lia. Qed.
#[global] Instance newer_total : Total newer.
Proof. intros a b. unfold newer. lia. Qed.

Definition History (chatID : string) (beforeSeq limit : Z) : M ChatDB (list Message) :=
  gets (λ db,
    let tmp := filter (λ m, beforeSeq = 0 ∨ Message_Seq m < beforeSeq) (messages_of chatID db) in
    let tmp := merge_sort newer tmp in
    if (0 <? limit) && (limit <? len tmp) then ztake limit tmp else tmp).

Definition Thread (chatID rootID : string) (afterSeq limit : Z) : M ChatDB (list Message) :=
  let limit := if limit <=? 0 then 50 else limit in
  gets (λ db, ztake limit
    (filter (λ m, Message_ThreadRoot m = rootID ∧ afterSeq < Message_Seq m)
       (messages_of chatID db))).

(** Does a live message point at the blob? *)
Definition refers (ref : string) (m : Message) : bool :=
  negb (Message_Deleted m) &&
  (bool_decide (Message_MediaRef m = ref) ||
   match Message_Attachment m with
   | None => false
   | Some a => bool_decide (Attach_MediaRef a = ref) || bool_decide (Attach_ThumbRef a = ref)
   end).

Section ranged.
Context `{RangeOrder}.

Definition MediaRefChats (ref : string) (limit : Z) : M ChatDB (list string) :=
  if bool_decide (ref = "") then mret []
  else
    let limit := if limit <=? 0 then 32 else limit in
    gets (λ db, ztake limit (fst <$>
      filter (λ e, existsb (refers ref) e.2 = true) (range_map (messages db)))).

Definition MediaRefExists (ref : string) : M ChatDB bool :=
  if bool_decide (ref = "") then mret false
  else gets (λ db, existsb (λ e, existsb (refers ref) e.2) (range_map (messages db))).
End ranged.

(** ** Read cursors *)

Definition SetRead (rs : ReadState) : M ChatDB unit :=
  modify (λ db,
    let mm := default ∅ (reads db !! Read_ChatID rs) in
    let put v := set_reads (<[Read_ChatID rs := v]> (reads db)) db in
    match mm !! Read_UserID rs with
    | Some cur =>
        if Read_UpToSeq rs <=? Read_UpToSeq cur then put mm
        else put (<[Read_UserID rs := rs]> mm)
    | None => put (<[Read_UserID rs := rs]> mm)
    end).

Definition GetRead (chatID userID : string) : M ChatDB ReadState :=
  db ← get;
  match reads db !! chatID with
  | None => fail store_ErrNotFound
  | Some mm =>
      match mm !! userID with
      | None => fail store_ErrNotFound
      | Some rs => mret rs
      end
  end.

(** ** The outbox *)

(** [Poll]: unsent records in order; the cut is tested after each append. *)
Fixpoint poll_loop (sent : gset string) (limit n : Z) (l : list OutboxRecord)
    : list OutboxRecord :=
  match l with
  | [] => []
  | rec :: l =>
      if bool_decide (Outbox_ID rec ∈ sent) then poll_loop sent limit n l
      else rec :: (if limit <=? n + 1 then [] else poll_loop sent limit (n + 1) l)
  end.

Definition Poll (limit : Z) : M ChatDB (list OutboxRecord) :=
  gets (λ db, poll_loop (outboxSent db) limit 0 (outbox db)).

(** [for i < len(s.outbox) && s.outboxSent[s.outbox[i].ID] { delete; i++ }]. *)
Fixpoint compact (sent : gset string) (l : list OutboxRecord)
    : gset string * list OutboxRecord :=
  match l with
  | [] => (sent, [])
  | rec :: l' =>
      if bool_decide (Outbox_ID rec ∈ sent) then compact (sent ∖ {[Outbox_ID rec]}) l'
      else (sent, l)
  end.

Definition MarkSent (ids : list string) : M ChatDB unit :=
  modify (λ db,
    let sent := foldl (λ sent id, {[id]} ∪ sent) (outboxSent db) ids in
    let '(sent, l) := compact sent (outbox db) in
    set_outbox l (set_outboxSent sent db)).

(** The loop of [PurgeSent], [n] records dropped so far. *)
Fixpoint purge_loop (limit n : Z) (sent : gset string) (l : list OutboxRecord)
    : Z * gset string * list OutboxRecord :=
  match l with
  | [] => (n, sent, [])
  | rec :: l =>
      if (n <? limit) && bool_decide (Outbox_ID rec ∈ sent)
      then purge_loop limit (n + 1) (sent ∖ {[Outbox_ID rec]}) l
      else let '(n, sent, kept) := purge_loop limit n sent l in (n, sent, rec :: kept)
  end.

(** The cut-off time of the durable store is ignored here. *)
Definition PurgeSent (before limit : Z) : M ChatDB Z := λ db,
  let '(n, sent, kept) := purge_loop limit 0 (outboxSent db) (outbox db) in
  (set_outbox kept (set_outboxSent sent db), Ok n).
