(* ===== verification/MessageLog.v ===== *)
(** * The message log: ordering, idempotence, history

    What the operations of MemChats.v and MemMessages.v guarantee together: per-chat
    sequence numbers without gaps, retries that resolve to the message first stored,
    history pages, tombstones. *)

From S2P Require Import Prelude Model MemChats MemMessages.

#[local] Set Warnings "-clear-no-such-hyp".

(** ** Operations as data *)

Inductive op :=
  | OCreateChat (c : Chat)
  | OPair (typ : ChatType) (userA userB newID : string) (now : Z)
  | OAddMember (m : ChatMember)
  | ORemoveMember (chatID userID : string)
  | OSetRole (chatID userID : string) (role : MemberRole)
  | OSetFlags (chatID userID : string) (f : MemberFlags)
  | OInsert (m : Message) (dedupKey : string) (mkOb : MakeOutbox)
  | OEdit (chatID id text : string) (at_ : Z) (mkOb : MakeOutbox)
  | ODelete (chatID id : string) (at_ : Z) (mkOb : MakeOutbox)
  | OExpire (now limit : Z)
  | OSetRead (rs : ReadState)
  | OMarkSent (ids : list string)
  | OPurgeSent (before limit : Z).

(** What identifies a stored message and its place. *)
Definition tag (m : Message) : string * string * Z :=
  (Message_ID m, Message_ChatID m, Message_Seq m).
Definition skeleton (chatID : string) (db : ChatDB) : list (string * string * Z) :=
  tag <$> messages_of chatID db.

Section run.
Context `{RangeOrder}.

Definition run (o : op) (db : ChatDB) : ChatDB :=
  match o with
  | OCreateChat c => (CreateChat c db).1
  | OPair typ a b id now => (GetOrCreatePair typ a b id now db).1
  | OAddMember m => (AddMember m db).1
  | ORemoveMember c u => (RemoveMember c u db).1
  | OSetRole c u r => (SetMemberRole c u r db).1
  | OSetFlags c u f => (SetMemberFlags c u f db).1
  | OInsert m k ob => (InsertMessage m k ob db).1
  | OEdit c i t a ob => (EditMessage c i t a ob db).1
  | ODelete c i a ob => (DeleteMessage c i a ob db).1
  | OExpire now l => (ExpireMessages now l db).1
  | OSetRead rs => (SetRead rs db).1
  | OMarkSent ids => (MarkSent ids db).1
  | OPurgeSent b l => (PurgeSent b l db).1
  end.

(** The ids the callers mint are fresh, chats start at sequence 0, and a chat does not
    exhaust its 64-bit counter. *)
Definition op_ok (o : op) (db : ChatDB) : Prop :=
  match o with
  | OCreateChat c =>
      chats db !! Chat_ID c = None ∧ messages_of (Chat_ID c) db = [] ∧ Chat_LastSeq c = 0
  | OPair _ _ _ id _ => chats db !! id = None ∧ messages_of id db = []
  | OSetRead rs => 0 ≤ Read_UpToSeq rs
  | OInsert m _ _ =>
      ¬ (Message_ID m ∈ Message_ID <$> messages_of (Message_ChatID m) db) ∧
      (∀ c, chats db !! Message_ChatID m = Some c → Chat_LastSeq c + 1 < 2 ^ 64)
  | _ => True
  end.

Inductive exec : ChatDB → list op → ChatDB → Prop :=
  | exec_nil db : exec db [] db
  | exec_snoc db ops db' o :
      exec db ops db' → op_ok o db' → exec db (ops ++ [o]) (run o db').

(** ** The invariant *)

Record log_ok (db : ChatDB) : Prop := {
  ok_seqs cid c :
    chats db !! cid = Some c →
    0 ≤ Chat_LastSeq c < 2 ^ 64 ∧ (skeleton cid db).*2 = seqZ 1 (Chat_LastSeq c);
  ok_chat cid : chats db !! cid = None → messages_of cid db = [];
  ok_ids cid : NoDup (skeleton cid db).*1.*1;
  ok_cid cid : Forall (λ t, t.1.2 = cid) (skeleton cid db);
  ok_index k id : directIndex db !! k = Some id → is_Some (chats db !! id);
}.

(** ** Lists of messages *)

Definition keeps (f : Message → Message) : Prop := ∀ m, tag (f m) = tag m.

Lemma keeps_edit text at_ : keeps (set_edit text at_).
Proof. done. Qed.
Lemma keeps_deleted at_ : keeps (set_deleted at_).
Proof. done. Qed.
Lemma keeps_reply g : keeps (λ ex, set_ReplyCount (g ex) ex).
Proof. done. Qed.

Lemma update_first_tag id f l : keeps f → tag <$> update_first id f l = tag <$> l.
Proof.
  intros Hf. induction l as [|m l IH]; [done|]. cbn [update_first].
  case_bool_decide; rewrite !fmap_cons; [by rewrite Hf | by rewrite IH].
Qed.

Lemma expire_msgs_tag now budget l : tag <$> (expire_msgs now budget l).1 = tag <$> l.
Proof.
  revert budget. induction l as [|m l IH]; intros budget; [done|]. cbn [expire_msgs].
  destruct (due now m).
  - destruct (_ <=? 0); [done|]. specialize (IH (budget - 1)).
    destruct (expire_msgs now (budget - 1) l) as [l' out]. cbn [fst] in *.
    by rewrite !fmap_cons, IH.
  - specialize (IH budget). destruct (expire_msgs now budget l) as [l' out]. cbn [fst] in *.
    by rewrite !fmap_cons, IH.
Qed.

Lemma messages_of_put cid cid' l db :
  messages_of cid (put_messages cid' l db) = if decide (cid' = cid) then l else messages_of cid db.
Proof.
  unfold messages_of, put_messages; simpl. case_decide as Hc.
  - subst. by rewrite lookup_insert_eq.
  - by rewrite lookup_insert_ne.
Qed.

Lemma skeleton_put cid cid' l db :
  tag <$> l = skeleton cid' db → skeleton cid (put_messages cid' l db) = skeleton cid db.
Proof.
  intros Hl. unfold skeleton in *. rewrite messages_of_put. case_decide; [by subst | done].
Qed.

Lemma expire_chats_frame now budget cs db db' out :
  (∀ cid l, (cid, l) ∈ cs → tag <$> l = skeleton cid db) → NoDup cs.*1 →
  expire_chats now budget cs db = (db', out) →
  chats db' = chats db ∧ directIndex db' = directIndex db ∧ dedup db' = dedup db ∧
  ∀ cid, skeleton cid db' = skeleton cid db.
Proof.
  revert budget db out. induction cs as [|[cid l] cs IH]; intros budget db out Hcs Hnd; simpl.
  { by intros [= <- <-]. }
  apply NoDup_cons in Hnd as [Hnin Hnd]. simpl in Hnin.
  pose proof (expire_msgs_tag now budget l) as Ht.
  destruct (expire_msgs now budget l) as [l' o]; simpl in Ht.
  assert (∀ cid', skeleton cid' (put_messages cid l' db) = skeleton cid' db) as Hsk.
  { intros cid'. apply skeleton_put. rewrite Ht. apply Hcs. left. }
  destruct (_ <=? 0).
  { by intros [= <- <-]. }
  destruct (expire_chats _ _ cs _) as [db2 o2] eqn:E. intros [= <- <-].
  apply IH in E as (-> & -> & -> & Hs); [|intros cid' l2 Hin; rewrite Hsk; apply Hcs; by right|done].
  split_and!; [done..|]. intros cid'. by rewrite Hs, Hsk.
Qed.

(** ** Frames: what every operation but the three that create leaves alone *)

Definition creates (o : op) : bool :=
  match o with OCreateChat _ | OPair _ _ _ _ _ | OInsert _ _ _ => true | _ => false end.

Definition same_log (db db' : ChatDB) : Prop :=
  chats db' = chats db ∧ directIndex db' = directIndex db ∧ dedup db' = dedup db ∧
  ∀ cid, skeleton cid db' = skeleton cid db.

Lemma same_log_refl db : same_log db db.
Proof. done. Qed.

Lemma stage_same_log mkOb m db : same_log db (stageOutboxLocked mkOb m db).1.
Proof. unfold stageOutboxLocked, modify; simpl. by case_match. Qed.

Lemma update_message_same_log cid id f mkOb db :
  keeps f → same_log db (update_message cid id f mkOb db).1.
Proof.
  intros Hf. unfold update_message. rewrite M_bind_eq. simpl.
  destruct (find_msg id (messages_of cid db)) as [m|]; [|done].
  rewrite !M_bind_eq; simpl. destruct (mkOb (f m)); simpl; split_and!; try done;
    intros cid'; apply (skeleton_put cid' cid), update_first_tag, Hf.
Qed.

Lemma run_same_log o db : creates o = false → same_log db (run o db).
Proof.
  destruct o; try done; intros _; simpl.
  - unfold RemoveMember, modify; simpl. by case_match.
  - unfold SetMemberRole. rewrite M_bind_eq. simpl. by repeat case_match.
  - unfold SetMemberFlags. rewrite M_bind_eq. simpl. by repeat case_match.
  - by apply update_message_same_log.
  - by apply update_message_same_log.
  - unfold ExpireMessages. destruct (expire_chats _ _ _ _) as [db' out] eqn:E. simpl.
    apply expire_chats_frame in E; [done| |apply NoDup_range_keys].
    intros cid l Hin%elem_of_range_map. unfold skeleton, messages_of. by rewrite Hin.
  - unfold SetRead, modify; simpl. by repeat case_match.
  - unfold MarkSent, modify; simpl. by case_match.
  - unfold PurgeSent. by destruct (purge_loop _ _ _ _) as [[n sent] kept].
Qed.

Lemma same_log_ok db db' : same_log db db' → log_ok db → log_ok db'.
Proof.
  intros (Hc & Hd & _ & Hs) [H1 H2 H3 H4 H5]. constructor.
  - intros cid c. rewrite Hc, Hs. apply H1.
  - intros cid. rewrite Hc. intros Hn%H2. specialize (Hs cid). unfold skeleton in Hs.
    rewrite Hn in Hs. by apply fmap_nil_inv in Hs.
  - intros cid. rewrite Hs. apply H3.
  - intros cid. rewrite Hs. apply H4.
  - intros k id. rewrite Hd, Hc. apply H5.
Qed.

(** ** Inserting *)

Lemma messages_of_eq cid l ms db' :
  messages db' = <[cid := l]> ms → messages_of cid db' = l.
Proof. intros Hm. unfold messages_of. by rewrite Hm, lookup_insert_eq. Qed.

Lemma last_tag l t : last (tag <$> l) = Some t → ∃ m, last l = Some m ∧ tag m = t.
Proof.
  rewrite fmap_last. destruct (last l) as [m|]; [|done]. intros [= <-]. by exists m.
Qed.

Lemma InsertMessage_hit m k ob db ex :
  dedup_hit (Message_SenderID m) (Message_ChatID m) k db = Some ex →
  InsertMessage m k ob db = (db, Ok (ex, true)).
Proof. intros Hh. unfold InsertMessage. rewrite M_bind_eq. simpl. by rewrite Hh. Qed.

(** A message that is not a retry gets the next number of its chat. *)
Lemma InsertMessage_new m k ob db c :
  let cid := Message_ChatID m in
  let n := u64 (Chat_LastSeq c + 1) in
  dedup_hit (Message_SenderID m) cid k db = None → chats db !! cid = Some c →
  ∃ db' out, InsertMessage m k ob db = (db', Ok (out, false)) ∧
    tag out = (Message_ID m, cid, n) ∧
    chats db' = <[cid := set_LastSeq n c]> (chats db) ∧
    directIndex db' = directIndex db ∧ members db' = members db ∧ reads db' = reads db ∧
    dedup db' = (if bool_decide (k = "") then dedup db
                 else <[dedup_key (Message_SenderID m) k := Message_ID m]> (dedup db)) ∧
    skeleton cid db' = skeleton cid db ++ [tag out] ∧
    (∀ cid', cid' ≠ cid → messages_of cid' db' = messages_of cid' db) ∧
    last (messages_of cid db') = Some out ∧
    outbox db' = outbox db ++ option_list (ob out) ∧ outboxSent db' = outboxSent db.
Proof.
  intros cid n Hh Hc. unfold InsertMessage. rewrite M_bind_eq. cbn [get].
  fold cid. rewrite Hh, Hc. fold n. rewrite !M_bind_eq; cbn [modify].
  set (msgs := if bool_decide (Message_ThreadRoot m = "") then _ else _).
  assert (tag <$> msgs = skeleton cid db ++ [(Message_ID m, cid, n)]) as Ht.
  { unfold msgs, skeleton. case_bool_decide; rewrite ?update_first_tag by done; by rewrite fmap_app. }
  destruct (last_tag msgs (Message_ID m, cid, n)) as (out & Hl & Htag).
  { by rewrite Ht, last_snoc. }
  simpl. rewrite Hl. unfold stageOutboxLocked, modify. simpl.
  destruct (ob out) as [r|] eqn:Eo; simpl; case_bool_decide; simpl;
    (eexists _, out; split_and!; try done;
     [unfold skeleton at 1; rewrite (messages_of_eq cid msgs (messages db)) by done; by rewrite Ht, Htag
     |intros cid' Hne; unfold messages_of; simpl; by rewrite lookup_insert_ne
     |by rewrite (messages_of_eq cid msgs (messages db))
     |rewrite Eo; simpl; by rewrite ?app_nil_r]).
Qed.

(** The log after an insertion, exactly. *)
Definition inserted (m : Message) (n : Z) (l : list Message) : list Message :=
  let msgs := l ++ [set_Seq n m] in
  if bool_decide (Message_ThreadRoot m = "") then msgs
  else update_first (Message_ThreadRoot m)
         (λ ex, set_ReplyCount (i32 (Message_ReplyCount ex + 1)) ex) msgs.

Lemma InsertMessage_messages m k ob db c :
  let cid := Message_ChatID m in
  dedup_hit (Message_SenderID m) cid k db = None → chats db !! cid = Some c →
  messages_of cid (InsertMessage m k ob db).1 =
  inserted m (u64 (Chat_LastSeq c + 1)) (messages_of cid db).
Proof.
  intros cid Hh Hc. unfold InsertMessage. rewrite M_bind_eq. cbn [get].
  fold cid. rewrite Hh, Hc. rewrite !M_bind_eq; cbn [modify].
  unfold stageOutboxLocked, modify; simpl. fold (inserted m (u64 (Chat_LastSeq c + 1)) (messages_of cid db)).
  case_match; simpl; case_bool_decide; simpl; by erewrite messages_of_eq.
Qed.

Lemma InsertMessage_changes m k ob db cid :
  messages_of cid (InsertMessage m k ob db).1 ≠ messages_of cid db →
  cid = Message_ChatID m ∧ dedup_hit (Message_SenderID m) cid k db = None ∧
  ∃ c, chats db !! cid = Some c ∧
    messages_of cid (InsertMessage m k ob db).1 =
    inserted m (u64 (Chat_LastSeq c + 1)) (messages_of cid db).
Proof.
  intros Hne. destruct (dedup_hit (Message_SenderID m) (Message_ChatID m) k db) as [ex|] eqn:Eh.
  { by erewrite InsertMessage_hit in Hne. }
  destruct (chats db !! Message_ChatID m) as [c|] eqn:Ec.
  - destruct (decide (cid = Message_ChatID m)) as [->|Hcid].
    { split_and!; [done..|]. exists c. split; [done|]. by apply InsertMessage_messages. }
    destruct (InsertMessage_new m k ob db c Eh Ec) as (db' & out & Hi & Hrest).
    rewrite Hi in Hne. destruct Hne. by apply Hrest.
  - destruct Hne. unfold InsertMessage. rewrite M_bind_eq. cbn [get]. by rewrite Eh, Ec.
Qed.

Lemma update_message_messages cid id f mkOb db cid' :
  messages_of cid' (update_message cid id f mkOb db).1 =
  if decide (cid = cid') then update_first id f (messages_of cid' db) else messages_of cid' db.
Proof.
  unfold update_message. rewrite M_bind_eq. cbn [get].
  destruct (find_msg id (messages_of cid db)) as [m|] eqn:E.
  - unfold stageOutboxLocked, modify. simpl.
    destruct (mkOb (f m)); simpl; (unfold messages_of at 1; simpl; case_decide as Hd;
      [subst; by rewrite lookup_insert_eq | by rewrite lookup_insert_ne]).
  - cbn [fail fst]. destruct (decide (cid = cid')) as [->|]; [|done]. revert E. generalize (messages_of cid' db). clear.
    induction l as [|m l IH]; [done|]. simpl. case_bool_decide; [done|]. intros E. f_equal. by apply IH.
Qed.

(** What expiry does to a chat's messages: some become tombstones. *)
Definition maybe_expired (now : Z) (m m' : Message) : Prop := m' = m ∨ m' = set_deleted now m.

Lemma expire_msgs_log now budget l :
  Forall2 (maybe_expired now) l (expire_msgs now budget l).1 ∧
  Forall (λ m, ∃ m0, m0 ∈ l ∧ m = set_deleted now m0) (expire_msgs now budget l).2.
Proof.
  revert budget. induction l as [|m l IH]; intros budget; [done|]. cbn [expire_msgs].
  destruct (due now m).
  - destruct (_ <=? 0); simpl.
    + split; [constructor; [by right|]|constructor; [set_solver|done]].
      apply Forall2_same_length_lookup_2; [done|]. intros i x y Hx Hy. left. congruence.
    + specialize (IH (budget - 1)). destruct (expire_msgs now (budget - 1) l) as [l' o].
      simpl in *. destruct IH as [IH1 IH2]. split; [constructor; [by right|done]|].
      constructor; [set_solver|]. eapply Forall_impl; [exact IH2|]. set_solver.
  - specialize (IH budget). destruct (expire_msgs now budget l) as [l' o]. simpl in *.
    destruct IH as [IH1 IH2]. split; [constructor; [by left|done]|].
    eapply Forall_impl; [exact IH2|]. set_solver.
Qed.

Lemma maybe_expired_refl now l : Forall2 (maybe_expired now) l l.
Proof. induction l; constructor; [by left|done]. Qed.

Lemma expire_chats_log now budget cs db :
  (∀ cid l, (cid, l) ∈ cs → messages_of cid db = l) → NoDup cs.*1 →
  let '(db', out) := expire_chats now budget cs db in
  (∀ cid, Forall2 (maybe_expired now) (messages_of cid db) (messages_of cid db')) ∧
  members db' = members db ∧ outbox db' = outbox db ∧ chats db' = chats db.
Proof.
  revert budget db. induction cs as [|[cid l] cs IH]; intros budget db Hcs Hnd; simpl.
  { split_and!; try done. intros. apply maybe_expired_refl. }
  apply NoDup_cons in Hnd as [Hnin Hnd]. simpl in Hnin.
  destruct (expire_msgs_log now budget l) as [Hl _].
  destruct (expire_msgs now budget l) as [l' o]; simpl in Hl.
  assert (∀ cid', Forall2 (maybe_expired now) (messages_of cid' db)
    (messages_of cid' (put_messages cid l' db))) as Hput.
  { intros cid'. rewrite messages_of_put. case_decide as Hd; [subst|apply maybe_expired_refl].
    rewrite (Hcs cid' l); [done|left]. }
  destruct (_ <=? 0); [by split_and!|].
  assert (∀ cid0 l0, (cid0, l0) ∈ cs → messages_of cid0 (put_messages cid l' db) = l0) as Hcs'.
  { intros cid0 l0 Hin. rewrite messages_of_put. case_decide as Hd; [|apply Hcs; by right].
    subst. destruct Hnin. apply list_elem_of_fmap. by exists (cid0, l0). }
  specialize (IH (budget - len o) (put_messages cid l' db) Hcs' Hnd).
  destruct (expire_chats _ _ cs _) as [db2 o2]. destruct IH as (IH & Hm & Ho & Hc).
  split_and!; [|done..]. intros cid'. specialize (Hput cid'). specialize (IH cid').
  eapply Forall2_trans; [|exact Hput|exact IH].
  intros x y z [->| ->] [->| ->]; unfold maybe_expired; eauto.
Qed.

Lemma GetOrCreatePair_ok typ a b id now db :
  chats db !! id = None → messages_of id db = [] → log_ok db →
  log_ok (GetOrCreatePair typ a b id now db).1.
Proof.
  intros Hid Hm Hok. unfold GetOrCreatePair. rewrite M_bind_eq. cbn [get].
  set (key := pairKey _ a b). destruct (directIndex db !! key) as [id'|] eqn:E.
  { destruct (chats db !! id') as [c|]; done. }
  destruct Hok as [H1 H2 H3 H4 H5]. constructor; simpl.
  - intros cid c [[<- <-]|[Hne Hc]]%lookup_insert_Some; [|by apply H1].
    simpl. split; [done|]. unfold skeleton, messages_of in *; simpl. by rewrite Hm.
  - intros cid [Hne Hc]%lookup_insert_None. by apply H2.
  - apply H3.
  - apply H4.
  - intros k id' [[<- <-]|[Hne Hk]]%lookup_insert_Some.
    + rewrite lookup_insert_eq. eauto.
    + apply H5 in Hk as [c Hc]. destruct (decide (id = id')) as [->|].
      * rewrite lookup_insert_eq. eauto.
      * rewrite lookup_insert_ne by done. eauto.
Qed.

Lemma CreateChat_ok c db :
  chats db !! Chat_ID c = None → messages_of (Chat_ID c) db = [] → Chat_LastSeq c = 0 →
  log_ok db → log_ok (CreateChat c db).1.
Proof.
  intros Hid Hm Hs [H1 H2 H3 H4 H5]. constructor; simpl.
  - intros cid c' [[<- <-]|[Hne Hc]]%lookup_insert_Some; [|by apply H1].
    rewrite Hs. split; [done|]. unfold skeleton, messages_of in *; simpl. by rewrite Hm.
  - intros cid [Hne Hc]%lookup_insert_None. by apply H2.
  - apply H3.
  - apply H4.
  - intros k id' Hk. apply H5 in Hk as [c' Hc'].
    destruct (decide (Chat_ID c = id')) as [<-|]; [by rewrite lookup_insert_eq; eauto|].
    rewrite lookup_insert_ne by done. eauto.
Qed.

Lemma InsertMessage_ok m k ob db :
  op_ok (OInsert m k ob) db → log_ok db → log_ok (InsertMessage m k ob db).1.
Proof.
  intros [Hfresh Hbound] Hok.
  destruct (dedup_hit (Message_SenderID m) (Message_ChatID m) k db) as [ex|] eqn:Eh.
  { by erewrite InsertMessage_hit. }
  destruct (chats db !! Message_ChatID m) as [c|] eqn:Ec.
  2:{ unfold InsertMessage. rewrite M_bind_eq; simpl. by rewrite Eh, Ec. }
  specialize (Hbound c eq_refl). destruct Hok as [H1 H2 H3 H4 H5].
  destruct (H1 _ _ Ec) as [Hr Hseq].
  destruct (InsertMessage_new m k ob db c Eh Ec)
    as (db' & out & -> & Ht & Hc & Hd & _ & _ & _ & Hsk & Hother & _). cbn [fst].
  rewrite u64_small in * by lia. set (cid := Message_ChatID m) in *.
  assert (∀ cid', cid' ≠ cid → skeleton cid' db' = skeleton cid' db) as Hother'.
  { intros cid' Hne. unfold skeleton. by rewrite Hother. }
  constructor.
  - intros cid' c'. rewrite Hc. intros [[<- <-]|[Hne Hc']]%lookup_insert_Some.
    + simpl. split; [lia|]. rewrite Hsk, fmap_app, Hseq, Ht. simpl.
      rewrite seqZ_app by lia. f_equal. rewrite (Z.add_comm 1). unfold seqZ. simpl.
      by rewrite Z.add_0_l.
    + rewrite Hother' by done. by apply H1.
  - intros cid'. rewrite Hc. intros [Hne Hn]%lookup_insert_None.
    rewrite Hother by done. by apply H2.
  - intros cid'. destruct (decide (cid' = cid)) as [->|Hne]; [|rewrite Hother'; auto].
    rewrite Hsk, !fmap_app, Ht. simpl. apply NoDup_app. split_and!; [apply H3| |apply NoDup_singleton].
    intros x Hx ->%list_elem_of_singleton. apply Hfresh. unfold skeleton in Hx.
    by rewrite <- !list_fmap_compose in Hx.
  - intros cid'. destruct (decide (cid' = cid)) as [->|Hne]; [|rewrite Hother'; auto].
    rewrite Hsk, Ht. apply Forall_app. split; [apply H4 | by repeat constructor].
  - intros k' id. rewrite Hd, Hc. intros [c' Hc']%H5.
    destruct (decide (cid = id)) as [<-|]; [by rewrite lookup_insert_eq; eauto|].
    rewrite lookup_insert_ne by done. eauto.
Qed.

Lemma run_ok o db : op_ok o db → log_ok db → log_ok (run o db).
Proof.
  destruct (creates o) eqn:E.
  - destruct o; try done; intros Hop Hok; simpl.
    + destruct Hop as (?&?&?). by apply CreateChat_ok.
    + destruct Hop. by apply GetOrCreatePair_ok.
    + by apply InsertMessage_ok.
  - intros _. by apply same_log_ok, run_same_log.
Qed.

Lemma New_ok : log_ok New.
Proof. constructor; try done; intros; apply NoDup_nil_2. Qed.

Lemma exec_ok db ops db' : log_ok db → exec db ops db' → log_ok db'.
Proof.
  intros Hok Hex. revert Hok. induction Hex as [|db ops db' o _ IH Hop]; [done|]. intros Hok.
  apply run_ok; auto.
Qed.

(** ** Reading *)

Lemma log_ok_seqs db cid c :
  log_ok db → chats db !! cid = Some c →
  Message_Seq <$> messages_of cid db = seqZ 1 (Chat_LastSeq c).
Proof.
  intros Hok Hc. destruct (ok_seqs _ Hok _ _ Hc) as [_ <-]. unfold skeleton.
  by rewrite <- list_fmap_compose.
Qed.

Lemma log_ok_sorted db cid :
  log_ok db → StronglySorted (λ a b, Message_Seq a < Message_Seq b) (messages_of cid db).
Proof.
  intros Hok. destruct (chats db !! cid) as [c|] eqn:Hc.
  - apply (StronglySorted_fmap Z.lt). rewrite (log_ok_seqs db cid c) by done. apply seqZ_sorted.
  - rewrite (ok_chat _ Hok _ Hc). constructor.
Qed.

(** The messages of a chat below a sequence number (0: all of them), newest first. *)
Definition below (before : Z) (l : list Message) : list Message :=
  reverse (filter (λ m, before = 0 ∨ Message_Seq m < before) l).

Lemma sort_below before l :
  StronglySorted (λ a b, Message_Seq a < Message_Seq b) l →
  merge_sort newer (filter (λ m, before = 0 ∨ Message_Seq m < before) l) = below before l.
Proof.
  intros Hl. apply (sorted_desc_unique Message_Seq).
  - unfold below. rewrite merge_sort_Permutation. symmetry. apply reverse_Permutation.
  - apply (StronglySorted_merge_sort newer).
  - unfold below. apply (StronglySorted_reverse (λ a b, Message_Seq a < Message_Seq b)).
    by apply StronglySorted_filter.
Qed.

Lemma History_below db cid before limit :
  log_ok db → 0 < limit →
  History cid before limit db = (db, Ok (ztake limit (below before (messages_of cid db)))).
Proof.
  intros Hok Hl. unfold History, gets. rewrite sort_below by (by apply log_ok_sorted).
  rewrite (proj2 (Z.ltb_lt 0 limit)) by done. simpl.
  destruct (limit <? _) eqn:E; bool_to_prop; [done|]. do 2 f_equal.
  unfold ztake. rewrite firstn_all2; [done|]. unfold len in E. lia.
Qed.

(** A client scrolling back: pages of [limit], each starting below the last message
    of the page before, until a page is empty. *)
Fixpoint walk (fuel : nat) (cid : string) (before limit : Z) (db : ChatDB) : list Message :=
  match fuel with
  | O => []
  | S fuel =>
      match (History cid before limit db).2 with
      | Ok page =>
          match last page with
          | None => []
          | Some m => page ++ walk fuel cid (Message_Seq m) limit db
          end
      | Err _ => []
      end
  end.

(** A page and the messages still below it make up everything below its start. *)
Lemma below_page before limit l page m :
  StronglySorted (λ a b, Message_Seq a < Message_Seq b) l →
  Forall (λ a, 0 < Message_Seq a) l →
  ztake limit (below before l) = page → last page = Some m →
  below before l = page ++ below (Message_Seq m) l ∧ (length page ≠ 0)%nat.
Proof.
  intros Hs Hpos Hpage Hlast. split; [|by destruct page].
  assert (StronglySorted (λ a b, Message_Seq b < Message_Seq a) (below before l)) as Hd.
  { apply (StronglySorted_reverse (λ a b, Message_Seq a < Message_Seq b)).
    by apply StronglySorted_filter. }
  rewrite <- (ztake_zdrop limit (below before l)), Hpage in Hd |- *.
  set (rest := zdrop limit (below before l)) in *.
  assert (m ∈ below before l) as Hm.
  { rewrite <- (ztake_zdrop limit (below before l)), Hpage. apply elem_of_app. left.
    by apply last_Some_elem_of. }
  apply elem_of_reverse, list_elem_of_filter in Hm as [Hmb Hml].
  f_equal. transitivity (filter (λ x, Message_Seq x < Message_Seq m) (below before l)).
  - rewrite <- (ztake_zdrop limit (below before l)), Hpage, filter_app. fold rest.
    apply StronglySorted_app in Hd as (Hcross & Hd1 & _).
    apply last_Some in Hlast as [pre ->].
    rewrite filter_none, filter_Forall; [done| |].
    + apply Forall_forall. intros x Hx. apply Hcross; [|done]. apply elem_of_app. right. left.
    + apply Forall_app. split; [|by constructor; [lia|constructor]].
      apply Forall_forall. intros x Hx.
      apply StronglySorted_app in Hd1 as (Hc1 & _ & _).
      specialize (Hc1 x m Hx ltac:(left)). lia.
  - unfold below. rewrite filter_reverse, list_filter_filter. f_equal.
    apply filter_ext_in. intros x Hx. rewrite Forall_forall in Hpos.
    specialize (Hpos m Hml). simpl. lia.
Qed.

Lemma walk_below fuel cid before limit db :
  log_ok db → 0 < limit → (length (below before (messages_of cid db)) < fuel)%nat →
  walk fuel cid before limit db = below before (messages_of cid db).
Proof.
  intros Hok Hl. revert before. induction fuel as [|fuel IH]; intros before Hf; [lia|].
  cbn [walk]. rewrite History_below by done. cbn [snd].
  destruct (last _) as [m|] eqn:E.
  - assert (Forall (λ a, 0 < Message_Seq a) (messages_of cid db)) as Hpos.
    { destruct (chats db !! cid) as [c|] eqn:Ec; [|by rewrite (ok_chat _ Hok _ Ec)].
      apply Forall_forall. intros x Hx.
      assert (Message_Seq x ∈ Message_Seq <$> messages_of cid db) as Hin by (by apply list_elem_of_fmap_2).
      rewrite (log_ok_seqs db cid c) in Hin by done. apply elem_of_seqZ in Hin. lia. }
    pose proof (below_page before limit _ _ m (log_ok_sorted db cid Hok) Hpos eq_refl E)
      as [Hsplit Hne].
    rewrite IH; [done|]. rewrite Hsplit, length_app in Hf. lia.
  - apply last_None in E. symmetry. unfold ztake in E.
    destruct (below _ _); [done|]. by destruct (Z.to_nat limit) eqn:?; [lia|].
Qed.

(** ** Retries *)

(** A message is on record under a sender's idempotency key. *)
Definition sent_as (db : ChatDB) (sender cid key : string) (t : string * string * Z) : Prop :=
  key ≠ "" ∧ dedup db !! dedup_key sender key = Some t.1.1 ∧ t ∈ skeleton cid db.

(** The operation does not reuse the key for another chat. *)
Definition key_respected (sender cid key : string) (o : op) : Prop :=
  match o with
  | OInsert m k _ =>
      dedup_key (Message_SenderID m) k = dedup_key sender key → Message_ChatID m = cid
  | _ => True
  end.

Lemma find_msg_tag id l : id ∈ (tag <$> l).*1.*1 → is_Some (find_msg id l).
Proof.
  rewrite <- !list_fmap_compose. intros (m & -> & Hm)%list_elem_of_fmap.
  unfold find_msg. destruct (find _ l) eqn:E; [by eauto|]. exfalso.
  apply list_elem_of_In in Hm. apply (find_none _ _ E) in Hm. by apply bool_decide_eq_false in Hm.
Qed.

Lemma find_msg_Some id l m : find_msg id l = Some m → m ∈ l ∧ Message_ID m = id.
Proof.
  intros [Hin Hid]%find_some. apply bool_decide_eq_true in Hid. by apply list_elem_of_In in Hin.
Qed.

(** With distinct ids the message found is the recorded one. *)
Lemma find_msg_unique db cid t m :
  log_ok db → t ∈ skeleton cid db → find_msg t.1.1 (messages_of cid db) = Some m → tag m = t.
Proof.
  intros Hok Ht [Hm Hid]%find_msg_Some. pose proof (ok_ids _ Hok cid) as Hnd.
  assert (tag m ∈ skeleton cid db) as Htm by (by apply list_elem_of_fmap_2).
  apply list_elem_of_lookup in Ht as [i Hi]. apply list_elem_of_lookup in Htm as [j Hj].
  assert (i = j) as <-.
  { eapply NoDup_lookup; [done|..]; rewrite !list_lookup_fmap; [by rewrite Hi | by rewrite Hj; simpl; rewrite <- Hid]. }
  congruence.
Qed.

Lemma sent_as_hit db sender cid key t :
  log_ok db → sent_as db sender cid key t →
  ∃ ex, dedup_hit sender cid key db = Some ex ∧ tag ex = t.
Proof.
  intros Hok (Hk & Hd & Ht). unfold dedup_hit. rewrite bool_decide_false, Hd by done. simpl.
  destruct (find_msg_tag t.1.1 (messages_of cid db)) as [ex Hex].
  { apply list_elem_of_fmap_2, list_elem_of_fmap_2, Ht. }
  exists ex. split; [done|]. by eapply find_msg_unique.
Qed.

Lemma sent_as_run o db sender cid key t :
  log_ok db → key_respected sender cid key o →
  sent_as db sender cid key t → sent_as (run o db) sender cid key t.
Proof.
  intros Hok Hkey Hs. destruct (creates o) eqn:E.
  2:{ destruct (run_same_log o db E) as (_ & _ & Hd & Hsk). destruct Hs as (?&?&?).
      split_and!; [done | by rewrite Hd | by rewrite Hsk]. }
  destruct o as [c|typ a b id now| | | | |m k ob| | | | | | ]; try done; simpl.
  - unfold GetOrCreatePair. rewrite M_bind_eq. cbn [get].
    destruct (directIndex db !! _) as [id'|]; [by destruct (chats db !! id')|done].
  - destruct (dedup_hit (Message_SenderID m) (Message_ChatID m) k db) as [ex|] eqn:Eh.
    { by erewrite InsertMessage_hit. }
    destruct (chats db !! Message_ChatID m) as [c|] eqn:Ec.
    2:{ unfold InsertMessage. rewrite M_bind_eq; simpl. by rewrite Eh, Ec. }
    destruct (InsertMessage_new m k ob db c Eh Ec)
      as (db' & out & -> & Ht & _ & _ & _ & _ & Hd & Hsk & Hother & _). cbn [fst].
    destruct (sent_as_hit _ _ _ _ _ Hok Hs) as (ex & Hex & _). destruct Hs as (Hk & Hdk & Hin).
    split_and!; [done| |].
    + rewrite Hd. case_bool_decide as Hk0; [done|].
      rewrite lookup_insert_ne; [done|]. intros Heq. simpl in Hkey.
      specialize (Hkey Heq). unfold dedup_hit in Eh, Hex.
      rewrite bool_decide_false in Eh, Hex by done. rewrite Heq, Hkey in Eh. congruence.
    + unfold skeleton. destruct (decide (cid = Message_ChatID m)) as [->|Hne].
      * fold (skeleton (Message_ChatID m) db'). rewrite Hsk. apply elem_of_app. by left.
      * by rewrite Hother.
Qed.

Lemma sent_as_exec db ops db' sender cid key t :
  log_ok db → exec db ops db' → Forall (key_respected sender cid key) ops →
  sent_as db sender cid key t → sent_as db' sender cid key t.
Proof.
  intros Hok Hex. induction Hex as [|db ops db' o Hex IH Hop]; [done|].
  intros [Hops Ho]%Forall_app Hs. apply Forall_cons in Ho as [Ho _].
  apply sent_as_run; [by eapply exec_ok | done | auto].
Qed.

Lemma InsertMessage_sent_as m key ob db db' out dup :
  key ≠ "" → log_ok db → InsertMessage m key ob db = (db', Ok (out, dup)) →
  sent_as db' (Message_SenderID m) (Message_ChatID m) key (tag out).
Proof.
  intros Hk Hok Hins.
  destruct (dedup_hit (Message_SenderID m) (Message_ChatID m) key db) as [ex|] eqn:Eh.
  - rewrite (InsertMessage_hit _ _ _ _ _ Eh) in Hins. injection Hins as <- <- <-.
    unfold dedup_hit in Eh. rewrite bool_decide_false in Eh by done.
    apply bind_Some in Eh as (id & Hd & [Hin Hid]%find_msg_Some).
    split_and!; [done | by simpl; rewrite Hid | by apply list_elem_of_fmap_2].
  - destruct (chats db !! Message_ChatID m) as [c|] eqn:Ec.
    2:{ unfold InsertMessage in Hins. rewrite M_bind_eq in Hins; simpl in Hins.
        by rewrite Eh, Ec in Hins. }
    destruct (InsertMessage_new m key ob db c Eh Ec)
      as (db1 & out1 & Hrun & Ht & _ & _ & _ & _ & Hd & Hsk & _).
    rewrite Hins in Hrun. injection Hrun as <- <- _.
    split_and!; [done | | rewrite Hsk; apply elem_of_app; right; left].
    rewrite Hd, bool_decide_false, lookup_insert_eq, Ht by done. done.
Qed.

(** ** Read cursors *)

Definition cursor (cid u : string) (db : ChatDB) : Z :=
  default 0 (mm ← reads db !! cid; Read_UpToSeq <$> mm !! u).

Lemma SetRead_cursor rs cid u db :
  0 ≤ Read_UpToSeq rs →
  cursor cid u (SetRead rs db).1 =
  if bool_decide ((Read_ChatID rs, Read_UserID rs) = (cid, u))
  then Z.max (cursor cid u db) (Read_UpToSeq rs) else cursor cid u db.
Proof.
  intros Hpos. unfold SetRead, modify, cursor; cbn [fst].
  destruct (decide (Read_ChatID rs = cid)) as [<-|Hc].
  2:{ rewrite bool_decide_false by congruence.
      repeat case_match; simpl; by rewrite lookup_insert_ne. }
  set (mm := default ∅ (reads db !! Read_ChatID rs)).
  assert (∀ v, (x ← reads db !! Read_ChatID rs; Read_UpToSeq <$> x !! v) =
    Read_UpToSeq <$> mm !! v) as Hmm.
  { intros v. unfold mm. by destruct (reads db !! Read_ChatID rs). }
  rewrite Hmm. clearbody mm. clear Hmm.
  destruct (decide (Read_UserID rs = u)) as [<-|Hu].
  - rewrite bool_decide_true by done.
    destruct (mm !! Read_UserID rs) as [cur|] eqn:E; simpl.
    + destruct (_ <=? _) eqn:El; bool_to_prop; simpl; rewrite lookup_insert_eq; simpl.
      * rewrite E; simpl. lia.
      * rewrite lookup_insert_eq; simpl. lia.
    + rewrite lookup_insert_eq; simpl. rewrite lookup_insert_eq; simpl. lia.
  - rewrite bool_decide_false by congruence.
    destruct (mm !! Read_UserID rs) as [cur|] eqn:E; simpl; [destruct (_ <=? _); simpl|];
      rewrite lookup_insert_eq; simpl; by rewrite ?lookup_insert_ne.
Qed.

Lemma reads_frame o db : match o with OSetRead _ => False | _ => True end → reads (run o db) = reads db.
Proof.
  destruct o; try done; intros _; simpl.
  - unfold GetOrCreatePair. rewrite M_bind_eq. cbn [get].
    destruct (directIndex db !! _) as [id'|]; [by destruct (chats db !! id')|done].
  - unfold RemoveMember, modify; simpl. by case_match.
  - unfold SetMemberRole. rewrite M_bind_eq. simpl. by repeat case_match.
  - unfold SetMemberFlags. rewrite M_bind_eq. simpl. by repeat case_match.
  - destruct (dedup_hit (Message_SenderID m) (Message_ChatID m) dedupKey db) as [ex|] eqn:Eh.
    { by erewrite InsertMessage_hit. }
    destruct (chats db !! Message_ChatID m) as [c|] eqn:Ec.
    2:{ unfold InsertMessage. rewrite M_bind_eq; simpl. by rewrite Eh, Ec. }
    by destruct (InsertMessage_new m dedupKey mkOb db c Eh Ec)
      as (db' & out & -> & _ & _ & _ & _ & Hr & _).
  - unfold EditMessage, update_message. rewrite M_bind_eq. simpl. case_match; [|done].
    rewrite !M_bind_eq. simpl. by case_match.
  - unfold DeleteMessage, update_message. rewrite M_bind_eq. simpl. case_match; [|done].
    rewrite !M_bind_eq. simpl. by case_match.
  - unfold ExpireMessages. destruct (expire_chats _ _ _ _) as [db' out] eqn:E. simpl.
    revert E. generalize (range_map (messages db)) at 1. intros cs.
    generalize (if limit <=? 0 then 200 else limit). intros budget.
    revert budget db out. induction cs as [|[cid l] cs IH]; intros budget db out; simpl.
    { by intros [= <- _]. }
    destruct (expire_msgs now budget l) as [l' o]. destruct (_ <=? 0).
    { by intros [= <- _]. }
    destruct (expire_chats _ _ cs _) as [db2 o2] eqn:E. intros [= <- _]. by apply IH in E.
  - unfold MarkSent, modify; simpl. by case_match.
  - unfold PurgeSent. by destruct (purge_loop _ _ _ _) as [[n sent] kept].
Qed.

(** ** Expiry *)

Definition tombstone (m : Message) : Prop :=
  Message_Deleted m = true ∧ Message_Text m = "" ∧ Message_MediaRef m = "" ∧
  Message_Attachment m = None.

Lemma expire_msgs_spec now budget l l' out :
  0 < budget → expire_msgs now budget l = (l', out) →
  len out ≤ budget ∧ Forall tombstone out ∧
  (len out < budget → Forall (λ m, due now m = false) l').
Proof.
  revert budget l' out. induction l as [|m l IH]; intros budget l' out Hb; simpl.
  { intros [= <- <-]. split_and!; [done || (unfold len; simpl; lia) | constructor | constructor]. }
  destruct (due now m) eqn:Ed.
  - destruct (budget - 1 <=? 0) eqn:Eb; bool_to_prop.
    + intros [= <- <-]. rewrite len_cons, len_nil. split_and!; [lia | by repeat constructor | lia].
    + destruct (expire_msgs now (budget - 1) l) as [l2 o2] eqn:E. intros [= <- <-].
      apply IH in E as (Hle & Ht & Hd); [|lia]. rewrite len_cons.
      split_and!; [lia | by constructor |]. intros Hlt. constructor; [|apply Hd; lia].
      unfold due; simpl. by rewrite orb_true_r.
  - destruct (expire_msgs now budget l) as [l2 o2] eqn:E. intros [= <- <-].
    apply IH in E as (Hle & Ht & Hd); [|lia]. split_and!; [done..|]. intros Hlt. constructor; auto.
Qed.

Lemma expire_chats_spec now budget cs db db' out :
  0 < budget → NoDup cs.*1 → expire_chats now budget cs db = (db', out) →
  len out ≤ budget ∧ Forall tombstone out ∧
  (∀ cid, cid ∉ cs.*1 → messages_of cid db' = messages_of cid db) ∧
  (len out < budget → ∀ cid, cid ∈ cs.*1 → Forall (λ m, due now m = false) (messages_of cid db')).
Proof.
  revert budget db out. induction cs as [|[cid l] cs IH]; intros budget db out Hb Hnd; simpl.
  { intros [= <- <-]. split_and!; [unfold len; simpl; lia | constructor | done |].
    intros _ cid Hin. by apply not_elem_of_nil in Hin. }
  apply NoDup_cons in Hnd as [Hnin Hnd]. simpl in Hnin.
  destruct (expire_msgs now budget l) as [l' o] eqn:El.
  apply expire_msgs_spec in El as (Hle & Ht & Hd); [|done].
  destruct (_ <=? 0) eqn:Eb; bool_to_prop.
  - intros [= <- <-]. split_and!; [done..| |lia].
    intros cid' [Hne _]%not_elem_of_cons. by rewrite messages_of_put, decide_False.
  - destruct (expire_chats _ _ cs _) as [db2 o2] eqn:E. intros [= <- <-].
    apply IH in E as (Hle2 & Ht2 & Hf2 & Hd2); [|lia|done]. rewrite len_app.
    pose proof (len_nonneg o2). split_and!; [lia | by apply Forall_app | |].
    + intros cid' [Hne Hin]%not_elem_of_cons. by rewrite Hf2, messages_of_put, decide_False.
    + intros Hlt cid' [->|Hin]%elem_of_cons; [|apply Hd2; [lia|done]].
      rewrite Hf2, messages_of_put, decide_True by done. apply Hd. lia.
Qed.

(** ** Properties *)



(** The event of a new message is staged with it, atomically: a send that is not a retry
    takes the chat's next number, appends the message, and stages exactly the record
    built from the message as stored, final number included. *)
Theorem InsertMessage_stages ops db m k ob c :
  exec New ops db → chats db !! Message_ChatID m = Some c → Chat_LastSeq c + 1 < 2 ^ 64 →
  dedup_hit (Message_SenderID m) (Message_ChatID m) k db = None →
  ∃ db' out, InsertMessage m k ob db = (db', Ok (out, false)) ∧
    tag out = (Message_ID m, Message_ChatID m, Chat_LastSeq c + 1) ∧
    last (messages_of (Message_ChatID m) db') = Some out ∧
    outbox db' = outbox db ++ option_list (ob out).
Proof.
  intros Hex Hc Hb Hh. assert (log_ok db) as Hok by (by eapply exec_ok, Hex; apply New_ok).
  destruct (ok_seqs _ Hok _ _ Hc) as [Hr _].
  destruct (InsertMessage_new m k ob db c Hh Hc)
    as (db' & out & Hrun & Ht & _ & _ & _ & _ & _ & _ & _ & Hl & Ho & _).
  rewrite u64_small in Ht by lia. by exists db', out.
Qed.

(** Scrolling back through history is exact: reading page after page, each starting
    below the oldest message of the previous one, returns every message of the chat
    once, newest first, and then ends. *)
Theorem history_walk ops db cid limit :
  exec New ops db → 0 < limit →
  walk (S (length (messages_of cid db))) cid 0 limit db = reverse (messages_of cid db).
Proof.
  intros Hex Hl. assert (log_ok db) as Hok by (by eapply exec_ok, Hex; apply New_ok).
  assert (below 0 (messages_of cid db) = reverse (messages_of cid db)) as Hb.
  { unfold below. rewrite filter_Forall; [done|]. apply Forall_forall. by left. }
  rewrite <- Hb. apply walk_below; [done..|]. rewrite Hb, length_reverse. lia.
Qed.

(** Read cursors only move forward, whatever operations run and in whatever order the
    receipts of a user's devices arrive. *)
Theorem cursor_monotone db ops db' cid u :
  exec db ops db' → cursor cid u db ≤ cursor cid u db'.
Proof.
  induction 1 as [|db ops db' o _ IH Hop]; [lia|]. etransitivity; [done|].
  destruct o; try (unfold cursor; by rewrite reads_frame).
  change (run (OSetRead rs) db') with (SetRead rs db').1.
  rewrite SetRead_cursor by done. case_bool_decide; lia.
Qed.

(** The expiry pass is bounded and complete: it tombstones at most [limit] messages,
    wiping their content, and when it returns fewer than [limit] no message of the
    store is still due. *)
Theorem ExpireMessages_complete now limit db db' out :
  0 < limit → ExpireMessages now limit db = (db', Ok out) →
  len out ≤ limit ∧ Forall tombstone out ∧
  (len out < limit → ∀ cid, Forall (λ m, due now m = false) (messages_of cid db')).
Proof.
  intros Hl. unfold ExpireMessages. rewrite (proj2 (Z.leb_gt limit 0)) by done.
  destruct (expire_chats _ _ _ _) as [db2 o2] eqn:E. intros [= <- <-].
  apply expire_chats_spec in E as (Hle & Ht & Hf & Hd); [|done | apply NoDup_range_keys].
  split_and!; [done..|]. intros Hlt cid.
  destruct (decide (cid ∈ range_keys (messages db))) as [Hin|Hnin]; [by apply Hd|].
  rewrite Hf by done. unfold messages_of. rewrite elem_of_range_keys in Hnin.
  destruct (messages db !! cid); [by destruct Hnin; eauto | constructor].
Qed.
End run.

(** ** Witnesses *)

Section witnesses.
#[local] Instance wit_order : RangeOrder := canonical_order.

Definition wit_chat : Chat := mkChat "c" ChatGroup "g" "1" 0 0 "".
Definition wit_msg (id text : string) (expires : Z) : Message :=
  mkMessage id "c" "1" 0 text "" None "" "" 0 None expires false false 7 0.
Definition wit_ob : MakeOutbox := λ m,
  Some (mkOutbox ("ob" +:+ Message_ID m) "message.created" "c"
    (ReadBody (mkReadUpdate "" "" (Message_Seq m))) ∅).
Definition wit_ops : list op :=
  [OCreateChat wit_chat; OInsert (wit_msg "a" "hi" 0) "k1" wit_ob;
   OInsert (wit_msg "b" "bye" 5) "" wit_ob].
Definition wit_db : ChatDB := foldl (λ db o, run o db) New wit_ops.

Lemma wit_exec : exec New wit_ops wit_db.
Proof.
  apply (exec_snoc New [OCreateChat wit_chat; OInsert (wit_msg "a" "hi" 0) "k1" wit_ob] _
    (OInsert (wit_msg "b" "bye" 5) "" wit_ob)).
  - apply (exec_snoc New [OCreateChat wit_chat] _ (OInsert (wit_msg "a" "hi" 0) "k1" wit_ob)).
    + apply (exec_snoc New [] New (OCreateChat wit_chat)); [constructor | done].
    + split; [by intros ?%elem_of_nil|]. intros c [= <-]. done.
  - split; [|intros c [= <-]; done].
    by intros [?|[]%elem_of_nil]%elem_of_cons.
Defined.



Lemma InsertMessage_stages_witness :
  ∃ db' out, InsertMessage (wit_msg "d" "new" 0) "" wit_ob wit_db = (db', Ok (out, false)) ∧
    tag out = ("d", "c", 3) ∧ last (messages_of "c" db') = Some out ∧
    outbox db' = outbox wit_db ++ option_list (wit_ob out).
Proof.
  apply (InsertMessage_stages wit_ops wit_db (wit_msg "d" "new" 0) "" wit_ob
    (set_LastSeq 2 wit_chat)); [apply wit_exec | done | done | done].
Defined.

Lemma history_walk_witness : walk 3 "c" 0 1 wit_db = reverse (messages_of "c" wit_db).
Proof. apply (history_walk wit_ops wit_db "c" 1); [apply wit_exec | done]. Defined.

Lemma cursor_monotone_witness : cursor "c" "1" New ≤ cursor "c" "1" wit_db.
Proof. apply (cursor_monotone New wit_ops wit_db). apply wit_exec. Defined.

Lemma ExpireMessages_complete_witness :
  ∃ db' out, ExpireMessages 6 10 wit_db = (db', Ok out) ∧ len out = 1 ∧
    Forall (λ m, due 6 m = false) (messages_of "c" db').
Proof.
  eexists _, _. split; [by vm_compute|]. split; [done|].
  eapply (ExpireMessages_complete 6 10 wit_db); [done | by vm_compute | done].
Defined.
End witnesses.
