(* ===== verification/Outbox.v ===== *)
(** * The outbox relay

    [internal/outbox] relay.go, against the [OutboxStore] interface, and the proof that
    the in-memory store implements that interface as a FIFO queue.  Logging and
    metrics are not modelled; the ticker loop of [Run] is a sequence of [drain] and
    [purge] calls. *)

From S2P Require Import Prelude Model EventBus MemChats MemMessages.

#[local] Set Warnings "-clear-no-such-hyp".

(** ** The interfaces the relay relies on *)

Class OutboxStore (St : Type) := {
  store_Poll : Z → M St (list OutboxRecord);
  store_MarkSent : list string → M St unit;
  store_PurgeSent : Z → Z → M St Z;
}.

(** What a store promises: a queue of pending records, read from the front, from which
    marking removes exactly the marked ones and purging nothing. *)
Class OutboxLaws (St : Type) `{OutboxStore St} := {
  pending : St → list OutboxRecord;
  outbox_ok : St → Prop;
  poll_spec s n :
    outbox_ok s → 0 < n → store_Poll n s = (s, Ok (ztake n (pending s)));
  mark_spec s ids :
    outbox_ok s → ∃ s', store_MarkSent ids s = (s', Ok tt) ∧ outbox_ok s' ∧
      pending s' = filter (λ r, Outbox_ID r ∉ ids) (pending s);
  purge_spec s before n :
    outbox_ok s → ∃ s' k, store_PurgeSent before n s = (s', Ok k) ∧ outbox_ok s' ∧
      pending s' = pending s;
  pending_nodup s : outbox_ok s → NoDup (Outbox_ID <$> pending s);
}.

(** A bus accepts an event or reports an error; an accepted event is on the bus. *)
Class BusLaws (D W : Type) `{Bus D W} := {
  published : W → list (Event D);
  publish_Ok e w w' u : Publish e w = (w', Ok u) → published w' = published w ++ [e];
  publish_Err e w w' err : Publish e w = (w', Err err) → published w' = published w;
}.

(** ** The relay *)

Record Relay := mkRelay { batch : Z; retain : Z; purgeBatch : Z }.

Definition New : Relay := mkRelay 200 (10 * 60 * 1000) 1000.

Definition event_of (rec : OutboxRecord) : Event EventBody :=
  mkEvent (Outbox_Subject rec) (Outbox_Key rec) (Outbox_Data rec) (Outbox_Trace rec).

Section relay.
Context `{OutboxStore St} `{Bus EventBody W}.

(** The publish loop of [drain]: stop at the first failure. *)
Fixpoint publish_all (recs : list OutboxRecord) (w : W) : W * list string :=
  match recs with
  | [] => (w, [])
  | rec :: recs =>
      match Publish (event_of rec) w with
      | (w, Err _) => (w, [])
      | (w, Ok _) =>
          let '(w, sent) := publish_all recs w in (w, Outbox_ID rec :: sent)
      end
  end.

(** [None]: still looping after [fuel] rounds. *)
Fixpoint drain (fuel : nat) (r : Relay) (s : St) (w : W) : option (St * W) :=
  match fuel with
  | O => None
  | S fuel =>
      match store_Poll (batch r) s with
      | (s, Err _) => Some (s, w)
      | (s, Ok recs) =>
          if len recs =? 0 then Some (s, w)
          else
            let '(w, sent) := publish_all recs w in
            let '(s, marked) :=
              if 0 <? len sent then store_MarkSent sent s else (s, Ok tt) in
            match marked with
            | Err _ => Some (s, w)
            | Ok _ => if len recs <? batch r then Some (s, w) else drain fuel r s w
            end
      end
  end.

(** [now] in milliseconds. *)
Fixpoint purge (fuel : nat) (r : Relay) (now : Z) (s : St) : option St :=
  match fuel with
  | O => None
  | S fuel =>
      match store_PurgeSent (now - retain r) (purgeBatch r) s with
      | (s, Err _) => Some s
      | (s, Ok n) => if n <? purgeBatch r then Some s else purge fuel r now s
      end
  end.
End relay.

(** ** The in-memory store as an outbox *)

#[global] Instance mem_OutboxStore : OutboxStore ChatDB := {|
  store_Poll := Poll; store_MarkSent := MarkSent; store_PurgeSent := PurgeSent |}.

Definition mem_pending (db : ChatDB) : list OutboxRecord :=
  filter (λ r, Outbox_ID r ∉ outboxSent db) (outbox db).
Definition mem_ok (db : ChatDB) : Prop := NoDup (Outbox_ID <$> outbox db).

Lemma poll_loop_spec (sent : gset string) limit n l :
  n < limit → poll_loop sent limit n l = ztake (limit - n) (filter (λ r, Outbox_ID r ∉ sent) l).
Proof.
  revert n. induction l as [|rec l IH]; intros n Hn; simpl.
  { unfold ztake. by rewrite firstn_nil. }
  case_bool_decide as Hs; rewrite filter_cons.
  - rewrite decide_False by tauto. by apply IH.
  - rewrite decide_True by done. unfold ztake.
    replace (Z.to_nat (limit - n)) with (S (Z.to_nat (limit - (n + 1)))) by lia. simpl. f_equal.
    destruct (limit <=? n + 1) eqn:E; bool_to_prop.
    + by replace (Z.to_nat (limit - (n + 1))) with 0%nat by lia.
    + by apply IH.
Qed.

(** Forgetting the mark of a dropped record does not revive another one. *)
Lemma filter_unmark (sent : gset string) id (l : list OutboxRecord) :
  id ∉ Outbox_ID <$> l →
  filter (λ r, Outbox_ID r ∉ sent ∖ {[id]}) l = filter (λ r, Outbox_ID r ∉ sent) l.
Proof.
  intros Hid. apply filter_ext_in. intros r Hr.
  assert (Outbox_ID r ≠ id) by (intros <-; by apply Hid, list_elem_of_fmap_2).
  set_solver.
Qed.

Lemma compact_spec sent l sent' l' :
  NoDup (Outbox_ID <$> l) → compact sent l = (sent', l') →
  l' `suffix_of` l ∧
  filter (λ r, Outbox_ID r ∉ sent') l' = filter (λ r, Outbox_ID r ∉ sent) l.
Proof.
  revert sent. induction l as [|rec l IH]; intros sent Hnd; simpl.
  { by intros [= <- <-]. }
  rewrite fmap_cons in Hnd. apply NoDup_cons in Hnd as [Hnin Hnd].
  case_bool_decide as Hs.
  - intros [Hsuf Hf]%IH; [|done]. split; [by apply suffix_cons_r|].
    rewrite Hf, filter_cons_False by tauto. by apply filter_unmark.
  - by intros [= <- <-].
Qed.

Lemma purge_loop_spec limit n sent l n' sent' kept :
  NoDup (Outbox_ID <$> l) → purge_loop limit n sent l = (n', sent', kept) →
  kept `sublist_of` l ∧ (∀ id, id ∉ Outbox_ID <$> l → id ∈ sent' ↔ id ∈ sent) ∧
  n ≤ n' ∧ len l - len kept = n' - n ∧
  filter (λ r, Outbox_ID r ∉ sent') kept = filter (λ r, Outbox_ID r ∉ sent) l.
Proof.
  revert n sent n' sent' kept.
  induction l as [|rec l IH]; intros n sent n' sent' kept Hnd; simpl.
  { intros [= <- <- <-]. split_and!; done || lia. }
  rewrite fmap_cons in Hnd. apply NoDup_cons in Hnd as [Hnin Hnd].
  destruct ((n <? limit) && _) eqn:E; bool_to_prop.
  - intros (Hsub & Hs & Hn & Hl & Hf)%IH; [|done]. rewrite len_cons.
    split_and!; [by constructor | | lia | lia |].
    + intros id [Hne Hid]%not_elem_of_cons. rewrite Hs by done. set_solver.
    + rewrite Hf, filter_cons_False by tauto. by apply filter_unmark.
  - destruct (purge_loop limit n sent l) as [[n2 sent2] kept2] eqn:El. intros [= <- <- <-].
    apply IH in El as (Hsub & Hs & Hn & Hl & Hf); [|done]. rewrite !len_cons.
    split_and!; [by constructor | | done | lia |].
    + intros id [_ Hid]%not_elem_of_cons. by apply Hs.
    + rewrite !filter_cons, Hf. specialize (Hs _ Hnin).
      destruct (decide (Outbox_ID rec ∉ sent2)), (decide (Outbox_ID rec ∉ sent)); tauto.
Qed.

Lemma foldl_marks (ids : list string) (sent : gset string) :
  foldl (λ sent id, {[id]} ∪ sent) sent ids = list_to_set ids ∪ sent.
Proof.
  revert sent. induction ids as [|id ids IH]; intros sent; simpl; [set_solver|].
  rewrite IH. set_solver.
Qed.

(** The in-memory outbox keeps the relay's contract, as long as record ids are unique. *)
#[global, program] Instance mem_OutboxLaws : OutboxLaws ChatDB := {|
  pending := mem_pending; outbox_ok := mem_ok |}.
Next Obligation.
  intros db n _ Hn. simpl. unfold Poll, gets. rewrite poll_loop_spec by lia.
  by rewrite Z.sub_0_r.
Qed.
Next Obligation.
  intros db ids Hok. simpl. unfold MarkSent, modify. rewrite foldl_marks.
  destruct (compact _ _) as [sent l] eqn:E. eexists. split; [done|].
  apply compact_spec in E as [[pre Hsuf] Hf]; [|done]. unfold mem_ok, mem_pending in *; simpl.
  rewrite Hsuf, fmap_app in Hok. split; [by apply NoDup_app in Hok as (_ & _ & ?)|].
  rewrite Hf, list_filter_filter. apply filter_ext_in. intros r _. set_solver.
Qed.
Next Obligation.
  intros db before n Hok. simpl. unfold PurgeSent.
  destruct (purge_loop _ _ _ _) as [[k sent] kept] eqn:E. eexists _, _. split; [done|].
  apply purge_loop_spec in E as (Hsub & _ & _ & _ & Hf); [|done].
  unfold mem_ok, mem_pending in *; simpl. split; [|done].
  eapply sublist_NoDup; [done | by apply fmap_sublist].
Qed.
Next Obligation.
  intros db Hok. unfold mem_pending, mem_ok in *.
  eapply sublist_NoDup; [done | apply fmap_sublist, sublist_filter].
Qed.

(** ** Lemmas on the relay *)

Section relay_lemmas.
Context `{OutboxLaws St} `{BusLaws EventBody W}.
Implicit Types (s : St) (w : W).

Lemma publish_all_spec recs w w' sent :
  publish_all recs w = (w', sent) →
  ∃ k, sent = Outbox_ID <$> take k recs ∧
       published w' = published w ++ (event_of <$> take k recs).
Proof.
  revert w sent. induction recs as [|rec recs IH]; intros w sent; simpl.
  { intros [= <- <-]. exists 0%nat. by rewrite app_nil_r. }
  destruct (Publish (event_of rec) w) as [w1 [u|e]] eqn:E.
  - destruct (publish_all recs w1) as [w2 sent2] eqn:E2. intros [= <- <-].
    apply IH in E2 as (k & -> & Hp). exists (S k). split; [done|].
    rewrite Hp, (publish_Ok _ _ _ _ E), <- app_assoc. done.
  - intros [= <- <-]. exists 0%nat. rewrite (publish_Err _ _ _ _ E). by rewrite app_nil_r.
Qed.

(** Removing the first [k] records by id leaves the rest. *)
Lemma filter_sent k (l : list OutboxRecord) :
  NoDup (Outbox_ID <$> l) →
  filter (λ r, Outbox_ID r ∉ Outbox_ID <$> take k l) l = drop k l.
Proof.
  intros Hnd. transitivity (filter (λ r, Outbox_ID r ∉ Outbox_ID <$> take k l) (take k l ++ drop k l)).
  { by rewrite take_drop. }
  rewrite filter_app, filter_none, filter_Forall; [done| |].
  - apply Forall_forall. intros x Hx Hin.
    rewrite <- (take_drop k l), fmap_app in Hnd. apply NoDup_app in Hnd as (_ & Hdis & _).
    apply (Hdis _ Hin). by apply list_elem_of_fmap_2.
  - apply Forall_forall. intros x Hx Hn. by apply Hn, list_elem_of_fmap_2.
Qed.

(** One round: the first [k] pending records went out and are gone. *)
Lemma round_spec r s w w1 sent :
  outbox_ok s → publish_all (ztake (batch r) (pending s)) w = (w1, sent) →
  ∃ s1 k, (if 0 <? len sent then store_MarkSent sent s else (s, Ok tt)) = (s1, Ok tt) ∧
    outbox_ok s1 ∧ sent = Outbox_ID <$> take k (pending s) ∧
    published w1 = published w ++ (event_of <$> take k (pending s)) ∧
    pending s1 = drop k (pending s).
Proof.
  intros Hok Hpub. apply publish_all_spec in Hpub as (k & Hsent & Hp).
  unfold ztake in *. rewrite take_take in *.
  set (j := (k `min` Z.to_nat (batch r))%nat) in *.
  destruct (0 <? len sent) eqn:E; bool_to_prop.
  - destruct (mark_spec s sent Hok) as (s1 & Hrun & Hok1 & Hpend).
    exists s1, j. split_and!; [done..|]. rewrite Hpend, Hsent.
    apply filter_sent, pending_nodup, Hok.
  - assert (take j (pending s) = []) as Hj.
    { apply (fmap_nil_inv Outbox_ID). rewrite <- Hsent. destruct sent; [done|].
      rewrite len_cons in E. pose proof (len_nonneg sent). lia. }
    exists s, j. split_and!; [done..|]. rewrite <- (take_drop j (pending s)) at 1. by rewrite Hj.
Qed.

(** ** Properties *)

(** The relay never loses, duplicates or reorders events: when a drain returns, the
    events it got onto the bus are the first pending ones, in order, and exactly
    those are no longer pending; what the bus refused stays queued for the next
    drain. *)
Theorem drain_fifo fuel r s w s' w' :
  outbox_ok s → 0 < batch r → drain fuel r s w = Some (s', w') →
  outbox_ok s' ∧
  ∃ k, published w' = published w ++ (event_of <$> take k (pending s)) ∧
       pending s' = drop k (pending s).
Proof.
  intros Hok Hb. revert s w Hok. induction fuel as [|fuel IH]; intros s w Hok; simpl; [done|].
  rewrite poll_spec by done. cbn match.
  destruct (_ =? 0).
  { intros [= <- <-]. split; [done|]. exists 0%nat. by rewrite app_nil_r. }
  destruct (publish_all _ w) as [w1 sent] eqn:Ep.
  destruct (round_spec r s w w1 sent Hok Ep) as (s1 & k & -> & Hok1 & _ & Hp1 & Hpend).
  cbn match. destruct (_ <? _).
  { intros [= <- <-]. eauto. }
  intros (Hok' & k' & Hp & Hrest)%IH; [|done]. split; [done|]. exists (k + k')%nat.
  rewrite Hp, Hp1, Hrest, Hpend, drop_drop. split; [|done].
  rewrite <- app_assoc, <- fmap_app. do 2 f_equal. apply take_take_drop.
Qed.

(** C12: With a working bus every staged event goes out: the drain returns, having published
    all pending events in order, and leaves the outbox empty. *)
Theorem drain_all fuel r s w :
  outbox_ok s → 0 < batch r → (∀ e w, ∃ w', Publish e w = (w', Ok tt)) →
  (length (pending s) < fuel)%nat →
  ∃ s' w', drain fuel r s w = Some (s', w') ∧ pending s' = [] ∧
    published w' = published w ++ (event_of <$> pending s).
Proof.
  intros Hok Hb Hbus. revert s w Hok. induction fuel as [|fuel IH]; intros s w Hok Hf; [lia|].
  simpl. rewrite poll_spec by done. cbn match.
  destruct (len _ =? 0) eqn:E0; bool_to_prop.
  { assert (pending s = []) as Hnil.
    { unfold len, ztake in E0. rewrite length_take in E0. destruct (pending s); [done|].
      simpl in E0. lia. }
    exists s, w. rewrite Hnil. simpl. by rewrite app_nil_r. }
  assert (∀ recs w0, (publish_all recs w0).2 = Outbox_ID <$> recs) as Hall.
  { induction recs as [|rec recs IHr]; intros w0; [done|]. simpl.
    destruct (Hbus (event_of rec) w0) as [w2 ->]. specialize (IHr w2).
    destruct (publish_all recs w2); simpl in *. by rewrite IHr. }
  specialize (Hall (ztake (batch r) (pending s)) w).
  destruct (publish_all _ w) as [w1 sent] eqn:Ep. simpl in Hall.
  destruct (round_spec r s w w1 sent Hok Ep) as (s1 & k & -> & Hok1 & Hsent & Hp1 & Hpend).
  assert (take k (pending s) = ztake (batch r) (pending s) ∧
          drop k (pending s) = zdrop (batch r) (pending s)) as [Hk Hkd].
  { apply take_drop_same. apply (f_equal length) in Hsent. rewrite Hall in Hsent.
    by rewrite !length_fmap in Hsent. }
  rewrite Hk in Hp1. rewrite Hkd in Hpend.
  cbn match. destruct (_ <? _) eqn:El; bool_to_prop.
  - assert (batch r > len (pending s)) as Hshort.
    { unfold len, ztake in *. rewrite length_take in El. lia. }
    exists s1, w1. split; [done|]. rewrite Hpend, Hp1. unfold zdrop, ztake, len in *.
    by rewrite drop_ge, take_ge by lia.
  - assert (length (pending s1) < length (pending s))%nat as Hlt.
    { rewrite Hpend. unfold zdrop, ztake, len in *. rewrite length_take in *.
      rewrite length_drop. lia. }
    destruct (IH s1 w1 Hok1) as (s' & w' & -> & Hnil & Hp); [lia|].
    exists s', w'. split_and!; [done..|]. rewrite Hp, Hp1, Hpend, <- app_assoc, <- fmap_app.
    by rewrite ztake_zdrop.
Qed.

(** While the bus refuses everything and a full batch is pending, a drain never
    returns: it polls the same batch again at once, instead of leaving the rest for
    the next tick. *)
Theorem drain_spins fuel r s w :
  outbox_ok s → 0 < batch r ≤ len (pending s) →
  (∀ e w, ∃ w' err, Publish e w = (w', Err err)) →
  drain fuel r s w = None.
Proof.
  intros Hok Hb Hbus. revert w. induction fuel as [|fuel IH]; intros w; [done|].
  simpl. rewrite poll_spec by lia || done. cbn match. rewrite len_ztake by lia.
  rewrite (proj2 (Z.eqb_neq _ _)), Z.ltb_irrefl by lia.
  destruct (ztake (batch r) (pending s)) as [|rec recs] eqn:E.
  { apply (f_equal len) in E. rewrite len_ztake in E by lia. change (len (@nil OutboxRecord)) with 0 in E. lia. }
  simpl. destruct (Hbus (event_of rec) w) as (w' & err & ->). apply IH.
Qed.
End relay_lemmas.

(** Purging terminates and touches only what was sent: the purge loop over the
    in-memory store returns, and the pending events are exactly the ones before. *)
Theorem purge_keeps_pending fuel r now db :
  mem_ok db → 0 < purgeBatch r → (length (outbox db) < fuel)%nat →
  ∃ db', purge fuel r now db = Some db' ∧ mem_ok db' ∧ mem_pending db' = mem_pending db.
Proof.
  intros Hok Hb. revert db Hok. induction fuel as [|fuel IH]; intros db Hok Hf; [lia|].
  simpl. unfold PurgeSent.
  destruct (purge_loop _ _ _ _) as [[k sent] kept] eqn:E.
  apply purge_loop_spec in E as (Hsub & _ & Hk & Hlen & Hpend); [|done].
  set (db1 := set_outbox kept _).
  assert (mem_ok db1) as Hok1 by (eapply sublist_NoDup; [done | by apply fmap_sublist]).
  assert (mem_pending db1 = mem_pending db) as Hp1 by done.
  destruct (k <? purgeBatch r) eqn:Ek; bool_to_prop; [by exists db1|].
  destruct (IH db1 Hok1) as (db' & -> & Hok' & Hp').
  { unfold db1, len in *; simpl. lia. }
  exists db'. by rewrite Hp'.
Qed.

(** ** Witnesses *)

Definition good_bus : Bus EventBody (list (Event EventBody)) := λ e w, (w ++ [e], Ok tt).
Definition bad_bus : Bus EventBody (list (Event EventBody)) := λ e w, (w, Err other_error).

#[local, program] Instance good_laws : @BusLaws EventBody (list (Event EventBody)) good_bus :=
  {| published w := w |}.
Next Obligation. intros e w w' u [= <- _]. done. Qed.
Next Obligation. by intros e w w' err [=]. Qed.

#[local, program] Instance bad_laws : @BusLaws EventBody (list (Event EventBody)) bad_bus :=
  {| published w := w |}.
Next Obligation. by intros e w w' u [=]. Qed.
Next Obligation. intros e w w' err [= <- _]. done. Qed.

Definition wit_rec (id : string) : OutboxRecord :=
  mkOutbox id SubjMessageRead "c" (ReadBody (mkReadUpdate "c" "u" 1)) ∅.
Definition wit_outbox : ChatDB :=
  set_outbox [wit_rec "1"; wit_rec "2"; wit_rec "3"] (set_outboxSent {["2"]} MemChats.New).
Definition wit_relay : Relay := mkRelay 1 0 1.

Lemma wit_outbox_ok : mem_ok wit_outbox.
Proof. by apply (bool_decide_unpack _). Defined.

Lemma drain_fifo_witness :
  match drain (H0 := good_bus) 3 wit_relay wit_outbox [] with
  | Some (s', w') =>
      mem_ok s' ∧ ∃ k, w' = event_of <$> take k (mem_pending wit_outbox) ∧
                       mem_pending s' = drop k (mem_pending wit_outbox)
  | None => False
  end.
Proof.
  destruct (drain _ _ _ _) as [[s' w']|] eqn:E.
  - exact (drain_fifo (H1 := good_bus) 3 wit_relay wit_outbox [] s' w' wit_outbox_ok eq_refl E).
  - by vm_compute in E.
Defined.

Lemma drain_all_witness :
  ∃ s' w', drain (H0 := good_bus) 3 wit_relay wit_outbox [] = Some (s', w') ∧
    mem_pending s' = [] ∧ w' = event_of <$> mem_pending wit_outbox.
Proof.
  refine (drain_all (H1 := good_bus) 3 wit_relay wit_outbox [] wit_outbox_ok eq_refl _ _).
  - by intros e w; eexists.
  - apply (bool_decide_unpack _). by vm_compute.
Defined.

Lemma drain_spins_witness : drain (H0 := bad_bus) 50 wit_relay wit_outbox [] = None.
Proof.
  apply (drain_spins (H1 := bad_bus) 50 wit_relay wit_outbox []);
    [apply wit_outbox_ok | by vm_compute | by intros e w; eexists _, _].
Defined.

Lemma purge_keeps_pending_witness :
  ∃ db', purge 4 wit_relay 0 wit_outbox = Some db' ∧ mem_ok db' ∧
    mem_pending db' = mem_pending wit_outbox.
Proof. apply purge_keeps_pending; [apply wit_outbox_ok | done | simpl; lia]. Defined.
