(* ===== verification/ChatService.v ===== *)
(** * The chat service

    [internal/chat] chat.go, types.go, constants.go, over the in-memory store.  The
    authorization cache is the point: a bounded map of chat views and, for chats too
    large to hold, of single roles, each with a time to live.  A call that reads the
    clock several times takes its readings (nanoseconds) as [Ticks]. *)

From S2P Require Import Prelude Model EventBus MemChats.

Definition authCacheTTL : Z := 5 * 1000000000.
Definition authCacheMax : Z := 50000.
Definition authSweepEvery : Z := 30 * 1000000000.
Definition maxCachedMembers : Z := 2000.

Record authEntry := mkEntry {
  typ : ChatType;
  roles : gmap string MemberRole;
  large : bool;
  expires : Z;
}.

Record memberRole := mkMemberRole { role : MemberRole; member : bool; mr_expires : Z }.

(** The service with the store it sits on. *)
Record Service := mkService {
  cache : gmap string authEntry;
  roleCache : gmap string memberRole;
  lastSweep : Z;
  cdb : ChatDB;
}.

Definition New (now : Z) (db : ChatDB) : Service := mkService ∅ ∅ now db.

Definition set_cdb (db : ChatDB) (s : Service) : Service :=
  mkService (cache s) (roleCache s) (lastSweep s) db.
Definition set_cache (c : gmap string authEntry) (s : Service) : Service :=
  mkService c (roleCache s) (lastSweep s) (cdb s).
Definition set_roleCache (c : gmap string memberRole) (s : Service) : Service :=
  mkService (cache s) c (lastSweep s) (cdb s).

(** A store call. *)
Definition store {A} (m : M ChatDB A) : M Service A := λ s,
  let '(db, r) := m (cdb s) in (set_cdb db s, r).

(** Clock readings: when a cached entry is checked, when a loaded one is stamped,
    and inside the sweep. *)
Record Ticks := mkTicks { at_check : Z; at_load : Z; at_sweep : Z }.

Section service.
Context `{RangeOrder}.

Definition sweepLocked (now : Z) (s : Service) : Service :=
  if (now - lastSweep s <? authSweepEvery) && (maplen (cache s) <? authCacheMax)
     && (maplen (roleCache s) <? authCacheMax) then s
  else
    let c := filter (λ e, (expires e.2 <? now) = false) (cache s) in
    let c := evict authCacheMax (range_keys c) c in
    let rc := filter (λ e, (mr_expires e.2 <? now) = false) (roleCache s) in
    let rc := evict authCacheMax (range_keys rc) rc in
    mkService c rc now (cdb s).

(** [for _, m := range members { e.roles[m.UserID] = m.Role }]. *)
Definition roles_of (ms : list ChatMember) : gmap string MemberRole :=
  foldl (λ r m, <[Member_UserID m := Member_Role m]> r) ∅ ms.

Definition authView (t : Ticks) (chatID : string) : M Service authEntry :=
  let load : M Service authEntry :=
    c ← store (GetChat chatID);
    ms ← store (ListMembersPage chatID "" (maxCachedMembers + 1));
    let big := maxCachedMembers <? len ms in
    let e := mkEntry (Chat_Type c) (if big then ∅ else roles_of ms) big
               (at_load t + authCacheTTL) in
    modify (sweepLocked (at_sweep t));;
    modify (λ s, set_cache (<[chatID := e]> (cache s)) s);;
    mret e in
  s ← get;
  match cache s !! chatID with
  | Some e => if at_check t <? expires e then mret e else load
  | None => load
  end.

(** The memo key. *)
Definition roleKey (chatID userID : string) : string := chatID +:+ "|" +:+ userID.

(** The chat's kind, the user's role and whether they are a member. *)
Definition roleOf (t t' : Ticks) (chatID userID : string)
    : M Service (ChatType * MemberRole * bool) :=
  e ← authView t chatID;
  if negb (large e) then
    mret (typ e, default "" (roles e !! userID), bool_decide (is_Some (roles e !! userID)))
  else
    s ← get;
    let key := roleKey chatID userID in
    let probe : M Service (ChatType * MemberRole * bool) :=
      r ← attempt (store (GetMember chatID userID));
      mr ← lift (match r with
                 | Err err => if bool_decide (err = store_ErrNotFound)
                              then Ok (mkMemberRole "" false (at_load t' + authCacheTTL))
                              else Err err
                 | Ok m => Ok (mkMemberRole (Member_Role m) true (at_load t' + authCacheTTL))
                 end);
      modify (sweepLocked (at_sweep t'));;
      modify (λ s, set_roleCache (<[key := mr]> (roleCache s)) s);;
      mret (typ e, role mr, member mr) in
    match roleCache s !! key with
    | Some mr => if at_check t' <? mr_expires mr then mret (typ e, role mr, member mr) else probe
    | None => probe
    end.

Definition invalidate (chatID : string) : M Service unit :=
  modify (λ s,
    mkService (delete chatID (cache s))
      (filter (λ e, HasPrefix e.1 (chatID +:+ "|") = false) (roleCache s))
      (lastSweep s) (cdb s)).

(** ** Authorization *)

Definition CanPost (t t' : Ticks) (chatID userID : string) : M Service bool :=
  '(ty, r, mem) ← roleOf t t' chatID userID;
  if negb mem then mret false
  else if bool_decide (ty = ChatChannel)
       then mret (bool_decide (r = RoleAdmin) || bool_decide (r = RoleOwner))
       else mret true.

Definition IsMember (t t' : Ticks) (chatID userID : string) : M Service bool :=
  '(_, _, mem) ← roleOf t t' chatID userID; mret mem.

Definition MemberRole_ (t t' : Ticks) (chatID userID : string) : M Service (MemberRole * bool) :=
  '(_, r, mem) ← roleOf t t' chatID userID; mret (r, mem).

Definition CanPin (t t' : Ticks) (chatID userID : string) : M Service bool :=
  '(ty, r, mem) ← roleOf t t' chatID userID;
  if negb mem then mret false
  else if bool_decide (ty = ChatDirect) then mret true
  else mret (bool_decide (r = RoleAdmin) || bool_decide (r = RoleOwner)).

Definition CanModerate (t t' : Ticks) (chatID userID : string) : M Service bool :=
  '(ty, r, mem) ← roleOf t t' chatID userID;
  if negb mem then mret false
  else if Is1To1 ty then mret true
  else mret (bool_decide (r = RoleAdmin) || bool_decide (r = RoleOwner)).

Definition ChatType_ (t : Ticks) (chatID : string) : M Service ChatType :=
  e ← authView t chatID; mret (typ e).

(** The peer of a 1:1 chat, and whether there is one. *)
Definition DirectPeer (t : Ticks) (chatID userID : string) : M Service (string * bool) :=
  e ← authView t chatID;
  if negb (Is1To1 (typ e)) || large e then mret ("", false)
  else if negb (bool_decide (is_Some (roles e !! userID))) then mret ("", false)
  else
    match filter (λ uid, uid ≠ userID) (range_keys (roles e)) with
    | uid :: _ => mret (uid, true)
    | [] => mret ("", false)
    end.

(** ** Chats and members *)

Definition EnsureDirect (userA userB newID : string) (now : Z) : M Service Chat :=
  c ← store (GetOrCreateDirect userA userB newID now);
  invalidate (Chat_ID c);;
  mret c.

Definition FindDirect (userA userB : string) : M Service Chat := store (GetDirect userA userB).

Definition EnsureSecret (userA userB newID : string) (now : Z) : M Service Chat :=
  if bool_decide (userA = userB) then fail chat_ErrSecretSelfChat
  else store (GetOrCreatePair ChatSecret userA userB newID now).

(** The member loop of [CreateGroup]; [seen] is its set of users already added. *)
Fixpoint add_all (chatID : string) (at_ : Z) (seen : gset string) (uids : list string)
    : M Service unit :=
  match uids with
  | [] => mret tt
  | uid :: uids =>
      if bool_decide (uid ∈ seen) then add_all chatID at_ seen uids
      else
        store (MemChats.AddMember (mkMember chatID uid RoleMember at_ false no_flags));;
        add_all chatID at_ ({[uid]} ∪ seen) uids
  end.

Definition CreateGroup (ownerID title : string) (ty : ChatType) (members : list string)
    (newID : string) (now : Z) : M Service Chat :=
  let c := mkChat newID ty title ownerID now 0 "" in
  store (CreateChat c);;
  store (MemChats.AddMember (mkMember newID ownerID RoleOwner now false no_flags));;
  add_all newID now {[ownerID]} members;;
  invalidate newID;;
  mret c.

Definition Get (chatID : string) : M Service Chat := store (GetChat chatID).
Definition Members (chatID : string) : M Service (list ChatMember) := store (ListMembers chatID).
Definition UserChatIDs (userID : string) : M Service (list string) := store (ListUserChats userID).
Definition NextSeq (chatID : string) : M Service Z := store (BumpSeq chatID).

Definition MemberIDsPage (chatID afterUserID : string) (limit : Z) : M Service (list string) :=
  store (ListMemberIDsPage chatID afterUserID limit).

(** The paging loop of [MemberIDs]; [None] is a loop still running. *)
Fixpoint walk_members (fuel : nat) (chatID after : string) (out : list string) (db : ChatDB)
    : option (list string) :=
  match fuel with
  | O => None
  | S fuel =>
      let page := ids_page (members_of chatID db) after 500 in
      match last page with
      | None => Some out
      | Some uid => walk_members fuel chatID uid (out ++ page) db
      end
  end.

(** [fuel] bounds the number of pages read. *)
Definition MemberIDs (fuel : nat) (t : Ticks) (chatID : string) : M Service (option (list string)) :=
  e ← authView t chatID;
  if negb (large e) then mret (Some (range_keys (roles e)))
  else gets (λ s, walk_members fuel chatID "" [] (cdb s)).

Definition AddMember (m : ChatMember) : M Service unit :=
  store (MemChats.AddMember m);;
  invalidate (Member_ChatID m).

Definition SetMemberRole (chatID userID : string) (r : MemberRole) : M Service unit :=
  store (MemChats.SetMemberRole chatID userID r);;
  invalidate chatID.

Definition SetChatFlags (chatID userID : string) (f : MemberFlags) : M Service MemberFlags :=
  store (SetMemberFlags chatID userID f);;
  store (GetMemberFlags chatID userID).

Definition ChatFlags (chatID userID : string) : M Service MemberFlags :=
  store (GetMemberFlags chatID userID).

Definition CountMembersWithRole (chatID : string) (r : MemberRole) : M Service Z :=
  store (MemChats.CountMembersWithRole chatID r).

Definition CountPinnedChatsExcept (userID exceptChatID : string) : M Service Z :=
  store (MemChats.CountPinnedChatsExcept userID exceptChatID).
End service.

(** ** Coherence of the cache *)

(** What the store says about a user in a chat of kind [ty]. *)
Definition truth (db : ChatDB) (ty : ChatType) (cid uid : string)
    : ChatType * MemberRole * bool :=
  (ty, default "" (Member_Role <$> members_of cid db !! uid),
   bool_decide (is_Some (members_of cid db !! uid))).

(** Every cached answer, expired or not, is the store's answer. *)
Record coherent (s : Service) : Prop := {
  co_members cid : members_wf (members_of cid (cdb s));
  co_cache cid e :
    cache s !! cid = Some e →
    ∃ c, chats (cdb s) !! cid = Some c ∧ typ e = Chat_Type c ∧
      (large e = false → roles e = Member_Role <$> members_of cid (cdb s)) ∧
      (large e = true → maxCachedMembers < maplen (members_of cid (cdb s)));
  co_roles cid uid mr :
    no_bar cid = true → roleCache s !! roleKey cid uid = Some mr →
    is_Some (chats (cdb s) !! cid) ∧
    ∀ ty, truth (cdb s) ty cid uid = (ty, role mr, member mr);
}.

Definition types_kept (db db' : ChatDB) : Prop :=
  ∀ cid c, chats db !! cid = Some c →
    ∃ c', chats db' !! cid = Some c' ∧ Chat_Type c' = Chat_Type c.

(** Members are filed under their own, non-empty, id in every chat. *)
Definition members_ok (db : ChatDB) : Prop := ∀ cid, members_wf (members_of cid db).

(** The states the service reaches: its operations, in any order and at any clock
    readings, from an empty store; [r_store] is what the other services that share the
    store do to it (the message log, the outbox), none of which changes a chat's kind or
    its members.  Fresh chat ids come from the generator: no chat has them, and they have
    no [|] in them. *)
Inductive reachable `{RangeOrder} : Service → Prop :=
  | r_new now : reachable (New now MemChats.New)
  | r_view t cid s : reachable s → reachable (authView t cid s).1
  | r_role t t' cid uid s :
      reachable s → no_bar cid = true → reachable (roleOf t t' cid uid s).1
  | r_direct a b newID now s :
      reachable s → chats (cdb s) !! newID = None → a ≠ "" → b ≠ "" →
      reachable (EnsureDirect a b newID now s).1
  | r_secret a b newID now s :
      reachable s → chats (cdb s) !! newID = None → a ≠ "" → b ≠ "" →
      reachable (EnsureSecret a b newID now s).1
  | r_group owner title ty ms newID now s :
      reachable s → chats (cdb s) !! newID = None → owner ≠ "" → Forall (λ uid, uid ≠ "") ms →
      reachable (CreateGroup owner title ty ms newID now s).1
  | r_add m s : reachable s → Member_UserID m ≠ "" → reachable (AddMember m s).1
  | r_setrole cid uid r s : reachable s → reachable (SetMemberRole cid uid r s).1
  | r_flags cid uid f s : reachable s → reachable (SetChatFlags cid uid f s).1
  | r_seq cid s : reachable s → reachable (NextSeq cid s).1
  | r_store db s :
      reachable s → types_kept (cdb s) db → members db = members (cdb s) →
      reachable (set_cdb db s).

(** ** The policy *)

Definition is_admin (m : ChatMember) : bool :=
  bool_decide (Member_Role m = RoleAdmin) || bool_decide (Member_Role m = RoleOwner).

(** What a member, if the user is one, of a chat of kind [ty] may do. *)
Definition may_post (ty : ChatType) (m : option ChatMember) : bool :=
  match m with
  | None => false
  | Some m => implb (bool_decide (ty = ChatChannel)) (is_admin m)
  end.
Definition may_pin (ty : ChatType) (m : option ChatMember) : bool :=
  match m with
  | None => false
  | Some m => bool_decide (ty = ChatDirect) || is_admin m
  end.
Definition may_moderate (ty : ChatType) (m : option ChatMember) : bool :=
  match m with
  | None => false
  | Some m => bool_decide (ty = ChatDirect) || bool_decide (ty = ChatSecret) || is_admin m
  end.

Section proofs.
Context `{RangeOrder}.
Implicit Types s : Service.

Lemma store_eq {A} (m : M ChatDB A) s :
  store m s = (set_cdb (m (cdb s)).1 s, (m (cdb s)).2).
Proof. unfold store. by destruct (m (cdb s)). Qed.

Lemma set_cdb_same s : set_cdb (cdb s) s = s.
Proof. by destruct s. Qed.

(** *** The loaded view *)

Lemma roles_of_lookup ms uid :
  NoDup (Member_UserID <$> ms) →
  roles_of ms !! uid = Member_Role <$> find (λ m, bool_decide (Member_UserID m = uid)) ms.
Proof.
  unfold roles_of. induction ms as [|m ms IH] using rev_ind; intros Hnd; [done|].
  rewrite foldl_app. cbn [foldl]. rewrite fmap_app in Hnd.
  apply NoDup_app in Hnd as (Hnd & Hdis & _). rewrite find_app. simpl.
  destruct (decide (Member_UserID m = uid)) as [<-|Hne].
  - rewrite lookup_insert_eq, bool_decide_true by done.
    destruct (find _ ms) as [m'|] eqn:E; [|done]. apply find_some in E as [Hin Heq].
    apply bool_decide_eq_true in Heq. destruct (Hdis (Member_UserID m)); [|left].
    apply list_elem_of_fmap. exists m'. by rewrite list_elem_of_In.
  - rewrite lookup_insert_ne, IH, bool_decide_false by done. by destruct (find _ ms).
Qed.

Lemma roles_of_all mm ids :
  members_wf mm → ids ≡ₚ range_keys mm →
  roles_of (omap (λ uid, mm !! uid) ids) = Member_Role <$> mm.
Proof.
  intros Hwf Hids.
  assert (Forall (λ uid, is_Some (mm !! uid)) ids) as Hall.
  { apply Forall_forall. intros uid. rewrite Hids. by rewrite elem_of_range_keys. }
  destruct (omap_lookup_ids mm ids Hall) as [_ Helem].
  assert (Member_UserID <$> omap (λ uid, mm !! uid) ids = ids) as Hkeys.
  { clear Helem Hids. induction Hall as [|uid ids [m Hm] _ IH]; [done|]. cbn [omap list_omap].
    rewrite Hm, fmap_cons. f_equal; [by apply Hwf in Hm as [? _] | exact IH]. }
  apply map_eq. intros uid. rewrite roles_of_lookup.
  2:{ rewrite Hkeys, Hids. apply NoDup_range_keys. }
  rewrite lookup_fmap. f_equal.
  destruct (find _ _) as [m|] eqn:E.
  - apply find_some in E as [Hin Heq]. apply bool_decide_eq_true in Heq.
    apply list_elem_of_In, Helem in Hin as (uid' & _ & Hm).
    pose proof (Hwf _ _ Hm) as [Hu _]. congruence.
  - symmetry. apply eq_None_not_Some. intros [m Hm].
    assert (m ∈ omap (λ uid, mm !! uid) ids) as Hin.
    { apply Helem. exists uid. split; [|done]. rewrite Hids. apply elem_of_range_keys. eauto. }
    apply list_elem_of_In in Hin. apply (find_none _ _ E) in Hin.
    apply bool_decide_eq_false in Hin. by apply Hwf in Hm as [? _].
Qed.

(** *** Sweeping and loading keep coherence *)

Lemma sweepLocked_sub now s :
  cache (sweepLocked now s) ⊆ cache s ∧ roleCache (sweepLocked now s) ⊆ roleCache s ∧
  cdb (sweepLocked now s) = cdb s.
Proof.
  unfold sweepLocked. case_match; [done|]. simpl. split_and!; [| |done];
    (etransitivity; [apply evict_subseteq | apply map_filter_subseteq]).
Qed.

Lemma coherent_sub s s' :
  coherent s → cache s' ⊆ cache s → roleCache s' ⊆ roleCache s → cdb s' = cdb s → coherent s'.
Proof.
  intros [H1 H2 H3] Hc Hr Hd. constructor; rewrite ?Hd; [done| |].
  - intros cid e He. eapply H2, lookup_weaken; done.
  - intros cid uid mr Hb Hmr. eapply H3; [done|]. by eapply lookup_weaken.
Qed.

Lemma coherent_sweep now s : coherent s → coherent (sweepLocked now s).
Proof.
  intros Hs. destruct (sweepLocked_sub now s) as (?&?&?). by eapply coherent_sub.
Qed.

Lemma authView_exact t cid s :
  coherent s →
  match chats (cdb s) !! cid with
  | None => authView t cid s = (s, Err store_ErrNotFound)
  | Some c =>
      ∃ s' e, authView t cid s = (s', Ok e) ∧ coherent s' ∧ cdb s' = cdb s ∧
        typ e = Chat_Type c ∧
        (large e = false → roles e = Member_Role <$> members_of cid (cdb s)) ∧
        (large e = true → maxCachedMembers < maplen (members_of cid (cdb s)))
  end.
Proof.
  intros Hs. unfold authView. rewrite M_bind_eq. cbn [get].
  set (load := store (GetChat cid) ≫= _).
  assert (match chats (cdb s) !! cid with
    | None => load s = (s, Err store_ErrNotFound)
    | Some c =>
      ∃ s' e, load s = (s', Ok e) ∧ coherent s' ∧ cdb s' = cdb s ∧
        typ e = Chat_Type c ∧
        (large e = false → roles e = Member_Role <$> members_of cid (cdb s)) ∧
        (large e = true → maxCachedMembers < maplen (members_of cid (cdb s))) end) as Hload.
  { unfold load. rewrite M_bind_eq, store_eq. unfold GetChat. rewrite M_bind_eq. cbn [get fst snd].
    destruct (chats (cdb s) !! cid) as [c|] eqn:Ec; cbn [fst snd mret M_ret fail].
    2:{ by rewrite set_cdb_same. }
    rewrite M_bind_eq, store_eq, set_cdb_same. unfold ListMembersPage, gets. cbn [fst snd].
    rewrite set_cdb_same. set (mm := members_of cid (cdb s)).
    set (ms := omap (λ uid, mm !! uid) (ids_page mm "" (maxCachedMembers + 1))).
    set (e := mkEntry (Chat_Type c) (if maxCachedMembers <? len ms then ∅ else roles_of ms)
      (maxCachedMembers <? len ms) (at_load t + authCacheTTL)).
    assert (len ms = len (ids_page mm "" (maxCachedMembers + 1))) as Hlen.
    { unfold len, ms. do 1 f_equal. apply omap_lookup_ids, Forall_forall.
      intros uid Hin. by eapply elem_of_ids_page in Hin as [? _]. }
    assert (large e = true → maxCachedMembers < maplen mm) as Hlarge.
    { intros Hl. unfold e in Hl; simpl in Hl. apply Z.ltb_lt in Hl.
      rewrite Hlen, len_first_page in Hl by (done || apply Hs). lia. }
    assert (large e = false → roles e = Member_Role <$> mm) as Hroles.
    { intros Hl. unfold e in *; simpl in *. rewrite Hl.
      apply Z.ltb_ge in Hl. fold ms in Hl.
      rewrite Hlen, len_first_page in Hl by (done || apply Hs).
      apply roles_of_all; [apply Hs|]. apply ids_page_all; [apply Hs | done |]. lia. }
    destruct (sweepLocked_sub (at_sweep t) s) as (_ & _ & Hd).
    pose proof (coherent_sweep (at_sweep t) s Hs) as Hs1.
    exists (set_cache (<[cid := e]> (cache (sweepLocked (at_sweep t) s))) (sweepLocked (at_sweep t) s)), e.
    split; [done|]. split_and!; [|done..].
    destruct Hs1 as [H1 H2 H3]. constructor; simpl; [done| |done].
    intros cid' e' [[<- <-]|[_ He']]%lookup_insert_Some; [|by apply H2].
    rewrite Hd. by exists c. }
  destruct (cache s !! cid) as [e|] eqn:Ee; [|done].
  destruct (at_check t <? expires e); [|done].
  destruct (co_cache s Hs _ _ Ee) as (c & -> & Ht & Hr & Hl). by exists s, e.
Qed.

Lemma truth_roles db ty cid uid (rs : gmap string MemberRole) :
  rs = Member_Role <$> members_of cid db →
  (ty, default "" (rs !! uid), bool_decide (is_Some (rs !! uid))) = truth db ty cid uid.
Proof.
  intros ->. unfold truth. rewrite lookup_fmap. by destruct (members_of cid db !! uid).
Qed.

Lemma roleOf_exact t t' cid uid s :
  coherent s → no_bar cid = true →
  match chats (cdb s) !! cid with
  | None => roleOf t t' cid uid s = (s, Err store_ErrNotFound)
  | Some c =>
      ∃ s', roleOf t t' cid uid s = (s', Ok (truth (cdb s) (Chat_Type c) cid uid)) ∧
        coherent s' ∧ cdb s' = cdb s
  end.
Proof.
  intros Hs Hbar. pose proof (authView_exact t cid s Hs) as Hv. unfold roleOf.
  rewrite M_bind_eq. destruct (chats (cdb s) !! cid) as [c|] eqn:Ec; [|by rewrite Hv].
  destruct Hv as (s1 & e & -> & Hs1 & Hd1 & Ht & Hr & _).
  destruct (large e); cbn [negb].
  2:{ exists s1. rewrite Ht. split; [|done].
      by rewrite (truth_roles (cdb s) (Chat_Type c) cid uid (roles e) (Hr eq_refl)). }
  rewrite M_bind_eq. cbn [get]. set (key := roleKey cid uid).
  set (probe := attempt _ ≫= _).
  assert (∃ s', probe s1 = (s', Ok (truth (cdb s) (Chat_Type c) cid uid)) ∧
    coherent s' ∧ cdb s' = cdb s) as Hprobe.
  { unfold probe. rewrite M_bind_eq. unfold attempt. rewrite store_eq, GetMember_eq.
    cbn [fst snd]. rewrite set_cdb_same, Hd1.
    set (mr := mkMemberRole (default "" (Member_Role <$> members_of cid (cdb s) !! uid))
      (bool_decide (is_Some (members_of cid (cdb s) !! uid))) (at_load t' + authCacheTTL)).
    set (s2 := sweepLocked (at_sweep t') s1).
    destruct (sweepLocked_sub (at_sweep t') s1) as (_ & _ & Hd2). fold s2 in Hd2.
    exists (set_roleCache (<[key := mr]> (roleCache s2)) s2).
    assert (coherent (set_roleCache (<[key := mr]> (roleCache s2)) s2)) as Hco.
    { destruct (coherent_sweep (at_sweep t') s1 Hs1) as [H1 H2 H3]. fold s2 in H1, H2, H3.
      constructor; simpl; [done | done |].
      intros cid' uid' mr' Hb [[Hk <-]|[_ Hmr]]%lookup_insert_Some; [|by apply H3].
      apply bar_key_inj in Hk as [<- <-]; [|done..]. rewrite Hd2, Hd1. eauto. }
    split_and!; [|done | simpl; by rewrite Hd2].
    unfold mr, truth. by destruct (members_of cid (cdb s) !! uid) as [m|]; rewrite Ht. }
  destruct (roleCache s1 !! key) as [mr|] eqn:Er; [|done].
  destruct (at_check t' <? mr_expires mr); [|done].
  exists s1. split; [|done].
  destruct (co_roles s1 Hs1 _ _ _ Hbar Er) as [_ Htr]. rewrite Ht, <- Hd1, Htr. done.
Qed.

(** *** Changes to the store *)

(** A change is safe when whatever stays cached is about chats whose roles did not
    change. *)
Lemma coherent_core s s' :
  coherent s → cache s' ⊆ cache s → roleCache s' ⊆ roleCache s →
  types_kept (cdb s) (cdb s') → (∀ cid, members_wf (members_of cid (cdb s'))) →
  (∀ cid, is_Some (chats (cdb s) !! cid) →
     is_Some (cache s' !! cid) ∨
     (no_bar cid = true ∧ ∃ uid, is_Some (roleCache s' !! roleKey cid uid)) →
     Member_Role <$> members_of cid (cdb s') = Member_Role <$> members_of cid (cdb s)) →
  coherent s'.
Proof.
  intros [H1 H2 H3] Hc Hr Hty Hwf Hsame. constructor; [done| |].
  - intros cid e He. destruct (H2 cid e) as (c & Ec & Ht & Hro & Hla); [by eapply lookup_weaken|].
    destruct (Hty _ _ Ec) as (c' & Ec' & Ht'). exists c'. rewrite Ht'.
    assert (Member_Role <$> members_of cid (cdb s') = Member_Role <$> members_of cid (cdb s))
      as Heq by eauto. split_and!; [done..| |].
    + intros Hl. rewrite Heq. by apply Hro.
    + intros Hl. apply Hla in Hl. unfold maplen in *.
      rewrite <- (map_size_fmap Member_Role), Heq, map_size_fmap. done.
  - intros cid uid mr Hb Hmr.
    destruct (H3 cid uid mr Hb) as [[c Ec] Htr]; [by eapply lookup_weaken|].
    destruct (Hty _ _ Ec) as (c' & Ec' & _). split; [eauto|]. intros ty. rewrite <- Htr.
    assert (Member_Role <$> members_of cid (cdb s') = Member_Role <$> members_of cid (cdb s))
      as Heq by (apply Hsame; eauto).
    rewrite <- (truth_roles (cdb s') ty cid uid _ eq_refl), Heq.
    by apply truth_roles.
Qed.

Lemma coherent_invalidate s db' cid0 :
  coherent s → types_kept (cdb s) db' → (∀ cid, members_wf (members_of cid db')) →
  (∀ cid, cid ≠ cid0 → members_of cid db' = members_of cid (cdb s)) →
  coherent (invalidate cid0 (set_cdb db' s)).1.
Proof.
  intros Hs Hty Hwf Hother. eapply coherent_core; simpl; [done| | |done|done|].
  - apply delete_subseteq.
  - apply map_filter_subseteq.
  - intros cid _ Hin. destruct (decide (cid = cid0)) as [->|Hne]; [|by rewrite Hother].
    exfalso. destruct Hin as [Hin|(Hb & uid & mr & Hmr)].
    + rewrite lookup_delete_eq in Hin. by destruct Hin.
    + apply map_lookup_filter_Some in Hmr as [_ Hp]. simpl in Hp. unfold HasPrefix, roleKey in Hp.
      assert (cid0 +:+ "|" +:+ uid = (cid0 +:+ "|") +:+ uid) as Happ.
      { clear. induction cid0 as [|a l IH]; [done|].
        change (String a (l +:+ "|" +:+ uid) = String a ((l +:+ "|") +:+ uid)). by rewrite IH. }
      rewrite Happ, prefix_app_l in Hp. done.
Qed.

(** A chat that did not exist cannot be cached, so creating one needs no invalidation. *)
Lemma coherent_create s db' cid0 :
  coherent s → types_kept (cdb s) db' → (∀ cid, members_wf (members_of cid db')) →
  chats (cdb s) !! cid0 = None →
  (∀ cid, cid ≠ cid0 → members_of cid db' = members_of cid (cdb s)) →
  coherent (set_cdb db' s).
Proof.
  intros Hs Hty Hwf Hnew Hother. eapply coherent_core; simpl; [done..|].
  intros cid [c Hc] _. rewrite Hother; [done|]. congruence.
Qed.

(** The effect of a store change confined to one chat's members. *)
Record confined (cid0 : string) (db db' : ChatDB) : Prop := {
  cf_types : types_kept db db';
  cf_other cid : cid ≠ cid0 → members_of cid db' = members_of cid db;
  cf_ok : members_ok db → members_ok db';
}.

Lemma types_kept_refl db : types_kept db db.
Proof. intros cid c Hc. eauto. Qed.

Lemma types_kept_insert db id c :
  (∀ c0, chats db !! id = Some c0 → Chat_Type c = Chat_Type c0) →
  types_kept db (set_chats (<[id := c]> (chats db)) db).
Proof.
  intros Hc cid c0 Hc0. simpl. destruct (decide (id = cid)) as [->|Hne].
  - rewrite lookup_insert_eq. eauto.
  - rewrite lookup_insert_ne by done. eauto.
Qed.

Lemma confined_refl cid0 db : confined cid0 db db.
Proof. constructor; [apply types_kept_refl | done | done]. Qed.

Lemma confined_trans cid0 db1 db2 db3 :
  confined cid0 db1 db2 → confined cid0 db2 db3 → confined cid0 db1 db3.
Proof.
  intros [T1 O1 K1] [T2 O2 K2]. constructor.
  - intros cid c (c2 & Hc2 & Ht2)%T1. apply T2 in Hc2 as (c3 & ? & ?). exists c3. by rewrite <- Ht2.
  - intros cid Hne. by rewrite O2, O1.
  - auto.
Qed.

Lemma confined_add m db : Member_UserID m ≠ "" → confined (Member_ChatID m) db (MemChats.AddMember m db).1.
Proof.
  intros Hne. constructor.
  - intros cid c Hc. eauto.
  - intros cid Hcid. unfold members_of; simpl. by rewrite lookup_insert_ne.
  - intros Hok cid. unfold members_of; simpl. destruct (decide (Member_ChatID m = cid)) as [<-|Hc].
    + rewrite lookup_insert_eq; simpl. intros uid m' [[<- <-]|[_ Hm]]%lookup_insert_Some; [done|].
      by apply (Hok (Member_ChatID m)).
    + rewrite lookup_insert_ne by done. apply Hok.
Qed.

Lemma confined_chat id c db :
  (∀ c0, chats db !! id = Some c0 → Chat_Type c = Chat_Type c0) →
  confined id db (set_chats (<[id := c]> (chats db)) db).
Proof. intros Hc. constructor; [by apply types_kept_insert | done | done]. Qed.

Lemma confined_role cid uid r db : confined cid db (MemChats.SetMemberRole cid uid r db).1.
Proof.
  unfold MemChats.SetMemberRole. rewrite M_bind_eq. cbn [get].
  destruct (members db !! cid) as [mm|] eqn:Em; [|apply confined_refl].
  destruct (mm !! uid) as [m|] eqn:Eu; [|apply confined_refl]. constructor.
  - intros c' c Hc. eauto.
  - intros cid' Hne. unfold members_of; simpl. by rewrite lookup_insert_ne.
  - intros Hok cid'. unfold members_of; simpl. destruct (decide (cid = cid')) as [<-|Hne].
    + rewrite lookup_insert_eq; simpl. specialize (Hok cid). unfold members_of in Hok.
      rewrite Em in Hok; simpl in Hok.
      intros uid' m' [[<- <-]|[_ Hm]]%lookup_insert_Some; [by apply (Hok uid m)|by apply Hok].
    + rewrite lookup_insert_ne by done. apply Hok.
Qed.

Lemma confined_pair ty a b newID now db :
  chats db !! newID = None → a ≠ "" → b ≠ "" →
  confined newID db (GetOrCreatePair ty a b newID now db).1.
Proof.
  intros Hnew Ha Hb. unfold GetOrCreatePair. rewrite M_bind_eq. cbn [get].
  destruct (directIndex db !! _) as [id|].
  { destruct (chats db !! id); apply confined_refl. }
  set (c := mkChat newID _ _ _ _ _ _).
  eapply confined_trans; [apply (confined_chat newID c); congruence|].
  eapply confined_trans; [|apply (confined_add (mkMember newID b RoleMember now false no_flags)); done].
  eapply confined_trans; [|apply (confined_add (mkMember newID a RoleOwner now false no_flags)); done].
  constructor; [intros cid c' Hc; eauto | done | done].
Qed.

Lemma coherent_confined s db' cid0 :
  coherent s → confined cid0 (cdb s) db' → coherent (invalidate cid0 (set_cdb db' s)).1.
Proof.
  intros Hs [T O K]. apply coherent_invalidate; [done..| |done].
  apply K. intros cid. apply Hs.
Qed.

(** The member loop of [CreateGroup] touches the new chat only. *)
Lemma confined_add_all cid at_ uids seen s :
  Forall (λ uid, uid ≠ "") uids →
  ∃ db', add_all cid at_ seen uids s = (set_cdb db' s, Ok tt) ∧ confined cid (cdb s) db'.
Proof.
  intros Hne. revert seen s. induction Hne as [|uid uids Hu _ IH]; intros seen s.
  { exists (cdb s). rewrite set_cdb_same. split; [done | apply confined_refl]. }
  cbn [add_all]. destruct (bool_decide (uid ∈ seen)); [apply IH|].
  set (m := mkMember cid uid RoleMember at_ false no_flags).
  destruct (IH ({[uid]} ∪ seen) (store (MemChats.AddMember m) s).1) as (db' & Hdb & Hc).
  rewrite M_bind_eq, store_eq in *. cbn [fst snd].
  exists db'. split; [exact Hdb|].
  eapply confined_trans; [|exact Hc]. by apply (confined_add m).
Qed.

Lemma coherent_CreateGroup owner title ty ms newID now s :
  coherent s → chats (cdb s) !! newID = None → owner ≠ "" → Forall (λ uid, uid ≠ "") ms →
  coherent (CreateGroup owner title ty ms newID now s).1.
Proof.
  intros Hs Hnew Ho Hms. unfold CreateGroup.
  rewrite M_bind_eq, store_eq. cbn [CreateChat modify fst snd].
  rewrite M_bind_eq, store_eq. cbn [MemChats.AddMember modify fst snd].
  set (s1 := set_cdb _ (set_cdb _ s)). rewrite M_bind_eq.
  destruct (confined_add_all newID now ms {[owner]} s1 Hms) as (db' & -> & Hc).
  apply (coherent_confined s db' newID); [done|].
  eapply confined_trans; [|exact Hc].
  eapply confined_trans; [apply (confined_chat newID (mkChat newID ty title owner now 0 "")); congruence|].
  by apply (confined_add (mkMember newID owner RoleOwner now false no_flags)).
Qed.

Lemma coherent_EnsureDirect a b newID now s :
  coherent s → chats (cdb s) !! newID = None → a ≠ "" → b ≠ "" →
  coherent (EnsureDirect a b newID now s).1.
Proof.
  intros Hs Hnew Ha Hb. pose proof (confined_pair ChatDirect a b newID now (cdb s) Hnew Ha Hb) as Hc.
  unfold EnsureDirect, GetOrCreateDirect. rewrite M_bind_eq, store_eq.
  assert (coherent (set_cdb (GetOrCreatePair ChatDirect a b newID now (cdb s)).1 s)) as Hs1.
  { destruct Hc as [T O K]. apply (coherent_create s _ newID); [done..| |done|done].
    apply K. intros cid. apply Hs. }
  destruct (GetOrCreatePair _ _ _ _ _ _) as [db [c|err]]; [|done]. cbn [fst snd] in *.
  eapply coherent_sub; [exact Hs1|..]; simpl; [apply delete_subseteq | apply map_filter_subseteq | done].
Qed.

Lemma coherent_EnsureSecret a b newID now s :
  coherent s → chats (cdb s) !! newID = None → a ≠ "" → b ≠ "" →
  coherent (EnsureSecret a b newID now s).1.
Proof.
  intros Hs Hnew Ha Hb. unfold EnsureSecret. destruct (bool_decide (a = b)); [done|].
  destruct (confined_pair ChatSecret a b newID now (cdb s) Hnew Ha Hb) as [T O K].
  rewrite store_eq. apply (coherent_create s _ newID); [done..| |done|done].
  apply K. intros cid. apply Hs.
Qed.

(** A store change that keeps kinds and roles needs no invalidation. *)
Lemma coherent_same_roles s db' :
  coherent s → types_kept (cdb s) db' → members_ok db' →
  (∀ cid, Member_Role <$> members_of cid db' = Member_Role <$> members_of cid (cdb s)) →
  coherent (set_cdb db' s).
Proof. intros Hs Hty Hok Hr. eapply coherent_core; simpl; eauto. Qed.

Lemma coherent_SetChatFlags cid uid f s : coherent s → coherent (SetChatFlags cid uid f s).1.
Proof.
  intros Hs. unfold SetChatFlags. rewrite M_bind_eq, store_eq. unfold SetMemberFlags.
  rewrite M_bind_eq. cbn [get].
  destruct (members (cdb s) !! cid) as [mm|] eqn:Em; [|cbn [fail fst snd]; by rewrite set_cdb_same].
  destruct (mm !! uid) as [m|] eqn:Eu; [|cbn [fail fst snd]; by rewrite set_cdb_same].
  cbn [modify fst snd]. rewrite store_eq. cbn [fst].
  match goal with |- coherent (set_cdb (GetMemberFlags _ _ ?x).1 _) =>
    assert ((GetMemberFlags cid uid x).1 = x) as -> end.
  { unfold GetMemberFlags. rewrite M_bind_eq. cbn [get]. repeat case_match; done. }
  cbn [cdb set_cdb]. pose proof (co_members s Hs cid) as Hwf. unfold members_of in Hwf.
  rewrite Em in Hwf; simpl in Hwf. apply (coherent_same_roles s); [done| | |].
  - intros c' c Hc. eauto.
  - intros cid'. unfold members_of; simpl. destruct (decide (cid = cid')) as [<-|Hne].
    + rewrite lookup_insert_eq; simpl.
      intros uid' m' [[<- <-]|[_ Hm]]%lookup_insert_Some; [by apply (Hwf uid m)|by apply Hwf].
    + rewrite lookup_insert_ne by done. apply Hs.
  - intros cid'. unfold members_of; simpl. destruct (decide (cid = cid')) as [<-|Hne].
    + rewrite lookup_insert_eq, Em; simpl. rewrite fmap_insert. apply insert_id; simpl.
      by rewrite lookup_fmap, Eu.
    + by rewrite lookup_insert_ne.
Qed.

Lemma coherent_NextSeq cid s : coherent s → coherent (NextSeq cid s).1.
Proof.
  intros Hs. unfold NextSeq. rewrite store_eq. unfold BumpSeq. rewrite M_bind_eq. cbn [get].
  destruct (chats (cdb s) !! cid) as [c|] eqn:Ec; [|cbn [fail fst snd]; by rewrite set_cdb_same].
  apply (coherent_same_roles s); [done| |exact (co_members s Hs)|done]. apply types_kept_insert.
  intros c0 Hc0. rewrite Ec in Hc0. by injection Hc0 as <-.
Qed.

Lemma reachable_coherent s : reachable s → coherent s.
Proof.
  induction 1 as [now|t cid s _ IH|t t' cid uid s _ IH Hb|a b id now s _ IH|a b id now s _ IH
    |o ti ty ms id now s _ IH|m s _ IH Hm|cid uid r s _ IH|cid uid f s _ IH|cid s _ IH
    |db s _ IH Hty Hmm].
  - constructor; simpl; intros *; [|by rewrite lookup_empty|by rewrite lookup_empty].
    intros uid m. unfold members_of; simpl. by rewrite !lookup_empty.
  - pose proof (authView_exact t cid s IH) as Hv. destruct (chats (cdb s) !! cid).
    + by destruct Hv as (s' & e & -> & ? & _).
    + by rewrite Hv.
  - pose proof (roleOf_exact t t' cid uid s IH Hb) as Hv. destruct (chats (cdb s) !! cid).
    + by destruct Hv as (s' & -> & ? & _).
    + by rewrite Hv.
  - by apply coherent_EnsureDirect.
  - by apply coherent_EnsureSecret.
  - by apply coherent_CreateGroup.
  - by apply (coherent_confined s _ (Member_ChatID m)), confined_add.
  - unfold SetMemberRole. rewrite M_bind_eq, store_eq.
    pose proof (confined_role cid uid r (cdb s)) as Hc.
    destruct (MemChats.SetMemberRole cid uid r (cdb s)) as [db [[]|err]] eqn:E; cbn [fst snd] in *.
    + by apply (coherent_confined s db cid).
    + revert E. unfold MemChats.SetMemberRole. rewrite M_bind_eq. cbn [get].
      repeat case_match; intros [= <- _]; by rewrite set_cdb_same.
  - by apply coherent_SetChatFlags.
  - by apply coherent_NextSeq.
  - apply coherent_same_roles; [done..| |]; unfold members_ok, members_of; rewrite Hmm; [apply IH|done].
Qed.

Lemma decisions_exact s t t' cid uid :
  coherent s → no_bar cid = true →
  let m := members_of cid (cdb s) !! uid in
  match chats (cdb s) !! cid with
  | Some c =>
      (CanPost t t' cid uid s).2 = Ok (may_post (Chat_Type c) m) ∧
      (IsMember t t' cid uid s).2 = Ok (bool_decide (is_Some m)) ∧
      (CanPin t t' cid uid s).2 = Ok (may_pin (Chat_Type c) m) ∧
      (CanModerate t t' cid uid s).2 = Ok (may_moderate (Chat_Type c) m) ∧
      cdb (roleOf t t' cid uid s).1 = cdb s
  | None =>
      (CanPost t t' cid uid s).2 = Err store_ErrNotFound ∧
      (IsMember t t' cid uid s).2 = Err store_ErrNotFound ∧
      (CanPin t t' cid uid s).2 = Err store_ErrNotFound ∧
      (CanModerate t t' cid uid s).2 = Err store_ErrNotFound ∧
      cdb (roleOf t t' cid uid s).1 = cdb s
  end.
Proof.
  intros Hs Hb m. pose proof (roleOf_exact t t' cid uid s Hs Hb) as Hr.
  unfold CanPost, IsMember, CanPin, CanModerate. rewrite !M_bind_eq.
  destruct (chats (cdb s) !! cid) as [c|]; [|by rewrite Hr].
  destruct Hr as (s' & -> & _ & Hd). unfold truth, may_post, may_pin, may_moderate, is_admin, Is1To1.
  fold m. destruct m as [m|]; [|done]. cbn.
  repeat case_bool_decide; simplify_eq; simpl; done.
Qed.


(** *** Listing the members *)

Lemma walk_members_all fuel cid after out db :
  (length (after_ids (members_of cid db) after) < fuel)%nat →
  walk_members fuel cid after out db = Some (out ++ after_ids (members_of cid db) after).
Proof.
  revert after out. induction fuel as [|fuel IH]; intros after out Hf; [lia|].
  cbn [walk_members]. set (mm := members_of cid db) in *.
  destruct (last (ids_page mm after 500)) as [uid|] eqn:Hl.
  - pose proof (after_ids_next mm after 500 uid ltac:(lia) Hl) as Hn.
    rewrite Hn in Hf |- *. rewrite app_assoc. apply IH. fold mm.
    destruct (ids_page mm after 500); [done|]. rewrite length_app in Hf. simpl in Hf. lia.
  - apply last_None in Hl. rewrite ids_page_eq in Hl by lia. fold (after_ids mm after) in Hl.
    destruct (after_ids mm after) eqn:E; [by rewrite app_nil_r | done].
Qed.

(** [MemberIDs] returns every member of the chat exactly once, from the cached view
    of a small chat and by keyset pages of 500 from a large one; the page loop ends, after
    fewer pages than the chat has members, plus two. *)
Theorem MemberIDs_complete fuel s t cid c :
  reachable s → chats (cdb s) !! cid = Some c → maplen (members_of cid (cdb s)) < Z.of_nat fuel →
  ∃ ids, (MemberIDs fuel t cid s).2 = Ok (Some ids) ∧ NoDup ids ∧
    ∀ uid, uid ∈ ids ↔ is_Some (members_of cid (cdb s) !! uid).
Proof.
  intros Hs%reachable_coherent Hc Hf. pose proof (authView_exact t cid s Hs) as Hv.
  rewrite Hc in Hv. destruct Hv as (s' & e & Hv & _ & Hd & _ & Hr & _).
  unfold MemberIDs. rewrite M_bind_eq, Hv. destruct (large e); cbn [negb].
  - unfold gets. cbn [snd]. rewrite Hd, walk_members_all; cycle 1.
    { unfold after_ids. rewrite range_keys_nonempty by apply Hs. rewrite sort_Strings_perm.
      unfold range_keys, maplen in *. rewrite length_fmap, length_range_map. lia. }
    destruct (after_ids_spec (members_of cid (cdb s)) "") as [Hnd Hin].
    eexists. split; [done|]. split; [done|]. intros uid. cbn [app]. rewrite Hin.
    split; [by intros [? _]|]. intros [m Hm]. split; [eauto|].
    apply str_lt_empty. by apply Hs in Hm as [_ ?].
  - exists (range_keys (roles e)). split; [done|]. split; [apply NoDup_range_keys|].
    intros uid. rewrite elem_of_range_keys, Hr, lookup_fmap by done. by rewrite fmap_is_Some.
Qed.

(** *** The caches are bounded *)

Definition bounded (s : Service) : Prop :=
  maplen (cache s) ≤ authCacheMax ∧ maplen (roleCache s) ≤ authCacheMax.

Lemma chat_sweep_size now s :
  maplen (cache (sweepLocked now s)) < authCacheMax ∧
  maplen (roleCache (sweepLocked now s)) < authCacheMax.
Proof.
  unfold sweepLocked. destruct (_ && _) eqn:E; bool_to_prop; [lia|]. cbn [cache roleCache].
  split; (apply evict_size; [done | intros k; by rewrite elem_of_range_keys | apply NoDup_range_keys]).
Qed.

Lemma maplen_insert_le {A} k (v : A) (m : gmap string A) n :
  maplen m < n → maplen (<[k := v]> m) ≤ n.
Proof. unfold maplen. rewrite map_size_insert. destruct (m !! k); unfold id; lia. Qed.

Lemma bounded_view t cid s : bounded s → bounded (authView t cid s).1.
Proof.
  intros Hb. unfold authView. rewrite M_bind_eq. cbn [get].
  set (load := store (GetChat cid) ≫= _). assert (bounded (load s).1) as Hload.
  { unfold load. rewrite M_bind_eq, store_eq, GetChat_eq. cbn [fst snd]. rewrite set_cdb_same.
    destruct (chats (cdb s) !! cid); [|done]. rewrite M_bind_eq, store_eq.
    unfold ListMembersPage, gets. cbn [fst snd]. rewrite set_cdb_same.
    destruct (chat_sweep_size (at_sweep t) s) as [H1 H2].
    split; simpl; [by apply maplen_insert_le | lia]. }
  destruct (cache s !! cid) as [e|]; [|done]. by destruct (_ <? _).
Qed.

Lemma bounded_role t t' cid uid s : bounded s → bounded (roleOf t t' cid uid s).1.
Proof.
  intros Hb. unfold roleOf. rewrite M_bind_eq. pose proof (bounded_view t cid s Hb) as Hv.
  destruct (authView t cid s) as [s1 [e|err]]; [|done]. cbn [fst] in Hv.
  destruct (negb (large e)); [done|]. rewrite M_bind_eq. cbn [get].
  set (probe := attempt _ ≫= _). assert (bounded (probe s1).1) as Hp.
  { unfold probe. rewrite M_bind_eq. unfold attempt. rewrite store_eq, GetMember_eq.
    cbn [fst snd]. rewrite set_cdb_same.
    destruct (chat_sweep_size (at_sweep t') s1) as [H1 H2].
    assert (∀ mr, bounded (set_roleCache (<[roleKey cid uid := mr]>
      (roleCache (sweepLocked (at_sweep t') s1))) (sweepLocked (at_sweep t') s1))) as Hput.
    { intros mr. split; simpl; [lia | by apply maplen_insert_le]. }
    destruct (members_of cid (cdb s1) !! uid); apply Hput. }
  destruct (roleCache s1 !! _) as [mr|]; [|done]. by destruct (_ <? _).
Qed.

(** Every other operation only drops cache entries. *)
Definition shrinks {A} (m : M Service A) : Prop :=
  ∀ s, cache (m s).1 ⊆ cache s ∧ roleCache (m s).1 ⊆ roleCache s.

Lemma shrinks_store {A} (m : M ChatDB A) : shrinks (store m).
Proof. intros s. by rewrite store_eq. Qed.
Lemma shrinks_invalidate cid : shrinks (invalidate cid).
Proof. intros s. split; simpl; [apply delete_subseteq | apply map_filter_subseteq]. Qed.
Lemma shrinks_ret {A} (x : A) : shrinks (mret x).
Proof. done. Qed.
Lemma shrinks_bind {A B} (m : M Service A) (f : A → M Service B) :
  shrinks m → (∀ x, shrinks (f x)) → shrinks (m ≫= f).
Proof.
  intros Hm Hf s. rewrite M_bind_eq. specialize (Hm s).
  destruct (m s) as [s1 [x|err]]; [|done]. destruct (Hf x s1), Hm. split; by etransitivity.
Qed.
Lemma shrinks_add_all cid at_ seen uids : shrinks (add_all cid at_ seen uids).
Proof.
  revert seen. induction uids as [|uid uids IH]; intros seen; cbn [add_all]; [apply shrinks_ret|].
  case_match; [apply IH|]. apply shrinks_bind; [apply shrinks_store | intros; apply IH].
Qed.

Lemma bounded_shrinks {A} (m : M Service A) s : shrinks m → bounded s → bounded (m s).1.
Proof.
  intros Hm [H1 H2]. destruct (Hm s) as [H3%map_subseteq_size H4%map_subseteq_size].
  unfold bounded, maplen in *. lia.
Qed.

Ltac shrinks :=
  repeat (apply shrinks_bind || apply shrinks_store || apply shrinks_invalidate
          || apply shrinks_ret || apply shrinks_add_all || intros ?).

(** Neither authorization cache ever holds more than [authCacheMax] entries. *)
Theorem caches_bounded s : reachable s → bounded s.
Proof.
  induction 1; [done | by apply bounded_view | by apply bounded_role |
    apply bounded_shrinks; [|done].. | done]; try by shrinks.
  unfold EnsureSecret. case_match; [done | shrinks].
Qed.
End proofs.

(** ** Witnesses *)

Section witnesses.
#[local] Existing Instance canonical_order.

Definition w_ticks (n : Z) : Ticks := mkTicks n n n.

(** A channel with an owner and a subscriber, whose view has been cached. *)
Definition w_channel : Service :=
  (roleOf (w_ticks 1) (w_ticks 1) "c1" "u2"
    (CreateGroup "u1" "news" ChatChannel ["u2"; "u1"] "c1" 0 (New 0 MemChats.New)).1).1.

Lemma w_channel_reachable : reachable w_channel.
Proof.
  apply r_role; [|done]. apply r_group; [apply r_new | done | done |]. by repeat constructor.
Qed.


Lemma MemberIDs_complete_witness :
  ∃ ids, (MemberIDs 3 (w_ticks 2) "c1" w_channel).2 = Ok (Some ids) ∧ NoDup ids ∧
    ∀ uid, uid ∈ ids ↔ is_Some (members_of "c1" (cdb w_channel) !! uid).
Proof.
  exact (MemberIDs_complete 3 w_channel (w_ticks 2) "c1" _ w_channel_reachable eq_refl eq_refl).
Defined.

Lemma caches_bounded_witness : bounded w_channel ∧ maplen (cache w_channel) = 1.
Proof. split; [exact (caches_bounded w_channel w_channel_reachable) | reflexivity]. Defined.
End witnesses.
