(* ===== verification/Summaries.v ===== *)
(** * The chat list

    [internal/store/memory] summaries.go [UserChatSummaries], and the paging methods of
    [internal/chat] chat.go over it: a user's chats, the most recently active first, with
    the last live message, the unread count and the caller's own settings. *)

From S2P Require Import Prelude Bytes Strconv Model MemChats MemMessages ChatService.

Definition lessChatID (a b : string) : bool :=
  match ParseInt (sbytes a), ParseInt (sbytes b) with
  | NumOk na, NumOk nb => na <? nb
  | _, _ => str_lt a b
  end.
Definition lessID (a b : string) : bool :=
  if negb (len (sbytes a) =? len (sbytes b)) then len (sbytes a) <? len (sbytes b) else str_lt a b.

Definition defaultChatPage : Z := 100.
Definition maxChatPage : Z := 200.

Record ChatPage := mkChatPage { AfterActivity : Z; After : string; Limit : Z; IncludeArchived : bool }.

(** The newest message that is not a tombstone. *)
Definition last_live (msgs : list Message) : option Message := last (filter (λ m, Message_Deleted m = false) msgs).

(** The sort: activity, then id, from the highest. *)
Definition Sum_ChatID (r : ChatSummary) : string := match Sum_Chat r with Some c => Chat_ID c | None => "" end.
Definition row_before (a b : ChatSummary) : Prop :=
  Sum_LastActivityAt b < Sum_LastActivityAt a ∨
  (Sum_LastActivityAt a = Sum_LastActivityAt b ∧ lessChatID (Sum_ChatID a) (Sum_ChatID b) = false).
#[global] Instance row_before_dec : RelDecision row_before.
Proof. intros a b. unfold row_before. apply _. Defined.

(** What the loop over the sorted rows keeps. *)
Definition past_cursor (afterActivity : Z) (afterChatID : string) (r : ChatSummary) : bool :=
  if negb (afterActivity =? 0) || negb (bool_decide (afterChatID = "")) then
    negb (afterActivity <? Sum_LastActivityAt r)
    && negb ((Sum_LastActivityAt r =? afterActivity) && negb (lessChatID (Sum_ChatID r) afterChatID))
  else true.

Section summaries.
Context `{RangeOrder}.

(** The body of the loop over the memberships; [None] is [continue]. *)
Definition summary_row (userID : string) (includeArchived : bool) (db : ChatDB)
    (e : string * gmap string ChatMember) : option ChatSummary :=
  let '(chatID, mm) := e in
  match mm !! userID with
  | None => None
  | Some me =>
      if Flags_Archived (Member_Flags me) && negb includeArchived then None
      else
        match chats db !! chatID with
        | None => None
        | Some c =>
            let lm := last_live (default [] (messages db !! chatID)) in
            let activity := match lm with Some m => Message_CreatedAt m | None => Chat_CreatedAt c end in
            let unread :=
              match lm with
              | None => 0
              | Some m =>
                  let read := match reads db !! chatID ≫= (.!! userID) with Some st => Read_UpToSeq st | None => 0 end in
                  let read := if Message_Seq m <? read then Message_Seq m else read in
                  i64 (Message_Seq m - read)
              end in
            let peer := if Is1To1 (Chat_Type c) then default "" (find (λ uid, negb (bool_decide (uid = userID))) (range_keys mm))
                        else "" in
            Some (mkSummary (Some c) (Member_Role me) peer lm unread activity (Member_Flags me))
        end
  end.

(** All rows, in the order of the list. *)
Definition summary_rows (userID : string) (includeArchived : bool) (db : ChatDB) : list ChatSummary :=
  merge_sort row_before (omap (summary_row userID includeArchived db) (range_map (members db))).

Definition UserChatSummaries (userID : string) (afterActivity : Z) (afterChatID : string) (limit : Z) (includeArchived : bool)
    : M ChatDB (list ChatSummary) :=
  gets (λ db,
    let limit := if limit <=? 0 then 50 else limit in
    ztake limit (filter (λ r, past_cursor afterActivity afterChatID r = true) (summary_rows userID includeArchived db))).

Definition UserChatPage (userID : string) (p : ChatPage) : M Service (list ChatSummary) :=
  let limit := if (Limit p <=? 0) || (maxChatPage <? Limit p) then defaultChatPage else Limit p in
  store (UserChatSummaries userID (AfterActivity p) (After p) limit (IncludeArchived p)).

Definition UserChats (userID after : string) (limit : Z) : M Service (list ChatSummary) :=
  UserChatPage userID (mkChatPage 0 after limit false).

(** [userChatsSlow], for a store that cannot answer the page in one query. *)
Fixpoint slow_loop (userID after : string) (limit : Z) (ids : list string) (out : list ChatSummary) : M Service (list ChatSummary) :=
  match ids with
  | [] => mret out
  | id :: ids =>
      if negb (bool_decide (after = "")) && negb (lessID after id) then slow_loop userID after limit ids out
      else if len out =? limit then mret out
      else
        r ← attempt (store (GetChat id));
        match r with
        | Err store_ErrNotFound => slow_loop userID after limit ids out
        | Err e => fail e
        | Ok c =>
            r ← attempt (store (GetMember id userID));
            role ← lift (match r with Ok m => Ok (Member_Role m) | Err store_ErrNotFound => Ok "" | Err e => Err e end);
            peer ← (if Is1To1 (Chat_Type c)
                    then ms ← store (ListMembers id);
                         mret (match find (λ m, negb (bool_decide (Member_UserID m = userID))) ms with
                               | Some m => Member_UserID m | None => "" end)
                    else mret "");
            slow_loop userID after limit ids (out ++ [mkSummary (Some c) role peer None 0 0 no_flags])
        end
  end.
Definition id_before (a b : string) : Prop := lessID b a = false.
#[global] Instance id_before_dec : RelDecision id_before.
Proof. intros a b. unfold id_before. apply _. Defined.
Definition userChatsSlow (userID after : string) (limit : Z) : M Service (list ChatSummary) :=
  ids ← store (ListUserChats userID);
  slow_loop userID after limit (merge_sort id_before ids) [].

(** A client's walk: page after page, from the last row of the one before, until one is empty. *)
Fixpoint list_walk (fuel : nat) (userID : string) (limit : Z) (archived : bool) (cursor : Z * string) (out : list ChatSummary)
    (db : ChatDB) : option (list ChatSummary) :=
  match fuel with
  | O => None
  | S fuel =>
      match (UserChatPage userID (mkChatPage cursor.1 cursor.2 limit archived) (ChatService.New 0 db)).2 with
      | Ok page =>
          match last page with
          | None => Some out
          | Some r => list_walk fuel userID limit archived (Sum_LastActivityAt r, Sum_ChatID r) (out ++ page) db
          end
      | Err _ => None
      end
  end.

(** ** Lemmas *)

(** Chats are filed under their id, a decimal numeral. *)
Definition numeral (id : string) : Prop := ∃ n, - 2 ^ 63 ≤ n < 2 ^ 63 ∧ id = bstring (FormatInt n).
Definition chats_filed (db : ChatDB) : Prop := ∀ id c, chats db !! id = Some c → Chat_ID c = id ∧ numeral id.

Definition num (r : ChatSummary) : Z := number_value (ParseInt (sbytes (Sum_ChatID r))).
Definition filed (r : ChatSummary) : Prop := numeral (Sum_ChatID r).
Definition before (a b : ChatSummary) : Prop :=
  Sum_LastActivityAt b < Sum_LastActivityAt a ∨ (Sum_LastActivityAt a = Sum_LastActivityAt b ∧ num b < num a).
Definition before_eq (a b : ChatSummary) : Prop :=
  Sum_LastActivityAt b < Sum_LastActivityAt a ∨ (Sum_LastActivityAt a = Sum_LastActivityAt b ∧ num b ≤ num a).

Lemma filed_num r : filed r → ParseInt (sbytes (Sum_ChatID r)) = NumOk (num r) ∧ Sum_ChatID r = bstring (FormatInt (num r)).
Proof. intros (n & Hn & Hr). unfold num. rewrite Hr, sbytes_bstring, ParseInt_FormatInt by done. done. Qed.
Lemma filed_less a b : filed a → filed b → lessChatID (Sum_ChatID a) (Sum_ChatID b) = (num a <? num b).
Proof. intros [Ha _]%filed_num [Hb _]%filed_num. unfold lessChatID. by rewrite Ha, Hb. Qed.
Lemma filed_nonempty r : filed r → Sum_ChatID r ≠ "".
Proof.
  intros (n & _ & ->). intros He. assert (FormatInt n = []) as Hf by (by rewrite <- (sbytes_bstring (FormatInt n)), He).
  unfold FormatInt in Hf. destruct (n <? 0); [done|]. by apply FormatUint_nonempty in Hf.
Qed.

Lemma past_row c r : filed c → filed r → past_cursor (Sum_LastActivityAt c) (Sum_ChatID c) r = true ↔ before c r.
Proof.
  intros Hc Hr. unfold past_cursor, before. rewrite (bool_decide_false (Sum_ChatID c = "")) by by apply filed_nonempty.
  rewrite orb_true_r, filed_less by done. rewrite andb_true_iff, !negb_true_iff, andb_false_iff, Z.ltb_ge, Z.eqb_neq, negb_false_iff, Z.ltb_lt.
  lia.
Qed.

Lemma summary_row_id userID arch db e r :
  chats_filed db → summary_row userID arch db e = Some r → Sum_ChatID r = e.1 ∧ filed r.
Proof.
  intros Hdb. destruct e as [chatID mm]. unfold summary_row. destruct (mm !! userID) as [me|]; [|done].
  destruct (_ && _); [done|]. destruct (chats db !! chatID) as [c|] eqn:Ec; [|done]. cbv zeta. intros [= <-].
  destruct (Hdb _ _ Ec) as [Hid Hn]. unfold filed, Sum_ChatID. cbn. by rewrite Hid.
Qed.

Lemma rows_distinct userID arch db l :
  chats_filed db → NoDup l.*1 →
  NoDup (Sum_ChatID <$> omap (summary_row userID arch db) l) ∧ Forall filed (omap (summary_row userID arch db) l) ∧
  ∀ r, r ∈ omap (summary_row userID arch db) l → Sum_ChatID r ∈ l.*1.
Proof.
  intros Hdb. induction l as [|e l IH]; intros Hnd; [by split_and!; try constructor; intros r Hr%elem_of_nil|].
  apply NoDup_cons in Hnd as [He Hnd]. destruct (IH Hnd) as (H1 & H2 & H3). cbn [omap list_omap].
  destruct (summary_row userID arch db e) as [r|] eqn:Er.
  - destruct (summary_row_id _ _ _ _ _ Hdb Er) as [Hid Hf]. split_and!.
    + cbn. constructor; [|done]. rewrite Hid. intros (r' & Hr' & Hin)%list_elem_of_fmap. apply He. rewrite Hr'. by apply H3.
    + by constructor.
    + intros r' [->|Hr']%elem_of_cons; cbn; [rewrite Hid; by left | right; by apply H3].
  - split_and!; [done | done|]. intros r' Hr'. cbn. right. by apply H3.
Qed.

#[local] Instance row_before_total : Total row_before.
Proof.
  intros a b. unfold row_before.
  assert (lessChatID (Sum_ChatID a) (Sum_ChatID b) = false ∨ lessChatID (Sum_ChatID b) (Sum_ChatID a) = false) as Hl.
  2: { destruct (Z.lt_total (Sum_LastActivityAt a) (Sum_LastActivityAt b)) as [?|[?|?]]; [right; left; lia | | left; left; lia].
       destruct Hl; [left|right]; right; (split; [lia | done]). }
  unfold lessChatID. destruct (ParseInt (sbytes (Sum_ChatID a))), (ParseInt (sbytes (Sum_ChatID b)));
    rewrite ?Z.ltb_ge, ?str_lt_false; first [lia | apply (total String.le)].
Qed.
#[local] Instance before_eq_trans : Transitive before_eq.
Proof. intros a b c. unfold before_eq. lia. Qed.

Lemma rows_sorted l : Forall filed l → Sorted row_before l → StronglySorted before_eq l.
Proof.
  intros Hf Hs. apply Sorted_StronglySorted; [exact before_eq_trans|]. induction Hs as [|a l Hs IH Hhd]; [constructor|].
  apply Forall_cons in Hf as [Ha Hf]. constructor; [by apply IH|]. destruct Hhd as [|b l Hab]; constructor.
  apply Forall_cons in Hf as [Hb _]. unfold row_before in Hab. rewrite filed_less, Z.ltb_ge in Hab by done. unfold before_eq. lia.
Qed.

Lemma rows_strict l : Forall filed l → NoDup (Sum_ChatID <$> l) → StronglySorted before_eq l → StronglySorted before l.
Proof.
  intros Hf Hnd Hs. induction Hs as [|a l Hs IH Ha]; [constructor|]. apply Forall_cons in Hf as [Hfa Hf].
  rewrite fmap_cons in Hnd. apply NoDup_cons in Hnd as [Hna Hnd]. constructor; [by apply IH|].
  apply Forall_forall. intros b Hb. rewrite Forall_forall in Ha, Hf. specialize (Ha b Hb). unfold before_eq in Ha.
  assert (num a ≠ num b) as Hne; [|unfold before; lia]. intros Heq. apply Hna, list_elem_of_fmap. exists b. split; [|done].
  destruct (filed_num a Hfa) as [_ ->], (filed_num b (Hf b Hb)) as [_ ->]. by rewrite Heq.
Qed.

Lemma summary_rows_spec userID arch db :
  chats_filed db →
  StronglySorted before (summary_rows userID arch db) ∧ Forall filed (summary_rows userID arch db).
Proof.
  intros Hdb. unfold summary_rows. set (l := omap _ _).
  destruct (rows_distinct userID arch db (range_map (members db)) Hdb (NoDup_range_keys _)) as (Hnd & Hf & _). fold l in Hnd, Hf.
  assert (merge_sort row_before l ≡ₚ l) as Hp by apply merge_sort_Permutation.
  assert (Forall filed (merge_sort row_before l)) as Hf' by by rewrite Hp. split; [|done].
  apply rows_strict; [done | by rewrite Hp |]. apply rows_sorted; [done|]. apply Sorted_merge_sort, _.
Qed.

(** Everything after a row of a sorted list, and nothing else, is past its cursor. *)
Lemma rows_after l p c q :
  l = p ++ c :: q → StronglySorted before l → Forall filed l →
  filter (λ r, past_cursor (Sum_LastActivityAt c) (Sum_ChatID c) r = true) l = q.
Proof.
  intros -> Hs Hf. apply Forall_app in Hf as [Hfp [Hfc Hfq]%Forall_cons].
  rewrite Forall_forall in Hfp, Hfq. rewrite filter_app, (filter_none _ p), filter_cons_False.
  - apply filter_Forall, Forall_forall. intros r Hr. apply past_row; [done | by apply Hfq|].
    apply StronglySorted_app_1_r, StronglySorted_inv in Hs as [_ Hs]. rewrite Forall_forall in Hs. by apply Hs.
  - rewrite past_row by done. unfold before. lia.
  - apply Forall_forall. intros r Hr. rewrite past_row by (done || by apply Hfp).
    assert (before r c) as Hrc by (eapply (StronglySorted_app_1_elem_of before); [exact Hs | done | left]).
    unfold before in *. lia.
Qed.

Lemma page_rows userID limit arch act id db :
  0 < limit ≤ maxChatPage →
  (UserChatPage userID (mkChatPage act id limit arch) (ChatService.New 0 db)).2 =
  Ok (ztake limit (filter (λ r, past_cursor act id r = true) (summary_rows userID arch db))).
Proof.
  intros Hl. unfold UserChatPage. cbn [Limit AfterActivity After IncludeArchived].
  rewrite (proj2 (Z.leb_gt limit 0)), (proj2 (Z.ltb_ge maxChatPage limit)) by lia. cbn [orb].
  unfold store, UserChatSummaries, gets. cbn [cdb ChatService.New snd]. by rewrite (proj2 (Z.leb_gt limit 0)) by lia.
Qed.

Lemma list_walk_from fuel userID limit arch act id out db rest :
  0 < limit ≤ maxChatPage → chats_filed db → (length rest < fuel)%nat →
  filter (λ r, past_cursor act id r = true) (summary_rows userID arch db) = rest →
  (∃ p, summary_rows userID arch db = p ++ rest) →
  list_walk fuel userID limit arch (act, id) out db = Some (out ++ rest).
Proof.
  intros Hl Hdb. destruct (summary_rows_spec userID arch db Hdb) as [Hs Hf]. set (rows := summary_rows userID arch db) in *.
  revert act id out rest. induction fuel as [|fuel IH]; intros act id out rest Hfuel Hrest [p Hp]; [lia|].
  cbn [list_walk fst snd]. rewrite page_rows by done. fold rows. rewrite Hrest. set (page := ztake limit rest).
  destruct (last page) as [r|] eqn:Hlast.
  - apply last_Some in Hlast as [pg Hpg]. assert (rest = pg ++ r :: zdrop limit rest) as Hcut.
    { rewrite <- (ztake_zdrop limit rest) at 1. fold page. by rewrite Hpg, <- app_assoc. }
    assert (rows = (p ++ pg) ++ r :: zdrop limit rest) as Hrows by (by rewrite Hp, Hcut, app_assoc at 1).
    rewrite (IH _ _ (out ++ page) (zdrop limit rest)).
    + unfold page. by rewrite <- app_assoc, ztake_zdrop.
    + assert (length rest = (length pg + S (length (zdrop limit rest)))%nat) as Hle by (rewrite Hcut at 1; by rewrite length_app).
      lia.
    + by apply (rows_after rows (p ++ pg) r).
    + exists ((p ++ pg) ++ [r]). rewrite <- app_assoc. exact Hrows.
  - apply last_None in Hlast. unfold page in Hlast. destruct rest as [|r rest]; [by rewrite app_nil_r|].
    exfalso. unfold ztake in Hlast. destruct (Z.to_nat limit) eqn:El; [lia | done].
Qed.

Lemma id_cursor_empty userID after limit s :
  after ≠ "" → (∀ r, r ∈ summary_rows userID false (cdb s) → 0 < Sum_LastActivityAt r) →
  (UserChats userID after limit s).2 = Ok [].
Proof.
  intros Ha Hact. unfold UserChats, UserChatPage. cbn [AfterActivity After IncludeArchived].
  unfold store, UserChatSummaries, gets. cbn [snd]. rewrite filter_none; [unfold ztake; by rewrite take_nil|].
  apply Forall_forall. intros r Hr. unfold past_cursor. rewrite (bool_decide_false (after = "")) by done. cbn [negb].
  rewrite orb_true_r, (proj2 (Z.ltb_lt 0 _)) by by apply Hact. done.
Qed.

(** ** Theorems *)

(** Walking the chat list shows every chat once.  Over any store whose chats are filed
    under their decimal ids, reading page after page with the cursor the last row gives
    returns all rows of the user, the most recently active first, ties broken by id, and
    then ends, in fewer pages than there are rows, plus one. *)
Theorem chat_list_walk fuel userID limit arch db :
  chats_filed db → 0 < limit ≤ maxChatPage → (length (summary_rows userID arch db) < fuel)%nat →
  list_walk fuel userID limit arch (0, "") [] db = Some (summary_rows userID arch db) ∧
  StronglySorted before (summary_rows userID arch db) ∧
  ∀ id c m, chats db !! id = Some c → members_of id db !! userID = Some m → arch || negb (Flags_Archived (Member_Flags m)) = true →
    ∃ r, r ∈ summary_rows userID arch db ∧ Sum_Chat r = Some c.
Proof.
  intros Hdb Hl Hfuel. split; [|split].
  - rewrite (list_walk_from fuel userID limit arch 0 "" [] db (summary_rows userID arch db)); try done.
    + apply filter_Forall, Forall_forall. done.
    + by exists [].
  - by apply summary_rows_spec.
  - intros id c m Hc Hm Ha. unfold members_of in Hm. destruct (members db !! id) as [mm|] eqn:Em; [|done].
    cbn in Hm. assert (∃ r, summary_row userID arch db (id, mm) = Some r ∧ Sum_Chat r = Some c) as (r & Hr & Hrc).
    { unfold summary_row. rewrite Hm, Hc. assert (Flags_Archived (Member_Flags m) && negb arch = false) as ->.
      { destruct arch, (Flags_Archived (Member_Flags m)); done. }
      by eexists. }
    exists r. split; [|done]. unfold summary_rows. rewrite merge_sort_Permutation. apply list_elem_of_omap.
    exists (id, mm). split; [by apply elem_of_range_map | done].
Qed.


(** A page asked for by chat id alone is empty.  [UserChats] takes an id as its cursor
    and passes activity 0: no chat that was ever active comes after it, so a caller that
    pages this way sees its first page only. *)
Theorem id_cursor_is_end userID after limit s :
  after ≠ "" → (∀ r, r ∈ summary_rows userID false (cdb s) → 0 < Sum_LastActivityAt r) →
  (UserChats userID after limit s).2 = Ok [].
Proof. apply id_cursor_empty. Qed.
End summaries.

(** ** Witnesses *)
Section witnesses.
#[local] Existing Instance canonical_order.

Definition w_chat (id : string) (at_ : Z) : Chat := mkChat id ChatGroup "team" "1" at_ 0 "".
Definition w_list : ChatDB :=
  let add c db := (CreateChat c;; MemChats.AddMember (mkMember (Chat_ID c) "1" RoleOwner 0 false no_flags)) db in
  (add (w_chat "12" 6) (add (w_chat "7" 5) MemChats.New).1).1.

Lemma w_list_filed : chats_filed w_list.
Proof.
  assert (chats w_list = <["12" := w_chat "12" 6]> (<["7" := w_chat "7" 5]> ∅)) as Hw by by vm_compute.
  intros id c. rewrite Hw, !lookup_insert_Some, lookup_empty.
  intros [[<- <-]|[_ [[<- <-]|[_ ?]]]]; [split; [done | by exists 12] | split; [done | by exists 7] | done].
Qed.

Lemma chat_list_walk_witness :
  Sum_ChatID <$> summary_rows "1" false w_list = ["12"; "7"] ∧
  list_walk 3 "1" 1 false (0, "") [] w_list = Some (summary_rows "1" false w_list).
Proof.
  split; [by vm_compute|]. apply (chat_list_walk 3 "1" 1 false w_list w_list_filed); [done|]. vm_compute. lia.
Defined.

Lemma id_cursor_is_end_witness : (UserChats "1" "12" 1 (ChatService.New 0 w_list)).2 = Ok [].
Proof.
  apply (id_cursor_is_end "1" "12" 1 (ChatService.New 0 w_list)); [done|]. cbn [cdb ChatService.New]. intros r Hr.
  assert (Forall (λ r, 0 < Sum_LastActivityAt r) (summary_rows "1" false w_list)) as Hall.
  { apply (bool_decide_unpack _). by vm_compute. }
  rewrite Forall_forall in Hall. by apply Hall.
Defined.
End witnesses.
