(* ===== verification/MessageService.v ===== *)
(** * The message service and its broker

    [internal/message] message.go and broker.go.  The service runs against four
    interfaces: the message store (here the [ChatDB] log of MemMessages.v, reached
    through [HasStore]), the chat authority [Chats], the event bus and the optional
    media collector.  Fresh ids, the clock, the trace context and the clock readings of
    the authority are arguments. *)

From S2P Require Import Prelude Model EventBus MemChats MemMessages MessageLog ChatService Outbox.

(** ** The interfaces *)

(** The process state, with the message store in it. *)
Class HasStore (W : Type) := {
  mdb : W → ChatDB;
  set_mdb : ChatDB → W → W;
}.

(** A call on the message store. *)
Definition on_store `{HasStore W} {A} (m : M ChatDB A) : M W A := λ w,
  let '(db, r) := m (mdb w) in (set_mdb db w, r).

(** [Chats]; [T] is what an implementation reads of the clock. *)
Class Chats (T W : Type) := {
  Chats_CanPost : T → string → string → M W bool;
  Chats_IsMember : T → string → string → M W bool;
  Chats_CanModerate : T → string → string → M W bool;
}.

(** [MediaCollector], if one is attached. *)
Class MediaCollector (W : Type) := {
  DeleteIfUnreferenced : option (string → list string → M W unit);
}.

Record SendInput := mkSend {
  Send_SenderID : string;
  Send_ChatID : string;
  Send_DedupKey : string;
  Send_Text : string;
  Send_MediaRef : string;
  Send_ReplyTo : string;
  Send_Attachment : option Attachment;
  Send_Forward : option ForwardOrigin;
  Send_TTLSeconds : Z;
}.

(** ** Pure parts *)

Definition Redacted (m : Message) : Message := if Message_Deleted m then clear_content m else m.

Definition WireAttachment_of (a : option Attachment) : option WireAttachment :=
  match a with
  | None => None
  | Some a =>
      Some (mkWireAttachment (Attach_Kind a) (Attach_MediaRef a) (Attach_Filename a)
        (Attach_MIME a) (Attach_Size a) (Attach_DurationMs a) (Attach_Waveform a)
        (Attach_Width a) (Attach_Height a) (Attach_ThumbRef a))
  end.

Definition ModelAttachment (a : option WireAttachment) : option Attachment :=
  match a with
  | None => None
  | Some a =>
      Some (mkAttachment (WA_Kind a) (WA_MediaRef a) (WA_Filename a)
        (WA_MIME a) (WA_Size a) (WA_DurationMs a) (WA_Waveform a)
        (WA_Width a) (WA_Height a) (WA_ThumbRef a))
  end.

Definition WireForward_of (f : option ForwardOrigin) : option WireForward :=
  match f with
  | None => None
  | Some f => Some (mkWireForward (Origin_ChatID f) (Origin_MessageID f) (Origin_SenderID f))
  end.

(** Every blob a message points at. *)
Definition mediaRefsOf (m : Message) : list string :=
  (if bool_decide (Message_MediaRef m = "") then [] else [Message_MediaRef m]) ++
  match Message_Attachment m with
  | None => []
  | Some a =>
      (if bool_decide (Attach_MediaRef a = "") then [] else [Attach_MediaRef a]) ++
      (if bool_decide (Attach_ThumbRef a = "") then [] else [Attach_ThumbRef a])
  end.

(** [outboxFor]: the event of the row as persisted; [obID] is the record's fresh id. *)
Definition outboxFor (trace : gmap string string) (obID subject : string) : MakeOutbox := λ m,
  let m := Redacted m in
  let body := mkNewMessage (Message_ID m) (Message_ChatID m) (Message_SenderID m)
    (Message_Seq m) (Message_Text m) (Message_MediaRef m) (Message_ReplyTo m)
    (WireAttachment_of (Message_Attachment m)) (WireForward_of (Message_Forward m))
    (Message_ExpiresAt m) (Message_ThreadRoot m) (Message_ReplyCount m)
    (Message_Edited m) (Message_Deleted m) (Message_CreatedAt m) in
  Some (mkOutbox obID subject (Message_ChatID m) (MessageBody body) trace).

(** ** The broker's commands *)

Definition MaxTextLen : Z := 8192.

Abbreviation Op := string (only parsing).
Definition OpCreate : Op := "create".
Definition OpEdit : Op := "edit".
Definition OpDelete : Op := "delete".

Record Command := mkCommand {
  Cmd_Op : Op;
  Cmd_ActorID : string;
  Cmd_ChatID : string;
  Cmd_MessageID : string;
  Cmd_DedupKey : string;
  Cmd_Text : string;
  Cmd_MediaRef : string;
  Cmd_ReplyTo : string;
  Cmd_Attachment : option Attachment;
  Cmd_TTLSeconds : Z;
}.

(** Go's [len] of a string. *)
Definition slen (s : string) : Z := Z.of_nat (String.length s).

Definition validate (cmd : Command) : result unit :=
  if bool_decide (Cmd_Op cmd = OpCreate) then
    if MaxTextLen <? slen (Cmd_Text cmd) then Err message_ErrTooLong
    else if bool_decide (Cmd_Text cmd = "") && bool_decide (Cmd_MediaRef cmd = "")
            && bool_decide (Cmd_Attachment cmd = None)
    then Err message_ErrEmptyMessage else Ok tt
  else if bool_decide (Cmd_Op cmd = OpEdit) then
    if MaxTextLen <? slen (Cmd_Text cmd) then Err message_ErrTooLong
    else if bool_decide (Cmd_Text cmd = "") then Err message_ErrEmptyMessage else Ok tt
  else if bool_decide (Cmd_Op cmd = OpDelete) then
    if bool_decide (Cmd_MessageID cmd = "") then Err message_ErrBadCommand else Ok tt
  else Err message_ErrBadCommand.

(** ** The service *)

Section service.
Context `{HasStore W} `{Chats T W} `{Bus EventBody W} `{MediaCollector W}.
Variable trace : gmap string string.

(** [if !ok { return ErrForbidden }] after an authority call. *)
Definition authorized (m : M W bool) : M W unit :=
  ok ← m;
  guard_or ok message_ErrForbidden.

(** The thread a reply joins. *)
Definition threadRootOf (parent : Message) : string :=
  if bool_decide (Message_ThreadRoot parent = "") then Message_ID parent
  else Message_ThreadRoot parent.

(** The row [Send] builds, before the store numbers it. *)
Definition send_row (id : string) (now : Z) (s_in : SendInput) : Message :=
  mkMessage id (Send_ChatID s_in) (Send_SenderID s_in) 0 (Send_Text s_in) (Send_MediaRef s_in)
    (Send_Attachment s_in) (Send_ReplyTo s_in) "" 0 (Send_Forward s_in)
    (if 0 <? Send_TTLSeconds s_in then i64 (now + Send_TTLSeconds s_in * 1000) else 0)
    false false now 0.

Definition Send (t : T) (id obID : string) (now : Z) (s_in : SendInput) : M W (Message * bool) :=
  authorized (Chats_CanPost t (Send_ChatID s_in) (Send_SenderID s_in));;
  let m := send_row id now s_in in
  m ← (if bool_decide (Send_ReplyTo s_in = "") then mret m
       else
         r ← attempt (on_store (GetMessage (Send_ChatID s_in) (Send_ReplyTo s_in)));
         match r with
         | Ok parent => mret (set_ThreadRoot (threadRootOf parent) m)
         | Err _ => mret m
         end);
  on_store (InsertMessage m (Send_DedupKey s_in) (outboxFor trace obID SubjMessageCreated)).

Definition Edit (obID : string) (now : Z) (userID chatID msgID text : string) : M W Message :=
  cur ← on_store (GetMessage chatID msgID);
  guard_or (bool_decide (Message_SenderID cur = userID)) message_ErrForbidden;;
  on_store (EditMessage chatID msgID text now (outboxFor trace obID SubjMessageEdited)).

Definition Delete (t : T) (obID : string) (now : Z) (userID chatID msgID : string) : M W Message :=
  cur ← on_store (GetMessage chatID msgID);
  (if bool_decide (Message_SenderID cur = userID) then mret tt
   else authorized (Chats_CanModerate t chatID userID));;
  let refs := mediaRefsOf cur in
  m ← on_store (DeleteMessage chatID msgID now (outboxFor trace obID SubjMessageDeleted));
  match DeleteIfUnreferenced, refs with
  | Some del, _ :: _ => attempt (del "message" refs);; mret m
  | _, _ => mret m
  end.

Definition History (t : T) (userID chatID : string) (beforeSeq limit : Z) : M W (list Message) :=
  authorized (Chats_IsMember t chatID userID);;
  on_store (MemMessages.History chatID beforeSeq limit).

Definition Thread (t : T) (userID chatID rootID : string) (afterSeq limit : Z)
    : M W (list Message) :=
  authorized (Chats_IsMember t chatID userID);;
  on_store (MemMessages.Thread chatID rootID afterSeq limit).

Definition read_event (chatID userID : string) (upToSeq : Z) : Event EventBody :=
  mkEvent SubjMessageRead chatID (ReadBody (mkReadUpdate chatID userID upToSeq)) trace.

Definition MarkRead (t : T) (now : Z) (userID chatID : string) (upToSeq : Z) : M W unit :=
  authorized (Chats_IsMember t chatID userID);;
  on_store (SetRead (mkRead chatID userID upToSeq now));;
  attempt (Publish (read_event chatID userID upToSeq));;
  mret tt.

(** The provenance a copy of [src] carries. *)
Definition origin_of (srcChatID : string) (src : Message) : ForwardOrigin :=
  match Message_Forward src with
  | Some o => o
  | None => mkOrigin srcChatID (Message_ID src) (Message_SenderID src)
  end.

Definition Forward (t t' : T) (id obID : string) (now : Z)
    (userID srcChatID srcMsgID dstChatID dedupKey : string) : M W (Message * bool) :=
  authorized (Chats_IsMember t srcChatID userID);;
  src ← on_store (GetMessage srcChatID srcMsgID);
  guard_or (negb (Message_Deleted src)) store_ErrNotFound;;
  Send t' id obID now
    (mkSend userID dstChatID dedupKey (Message_Text src) (Message_MediaRef src) ""
       (Message_Attachment src) (Some (origin_of srcChatID src)) 0).

Definition expired_event (now : Z) (m : Message) : Event EventBody :=
  mkEvent SubjMessageDeleted (Message_ChatID m)
    (MessageBody (mkNewMessage (Message_ID m) (Message_ChatID m) (Message_SenderID m)
       (Message_Seq m) "" "" "" None None 0 "" 0 false true now)) trace.

(** Publish each event, whatever the bus answers. *)
Fixpoint publish_each (es : list (Event EventBody)) : M W unit :=
  match es with
  | [] => mret tt
  | e :: es => attempt (Publish e);; publish_each es
  end.

Definition ExpireDue `{RangeOrder} (now limit : Z) : M W Z :=
  expired ← on_store (ExpireMessages now limit);
  publish_each (expired_event now <$> expired);;
  mret (len expired).

(** [Submit]; the result is the message and whether it is a duplicate. *)
Definition Submit (t : T) (id obID : string) (now : Z) (cmd : Command) : M W (Message * bool) :=
  lift (validate cmd);;
  if bool_decide (Cmd_Op cmd = OpCreate) then
    Send t id obID now
      (mkSend (Cmd_ActorID cmd) (Cmd_ChatID cmd) (Cmd_DedupKey cmd) (Cmd_Text cmd)
         (Cmd_MediaRef cmd) (Cmd_ReplyTo cmd) (Cmd_Attachment cmd) None (Cmd_TTLSeconds cmd))
  else if bool_decide (Cmd_Op cmd = OpEdit) then
    m ← Edit obID now (Cmd_ActorID cmd) (Cmd_ChatID cmd) (Cmd_MessageID cmd) (Cmd_Text cmd);
    mret (m, false)
  else if bool_decide (Cmd_Op cmd = OpDelete) then
    m ← Delete t obID now (Cmd_ActorID cmd) (Cmd_ChatID cmd) (Cmd_MessageID cmd);
    mret (m, false)
  else fail message_ErrBadCommand.
End service.

(** ** What the interfaces promise *)

(** [authority w] is what the chat authority would answer in [w]: may post, is a member,
    may moderate.  Asking it changes neither the log nor any later answer.  Publishing
    and collecting media leave the log, the outbox and the authority alone. *)
Record decision := mkDecision { d_post : result bool; d_member : result bool; d_moderate : result bool }.

(** A store change that keeps the chats with their kinds, and the members, as every
    message operation does. *)
Definition log_frame (db db' : ChatDB) : Prop :=
  (∀ cid, Chat_Type <$> chats db' !! cid = Chat_Type <$> chats db !! cid) ∧
  members db' = members db.

Class MessageLaws (T W : Type) `{HasStore W} `{!Chats T W} `{!Bus EventBody W}
    `{!MediaCollector W} := {
  good : W → Prop;
  authority : W → string → string → decision;
  quiet (w w' : W) : Prop := 
    good w' ∧ mdb w' = mdb w ∧ ∀ c u, authority w' c u = authority w c u;
  mdb_set db w : mdb (set_mdb db w) = db;
  CanPost_spec t c u w :
    good w → no_bar c = true →
    ∃ w', Chats_CanPost t c u w = (w', d_post (authority w c u)) ∧ quiet w w';
  IsMember_spec t c u w :
    good w → no_bar c = true →
    ∃ w', Chats_IsMember t c u w = (w', d_member (authority w c u)) ∧ quiet w w';
  CanModerate_spec t c u w :
    good w → no_bar c = true →
    ∃ w', Chats_CanModerate t c u w = (w', d_moderate (authority w c u)) ∧ quiet w w';
  Publish_quiet e w : good w → quiet w (Publish e w).1;
  media_quiet del reason refs w :
    DeleteIfUnreferenced = Some del → good w → quiet w (del reason refs w).1;
  (* writing messages, cursors and outbox records is no business of the authority *)
  good_store db w :
    good w → log_frame (mdb w) db →
    good (set_mdb db w) ∧ ∀ c u, authority (set_mdb db w) c u = authority w c u;
}.

Section facts.
Context `{MessageLaws T W}.
Variable trace : gmap string string.
Implicit Types w : W.

Lemma quiet_refl w : good w → quiet w w.
Proof. done. Qed.
Lemma quiet_trans w1 w2 w3 : quiet w1 w2 → quiet w2 w3 → quiet w1 w3.
Proof.
  intros (? & ? & Ha) (? & ? & Ha'). split_and!; [done | congruence | intros; by rewrite Ha'].
Qed.

Lemma on_store_eq {A} (m : M ChatDB A) w :
  on_store m w = (set_mdb (m (mdb w)).1 w, (m (mdb w)).2).
Proof. unfold on_store. by destruct (m (mdb w)). Qed.

Lemma authorized_eq (m : M W bool) w :
  authorized m w =
  ((m w).1, match (m w).2 with
            | Ok true => Ok tt
            | Ok false => Err message_ErrForbidden
            | Err e => Err e
            end).
Proof.
  unfold authorized. rewrite M_bind_eq. destruct (m w) as [w' [[]|e]]; done.
Qed.

Lemma log_frame_refl db : log_frame db db.
Proof. done. Qed.

(** A store call that changes nothing. *)
Lemma quiet_same w db : good w → db = mdb w → quiet w (set_mdb db w).
Proof.
  intros Hg ->. destruct (good_store (mdb w) w Hg (log_frame_refl _)).
  split_and!; [done | apply mdb_set | done].
Qed.

(** *** Frames of the store operations *)


Lemma insert_frame m k ob db : log_frame db (InsertMessage m k ob db).1.
Proof.
  destruct (dedup_hit (Message_SenderID m) (Message_ChatID m) k db) as [ex|] eqn:Eh.
  { erewrite InsertMessage_hit by done. apply log_frame_refl. }
  destruct (chats db !! Message_ChatID m) as [c|] eqn:Ec.
  - destruct (InsertMessage_new m k ob db c Eh Ec) as (db' & out & -> & _ & Hc & _ & Hm & _).
    split; [|done]. cbn [fst]. intros cid. rewrite Hc.
    destruct (decide (Message_ChatID m = cid)) as [<-|Hne].
    + by rewrite lookup_insert_eq, Ec.
    + by rewrite lookup_insert_ne.
  - unfold InsertMessage. rewrite M_bind_eq. cbn [get]. rewrite Eh, Ec. apply log_frame_refl.
Qed.

Lemma update_frame cid id f ob db : log_frame db (update_message cid id f ob db).1.
Proof.
  unfold update_message. rewrite M_bind_eq. cbn [get]. case_match; [|apply log_frame_refl].
  unfold stageOutboxLocked, modify; simpl. by case_match.
Qed.

(** *** Effects of the service's calls *)

(** What one call did to the log: nothing, or the effect of [m], with the authority
    still sound and its answers unchanged. *)
Definition effect {A} (w w' : W) (db' : M ChatDB A) : Prop :=
  good w' ∧ (∀ c u, authority w' c u = authority w c u) ∧ mdb w' = (db' (mdb w)).1.

Lemma effect_store {A} (m : M ChatDB A) w w1 :
  quiet w w1 → log_frame (mdb w) (m (mdb w)).1 → effect w (on_store m w1).1 m.
Proof.
  intros (Hg & Hd & Ha) Hf. rewrite on_store_eq. cbn [fst]. rewrite <- Hd in Hf.
  destruct (good_store (m (mdb w1)).1 w1 Hg Hf) as [? Hs].
  split_and!; [done | intros; by rewrite Hs, Ha | by rewrite mdb_set, Hd].
Qed.

Lemma effect_quiet {A} (m : M ChatDB A) w w1 w2 : effect w w1 m → quiet w1 w2 → effect w w2 m.
Proof. intros (? & Ha & ?) (? & ? & Ha'). split_and!; [done | intros; by rewrite Ha' | congruence]. Qed.

(** The thread root a send resolves to. *)
Definition root_of (s_in : SendInput) (db : ChatDB) : string :=
  if bool_decide (Send_ReplyTo s_in = "") then ""
  else match find_msg (Send_ReplyTo s_in) (messages_of (Send_ChatID s_in) db) with
       | Some parent => threadRootOf parent
       | None => ""
       end.

Definition insert_of (id obID : string) (now : Z) (s_in : SendInput) (db : ChatDB)
    : M ChatDB (Message * bool) :=
  InsertMessage (set_ThreadRoot (root_of s_in db) (send_row id now s_in)) (Send_DedupKey s_in)
    (outboxFor trace obID SubjMessageCreated).

Lemma Send_effect t id obID now s_in w :
  good w → no_bar (Send_ChatID s_in) = true →
  let r := Send trace t id obID now s_in w in
  match d_post (authority w (Send_ChatID s_in) (Send_SenderID s_in)) with
  | Ok true =>
      effect w r.1 (insert_of id obID now s_in (mdb w)) ∧
      r.2 = (insert_of id obID now s_in (mdb w) (mdb w)).2
  | Ok false => quiet w r.1 ∧ r.2 = Err message_ErrForbidden
  | Err e => quiet w r.1 ∧ r.2 = Err e
  end.
Proof.
  intros Hg Hb. unfold Send. rewrite M_bind_eq, authorized_eq.
  destruct (CanPost_spec t _ (Send_SenderID s_in) w Hg Hb) as (w1 & -> & Hq). cbn [fst snd].
  destruct (d_post _) as [[]|e]; [|done..]. rewrite M_bind_eq.
  assert (∃ w2, quiet w w2 ∧ (if bool_decide (Send_ReplyTo s_in = "") then mret (send_row id now s_in)
      else attempt (on_store (GetMessage (Send_ChatID s_in) (Send_ReplyTo s_in))) ≫= λ r,
        match r with
        | Ok parent => mret (set_ThreadRoot (threadRootOf parent) (send_row id now s_in))
        | Err _ => mret (send_row id now s_in) end) w1
      = (w2, Ok (set_ThreadRoot (root_of s_in (mdb w)) (send_row id now s_in)))) as (w2 & Hq2 & ->).
  { unfold root_of. destruct (bool_decide _); [by exists w1|].
    rewrite M_bind_eq. unfold attempt. rewrite on_store_eq. unfold GetMessage.
    rewrite M_bind_eq. cbn [get]. destruct Hq as (Hg1 & Hd1 & Ha1). rewrite Hd1.
    exists (set_mdb (mdb w1) w1). split.
    { apply (quiet_trans w w1); [done|]. by apply quiet_same. }
    rewrite <- Hd1. by destruct (find_msg _ _). }
  split; [by apply effect_store, insert_frame|].
  destruct Hq2 as (_ & Hd & _). rewrite on_store_eq. cbn [snd]. by rewrite Hd.
Qed.

Lemma on_store_GetMessage c id w :
  on_store (GetMessage c id) w =
  (set_mdb (mdb w) w,
   match find_msg id (messages_of c (mdb w)) with Some m => Ok m | None => Err store_ErrNotFound end).
Proof.
  rewrite on_store_eq. unfold GetMessage. rewrite M_bind_eq. cbn [get]. by destruct (find_msg _ _).
Qed.

Lemma Edit_effect obID now u c id text w :
  good w →
  let r := Edit trace obID now u c id text w in
  let op := EditMessage c id text now (outboxFor trace obID SubjMessageEdited) in
  match find_msg id (messages_of c (mdb w)) with
  | None => quiet w r.1 ∧ r.2 = Err store_ErrNotFound
  | Some m =>
      if bool_decide (Message_SenderID m = u)
      then effect w r.1 op ∧ r.2 = (op (mdb w)).2
      else quiet w r.1 ∧ r.2 = Err message_ErrForbidden
  end.
Proof.
  intros Hg. unfold Edit. rewrite M_bind_eq, on_store_GetMessage.
  pose proof (quiet_same w (mdb w) Hg eq_refl) as Hq.
  destruct (find_msg id _) as [m|]; [|done]. rewrite M_bind_eq. unfold guard_or.
  destruct (bool_decide _); [|done]. cbn [mret M_ret]. split; [by apply effect_store, update_frame|].
  rewrite on_store_eq. cbn [snd]. by rewrite mdb_set.
Qed.

(** Whether a user may delete a message: their own, or as a moderator. *)
Definition may_delete (w : W) (u c : string) (m : Message) : result bool :=
  if bool_decide (Message_SenderID m = u) then Ok true else d_moderate (authority w c u).

Lemma Delete_effect t obID now u c id w :
  good w → no_bar c = true →
  let r := Delete trace t obID now u c id w in
  let op := DeleteMessage c id now (outboxFor trace obID SubjMessageDeleted) in
  match find_msg id (messages_of c (mdb w)) with
  | None => quiet w r.1 ∧ r.2 = Err store_ErrNotFound
  | Some m =>
      match may_delete w u c m with
      | Ok true => effect w r.1 op ∧ r.2 = (op (mdb w)).2
      | Ok false => quiet w r.1 ∧ r.2 = Err message_ErrForbidden
      | Err e => quiet w r.1 ∧ r.2 = Err e
      end
  end.
Proof.
  intros Hg Hb. unfold Delete. rewrite M_bind_eq, on_store_GetMessage.
  pose proof (quiet_same w (mdb w) Hg eq_refl) as Hq. set (w0 := set_mdb (mdb w) w) in *.
  destruct (find_msg id _) as [m|] eqn:Ef; [|done]. rewrite M_bind_eq. unfold may_delete.
  assert (∀ w1, quiet w w1 →
    let r := (m1 ← on_store (DeleteMessage c id now (outboxFor trace obID SubjMessageDeleted));
      match DeleteIfUnreferenced, mediaRefsOf m with
      | Some del, _ :: _ => attempt (del "message" (mediaRefsOf m));; mret m1
      | _, _ => mret m1
      end) w1 in
    effect w r.1 (DeleteMessage c id now (outboxFor trace obID SubjMessageDeleted)) ∧
    r.2 = (DeleteMessage c id now (outboxFor trace obID SubjMessageDeleted) (mdb w)).2) as Hrest.
  { intros w1 Hq1 r. unfold r; clear r. rewrite M_bind_eq.
    pose proof (effect_store (DeleteMessage c id now (outboxFor trace obID SubjMessageDeleted)) w w1 Hq1
      (update_frame _ _ _ _ _)) as He.
    destruct Hq1 as (_ & Hd1 & _). rewrite on_store_eq, Hd1 in *. cbn [fst snd] in *.
    destruct (DeleteMessage c id now _ (mdb w)) as [db' [m1|e]] eqn:Ed; cbn [fst snd] in *; [|done].
    destruct DeleteIfUnreferenced as [del|] eqn:Em; [|done].
    destruct (mediaRefsOf m) as [|ref refs] eqn:Er; [done|].
    rewrite M_bind_eq. unfold attempt.
    pose proof (media_quiet del "message" (ref :: refs) (set_mdb db' w1) Em (proj1 He)) as Hq2.
    destruct (del "message" (ref :: refs) (set_mdb db' w1)) as [w2 r2]. cbn [fst snd] in *.
    split; [|done]. eapply effect_quiet; done. }
  destruct (bool_decide _); [by apply Hrest|].
  rewrite authorized_eq. destruct Hq as (Hg0 & Hd0 & Ha0).
  destruct (CanModerate_spec t c u w0 Hg0 Hb) as (w1 & -> & Hq1). rewrite Ha0. cbn [fst snd].
  assert (quiet w w1) as Hq by (by apply (quiet_trans w w0)).
  destruct (d_moderate _) as [[]|e]; [|done..]. by apply Hrest.
Qed.

(** A call behind a membership check. *)
Lemma member_only {A} t c u (k : M W A) w :
  good w → no_bar c = true →
  let r := (authorized (Chats_IsMember t c u);; k) w in
  match d_member (authority w c u) with
  | Ok true => ∃ w1, quiet w w1 ∧ r = k w1
  | Ok false => quiet w r.1 ∧ r.2 = Err message_ErrForbidden
  | Err e => quiet w r.1 ∧ r.2 = Err e
  end.
Proof.
  intros Hg Hb. rewrite M_bind_eq, authorized_eq.
  destruct (IsMember_spec t c u w Hg Hb) as (w1 & -> & Hq). cbn [fst snd].
  destruct (d_member _) as [[]|e]; [by exists w1 | done..].
Qed.

(** What [Forward] sends on. *)
Definition forward_input (u srcChat dst k : string) (src : Message) : SendInput :=
  mkSend u dst k (Message_Text src) (Message_MediaRef src) "" (Message_Attachment src)
    (Some (origin_of srcChat src)) 0.

Lemma Forward_effect t t' id obID now u srcChat srcID dst k w :
  good w → no_bar srcChat = true → no_bar dst = true →
  let r := Forward trace t t' id obID now u srcChat srcID dst k w in
  quiet w r.1 ∨
  ∃ src, d_member (authority w srcChat u) = Ok true ∧
    d_post (authority w dst u) = Ok true ∧
    find_msg srcID (messages_of srcChat (mdb w)) = Some src ∧ Message_Deleted src = false ∧
    effect w r.1 (insert_of id obID now (forward_input u srcChat dst k src) (mdb w)) ∧
    r.2 = (insert_of id obID now (forward_input u srcChat dst k src) (mdb w) (mdb w)).2.
Proof.
  intros Hg Hb Hb'. unfold Forward.
  match goal with |- context [(authorized (Chats_IsMember t srcChat u);; ?k) w] =>
    pose proof (member_only t srcChat u k w Hg Hb) as Hm end.
  cbv zeta in *. destruct (d_member _) as [[]|e]; [|left; apply Hm..].
  destruct Hm as (w1 & Hq & ->). rewrite M_bind_eq, on_store_GetMessage.
  pose proof (quiet_same w1 (mdb w1) (proj1 Hq) eq_refl) as Hq1.
  set (w2 := set_mdb (mdb w1) w1) in *. assert (quiet w w2) as Hq2 by (by apply (quiet_trans w w1)).
  replace (mdb w1) with (mdb w) by (by destruct Hq as (_ & -> & _)).
  destruct (find_msg srcID _) as [src|]; [|by left]. rewrite M_bind_eq. unfold guard_or.
  destruct (Message_Deleted src) eqn:Ed; [by left|]. cbn [negb mret M_ret].
  destruct Hq2 as (Hg2 & Hd2 & Ha2).
  pose proof (Send_effect t' id obID now (forward_input u srcChat dst k src) w2 Hg2 Hb') as Hs.
  cbv zeta in Hs. rewrite Ha2, Hd2 in Hs. cbn [Send_ChatID Send_SenderID forward_input] in Hs.
  assert (∀ w3, quiet w2 w3 → quiet w w3) as Htrans by (intros w3; by apply quiet_trans).
  destruct (d_post _) as [[]|e]; [|left; by apply Htrans, Hs..].
  right. exists src. destruct Hs as [(H1 & H2 & H3) H4]. split_and!; [done..| |done].
  rewrite Hd2 in H3. split_and!; [exact H1 | intros; rewrite <- Ha2; apply H2 | exact H3].
Qed.

Lemma publish_each_quiet es w : good w → quiet w (publish_each es w).1.
Proof.
  revert w. induction es as [|e es IH]; intros w Hg; [done|]. cbn [publish_each].
  rewrite M_bind_eq. unfold attempt. pose proof (Publish_quiet e w Hg) as Hq.
  destruct (Publish e w) as [w1 r1]. cbn [fst] in *.
  apply (quiet_trans w w1); [done|]. apply IH, Hq.
Qed.

Lemma ExpireDue_effect `{RangeOrder} now limit w :
  good w → effect w (ExpireDue trace now limit w).1 (ExpireMessages now limit).
Proof.
  intros Hg. unfold ExpireDue. rewrite M_bind_eq, on_store_eq. unfold ExpireMessages.
  set (lim := if limit <=? 0 then 200 else limit).
  pose proof (expire_chats_log now lim (range_map (messages (mdb w))) (mdb w)) as Hl.
  destruct (expire_chats now lim _ (mdb w)) as [db out] eqn:E. cbn [fst snd].
  destruct Hl as (_ & Hm & _ & Hc).
  { intros cid l Hin%elem_of_range_map. unfold messages_of. by rewrite Hin. }
  { apply NoDup_range_keys. }
  destruct (good_store db w Hg) as [Hg1 Ha1]; [unfold log_frame; by rewrite Hc|].
  rewrite M_bind_eq. pose proof (publish_each_quiet (expired_event trace now <$> out) _ Hg1) as Hq.
  destruct (publish_each _ _) as [w2 r2]. destruct Hq as (Hg2 & Hd2 & Ha2). cbn [fst] in *.
  assert (effect w w2 (ExpireMessages now limit)) as He.
  { split_and!; [done | intros; by rewrite Ha2 |]. rewrite Hd2, mdb_set. unfold ExpireMessages. fold lim. by rewrite E. }
  by destruct r2.
Qed.

Lemma SetRead_frame rs db : log_frame db (SetRead rs db).1.
Proof.
  unfold SetRead, modify; simpl. split; repeat case_match; try done; intros ? ? ?; eauto.
Qed.

Lemma MarkRead_effect t now u c n w :
  good w → no_bar c = true →
  let r := MarkRead trace t now u c n w in
  match d_member (authority w c u) with
  | Ok true => effect w r.1 (SetRead (mkRead c u n now)) ∧ r.2 = Ok tt
  | Ok false => quiet w r.1 ∧ r.2 = Err message_ErrForbidden
  | Err e => quiet w r.1 ∧ r.2 = Err e
  end.
Proof.
  intros Hg Hb. unfold MarkRead.
  match goal with |- context [(authorized (Chats_IsMember t c u);; ?k) w] =>
    pose proof (member_only t c u k w Hg Hb) as Hm end.
  cbv zeta in *. destruct (d_member _) as [[]|e]; [|apply Hm..].
  destruct Hm as (w1 & Hq & ->). rewrite M_bind_eq.
  pose proof (effect_store (SetRead (mkRead c u n now)) w w1 Hq (SetRead_frame _ _)) as He.
  rewrite on_store_eq in *. cbn [SetRead modify fst snd] in *. rewrite M_bind_eq. unfold attempt.
  match goal with |- context [Publish ?e ?x] => 
    pose proof (Publish_quiet e x (proj1 He)) as Hp; destruct (Publish e x) as [w2 r2] end.
  cbn [fst snd] in *. split; [|done]. by eapply effect_quiet.
Qed.

(** History and threads are for members: a member gets exactly the store's page, a
    user who is not one gets [ErrForbidden], and reading changes nothing in the log. *)
Theorem reads_authorized t u c w before limit root after limit' :
  good w → no_bar c = true →
  (History t u c before limit w).2 =
    match d_member (authority w c u) with
    | Ok true => (MemMessages.History c before limit (mdb w)).2
    | Ok false => Err message_ErrForbidden
    | Err e => Err e
    end ∧
  (Thread t u c root after limit' w).2 =
    match d_member (authority w c u) with
    | Ok true => (MemMessages.Thread c root after limit' (mdb w)).2
    | Ok false => Err message_ErrForbidden
    | Err e => Err e
    end ∧
  mdb (History t u c before limit w).1 = mdb w ∧ mdb (Thread t u c root after limit' w).1 = mdb w.
Proof.
  intros Hg Hb.
  pose proof (member_only t c u (on_store (MemMessages.History c before limit)) w Hg Hb) as Hh.
  pose proof (member_only t c u (on_store (MemMessages.Thread c root after limit')) w Hg Hb) as Ht.
  unfold History, Thread. cbv zeta in *. destruct (d_member _) as [[]|e].
  - destruct Hh as (w1 & (_ & Hd1 & _) & ->), Ht as (w2 & (_ & Hd2 & _) & ->).
    rewrite !on_store_eq. cbn [fst snd]. by rewrite !mdb_set, Hd1, Hd2.
  - destruct Hh as ((_ & -> & _) & ->), Ht as ((_ & -> & _) & ->). done.
  - destruct Hh as ((_ & -> & _) & ->), Ht as ((_ & -> & _) & ->). done.
Qed.

(** *** The broker *)

Definition create_input (cmd : Command) : SendInput :=
  mkSend (Cmd_ActorID cmd) (Cmd_ChatID cmd) (Cmd_DedupKey cmd) (Cmd_Text cmd)
    (Cmd_MediaRef cmd) (Cmd_ReplyTo cmd) (Cmd_Attachment cmd) None (Cmd_TTLSeconds cmd).

Lemma Submit_eq t id obID now cmd w :
  Submit trace t id obID now cmd w =
  match validate cmd with
  | Err e => (w, Err e)
  | Ok _ =>
      if bool_decide (Cmd_Op cmd = OpCreate) then Send trace t id obID now (create_input cmd) w
      else
        let r := if bool_decide (Cmd_Op cmd = OpEdit)
          then Edit trace obID now (Cmd_ActorID cmd) (Cmd_ChatID cmd) (Cmd_MessageID cmd) (Cmd_Text cmd) w
          else Delete trace t obID now (Cmd_ActorID cmd) (Cmd_ChatID cmd) (Cmd_MessageID cmd) w in
        (r.1, match r.2 with Ok m => Ok (m, false) | Err e => Err e end)
  end.
Proof.
  unfold Submit. rewrite M_bind_eq. unfold lift.
  destruct (validate cmd) as [[]|e] eqn:Ev; [|done].
  destruct (bool_decide (Cmd_Op cmd = OpCreate)) eqn:Ec; [done|].
  destruct (bool_decide (Cmd_Op cmd = OpEdit)) eqn:Ee.
  { rewrite M_bind_eq. by destruct (Edit _ _ _ _ _ _ _ w) as [w' [m|e]]. }
  destruct (bool_decide (Cmd_Op cmd = OpDelete)) eqn:Ed.
  { rewrite M_bind_eq. by destruct (Delete _ _ _ _ _ _ _ w) as [w' [m|e]]. }
  unfold validate in Ev. by rewrite Ec, Ee, Ed in Ev.
Qed.

(** What a submitted command that changes a log was, and what it did. *)
Lemma Submit_changes t id obID now cmd w cid :
  good w → no_bar (Cmd_ChatID cmd) = true →
  let w' := (Submit trace t id obID now cmd w).1 in
  let l := messages_of cid (mdb w) in
  let l' := messages_of cid (mdb w') in
  l' ≠ l →
  cid = Cmd_ChatID cmd ∧ validate cmd = Ok tt ∧
  ((Cmd_Op cmd = OpCreate ∧ d_post (authority w cid (Cmd_ActorID cmd)) = Ok true ∧
     ∃ m n, Message_SenderID m = Cmd_ActorID cmd ∧ Message_ID m = id ∧ l' = inserted m n l) ∨
   (∃ m, find_msg (Cmd_MessageID cmd) l = Some m ∧
     ((Cmd_Op cmd = OpEdit ∧ Message_SenderID m = Cmd_ActorID cmd ∧
        l' = update_first (Cmd_MessageID cmd) (set_edit (Cmd_Text cmd) now) l) ∨
      (Cmd_Op cmd = OpDelete ∧
        (Message_SenderID m = Cmd_ActorID cmd ∨
         d_moderate (authority w cid (Cmd_ActorID cmd)) = Ok true) ∧
        l' = update_first (Cmd_MessageID cmd) (set_deleted now) l)))).
Proof.
  intros Hg Hb w' l l'. unfold l', w', l. rewrite Submit_eq.
  assert (∀ w1, quiet w w1 → messages_of cid (mdb w1) ≠ messages_of cid (mdb w) → False) as Hquiet.
  { intros w1 (_ & -> & _). done. }
  destruct (validate cmd) as [[]|e] eqn:Ev; [|done].
  destruct (bool_decide_reflect (Cmd_Op cmd = OpCreate)) as [Hop|Hcr].
  - pose proof (Send_effect t id obID now (create_input cmd) w Hg Hb) as He. cbv zeta in He.
    cbn [Send_ChatID Send_SenderID create_input] in He.
    destruct (d_post _) as [[]|e] eqn:Ep; [|intros []%Hquiet; apply He..].
    destruct He as [(_ & _ & Hdb) _]. rewrite Hdb.
    intros (-> & _ & c & _ & Hl)%InsertMessage_changes.
    split_and!; [done..|]. left. split_and!; [done..|]. eexists _, _. by split_and!; [| |exact Hl].
  - cbn [fst]. destruct (bool_decide_reflect (Cmd_Op cmd = OpEdit)) as [Hop|He].
    + pose proof (Edit_effect obID now (Cmd_ActorID cmd) (Cmd_ChatID cmd) (Cmd_MessageID cmd)
        (Cmd_Text cmd) w Hg) as He. cbv zeta in He.
      destruct (find_msg _ _) as [m|] eqn:Ef; [|intros []%Hquiet; apply He].
      destruct (bool_decide_reflect (Message_SenderID m = Cmd_ActorID cmd)) as [Hs|];
        [|intros []%Hquiet; apply He].
      destruct He as [(_ & _ & Hdb) _]. rewrite Hdb. unfold EditMessage.
      rewrite update_message_messages. destruct (decide _) as [<-|]; [|done]. intros _.
      split_and!; [done..|]. right. exists m. eauto 6.
    + pose proof (Delete_effect t obID now (Cmd_ActorID cmd) (Cmd_ChatID cmd) (Cmd_MessageID cmd) w
        Hg Hb) as Hd. cbv zeta in Hd.
      destruct (find_msg _ _) as [m|] eqn:Ef; [|intros []%Hquiet; apply Hd].
      destruct (may_delete _ _ _ _) as [[]|e] eqn:Em; [|intros []%Hquiet; apply Hd..].
      destruct Hd as [(_ & _ & Hdb) _]. rewrite Hdb. unfold DeleteMessage.
      rewrite update_message_messages. destruct (decide _) as [<-|]; [|done]. intros _.
      split_and!; [done..|]. right. exists m. split; [done|]. right. split; [|split; [|done]].
      * revert Ev. unfold validate. do 2 (rewrite bool_decide_false by done). by case_bool_decide.
      * unfold may_delete in Em. case_bool_decide; eauto.
Qed.

(** C2: Nobody writes without authority.  If a submitted command changes the log, then
    the command was well formed and: a create came from a user the chat authority lets
    post there, and appended one message, in the actor's name, to that chat; an edit came
    from the message's own sender, and changed that message only; a delete came from the
    sender or from a user the authority lets moderate, and tombstoned that message only. *)
Theorem Submit_authorized t id obID now cmd w cid :
  good w → no_bar (Cmd_ChatID cmd) = true →
  let w' := (Submit trace t id obID now cmd w).1 in
  let l := messages_of cid (mdb w) in
  let l' := messages_of cid (mdb w') in
  l' ≠ l →
  cid = Cmd_ChatID cmd ∧ validate cmd = Ok tt ∧
  ((Cmd_Op cmd = OpCreate ∧ d_post (authority w cid (Cmd_ActorID cmd)) = Ok true ∧
     ∃ m n, Message_SenderID m = Cmd_ActorID cmd ∧ Message_ID m = id ∧ l' = inserted m n l) ∨
   (∃ m, find_msg (Cmd_MessageID cmd) l = Some m ∧
     ((Cmd_Op cmd = OpEdit ∧ Message_SenderID m = Cmd_ActorID cmd ∧
        l' = update_first (Cmd_MessageID cmd) (set_edit (Cmd_Text cmd) now) l) ∨
      (Cmd_Op cmd = OpDelete ∧
        (Message_SenderID m = Cmd_ActorID cmd ∨
         d_moderate (authority w cid (Cmd_ActorID cmd)) = Ok true) ∧
        l' = update_first (Cmd_MessageID cmd) (set_deleted now) l)))).
Proof. intros Hg Hb. by apply Submit_changes. Qed.
End facts.

(** ** The single-process deployment

    The chat service of ChatService.v is the authority and shares its store with the
    message log; [B] is the state of the bus and the blobs. *)

Section local.
Context `{RangeOrder} {B : Type} `{Bus EventBody B}.
Variable media : option (string → list string → ChatDB → M B unit).

Definition Local : Type := Service * B.

(** A call on one half of the state. *)
Definition on_chat {A} (m : M Service A) : M Local A := λ w,
  let '(s, r) := m w.1 in ((s, w.2), r).
Definition on_rest {A} (m : M B A) : M Local A := λ w,
  let '(b, r) := m w.2 in ((w.1, b), r).

#[global] Instance local_store : HasStore Local := {|
  mdb w := cdb w.1;
  set_mdb db w := (set_cdb db w.1, w.2);
|}.

#[global] Instance local_Chats : Chats (Ticks * Ticks) Local := {|
  Chats_CanPost t c u := on_chat (CanPost t.1 t.2 c u);
  Chats_IsMember t c u := on_chat (IsMember t.1 t.2 c u);
  Chats_CanModerate t c u := on_chat (CanModerate t.1 t.2 c u);
|}.

#[global] Instance local_Bus : Bus EventBody Local := λ e, on_rest (Publish e).

#[global] Instance local_media : MediaCollector Local := {|
  DeleteIfUnreferenced :=
    (λ del reason refs w, on_rest (del reason refs (cdb w.1)) w) <$> media;
|}.

(** The answers the store determines. *)
Definition decided (db : ChatDB) (c u : string) : decision :=
  let m := members_of c db !! u in
  match chats db !! c with
  | None => mkDecision (Err store_ErrNotFound) (Err store_ErrNotFound) (Err store_ErrNotFound)
  | Some ch =>
      mkDecision (Ok (may_post (Chat_Type ch) m)) (Ok (bool_decide (is_Some m)))
        (Ok (may_moderate (Chat_Type ch) m))
  end.

(** Asking moves the service along [roleOf] only. *)
Lemma asks_roleOf t t' c u s :
  (CanPost t t' c u s).1 = (roleOf t t' c u s).1 ∧
  (IsMember t t' c u s).1 = (roleOf t t' c u s).1 ∧
  (CanModerate t t' c u s).1 = (roleOf t t' c u s).1.
Proof.
  unfold CanPost, IsMember, CanModerate. rewrite !M_bind_eq.
  destruct (roleOf t t' c u s) as [s' [[[ty r] mem]|e]]; [|done].
  by destruct mem, (bool_decide (ty = ChatChannel)), (Is1To1 ty).
Qed.

Lemma local_ask t t' c u s b :
  reachable s → no_bar c = true →
  let w' := ((roleOf t t' c u s).1, b) : Local in
  (CanPost t t' c u s).2 = d_post (decided (cdb s) c u) ∧
  (IsMember t t' c u s).2 = d_member (decided (cdb s) c u) ∧
  (CanModerate t t' c u s).2 = d_moderate (decided (cdb s) c u) ∧
  reachable w'.1 ∧ cdb w'.1 = cdb s.
Proof.
  intros Hs Hb w'. pose proof (decisions_exact s t t' c u (reachable_coherent s Hs) Hb) as Hd.
  cbv zeta in Hd. assert (reachable w'.1) by (by apply r_role). unfold decided.
  destruct (chats (cdb s) !! c); destruct Hd as (? & ? & _ & ? & ?); by split_and!.
Qed.

#[global] Instance local_laws : MessageLaws (Ticks * Ticks) Local.
Proof.
  refine {| good w := reachable w.1; authority w := decided (cdb w.1) |}; simpl.
  - done.
  - intros [t t'] c u [s b] Hs Hb. destruct (local_ask t t' c u s b Hs Hb) as (Hr & _ & _ & Hg & Hd).
    destruct (asks_roleOf t t' c u s) as (Hst & _ & _). unfold on_chat. simpl in *.
    destruct (CanPost t t' c u s) as [s' r]. simpl in *. subst. eexists. split; [done|].
    split_and!; [done..|intros; simpl; by rewrite Hd].
  - intros [t t'] c u [s b] Hs Hb. destruct (local_ask t t' c u s b Hs Hb) as (_ & Hr & _ & Hg & Hd).
    destruct (asks_roleOf t t' c u s) as (_ & Hst & _). unfold on_chat. simpl in *.
    destruct (IsMember t t' c u s) as [s' r]. simpl in *. subst. eexists. split; [done|].
    split_and!; [done..|intros; simpl; by rewrite Hd].
  - intros [t t'] c u [s b] Hs Hb. destruct (local_ask t t' c u s b Hs Hb) as (_ & _ & Hr & Hg & Hd).
    destruct (asks_roleOf t t' c u s) as (_ & _ & Hst). unfold on_chat. simpl in *.
    destruct (CanModerate t t' c u s) as [s' r]. simpl in *. subst. eexists. split; [done|].
    split_and!; [done..|intros; simpl; by rewrite Hd].
  - intros e [s b] Hs. unfold Publish, local_Bus, on_rest. simpl.
    by destruct (Publish e b).
  - intros del reason refs [s b] Hdel Hs. destruct media as [del0|]; [|done].
    injection Hdel as <-. unfold on_rest. simpl. by destruct (del0 reason refs (cdb s) b).
  - intros db [s b] Hs [Hk Hm]. simpl in *. split.
    + apply r_store; [done| |done]. intros cid c Hc. specialize (Hk cid). rewrite Hc in Hk.
      destruct (chats db !! cid) as [c'|]; [|done]. injection Hk as Hk. eauto.
    + intros c u. unfold decided, members_of. rewrite Hm. specialize (Hk c).
      destruct (chats db !! c), (chats (cdb s) !! c); simplify_eq/=; [by rewrite Hk | done].
Defined.
End local.

(** ** Witnesses *)

Section witnesses.
#[local] Existing Instance canonical_order.

(** A bus that keeps what is published, and no media collector. *)
#[local] Instance list_bus : Bus EventBody (list (Event EventBody)) := λ e b, (b ++ [e], Ok tt).
#[local] Instance no_media : MediaCollector (Local (B := list (Event EventBody))) :=
  local_media None.

Definition w_local : Local (B := list (Event EventBody)) := (w_channel, []).
Definition w_post (actor : string) : Command :=
  mkCommand OpCreate actor "c1" "" "k1" "hello" "" "" None 0.
Definition w_submit (actor : string) : Local (B := list (Event EventBody)) * result (Message * bool) :=
  Submit ∅ (w_ticks 2, w_ticks 3) "m1" "o1" 1000 (w_post actor) w_local.

Lemma Submit_authorized_witness :
  (w_submit "u2").2 = Err message_ErrForbidden ∧
  messages_of "c1" (mdb (w_submit "u1").1) ≠ messages_of "c1" (mdb w_local) ∧
  d_post (decided (cdb w_local.1) "c1" "u1") = Ok true.
Proof.
  split; [by vm_compute|].
  assert (messages_of "c1" (mdb (w_submit "u1").1) ≠ messages_of "c1" (mdb w_local)) as Hne
    by (by vm_compute).
  split; [exact Hne|].
  destruct (Submit_authorized (H0 := local_laws None) ∅ (w_ticks 2, w_ticks 3) "m1" "o1" 1000 (w_post "u1") w_local "c1"
    w_channel_reachable eq_refl Hne) as (_ & _ & [(_ & Hp & _)|(m & Hm & _)]);
    [exact Hp | discriminate Hm].
Defined.

Lemma reads_authorized_witness :
  (History (w_ticks 2, w_ticks 3) "u2" "c1" 0 10 w_local).2 = Ok [] ∧
  (History (w_ticks 2, w_ticks 3) "u3" "c1" 0 10 w_local).2 = Err message_ErrForbidden.
Proof.
  split.
  - exact (proj1 (reads_authorized (H0 := local_laws None) (w_ticks 2, w_ticks 3) "u2" "c1" w_local 0 10 "" 0 0
      w_channel_reachable eq_refl)).
  - exact (proj1 (reads_authorized (H0 := local_laws None) (w_ticks 2, w_ticks 3) "u3" "c1" w_local 0 10 "" 0 0
      w_channel_reachable eq_refl)).
Defined.
End witnesses.
