(* ===== verification/Sharded.v ===== *)
(** * The sharded message store

    [internal/store/sharded] sharded.go: the message store split over several backends by a
    hash of the chat id, and what [ExpireDue] of [internal/message] makes of it. *)

From S2P Require Import Prelude Bytes Model EventBus MemChats MemMessages MessageLog MessageService.

#[local] Set Warnings "-clear-no-such-hyp".

(** [store.MessageStore], and the optional capabilities a type assertion finds. *)
Class MessageStore (S : Type) := {
  ms_InsertMessage : Message → string → MakeOutbox → M S (Message * bool);
  ms_GetMessage : string → string → M S Message;
  ms_EditMessage : string → string → string → Z → MakeOutbox → M S Message;
  ms_DeleteMessage : string → string → Z → MakeOutbox → M S Message;
  ms_History : string → Z → Z → M S (list Message);
  ms_ThreadReader : S → option (string → string → Z → Z → M S (list Message));
  ms_Expirer : S → option (Z → Z → M S (list Message));
  ms_MediaChatResolver : S → option (string → Z → M S (list string));
  ms_MediaReferencer : S → option (string → M S bool);
}.

Section sharded.
Context {S : Type} `{MessageStore S}.
Abbreviation Shards := (list S).

Definition ShardIndex (shards : Shards) (chatID : string) : Z := fnv32a (sbytes chatID) `mod` len shards.

(** A call on the shard of the chat. *)
Definition shardFor {A} (chatID : string) (m : S → M S A) : M Shards A := λ shards,
  let i := Z.to_nat (ShardIndex shards chatID) in
  match shards !! i with
  | None => (shards, Err go_panic)
  | Some s => let '(s', r) := m s s in (<[i := s']> shards, r)
  end.

Definition InsertMessage (m : Message) (dedupKey : string) (mkOb : MakeOutbox) : M Shards (Message * bool) :=
  shardFor (Message_ChatID m) (λ _, ms_InsertMessage m dedupKey mkOb).
Definition GetMessage (chatID id : string) : M Shards Message := shardFor chatID (λ _, ms_GetMessage chatID id).
Definition EditMessage (chatID id text : string) (at_ : Z) (mkOb : MakeOutbox) : M Shards Message :=
  shardFor chatID (λ _, ms_EditMessage chatID id text at_ mkOb).
Definition DeleteMessage (chatID id : string) (at_ : Z) (mkOb : MakeOutbox) : M Shards Message :=
  shardFor chatID (λ _, ms_DeleteMessage chatID id at_ mkOb).
Definition History (chatID : string) (beforeSeq limit : Z) : M Shards (list Message) :=
  shardFor chatID (λ _, ms_History chatID beforeSeq limit).
Definition Thread (chatID rootID : string) (afterSeq limit : Z) : M Shards (list Message) :=
  shardFor chatID (λ s, match ms_ThreadReader s with None => fail store_ErrNotFound | Some tr => tr chatID rootID afterSeq limit end).

(** The loop of [ExpireMessages]: the shards after it, the messages and the errors. *)
Fixpoint expire_shards (now per : Z) (shards : Shards) : Shards * (list Message * list error) :=
  match shards with
  | [] => ([], ([], []))
  | sh :: shards =>
      let '(sh, (got, errs)) :=
        match ms_Expirer sh with
        | None => (sh, ([], []))
        | Some ex =>
            match ex now per sh with
            | (sh, Ok got) => (sh, (got, []))
            | (sh, Err e) => (sh, ([], [e]))
            end
        end in
      let '(shards, (out, errs')) := expire_shards now per shards in
      (sh :: shards, (got ++ out, errs ++ errs'))
  end.
Definition per_shard (limit : Z) (shards : Shards) : Z :=
  let per := limit `quot` len shards in if per <? 1 then 1 else per.
Definition ExpireMessages (now limit : Z) (shards : Shards) : Shards * (list Message * list error) :=
  expire_shards now (per_shard limit shards) shards.

(** The inner loop of [MediaRefChats]; [true] once the limit is reached. *)
Fixpoint take_chats (limit : Z) (seen : gset string) (out chats : list string) : bool * gset string * list string :=
  match chats with
  | [] => (false, seen, out)
  | c :: chats =>
      if bool_decide (c ∈ seen) then take_chats limit seen out chats
      else let out := out ++ [c] in
           if len out =? limit then (true, {[c]} ∪ seen, out) else take_chats limit ({[c]} ∪ seen) out chats
  end.
Fixpoint media_chats (ref : string) (limit : Z) (seen : gset string) (out : list string) (shards : Shards) : result (list string) :=
  match shards with
  | [] => Ok out
  | sh :: shards =>
      match ms_MediaChatResolver sh with
      | None => media_chats ref limit seen out shards
      | Some mr =>
          match (mr ref limit sh).2 with
          | Err e => Err e
          | Ok chats => match take_chats limit seen out chats with
                        | (true, _, out) => Ok out
                        | (false, seen, out) => media_chats ref limit seen out shards
                        end
          end
      end
  end.
Definition MediaRefChats (ref : string) (limit : Z) (shards : Shards) : result (list string) :=
  media_chats ref (if limit <=? 0 then 32 else limit) ∅ [] shards.

(** A reader's answer; the flag is returned beside an error. *)
Fixpoint MediaRefExists (ref : string) (shards : Shards) : bool * option error :=
  match shards with
  | [] => (false, None)
  | sh :: shards =>
      match ms_MediaReferencer sh with
      | None => (true, None)
      | Some mr =>
          match (mr ref sh).2 with
          | Err e => (true, Some e)
          | Ok true => (true, None)
          | Ok false => MediaRefExists ref shards
          end
      end
  end.

(** [message.Service.ExpireDue] over this store: the shards after it, the events handed to
    the bus, and the count or the joined errors. *)
Definition ExpireDue (trace : gmap string string) (now limit : Z) (shards : Shards) : Shards * (list (Event EventBody) * (Z + list error)) :=
  let '(shards, (expired, errs)) := ExpireMessages now limit shards in
  match errs with
  | [] => (shards, (expired_event trace now <$> expired, inl (len expired)))
  | _ => (shards, ([], inr errs))
  end.
End sharded.

(** The in-memory store as a shard. *)
#[global] Instance memory_shard `{RangeOrder} : MessageStore ChatDB := {|
  ms_InsertMessage := MemMessages.InsertMessage;
  ms_GetMessage := MemMessages.GetMessage;
  ms_EditMessage := MemMessages.EditMessage;
  ms_DeleteMessage := MemMessages.DeleteMessage;
  ms_History := MemMessages.History;
  ms_ThreadReader _ := Some MemMessages.Thread;
  ms_Expirer _ := Some MemMessages.ExpireMessages;
  ms_MediaChatResolver _ := Some MemMessages.MediaRefChats;
  ms_MediaReferencer _ := Some MemMessages.MediaRefExists;
|}.

(** ** One store and many *)

(** The calls of the message service, and what they answer. *)
Inductive shard_op :=
  | SInsert (m : Message) (dedupKey : string) (mkOb : MakeOutbox)
  | SGet (chatID id : string)
  | SEdit (chatID id text : string) (at_ : Z) (mkOb : MakeOutbox)
  | SDelete (chatID id : string) (at_ : Z) (mkOb : MakeOutbox)
  | SHistory (chatID : string) (beforeSeq limit : Z)
  | SThread (chatID rootID : string) (afterSeq limit : Z)
  | SMediaRefExists (ref : string).
Inductive reply :=
  | RInsert (r : result (Message * bool))
  | RMessage (r : result Message)
  | RPage (r : result (list Message))
  | RUsed (r : bool).

Section transparent.
Context `{RangeOrder}.

Definition reply_with {S A} (f : A → reply) (x : S * A) : S * reply := (x.1, f x.2).
Definition run_one (o : shard_op) (db : ChatDB) : ChatDB * reply :=
  match o with
  | SInsert m k ob => reply_with RInsert (MemMessages.InsertMessage m k ob db)
  | SGet c id => reply_with RMessage (MemMessages.GetMessage c id db)
  | SEdit c id text t ob => reply_with RMessage (MemMessages.EditMessage c id text t ob db)
  | SDelete c id t ob => reply_with RMessage (MemMessages.DeleteMessage c id t ob db)
  | SHistory c b l => reply_with RPage (MemMessages.History c b l db)
  | SThread c r a l => reply_with RPage (MemMessages.Thread c r a l db)
  | SMediaRefExists ref => (db, RUsed (bool_decide ((MemMessages.MediaRefExists ref db).2 = Ok true)))
  end.
Definition run_many (o : shard_op) (shards : list ChatDB) : list ChatDB * reply :=
  match o with
  | SInsert m k ob => reply_with RInsert (InsertMessage m k ob shards)
  | SGet c id => reply_with RMessage (GetMessage c id shards)
  | SEdit c id text t ob => reply_with RMessage (EditMessage c id text t ob shards)
  | SDelete c id t ob => reply_with RMessage (DeleteMessage c id t ob shards)
  | SHistory c b l => reply_with RPage (History c b l shards)
  | SThread c r a l => reply_with RPage (Thread c r a l shards)
  | SMediaRefExists ref => (shards, RUsed (MediaRefExists ref shards).1)
  end.
Fixpoint replies {S} (run : shard_op → S → S * reply) (ops : list shard_op) (s : S) : S * list reply :=
  match ops with
  | [] => (s, [])
  | o :: ops => let '(s, r) := run o s in let '(s, rs) := replies run ops s in (s, r :: rs)
  end.

(** The two stores say the same of a chat: its row, its log, which send a retry resolves to,
    and the events staged for it in their order. *)
Record agree (c : string) (a b : ChatDB) : Prop := mkAgree {
  ag_chat : chats a !! c = chats b !! c;
  ag_log : messages_of c a = messages_of c b;
  ag_retry s k : dedup_hit s c k a = dedup_hit s c k b;
  ag_staged : filter (λ r, Outbox_Key r = c) (outbox a) = filter (λ r, Outbox_Key r = c) (outbox b);
}.

(** The ids in use are among [used]. *)
Record known (used : gset string) (db : ChatDB) : Prop := mkKnown {
  kn_log c m : m ∈ messages_of c db → Message_ID m ∈ used;
  kn_dedup dk id : dedup db !! dk = Some id → id ∈ used;
}.

(** The shards hold the chats of [db], each on the shard its id maps to. *)
Record spread (used : gset string) (shards : list ChatDB) (db : ChatDB) : Prop := mkSpread {
  sp_some : shards ≠ [];
  sp_known : known used db ∧ Forall (known used) shards;
  sp_home c m : m ∈ messages_of c db → Message_ChatID m = c;
  sp_agree c s : shards !! Z.to_nat (ShardIndex shards c) = Some s → agree c s db;
  sp_foreign i s c : shards !! i = Some s → i ≠ Z.to_nat (ShardIndex shards c) → messages_of c s = [];
}.

(** Events carry their message's chat; a new message has a new id, and its retry key is not one
    the sender has used in another chat. *)
Definition keyed_by_chat (mkOb : MakeOutbox) : Prop := ∀ m r, mkOb m = Some r → Outbox_Key r = Message_ChatID m.
Definition admissible (used : gset string) (db : ChatDB) (o : shard_op) : Prop :=
  match o with
  | SInsert m k ob =>
      keyed_by_chat ob ∧ Message_ID m ∉ used ∧ (∀ c, c ≠ Message_ChatID m → dedup_hit (Message_SenderID m) c k db = None)
  | SEdit _ _ _ _ ob | SDelete _ _ _ ob => keyed_by_chat ob
  | _ => True
  end.
Definition new_ids (o : shard_op) : gset string := match o with SInsert m _ _ => {[Message_ID m]} | _ => ∅ end.
Fixpoint all_admissible (used : gset string) (db : ChatDB) (ops : list shard_op) : Prop :=
  match ops with
  | [] => True
  | o :: ops => admissible used db o ∧ all_admissible (new_ids o ∪ used) (run_one o db).1 ops
  end.
End transparent.

(** ** Lemmas *)

Section local.
Context `{RangeOrder}.

Lemma agree_refl c db : agree c db db.
Proof. done. Qed.
Lemma agree_sym c a b : agree c a b → agree c b a.
Proof. intros [? ? ? ?]. by split. Qed.
Lemma agree_trans c x y z : agree c x y → agree c y z → agree c x z.
Proof. intros [? ? Hr ?] [? ? Hr' ?]. split; [congruence..|intros s k; by rewrite Hr|congruence]. Qed.

Definition hit (e : option string) (l : list Message) : option Message := e ≫= λ id, find_msg id l.
Lemma dedup_hit_hit s c k db :
  dedup_hit s c k db = if bool_decide (k = "") then None else hit (dedup db !! dedup_key s k) (messages_of c db).
Proof. done. Qed.

Lemma find_msg_None id l : find_msg id l = None ↔ id ∉ Message_ID <$> l.
Proof.
  induction l as [|m l IH]; cbn; [split; [intros _ ?%elem_of_nil|]; done|]. rewrite elem_of_cons. case_bool_decide as E; [|rewrite IH; naive_solver].
  split; [done|]. intros Hn. destruct Hn. by left.
Qed.
(** Two entries that find the same message, or none, still do when the log grows by ids neither
    has. *)
Lemma hit_grow e1 e2 l l' extra :
  hit e1 l = hit e2 l → (Message_ID <$> l') = (Message_ID <$> l) ++ extra → (∀ id, id ∈ extra → e1 ≠ Some id ∧ e2 ≠ Some id) → hit e1 l' = hit e2 l'.
Proof.
  intros Hh Hl Hx. destruct (hit e1 l) as [m|] eqn:E1; symmetry in Hh.
  - unfold hit in *. apply bind_Some in E1 as (i & -> & Hi). apply bind_Some in Hh as (j & -> & Hj).
    apply find_msg_Some in Hi as [_ <-], Hj as [_ <-]. done.
  - assert (∀ e, hit e l = None → (∀ id, id ∈ extra → e ≠ Some id) → hit e l' = None) as Hn.
    { intros [id|] He Hex; [|done]. cbn in *. apply find_msg_None. rewrite Hl, elem_of_app. intros [?|?]; [by apply find_msg_None in He|]. by apply (Hex id). }
    rewrite !Hn; [done|done|by intros; apply Hx|done|by intros; apply Hx].
Qed.

Lemma update_first_ids id f l : (∀ m, Message_ID (f m) = Message_ID m) → Message_ID <$> update_first id f l = Message_ID <$> l.
Proof. intros Hf. induction l as [|m l IH]; [done|]. cbn. case_bool_decide; cbn; [by rewrite Hf|by rewrite IH]. Qed.
Lemma elem_of_update_first id f l m : m ∈ update_first id f l → m ∈ l ∨ ∃ m0, m0 ∈ l ∧ m = f m0.
Proof.
  induction l as [|x l IH]; cbn; [by intros ?%elem_of_nil|]. case_bool_decide; rewrite !elem_of_cons; [intros [->|?]|intros [->|?%IH]].
  - right. exists x. split; [by left|done].
  - by left; right.
  - by left; left.
  - destruct H1 as [?|(m0 & ? & ->)]; [by left; right|]. right. exists m0. split; [by right|done].
Qed.

Lemma messages_of_put_eq c l db : messages_of c (put_messages c l db) = l.
Proof. unfold messages_of, put_messages. cbn. by rewrite lookup_insert_eq. Qed.
Lemma messages_of_put_ne c c' l db : c' ≠ c → messages_of c' (put_messages c l db) = messages_of c' db.
Proof. intros Hne. unfold messages_of, put_messages. cbn. by rewrite lookup_insert_ne. Qed.

Lemma messages_of_staged c o db : messages_of c (set_outbox o db) = messages_of c db.
Proof. done. Qed.

Lemma update_message_eq c id f ob db :
  update_message c id f ob db =
  match find_msg id (messages_of c db) with
  | None => (db, Err store_ErrNotFound)
  | Some m => (set_outbox (outbox db ++ option_list (ob (f m))) (put_messages c (update_first id f (messages_of c db)) db), Ok (f m))
  end.
Proof.
  unfold update_message. rewrite M_bind_eq. cbn [get]. destruct (find_msg id (messages_of c db)) as [m|]; [|done].
  unfold stageOutboxLocked, modify. cbn. destruct (ob (f m)); cbn; [done|]. by rewrite app_nil_r.
Qed.
Lemma InsertMessage_eq m k ob db :
  MemMessages.InsertMessage m k ob db =
  match dedup_hit (Message_SenderID m) (Message_ChatID m) k db with
  | Some ex => (db, Ok (ex, true))
  | None =>
      match chats db !! Message_ChatID m with
      | None => (db, Err store_ErrNotFound)
      | Some ch =>
          let n := u64 (Chat_LastSeq ch + 1) in
          let l := inserted m n (messages_of (Message_ChatID m) db) in
          let out := default (set_Seq n m) (last l) in
          (mkChatDB (<[Message_ChatID m := set_LastSeq n ch]> (chats db)) (directIndex db) (members db) (<[Message_ChatID m := l]> (messages db))
             (if bool_decide (k = "") then dedup db else <[dedup_key (Message_SenderID m) k := Message_ID m]> (dedup db)) (reads db)
             (outbox db ++ option_list (ob out)) (outboxSent db), Ok (out, false))
      end
  end.
Proof.
  unfold MemMessages.InsertMessage. rewrite M_bind_eq. cbn [get]. destruct (dedup_hit _ _ _ _); [done|]. destruct (chats db !! _) as [ch|]; [|done].
  cbv zeta. fold (inserted m (u64 (Chat_LastSeq ch + 1)) (messages_of (Message_ChatID m) db)).
  unfold stageOutboxLocked, modify. cbn. destruct (ob _), (bool_decide (k = "")); cbn; by rewrite ?app_nil_r.
Qed.

Lemma filter_app_other (c : string) (l : list OutboxRecord) (o : option OutboxRecord) :
  (∀ r, o = Some r → Outbox_Key r ≠ c) → filter (λ r, Outbox_Key r = c) (l ++ option_list o) = filter (λ r, Outbox_Key r = c) l.
Proof.
  intros Ho. rewrite filter_app. destruct o as [r|]; [|by rewrite app_nil_r].
  change (option_list (Some r)) with [r]. rewrite filter_cons_False by by apply Ho. by rewrite app_nil_r.
Qed.

Lemma update_agree c id f ob a b : keeps f → agree c a b →
  (update_message c id f ob a).2 = (update_message c id f ob b).2 ∧ agree c (update_message c id f ob a).1 (update_message c id f ob b).1.
Proof.
  intros Hf Hab. pose proof Hab as [Hc Hl Hr Ho]. rewrite !update_message_eq, Hl. destruct (find_msg id (messages_of c b)) as [m|]; [|done]. split; [done|]. cbn [fst]. split.
  - done.
  - by rewrite !messages_of_staged, !messages_of_put_eq.
  - intros s k. specialize (Hr s k). rewrite !dedup_hit_hit in *. case_bool_decide; [done|]. rewrite !messages_of_staged, !messages_of_put_eq. rewrite Hl in Hr.
    eapply (hit_grow _ _ _ _ []); [exact Hr| |by intros ? ?%elem_of_nil]. rewrite app_nil_r. apply update_first_ids. intros x. by injection (Hf x).
  - cbn. by rewrite !filter_app, Ho.
Qed.
Lemma update_elsewhere c c' id f ob db : c' ≠ c → keeps f → keyed_by_chat ob → (∀ m, m ∈ messages_of c db → Message_ChatID m = c) →
  agree c' db (update_message c id f ob db).1.
Proof.
  intros Hne Hf Hob Hh. rewrite update_message_eq. destruct (find_msg id (messages_of c db)) as [m|] eqn:E; [|done]. cbn [fst]. split.
  - done.
  - by rewrite messages_of_staged, messages_of_put_ne.
  - intros s k. rewrite !dedup_hit_hit. case_bool_decide; [done|]. by rewrite messages_of_staged, messages_of_put_ne.
  - cbn. rewrite filter_app_other; [done|]. intros r Hr. rewrite (Hob _ _ Hr). injection (Hf m) as _ -> _. apply find_msg_Some in E as [Hin _]. rewrite (Hh m Hin). congruence.
Qed.

Lemma inserted_ids m n l : Message_ID <$> inserted m n l = (Message_ID <$> l) ++ [Message_ID m].
Proof. unfold inserted. case_bool_decide; [|rewrite update_first_ids by done]; by rewrite fmap_app. Qed.
Lemma inserted_chats m n l : Message_ChatID <$> inserted m n l = (Message_ChatID <$> l) ++ [Message_ChatID m].
Proof.
  unfold inserted. case_bool_decide; [by rewrite fmap_app|].
  assert (∀ id l, Message_ChatID <$> update_first id (λ ex, set_ReplyCount (i32 (Message_ReplyCount ex + 1)) ex) l = Message_ChatID <$> l) as ->; [|by rewrite fmap_app].
  intros id l'. induction l' as [|x l' IH]; [done|]. cbn. case_bool_decide; cbn; [done|by rewrite IH].
Qed.
Lemma inserted_last m n l : Message_ChatID (default (set_Seq n m) (last (inserted m n l))) = Message_ChatID m.
Proof.
  pose proof (inserted_chats m n l) as E. apply (f_equal last) in E. rewrite last_snoc, fmap_last in E. destruct (last _); [|done]. by injection E.
Qed.

Lemma insert_agree used m k ob a b : let c := Message_ChatID m in
  known used a → known used b → Message_ID m ∉ used → agree c a b →
  (MemMessages.InsertMessage m k ob a).2 = (MemMessages.InsertMessage m k ob b).2 ∧
  agree c (MemMessages.InsertMessage m k ob a).1 (MemMessages.InsertMessage m k ob b).1.
Proof.
  intros c Ha Hb Hid Hab. pose proof Hab as [Hc Hl Hr Ho]. rewrite !InsertMessage_eq. fold c. rewrite (Hr (Message_SenderID m) k).
  destruct (dedup_hit _ _ _ b) as [ex|]; [done|]. rewrite Hc. destruct (chats b !! c) as [ch|]; [|done]. cbv zeta. rewrite Hl. split; [done|].
  set (l := inserted _ _ _). split; cbn.
  - by rewrite !lookup_insert_eq.
  - unfold messages_of. cbn. by rewrite !lookup_insert_eq.
  - intros s k'. specialize (Hr s k'). rewrite !dedup_hit_hit in *. case_bool_decide; [done|]. unfold messages_of. cbn. rewrite !lookup_insert_eq. cbn.
    assert (hit (dedup a !! dedup_key s k') l = hit (dedup b !! dedup_key s k') l) as Hg.
    { eapply hit_grow; [rewrite Hl in Hr; exact Hr|apply inserted_ids|]. intros id ->%list_elem_of_singleton.
      split; intros Hd; apply Hid; [by eapply (kn_dedup _ _ Ha)|by eapply (kn_dedup _ _ Hb)]. }
    case_bool_decide; [exact Hg|]. destruct (decide (dedup_key s k' = dedup_key (Message_SenderID m) k)) as [->|Hne]; [by rewrite !lookup_insert_eq|].
    by rewrite !lookup_insert_ne.
  - by rewrite !filter_app, Ho.
Qed.
Lemma insert_elsewhere used m k ob c' db : c' ≠ Message_ChatID m →
  known used db → Message_ID m ∉ used → keyed_by_chat ob → dedup_hit (Message_SenderID m) c' k db = None →
  agree c' db (MemMessages.InsertMessage m k ob db).1.
Proof.
  intros Hne Hk Hid Hob Hd. rewrite InsertMessage_eq. destruct (dedup_hit _ (Message_ChatID m) _ db) as [ex|] eqn:E; [done|]. destruct (chats db !! Message_ChatID m) as [ch|]; [|apply agree_refl].
  cbv zeta. set (l := inserted _ _ _). split; cbn.
  - by rewrite lookup_insert_ne.
  - unfold messages_of. cbn. by rewrite lookup_insert_ne.
  - intros s k'. rewrite !dedup_hit_hit. case_bool_decide; [done|]. unfold messages_of. cbn. rewrite lookup_insert_ne by done. fold (messages_of c' db).
    case_bool_decide; [done|]. destruct (decide (dedup_key s k' = dedup_key (Message_SenderID m) k)) as [->|Hk']; [|by rewrite lookup_insert_ne].
    rewrite lookup_insert_eq. rewrite dedup_hit_hit, bool_decide_false in Hd by done. rewrite Hd. symmetry. cbn. apply find_msg_None. intros (x & Hx & Hin)%list_elem_of_fmap. apply Hid. rewrite Hx. by eapply (kn_log _ _ Hk).
  - rewrite filter_app_other; [done|]. intros r Hr. rewrite (Hob _ _ Hr). unfold l. rewrite inserted_last. congruence.
Qed.

(** *** One call, on one store *)

Definition chat_of (o : shard_op) : option string :=
  match o with
  | SInsert m _ _ => Some (Message_ChatID m)
  | SGet c _ | SEdit c _ _ _ _ | SDelete c _ _ _ | SHistory c _ _ | SThread c _ _ _ => Some c
  | SMediaRefExists _ => None
  end.
Definition at_home (db : ChatDB) : Prop := ∀ c m, m ∈ messages_of c db → Message_ChatID m = c.
(** What [admissible] asks, seen from one other chat. *)
Definition unused_key (o : shard_op) (c : string) (db : ChatDB) : Prop :=
  match o with SInsert m k _ => dedup_hit (Message_SenderID m) c k db = None | _ => True end.
Definition fresh_id (used : gset string) (o : shard_op) : Prop := match o with SInsert m _ _ => Message_ID m ∉ used | _ => True end.
Definition staged_by_chat (o : shard_op) : Prop :=
  match o with SInsert _ _ ob | SEdit _ _ _ _ ob | SDelete _ _ _ ob => keyed_by_chat ob | _ => True end.

Lemma reply_with_agree {A} (f : A → reply) c (x y : ChatDB * A) :
  x.2 = y.2 ∧ agree c x.1 y.1 → (reply_with f x).2 = (reply_with f y).2 ∧ agree c (reply_with f x).1 (reply_with f y).1.
Proof. intros [E ?]. unfold reply_with. cbn. by rewrite E. Qed.
Lemma one_agree used o c a b : chat_of o = Some c → known used a → known used b → fresh_id used o → agree c a b →
  (run_one o a).2 = (run_one o b).2 ∧ agree c (run_one o a).1 (run_one o b).1.
Proof.
  intros Hc Ha Hb Hid Hab. pose proof (ag_log _ _ _ Hab) as Hl. destruct o; cbn in Hc; try done; injection Hc as <-; cbn [run_one]; apply reply_with_agree.
  - by apply (insert_agree used).
  - unfold MemMessages.GetMessage. rewrite !M_bind_eq. cbn [get]. rewrite Hl. by destruct (find_msg _ _).
  - by apply update_agree.
  - by apply update_agree.
  - unfold MemMessages.History, gets. cbn. by rewrite Hl.
  - unfold MemMessages.Thread, gets. cbn. by rewrite Hl.
Qed.
Lemma GetMessage_state c id db : (MemMessages.GetMessage c id db).1 = db.
Proof. unfold MemMessages.GetMessage. rewrite M_bind_eq. cbn [get]. by destruct (find_msg _ _). Qed.
Lemma one_frame used o c c' db : chat_of o = Some c → c' ≠ c → known used db → fresh_id used o → staged_by_chat o →
  (∀ m, m ∈ messages_of c db → Message_ChatID m = c) → unused_key o c' db → agree c' db (run_one o db).1.
Proof.
  intros Hc Hne Hk Hid Hob Hh Hu. destruct o; cbn in Hc; try done; injection Hc as <-; cbn [run_one reply_with fst].
  - by apply (insert_elsewhere used).
  - rewrite GetMessage_state. apply agree_refl.
  - by apply update_elsewhere.
  - by apply update_elsewhere.
Qed.

Lemma update_message_rows c id f ob db (P : Message → Prop) : keeps f → (∀ m, P m → P (f m)) →
  (∀ c' m, m ∈ messages_of c' db → P m) → ∀ c' m, m ∈ messages_of c' (update_message c id f ob db).1 → P m.
Proof.
  intros Hf Hp Hm c' m. rewrite update_message_messages. case_decide; [|apply Hm]. intros [?|(m0 & ? & ->)]%elem_of_update_first; eauto.
Qed.
Lemma update_message_dedup c id f ob db : dedup (update_message c id f ob db).1 = dedup db.
Proof. rewrite update_message_eq. by destruct (find_msg _ _). Qed.
Lemma update_known used c id f ob db : keeps f → known used db → known used (update_message c id f ob db).1.
Proof.
  intros Hf [Hl Hd]. split; [|by rewrite update_message_dedup]. apply update_message_rows; [done| |done].
  intros m. by injection (Hf m) as ->.
Qed.
Lemma known_mono used used' db : used ⊆ used' → known used db → known used' db.
Proof. intros Hs [Hl Hd]. split; eauto. Qed.
Lemma insert_known used m k ob db : known used db → known ({[Message_ID m]} ∪ used) (MemMessages.InsertMessage m k ob db).1.
Proof.
  intros Hk. assert (known ({[Message_ID m]} ∪ used) db) as Hk' by (eapply known_mono; [|done]; set_solver).
  rewrite InsertMessage_eq. destruct (dedup_hit _ _ _ _); [done|]. destruct (chats db !! _) as [ch|]; [|done]. cbv zeta. split; cbn.
  - intros c x. unfold messages_of. cbn. destruct (decide (c = Message_ChatID m)) as [->|Hne]; [|rewrite lookup_insert_ne by done; apply Hk'].
    rewrite lookup_insert_eq. cbn. intros Hx. apply (list_elem_of_fmap_2 Message_ID) in Hx. rewrite inserted_ids, elem_of_app, list_elem_of_singleton in Hx.
    destruct Hx as [(y & -> & Hy)%list_elem_of_fmap| ->]; [by eapply (kn_log _ _ Hk')|set_solver].
  - intros dk id. case_bool_decide; [apply Hk'|]. intros [[_ <-]|[_ ?]]%lookup_insert_Some; [set_solver|by eapply (kn_dedup _ _ Hk')].
Qed.
Lemma one_known used o db : known used db → known (new_ids o ∪ used) (run_one o db).1.
Proof.
  intros Hk. assert (∀ u : gset string, u ∪ used = used → known used db → known (u ∪ used) db) as Hm by (intros u ->; done).
  destruct o; cbn [run_one reply_with fst new_ids]; rewrite ?(left_id_L ∅ (∪)); rewrite ?GetMessage_state; auto using insert_known;
    by apply update_known.
Qed.
Lemma one_home o db : at_home db → at_home (run_one o db).1.
Proof.
  intros Hh. destruct o as [m k ob|c id|c id text t ob|c id t ob| | |]; cbn [run_one reply_with fst]; rewrite ?GetMessage_state; try done.
  - rewrite InsertMessage_eq. destruct (dedup_hit _ _ _ _); [done|]. destruct (chats db !! _) as [ch|]; [|done]. cbv zeta. intros c x. cbn. unfold messages_of. cbn.
    destruct (decide (c = Message_ChatID m)) as [->|Hne]; [|rewrite lookup_insert_ne by done; apply Hh]. rewrite lookup_insert_eq. cbn.
    intros Hx. apply (list_elem_of_fmap_2 Message_ChatID) in Hx. rewrite inserted_chats, elem_of_app, list_elem_of_singleton in Hx.
    destruct Hx as [(y & -> & Hy)%list_elem_of_fmap| ->]; [by apply Hh|done].
  - intros c' x. unfold MemMessages.EditMessage. rewrite update_message_messages. case_decide; [|apply Hh]. intros [Hx|(y & Hy & ->)]%elem_of_update_first; [exact (Hh _ _ Hx)|exact (Hh _ _ Hy)].
  - intros c' x. unfold MemMessages.DeleteMessage. rewrite update_message_messages. case_decide; [|apply Hh]. intros [Hx|(y & Hy & ->)]%elem_of_update_first; [exact (Hh _ _ Hx)|exact (Hh _ _ Hy)].
Qed.
End local.

(** *** One call, over the shards *)

Section step.
Context `{RangeOrder}.
Implicit Types shards : list ChatDB.

Lemma ShardIndex_insert shards i s c : ShardIndex (<[i := s]> shards) c = ShardIndex shards c.
Proof. unfold ShardIndex, len. by rewrite length_insert. Qed.
Lemma ShardIndex_lookup shards c : shards ≠ [] → is_Some (shards !! Z.to_nat (ShardIndex shards c)).
Proof.
  intros Hs. apply lookup_lt_is_Some. unfold ShardIndex. destruct shards as [|x shards]; [done|].
  pose proof (Z.mod_pos_bound (fnv32a (sbytes c)) (len (x :: shards))). unfold len in *. cbn [length] in *. lia.
Qed.
Lemma run_many_eq o c shards s : chat_of o = Some c → shards !! Z.to_nat (ShardIndex shards c) = Some s →
  run_many o shards = (<[Z.to_nat (ShardIndex shards c) := (run_one o s).1]> shards, (run_one o s).2).
Proof.
  intros Hc Hs. destruct o; cbn in Hc; try done; injection Hc as <-; cbn [run_many run_one reply_with];
    unfold InsertMessage, GetMessage, EditMessage, DeleteMessage, History, Thread, shardFor, reply_with; rewrite Hs; cbn;
    match goal with |- context [let '(_, _) := ?x in _] => by destruct x | _ => done end.
Qed.

Lemma admissible_parts used db o : admissible used db o ↔
  staged_by_chat o ∧ fresh_id used o ∧ ∀ c c', chat_of o = Some c → c' ≠ c → unused_key o c' db.
Proof.
  destruct o; cbn; naive_solver.
Qed.

Lemma spread_chat used o c shards db : chat_of o = Some c → spread used shards db → admissible used db o →
  (run_many o shards).2 = (run_one o db).2 ∧ spread (new_ids o ∪ used) (run_many o shards).1 (run_one o db).1.
Proof.
  intros Hc [Hsome [Hkdb Hks] Hhome Hag Hfor] (Hob & Hid & Hu)%admissible_parts. destruct (ShardIndex_lookup shards c Hsome) as [s Hs].
  rewrite (run_many_eq o c shards s) by done. cbn [fst snd]. set (i := Z.to_nat (ShardIndex shards c)) in *.
  assert (known used s) as Hk by by eapply Forall_lookup_1. pose proof (Hag c s Hs) as Hcs.
  assert (∀ m, m ∈ messages_of c s → Message_ChatID m = c) as Hhs by (rewrite (ag_log _ _ _ Hcs); apply Hhome).
  destruct (one_agree used o c s db Hc Hk Hkdb Hid Hcs) as [Hr Hc'].
  assert (∀ c', c' ≠ c → agree c' db (run_one o db).1) as Hfdb by (intros c' Hne; eapply one_frame; eauto; apply Hhome).
  split; [done|]. split.
  - intros E. apply (f_equal length) in E. rewrite length_insert in E. by destruct shards.
  - split; [by apply one_known|]. apply Forall_insert; [|by apply one_known]. eapply Forall_impl; [done|]. intros x. apply known_mono. set_solver.
  - by apply one_home.
  - intros c' s'. rewrite ShardIndex_insert. destruct (decide (Z.to_nat (ShardIndex shards c') = i)) as [Ei|Ei].
    + rewrite Ei, list_lookup_insert_eq by by eapply lookup_lt_Some. intros [= <-]. destruct (decide (c' = c)) as [->|Hne]; [done|].
      assert (agree c' s db) as Hc's by (apply Hag; by rewrite Ei). apply (agree_trans _ _ db); [|by apply Hfdb]. apply (agree_trans _ _ s); [|done]. apply agree_sym.
      eapply one_frame; eauto. specialize (Hu c c' Hc Hne). destruct o; try done. cbn in *. by rewrite (ag_retry _ _ _ Hc's).
    + rewrite list_lookup_insert_ne by done. intros Hs'. pose proof (Hag c' s' Hs') as Ha. destruct (decide (c' = c)) as [->|Hne]; [done|].
      apply (agree_trans _ _ db); [done|by apply Hfdb].
  - intros j x c'. rewrite ShardIndex_insert. destruct (decide (j = i)) as [->|Hj].
    + rewrite list_lookup_insert_eq by by eapply lookup_lt_Some. intros [= <-] Hji. assert (c' ≠ c) as Hne by (intros ->; by apply Hji).
      pose proof (Hfor i s c' Hs Hji) as Hempty. rewrite <- Hempty. symmetry. apply ag_log. eapply one_frame; eauto.
      destruct o; try done. cbn. rewrite dedup_hit_hit, Hempty. case_bool_decide; [done|]. unfold hit. by destruct (dedup s !! _).
    + rewrite list_lookup_insert_ne by done. apply Hfor.
Qed.

Lemma MediaRefExists_true ref db :
  (MemMessages.MediaRefExists ref db).2 = Ok true ↔ ref ≠ "" ∧ ∃ c m, m ∈ messages_of c db ∧ refers ref m = true.
Proof.
  unfold MemMessages.MediaRefExists. case_bool_decide as Hr; [cbn; naive_solver|]. cbn. split.
  - intros [= Hx]. split; [done|]. apply existsb_exists in Hx as ([c l] & Hin & (m & Hm & Href)%existsb_exists).
    apply list_elem_of_In, elem_of_range_map in Hin. exists c, m. split; [|done]. unfold messages_of. rewrite Hin. by apply list_elem_of_In.
  - intros (_ & c & m & Hm & Href). f_equal. apply existsb_exists. unfold messages_of in Hm. destruct (messages db !! c) as [l|] eqn:E; [|by apply elem_of_nil in Hm].
    exists (c, l). split; [by apply list_elem_of_In, elem_of_range_map|]. apply existsb_exists. exists m. split; [by apply list_elem_of_In|done].
Qed.
Lemma MediaRefExists_bool ref db : ∃ b, (MemMessages.MediaRefExists ref db).2 = Ok b.
Proof. unfold MemMessages.MediaRefExists. case_bool_decide; by eexists. Qed.
Lemma MediaRefExists_shards ref shards :
  (MediaRefExists ref shards).1 = true ↔ ∃ s, s ∈ shards ∧ (MemMessages.MediaRefExists ref s).2 = Ok true.
Proof.
  induction shards as [|s shards IH]; cbn; [split; [done|by intros (s & ?%elem_of_nil & _)]|].
  setoid_rewrite elem_of_cons. destruct (MediaRefExists_bool ref s) as [[] E]; rewrite E; cbn.
  - split; [|done]. intros _. exists s. auto.
  - rewrite IH. split; [naive_solver|]. intros (x & [->|?] & Hx); [congruence|eauto].
Qed.
Lemma spread_media used ref shards db : spread used shards db →
  (MediaRefExists ref shards).1 = bool_decide ((MemMessages.MediaRefExists ref db).2 = Ok true).
Proof.
  intros [Hsome _ _ Hag Hfor]. apply eq_true_iff_eq. rewrite bool_decide_eq_true, MediaRefExists_shards. setoid_rewrite MediaRefExists_true. split.
  - intros (s & [i Hi]%list_elem_of_lookup & Hr & c & m & Hm & Href). split; [done|]. exists c, m. split; [|done].
    destruct (decide (i = Z.to_nat (ShardIndex shards c))) as [->|Hne]; [by rewrite <- (ag_log _ _ _ (Hag _ _ Hi))|].
    rewrite (Hfor i s c Hi Hne) in Hm. by apply elem_of_nil in Hm.
  - intros (Hr & c & m & Hm & Href). destruct (ShardIndex_lookup shards c Hsome) as [s Hs]. exists s. split; [by eapply list_elem_of_lookup_2|].
    split; [done|]. exists c, m. by rewrite (ag_log _ _ _ (Hag c s Hs)).
Qed.

Lemma spread_step used o shards db : spread used shards db → admissible used db o →
  (run_many o shards).2 = (run_one o db).2 ∧ spread (new_ids o ∪ used) (run_many o shards).1 (run_one o db).1.
Proof.
  intros Hs Ha. destruct (chat_of o) as [c|] eqn:Ec; [by eapply spread_chat|]. destruct o; try done. cbn. rewrite (left_id_L ∅ (∪)).
  split; [|done]. f_equal. by eapply spread_media.
Qed.

End step.

(** ** Expiry *)

Section expiry.
Context {S : Type} `{MessageStore S}.
Implicit Types shards : list S.

Lemma expire_shards_lookup now per shards i sh ex sh' r :
  shards !! i = Some sh → ms_Expirer sh = Some ex → ex now per sh = (sh', r) →
  (expire_shards now per shards).1 !! i = Some sh' ∧
  match r with Ok got => got ⊆ (expire_shards now per shards).2.1 | Err e => e ∈ (expire_shards now per shards).2.2 end.
Proof.
  revert i. induction shards as [|x shards IH]; intros [|i] Hi He Hr; try done; cbn in *.
  - injection Hi as ->. rewrite He, Hr. destruct (expire_shards now per shards) as [s [out errs]], r as [got|e]; cbn; split; try done.
    + intros m Hm. apply elem_of_app. by left.
    + apply elem_of_cons. by left.
  - destruct (IH i Hi He Hr) as [Hl Hout]. destruct (expire_shards now per shards) as [s [out errs]].
    match goal with |- context [let '(_, _) := ?x in _] => destruct x as [x' [got' errs']] end. cbn in *. split; [done|].
    destruct r as [got|e]; cbn in *; [intros m Hm; apply elem_of_app; right; by apply Hout|apply elem_of_app; by right].
Qed.

(** A shard that cannot be reached silences the others.  The healthy shards are not held up:
    each expires its messages.  But the service drops what they returned together with the
    error, so no deletion event is published for the messages that have just become
    tombstones. *)
Theorem expiry_unannounced trace now limit shards i j sh sj ex exj sh' sj' got e :
  shards !! i = Some sh → ms_Expirer sh = Some ex → ex now (per_shard limit shards) sh = (sh', Ok got) →
  shards !! j = Some sj → ms_Expirer sj = Some exj → exj now (per_shard limit shards) sj = (sj', Err e) →
  got ⊆ (ExpireMessages now limit shards).2.1 ∧
  ∃ shards' errs, ExpireDue trace now limit shards = (shards', ([], inr errs)) ∧ e ∈ errs ∧ shards' !! i = Some sh'.
Proof.
  intros Hi Hex Hg Hj Hexj He. unfold ExpireDue, ExpireMessages.
  destruct (expire_shards_lookup now _ shards i sh ex sh' _ Hi Hex Hg) as [Hl Hsub]. destruct (expire_shards_lookup now _ shards j sj exj sj' _ Hj Hexj He) as [_ Hin].
  destruct (expire_shards now (per_shard limit shards) shards) as [s [out errs]]. cbn in *. split; [done|].
  destruct errs as [|e' errs]; [by apply elem_of_nil in Hin|]. by eexists _, _.
Qed.
End expiry.

(** ** Witnesses *)

Section witnesses.
#[local] Existing Instance canonical_order.

Definition w_chat (id : string) : Chat := mkChat id ChatGroup "" "u1" 0 0 "".
Definition w_base : ChatDB := set_chats {["c1" := w_chat "c1"; "c2" := w_chat "c2"]} MemChats.New.
Definition w_message (id chat text : string) (expires : Z) : Message := mkMessage id chat "u1" 0 text "" None "" "" 0 None expires false false 1 0.
Definition w_ops : list shard_op :=
  [SInsert (w_message "m1" "c1" "hello" 0) "k1" (outboxFor ∅ "o1" "created"); SInsert (w_message "m2" "c2" "there" 0) "k2" (outboxFor ∅ "o2" "created");
   SInsert (w_message "m3" "c1" "again" 0) "" (outboxFor ∅ "o3" "created"); SEdit "c2" "m2" "edited" 5 (outboxFor ∅ "o4" "edited");
   SHistory "c1" 0 10; SGet "c2" "m2"; SMediaRefExists "ref"].

Lemma w_spread : spread ∅ [w_base; w_base] w_base.
Proof.
  assert (∀ c, messages_of c w_base = []) as Hm by (intros c; unfold messages_of; cbn; by rewrite lookup_empty).
  assert (known ∅ w_base) as Hk by (split; [intros c m; rewrite Hm; by intros ?%elem_of_nil|intros dk id; cbn; by rewrite lookup_empty]).
  split; [done|split; [done|by apply Forall_cons_2; [|apply Forall_cons_2]]| | |].
  - intros c m. rewrite Hm. by intros ?%elem_of_nil.
  - intros c s Hs. assert (s = w_base) as -> by (apply list_elem_of_lookup_2 in Hs; set_solver). apply agree_refl.
  - intros i s c Hs _. assert (s = w_base) as -> by (apply list_elem_of_lookup_2 in Hs; set_solver). apply Hm.
Qed.
Lemma outboxFor_keyed trace obID subject : keyed_by_chat (outboxFor trace obID subject).
Proof. intros m r [= <-]. cbn. unfold Redacted. by destruct (Message_Deleted m). Qed.


(** A shard that may be down: every call then fails. *)
Definition when_up {A} (m : M ChatDB A) : M (bool * ChatDB) A := λ s,
  if s.1 then let '(db, r) := m s.2 in ((s.1, db), r) else (s, Err os_error).
#[local] Instance flaky_shard : MessageStore (bool * ChatDB) := {|
  ms_InsertMessage m k ob := when_up (MemMessages.InsertMessage m k ob);
  ms_GetMessage c id := when_up (MemMessages.GetMessage c id);
  ms_EditMessage c id text t ob := when_up (MemMessages.EditMessage c id text t ob);
  ms_DeleteMessage c id t ob := when_up (MemMessages.DeleteMessage c id t ob);
  ms_History c b l := when_up (MemMessages.History c b l);
  ms_ThreadReader _ := Some (λ c r a l, when_up (MemMessages.Thread c r a l));
  ms_Expirer _ := Some (λ now l, when_up (MemMessages.ExpireMessages now l));
  ms_MediaChatResolver _ := Some (λ ref l, when_up (MemMessages.MediaRefChats ref l));
  ms_MediaReferencer _ := Some (λ ref, when_up (MemMessages.MediaRefExists ref));
|}.

Definition w_due : ChatDB := (MemMessages.InsertMessage (w_message "m1" "c1" "gone at five" 5) "" (outboxFor ∅ "o1" "created") w_base).1.
Definition w_pass1 : list (bool * ChatDB) := (ExpireDue ∅ 6 10 [(true, w_due); (false, w_base)]).1.
(** The pass that fails tombstones the message; the next one, with both shards up, has nothing
    left to announce. *)
Lemma expiry_unannounced_witness :
  (∃ shards' errs, ExpireDue ∅ 6 10 [(true, w_due); (false, w_base)] = (shards', ([], inr errs)) ∧ os_error ∈ errs ∧
     shards' !! 0%nat = Some (true, (MemMessages.ExpireMessages 6 5 w_due).1)) ∧
  (Message_Deleted <$> messages_of "c1" (MemMessages.ExpireMessages 6 5 w_due).1) = [true] ∧
  (ExpireDue ∅ 7 10 ((λ s, (true, s.2)) <$> w_pass1)).2 = ([], inl 0).
Proof.
  split; [|split; vm_compute; reflexivity].
  refine (proj2 (expiry_unannounced ∅ 6 10 [(true, w_due); (false, w_base)] 0 1 (true, w_due) (false, w_base) _ _
    (true, (MemMessages.ExpireMessages 6 5 w_due).1) (false, w_base) (set_deleted 6 <$> messages_of "c1" w_due) os_error eq_refl eq_refl _ eq_refl eq_refl _));
    vm_compute; reflexivity.
Defined.
End witnesses.
