(* ===== verification/MessageRules.v ===== *)
(** * What the message log satisfies as the service runs

    Invariants of the log under every call of MessageService.v: threads one level deep
    with exact reply counts, forwards credited to the original author, bounded and
    non-empty content, and no content of a tombstone in any staged event. *)

From S2P Require Import Prelude Bytes Model EventBus MemChats MemMessages MessageLog ChatService Outbox MessageService.

#[local] Set Warnings "-clear-no-such-hyp".

(** ** The invariants *)

Definition content_ok (m : Message) : Prop :=
  slen (Message_Text m) ≤ MaxTextLen ∧
  (Message_Deleted m = false →
   Message_Text m ≠ "" ∨ Message_MediaRef m ≠ "" ∨ Message_Attachment m ≠ None).

(** The replies filed under a root. *)
Definition replies (root : string) (l : list Message) : list Message :=
  filter (λ m, Message_ThreadRoot m = root) l.

(** An event says nothing of a deleted message but that it is gone. *)
Definition event_redacted (r : OutboxRecord) : Prop :=
  match Outbox_Data r with
  | MessageBody b =>
      NM_Deleted b = true → NM_Text b = "" ∧ NM_MediaRef b = "" ∧ NM_Attachment b = None
  | ReadBody _ => True
  end.

Definition threads_ok (l : list Message) : Prop :=
  ∀ m, m ∈ l → Message_ThreadRoot m ≠ "" →
    ∃ root, root ∈ l ∧ Message_ID root = Message_ThreadRoot m ∧ Message_ThreadRoot root = "".

Definition counts_ok (l : list Message) : Prop :=
  ∀ m, m ∈ l → Message_ReplyCount m = i32 (len (replies (Message_ID m) l)).

(** The message a forward names is in the log, by the author it names, and is not itself
    a forward. *)
Definition provenance_ok (db : ChatDB) : Prop :=
  ∀ cid m o, m ∈ messages_of cid db → Message_Forward m = Some o →
    ∃ src, src ∈ messages_of (Origin_ChatID o) db ∧ Message_ID src = Origin_MessageID o ∧
      Message_SenderID src = Origin_SenderID o ∧ Message_Forward src = None.

Record rules (db : ChatDB) : Prop := {
  ru_ids cid : NoDup (Message_ID <$> messages_of cid db) ∧
    Forall (λ m, Message_ID m ≠ "") (messages_of cid db);
  ru_content cid : Forall content_ok (messages_of cid db);
  ru_threads cid : threads_ok (messages_of cid db);
  ru_counts cid : counts_ok (messages_of cid db);
  ru_forward : provenance_ok db;
  ru_outbox : Forall event_redacted (outbox db);
}.

(** ** Pointwise changes

    Edits, deletions and expiry change content only: position, identity, author, thread,
    provenance and reply count stay. *)

Definition core (m : Message) : string * string * string * option ForwardOrigin :=
  (Message_ID m, Message_SenderID m, Message_ThreadRoot m, Message_Forward m).
Definition full (m : Message) : string * string * string * option ForwardOrigin * Z :=
  (core m, Message_ReplyCount m).

Section lists.
Implicit Types l : list Message.

Lemma full_core l l' : full <$> l' = full <$> l → core <$> l' = core <$> l.
Proof. intros Heq. apply (f_equal (fmap fst)) in Heq. by rewrite <- !list_fmap_compose in Heq. Qed.

Lemma fmap_elem {A} (g : Message → A) m l l' :
  g <$> l' = g <$> l → m ∈ l → ∃ m', m' ∈ l' ∧ g m' = g m.
Proof.
  intros Heq Hm. assert (g m ∈ g <$> l') as Hin.
  { rewrite Heq. by apply list_elem_of_fmap_2. }
  apply list_elem_of_fmap in Hin as (m' & ? & ?). by exists m'.
Qed.

Lemma core_ids l l' : core <$> l' = core <$> l → Message_ID <$> l' = Message_ID <$> l.
Proof.
  intros Heq. apply (f_equal (fmap (λ c, c.1.1.1))) in Heq. by rewrite <- !list_fmap_compose in Heq.
Qed.

Lemma core_replies root l l' :
  core <$> l' = core <$> l → len (replies root l') = len (replies root l).
Proof.
  revert l'. induction l as [|m l IH]; intros [|m' l'] Heq; try done.
  rewrite !fmap_cons in Heq. injection Heq as H1 H2 H3 H4 Heq. apply IH in Heq.
  unfold replies, len in *. rewrite !filter_cons, H3. case_decide; simpl; lia.
Qed.

Lemma core_threads l l' : core <$> l' = core <$> l → threads_ok l → threads_ok l'.
Proof.
  intros Heq Ht m' Hm' Hr. destruct (fmap_elem core m' l' l) as (m & Hm & Hc); [done..|].
  injection Hc as _ _ Hc _. destruct (Ht m Hm) as (r & Hr1 & Hr2 & Hr3); [by rewrite Hc|].
  destruct (fmap_elem core r l l') as (r' & Hr' & Hc'); [done..|].
  injection Hc' as Hi _ Ho _. exists r'. split; [done|]. split; congruence.
Qed.

Lemma full_counts l l' : full <$> l' = full <$> l → counts_ok l → counts_ok l'.
Proof.
  intros Heq Ht m' Hm'. destruct (fmap_elem full m' l' l) as (m & Hm & Hc); [done..|].
  injection Hc as Hi _ _ _ Hn. rewrite <- Hn, <- Hi, (core_replies _ l l') by (by apply full_core).
  by apply Ht.
Qed.

Lemma core_ids_ok l l' :
  core <$> l' = core <$> l →
  NoDup (Message_ID <$> l) ∧ Forall (λ m, Message_ID m ≠ "") l →
  NoDup (Message_ID <$> l') ∧ Forall (λ m, Message_ID m ≠ "") l'.
Proof.
  intros Hc%core_ids. rewrite <- !(Forall_fmap Message_ID (λ i, i ≠ "")), Hc. done.
Qed.
End lists.

Lemma core_provenance db db' :
  (∀ cid, core <$> messages_of cid db' = core <$> messages_of cid db) →
  provenance_ok db → provenance_ok db'.
Proof.
  intros Hc Hp cid m' o Hm' Ho.
  destruct (fmap_elem core m' _ _ (eq_sym (Hc cid)) Hm') as (m & Hm & E).
  injection E as _ _ _ E. destruct (Hp cid m o Hm) as (src & Hs & Hi & Hu & Hf); [congruence|].
  destruct (fmap_elem core src _ _ (Hc (Origin_ChatID o)) Hs) as (src' & Hs' & E').
  injection E' as Ei Eu _ Ef. exists src'. split; [done|]. split_and!; congruence.
Qed.

Lemma rules_content db db' :
  rules db → (∀ cid, full <$> messages_of cid db' = full <$> messages_of cid db) →
  (∀ cid, Forall content_ok (messages_of cid db')) → Forall event_redacted (outbox db') →
  rules db'.
Proof.
  intros [H1 H2 H3 H4 H5 H6] Hf Hco Hob.
  assert (∀ cid, core <$> messages_of cid db' = core <$> messages_of cid db) as Hc.
  { intros cid. apply full_core, Hf. }
  constructor; [|done| | | |done].
  - intros cid. eapply core_ids_ok; [apply Hc | apply H1].
  - intros cid. eapply core_threads; [apply Hc | apply H3].
  - intros cid. eapply full_counts; [apply Hf | apply H4].
  - by eapply core_provenance.
Qed.

(** ** The operations *)

Lemma update_first_fmap {A} (g : Message → A) id f l :
  (∀ m, g (f m) = g m) → g <$> update_first id f l = g <$> l.
Proof.
  intros Hf. induction l as [|m l IH]; [done|]. cbn [update_first].
  case_bool_decide; rewrite !fmap_cons; [by rewrite Hf | by rewrite IH].
Qed.

Lemma update_first_Forall (P : Message → Prop) id f l :
  (∀ m, P m → P (f m)) → Forall P l → Forall P (update_first id f l).
Proof.
  intros Hf. induction 1 as [|m l Hm Hl IH]; [done|]. cbn [update_first].
  case_bool_decide; constructor; auto.
Qed.

Lemma update_message_outbox cid id f mkOb db :
  outbox (update_message cid id f mkOb db).1 =
  outbox db ++ match find_msg id (messages_of cid db) with
               | Some m => option_list (mkOb (f m)) | None => [] end.
Proof.
  unfold update_message. rewrite M_bind_eq. cbn [get]. destruct (find_msg _ _) as [m|].
  - unfold stageOutboxLocked, modify. simpl. destruct (mkOb (f m)); simpl; by rewrite ?app_nil_r.
  - by rewrite app_nil_r.
Qed.

Lemma outboxFor_redacted trace obID subj m :
  Forall event_redacted (option_list (outboxFor trace obID subj m)).
Proof.
  constructor; [|done]. unfold event_redacted, outboxFor, Redacted. simpl.
  destruct (Message_Deleted m) eqn:E; simpl; [done | by rewrite E].
Qed.

Lemma rules_update trace cid id f obID subj db :
  (∀ m, full (f m) = full m) → (∀ m, content_ok m → content_ok (f m)) →
  rules db → rules (update_message cid id f (outboxFor trace obID subj) db).1.
Proof.
  intros Hf Hco Hr. apply (rules_content db); [done|..].
  - intros cid'. rewrite update_message_messages. case_decide; [by apply update_first_fmap | done].
  - intros cid'. rewrite update_message_messages. pose proof (ru_content _ Hr cid').
    case_decide; [by apply update_first_Forall | done].
  - rewrite update_message_outbox. apply Forall_app. split; [apply Hr|].
    case_match; [apply outboxFor_redacted | done].
Qed.

Lemma rules_expire `{RangeOrder} now limit db : rules db → rules (ExpireMessages now limit db).1.
Proof.
  intros Hr. unfold ExpireMessages. set (lim := if _ : bool then _ else _).
  pose proof (expire_chats_log now lim (range_map (messages db)) db) as Hl.
  destruct (expire_chats now lim _ db) as [db' out]. destruct Hl as (Hl & _ & Ho & _).
  { intros cid l Hin%elem_of_range_map. unfold messages_of. by rewrite Hin. }
  { apply NoDup_range_keys. }
  apply (rules_content db); [done|..]; cbn [fst].
  - intros cid. specialize (Hl cid). induction Hl as [|m m' l l' Hm _ IH]; [done|].
    rewrite !fmap_cons, IH. by destruct Hm as [->| ->].
  - intros cid. specialize (Hl cid). pose proof (ru_content _ Hr cid) as Hc.
    induction Hl as [|m m' l l' Hm _ IH]; [done|]. apply Forall_cons in Hc as [Hc1 Hc2].
    constructor; [|by apply IH]. by destruct Hm as [->| ->].
  - rewrite Ho. apply Hr.
Qed.

(** *** Insertion *)

Lemma i32_succ a : i32 (i32 a + 1) = i32 (a + 1).
Proof.
  unfold i32, sext. set (c := 2 ^ (32 - 1)). set (n := 2 ^ 32). f_equal.
  replace ((a + c) mod n - c + 1 + c) with ((a + c) mod n + 1) by lia.
  rewrite Z.add_mod_idemp_l by done. f_equal. lia.
Qed.

(** With distinct ids, updating the first match updates the only one. *)
Lemma update_first_map id f l :
  NoDup (Message_ID <$> l) →
  update_first id f l = (λ m, if bool_decide (Message_ID m = id) then f m else m) <$> l.
Proof.
  induction l as [|m l IH]; [done|]. rewrite fmap_cons. intros [Hnin Hnd]%NoDup_cons.
  cbn [update_first]. rewrite fmap_cons. destruct (bool_decide_reflect (Message_ID m = id)) as [<-|].
  - f_equal. clear -Hnin. induction l as [|m' l IH]; [done|]. rewrite fmap_cons in *.
    apply not_elem_of_cons in Hnin as [Hne Hnin]. rewrite bool_decide_false by done. f_equal. by apply IH.
  - f_equal. by apply IH.
Qed.

Lemma replies_snoc root l m :
  len (replies root (l ++ [m])) =
  len (replies root l) + if decide (Message_ThreadRoot m = root) then 1 else 0.
Proof.
  unfold replies, len. rewrite filter_app, length_app, filter_cons, filter_nil.
  case_decide; simpl; lia.
Qed.

(** Nothing is filed under an id the log does not have yet. *)
Lemma replies_fresh id l :
  threads_ok l → id ≠ "" → ¬ id ∈ (Message_ID <$> l) → len (replies id l) = 0.
Proof.
  intros Ht Hne Hfresh. unfold replies. rewrite filter_none; [done|].
  apply Forall_forall. intros m Hm Hr. destruct (Ht m Hm) as (r & Hr1 & Hr2 & _); [congruence|].
  apply Hfresh. rewrite <- Hr, <- Hr2. by apply list_elem_of_fmap_2.
Qed.

(** The root of a new message is none, or a top-level message of the chat. *)
Definition root_ok (root : string) (l : list Message) : Prop :=
  root = "" ∨ ∃ m, m ∈ l ∧ Message_ID m = root ∧ Message_ThreadRoot m = "".

Section insertion.
Variables (l : list Message) (m : Message) (n : Z).
Hypothesis Hids : NoDup (Message_ID <$> l) ∧ Forall (λ m, Message_ID m ≠ "") l.
Hypothesis Hfresh : ¬ Message_ID m ∈ (Message_ID <$> l).
Hypothesis Hne : Message_ID m ≠ "".
Hypothesis Hroot : root_ok (Message_ThreadRoot m) l.

Lemma inserted_core : core <$> inserted m n l = core <$> (l ++ [set_Seq n m]).
Proof.
  unfold inserted. case_bool_decide; [done|]. by apply update_first_fmap.
Qed.

Lemma snoc_ids :
  NoDup (Message_ID <$> l ++ [set_Seq n m]) ∧ Forall (λ m, Message_ID m ≠ "") (l ++ [set_Seq n m]).
Proof using Hids Hfresh Hne.
  destruct Hids as [H1 H2]. split.
  - rewrite fmap_app. apply NoDup_app. split_and!; [done| |apply NoDup_singleton].
    intros x Hx ->%list_elem_of_singleton. done.
  - apply Forall_app. split; [done|]. by constructor.
Qed.

Lemma inserted_threads : threads_ok l → threads_ok (inserted m n l).
Proof using Hroot.
  intros Ht. apply (core_threads (l ++ [set_Seq n m])); [apply inserted_core|].
  intros m' [Hm'| ->%list_elem_of_singleton]%elem_of_app Hr.
  - destruct (Ht m' Hm' Hr) as (r & ? & ? & ?). exists r. rewrite elem_of_app. eauto.
  - destruct Hroot as [|(r & ? & ? & ?)]; [done|]. exists r. rewrite elem_of_app. eauto.
Qed.

Lemma inserted_counts :
  threads_ok l → counts_ok l → Message_ReplyCount m = 0 → counts_ok (inserted m n l).
Proof using Hids Hfresh Hne Hroot.
  intros Ht Hc H0. pose proof (replies_fresh _ _ Ht Hne Hfresh) as Hzero.
  set (cp := set_Seq n m). assert (∀ x, x ∈ l ++ [cp] →
    Message_ReplyCount x = i32 (len (replies (Message_ID x) l))) as Hold.
  { intros x [Hx| ->%list_elem_of_singleton]%elem_of_app; [by apply Hc|].
    unfold cp; simpl. by rewrite Hzero. }
  intros x Hx. rewrite (core_replies _ (l ++ [cp])) by apply inserted_core.
  rewrite replies_snoc. unfold inserted in Hx. fold cp in Hx |- *.
  change (Message_ThreadRoot cp) with (Message_ThreadRoot m).
  destruct (bool_decide_reflect (Message_ThreadRoot m = "")) as [Hr|Hr].
  - rewrite Hr. rewrite decide_False, Z.add_0_r; [by apply Hold|].
    intros Heq. destruct snoc_ids as [_ Hall]. rewrite Forall_forall in Hall. by apply (Hall x).
  - rewrite update_first_map in Hx by apply snoc_ids.
    apply list_elem_of_fmap in Hx as (y & -> & Hy). rewrite Forall_forall in *.
    destruct (bool_decide_reflect (Message_ID y = Message_ThreadRoot m)) as [He|He]; simpl.
    + rewrite decide_True by done. rewrite Hold by done. apply i32_succ.
    + rewrite decide_False by done. rewrite Z.add_0_r. by apply Hold.
Qed.
End insertion.

Definition fresh_id (id cid : string) (db : ChatDB) : Prop :=
  id ≠ "" ∧ ¬ id ∈ (Message_ID <$> messages_of cid db).

Definition origin_ok (o : option ForwardOrigin) (db : ChatDB) : Prop :=
  ∀ f, o = Some f → ∃ src, src ∈ messages_of (Origin_ChatID f) db ∧
    Message_ID src = Origin_MessageID f ∧ Message_SenderID src = Origin_SenderID f ∧
    Message_Forward src = None.

Lemma provenance_insert m n db db' :
  (∀ cid, cid ≠ Message_ChatID m → messages_of cid db' = messages_of cid db) →
  messages_of (Message_ChatID m) db' = inserted m n (messages_of (Message_ChatID m) db) →
  origin_ok (Message_Forward m) db → provenance_ok db → provenance_ok db'.
Proof.
  intros Hother Hl Hf Hp. set (ext c := messages_of c db ++
    if bool_decide (c = Message_ChatID m) then [set_Seq n m] else []).
  assert (∀ c, core <$> messages_of c db' = core <$> ext c) as Hcore.
  { intros c. unfold ext. case_bool_decide as Hc; [subst|].
    - by rewrite Hl, inserted_core.
    - by rewrite Hother, app_nil_r. }
  assert (∀ f, (∃ src, src ∈ messages_of (Origin_ChatID f) db ∧ Message_ID src = Origin_MessageID f ∧
    Message_SenderID src = Origin_SenderID f ∧ Message_Forward src = None) →
    ∃ src, src ∈ messages_of (Origin_ChatID f) db' ∧ Message_ID src = Origin_MessageID f ∧
    Message_SenderID src = Origin_SenderID f ∧ Message_Forward src = None) as Hmono.
  { intros f (src & Hs & Hi & Hu & Hn).
    destruct (fmap_elem core src _ _ (Hcore (Origin_ChatID f))) as (src' & Hs' & E).
    { unfold ext. apply elem_of_app. by left. }
    injection E as Ei Eu _ Ef. exists src'. split; [done|]. split_and!; congruence. }
  intros c x o Hx Ho. apply Hmono.
  destruct (fmap_elem core x _ _ (eq_sym (Hcore c)) Hx) as (y & Hy & E). injection E as _ _ _ Ef.
  unfold ext in Hy. apply elem_of_app in Hy as [Hy|Hy]; [eapply Hp; [done | congruence]|].
  case_bool_decide; [|by apply not_elem_of_nil in Hy].
  apply list_elem_of_singleton in Hy as ->. apply Hf. simpl in Ef. congruence.
Qed.

Lemma rules_insert trace m k obID subj db :
  fresh_id (Message_ID m) (Message_ChatID m) db → content_ok m → Message_ReplyCount m = 0 →
  root_ok (Message_ThreadRoot m) (messages_of (Message_ChatID m) db) →
  origin_ok (Message_Forward m) db →
  rules db → rules (InsertMessage m k (outboxFor trace obID subj) db).1.
Proof.
  intros [Hne Hfresh] Hco H0 Hroot Hf Hr. set (cid := Message_ChatID m) in *.
  destruct (dedup_hit (Message_SenderID m) cid k db) as [ex|] eqn:Eh.
  { by erewrite InsertMessage_hit. }
  destruct (chats db !! cid) as [c|] eqn:Ec.
  2:{ unfold InsertMessage. rewrite M_bind_eq. cbn [get]. fold cid. by rewrite Eh, Ec. }
  pose proof (InsertMessage_messages m k (outboxFor trace obID subj) db c Eh Ec) as Hl.
  destruct (InsertMessage_new m k (outboxFor trace obID subj) db c Eh Ec)
    as (db' & out & Hi & _ & _ & _ & _ & _ & _ & _ & Hother & _ & Hob & _).
  rewrite Hi in *. cbn [fst] in *. fold cid in Hl, Hother.
  set (n := u64 (Chat_LastSeq c + 1)) in *. destruct Hr as [H1 H2 H3 H4 H5 H6].
  assert (∀ (P : list Message → Prop), (∀ cid, P (messages_of cid db)) →
    P (inserted m n (messages_of cid db)) → ∀ cid', P (messages_of cid' db')) as Hpt.
  { intros P HP Hins cid'. destruct (decide (cid' = cid)) as [->|]; [by rewrite Hl | by rewrite Hother]. }
  constructor.
  - apply (Hpt (λ l, NoDup (Message_ID <$> l) ∧ Forall (λ m, Message_ID m ≠ "") l)); [done|].
    eapply core_ids_ok; [apply inserted_core | by apply snoc_ids].
  - apply (Hpt (Forall content_ok)); [done|]. unfold inserted.
    assert (Forall content_ok (messages_of cid db ++ [set_Seq n m])).
    { apply Forall_app. split; [done|]. by constructor. }
    case_bool_decide; [done | by apply update_first_Forall].
  - apply (Hpt threads_ok); [done|]. by apply inserted_threads.
  - apply (Hpt counts_ok); [done|]. by apply inserted_counts.
  - by eapply provenance_insert.
  - rewrite Hob. apply Forall_app. split; [done | apply outboxFor_redacted].
Qed.

Lemma find_msg_elem id l m : find_msg id l = Some m → m ∈ l ∧ Message_ID m = id.
Proof.
  intros [Hin Heq]%find_some. apply bool_decide_eq_true in Heq. by rewrite list_elem_of_In.
Qed.

(** [Send] resolves a reply to a top-level message of the chat, or to nothing. *)
Lemma root_of_ok s_in db :
  threads_ok (messages_of (Send_ChatID s_in) db) →
  root_ok (root_of s_in db) (messages_of (Send_ChatID s_in) db).
Proof.
  intros Ht. unfold root_of, root_ok. case_bool_decide; [by left|].
  destruct (find_msg _ _) as [p|] eqn:E; [|by left]. apply find_msg_elem in E as [Hp _].
  unfold threadRootOf. case_bool_decide as Hr; right.
  - by exists p.
  - by apply Ht.
Qed.

Lemma rules_send trace id obID now s_in db :
  fresh_id id (Send_ChatID s_in) db → slen (Send_Text s_in) ≤ MaxTextLen →
  Send_Text s_in ≠ "" ∨ Send_MediaRef s_in ≠ "" ∨ Send_Attachment s_in ≠ None →
  origin_ok (Send_Forward s_in) db →
  rules db → rules (insert_of trace id obID now s_in db db).1.
Proof.
  intros Hid Hlen Hco Hf Hr. unfold insert_of. apply rules_insert; try done.
  apply root_of_ok, Hr.
Qed.

Lemma rules_same_log db db' :
  rules db → messages db' = messages db → (∀ r, r ∈ outbox db' → r ∈ outbox db) → rules db'.
Proof.
  intros [H1 H2 H3 H4 H5 H6] Hm Ho.
  assert (∀ cid, messages_of cid db' = messages_of cid db) as Hmm.
  { intros cid. unfold messages_of. by rewrite Hm. }
  constructor; try (intros cid; rewrite Hmm; done).
  - intros cid m o. rewrite !Hmm. apply H5.
  - rewrite Forall_forall in *. auto.
Qed.

Lemma rules_empty db : messages db = ∅ → outbox db = [] → rules db.
Proof.
  intros Hm Ho. assert (∀ cid, messages_of cid db = []) as Hmm.
  { intros cid. unfold messages_of. by rewrite Hm, lookup_empty. }
  constructor; intros *; rewrite ?Hmm, ?Ho; try done.
  - split; [apply NoDup_nil_2 | done].
  - by intros m ?%not_elem_of_nil.
  - by intros m ?%not_elem_of_nil.
  - intros cid m o. rewrite Hmm. by intros ?%not_elem_of_nil.
Qed.

Lemma validate_create cmd :
  validate cmd = Ok tt → Cmd_Op cmd = OpCreate →
  slen (Cmd_Text cmd) ≤ MaxTextLen ∧
  (Cmd_Text cmd ≠ "" ∨ Cmd_MediaRef cmd ≠ "" ∨ Cmd_Attachment cmd ≠ None).
Proof.
  intros Hv Hop. unfold validate in Hv. rewrite bool_decide_true in Hv by done.
  destruct (MaxTextLen <? _) eqn:El; [done|]. apply Z.ltb_ge in El. split; [done|].
  destruct (_ && _) eqn:E; [done|]. rewrite !andb_false_iff, !bool_decide_eq_false in E. tauto.
Qed.

Lemma validate_edit cmd :
  validate cmd = Ok tt → Cmd_Op cmd = OpEdit → slen (Cmd_Text cmd) ≤ MaxTextLen ∧ Cmd_Text cmd ≠ "".
Proof.
  intros Hv Hop. unfold validate in Hv. rewrite Hop in Hv. simpl in Hv.
  destruct (MaxTextLen <? _) eqn:El; [done|]. apply Z.ltb_ge in El. split; [done|].
  by destruct (bool_decide_reflect (Cmd_Text cmd = "")).
Qed.

(** ** The service running *)

Section running.
Context `{RangeOrder} `{MessageLaws T W}.
Variable trace : gmap string string.

(** The states the process goes through: calls of the message service with fresh message
    ids, in any order, from an empty log.  [l_other] is everything else that runs beside
    it: reads, chat administration, the relay acknowledging outbox records. *)
Inductive lived : W → Prop :=
  | l_start w : good w → messages (mdb w) = ∅ → outbox (mdb w) = [] → lived w
  | l_submit t id obID now cmd w :
      lived w → no_bar (Cmd_ChatID cmd) = true → fresh_id id (Cmd_ChatID cmd) (mdb w) →
      lived (Submit trace t id obID now cmd w).1
  | l_forward t t' id obID now u srcChat srcID dst k w :
      lived w → no_bar srcChat = true → no_bar dst = true → fresh_id id dst (mdb w) →
      lived (Forward trace t t' id obID now u srcChat srcID dst k w).1
  | l_expire now limit w : lived w → lived (ExpireDue trace now limit w).1
  | l_read t now u c n w :
      lived w → no_bar c = true → lived (MarkRead trace t now u c n w).1
  | l_other w w' :
      lived w → good w' → messages (mdb w') = messages (mdb w) →
      (∀ r, r ∈ outbox (mdb w') → r ∈ outbox (mdb w)) → lived w'.

Lemma rules_quiet (w w' : W) : rules (mdb w) → quiet w w' → good w' ∧ rules (mdb w').
Proof. intros Hr (Hg & -> & _). done. Qed.

Lemma rules_effect {A} (w w' : W) (m : M ChatDB A) :
  effect w w' m → rules (m (mdb w)).1 → good w' ∧ rules (mdb w').
Proof. intros (Hg & _ & ->). done. Qed.

Lemma rules_Submit t id obID now cmd w :
  good w → no_bar (Cmd_ChatID cmd) = true → fresh_id id (Cmd_ChatID cmd) (mdb w) →
  rules (mdb w) →
  good (Submit trace t id obID now cmd w).1 ∧ rules (mdb (Submit trace t id obID now cmd w).1).
Proof.
  intros Hg Hb Hid Hr. rewrite Submit_eq. destruct (validate cmd) as [[]|e] eqn:Ev; [|done].
  destruct (bool_decide_reflect (Cmd_Op cmd = OpCreate)) as [Hop|_].
  - destruct (validate_create cmd Ev Hop) as [Hlen Hco].
    pose proof (Send_effect trace t id obID now (create_input cmd) w Hg Hb) as He. cbv zeta in He.
    destruct (d_post _) as [[]|e]; [|apply (rules_quiet w); [done | apply He]..].
    eapply rules_effect; [apply He|]. by apply rules_send.
  - cbn [fst]. destruct (bool_decide_reflect (Cmd_Op cmd = OpEdit)) as [Hop|_].
    + destruct (validate_edit cmd Ev Hop) as [Hlen Hco].
      pose proof (Edit_effect trace obID now (Cmd_ActorID cmd) (Cmd_ChatID cmd) (Cmd_MessageID cmd)
        (Cmd_Text cmd) w Hg) as He. cbv zeta in He.
      destruct (find_msg _ _); [|apply (rules_quiet w); [done | apply He]].
      destruct (bool_decide _); [|apply (rules_quiet w); [done | apply He]].
      eapply rules_effect; [apply He|]. apply rules_update; [done| |done].
      intros m0 _. split; [done|]. intros _. by left.
    + pose proof (Delete_effect trace t obID now (Cmd_ActorID cmd) (Cmd_ChatID cmd)
        (Cmd_MessageID cmd) w Hg Hb) as He. cbv zeta in He.
      destruct (find_msg _ _); [|apply (rules_quiet w); [done | apply He]].
      destruct (may_delete _ _ _ _) as [[]|e]; [|apply (rules_quiet w); [done | apply He]..].
      eapply rules_effect; [apply He|]. by apply rules_update.
Qed.

Lemma rules_Forward t t' id obID now u srcChat srcID dst k w :
  good w → no_bar srcChat = true → no_bar dst = true → fresh_id id dst (mdb w) →
  rules (mdb w) →
  let w' := (Forward trace t t' id obID now u srcChat srcID dst k w).1 in
  good w' ∧ rules (mdb w').
Proof.
  intros Hg Hb Hb' Hid Hr w'.
  destruct (Forward_effect trace t t' id obID now u srcChat srcID dst k w Hg Hb Hb')
    as [Hq|(src & _ & _ & Hsrc & Hdel & He & _)]; [by apply (rules_quiet w)|].
  apply find_msg_elem in Hsrc as [Hin Hsid].
  pose proof (ru_content _ Hr srcChat) as Hc. rewrite Forall_forall in Hc.
  destruct (Hc src Hin) as [Hlen Hco].
  eapply rules_effect; [exact He|]. apply rules_send; [done..|by apply Hco| |done].
  intros f [= <-]. unfold origin_of. destruct (Message_Forward src) as [o|] eqn:Ef.
  - by apply (ru_forward _ Hr srcChat src).
  - exists src. done.
Qed.

Lemma lived_rules w : lived w → good w ∧ rules (mdb w).
Proof.
  induction 1 as [w Hg Hm Ho|t id obID now cmd w _ [Hg Hr] Hb Hid
    |t t' id obID now u srcChat srcID dst k w _ [Hg Hr] Hb Hb' Hid
    |now limit w _ [Hg Hr]|t now u c n w _ [Hg Hr] Hb|w w' _ [Hg Hr] Hg' Hm Ho].
  - split; [done | by apply rules_empty].
  - by apply rules_Submit.
  - by apply rules_Forward.
  - eapply rules_effect; [by apply ExpireDue_effect | by apply rules_expire].
  - pose proof (MarkRead_effect trace t now u c n w Hg Hb) as He. cbv zeta in He.
    destruct (d_member _) as [[]|e]; [|apply (rules_quiet w); [done | apply He]..].
    eapply rules_effect; [apply He|]. apply (rules_same_log (mdb w)); [done|..];
      unfold SetRead, modify; simpl; by repeat case_match.
  - split; [done|]. by apply (rules_same_log (mdb w)).
Qed.

(** Threads stay one level deep and their counters exact.  Whatever is replied to,
    every reply is filed under a message of the same chat that is itself no reply, and
    every message counts the replies filed under it (as a 32-bit integer). *)
Theorem threads_flat w cid :
  lived w → threads_ok (messages_of cid (mdb w)) ∧ counts_ok (messages_of cid (mdb w)).
Proof. intros [_ Hr]%lived_rules. split; apply Hr. Qed.

(** A forward, through any chain of forwards, credits the original: the message it
    names is in the log of the chat it names, was sent by the user it names, and is not a
    forward. *)
Theorem forward_provenance w : lived w → provenance_ok (mdb w).
Proof. intros [_ Hr]%lived_rules. apply Hr. Qed.

(** Every stored text is at most [MaxTextLen] bytes, and no live message is empty. *)
Theorem content_valid w cid : lived w → Forall content_ok (messages_of cid (mdb w)).
Proof. intros [_ Hr]%lived_rules. apply Hr. Qed.


(** The sender may edit their own tombstone: over the in-memory store the edit
    succeeds, and the deleted row holds text again. *)
Theorem edit_fills_tombstone obID now u c id text w m :
  good w → find_msg id (messages_of c (mdb w)) = Some m →
  Message_SenderID m = u → Message_Deleted m = true →
  let r := Edit trace obID now u c id text w in
  ∃ m', r.2 = Ok m' ∧ find_msg id (messages_of c (mdb r.1)) = Some m' ∧
    Message_Deleted m' = true ∧ Message_Text m' = text.
Proof.
  intros Hg Hf Hu Hd r. pose proof (Edit_effect trace obID now u c id text w Hg) as He.
  cbv zeta in He. rewrite Hf, bool_decide_true in He by done. destruct He as [(_ & _ & Hdb) Hres].
  exists (set_edit text now m). unfold r. split_and!; [| |done|done].
  - rewrite Hres. unfold EditMessage, update_message. rewrite M_bind_eq. cbn [get]. by rewrite Hf.
  - rewrite Hdb. unfold EditMessage. rewrite update_message_messages, decide_True by done.
    revert Hf. generalize (messages_of c (mdb w)). clear. induction l as [|x l IH]; [done|].
    unfold find_msg in *. simpl. destruct (bool_decide_reflect (Message_ID x = id)) as [Hx|Hx].
    + intros [= ->]. simpl. by rewrite bool_decide_true.
    + intros Hf. simpl. rewrite bool_decide_false by done. by apply IH.
Qed.
End running.

(** ** Witnesses *)

Section witnesses.
#[local] Existing Instance canonical_order.
#[local] Existing Instance list_bus.
#[local] Existing Instance no_media.
#[local] Instance w_laws : MessageLaws (Ticks * Ticks) (Local (B := list (Event EventBody))) :=
  local_laws None.

Definition w_tt : Ticks * Ticks := (w_ticks 2, w_ticks 3).

(** The owner posts, replies, forwards the post and deletes it. *)
Definition w_run1 : Local := (Submit ∅ w_tt "m1" "o1" 1000 (w_post "u1") w_local).1.
Definition w_run2 : Local := (Submit ∅ w_tt "m2" "o2" 1001
  (mkCommand OpCreate "u1" "c1" "" "k2" "a reply" "" "m1" None 0) w_run1).1.
Definition w_run3 : Local := (Forward ∅ w_tt w_tt "m3" "o3" 1002 "u1" "c1" "m1" "c1" "k3" w_run2).1.
Definition w_run4 : Local := (Submit ∅ w_tt "m4" "o4" 1003
  (mkCommand OpDelete "u1" "c1" "m1" "" "" "" "" None 0) w_run3).1.

Lemma fresh_by_compute id cid db :
  (id ≠ "") → bool_decide (id ∈ (Message_ID <$> messages_of cid db)) = false → fresh_id id cid db.
Proof. intros Hne Hb. split; [done|]. by apply bool_decide_eq_false in Hb. Qed.

Lemma w_run4_lived : lived ∅ w_run4.
Proof.
  apply l_submit; [|done|apply fresh_by_compute; [done | by vm_compute]].
  apply l_forward; [|done|done|apply fresh_by_compute; [done | by vm_compute]].
  apply l_submit; [|done|apply fresh_by_compute; [done | by vm_compute]].
  apply l_submit; [|done|apply fresh_by_compute; [done | by vm_compute]].
  apply l_start; [exact w_channel_reachable | by vm_compute | by vm_compute].
Qed.

Lemma threads_flat_witness :
  (Message_ReplyCount <$> find_msg "m1" (messages_of "c1" (mdb w_run4))) = Some 1 ∧
  threads_ok (messages_of "c1" (mdb w_run4)).
Proof.
  split; [by vm_compute|]. exact (proj1 (threads_flat ∅ w_run4 "c1" w_run4_lived)).
Defined.

Lemma forward_provenance_witness :
  ∃ m, find_msg "m3" (messages_of "c1" (mdb w_run4)) = Some m ∧
    Message_Forward m = Some (mkOrigin "c1" "m1" "u1") ∧ provenance_ok (mdb w_run4).
Proof.
  eexists. split; [by vm_compute|]. split; [done|]. exact (forward_provenance ∅ w_run4 w_run4_lived).
Defined.

Lemma content_valid_witness :
  len (messages_of "c1" (mdb w_run4)) = 3 ∧ Forall content_ok (messages_of "c1" (mdb w_run4)).
Proof. split; [by vm_compute|]. exact (content_valid ∅ w_run4 "c1" w_run4_lived). Defined.


Definition w_refilled := Edit ∅ "o5" 1004 "u1" "c1" "m1" "back" w_run4.

Lemma edit_fills_tombstone_witness :
  ∃ m', w_refilled.2 = Ok m' ∧ find_msg "m1" (messages_of "c1" (mdb w_refilled.1)) = Some m' ∧
    Message_Deleted m' = true ∧ Message_Text m' = "back".
Proof.
  refine (edit_fills_tombstone ∅ "o5" 1004 "u1" "c1" "m1" "back" w_run4 _ _ _ _ _).
  - exact (proj1 (lived_rules ∅ w_run4 w_run4_lived)).
  - by vm_compute.
  - done.
  - done.
Defined.
End witnesses.
