(* ===== verification/MemAccounts.v ===== *)
(** * The in-memory store: accounts, devices and sessions

    [internal/model] privacy.go and the account records of model.go;
    [internal/store/memory] users.go, sessions.go, resume.go, roles.go, password.go and
    twofactor.go.  [AccountDB] holds the maps of [Store] these methods use; a Go map of
    pointers whose entry is missing is dereferenced as a panic.  Account deletion, which
    reaches every map of the store, is in Erasure.v. *)

From S2P Require Import Prelude Model.

(** ** Privacy settings *)

Abbreviation Visibility := string (only parsing).
Definition VisibilityEveryone : Visibility := "everyone".
Definition VisibilityContacts : Visibility := "contacts".
Definition VisibilityNobody : Visibility := "nobody".

Record Privacy := mkPrivacy {
  Privacy_LastSeen : Visibility;
  Privacy_Avatar : Visibility;
  Privacy_Groups : Visibility;
  Privacy_PushPreview : bool;
}.

Definition DefaultPrivacy : Privacy :=
  mkPrivacy VisibilityEveryone VisibilityEveryone VisibilityEveryone false.

Definition ValidVisibility (v : Visibility) : bool :=
  bool_decide (v = VisibilityEveryone) || bool_decide (v = VisibilityContacts)
  || bool_decide (v = VisibilityNobody).

Definition NormalizeVisibility (v : Visibility) : Visibility :=
  if ValidVisibility v then v else VisibilityEveryone.

(** The composite literal leaves [PushPreview] at its zero value. *)
Definition Normalize (p : Privacy) : Privacy :=
  mkPrivacy (NormalizeVisibility (Privacy_LastSeen p)) (NormalizeVisibility (Privacy_Avatar p))
    (NormalizeVisibility (Privacy_Groups p)) false.

(** ** Records *)

Record User := mkUser {
  User_ID : string;
  User_Username : string;
  User_DisplayName : string;
  User_AvatarRef : string;
  User_PasswordHash : string;
  User_CreatedAt : Z;
  User_Privacy : Privacy;
}.

(** A [Privacy] left at its zero value. *)
Definition zero_Privacy : Privacy := mkPrivacy "" "" "" false.

Definition set_Privacy (p : Privacy) (u : User) : User :=
  mkUser (User_ID u) (User_Username u) (User_DisplayName u) (User_AvatarRef u)
    (User_PasswordHash u) (User_CreatedAt u) p.
Definition set_Profile (displayName avatarRef : string) (u : User) : User :=
  mkUser (User_ID u) (User_Username u) displayName avatarRef
    (User_PasswordHash u) (User_CreatedAt u) (User_Privacy u).
Definition set_PasswordHash (h : string) (u : User) : User :=
  mkUser (User_ID u) (User_Username u) (User_DisplayName u) (User_AvatarRef u)
    h (User_CreatedAt u) (User_Privacy u).

Definition set_RevokedAt (at_ : Z) (s : Session) : Session :=
  mkSession (Session_ID s) (Session_UserID s) (Session_DeviceID s) (Session_Token s)
    (Session_ResumeToken s) (Session_CreatedAt s) (Session_ExpiresAt s) at_
    (Session_PrevResumeToken s) (Session_ResumeRotatedAt s).
Definition set_ExpiresAt (at_ : Z) (s : Session) : Session :=
  mkSession (Session_ID s) (Session_UserID s) (Session_DeviceID s) (Session_Token s)
    (Session_ResumeToken s) (Session_CreatedAt s) at_ (Session_RevokedAt s)
    (Session_PrevResumeToken s) (Session_ResumeRotatedAt s).
Definition set_tokens (tok resume : string) (s : Session) : Session :=
  mkSession (Session_ID s) (Session_UserID s) (Session_DeviceID s) tok
    resume (Session_CreatedAt s) (Session_ExpiresAt s) (Session_RevokedAt s)
    (Session_PrevResumeToken s) (Session_ResumeRotatedAt s).
(** [sess.PrevResumeToken = old; sess.ResumeToken = new; sess.ResumeRotatedAt = at]. *)
Definition set_rotated (old new : string) (at_ : Z) (s : Session) : Session :=
  mkSession (Session_ID s) (Session_UserID s) (Session_DeviceID s) (Session_Token s)
    new (Session_CreatedAt s) (Session_ExpiresAt s) (Session_RevokedAt s) old at_.

Definition set_PushToken (t : string) (d : Device) : Device :=
  mkDevice (Device_ID d) (Device_UserID d) (Device_Platform d) t (Device_CreatedAt d)
    (Device_LastSeen d).
Definition set_Device_CreatedAt (at_ : Z) (d : Device) : Device :=
  mkDevice (Device_ID d) (Device_UserID d) (Device_Platform d) (Device_PushToken d) at_
    (Device_LastSeen d).

Abbreviation PlatformRole := string (only parsing).
Definition PlatformAdmin : PlatformRole := "admin".
Definition PlatformModerator : PlatformRole := "moderator".
Definition PlatformRole_Valid (r : PlatformRole) : bool :=
  bool_decide (r = PlatformAdmin) || bool_decide (r = PlatformModerator).

Record PlatformRoleGrant := mkGrant {
  Grant_UserID : string;
  Grant_Role : PlatformRole;
  Grant_GrantedBy : string;
  Grant_GrantedAt : Z;
}.

Record TwoFactor := mkTwoFactor {
  TF_UserID : string;
  TF_SecretEnc : string;
  TF_ConfirmedAt : Z;
  TF_RecoveryHashes : list string;
  TF_CreatedAt : Z;
}.

Definition set_RecoveryHashes (hs : list string) (tf : TwoFactor) : TwoFactor :=
  mkTwoFactor (TF_UserID tf) (TF_SecretEnc tf) (TF_ConfirmedAt tf) hs (TF_CreatedAt tf).

(** [Enabled], on a non-nil pointer. *)
Definition TF_Enabled (tf : TwoFactor) : bool := negb (TF_ConfirmedAt tf =? 0).

Record AccountDB := mkAccountDB {
  users : gmap string User;
  usersByName : gmap string string;
  devices : gmap string Device;
  sessions : gmap string Session;
  tokenIndex : gmap string string;
  resumeIndex : gmap string string;
  prevResumeIndex : gmap string string;
  platformRoles : gmap string PlatformRoleGrant;
  twoFactor : gmap string TwoFactor;
}.

Definition New : AccountDB := mkAccountDB ∅ ∅ ∅ ∅ ∅ ∅ ∅ ∅ ∅.

Definition set_users (m : gmap string User) (db : AccountDB) : AccountDB :=
  mkAccountDB m (usersByName db) (devices db) (sessions db) (tokenIndex db) (resumeIndex db)
    (prevResumeIndex db) (platformRoles db) (twoFactor db).
Definition set_usersByName (m : gmap string string) (db : AccountDB) : AccountDB :=
  mkAccountDB (users db) m (devices db) (sessions db) (tokenIndex db) (resumeIndex db)
    (prevResumeIndex db) (platformRoles db) (twoFactor db).
Definition set_devices (m : gmap string Device) (db : AccountDB) : AccountDB :=
  mkAccountDB (users db) (usersByName db) m (sessions db) (tokenIndex db) (resumeIndex db)
    (prevResumeIndex db) (platformRoles db) (twoFactor db).
Definition set_sessions (m : gmap string Session) (db : AccountDB) : AccountDB :=
  mkAccountDB (users db) (usersByName db) (devices db) m (tokenIndex db) (resumeIndex db)
    (prevResumeIndex db) (platformRoles db) (twoFactor db).
Definition set_indexes (ti ri pi : gmap string string) (db : AccountDB) : AccountDB :=
  mkAccountDB (users db) (usersByName db) (devices db) (sessions db) ti ri
    pi (platformRoles db) (twoFactor db).
Definition set_platformRoles (m : gmap string PlatformRoleGrant) (db : AccountDB) : AccountDB :=
  mkAccountDB (users db) (usersByName db) (devices db) (sessions db) (tokenIndex db)
    (resumeIndex db) (prevResumeIndex db) m (twoFactor db).
Definition set_twoFactor (m : gmap string TwoFactor) (db : AccountDB) : AccountDB :=
  mkAccountDB (users db) (usersByName db) (devices db) (sessions db) (tokenIndex db)
    (resumeIndex db) (prevResumeIndex db) (platformRoles db) m.

(** [v, ok := m[k]; if !ok { return ErrNotFound }]. *)
Definition found {K A S} `{Countable K} (m : gmap K A) (k : K) : M S A :=
  match m !! k with Some v => mret v | None => fail store_ErrNotFound end.
(** [*m[k]], a nil dereference when the key is absent. *)
Definition deref {K A S} `{Countable K} (m : gmap K A) (k : K) : M S A :=
  match m !! k with Some v => mret v | None => fail go_panic end.

(** ** Users *)

Definition CreateUser (u : User) : M AccountDB unit :=
  db ← get;
  match usersByName db !! User_Username u with
  | Some _ => fail store_ErrConflict
  | None =>
      modify (set_users (<[User_ID u := u]> (users db)));;
      modify (set_usersByName (<[User_Username u := User_ID u]> (usersByName db)))
  end.

Definition GetUser (id : string) : M AccountDB User :=
  db ← get; found (users db) id.

Definition GetUserByUsername (username : string) : M AccountDB User :=
  db ← get;
  id ← found (usersByName db) username;
  deref (users db) id.

(** The shape of [UpdatePrivacy], [UpdateProfile] and [SetPasswordHash]: assign fields of
    the stored user. *)
Definition update_user (userID : string) (f : User → User) : M AccountDB unit :=
  db ← get;
  u ← found (users db) userID;
  modify (set_users (<[userID := f u]> (users db))).

Definition UpdatePrivacy (userID : string) (p : Privacy) : M AccountDB unit :=
  update_user userID (set_Privacy (Normalize p)).
Definition UpdateProfile (userID displayName avatarRef : string) : M AccountDB unit :=
  update_user userID (set_Profile displayName avatarRef).
Definition SetPasswordHash (userID hash : string) : M AccountDB unit :=
  update_user userID (set_PasswordHash hash).

(** ** Devices *)

Definition UpsertDevice (d : Device) : M AccountDB unit :=
  db ← get;
  let put cp := modify (set_devices (<[Device_ID d := cp]> (devices db))) in
  match devices db !! Device_ID d with
  | None => put d
  | Some cur =>
      if negb (bool_decide (Device_UserID cur = Device_UserID d)) then fail store_ErrConflict
      else
        let cp := if bool_decide (Device_PushToken d = "")
                  then set_PushToken (Device_PushToken cur) d else d in
        put (set_Device_CreatedAt (Device_CreatedAt cur) cp)
  end.

Definition SetPushToken (userID deviceID token : string) : M AccountDB unit :=
  db ← get;
  match devices db !! deviceID with
  | Some d =>
      if bool_decide (Device_UserID d = userID)
      then modify (set_devices (<[deviceID := set_PushToken token d]> (devices db)))
      else fail store_ErrNotFound
  | None => fail store_ErrNotFound
  end.

Definition GetDevice (id : string) : M AccountDB Device :=
  db ← get; found (devices db) id.

(** ** Sessions *)

Definition CreateSession (s : Session) : M AccountDB unit :=
  modify (λ db, set_sessions (<[Session_ID s := s]> (sessions db)) db);;
  modify (λ db, set_indexes (<[Session_Token s := Session_ID s]> (tokenIndex db))
    (if bool_decide (Session_ResumeToken s = "") then resumeIndex db
     else <[Session_ResumeToken s := Session_ID s]> (resumeIndex db))
    (prevResumeIndex db) db).

Definition GetSessionByToken (token : string) : M AccountDB Session :=
  db ← get; id ← found (tokenIndex db) token; deref (sessions db) id.

Definition GetSessionByResumeToken (resume : string) : M AccountDB Session :=
  db ← get; id ← found (resumeIndex db) resume; deref (sessions db) id.

Definition GetSessionByConsumedResumeToken (resume : string) : M AccountDB Session :=
  db ← get; id ← found (prevResumeIndex db) resume; found (sessions db) id.

Definition put_session (id : string) (s : Session) : M AccountDB unit :=
  modify (λ db, set_sessions (<[id := s]> (sessions db)) db).

Definition RevokeSession (id : string) (at_ : Z) : M AccountDB unit :=
  db ← get; s ← found (sessions db) id; put_session id (set_RevokedAt at_ s).

(** [now] is the store's own reading of the clock. *)
Definition TouchSession (now : Z) (id : string) (expiresAt : Z) : M AccountDB unit :=
  db ← get;
  s ← found (sessions db) id;
  if negb (Session_RevokedAt s =? 0)
     || (negb (Session_ExpiresAt s =? 0) && (Session_ExpiresAt s <=? now)) then mret tt
  else if Session_ExpiresAt s <? expiresAt then put_session id (set_ExpiresAt expiresAt s)
  else mret tt.

Definition RotateResumeToken (sessionID oldHash newHash : string) (at_ : Z) : M AccountDB unit :=
  db ← get;
  s ← found (sessions db) sessionID;
  if negb (bool_decide (Session_ResumeToken s = oldHash)) then fail store_ErrNotFound
  else
    put_session sessionID (set_rotated oldHash newHash at_ s);;
    modify (λ db, set_indexes (tokenIndex db)
      (<[newHash := sessionID]> (delete oldHash (resumeIndex db)))
      (<[oldHash := sessionID]> (prevResumeIndex db)) db).

Section ranged.
Context `{RangeOrder}.

Definition ListDevices (userID : string) : M AccountDB (list Device) :=
  gets (λ db, filter (λ d, Device_UserID d = userID) (range_map (devices db)).*2).

Definition ListSessions (userID : string) : M AccountDB (list Session) :=
  gets (λ db, filter (λ s, Session_UserID s = userID) (range_map (sessions db)).*2).

(** [sort.Slice] by user id. *)
Definition ListPlatformRoles : M AccountDB (list PlatformRoleGrant) :=
  gets (λ db, omap (λ uid, platformRoles db !! uid) (sort_Strings (range_keys (platformRoles db)))).
End ranged.

(** ** Platform roles *)

Definition PlatformRole_ (userID : string) : M AccountDB PlatformRole :=
  gets (λ db, default "" (Grant_Role <$> platformRoles db !! userID)).

Definition SetPlatformRole (g : PlatformRoleGrant) : M AccountDB unit :=
  db ← get;
  found (users db) (Grant_UserID g);;
  modify (set_platformRoles (<[Grant_UserID g := g]> (platformRoles db))).

Definition RemovePlatformRole (userID : string) : M AccountDB unit :=
  modify (λ db, set_platformRoles (delete userID (platformRoles db)) db).

(** ** The second factor *)

Definition PutTwoFactor (tf : TwoFactor) : M AccountDB unit :=
  modify (λ db, set_twoFactor (<[TF_UserID tf := tf]> (twoFactor db)) db).
Definition GetTwoFactor (userID : string) : M AccountDB TwoFactor :=
  db ← get; found (twoFactor db) userID.
Definition DeleteTwoFactor (userID : string) : M AccountDB unit :=
  modify (λ db, set_twoFactor (delete userID (twoFactor db)) db).

(** Drop the first occurrence. *)
Fixpoint remove_first (h : string) (hs : list string) : list string :=
  match hs with
  | [] => []
  | h' :: hs => if bool_decide (h' = h) then hs else h' :: remove_first h hs
  end.

Definition ConsumeRecoveryCode (userID hash : string) : M AccountDB bool :=
  db ← get;
  match twoFactor db !! userID with
  | None => mret false
  | Some tf =>
      if bool_decide (hash ∈ TF_RecoveryHashes tf) then
        modify (set_twoFactor (<[userID :=
          set_RecoveryHashes (remove_first hash (TF_RecoveryHashes tf)) tf]> (twoFactor db)));;
        mret true
      else mret false
  end.
