(* ===== verification/TwoFactor.v ===== *)
(** * The second factor

    [internal/auth] twofactor.go over the account store: TOTP enrolment in two steps,
    recovery codes, and the check the login path makes.  AES-256-GCM ([crypto/aes],
    [crypto/cipher]) is the parameter [AEAD]; the environment variable with the key, the
    clock (unix seconds for codes, milliseconds for rows) and random bytes are arguments. *)

From Stdlib Require Import Strings.Byte.
From S2P Require Import Prelude Bytes Base64 GoStrings Sha Totp Password Model MemAccounts.

(** ** AES-GCM *)

Class AEAD := {
  aead_Seal : bytes → bytes → bytes → bytes;
  aead_Open : bytes → bytes → bytes → option bytes;
}.
Class AEADLaws `{AEAD} := {
  aead_roundtrip key nonce pt :
    len key = 32 → len nonce = 12 → aead_Open key nonce (aead_Seal key nonce pt) = Some pt;
}.
Definition NonceSize : Z := 12.

(** ** Recovery codes *)

Definition recoveryCodeCount : nat := 10.
Definition recoveryCodeLen : nat := 12.
Definition recoveryCodeBytes : nat := 16.

Definition unambiguous (r : byte) : byte :=
  let z := Zbyte r in
  if (z =? 48) || (z =? 79) then byteZ 56
  else if (z =? 49) || (z =? 73) || (z =? 76) then byteZ 57 else r.

(** The code printed for one block of random bytes. *)
Definition recovery_code (b : bytes) : bytes :=
  let raw := take recoveryCodeLen (unambiguous <$> b32_encode b) in
  take 6 raw ++ byteZ 45 :: drop 6 raw.

Section twofactor.
Context `{Unicode} `{Argon2} `{AEAD}.
(** [SYNCAPP_TOTP_KEY], and whether a store is attached ([WithTwoFactor]). *)
Variable totp_env : bytes.
Variable attached : bool.

Definition normalizeRecoveryCode (code : bytes) : bytes :=
  remove_byte (byteZ 32) (remove_byte (byteZ 45) (ToUpper (TrimSpace code))).

(** The loop, with the random reads (code, salt) it makes; a missing read is a failed one. *)
Fixpoint recovery_loop (n : nat) (rands : list (option bytes * option bytes))
    : result (list bytes * list string) :=
  match n, rands with
  | O, _ => Ok ([], [])
  | S n, (Some b, salt) :: rands =>
      let code := recovery_code b in
      match hashPassword salt (bstring (normalizeRecoveryCode code)) with
      | Err e => Err e
      | Ok h =>
          match recovery_loop n rands with
          | Err e => Err e
          | Ok (plain, hashes) => Ok (code :: plain, h :: hashes)
          end
      end
  | S n, _ => Err rand_error
  end.

Definition newRecoveryCodes (rands : list (option bytes * option bytes))
    : result (list bytes * list string) := recovery_loop recoveryCodeCount rands.

(** ** Secret sealing *)

Definition totpKey : result bytes :=
  let raw := TrimSpace totp_env in
  if bool_decide (raw = []) then Err auth_ErrNoTOTPKey
  else
    let key := default raw (b64_DecodeString raw) in
    if negb (len key =? 32) then Err auth_ErrNoTOTPKey else Ok key.

Definition sealSecret (nonce : option bytes) (key secret : bytes) : result string :=
  match nonce with
  | None => Err rand_error
  | Some nonce => Ok (bstring (b64_EncodeToString (nonce ++ aead_Seal key nonce secret)))
  end.

Definition openSecret (key : bytes) (sealed : string) : result bytes :=
  match b64_DecodeString (sbytes sealed) with
  | None => Err other_error
  | Some raw =>
      if len raw <? NonceSize then Err other_error
      else match aead_Open key (ztake NonceSize raw) (zdrop NonceSize raw) with
           | None => Err other_error
           | Some pt => Ok pt
           end
  end.

(** ** Enrolment *)

Definition twoFactorStore : M AccountDB unit := guard_or attached store_ErrUnsupported.

Definition BeginTOTP (secret_rand nonce : option bytes) (now : Z) (userID issuer : string)
    : M AccountDB (bytes * bytes) :=
  twoFactorStore;;
  key ← lift totpKey;
  existing ← attempt (GetTwoFactor userID);
  (match existing with
   | Ok tf => guard_or (negb (TF_Enabled tf)) auth_ErrTwoFactorEnabled
   | Err e => guard_or (bool_decide (e = store_ErrNotFound)) e
   end);;
  u ← GetUser userID;
  secret ← lift (GenerateSecret secret_rand);
  enc ← lift (sealSecret nonce key secret);
  PutTwoFactor (mkTwoFactor userID enc 0 [] now);;
  mret (secret, ProvisioningURI (sbytes issuer) (sbytes (User_Username u)) secret).

Definition ConfirmTOTP (rands : list (option bytes * option bytes)) (secs now : Z)
    (userID : string) (code : bytes) : M AccountDB (list bytes) :=
  twoFactorStore;;
  key ← lift totpKey;
  tf ← GetTwoFactor userID;
  guard_or (negb (TF_Enabled tf)) auth_ErrTwoFactorEnabled;;
  secret ← lift (openSecret key (TF_SecretEnc tf));
  guard_or (Verify secret code secs) auth_ErrBadTOTPCode;;
  '(plain, hashes) ← lift (newRecoveryCodes rands);
  PutTwoFactor (mkTwoFactor (TF_UserID tf) (TF_SecretEnc tf) now hashes (TF_CreatedAt tf));;
  mret plain.

Definition TwoFactorEnabled (userID : string) : M AccountDB bool :=
  if negb attached then mret false
  else
    r ← attempt (GetTwoFactor userID);
    mret (match r with Ok tf => TF_Enabled tf | Err _ => false end).

Definition RecoveryCodesLeft (userID : string) : M AccountDB Z :=
  if negb attached then mret 0
  else
    r ← attempt (GetTwoFactor userID);
    mret (match r with Ok tf => len (TF_RecoveryHashes tf) | Err _ => 0 end).

(** ** The check at login *)

Definition totp_matches (key : bytes) (tf : TwoFactor) (code : bytes) (secs : Z) : bool :=
  match openSecret key (TF_SecretEnc tf) with
  | Ok secret => Verify secret code secs
  | Err _ => false
  end.

(** The first stored hash a recovery code verifies against. *)
Definition recovery_match (tf : TwoFactor) (code : bytes) : option string :=
  find (verifyPassword (bstring (normalizeRecoveryCode code))) (TF_RecoveryHashes tf).

Definition verifySecondFactor (secs : Z) (userID : string) (code : bytes) : M AccountDB bool :=
  twoFactorStore;;
  tf ← GetTwoFactor userID;
  key ← lift totpKey;
  if totp_matches key tf code secs then mret true
  else
    match recovery_match tf code with
    | None => mret false
    | Some h => ConsumeRecoveryCode userID h
    end.

Definition DisableTOTP (secs : Z) (userID password : string) (code : bytes) : M AccountDB unit :=
  twoFactorStore;;
  u ← GetUser userID;
  guard_or (verifyPassword password (User_PasswordHash u)) auth_ErrWrongPassword;;
  ok ← verifySecondFactor secs userID code;
  guard_or ok auth_ErrBadTOTPCode;;
  DeleteTwoFactor userID.
End twofactor.

(** ** Lemmas *)

Lemma remove_first_length h hs : h ∈ hs → len (remove_first h hs) = len hs - 1.
Proof.
  induction hs as [|x hs IH]; intros Hin; [by apply not_elem_of_nil in Hin|]. simpl.
  destruct (bool_decide_reflect (x = h)) as [->|Hne]; [rewrite len_cons; lia|].
  apply elem_of_cons in Hin as [->|Hin]; [done|]. rewrite !len_cons, IH by done. lia.
Qed.

Section proofs.
Context `{Unicode} `{Argon2} `{!Argon2Laws} `{AEAD} `{!AEADLaws}.
Variable totp_env : bytes.

Lemma openSecret_seal key nonce secret enc :
  len key = 32 → len nonce = 12 → sealSecret (Some nonce) key secret = Ok enc →
  openSecret key enc = Ok secret.
Proof.
  intros Hk Hn Hs. unfold sealSecret in Hs.
  match type of Hs with Ok ?x = Ok enc => assert (enc = x) as -> by congruence end. clear Hs.
  unfold openSecret. rewrite sbytes_bstring, b64_roundtrip.
  rewrite (proj2 (Z.ltb_ge _ _)).
  2:{ rewrite len_app, Hn. pose proof (len_nonneg (aead_Seal key nonce secret)). unfold NonceSize. lia. }
  unfold ztake, zdrop, NonceSize. unfold len in Hn.
  rewrite take_app_length', drop_app_length' by lia.
  by rewrite aead_roundtrip.
Qed.

Lemma totpKey_len key : totpKey totp_env = Ok key → len key = 32.
Proof.
  unfold totpKey. case_bool_decide; [done|]. destruct (Z.eqb_spec (len (default (TrimSpace totp_env)
    (b64_DecodeString (TrimSpace totp_env)))) 32) as [Hl|]; simpl; [|done]. by intros [= <-].
Qed.

Lemma recovery_loop_ok n rands plain hashes :
  recovery_loop n rands = Ok (plain, hashes) →
  Forall2 (λ c h, verifyPassword (bstring (normalizeRecoveryCode c)) h = true) plain hashes ∧
  length plain = n.
Proof.
  revert rands plain hashes. induction n as [|n IH]; intros rands plain hashes.
  { intros [= <- <-]. done. }
  destruct rands as [|[[b|] salt] rands]; [done| |done].
  cbn [recovery_loop]. destruct (hashPassword salt _) as [h|e] eqn:Eh; [|done].
  destruct (recovery_loop n rands) as [[ps hs]|e] eqn:Er; [|done]. intros [= <- <-].
  destruct (IH rands ps hs Er) as [IH1 IH2]. split; [|simpl; by rewrite IH2].
  constructor; [|done]. destruct salt as [salt|]; [|done].
  rewrite (verifyPassword_hash salt _ _ h Eh). by apply bool_decide_eq_true.
Qed.

Lemma recovery_loop_total bs salts :
  length bs = length salts →
  ∃ plain hashes, recovery_loop (length bs) (zip (Some <$> bs) (Some <$> salts)) = Ok (plain, hashes).
Proof.
  revert salts. induction bs as [|b bs IH]; intros [|salt salts] Hl; try done; [by eexists _, _|].
  injection Hl as Hl. destruct (IH salts Hl) as (ps & hs & E). rewrite !fmap_cons.
  change (zip (Some b :: (Some <$> bs)) (Some salt :: (Some <$> salts)))
    with ((Some b, Some salt) :: zip (Some <$> bs) (Some <$> salts)).
  cbn [recovery_loop length]. rewrite E. by eexists _, _.
Qed.

Lemma TwoFactorEnabled_eq attached u db :
  TwoFactorEnabled attached u db =
  (db, Ok (attached && match twoFactor db !! u with Some tf => TF_Enabled tf | None => false end)).
Proof.
  unfold TwoFactorEnabled. destruct attached; [|done]. cbn [negb]. rewrite M_bind_eq.
  unfold attempt, GetTwoFactor. rewrite M_bind_eq. cbn [get]. unfold found.
  by destruct (twoFactor db !! u).
Qed.

Lemma GetTwoFactor_eq u db :
  GetTwoFactor u db =
  (db, match twoFactor db !! u with Some tf => Ok tf | None => Err store_ErrNotFound end).
Proof. unfold GetTwoFactor. rewrite M_bind_eq. cbn [get]. unfold found. by case_match. Qed.

(** *** The check, by cases *)

Lemma verify_totp secs u code db tf key :
  totpKey totp_env = Ok key → twoFactor db !! u = Some tf →
  totp_matches key tf code secs = true →
  verifySecondFactor totp_env true secs u code db = (db, Ok true).
Proof.
  intros Hk Htf Hm. unfold verifySecondFactor, twoFactorStore. cbn [guard_or].
  rewrite (bind_Ok _ _ _ db tt), (bind_Ok _ _ _ db tf), (bind_Ok _ _ _ db key);
    [by rewrite Hm | by rewrite <- Hk | by rewrite GetTwoFactor_eq, Htf | done].
Qed.

Lemma verify_recovery secs u code db tf key :
  totpKey totp_env = Ok key → twoFactor db !! u = Some tf →
  totp_matches key tf code secs = false →
  verifySecondFactor totp_env true secs u code db =
  match recovery_match tf code with
  | None => (db, Ok false)
  | Some h => (set_twoFactor (<[u := set_RecoveryHashes
                 (remove_first h (TF_RecoveryHashes tf)) tf]> (twoFactor db)) db, Ok true)
  end.
Proof.
  intros Hk Htf Hm. unfold verifySecondFactor, twoFactorStore. cbn [guard_or].
  rewrite (bind_Ok _ _ _ db tt), (bind_Ok _ _ _ db tf), (bind_Ok _ _ _ db key);
    [|by rewrite <- Hk | by rewrite GetTwoFactor_eq, Htf | done].
  rewrite Hm. destruct (recovery_match tf code) as [h|] eqn:Er; [|done].
  apply find_some in Er as [Hin _]. apply list_elem_of_In in Hin.
  unfold ConsumeRecoveryCode. rewrite M_bind_eq. cbn [get]. rewrite Htf.
  by rewrite bool_decide_true.
Qed.

(** A stored code is accepted, by TOTP coincidence or as itself. *)
Lemma verify_known_code secs u code db tf key h :
  totpKey totp_env = Ok key → twoFactor db !! u = Some tf →
  h ∈ TF_RecoveryHashes tf → verifyPassword (bstring (normalizeRecoveryCode code)) h = true →
  ∃ db', verifySecondFactor totp_env true secs u code db = (db', Ok true).
Proof.
  intros Hk Htf Hin Hv. destruct (totp_matches key tf code secs) eqn:Hm.
  { exists db. by eapply verify_totp. }
  rewrite (verify_recovery secs u code db tf key) by done. unfold recovery_match.
  destruct (find _ _) as [h'|] eqn:Ef; [by eexists|]. apply list_elem_of_In in Hin.
  by rewrite (find_none _ _ Ef h Hin) in Hv.
Qed.

(** *** Enrolment *)

Definition enabled_at (u : string) (db : AccountDB) : bool :=
  match twoFactor db !! u with Some tf => TF_Enabled tf | None => false end.

Lemma BeginTOTP_ok db u user key b nonce now issuer :
  totpKey totp_env = Ok key → users db !! u = Some user → enabled_at u db = false →
  ∃ enc, sealSecret (Some nonce) key (b32_encode b) = Ok enc ∧
    BeginTOTP totp_env true (Some b) (Some nonce) now u issuer db =
    (set_twoFactor (<[u := mkTwoFactor u enc 0 [] now]> (twoFactor db)) db,
     Ok (b32_encode b, ProvisioningURI (sbytes issuer) (sbytes (User_Username user)) (b32_encode b))).
Proof.
  intros Hk Hu He. eexists. split; [done|]. unfold BeginTOTP, twoFactorStore.
  rewrite (bind_Ok _ _ _ db tt), (bind_Ok _ _ _ db key) by (done || by rewrite <- Hk).
  rewrite M_bind_eq. unfold attempt. rewrite GetTwoFactor_eq.
  rewrite (bind_Ok _ _ _ db tt).
  2:{ unfold enabled_at in He. destruct (twoFactor db !! u); [by rewrite He | done]. }
  rewrite (bind_Ok _ _ _ db user) by (unfold GetUser; rewrite M_bind_eq; simpl; unfold found; by rewrite Hu).
  done.
Qed.

Lemma ConfirmTOTP_ok db u tf key secret code secs now rands plain hashes :
  totpKey totp_env = Ok key → twoFactor db !! u = Some tf → TF_Enabled tf = false →
  openSecret key (TF_SecretEnc tf) = Ok secret → Verify secret code secs = true →
  newRecoveryCodes rands = Ok (plain, hashes) →
  ConfirmTOTP totp_env true rands secs now u code db =
  (set_twoFactor (<[TF_UserID tf := mkTwoFactor (TF_UserID tf) (TF_SecretEnc tf) now hashes
     (TF_CreatedAt tf)]> (twoFactor db)) db, Ok plain).
Proof.
  intros Hk Htf He Ho Hv Hr. unfold ConfirmTOTP, twoFactorStore.
  rewrite (bind_Ok _ _ _ db tt), (bind_Ok _ _ _ db key), (bind_Ok _ _ _ db tf), (bind_Ok _ _ _ db tt),
    (bind_Ok _ _ _ db secret), (bind_Ok _ _ _ db tt), (bind_Ok _ _ _ db (plain, hashes)); [done|..];
    unfold lift; rewrite ?Hr, ?Hv, ?Ho, ?He, ?Hk; try done.
  by rewrite GetTwoFactor_eq, Htf.
Qed.

(** Enrolment works end to end.  [BeginTOTP] enforces nothing yet; a code computed
    from the secret it returned confirms it; from then on the account enforces the factor,
    the authenticator's codes are accepted while the clocks are within a step, and so is
    each of the recovery codes that were shown. *)
Theorem enrolment_works db u user key b nonce now issuer bs salts secs now' code :
  totpKey totp_env = Ok key → users db !! u = Some user → enabled_at u db = false →
  length b = secretBytes → len nonce = NonceSize → length bs = recoveryCodeCount →
  length salts = recoveryCodeCount → 0 ≤ secs < 2 ^ 63 → now' ≠ 0 → Code (b32_encode b) secs = Ok code →
  ∃ db1 db2 uri plain,
    BeginTOTP totp_env true (Some b) (Some nonce) now u issuer db = (db1, Ok (b32_encode b, uri)) ∧
    (TwoFactorEnabled true u db1).2 = Ok false ∧
    ConfirmTOTP totp_env true (zip (Some <$> bs) (Some <$> salts)) secs now' u code db1 = (db2, Ok plain) ∧
    (TwoFactorEnabled true u db2).2 = Ok true ∧ length plain = recoveryCodeCount ∧
    (∀ at_ code' now, 0 ≤ at_ < 2 ^ 63 → 0 ≤ now < 2 ^ 63 → Z.abs (step now - step at_) ≤ 1 →
       Code (b32_encode b) at_ = Ok code' →
       verifySecondFactor totp_env true now u code' db2 = (db2, Ok true)) ∧
    (∀ c now, c ∈ plain → ∃ db3, verifySecondFactor totp_env true now u c db2 = (db3, Ok true)).
Proof.
  intros Hk Hu He Hb Hn Hbs Hsalts Hs Hnow Hcode.
  destruct (BeginTOTP_ok db u user key b nonce now issuer Hk Hu He) as (enc & Henc & Hbegin).
  pose proof (openSecret_seal key nonce (b32_encode b) enc (totpKey_len key Hk) Hn Henc) as Hopen.
  assert (decodeSecret (b32_encode b) = Ok b) as Hdec by (apply decodeSecret_encode; by intros ->).
  destruct (recovery_loop_total bs salts) as (plain & hashes & Hrec); [congruence|].
  rewrite Hbs in Hrec.
  set (db1 := set_twoFactor _ db) in Hbegin.
  assert (twoFactor db1 !! u = Some (mkTwoFactor u enc 0 [] now)) as Htf1 by apply lookup_insert_eq.
  pose proof (ConfirmTOTP_ok db1 u _ key (b32_encode b) code secs now' _ plain hashes Hk Htf1
    eq_refl Hopen (Verify_Code _ b secs secs code Hdec Hs Hs Hcode ltac:(lia)) Hrec) as Hconf.
  cbn [TF_UserID TF_SecretEnc TF_CreatedAt] in Hconf. set (db2 := set_twoFactor _ db1) in Hconf.
  assert (twoFactor db2 !! u = Some (mkTwoFactor u enc now' hashes now)) as Htf2 by apply lookup_insert_eq.
  destruct (recovery_loop_ok _ _ plain hashes Hrec) as [Hall Hplain].
  exists db1, db2. eexists. exists plain. split; [exact Hbegin|]. rewrite !TwoFactorEnabled_eq, Htf1, Htf2.
  split; [done|]. split; [done|]. split.
  { unfold TF_Enabled. simpl. by destruct (Z.eqb_spec now' 0). }
  split; [done|]. split.
  - intros at_ code' t Ha Ht Hd Hc'. eapply verify_totp; [exact Hk | exact Htf2 |].
    unfold totp_matches. cbn [TF_SecretEnc].
    rewrite Hopen. exact (Verify_Code _ b at_ t code' Hdec Ha Ht Hc' Hd).
  - intros c t Hc. apply list_elem_of_lookup in Hc as [i Hc].
    destruct (Forall2_lookup_l _ _ _ _ _ Hall Hc) as (h & Hh & Hv).
    eapply verify_known_code; [exact Hk | exact Htf2 | |exact Hv].
    cbn [TF_RecoveryHashes]. by eapply list_elem_of_lookup_2.
Qed.

(** A recovery code works once.  Accepting one removes the stored hash it matched and
    nothing else, so one code fewer is left; if no other stored hash matches the code, it
    is refused from then on. *)
Theorem recovery_code_single_use secs u code db tf key h :
  totpKey totp_env = Ok key → twoFactor db !! u = Some tf →
  totp_matches key tf code secs = false → recovery_match tf code = Some h →
  ∃ db' tf', verifySecondFactor totp_env true secs u code db = (db', Ok true) ∧
    twoFactor db' !! u = Some tf' ∧ TF_RecoveryHashes tf' = remove_first h (TF_RecoveryHashes tf) ∧
    (RecoveryCodesLeft true u db').2 = Ok (len (TF_RecoveryHashes tf) - 1) ∧
    TF_Enabled tf' = TF_Enabled tf ∧ users db' = users db ∧ sessions db' = sessions db ∧
    (∀ secs', totp_matches key tf code secs' = false →
       (∀ h', h' ∈ remove_first h (TF_RecoveryHashes tf) →
          verifyPassword (bstring (normalizeRecoveryCode code)) h' = false) →
       verifySecondFactor totp_env true secs' u code db' = (db', Ok false)).
Proof.
  intros Hk Htf Hm Hr. rewrite (verify_recovery secs u code db tf key), Hr by done.
  set (tf' := set_RecoveryHashes _ tf). set (db' := set_twoFactor _ db).
  assert (twoFactor db' !! u = Some tf') as Htf' by apply lookup_insert_eq.
  assert (h ∈ TF_RecoveryHashes tf) as Hin.
  { apply find_some in Hr as [Hin _]. by apply list_elem_of_In. }
  exists db', tf'. split_and!; [done..| |done|done|done|].
  - unfold RecoveryCodesLeft. cbn [negb]. rewrite M_bind_eq. unfold attempt.
    rewrite GetTwoFactor_eq, Htf'. cbn [snd mret M_ret]. do 2 f_equal. by apply remove_first_length.
  - intros secs' Hm' Hnone. rewrite (verify_recovery secs' u code db' tf' key) by done.
    unfold recovery_match. destruct (find _ _) as [h'|] eqn:Ef; [|done].
    apply find_some in Ef as [Hin' Hv]. apply list_elem_of_In in Hin'. by rewrite Hnone in Hv.
Qed.

(** Disabling the factor takes the password and a code: if [DisableTOTP] removes an
    enabled factor, the password matched the account's record and the code was a live TOTP
    code or one of the stored recovery codes. *)
Theorem disable_needs_both secs u pw code db db' r tf user :
  DisableTOTP totp_env true secs u pw code db = (db', r) →
  twoFactor db !! u = Some tf → users db !! u = Some user → twoFactor db' !! u = None →
  r = Ok tt ∧ verifyPassword pw (User_PasswordHash user) = true ∧
  ∃ key, totpKey totp_env = Ok key ∧
    (totp_matches key tf code secs = true ∨ is_Some (recovery_match tf code)).
Proof.
  intros Hd Htf Hu Hgone. unfold DisableTOTP, twoFactorStore in Hd.
  rewrite (bind_Ok _ _ _ db tt) in Hd by done.
  rewrite (bind_Ok _ _ _ db user) in Hd
    by (unfold GetUser; rewrite M_bind_eq; simpl; unfold found; by rewrite Hu).
  destruct (verifyPassword pw _) eqn:Hv.
  2:{ rewrite (bind_Err _ _ _ db auth_ErrWrongPassword) in Hd by done. congruence. }
  rewrite (bind_Ok _ _ _ db tt) in Hd by done.
  destruct (totpKey totp_env) as [key|e] eqn:Hk.
  2:{ unfold verifySecondFactor, twoFactorStore in Hd. rewrite M_bind_eq in Hd.
      rewrite (bind_Ok _ _ _ db tt), (bind_Ok _ _ _ db tf) in Hd
        by (done || by rewrite GetTwoFactor_eq, Htf).
      rewrite Hk in Hd. simpl in Hd. congruence. }
  destruct (totp_matches key tf code secs) eqn:Hm.
  { rewrite (bind_Ok _ _ _ db true) in Hd by (by eapply verify_totp).
    injection Hd as <- <-. split_and!; [done..|]. exists key. auto. }
  rewrite M_bind_eq, (verify_recovery secs u code db tf key) in Hd by done.
  destruct (recovery_match tf code) as [h|] eqn:Hr.
  - injection Hd as <- <-. split_and!; [done..|]. exists key. eauto.
  - injection Hd as <- <-. congruence.
Qed.
End proofs.

(** ** Witnesses *)

Section witnesses.
#[local] Existing Instance toy_argon.
#[local] Existing Instance toy_laws.
#[local] Existing Instance ascii_tables.
(** A cipher that keeps the plaintext: enough to run the code. *)
#[local] Instance toy_aead : AEAD := {|
  aead_Seal _ _ pt := pt; aead_Open _ _ ct := Some ct |}.
#[local] Instance toy_aead_laws : AEADLaws.
Proof. by constructor. Defined.

Definition w_env : bytes := sbytes "0123456789ABCDEF0123456789ABCDE!".
Definition w_user : User := mkUser "u1" "alice" "Alice" "" toy_record 1 DefaultPrivacy.
Definition w_accounts : AccountDB := set_users {["u1" := w_user]} MemAccounts.New.
Definition w_codes : list bytes :=
  (λ i, replicate recoveryCodeBytes (byteZ (97 + i))) <$> [0; 1; 2; 3; 4; 5; 6; 7; 8; 9].
Definition w_salts : list bytes :=
  (λ i, replicate saltLen (byteZ (65 + i))) <$> [0; 1; 2; 3; 4; 5; 6; 7; 8; 9].

Lemma w_env_key : totpKey w_env = Ok w_env.
Proof. by vm_compute. Qed.

Lemma enrolment_works_witness :
  ∃ db1 db2 uri plain,
    BeginTOTP w_env true (Some rfc_key) (Some (sbytes "nonce-nonce-")) 5 "u1" "Sync App" w_accounts
      = (db1, Ok (b32_encode rfc_key, uri)) ∧
    ConfirmTOTP w_env true (zip (Some <$> w_codes) (Some <$> w_salts)) 59 6 "u1" (sbytes "287082") db1
      = (db2, Ok plain) ∧ length plain = 10%nat.
Proof.
  destruct (enrolment_works w_env w_accounts "u1" w_user w_env rfc_key (sbytes "nonce-nonce-") 5
    "Sync App" w_codes w_salts 59 6 (sbytes "287082")) as (db1 & db2 & uri & plain & H1 & _ & H2 & _ & H3 & _);
    [exact w_env_key | reflexivity | reflexivity | reflexivity | reflexivity | reflexivity
    | reflexivity | lia | discriminate | by vm_compute |].
  exists db1, db2, uri, plain. exact (conj H1 (conj H2 H3)).
Defined.

(** The account with two recovery codes, as printed. *)
Definition w_hash (i : nat) : string :=
  match hashPassword (w_salts !! i) (bstring (normalizeRecoveryCode
    (recovery_code (nth i w_codes [])))) with Ok h => h | Err _ => "" end.
Definition w_tf : TwoFactor := mkTwoFactor "u1" "" 6 [w_hash 0; w_hash 1] 5.
Definition w_enrolled : AccountDB := set_twoFactor {["u1" := w_tf]} w_accounts.
(** The second code, transcribed in lower case with a space. *)
Definition w_typed : bytes := sbytes "mjrge y-tcmjrg".

Lemma recovery_code_single_use_witness :
  ∃ db', verifySecondFactor w_env true 59 "u1" w_typed w_enrolled = (db', Ok true) ∧
    (RecoveryCodesLeft true "u1" db').2 = Ok 1.
Proof.
  destruct (recovery_code_single_use w_env 59 "u1" w_typed w_enrolled w_tf w_env (w_hash 1))
    as (db' & tf' & H1 & _ & _ & H2 & _);
    [exact w_env_key | reflexivity | by vm_compute | by vm_compute |].
  exists db'. exact (conj H1 H2).
Defined.

Lemma disable_needs_both_witness :
  let r := DisableTOTP w_env true 59 "u1" "secret" w_typed w_enrolled in
  r.2 = Ok tt ∧ verifyPassword "secret" (User_PasswordHash w_user) = true.
Proof.
  intros r.
  destruct (disable_needs_both w_env 59 "u1" "secret" w_typed w_enrolled r.1 r.2 w_tf w_user)
    as (H1 & H2 & _); [unfold r; by destruct (DisableTOTP _ _ _ _ _ _ _) | reflexivity
    | reflexivity | by vm_compute |].
  exact (conj H1 H2).
Defined.
End witnesses.
