(* ===== verification/Auth.v ===== *)
(** * The identity service

    [internal/auth] auth.go, sessions.go, password.go and constants.go over the account
    store: registration, login with the second factor, session validation, the rolling
    expiry, resume-token rotation with replay detection, and revocation.  Every reading of
    the clock, every fresh id and every block of random bytes is an argument, in the order
    the code takes them. *)

From Stdlib Require Import Strings.Byte.
From S2P Require Import Prelude Bytes GoStrings Sha Totp Password Model MemAccounts TwoFactor.

(** In milliseconds. *)
Definition SessionTTL : Z := 14 * 24 * 3600 * 1000.
Definition SessionRefreshAfter : Z := SessionTTL `quot` 2.
Definition MinUsernameLen : Z := 3.
Definition MaxUsernameLen : Z := 32.
Definition MinPasswordLen : Z := 6.

(** The class [[a-z0-9_.-]] of [usernameRe]. *)
Definition handle_byte (c : byte) : bool :=
  let z := Zbyte c in
  ((97 <=? z) && (z <=? 122)) || ((48 <=? z) && (z <=? 57))
  || (z =? 95) || (z =? 46) || (z =? 45).
(** [^[a-z0-9_.-]+$]; the end anchor without the multi-line flag is the end of the text. *)
Definition usernameRe (b : bytes) : bool := negb (bool_decide (b = [])) && forallb handle_byte b.

Definition ValidateUsername (username : bytes) : result unit :=
  if (len username <? MinUsernameLen) || (MaxUsernameLen <? len username)
  then Err auth_ErrBadUsername
  else if negb (usernameRe username) then Err auth_ErrBadUsername
  else Ok tt.

(** The resolved principal; a pair of copies of the rows. *)
Record Identity := mkIdentity {
  Identity_Session : Session;
  Identity_User : User;
}.

Definition validSession (now : Z) (s : Session) : result unit :=
  if negb (Session_RevokedAt s =? 0) then Err auth_ErrInvalidSession
  else if negb (Session_ExpiresAt s =? 0) && (Session_ExpiresAt s <? now)
       then Err auth_ErrInvalidSession
  else Ok tt.

(** What [startSession] draws: a device id when the client gave none, a second one when the
    first is taken, the session id, two blocks of random bytes, the clock. *)
Record Draw := mkDraw {
  Draw_device : string;
  Draw_device2 : string;
  Draw_session : string;
  Draw_token : option bytes;
  Draw_resume : option bytes;
  Draw_now : Z;
}.

(** [errors.Is(err, from)] replaced by [to]. *)
Definition on_error {A} (from to : error) (r : result A) : result A :=
  match r with
  | Err e => if bool_decide (e = from) then Err to else Err e
  | Ok a => Ok a
  end.

Definition startSession (d : Draw) (u : User) (deviceID platform : string)
    : M AccountDB Session :=
  let deviceID := if bool_decide (deviceID = "") then Draw_device d else deviceID in
  let now := Draw_now d in
  let dev id := mkDevice id (User_ID u) platform "" now now in
  r ← attempt (UpsertDevice (dev deviceID));
  deviceID ← match r with
             | Ok _ => mret deviceID
             | Err e =>
                 guard_or (bool_decide (e = store_ErrConflict)) e;;
                 UpsertDevice (dev (Draw_device2 d));;
                 mret (Draw_device2 d)
             end;
  plainToken ← lift (randToken (Draw_token d));
  plainResume ← lift (randToken (Draw_resume d));
  let sess := mkSession (Draw_session d) (User_ID u) deviceID (hashToken plainToken)
    (hashToken plainResume) now (now + SessionTTL) 0 "" 0 in
  CreateSession sess;;
  mret (set_tokens plainToken plainResume sess).

(** [sess] is the caller's copy, returned as it is left. *)
Definition refresh (now1 now2 store_now : Z) (sess : Session) : M AccountDB Session :=
  if Session_ExpiresAt sess =? 0 then mret sess
  else
    let remaining := Session_ExpiresAt sess - now1 in
    if SessionTTL - SessionRefreshAfter <? remaining then mret sess
    else
      let next := now2 + SessionTTL in
      r ← attempt (TouchSession store_now (Session_ID sess) next);
      mret (match r with Ok _ => set_ExpiresAt next sess | Err _ => sess end).

Definition Authenticate (now now1 now2 store_now : Z) (token : string) : M AccountDB Identity :=
  r ← attempt (GetSessionByToken (hashToken token));
  sess ← lift (on_error store_ErrNotFound auth_ErrInvalidSession r);
  lift (validSession now sess);;
  sess ← refresh now1 now2 store_now sess;
  u ← GetUser (Session_UserID sess);
  mret (mkIdentity sess u).

Definition detectResumeReplay (now : Z) (hashedToken : string) : M AccountDB bool :=
  r ← attempt (GetSessionByConsumedResumeToken hashedToken);
  match r with
  | Err _ => mret false
  | Ok sess =>
      (if Session_RevokedAt sess =? 0
       then attempt (RevokeSession (Session_ID sess) now);; mret tt
       else mret tt);;
      mret true
  end.

(** [now] for the validity check, [now'] for the rotation, the replay or the revocation. *)
Definition Resume (rand : option bytes) (now now' now'' : Z) (resumeToken : string)
    : M AccountDB Identity :=
  let hashed := hashToken resumeToken in
  r ← attempt (GetSessionByResumeToken hashed);
  match r with
  | Err e =>
      if bool_decide (e = store_ErrNotFound) then
        replayed ← detectResumeReplay now hashed;
        if (replayed : bool) then fail auth_ErrResumeReplayed else fail auth_ErrInvalidSession
      else fail e
  | Ok sess =>
      lift (validSession now sess);;
      plainNext ← lift (randToken rand);
      rot ← attempt (RotateResumeToken (Session_ID sess) hashed (hashToken plainNext) now');
      match rot with
      | Err e =>
          if bool_decide (e = store_ErrNotFound) then
            attempt (RevokeSession (Session_ID sess) now'');; fail auth_ErrResumeReplayed
          else fail e
      | Ok _ =>
          u ← GetUser (Session_UserID sess);
          mret (mkIdentity (set_tokens (Session_Token sess) plainNext sess) u)
      end
  end.

Definition Revoke (now : Z) (sessionID : string) : M AccountDB unit :=
  RevokeSession sessionID now.

Section service.
Context `{Unicode} `{Argon2} `{AEAD} `{RangeOrder}.
Variable totp_env : bytes.
Variable attached : bool.

Definition handle_of (username : string) : bytes :=
  TrimPrefix (byteZ 64) (TrimSpace (ToLower (sbytes username))).

Definition Register (salt : option bytes) (userID : string) (now : Z) (d : Draw)
    (username password displayName deviceID platform : string) : M AccountDB (Session * User) :=
  let name := handle_of username in
  lift (ValidateUsername name);;
  guard_or (MinPasswordLen <=? len (sbytes password)) store_ErrConflict;;
  let displayName := if bool_decide (displayName = "") then bstring name else displayName in
  hash ← lift (hashPassword salt password);
  let u := mkUser userID (bstring name) displayName "" hash now zero_Privacy in
  r ← attempt (CreateUser u);
  lift (on_error store_ErrConflict auth_ErrUsernameTaken r);;
  sess ← startSession d u deviceID platform;
  mret (sess, u).

(** [secs]: the clock of the TOTP check. *)
Definition LoginWithCode (secs : Z) (d : Draw) (username password : string) (code : bytes)
    (deviceID platform : string) : M AccountDB (Session * User) :=
  r ← attempt (GetUserByUsername (bstring (handle_of username)));
  u ← lift (on_error store_ErrNotFound auth_ErrBadCredentials r);
  guard_or (verifyPassword password (User_PasswordHash u)) auth_ErrBadCredentials;;
  enabled ← TwoFactorEnabled attached (User_ID u);
  (if (enabled : bool) then
     guard_or (negb (bool_decide (code = []))) auth_ErrTwoFactorRequired;;
     ok ← verifySecondFactor totp_env attached secs (User_ID u) code;
     guard_or ok auth_ErrBadTOTPCode
   else mret tt);;
  sess ← startSession d u deviceID platform;
  mret (sess, u).

Definition Login (secs : Z) (d : Draw) (username password deviceID platform : string)
    : M AccountDB (Session * User) :=
  LoginWithCode secs d username password [] deviceID platform.

(** ** Session management *)

(** One clock reading per row in the code; the listing takes a function of the row. *)
Definition ListSessions (clock : Session → Z) (userID : string) : M AccountDB (list Session) :=
  rows ← MemAccounts.ListSessions userID;
  mret (filter (λ s, validSession (clock s) s = Ok tt) rows).

Definition RevokeOwned (now : Z) (userID sessionID : string) : M AccountDB unit :=
  rows ← MemAccounts.ListSessions userID;
  match find (λ s, bool_decide (Session_ID s = sessionID)) rows with
  | None => fail store_ErrNotFound
  | Some s => if negb (Session_RevokedAt s =? 0) then mret tt else RevokeSession sessionID now
  end.

(** The loop of [RevokeAll]: how many were killed, and the first error. *)
Fixpoint revoke_each (now : Z) (keep : string) (rows : list Session) (revoked : Z)
    (firstErr : option error) : M AccountDB Z :=
  match rows with
  | [] => match firstErr with None => mret revoked | Some e => fail e end
  | s :: rows =>
      if bool_decide (Session_ID s = keep) then revoke_each now keep rows revoked firstErr
      else
        r ← attempt (RevokeSession (Session_ID s) now);
        match r with
        | Err e =>
            revoke_each now keep rows revoked
              (match firstErr with None => Some e | Some _ => firstErr end)
        | Ok _ => revoke_each now keep rows (revoked + 1) firstErr
        end
  end.

(** The count that accompanies an error is not kept: the result is the error. *)
Definition RevokeAll (clock : Session → Z) (now : Z) (userID keepSessionID : string)
    : M AccountDB Z :=
  rows ← ListSessions clock userID;
  revoke_each now keepSessionID rows 0 None.

Definition VerifyPassword (userID password : string) : M AccountDB unit :=
  u ← GetUser userID;
  guard_or (verifyPassword password (User_PasswordHash u)) auth_ErrWrongPassword.

(** The memory store implements [PasswordStore], so the assertion succeeds. *)
Definition ChangePassword (salt : option bytes) (clock : Session → Z) (now : Z)
    (userID oldPassword newPassword keepSessionID : string) : M AccountDB Z :=
  guard_or (MinPasswordLen <=? len (sbytes newPassword)) auth_ErrWeakPassword;;
  u ← GetUser userID;
  guard_or (verifyPassword oldPassword (User_PasswordHash u)) auth_ErrWrongPassword;;
  guard_or (negb (verifyPassword newPassword (User_PasswordHash u))) auth_ErrSamePassword;;
  hash ← lift (hashPassword salt newPassword);
  SetPasswordHash userID hash;;
  RevokeAll clock now userID keepSessionID.
End service.
