(* ===== verification/AuthRules.v ===== *)
(** * What the identity service guarantees

    Every call of Auth.v and TwoFactor.v is a sequence of a few kinds of change to the
    account store ([change]).  The store's indexes stay consistent under them, a revoked
    session stays revoked, and a consumed resume token stays consumed; the theorems about
    sessions, handles and the second factor follow. *)

From Stdlib Require Import Strings.Byte.
From S2P Require Import Prelude Bytes GoStrings Sha Totp Password Model MemAccounts TwoFactor Auth.

(** ** Kinds of change *)

(** Devices, roles and second factors only. *)
Record quiet (db db' : AccountDB) : Prop := {
  q_users : users db' = users db;
  q_names : usersByName db' = usersByName db;
  q_sessions : sessions db' = sessions db;
  q_token : tokenIndex db' = tokenIndex db;
  q_resume : resumeIndex db' = resumeIndex db;
  q_prev : prevResumeIndex db' = prevResumeIndex db;
}.

(** A hash no session of the store has used as a resume token. *)
Definition fresh_resume_hash (h : string) (db : AccountDB) : Prop :=
  h ≠ "" ∧ resumeIndex db !! h = None ∧ prevResumeIndex db !! h = None.

Inductive change : AccountDB → AccountDB → Prop :=
  | change_quiet db db' : quiet db db' → change db db'
  | change_new_user db u :
      users db !! User_ID u = None → usersByName db !! User_Username u = None →
      ValidateUsername (sbytes (User_Username u)) = Ok tt →
      change db (set_usersByName (<[User_Username u := User_ID u]> (usersByName db))
                  (set_users (<[User_ID u := u]> (users db)) db))
  | change_user db id u u' :
      users db !! id = Some u → User_ID u' = User_ID u → User_Username u' = User_Username u →
      change db (set_users (<[id := u']> (users db)) db)
  | change_new_session db s :
      sessions db !! Session_ID s = None → tokenIndex db !! Session_Token s = None →
      fresh_resume_hash (Session_ResumeToken s) db → is_Some (users db !! Session_UserID s) →
      change db (set_indexes (<[Session_Token s := Session_ID s]> (tokenIndex db))
        (<[Session_ResumeToken s := Session_ID s]> (resumeIndex db)) (prevResumeIndex db)
        (set_sessions (<[Session_ID s := s]> (sessions db)) db))
  | change_revoke db id s at_ :
      sessions db !! id = Some s → at_ ≠ 0 →
      change db (set_sessions (<[id := set_RevokedAt at_ s]> (sessions db)) db)
  | change_touch db id s at_ :
      sessions db !! id = Some s →
      change db (set_sessions (<[id := set_ExpiresAt at_ s]> (sessions db)) db)
  | change_rotate db id s new at_ :
      sessions db !! id = Some s → fresh_resume_hash new db →
      change db (set_indexes (tokenIndex db)
        (<[new := id]> (delete (Session_ResumeToken s) (resumeIndex db)))
        (<[Session_ResumeToken s := id]> (prevResumeIndex db))
        (set_sessions (<[id := set_rotated (Session_ResumeToken s) new at_ s]> (sessions db)) db)).

Abbreviation changes := (rtc change).

(** ** Well-formed stores *)

Record wf (db : AccountDB) : Prop := {
  wf_user id u : users db !! id = Some u →
    User_ID u = id ∧ usersByName db !! User_Username u = Some id ∧
    ValidateUsername (sbytes (User_Username u)) = Ok tt;
  wf_name n id : usersByName db !! n = Some id →
    ∃ u, users db !! id = Some u ∧ User_Username u = n;
  wf_session id s : sessions db !! id = Some s →
    Session_ID s = id ∧ is_Some (users db !! Session_UserID s) ∧
    tokenIndex db !! Session_Token s = Some id ∧
    resumeIndex db !! Session_ResumeToken s = Some id;
  wf_token t id : tokenIndex db !! t = Some id →
    ∃ s, sessions db !! id = Some s ∧ Session_Token s = t;
  wf_resume t id : resumeIndex db !! t = Some id →
    ∃ s, sessions db !! id = Some s ∧ Session_ResumeToken s = t;
  wf_prev t id : prevResumeIndex db !! t = Some id →
    is_Some (sessions db !! id) ∧ resumeIndex db !! t = None;
}.

Lemma wf_New : wf New.
Proof. by split; intros ? ?; cbn; rewrite lookup_empty. Qed.

Definition revoked (id : string) (db : AccountDB) : Prop :=
  ∃ s, sessions db !! id = Some s ∧ Session_RevokedAt s ≠ 0.

(** Replacing a session's row by one with the same identity and tokens. *)
Lemma wf_put db id s s' :
  wf db → sessions db !! id = Some s → Session_ID s' = Session_ID s →
  Session_UserID s' = Session_UserID s → Session_Token s' = Session_Token s →
  Session_ResumeToken s' = Session_ResumeToken s →
  wf (set_sessions (<[id := s']> (sessions db)) db).
Proof.
  intros [H1 H2 H3 H4 H5 H6] Hs Hi Hu Ht Hr. split; cbn; [done|done| | | |].
  - intros i x. destruct (decide (i = id)) as [->|Hne].
    + rewrite lookup_insert_eq. intros [= <-]. rewrite Hi, Hu, Ht, Hr. by apply H3.
    + rewrite lookup_insert_ne by done. apply H3.
  - intros t i Hti. destruct (H4 t i Hti) as (x & Hx & Hxt). destruct (decide (i = id)) as [->|Hne].
    + exists s'. rewrite lookup_insert_eq. split; congruence.
    + exists x. by rewrite lookup_insert_ne.
  - intros t i Hti. destruct (H5 t i Hti) as (x & Hx & Hxt). destruct (decide (i = id)) as [->|Hne].
    + exists s'. rewrite lookup_insert_eq. split; congruence.
    + exists x. by rewrite lookup_insert_ne.
  - intros t i Hti. destruct (H6 t i Hti) as [[x Hx] Hn]. split; [|done].
    destruct (decide (i = id)) as [->|Hne]; [rewrite lookup_insert_eq | rewrite lookup_insert_ne]; eauto.
Qed.

Lemma wf_new_session db s :
  wf db → sessions db !! Session_ID s = None → tokenIndex db !! Session_Token s = None →
  fresh_resume_hash (Session_ResumeToken s) db → is_Some (users db !! Session_UserID s) →
  wf (set_indexes (<[Session_Token s := Session_ID s]> (tokenIndex db))
        (<[Session_ResumeToken s := Session_ID s]> (resumeIndex db)) (prevResumeIndex db)
        (set_sessions (<[Session_ID s := s]> (sessions db)) db)).
Proof.
  intros [H1 H2 H3 H4 H5 H6] Hs Ht (_ & Hr & Hp) Hu. split; cbn; [done|done| | | |].
  - intros i x. destruct (decide (i = Session_ID s)) as [->|Hne].
    + rewrite lookup_insert_eq. intros [= <-]. by rewrite !lookup_insert_eq.
    + rewrite lookup_insert_ne by done. intros Hx. destruct (H3 i x Hx) as (Hi & Hxu & Hxt & Hxr).
      rewrite !lookup_insert_ne by congruence. done.
  - intros t i [[<- <-]|[Hne Hi]]%lookup_insert_Some; [exists s; by rewrite lookup_insert_eq|].
    destruct (H4 t i Hi) as (x & Hx & Hxt). exists x. rewrite lookup_insert_ne by congruence. done.
  - intros t i [[<- <-]|[Hne Hi]]%lookup_insert_Some; [exists s; by rewrite lookup_insert_eq|].
    destruct (H5 t i Hi) as (x & Hx & Hxt). exists x. rewrite lookup_insert_ne by congruence. done.
  - intros t i Hi. destruct (H6 t i Hi) as [[x Hx] Hn].
    rewrite !lookup_insert_ne by congruence. eauto.
Qed.

Lemma wf_rotate db id s new at_ :
  wf db → sessions db !! id = Some s → fresh_resume_hash new db →
  wf (set_indexes (tokenIndex db)
        (<[new := id]> (delete (Session_ResumeToken s) (resumeIndex db)))
        (<[Session_ResumeToken s := id]> (prevResumeIndex db))
        (set_sessions (<[id := set_rotated (Session_ResumeToken s) new at_ s]> (sessions db)) db)).
Proof.
  intros [H1 H2 H3 H4 H5 H6] Hs (_ & Hr & Hp).
  destruct (H3 id s Hs) as (Hi & Hu & Ht & Hc).
  assert (new ≠ Session_ResumeToken s) by congruence.
  split; cbn; [done|done| | | |].
  - intros i x. destruct (decide (i = id)) as [->|Hne].
    + rewrite lookup_insert_eq. intros [= <-]. cbn. by rewrite lookup_insert_eq.
    + rewrite lookup_insert_ne by done. intros Hx. destruct (H3 i x Hx) as (Hxi & Hxu & Hxt & Hxr).
      rewrite lookup_insert_ne, lookup_delete_ne by congruence. done.
  - intros t i Hti. destruct (H4 t i Hti) as (x & Hx & Hxt). destruct (decide (i = id)) as [->|Hne].
    + eexists. rewrite lookup_insert_eq. split; [done|]. cbn. congruence.
    + exists x. by rewrite lookup_insert_ne.
  - intros t i [[<- <-]|[Hne Hi']]%lookup_insert_Some; [eexists; by rewrite lookup_insert_eq|].
    apply lookup_delete_Some in Hi' as [Hne' Hi']. destruct (H5 t i Hi') as (x & Hx & Hxt).
    exists x. rewrite lookup_insert_ne by congruence. done.
  - intros t i [[<- <-]|[Hne Hi']]%lookup_insert_Some.
    + rewrite lookup_insert_eq, lookup_insert_ne, lookup_delete_eq by congruence. eauto.
    + destruct (H6 t i Hi') as [[x Hx] Hn]. rewrite (lookup_insert_ne _ new), lookup_delete_ne by congruence.
      split; [|done]. destruct (decide (i = id)) as [->|]; [rewrite lookup_insert_eq | rewrite lookup_insert_ne]; eauto.
Qed.

Lemma wf_change db db' : change db db' → wf db → wf db'.
Proof.
  destruct 1 as [db db' []|db u Hi Hn Hv|db id u u' Hu Hi Hn|db s|db id s at_ Hs|db id s at_ Hs|db id s new at_];
    intros Hwf; try by (apply wf_new_session || apply wf_rotate || eapply wf_put).
  - destruct Hwf. split; intros ? ?; rewrite ?q_users0, ?q_names0, ?q_sessions0, ?q_token0, ?q_resume0, ?q_prev0; eauto.
  - destruct Hwf as [H1 H2 H3 H4 H5 H6]. split; cbn; [| |..|done|done|done].
    + intros id x [[<- <-]|[Hne Hx]]%lookup_insert_Some; [by rewrite lookup_insert_eq|].
      destruct (H1 id x Hx) as (? & ? & ?). rewrite lookup_insert_ne by congruence. done.
    + intros n id [[<- <-]|[Hne Hx]]%lookup_insert_Some; [exists u; by rewrite lookup_insert_eq|].
      destruct (H2 n id Hx) as (x & Hx' & Hxn). exists x. rewrite lookup_insert_ne by congruence. done.
    + intros id s Hs. destruct (H3 id s Hs) as (? & [x Hx] & ?). split; [done|]. split; [|done].
      apply lookup_insert_is_Some. destruct (decide (User_ID u = Session_UserID s)); eauto.
  - destruct Hwf as [H1 H2 H3 H4 H5 H6]. split; cbn; [| |..|done|done|done].
    + intros i x [[<- <-]|[Hne Hx]]%lookup_insert_Some; [rewrite Hi, Hn|]; by apply H1.
    + intros n i Hx. destruct (H2 n i Hx) as (x & Hx' & Hxn). destruct (decide (i = id)) as [->|].
      * exists u'. rewrite lookup_insert_eq. split; congruence.
      * exists x. rewrite lookup_insert_ne by congruence. done.
    + intros i s Hs. destruct (H3 i s Hs) as (? & [x Hx] & ?). split; [done|]. split; [|done].
      apply lookup_insert_is_Some. destruct (decide (id = Session_UserID s)); eauto.
Qed.

Lemma wf_changes db db' : changes db db' → wf db → wf db'.
Proof. induction 1; eauto using wf_change. Qed.

Lemma put_row db i id s' s :
  sessions db !! id = Some s →
  <[i := s']> (sessions db) !! id = Some s ∨ i = id ∧ <[i := s']> (sessions db) !! id = Some s'.
Proof.
  intros Hs. destruct (decide (i = id)) as [->|]; [right; by rewrite lookup_insert_eq|].
  left. by rewrite lookup_insert_ne.
Qed.

(** A row keeps its owner and token; once revoked it stays so. *)
Lemma session_kept db db' id s :
  changes db db' → sessions db !! id = Some s →
  ∃ s', sessions db' !! id = Some s' ∧ Session_UserID s' = Session_UserID s ∧
    Session_Token s' = Session_Token s ∧ (Session_RevokedAt s ≠ 0 → Session_RevokedAt s' ≠ 0).
Proof.
  intros Hc. revert s. induction Hc as [db|db db1 db' Hc _ IH]; intros s Hs; [eauto|].
  enough (∃ s1, sessions db1 !! id = Some s1 ∧ Session_UserID s1 = Session_UserID s ∧
    Session_Token s1 = Session_Token s ∧ (Session_RevokedAt s ≠ 0 → Session_RevokedAt s1 ≠ 0))
    as (s1 & H1 & H2 & H3 & H4).
  { destruct (IH s1 H1) as (s' & ? & ? & ? & ?). exists s'. split_and!; [done|congruence..|auto]. }
  destruct Hc as [db db2 []|db u|db i u u'|db x Hx|db i x at_ Hx Hat|db i x at_ Hx|db i x new at_ Hx];
    cbn; rewrite ?q_sessions0; eauto.
  - rewrite lookup_insert_ne by congruence. eauto.
  - destruct (put_row db i id (set_RevokedAt at_ x) s Hs) as [->|(-> & ->)]; [by eauto|].
    eexists; split; [done|]. cbn. split_and!; congruence.
  - destruct (put_row db i id (set_ExpiresAt at_ x) s Hs) as [->|(-> & ->)]; [by eauto|].
    eexists; split; [done|]. cbn. split_and!; congruence.
  - destruct (put_row db i id (set_rotated (Session_ResumeToken x) new at_ x) s Hs) as [->|(-> & ->)]; [by eauto|].
    eexists; split; [done|]. cbn. split_and!; congruence.
Qed.

Lemma revoked_kept db db' id : changes db db' → revoked id db → revoked id db'.
Proof.
  intros Hc (s & Hs & Hr). destruct (session_kept _ _ _ _ Hc Hs) as (s' & ? & _ & _ & ?).
  exists s'. auto.
Qed.

Lemma consumed_kept db db' t id :
  changes db db' → wf db → prevResumeIndex db !! t = Some id → prevResumeIndex db' !! t = Some id.
Proof.
  induction 1 as [db|db db1 db' Hc _ IH]; intros Hwf Ht; [done|].
  apply IH; [by eapply wf_change|].
  destruct Hc as [db db2 []|db u|db i u u'|db x Hx|db i x at_ Hx Hat|db i x at_ Hx|db i x new at_ Hx];
    cbn; rewrite ?q_prev0; try done.
  destruct (wf_prev _ Hwf t id Ht) as [_ Hn]. destruct (wf_session _ Hwf i x Hx) as (_ & _ & _ & Hr).
  rewrite lookup_insert_ne by congruence. done.
Qed.

(** ** The calls as changes *)

Lemma changes_once db db' : change db db' → changes db db'.
Proof. apply rtc_once. Qed.
Lemma changes_quiet db db' : quiet db db' → changes db db'.
Proof. intros. by apply changes_once, change_quiet. Qed.
#[local] Hint Resolve changes_once changes_quiet : syncapp.

Lemma found_reads {K A} `{Countable K} (m : gmap K A) k (db : AccountDB) : (found m k db).1 = db.
Proof. unfold found. by destruct (m !! k). Qed.
Lemma deref_reads {K A} `{Countable K} (m : gmap K A) k (db : AccountDB) : (deref m k db).1 = db.
Proof. unfold deref. by destruct (m !! k). Qed.

Lemma runs_found {K A} `{Countable K} (m : gmap K A) k db : runs changes db (found m k).
Proof. apply runs_reads, found_reads. Qed.
Lemma runs_deref {K A} `{Countable K} (m : gmap K A) k db : runs changes db (deref m k).
Proof. apply runs_reads, deref_reads. Qed.
#[local] Hint Resolve runs_found runs_deref : syncapp.

Lemma found_Ok {K A} `{Countable K} (m : gmap K A) k (db db' : AccountDB) a :
  found m k db = (db', Ok a) → m !! k = Some a ∧ db' = db.
Proof. unfold found. destruct (m !! k); [|done]. by intros [= <- <-]. Qed.
Lemma deref_Ok {K A} `{Countable K} (m : gmap K A) k (db db' : AccountDB) a :
  deref m k db = (db', Ok a) → m !! k = Some a ∧ db' = db.
Proof. unfold deref. destruct (m !! k); [|done]. by intros [= <- <-]. Qed.

Lemma GetUser_eq u db :
  GetUser u db = (db, match users db !! u with Some x => Ok x | None => Err store_ErrNotFound end).
Proof. unfold GetUser. rewrite M_bind_eq. cbn [get]. unfold found. by case_match. Qed.
Lemma runs_GetUser u db : runs changes db (GetUser u).
Proof. apply runs_reads. by rewrite GetUser_eq. Qed.
Lemma runs_GetTwoFactor u db : runs changes db (GetTwoFactor u).
Proof. apply runs_reads. by rewrite GetTwoFactor_eq. Qed.
Lemma runs_GetUserByUsername n db : runs changes db (GetUserByUsername n).
Proof.
  unfold GetUserByUsername. apply runs_get_bind.
  apply runs_bind; [eauto with syncapp|]. intros ? ? [_ ->]%found_Ok. eauto with syncapp.
Qed.
#[local] Hint Resolve runs_GetUser runs_GetTwoFactor runs_GetUserByUsername : syncapp.

Lemma UpsertDevice_quiet d db : quiet db (UpsertDevice d db).1.
Proof. unfold UpsertDevice. rewrite M_bind_eq. cbn [get]. repeat case_match; by split. Qed.
Lemma runs_UpsertDevice d db : runs changes db (UpsertDevice d).
Proof. apply changes_quiet, UpsertDevice_quiet. Qed.
#[local] Hint Resolve runs_UpsertDevice : syncapp.

Lemma runs_update_user id f db :
  (∀ u, User_ID (f u) = User_ID u ∧ User_Username (f u) = User_Username u) →
  runs changes db (update_user id f).
Proof.
  intros Hf. unfold update_user. apply runs_get_bind.
  apply runs_bind; [eauto with syncapp|]. intros ? u [Hu ->]%found_Ok.
  apply runs_modify, changes_once. eapply change_user; [done|apply Hf..].
Qed.

Lemma runs_RevokeSession id at_ db : at_ ≠ 0 → runs changes db (RevokeSession id at_).
Proof.
  intros Hat. unfold RevokeSession. apply runs_get_bind.
  apply runs_bind; [eauto with syncapp|]. intros ? s [Hs ->]%found_Ok.
  apply changes_once. by apply change_revoke.
Qed.

Lemma runs_TouchSession now id e db : runs changes db (TouchSession now id e).
Proof.
  unfold TouchSession. apply runs_get_bind.
  apply runs_bind; [eauto with syncapp|]. intros ? s [Hs ->]%found_Ok.
  destruct (_ || _); [eauto with syncapp|]. destruct (Session_ExpiresAt s <? e); [|eauto with syncapp].
  apply changes_once. by apply change_touch.
Qed.
#[local] Hint Resolve runs_TouchSession : syncapp.

Lemma RotateResumeToken_run id old new at_ db s :
  sessions db !! id = Some s →
  RotateResumeToken id old new at_ db =
  if bool_decide (Session_ResumeToken s = old) then
    (set_indexes (tokenIndex db) (<[new := id]> (delete old (resumeIndex db)))
      (<[old := id]> (prevResumeIndex db))
      (set_sessions (<[id := set_rotated old new at_ s]> (sessions db)) db), Ok tt)
  else (db, Err store_ErrNotFound).
Proof.
  intros Hs. unfold RotateResumeToken. rewrite (bind_Ok _ _ _ db db) by done.
  rewrite (bind_Ok _ _ _ db s) by (unfold found; by rewrite Hs). by destruct (bool_decide (Session_ResumeToken s = old)).
Qed.

Lemma runs_RotateResumeToken id old new at_ db :
  fresh_resume_hash new db → runs changes db (RotateResumeToken id old new at_).
Proof.
  intros Hf. unfold runs. destruct (sessions db !! id) as [s|] eqn:Hs.
  - rewrite (RotateResumeToken_run _ _ _ _ _ s) by done. case_bool_decide as Hold; [|done].
    subst old. cbn [fst]. apply changes_once. by apply change_rotate.
  - unfold RotateResumeToken. rewrite (bind_Ok _ _ _ db db) by done.
    rewrite (bind_Err _ _ _ db store_ErrNotFound) by (unfold found; by rewrite Hs). done.
Qed.

(** What the random source and the id generator are trusted for: a session id, token and
    resume token nobody holds. *)
Definition fresh_resume (rand : option bytes) (db : AccountDB) : Prop :=
  ∀ t, randToken rand = Ok t → fresh_resume_hash (hashToken t) db.
Record fresh_draw (d : Draw) (db : AccountDB) : Prop := {
  fd_session : sessions db !! Draw_session d = None;
  fd_token t : randToken (Draw_token d) = Ok t → tokenIndex db !! hashToken t = None;
  fd_resume : fresh_resume (Draw_resume d) db;
}.

Lemma fresh_draw_quiet d db db' : quiet db db' → fresh_draw d db → fresh_draw d db'.
Proof.
  intros [] [H1 H2 H3]. split.
  - by rewrite q_sessions0.
  - intros t Ht. rewrite q_token0. auto.
  - intros t Ht. unfold fresh_resume_hash. rewrite q_resume0, q_prev0. by apply H3.
Qed.

(** The device phase of [startSession]. *)
Definition place_device (d : Draw) (u : User) (deviceID platform : string) : M AccountDB string :=
  let dev id := mkDevice id (User_ID u) platform "" (Draw_now d) (Draw_now d) in
  r ← attempt (UpsertDevice (dev deviceID));
  match r with
  | Ok _ => mret deviceID
  | Err e =>
      guard_or (bool_decide (e = store_ErrConflict)) e;;
      UpsertDevice (dev (Draw_device2 d));;
      mret (Draw_device2 d)
  end.

#[local] Instance quiet_preorder : PreOrder quiet.
Proof.
  split; [by split|]. intros x y z [] []. split; congruence.
Qed.

Lemma place_device_quiet d u dev p db : quiet db (place_device d u dev p db).1.
Proof.
  apply (runs_bind (R := quiet)).
  { apply runs_attempt, UpsertDevice_quiet. }
  intros db' [[]|e] _; [apply runs_ret|].
  apply runs_bind; [apply runs_guard_or|]. intros ? ? _.
  apply runs_bind; [apply UpsertDevice_quiet|]. intros. apply runs_ret.
Qed.

Lemma startSession_eq d u dev p db :
  startSession d u dev p db =
  (deviceID ← place_device d u (if bool_decide (dev = "") then Draw_device d else dev) p;
   plainToken ← lift (randToken (Draw_token d));
   plainResume ← lift (randToken (Draw_resume d));
   let sess := mkSession (Draw_session d) (User_ID u) deviceID (hashToken plainToken)
     (hashToken plainResume) (Draw_now d) (Draw_now d + SessionTTL) 0 "" 0 in
   CreateSession sess;;
   mret (set_tokens plainToken plainResume sess)) db.
Proof.
  unfold startSession, place_device. rewrite !M_bind_eq.
  by destruct (attempt _ db) as [db' [a|e]].
Qed.

(** What a successful [startSession] leaves behind. *)
Lemma startSession_run d u dev p db tok res :
  fresh_draw d db → is_Some (users db !! User_ID u) →
  randToken (Draw_token d) = Ok tok → randToken (Draw_resume d) = Ok res →
  ∀ db1 dev', place_device d u (if bool_decide (dev = "") then Draw_device d else dev) p db
      = (db1, Ok dev') →
  let s := mkSession (Draw_session d) (User_ID u) dev' (hashToken tok) (hashToken res)
    (Draw_now d) (Draw_now d + SessionTTL) 0 "" 0 in
  let db' := set_indexes (<[hashToken tok := Draw_session d]> (tokenIndex db1))
    (<[hashToken res := Draw_session d]> (resumeIndex db1)) (prevResumeIndex db1)
    (set_sessions (<[Draw_session d := s]> (sessions db1)) db1) in
  startSession d u dev p db = (db', Ok (set_tokens tok res s)) ∧ quiet db db1 ∧ change db1 db'.
Proof.
  intros Hf Hu Ht Hr db1 dev' Hp s db'.
  assert (quiet db db1) as Hq.
  { pose proof (place_device_quiet d u (if bool_decide (dev = "") then Draw_device d else dev) p db)
      as Hq. by rewrite Hp in Hq. }
  destruct (fresh_draw_quiet _ _ _ Hq Hf) as [H1 H2 H3]. split_and!; [|done|].
  - rewrite startSession_eq, (bind_Ok _ _ _ db1 dev') by done. rewrite Ht, Hr.
    rewrite (bind_Ok _ _ _ db1 tok), (bind_Ok _ _ _ db1 res) by done. cbv zeta.
    unfold CreateSession. rewrite M_bind_eq, M_bind_eq. cbn. rewrite bool_decide_false; [done|].
    by apply H3.
  - apply (change_new_session db1 s); cbn; [done | by apply H2 | by apply H3 |].
    by rewrite (q_users _ _ Hq).
Qed.

Lemma runs_startSession d u dev p db :
  fresh_draw d db → is_Some (users db !! User_ID u) → runs changes db (startSession d u dev p).
Proof.
  intros Hf Hu. unfold runs.
  set (dev0 := if bool_decide (dev = "") then Draw_device d else dev).
  destruct (place_device d u dev0 p db) as [db1 r] eqn:Hp.
  assert (quiet db db1) as Hq.
  { pose proof (place_device_quiet d u dev0 p db) as Hq. by rewrite Hp in Hq. }
  destruct r as [dev'|e].
  2:{ rewrite startSession_eq, (bind_Err _ _ _ db1 e) by done. by apply changes_quiet. }
  destruct (randToken (Draw_token d)) as [tok|e] eqn:Ht.
  2:{ rewrite startSession_eq, (bind_Ok _ _ _ db1 dev'), Ht by done.
      rewrite (bind_Err _ _ _ db1 e) by done. by apply changes_quiet. }
  destruct (randToken (Draw_resume d)) as [res|e] eqn:Hr.
  2:{ rewrite startSession_eq, (bind_Ok _ _ _ db1 dev'), Ht, Hr by done.
      rewrite (bind_Ok _ _ _ db1 tok), (bind_Err _ _ _ db1 e) by done. by apply changes_quiet. }
  destruct (startSession_run d u dev p db tok res Hf Hu Ht Hr db1 dev' Hp) as (-> & _ & Hc).
  etrans; [by apply changes_quiet | by apply changes_once].
Qed.

Lemma runs_refresh n1 n2 sn s db : runs changes db (refresh n1 n2 sn s).
Proof.
  unfold refresh. destruct (_ =? 0); [eauto with syncapp|].
  destruct (_ <? _); [eauto with syncapp|]. apply runs_bind; eauto with syncapp.
Qed.
#[local] Hint Resolve runs_refresh : syncapp.

Lemma GetSessionByToken_eq t db :
  wf db →
  GetSessionByToken t db =
  (db, match tokenIndex db !! t ≫= (sessions db !!.) with
       | Some s => Ok s | None => Err store_ErrNotFound end).
Proof.
  intros Hwf. unfold GetSessionByToken. rewrite M_bind_eq. cbn [get]. rewrite M_bind_eq. unfold found.
  destruct (tokenIndex db !! t) as [id|] eqn:Ht; [|done].
  destruct (wf_token _ Hwf t id Ht) as (s & Hs & _). cbn. unfold deref. by rewrite Hs.
Qed.

Lemma GetSessionByResumeToken_eq t db :
  wf db →
  GetSessionByResumeToken t db =
  (db, match resumeIndex db !! t ≫= (sessions db !!.) with
       | Some s => Ok s | None => Err store_ErrNotFound end).
Proof.
  intros Hwf. unfold GetSessionByResumeToken. rewrite M_bind_eq. cbn [get]. rewrite M_bind_eq. unfold found.
  destruct (resumeIndex db !! t) as [id|] eqn:Ht; [|done].
  destruct (wf_resume _ Hwf t id Ht) as (s & Hs & _). cbn. unfold deref. by rewrite Hs.
Qed.

Lemma runs_by_index (idx : AccountDB → gmap string string) (g : ∀ A, gmap string A → string → M AccountDB A) t db :
  (∀ A m k db, runs changes db (g A m k)) →
  runs changes db (db ← get; id ← found (idx db) t; g _ (sessions db) id).
Proof.
  intros Hg. apply runs_get_bind. apply runs_bind; [eauto with syncapp|]. intros. apply Hg.
Qed.
Lemma runs_GetSessionByToken t db : runs changes db (GetSessionByToken t).
Proof. apply (runs_by_index tokenIndex (λ A, deref)). eauto with syncapp. Qed.
Lemma runs_GetSessionByResumeToken t db : runs changes db (GetSessionByResumeToken t).
Proof. apply (runs_by_index resumeIndex (λ A, deref)). eauto with syncapp. Qed.
Lemma runs_GetSessionByConsumed t db : runs changes db (GetSessionByConsumedResumeToken t).
Proof. apply (runs_by_index prevResumeIndex (λ A, found)). eauto with syncapp. Qed.
#[local] Hint Resolve runs_GetSessionByToken runs_GetSessionByResumeToken runs_GetSessionByConsumed : syncapp.

Lemma runs_Authenticate n n1 n2 sn t db : runs changes db (Authenticate n n1 n2 sn t).
Proof.
  unfold Authenticate. apply runs_bind; [eauto with syncapp|]. intros ? ? _.
  apply runs_bind; [eauto with syncapp|]. intros ? ? _.
  apply runs_bind; [eauto with syncapp|]. intros ? ? _.
  apply runs_bind; [eauto with syncapp|]. intros ? ? _. apply runs_bind; eauto with syncapp.
Qed.

Lemma runs_detectResumeReplay now h db : now ≠ 0 → runs changes db (detectResumeReplay now h).
Proof.
  intros Hn. unfold detectResumeReplay. apply runs_bind; [eauto with syncapp|]. intros ? [s|e] _;
    [|eauto with syncapp].
  apply runs_bind; [|eauto with syncapp]. destruct (_ =? 0); [|eauto with syncapp].
  apply runs_bind; [|eauto with syncapp]. by apply runs_attempt, runs_RevokeSession.
Qed.

Lemma runs_Resume rand n n' n'' t db :
  n ≠ 0 → n'' ≠ 0 → fresh_resume rand db → runs changes db (Resume rand n n' n'' t).
Proof.
  intros Hn Hn' Hf. unfold Resume.
  assert ((attempt (GetSessionByResumeToken (hashToken t)) db).1 = db) as Hg.
  { unfold attempt, GetSessionByResumeToken. rewrite M_bind_eq. cbn [get]. rewrite M_bind_eq.
    unfold found, deref. destruct (_ !! _); [|done]. simpl. by destruct (sessions db !! _). }
  apply runs_bind; [by apply runs_reads|]. intros db1 r Hr. rewrite Hr in Hg. cbn in Hg. subst db1.
  destruct r as [s|e].
  - apply runs_bind; [eauto with syncapp|]. intros ? ? [= <- _].
    apply runs_bind; [eauto with syncapp|]. intros ? next [= <- Hnext].
    apply runs_bind; [by apply runs_attempt, runs_RotateResumeToken, Hf|]. intros ? [[]|e] _.
    + apply runs_bind; eauto with syncapp.
    + case_bool_decide; [|eauto with syncapp].
      apply runs_bind; [by apply runs_attempt, runs_RevokeSession | eauto with syncapp].
  - case_bool_decide; [|eauto with syncapp].
    apply runs_bind; [by apply runs_detectResumeReplay|]. intros ? [] _; eauto with syncapp.
Qed.

Section service.
Context `{Unicode} `{Argon2} `{AEAD} `{RangeOrder}.
Variable totp_env : bytes.
Variable attached : bool.

(** Only the second factors change. *)
Definition tf_only (db db' : AccountDB) : Prop := db' = set_twoFactor (twoFactor db') db.
#[local] Instance tf_only_preorder : PreOrder tf_only.
Proof.
  split; [by intros []|]. unfold tf_only. intros x y z Hy Hz. rewrite Hz at 1. by rewrite Hy.
Qed.
Lemma tf_only_quiet db db' : tf_only db db' → quiet db db'.
Proof. unfold tf_only. intros ->. by split. Qed.
Lemma put_tf_only m db : tf_only db (set_twoFactor m db).
Proof. done. Qed.

Lemma verifySecondFactor_tf_only secs u code db :
  tf_only db (verifySecondFactor totp_env attached secs u code db).1.
Proof.
  unfold verifySecondFactor, twoFactorStore.
  apply (runs_bind (R := tf_only)); [apply runs_guard_or|]. intros ? ? _.
  apply runs_bind; [apply runs_reads; by rewrite GetTwoFactor_eq|]. intros ? tf _.
  apply runs_bind; [apply runs_lift|]. intros ? key _.
  destruct (totp_matches key tf code secs); [apply runs_ret|].
  destruct (recovery_match tf code); [|apply runs_ret].
  unfold ConsumeRecoveryCode. apply runs_get_bind. destruct (twoFactor _ !! _); [|apply runs_ret].
  case_bool_decide; [|apply runs_ret]. apply runs_bind; [apply put_tf_only | intros; apply runs_ret].
Qed.

Lemma runs_TwoFactorEnabled u db : runs changes db (TwoFactorEnabled attached u).
Proof. apply runs_reads. by rewrite TwoFactorEnabled_eq. Qed.
#[local] Hint Resolve runs_TwoFactorEnabled : syncapp.

(** The gate between the password and the session. *)
Definition second_factor (secs : Z) (u : User) (code : bytes) : M AccountDB unit :=
  enabled ← TwoFactorEnabled attached (User_ID u);
  (if (enabled : bool) then
     guard_or (negb (bool_decide (code = []))) auth_ErrTwoFactorRequired;;
     ok ← verifySecondFactor totp_env attached secs (User_ID u) code;
     guard_or ok auth_ErrBadTOTPCode
   else mret tt).

Lemma second_factor_tf_only secs u code db : tf_only db (second_factor secs u code db).1.
Proof.
  apply (runs_bind (R := tf_only)); [apply runs_reads; by rewrite TwoFactorEnabled_eq|].
  intros ? [] _; [|apply runs_ret]. apply runs_bind; [apply runs_guard_or|]. intros ? ? _.
  apply runs_bind; [apply verifySecondFactor_tf_only|]. intros. apply runs_guard_or.
Qed.
Lemma second_factor_quiet secs u code db : quiet db (second_factor secs u code db).1.
Proof. apply tf_only_quiet, second_factor_tf_only. Qed.

(** Where the handle leads: the account, or nothing. *)
Definition account_of (username : string) (db : AccountDB) : option User :=
  usersByName db !! bstring (handle_of username) ≫= (users db !!.).

Lemma GetUserByUsername_eq n db :
  wf db →
  GetUserByUsername n db =
  (db, match usersByName db !! n ≫= (users db !!.) with
       | Some u => Ok u | None => Err store_ErrNotFound end).
Proof.
  intros Hwf. unfold GetUserByUsername. rewrite M_bind_eq. cbn [get]. rewrite M_bind_eq. unfold found.
  destruct (usersByName db !! n) as [id|] eqn:Hn; [|done].
  destruct (wf_name _ Hwf n id Hn) as (u & Hu & _). cbn. unfold deref. by rewrite Hu.
Qed.

Lemma LoginWithCode_eq secs d username pw code dev p db :
  wf db →
  LoginWithCode totp_env attached secs d username pw code dev p db =
  match account_of username db with
  | None => (db, Err auth_ErrBadCredentials)
  | Some u =>
      if verifyPassword pw (User_PasswordHash u) then
        (second_factor secs u code;; sess ← startSession d u dev p; mret (sess, u)) db
      else (db, Err auth_ErrBadCredentials)
  end.
Proof.
  intros Hwf. unfold LoginWithCode, account_of. rewrite M_bind_eq. unfold attempt.
  rewrite GetUserByUsername_eq by done. destruct (usersByName db !! _ ≫= _) as [u|]; [|done].
  rewrite (bind_Ok _ _ _ db u) by done. destruct (verifyPassword pw _); [|done].
  rewrite (bind_Ok _ _ _ db tt) by done. unfold second_factor. rewrite !M_bind_eq.
  by destruct (TwoFactorEnabled _ _ _) as [db1 [a|e]].
Qed.

Lemma account_of_user username db u :
  wf db → account_of username db = Some u → users db !! User_ID u = Some u.
Proof.
  intros Hwf. unfold account_of. destruct (usersByName db !! _) as [id|]; [|done]. cbn. intros Hu.
  by destruct (wf_user _ Hwf id u Hu) as [-> _].
Qed.

Lemma runs_LoginWithCode secs d username pw code dev p db :
  wf db → fresh_draw d db →
  runs changes db (LoginWithCode totp_env attached secs d username pw code dev p).
Proof.
  intros Hwf Hf. unfold runs. rewrite LoginWithCode_eq by done.
  destruct (account_of username db) as [u|] eqn:Hu; [|done]. apply account_of_user in Hu; [|done].
  destruct (verifyPassword _ _); [|done]. pose proof (second_factor_quiet secs u code db) as Hq.
  apply (runs_bind (R := changes)); [by apply changes_quiet|]. intros db1 [] Hs.
  rewrite Hs in Hq. cbn in Hq. apply runs_bind; [|eauto with syncapp].
  apply runs_startSession; [by eapply fresh_draw_quiet|]. by rewrite (q_users _ _ Hq), Hu.
Qed.

Lemma runs_Register salt id now d username pw name dev p db :
  fresh_draw d db → users db !! id = None →
  runs changes db (Register salt id now d username pw name dev p).
Proof.
  intros Hf Hid. unfold Register. destruct (ValidateUsername (handle_of username)) as [[]|e] eqn:Hv;
    [|apply runs_lift].
  apply runs_bind; [eauto with syncapp|]. intros ? ? [= <-].
  apply runs_bind; [eauto with syncapp|]. intros ? ? [_ ->]%guard_or_Ok. cbv zeta.
  apply runs_bind; [eauto with syncapp|]. intros ? hash [= <- _].
  set (u := mkUser _ _ _ _ _ _ _). apply runs_bind.
  { apply runs_attempt. unfold CreateUser. apply runs_get_bind.
    destruct (usersByName db !! _) eqn:Hn; [eauto with syncapp|].
    apply changes_once. apply (change_new_user db u); [done..|].
    change (ValidateUsername (sbytes (bstring (handle_of username))) = Ok tt).
    by rewrite sbytes_bstring. }
  intros db1 r Hr. apply runs_bind; [eauto with syncapp|]. intros ? [] [= <- Hok].
  apply runs_bind; [|eauto with syncapp]. destruct r as [[]|e]; [|unfold on_error in Hok; by case_bool_decide].
  unfold attempt, CreateUser in Hr. rewrite M_bind_eq in Hr. cbn [get] in Hr.
  destruct (usersByName db !! User_Username u); [done|]. injection Hr as <-. apply runs_startSession.
  - by destruct Hf.
  - cbn. by rewrite lookup_insert_eq.
Qed.

(** ** Revoking several sessions *)

Lemma RevokeSession_run id at_ db s :
  sessions db !! id = Some s →
  RevokeSession id at_ db = (set_sessions (<[id := set_RevokedAt at_ s]> (sessions db)) db, Ok tt).
Proof.
  intros Hs. unfold RevokeSession. rewrite (bind_Ok _ _ _ db db) by done.
  by rewrite (bind_Ok _ _ _ db s) by (unfold found; by rewrite Hs).
Qed.

Lemma set_sessions_set m m' db : set_sessions m (set_sessions m' db) = set_sessions m db.
Proof. done. Qed.
Lemma set_sessions_same db : set_sessions (sessions db) db = db.
Proof. by destruct db. Qed.

Lemma revoke_each_run now keep rows n db :
  (∀ s, s ∈ rows → is_Some (sessions db !! Session_ID s)) →
  ∃ m, revoke_each now keep rows n None db =
    (set_sessions m db, Ok (n + len (filter (λ s, Session_ID s ≠ keep) rows))) ∧
  ∀ id, m !! id = if bool_decide (id ≠ keep ∧ id ∈ Session_ID <$> rows)
                  then set_RevokedAt now <$> sessions db !! id else sessions db !! id.
Proof.
  revert n db. induction rows as [|s rows IH]; intros n db Hin.
  { exists (sessions db). rewrite set_sessions_same. cbn. rewrite Z.add_0_r. split; [done|].
    intros id. rewrite bool_decide_false; [done|]. intros [_ Hid]. by apply not_elem_of_nil in Hid. }
  cbn [revoke_each]. case_bool_decide as Hk.
  - destruct (IH n db) as (m & -> & Hm); [intros x Hx; apply Hin; by right|]. exists m.
    rewrite filter_cons_False by tauto. split; [done|]. intros id. rewrite Hm.
    erewrite (bool_decide_ext (_ ∧ _)); [done|]. rewrite fmap_cons, elem_of_cons.
    intuition congruence.
  - destruct (Hin s) as [x Hx]; [by left|]. rewrite M_bind_eq. unfold attempt.
    rewrite (RevokeSession_run _ _ _ x) by done.
    set (db1 := set_sessions _ db).
    destruct (IH (n + 1) db1) as (m & -> & Hm).
    { intros y Hy. cbn. destruct (Hin y) as [z Hz]; [by right|]. apply lookup_insert_is_Some.
      destruct (decide (Session_ID s = Session_ID y)); eauto. }
    exists m. rewrite filter_cons_True, len_cons by done. split.
    { unfold db1. rewrite set_sessions_set. do 2 f_equal. lia. }
    intros id. rewrite Hm, fmap_cons. unfold db1. cbn [sessions set_sessions].
    destruct (decide (id = Session_ID s)) as [->|Hne].
    + rewrite lookup_insert_eq, Hx. rewrite (bool_decide_true (_ ∧ _ ∈ _ :: _)) by (split; [done|left]).
      by destruct (bool_decide _).
    + rewrite lookup_insert_ne by done. erewrite (bool_decide_ext (_ ∧ _)); [done|].
      rewrite elem_of_cons. tauto.
Qed.

Lemma runs_revoke_each now keep rows n e db :
  now ≠ 0 → runs changes db (revoke_each now keep rows n e).
Proof.
  intros Hn. revert n e db. induction rows as [|s rows IH]; intros n e db.
  { destruct e; cbn; eauto with syncapp. }
  cbn [revoke_each]. case_bool_decide; [done|].
  apply runs_bind; [by apply runs_attempt, runs_RevokeSession|]. intros ? [[]|e'] _; apply IH.
Qed.

Lemma elem_of_ListSessions u (db : AccountDB) s :
  wf db → s ∈ filter (λ s, Session_UserID s = u) (range_map (sessions db)).*2 ↔
  Session_UserID s = u ∧ sessions db !! Session_ID s = Some s.
Proof.
  intros Hwf. rewrite list_elem_of_filter, list_elem_of_fmap. split.
  - intros (Hu & [id x] & -> & Hin). apply elem_of_range_map in Hin. cbn in *.
    by destruct (wf_session _ Hwf id x Hin) as (-> & _).
  - intros (Hu & Hs). split; [done|]. exists (Session_ID s, s). by rewrite elem_of_range_map.
Qed.

Lemma runs_RevokeAll clock now u keep db : now ≠ 0 → runs changes db (RevokeAll clock now u keep).
Proof.
  intros Hn. unfold RevokeAll. apply runs_bind; [by apply runs_reads|]. intros.
  by apply runs_revoke_each.
Qed.

Lemma runs_RevokeOwned now u id db : now ≠ 0 → runs changes db (RevokeOwned now u id).
Proof.
  intros Hn. unfold RevokeOwned. apply runs_bind; [by apply runs_reads|]. intros ? rows _.
  destruct (find _ rows); [|eauto with syncapp]. destruct (negb _); [eauto with syncapp|].
  by apply runs_RevokeSession.
Qed.

Lemma runs_ChangePassword salt clock now u old new keep db :
  now ≠ 0 → runs changes db (ChangePassword salt clock now u old new keep).
Proof.
  intros Hn. unfold ChangePassword. do 5 (apply runs_bind; [eauto with syncapp|]; intros ? ? _).
  apply runs_bind; [by apply runs_update_user|]. intros. by apply runs_RevokeAll.
Qed.

Lemma runs_BeginTOTP rand nonce now u issuer db :
  runs changes db (BeginTOTP totp_env attached rand nonce now u issuer).
Proof.
  unfold BeginTOTP, twoFactorStore. do 3 (apply runs_bind; [eauto with syncapp|]; intros ? ? _).
  apply runs_bind; [case_match; eauto with syncapp|]; intros ? ? _.
  do 3 (apply runs_bind; [eauto with syncapp|]; intros ? ? _).
  apply runs_bind; [|eauto with syncapp]. apply changes_quiet, tf_only_quiet, put_tf_only.
Qed.

Lemma runs_ConfirmTOTP rands secs now u code db :
  runs changes db (ConfirmTOTP totp_env attached rands secs now u code).
Proof.
  unfold ConfirmTOTP, twoFactorStore. do 6 (apply runs_bind; [eauto with syncapp|]; intros ? ? _).
  apply runs_bind; [eauto with syncapp|]; intros ? [plain hs] _.
  apply runs_bind; [|eauto with syncapp]. apply changes_quiet, tf_only_quiet, put_tf_only.
Qed.

Lemma runs_DisableTOTP secs u pw code db :
  runs changes db (DisableTOTP totp_env attached secs u pw code).
Proof.
  unfold DisableTOTP, twoFactorStore. do 3 (apply runs_bind; [eauto with syncapp|]; intros ? ? _).
  apply runs_bind; [apply changes_quiet, tf_only_quiet, verifySecondFactor_tf_only|]. intros ? ? _.
  apply runs_bind; [eauto with syncapp|]; intros ? ? _. apply changes_quiet, tf_only_quiet, put_tf_only.
Qed.

(** ** Histories

    One call of the service; ids and tokens are fresh and the clock is not at the epoch. *)
Inductive call : AccountDB → AccountDB → Prop :=
  | call_Register salt id now d username pw name dev p db :
      fresh_draw d db → users db !! id = None →
      call db (Register salt id now d username pw name dev p db).1
  | call_LoginWithCode secs d username pw code dev p db :
      fresh_draw d db →
      call db (LoginWithCode totp_env attached secs d username pw code dev p db).1
  | call_Authenticate now now1 now2 sn token db : call db (Authenticate now now1 now2 sn token db).1
  | call_Resume rand now now' now'' token db :
      now ≠ 0 → now'' ≠ 0 → fresh_resume rand db →
      call db (Resume rand now now' now'' token db).1
  | call_Revoke now id db : now ≠ 0 → call db (Revoke now id db).1
  | call_RevokeOwned now u id db : now ≠ 0 → call db (RevokeOwned now u id db).1
  | call_RevokeAll clock now u keep db : now ≠ 0 → call db (RevokeAll clock now u keep db).1
  | call_ChangePassword salt clock now u old new keep db :
      now ≠ 0 → call db (ChangePassword salt clock now u old new keep db).1
  | call_BeginTOTP rand nonce now u issuer db :
      call db (BeginTOTP totp_env attached rand nonce now u issuer db).1
  | call_ConfirmTOTP rands secs now u code db :
      call db (ConfirmTOTP totp_env attached rands secs now u code db).1
  | call_DisableTOTP secs u pw code db : call db (DisableTOTP totp_env attached secs u pw code db).1
  | call_UpdatePrivacy u p db : call db (UpdatePrivacy u p db).1
  | call_UpdateProfile u n a db : call db (UpdateProfile u n a db).1.

Abbreviation calls := (rtc call).
(** A store the service brought about. *)
Definition served (db : AccountDB) : Prop := calls New db.

Lemma call_changes db db' : wf db → call db db' → changes db db'.
Proof.
  intros Hwf Hc. destruct Hc; try (by apply runs_update_user).
  - by apply runs_Register.
  - by apply runs_LoginWithCode.
  - apply runs_Authenticate.
  - by apply runs_Resume.
  - by apply runs_RevokeSession.
  - by apply runs_RevokeOwned.
  - by apply runs_RevokeAll.
  - by apply runs_ChangePassword.
  - apply runs_BeginTOTP.
  - apply runs_ConfirmTOTP.
  - apply runs_DisableTOTP.
Qed.

Lemma calls_changes db db' : wf db → calls db db' → changes db db'.
Proof.
  intros Hwf Hc. induction Hc as [|db db1 db' Hc _ IH]; [done|].
  pose proof (call_changes _ _ Hwf Hc) as Hc'. etrans; [exact Hc'|]. apply IH. by eapply wf_changes.
Qed.

Lemma served_wf db : served db → wf db.
Proof. intros Hs. eapply wf_changes; [by eapply calls_changes; [apply wf_New|] | apply wf_New]. Qed.
End service.
