(* ===== verification/AuthSessions.v ===== *)
(** * Sessions, credentials and handles

    The theorems about the identity service of Auth.v in a store it brought about
    ([served], AuthRules.v). *)

From Stdlib Require Import Strings.Byte.
From S2P Require Import Prelude Bytes GoStrings Sha Totp Password Model MemAccounts TwoFactor Auth AuthRules.

#[local] Set Warnings "-clear-no-such-hyp".

#[local] Opaque hashToken.

Definition live (now : Z) (s : Session) : Prop :=
  Session_RevokedAt s = 0 ∧ (Session_ExpiresAt s = 0 ∨ now ≤ Session_ExpiresAt s).

Lemma validSession_live now s : validSession now s = Ok tt ↔ live now s.
Proof.
  unfold validSession, live. destruct (Z.eqb_spec (Session_RevokedAt s) 0); cbn [negb]; [|naive_solver].
  destruct (Z.eqb_spec (Session_ExpiresAt s) 0); cbn [negb andb]; [naive_solver|].
  destruct (Z.ltb_spec (Session_ExpiresAt s) now); naive_solver lia.
Qed.
Lemma validSession_dead now s : ¬ live now s → validSession now s = Err auth_ErrInvalidSession.
Proof.
  rewrite <- validSession_live. unfold validSession. repeat case_match; naive_solver.
Qed.

Section sessions.
Context `{Unicode} `{Argon2} `{!Argon2Laws} `{AEAD} `{RangeOrder}.
Variable totp_env : bytes.
Variable attached : bool.
Abbreviation served := (served totp_env attached).
Abbreviation calls := (rtc (call totp_env attached)).

(** ** Authentication *)

Lemma refresh_run n1 n2 sn s db :
  ∃ db' e, refresh n1 n2 sn s db = (db', Ok (set_ExpiresAt e s)) ∧ users db' = users db.
Proof.
  assert (s = set_ExpiresAt (Session_ExpiresAt s) s) as Hs by by destruct s.
  unfold refresh. destruct (_ =? 0); [exists db, (Session_ExpiresAt s); by rewrite <- Hs|].
  destruct (_ <? _); [exists db, (Session_ExpiresAt s); by rewrite <- Hs|].
  rewrite M_bind_eq. unfold attempt, TouchSession. rewrite M_bind_eq. cbn [get]. rewrite M_bind_eq.
  unfold found. destruct (sessions db !! _) as [x|]; [|exists db, (Session_ExpiresAt s); by rewrite <- Hs].
  cbn [mret M_ret]. destruct (_ || _); [by eexists _, _|].
  destruct (Session_ExpiresAt x <? _); by eexists _, _.
Qed.

(** The session a token stands for. *)
Definition holder (token : string) (db : AccountDB) : option Session :=
  tokenIndex db !! hashToken token ≫= (sessions db !!.).

Lemma holder_Some token db s :
  wf db →
  holder token db = Some s ↔
  sessions db !! Session_ID s = Some s ∧ Session_Token s = hashToken token.
Proof.
  intros Hwf. unfold holder. split.
  - destruct (tokenIndex db !! _) as [id|] eqn:Ht; [|done]. cbn. intros Hs.
    destruct (wf_token _ Hwf _ id Ht) as (x & Hx & Hxt). simplify_eq.
    by destruct (wf_session _ Hwf id s Hs) as (-> & _).
  - intros (Hs & <-). by destruct (wf_session _ Hwf _ s Hs) as (_ & _ & -> & _).
Qed.

Lemma Authenticate_live n n1 n2 sn token db s u :
  wf db → sessions db !! Session_ID s = Some s → Session_Token s = hashToken token →
  users db !! Session_UserID s = Some u → live n s →
  ∃ db' e, Authenticate n n1 n2 sn token db = (db', Ok (mkIdentity (set_ExpiresAt e s) u)).
Proof.
  intros Hwf Hs Ht Hu Hl. unfold Authenticate.
  rewrite M_bind_eq. unfold attempt. rewrite GetSessionByToken_eq by done.
  assert (holder token db = Some s) as Hh by by apply holder_Some. unfold holder in Hh. rewrite Hh.
  rewrite (bind_Ok _ _ _ db s) by done. apply validSession_live in Hl. rewrite Hl.
  rewrite (bind_Ok _ _ _ db tt) by done. destruct (refresh_run n1 n2 sn s db) as (db' & e & Hr & Hu').
  rewrite (bind_Ok _ _ _ db' (set_ExpiresAt e s)) by done.
  rewrite M_bind_eq, GetUser_eq, Hu'. cbn [Session_UserID set_ExpiresAt]. rewrite Hu. by eexists _, _.
Qed.

Lemma Authenticate_dead n n1 n2 sn token db :
  wf db → (∀ s, sessions db !! Session_ID s = Some s → Session_Token s = hashToken token → ¬ live n s) →
  Authenticate n n1 n2 sn token db = (db, Err auth_ErrInvalidSession).
Proof.
  intros Hwf Hd. unfold Authenticate. rewrite M_bind_eq. unfold attempt.
  rewrite GetSessionByToken_eq by done. fold (holder token db).
  destruct (holder token db) as [s|] eqn:Hh; [|done]. apply holder_Some in Hh as [Hs Ht]; [|done].
  rewrite (bind_Ok _ _ _ db s) by done. by rewrite (validSession_dead n s (Hd s Hs Ht)).
Qed.

(** Authentication is exact.  In every store the service brought about, a token is
    accepted exactly when some stored session holds its hash and is neither revoked nor
    past its expiry; the identity is then that session, possibly with a later expiry, and
    its owner.  Any other token is [ErrInvalidSession] and changes nothing. *)
Theorem Authenticate_exact n n1 n2 sn token db :
  served db →
  (∀ s, sessions db !! Session_ID s = Some s → Session_Token s = hashToken token → live n s →
     ∃ db' e u, Authenticate n n1 n2 sn token db = (db', Ok (mkIdentity (set_ExpiresAt e s) u)) ∧
       users db !! Session_UserID s = Some u ∧ User_ID u = Session_UserID s) ∧
  ((∀ s, sessions db !! Session_ID s = Some s → Session_Token s = hashToken token → ¬ live n s) →
     Authenticate n n1 n2 sn token db = (db, Err auth_ErrInvalidSession)).
Proof.
  intros Hwf%served_wf. split; [|by apply Authenticate_dead]. intros s Hs Ht Hl.
  destruct (wf_session _ Hwf _ s Hs) as (_ & [u Hu] & _).
  destruct (Authenticate_live n n1 n2 sn token db s u) as (db' & e & Ha); [done..|].
  exists db', e, u. split_and!; [done..|]. by destruct (wf_user _ Hwf _ u Hu).
Qed.

(** ** The resume chain *)

Definition resumer (h : string) (db : AccountDB) : option Session :=
  resumeIndex db !! h ≫= (sessions db !!.).

Lemma resumer_Some h db s :
  wf db →
  resumer h db = Some s ↔ sessions db !! Session_ID s = Some s ∧ Session_ResumeToken s = h.
Proof.
  intros Hwf. unfold resumer. split.
  - destruct (resumeIndex db !! _) as [id|] eqn:Ht; [|done]. cbn. intros Hs.
    destruct (wf_resume _ Hwf _ id Ht) as (x & Hx & Hxt). simplify_eq.
    by destruct (wf_session _ Hwf id s Hs) as (-> & _).
  - intros (Hs & <-). by destruct (wf_session _ Hwf _ s Hs) as (_ & _ & _ & ->).
Qed.

Lemma Resume_live rand next n n' n'' token db s u :
  wf db → sessions db !! Session_ID s = Some s → Session_ResumeToken s = hashToken token →
  users db !! Session_UserID s = Some u → live n s → randToken rand = Ok next →
  Resume rand n n' n'' token db =
  (set_indexes (tokenIndex db)
     (<[hashToken next := Session_ID s]> (delete (hashToken token) (resumeIndex db)))
     (<[hashToken token := Session_ID s]> (prevResumeIndex db))
     (set_sessions (<[Session_ID s := set_rotated (hashToken token) (hashToken next) n' s]>
        (sessions db)) db),
   Ok (mkIdentity (set_tokens (Session_Token s) next s) u)).
Proof.
  intros Hwf Hs Ht Hu Hl Hr. unfold Resume. rewrite M_bind_eq. unfold attempt at 1.
  rewrite GetSessionByResumeToken_eq by done.
  assert (resumer (hashToken token) db = Some s) as Hh by by apply resumer_Some.
  unfold resumer in Hh. rewrite Hh. apply validSession_live in Hl. rewrite Hl, Hr.
  rewrite (bind_Ok _ _ _ db tt), (bind_Ok _ _ _ db next) by done.
  rewrite M_bind_eq. unfold attempt at 1. rewrite (RotateResumeToken_run _ _ _ _ _ s) by done.
  rewrite bool_decide_true by done. rewrite M_bind_eq, GetUser_eq. cbn [users set_indexes set_sessions].
  by rewrite Hu.
Qed.

Lemma Resume_dead rand n n' n'' token db s :
  wf db → sessions db !! Session_ID s = Some s → Session_ResumeToken s = hashToken token → ¬ live n s →
  Resume rand n n' n'' token db = (db, Err auth_ErrInvalidSession).
Proof.
  intros Hwf Hs Ht Hl. unfold Resume. rewrite M_bind_eq. unfold attempt at 1.
  rewrite GetSessionByResumeToken_eq by done.
  assert (resumer (hashToken token) db = Some s) as Hh by by apply resumer_Some.
  unfold resumer in Hh. rewrite Hh. by rewrite (validSession_dead _ _ Hl).
Qed.

(** A consumed token ends the chain it came from. *)
Lemma Resume_consumed rand n n' n'' token db id :
  wf db → n ≠ 0 → prevResumeIndex db !! hashToken token = Some id →
  ∃ db', Resume rand n n' n'' token db = (db', Err auth_ErrResumeReplayed) ∧ revoked id db'.
Proof.
  intros Hwf Hn Hp. destruct (wf_prev _ Hwf _ _ Hp) as [[s Hs] Hr].
  destruct (wf_session _ Hwf _ s Hs) as (Hid & _).
  unfold Resume. rewrite M_bind_eq. unfold attempt at 1.
  rewrite GetSessionByResumeToken_eq, Hr by done. cbn [mbind option_bind].
  rewrite bool_decide_true by done. rewrite M_bind_eq.
  unfold detectResumeReplay. rewrite M_bind_eq. unfold attempt at 1, GetSessionByConsumedResumeToken.
  rewrite M_bind_eq. cbn [get]. rewrite M_bind_eq. unfold found. rewrite Hp. cbn [mret M_ret]. rewrite Hs.
  cbn [mret M_ret].
  destruct (Z.eqb_spec (Session_RevokedAt s) 0) as [Hz|Hz].
  - rewrite !M_bind_eq. unfold attempt. rewrite Hid, (RevokeSession_run _ _ _ s) by done. cbn [mret M_ret].
    eexists. split; [done|]. eexists. cbn. rewrite lookup_insert_eq. done.
  - eexists. split; [done|]. by exists s.
Qed.

(** What a successful [Resume] found. *)
Lemma Resume_Ok rand n n' n'' token db db' i :
  wf db → Resume rand n n' n'' token db = (db', Ok i) →
  ∃ s u next, sessions db !! Session_ID s = Some s ∧ Session_ResumeToken s = hashToken token ∧
    users db !! Session_UserID s = Some u ∧ live n s ∧ randToken rand = Ok next ∧
    i = mkIdentity (set_tokens (Session_Token s) next s) u.
Proof.
  intros Hwf Hr. destruct (resumer (hashToken token) db) as [s|] eqn:Hh.
  - apply resumer_Some in Hh as [Hs Ht]; [|done].
    destruct (wf_session _ Hwf _ s Hs) as (_ & [u Hu] & _).
    destruct (validSession n s) as [[]|e] eqn:Hv.
    + apply validSession_live in Hv. destruct (randToken rand) as [next|e] eqn:Hn.
      * rewrite (Resume_live rand next n n' n'' token db s u) in Hr by done.
        injection Hr as _ <-. by exists s, u, next.
      * unfold Resume in Hr. rewrite M_bind_eq in Hr. unfold attempt at 1 in Hr.
        rewrite GetSessionByResumeToken_eq in Hr by done.
        assert (resumer (hashToken token) db = Some s) as Hh by by apply resumer_Some.
        unfold resumer in Hh. rewrite Hh in Hr. apply validSession_live in Hv. by rewrite Hv, Hn in Hr.
    + assert (¬ live n s) as Hd by (rewrite <- validSession_live, Hv; done).
      by rewrite (Resume_dead rand n n' n'' token db s Hwf Hs Ht Hd) in Hr.
  - unfold Resume in Hr. rewrite M_bind_eq in Hr. unfold attempt at 1 in Hr.
    rewrite GetSessionByResumeToken_eq in Hr by done. unfold resumer in Hh. rewrite Hh in Hr.
    rewrite bool_decide_true in Hr by done. rewrite M_bind_eq in Hr.
    by destruct (detectResumeReplay _ _ _) as [? [[]|]].
Qed.


(** The chain goes on with the new token.  A successful [Resume] hands out a token that
    resumes the same session for the same user as long as the session is live; the stored
    expiry stays where it was. *)
Theorem resume_chain rand n n' n'' token db db1 i rand' next' m m' m'' :
  served db → Resume rand n n' n'' token db = (db1, Ok i) → fresh_resume rand db →
  live m (Identity_Session i) → randToken rand' = Ok next' →
  ∃ db2 i', Resume rand' m m' m'' (Session_ResumeToken (Identity_Session i)) db1 = (db2, Ok i') ∧
    Session_ID (Identity_Session i') = Session_ID (Identity_Session i) ∧
    Identity_User i' = Identity_User i ∧
    Session_ExpiresAt <$> sessions db2 !! Session_ID (Identity_Session i) =
    Session_ExpiresAt <$> sessions db !! Session_ID (Identity_Session i).
Proof.
  intros Hwf%served_wf Hr Hf Hlm Hn'.
  destruct (Resume_Ok _ _ _ _ _ _ _ _ Hwf Hr) as (s & u & next & Hs & Ht & Hu & Hl & Hn & ->).
  rewrite (Resume_live rand next n n' n'' token db s u) in Hr by done. injection Hr as <-.
  pose proof (wf_rotate db _ s (hashToken next) n' Hwf Hs (Hf _ Hn)) as Hwf1. rewrite Ht in Hwf1.
  set (s1 := set_rotated (hashToken token) (hashToken next) n' s).
  eexists _, _. split.
  - apply (Resume_live rand' next' m m' m'' next _ s1 u); [done | | done..].
    cbn. by rewrite lookup_insert_eq.
  - cbn. rewrite lookup_insert_eq, Hs. done.
Qed.

(** ** Revocation *)

Lemma Authenticate_Ok n n1 n2 sn token db db' i :
  wf db → Authenticate n n1 n2 sn token db = (db', Ok i) →
  ∃ s u e, sessions db !! Session_ID s = Some s ∧ Session_Token s = hashToken token ∧ live n s ∧
    users db !! Session_UserID s = Some u ∧ i = mkIdentity (set_ExpiresAt e s) u.
Proof.
  intros Hwf Ha. destruct (holder token db) as [s|] eqn:Hh.
  - apply holder_Some in Hh as [Hs Ht]; [|done].
    destruct (wf_session _ Hwf _ s Hs) as (_ & [u Hu] & _).
    destruct (validSession n s) as [[]|e] eqn:Hv.
    + apply validSession_live in Hv.
      destruct (Authenticate_live n n1 n2 sn token db s u) as (db1 & e & Ha'); [done..|].
      rewrite Ha' in Ha. injection Ha as _ <-. by exists s, u, e.
    + rewrite Authenticate_dead in Ha; [done..|]. intros x Hx Hxt Hl.
      assert (x = s) as ->.
      { destruct (wf_session _ Hwf _ s Hs) as (_ & _ & H1' & _).
        destruct (wf_session _ Hwf _ x Hx) as (_ & _ & H2' & _). congruence. }
      apply validSession_live in Hl. congruence.
  - rewrite Authenticate_dead in Ha; [done..|]. intros x Hx Hxt _.
    assert (holder token db = Some x) by by apply holder_Some. congruence.
Qed.

(** C10: Revocation is permanent.  Once a session is revoked, no later history lets any
    token authenticate or resume as that session. *)
Theorem revoked_forever id db db' :
  served db → revoked id db → calls db db' →
  (∀ n n1 n2 sn token i, (Authenticate n n1 n2 sn token db').2 = Ok i →
     Session_ID (Identity_Session i) ≠ id) ∧
  (∀ rand n n' n'' token i, (Resume rand n n' n'' token db').2 = Ok i →
     Session_ID (Identity_Session i) ≠ id).
Proof.
  intros Hwf%served_wf Hr Hc. apply calls_changes in Hc; [|done].
  destruct (revoked_kept _ _ _ Hc Hr) as (x & Hx & Hxr). pose proof (wf_changes _ _ Hc Hwf) as Hwf'.
  split.
  - intros n n1 n2 sn token i Ha <-. destruct (Authenticate _ _ _ _ _ db') as [db2 r] eqn:E.
    cbn in Ha. subst r.
    destruct (Authenticate_Ok _ _ _ _ _ _ _ _ Hwf' E) as (s & u & e & Hs & _ & [Hl _] & _ & ->).
    cbn in Hx. congruence.
  - intros rand n n' n'' token i Ha <-. destruct (Resume _ _ _ _ _ db') as [db2 r] eqn:E.
    cbn in Ha. subst r.
    destruct (Resume_Ok _ _ _ _ _ _ _ _ Hwf' E) as (s & u & next & Hs & _ & _ & [Hl _] & _ & ->).
    cbn in Hx. congruence.
Qed.

Lemma RevokeAll_run clock now u keep db :
  wf db →
  ∃ m n, RevokeAll clock now u keep db = (set_sessions m db, Ok n) ∧
    (∀ id, m !! id =
       match sessions db !! id with
       | Some s => Some (if bool_decide (Session_UserID s = u ∧ id ≠ keep ∧ live (clock s) s)
                         then set_RevokedAt now s else s)
       | None => None
       end) ∧
    n = len (filter (λ s, Session_UserID s = u ∧ Session_ID s ≠ keep ∧ live (clock s) s)
               (range_map (sessions db)).*2).
Proof.
  intros Hwf. unfold RevokeAll, ListSessions, MemAccounts.ListSessions.
  rewrite (bind_Ok _ _ _ db (filter (λ s, validSession (clock s) s = Ok tt)
    (filter (λ s, Session_UserID s = u) (range_map (sessions db)).*2))) by done.
  set (rows := filter _ _).
  assert (∀ s, s ∈ rows ↔ live (clock s) s ∧ Session_UserID s = u ∧ sessions db !! Session_ID s = Some s)
    as Hrows.
  { intros s. unfold rows. by rewrite list_elem_of_filter, validSession_live, elem_of_ListSessions. }
  destruct (revoke_each_run now keep rows 0 db) as (m & -> & Hm).
  { intros s (_ & _ & Hs)%Hrows. eauto. }
  exists m, (0 + len (filter (λ s, Session_ID s ≠ keep) rows)). split_and!; [done| |].
  - intros id. rewrite Hm. destruct (sessions db !! id) as [s|] eqn:Hs; [|by destruct (bool_decide _)].
    destruct (wf_session _ Hwf id s Hs) as (Hid & _).
    rewrite (bool_decide_ext (id ≠ keep ∧ id ∈ Session_ID <$> rows)
      (Session_UserID s = u ∧ id ≠ keep ∧ live (clock s) s)); [by destruct (bool_decide _)|].
    rewrite list_elem_of_fmap. split.
    + intros (Hk & x & -> & (Hl & Hu & Hx)%Hrows). assert (x = s) as -> by congruence. tauto.
    + intros (Hu & Hk & Hl). split; [done|]. exists s. rewrite Hrows. rewrite Hid at 2. by rewrite Hid.
  - rewrite Z.add_0_l. unfold rows. rewrite !list_filter_filter. f_equal. apply filter_ext_in.
    intros s _. rewrite validSession_live. tauto.
Qed.

(** Signing out everywhere ends exactly the caller's other live sessions: each of them
    is revoked now, every other row is as before, and the count is theirs. *)
Theorem RevokeAll_exact clock now u keep db :
  served db →
  ∃ m n, RevokeAll clock now u keep db = (set_sessions m db, Ok n) ∧
    (∀ id, m !! id =
       match sessions db !! id with
       | Some s => Some (if bool_decide (Session_UserID s = u ∧ id ≠ keep ∧ live (clock s) s)
                         then set_RevokedAt now s else s)
       | None => None
       end) ∧
    n = len (filter (λ s, Session_UserID s = u ∧ Session_ID s ≠ keep ∧ live (clock s) s)
               (range_map (sessions db)).*2).
Proof. intros Hwf%served_wf. by apply RevokeAll_run. Qed.

(** A session is revoked by its owner only.  [RevokeOwned] either leaves every row alone
    or revokes the one it was given, which belongs to the caller; it answers the same
    [ErrNotFound] for a session of someone else and for no session at all. *)
Theorem RevokeOwned_owned now u id db :
  served db →
  RevokeOwned now u id db =
  match sessions db !! id with
  | Some s =>
      if bool_decide (Session_UserID s = u) then
        if Session_RevokedAt s =? 0
        then (set_sessions (<[id := set_RevokedAt now s]> (sessions db)) db, Ok tt)
        else (db, Ok tt)
      else (db, Err store_ErrNotFound)
  | None => (db, Err store_ErrNotFound)
  end.
Proof.
  intros Hwf%served_wf. unfold RevokeOwned, MemAccounts.ListSessions.
  rewrite (bind_Ok _ _ _ db (filter (λ s, Session_UserID s = u) (range_map (sessions db)).*2)) by done.
  destruct (find _ _) as [x|] eqn:Hf.
  - apply find_some in Hf as [Hin Hid]. apply list_elem_of_In, elem_of_ListSessions in Hin as [Hu Hx]; [|done].
    apply bool_decide_eq_true in Hid. rewrite Hid in Hx. rewrite Hx, bool_decide_true by done.
    destruct (_ =? 0); [|done]. by apply RevokeSession_run.
  - destruct (sessions db !! id) as [s|] eqn:Hs; [|done]. case_bool_decide as Hu; [|done].
    destruct (wf_session _ Hwf id s Hs) as (Hid & _).
    assert (In s (filter (λ s, Session_UserID s = u) (range_map (sessions db)).*2)) as Hin.
    { apply list_elem_of_In, elem_of_ListSessions; [done|]. by rewrite Hid. }
    apply (find_none _ _ Hf) in Hin. by rewrite bool_decide_true in Hin.
Qed.

(** ** Expiry *)

(** A session in use stays ahead of its expiry.  Authenticating before the expiry leaves
    the stored session with more than half its lifetime from now, and at most a full
    lifetime unless it already had more; the identity carries the stored expiry. *)
Theorem Authenticate_rolls n n1 n2 sn token db s :
  served db → sessions db !! Session_ID s = Some s → Session_Token s = hashToken token →
  live n s → Session_ExpiresAt s ≠ 0 → n1 ≤ n2 → sn < Session_ExpiresAt s →
  ∃ db' u s', Authenticate n n1 n2 sn token db = (db', Ok (mkIdentity s' u)) ∧
    sessions db' = <[Session_ID s := s']> (sessions db) ∧ Session_ID s' = Session_ID s ∧
    n1 + SessionTTL - SessionRefreshAfter < Session_ExpiresAt s' ∧
    Session_ExpiresAt s' ≤ Z.max (Session_ExpiresAt s) (n2 + SessionTTL).
Proof.
  intros Hwf%served_wf Hs Ht Hl He Hn Hsn.
  destruct (wf_session _ Hwf _ s Hs) as (_ & [u Hu] & _).
  assert (∃ db' s', refresh n1 n2 sn s db = (db', Ok s') ∧
    sessions db' = <[Session_ID s := s']> (sessions db) ∧ users db' = users db ∧
    Session_ID s' = Session_ID s ∧ Session_UserID s' = Session_UserID s ∧
    n1 + SessionTTL - SessionRefreshAfter < Session_ExpiresAt s' ∧
    Session_ExpiresAt s' ≤ Z.max (Session_ExpiresAt s) (n2 + SessionTTL))
    as (db' & s' & Hr & Hss & Hus & Hid & Huid & H1' & H2').
  { unfold refresh. rewrite (proj2 (Z.eqb_neq _ _) He).
    destruct (Z.ltb_spec (SessionTTL - SessionRefreshAfter) (Session_ExpiresAt s - n1)).
    { exists db, s. rewrite insert_id by done. split_and!; [done..|lia|lia]. }
    rewrite M_bind_eq. unfold attempt, TouchSession. rewrite M_bind_eq. cbn [get]. rewrite M_bind_eq.
    unfold found. rewrite Hs. cbn [mret M_ret]. destruct Hl as [-> _]. cbn [Z.eqb negb orb].
    rewrite (proj2 (Z.leb_gt _ _)), andb_false_r by lia.
    assert (0 < SessionRefreshAfter) by (by vm_compute).
    rewrite (proj2 (Z.ltb_lt _ _)) by lia.
    eexists _, _. split; [done|]. cbn. split_and!; [done..|lia|lia]. }
  unfold Authenticate. rewrite M_bind_eq. unfold attempt. rewrite GetSessionByToken_eq by done.
  assert (holder token db = Some s) as Hh by by apply holder_Some. unfold holder in Hh. rewrite Hh.
  rewrite (bind_Ok _ _ _ db s) by done. apply validSession_live in Hl. rewrite Hl.
  rewrite (bind_Ok _ _ _ db tt), (bind_Ok _ _ _ db' s') by done.
  rewrite M_bind_eq, GetUser_eq, Hus, Huid, Hu. exists db', u, s'. by split_and!.
Qed.

(** ** Login *)

Lemma startSession_Err d u dev p db db' e :
  fresh_draw d db → is_Some (users db !! User_ID u) →
  startSession d u dev p db = (db', Err e) → quiet db db'.
Proof.
  intros Hf Hu Hs. rewrite startSession_eq in Hs.
  pose proof (place_device_quiet d u (if bool_decide (dev = "") then Draw_device d else dev) p db) as Hq.
  rewrite M_bind_eq in Hs. destruct (place_device _ _ _ _ _) as [db1 [dev'|e']]; [|by injection Hs as <- _].
  cbn in Hq. rewrite M_bind_eq in Hs. destruct (randToken (Draw_token d)); [|by injection Hs as <- _].
  cbn [lift] in Hs. rewrite M_bind_eq in Hs.
  destruct (randToken (Draw_resume d)); [done | by injection Hs as <- _].
Qed.

(** What the second factor, when on, has accepted. *)
Definition factor_ok (secs : Z) (u : User) (code : bytes) (db : AccountDB) : Prop :=
  ∀ tf, attached = true → twoFactor db !! User_ID u = Some tf → TF_Enabled tf = true →
  code ≠ [] ∧ ∃ key, totpKey totp_env = Ok key ∧
    (totp_matches key tf code secs = true ∨ is_Some (recovery_match tf code)).

Lemma second_factor_Ok secs u code db db' :
  second_factor totp_env attached secs u code db = (db', Ok tt) → factor_ok secs u code db.
Proof.
  intros Hs tf Ha Htf He. unfold second_factor in Hs. rewrite M_bind_eq, TwoFactorEnabled_eq in Hs.
  rewrite Ha, Htf, He in Hs. cbn [andb] in Hs. minv Hs. bool_to_prop. split; [done|].
  destruct (totpKey totp_env) as [key|e] eqn:Hk.
  2:{ unfold verifySecondFactor, twoFactorStore in Hrun0. rewrite M_bind_eq in Hrun0. cbn in Hrun0.
      rewrite (bind_Ok _ _ _ db tf) in Hrun0 by (by rewrite GetTwoFactor_eq, Htf).
      by rewrite Hk in Hrun0. }
  exists key. split; [done|]. destruct (totp_matches key tf code secs) eqn:Hm; [by left|]. right.
  rewrite (verify_recovery totp_env secs (User_ID u) code db tf key) in Hrun0 by done.
  destruct (recovery_match tf code); [done|]. by injection Hrun0 as _ <-.
Qed.

(** C22: The login gate.  A login succeeds only for the account the handle names, with a
    password that verifies against its record and, when the second factor is on, a
    non-empty code that is a live TOTP code or a stored recovery code.  A refused login
    creates no session. *)
Theorem login_gate secs d username pw code dev p db db' r :
  served db → fresh_draw d db →
  LoginWithCode totp_env attached secs d username pw code dev p db = (db', r) →
  match r with
  | Ok (sess, u) =>
      account_of username db = Some u ∧ verifyPassword pw (User_PasswordHash u) = true ∧
      factor_ok secs u code db
  | Err _ => sessions db' = sessions db ∧ tokenIndex db' = tokenIndex db ∧
             resumeIndex db' = resumeIndex db
  end.
Proof.
  intros Hwf%served_wf Hf Hl. rewrite LoginWithCode_eq in Hl by done.
  destruct (account_of username db) as [u|] eqn:Hu; [|by injection Hl as <- <-].
  destruct (verifyPassword pw _) eqn:Hv; [|by injection Hl as <- <-].
  pose proof (second_factor_quiet totp_env attached secs u code db) as Hq.
  rewrite M_bind_eq in Hl. destruct (second_factor _ _ _ _ _ _) as [db1 [[]|e]] eqn:Hs.
  2:{ injection Hl as <- <-. by destruct Hq. }
  cbn in Hq. rewrite M_bind_eq in Hl. destruct (startSession _ _ _ _ _) as [db2 [sess|e]] eqn:Hss.
  - injection Hl as <- <-. split_and!; [done..|]. by eapply second_factor_Ok.
  - injection Hl as <- <-. apply startSession_Err in Hss; [|by eapply fresh_draw_quiet|].
    + destruct Hq, Hss. split_and!; congruence.
    + rewrite (q_users _ _ Hq). apply account_of_user in Hu; [eauto|done].
Qed.

Lemma UpsertDevice_run d db :
  UpsertDevice d db =
  match devices db !! Device_ID d with
  | None => (set_devices (<[Device_ID d := d]> (devices db)) db, Ok tt)
  | Some cur =>
      if bool_decide (Device_UserID cur = Device_UserID d) then
        (set_devices (<[Device_ID d := set_Device_CreatedAt (Device_CreatedAt cur)
           (if bool_decide (Device_PushToken d = "") then set_PushToken (Device_PushToken cur) d else d)]>
           (devices db)) db, Ok tt)
      else (db, Err store_ErrConflict)
  end.
Proof.
  unfold UpsertDevice. rewrite M_bind_eq. cbn [get]. destruct (devices db !! _); [|done].
  by destruct (bool_decide (_ = Device_UserID d)).
Qed.

(** A device id that belongs to someone else is replaced by a fresh one. *)
Lemma place_device_ok d u dev p db :
  devices db !! Draw_device2 d = None → ∃ db1 dev', place_device d u dev p db = (db1, Ok dev').
Proof.
  intros Hd. unfold place_device. rewrite M_bind_eq. unfold attempt. rewrite UpsertDevice_run.
  cbn [Device_ID Device_UserID]. destruct (devices db !! dev); [|by eexists _, _].
  destruct (bool_decide _); [by eexists _, _|]. cbn [guard_or].
  rewrite bool_decide_true by done. rewrite (bind_Ok _ _ _ db tt) by done.
  rewrite M_bind_eq, UpsertDevice_run. cbn [Device_ID]. rewrite Hd. by eexists _, _.
Qed.

(** C23: The right credentials get a working session.  When the handle names an account,
    the password verifies and the second factor is off or satisfied, the login succeeds,
    whatever device id the client claims; the token it returns authenticates as that user
    until the session's lifetime is over, and the resume token resumes it. *)
Theorem login_works secs d username pw code dev p db u tok res :
  served db → fresh_draw d db → account_of username db = Some u →
  verifyPassword pw (User_PasswordHash u) = true →
  (second_factor totp_env attached secs u code db).2 = Ok tt →
  randToken (Draw_token d) = Ok tok → randToken (Draw_resume d) = Ok res →
  devices db !! Draw_device2 d = None →
  ∃ db' sess,
    LoginWithCode totp_env attached secs d username pw code dev p db = (db', Ok (sess, u)) ∧
    Session_UserID sess = User_ID u ∧ Session_ID sess = Draw_session d ∧
    (∀ n n1 n2 sn, n ≤ Draw_now d + SessionTTL →
       ∃ db2 s2, Authenticate n n1 n2 sn (Session_Token sess) db' = (db2, Ok (mkIdentity s2 u)) ∧
         Session_ID s2 = Draw_session d) ∧
    (∀ rand next n n' n'', randToken rand = Ok next → n ≤ Draw_now d + SessionTTL →
       ∃ db2 s2, Resume rand n n' n'' (Session_ResumeToken sess) db' = (db2, Ok (mkIdentity s2 u)) ∧
         Session_ID s2 = Draw_session d).
Proof.
  intros Hwf%served_wf Hf Hu Hv Hs Ht Hr Hd.
  pose proof (runs_LoginWithCode totp_env attached secs d username pw code dev p db Hwf Hf) as Hch.
  unfold runs in Hch. rewrite LoginWithCode_eq, Hu, Hv in Hch |- * by done.
  pose proof (account_of_user _ _ _ Hwf Hu) as Hid.
  pose proof (second_factor_quiet totp_env attached secs u code db) as Hq.
  pose proof (second_factor_tf_only totp_env attached secs u code db) as Hdev.
  destruct (second_factor _ _ _ _ _ _) as [db1 r] eqn:Es. cbn in Hs, Hq, Hdev. subst r.
  rewrite (bind_Ok _ _ _ db1 tt) in Hch |- * by done.
  destruct (place_device_ok d u (if bool_decide (dev = "") then Draw_device d else dev) p db1)
    as (db2 & dev' & Hp); [by rewrite Hdev|].
  assert (users db1 !! User_ID u = Some u) as Hid1 by by rewrite (q_users _ _ Hq).
  destruct (startSession_run d u dev p db1 tok res (fresh_draw_quiet _ _ _ Hq Hf)
    (mk_is_Some _ _ Hid1) Ht Hr db2 dev' Hp) as (Hss & Hq2 & _).
  rewrite M_bind_eq, Hss in Hch. rewrite M_bind_eq, Hss. cbn [mret M_ret fst] in *.
  set (s := mkSession _ _ _ _ _ _ _ _ _ _) in *. set (db' := set_indexes _ _ _ _) in *.
  assert (wf db') as Hwf' by by eapply wf_changes.
  assert (sessions db' !! Session_ID s = Some s) as Hsess by apply lookup_insert_eq.
  assert (users db' !! Session_UserID s = Some u) as Hus by (cbn; by rewrite (q_users _ _ Hq2)).
  eexists _, _. split_and!; [done..| |].
  - intros n n1 n2 sn Hn. destruct (Authenticate_live n n1 n2 sn tok db' s u) as (db3 & e & Ha); [done..| |].
    { split; [done|]. by right. }
    by eexists _, _.
  - intros rand next n n' n'' Hrand Hn. eexists _, _. split.
    + apply (Resume_live rand next n n' n'' res db' s u); [done..| |done]. split; [done|]. by right.
    + done.
Qed.

(** Changing the password secures the account.  With the old password, and a new one
    that is long enough and different, the change succeeds: the new password verifies from
    then on, every other live session of the account is revoked, and no other session or
    account is touched. *)
Theorem ChangePassword_secures salt clock now u old new keep db x :
  served db → users db !! u = Some x → verifyPassword old (User_PasswordHash x) = true →
  verifyPassword new (User_PasswordHash x) = false → MinPasswordLen ≤ len (sbytes new) →
  ∃ db' n x', ChangePassword (Some salt) clock now u old new keep db = (db', Ok n) ∧
    users db' = <[u := x']> (users db) ∧ User_Username x' = User_Username x ∧
    verifyPassword new (User_PasswordHash x') = true ∧
    ∀ id s, sessions db !! id = Some s →
      sessions db' !! id =
      Some (if bool_decide (Session_UserID s = u ∧ id ≠ keep ∧ live (clock s) s)
            then set_RevokedAt now s else s).
Proof.
  intros Hwf%served_wf Hu Hold Hnew Hlen. destruct (hashPassword (Some salt) new) as [h|] eqn:Hh; [|done].
  set (x' := set_PasswordHash h x). set (db1 := set_users (<[u := x']> (users db)) db).
  assert (wf db1) as Hwf1.
  { eapply wf_change; [|exact Hwf]. by apply (change_user db u x x'). }
  destruct (RevokeAll_run clock now u keep db1 Hwf1) as (m & n & Hr & Hm & _).
  exists (set_sessions m db1), n, x'. split_and!; [|done..| |].
  - unfold ChangePassword. rewrite (proj2 (Z.leb_le _ _)) by done.
    rewrite (bind_Ok _ _ _ db tt), (bind_Ok _ _ _ db x) by (done || by rewrite GetUser_eq, Hu).
    rewrite Hold, Hnew, Hh. rewrite (bind_Ok _ _ _ db tt), (bind_Ok _ _ _ db tt) by done.
    rewrite (bind_Ok _ _ _ db h) by done. rewrite (bind_Ok _ _ _ db1 tt); [done|].
    unfold SetPasswordHash, update_user. rewrite (bind_Ok _ _ _ db db) by done.
    by rewrite (bind_Ok _ _ _ db x) by (unfold found; by rewrite Hu).
  - cbn. rewrite (verifyPassword_hash salt _ _ h Hh). by apply bool_decide_eq_true.
  - intros id s Hs. cbn. rewrite Hm. cbn. by rewrite Hs.
Qed.

(** ** Handles *)

(** A handle names one account.  In every store the service brought about, two accounts
    never share a handle, every handle is 3 to 32 bytes of the ASCII alphabet of
    [usernameRe], and looking a handle up finds the account that has it. *)
Theorem handles_unique db :
  served db →
  (∀ i j u v, users db !! i = Some u → users db !! j = Some v →
     User_Username u = User_Username v → i = j) ∧
  (∀ i u, users db !! i = Some u →
     User_ID u = i ∧ 3 ≤ len (sbytes (User_Username u)) ≤ 32 ∧
     forallb handle_byte (sbytes (User_Username u)) = true ∧
     GetUserByUsername (User_Username u) db = (db, Ok u)).
Proof.
  intros Hwf%served_wf. split.
  - intros i j u v Hi Hj Hn. destruct (wf_user _ Hwf i u Hi) as (_ & Hui & _).
    destruct (wf_user _ Hwf j v Hj) as (_ & Hvj & _). congruence.
  - intros i u Hi. destruct (wf_user _ Hwf i u Hi) as (Hid & Hn & Hv).
    rewrite GetUserByUsername_eq, Hn by done. cbn [mbind option_bind]. rewrite Hi.
    unfold ValidateUsername in Hv. destruct (_ || _) eqn:Hl; [done|].
    apply orb_false_elim in Hl as [H1'%Z.ltb_ge H2'%Z.ltb_ge].
    unfold MinUsernameLen, MaxUsernameLen in *. destruct (usernameRe _) eqn:He; [|done].
    unfold usernameRe in He. apply andb_prop in He as [_ He]. done.
Qed.

(** The push-preview opt-in is never stored: whatever settings a user submits, the row
    keeps the normalised visibilities with the preview off. *)
Theorem push_preview_lost u p db x :
  users db !! u = Some x →
  ∃ db' x', UpdatePrivacy u p db = (db', Ok tt) ∧ GetUser u db' = (db', Ok x') ∧
    Privacy_PushPreview (User_Privacy x') = false ∧
    Privacy_LastSeen (User_Privacy x') = NormalizeVisibility (Privacy_LastSeen p).
Proof.
  intros Hu. unfold UpdatePrivacy, update_user. rewrite (bind_Ok _ _ _ db db) by done.
  rewrite (bind_Ok _ _ _ db x) by (unfold found; by rewrite Hu).
  eexists _, _. split; [done|]. rewrite GetUser_eq. cbn. by rewrite lookup_insert_eq.
Qed.
End sessions.

(** ** Witnesses

    Alice registers, resumes once, and a thief presents the old token. *)

Section witnesses.
#[local] Existing Instance toy_argon.
#[local] Existing Instance toy_laws.
#[local] Existing Instance canonical_order.
#[local] Existing Instance ascii_tables.
#[local] Instance w_aead : AEAD := {|
  aead_Seal _ _ pt := pt; aead_Open _ _ ct := Some ct |}.

Definition w_rand (n : Z) : option bytes := Some (replicate 32 (byteZ n)).
Definition w_draw (id : string) (n now : Z) : Draw :=
  mkDraw "d1" "d2" id (w_rand n) (w_rand (n + 1)) now.
Definition w_tok (n : Z) : string := match randToken (w_rand n) with Ok t => t | Err _ => "" end.
Definition w_salt : bytes := sbytes "0123456789abcdef".

Definition w_db1 : AccountDB :=
  (Register (Some w_salt) "u1" 1000 (w_draw "s1" 1 1000) " @Alice" "secret" "" "" "web" New).1.
Definition w_s1 : Session :=
  mkSession "s1" "u1" "d1" (hashToken (w_tok 1)) (hashToken (w_tok 2)) 1000 (1000 + SessionTTL) 0 "" 0.
Definition w_u1 : User := default (mkUser "" "" "" "" "" 0 zero_Privacy) (users w_db1 !! "u1").
Definition w_resume : AccountDB * result Identity := Resume (w_rand 3) 2000 2000 2000 (w_tok 2) w_db1.
Definition w_i : Identity := match w_resume.2 with Ok i => i | Err _ => mkIdentity w_s1 w_u1 end.

Lemma w_fresh_New : fresh_draw (w_draw "s1" 1 1000) New.
Proof. split; [done..|]. intros t [= <-]. split; [|done]. by vm_compute. Qed.
Lemma w_served : served [] true w_db1.
Proof. apply rtc_once. apply call_Register; [apply w_fresh_New | done]. Qed.
Lemma w_lookup : sessions w_db1 !! "s1" = Some w_s1.
Proof. by vm_compute. Qed.
Lemma w_fresh_resume : fresh_resume (w_rand 3) w_db1.
Proof. intros t [= <-]. split; by vm_compute. Qed.
Lemma w_fresh_draw : fresh_draw (w_draw "s2" 5 3000) w_db1.
Proof.
  split; [by vm_compute | intros t [= <-]; by vm_compute |].
  intros t [= <-]. split; by vm_compute.
Qed.

Lemma Authenticate_exact_witness :
  ∃ db' e, Authenticate 2000 2000 2000 2000 (w_tok 1) w_db1
    = (db', Ok (mkIdentity (set_ExpiresAt e w_s1) w_u1)).
Proof.
  destruct (proj1 (Authenticate_exact [] true 2000 2000 2000 2000 (w_tok 1) w_db1 w_served) w_s1)
    as (db' & e & u & Ha & Hu & _); [exact w_lookup | reflexivity | by split; [|right] |].
  exists db', e. rewrite Ha. do 3 f_equal. unfold w_u1. cbn in Hu. by rewrite Hu.
Defined.


Lemma resume_chain_witness :
  ∃ db2 i', Resume (w_rand 4) 9000 9000 9000 (Session_ResumeToken (Identity_Session w_i)) w_resume.1
    = (db2, Ok i').
Proof.
  destruct (resume_chain [] true (w_rand 3) 2000 2000 2000 (w_tok 2) w_db1 w_resume.1 w_i
    (w_rand 4) (w_tok 4) 9000 9000 9000 w_served) as (db2 & i' & H1 & _);
    [by vm_compute | exact w_fresh_resume | split; [by vm_compute | right; by vm_compute]
    | reflexivity |].
  exists db2, i'. exact H1.
Defined.

Definition w_revoked : AccountDB := (Revoke 5000 "s1" w_db1).1.

Lemma revoked_forever_witness :
  revoked "s1" w_revoked ∧
  ∀ token i, (Authenticate 6000 6000 6000 6000 token w_revoked).2 = Ok i →
    Session_ID (Identity_Session i) ≠ "s1".
Proof.
  assert (revoked "s1" w_revoked) as Hr.
  { exists (set_RevokedAt 5000 w_s1). split; [by vm_compute | done]. }
  split; [exact Hr|].
  refine (proj1 (revoked_forever [] true "s1" w_revoked w_revoked _ Hr (rtc_refl _ _)) 6000 6000 6000 6000).
  eapply rtc_r; [exact w_served | by apply call_Revoke].
Defined.

Lemma RevokeAll_exact_witness :
  ∃ m, RevokeAll (λ _, 5000) 5000 "u1" "" w_db1 = (set_sessions m w_db1, Ok 1).
Proof.
  destruct (RevokeAll_exact [] true (λ _, 5000) 5000 "u1" "" w_db1 w_served) as (m & n & H1 & _ & H2).
  exists m. rewrite H1, H2. reflexivity.
Defined.

Lemma RevokeOwned_owned_witness : RevokeOwned 5000 "u2" "s1" w_db1 = (w_db1, Err store_ErrNotFound).
Proof. rewrite (RevokeOwned_owned [] true 5000 "u2" "s1" w_db1 w_served). by rewrite w_lookup. Defined.

Lemma Authenticate_rolls_witness :
  ∃ db' u s', Authenticate SessionTTL SessionTTL SessionTTL SessionTTL (w_tok 1) w_db1
      = (db', Ok (mkIdentity s' u)) ∧ Session_ExpiresAt s' ≤ 2 * SessionTTL.
Proof.
  destruct (Authenticate_rolls [] true SessionTTL SessionTTL SessionTTL SessionTTL (w_tok 1) w_db1 w_s1
    w_served w_lookup eq_refl) as (db' & u & s' & H1 & _ & _ & _ & H2);
    [by split; [|right] | done | lia | done |].
  exists db', u, s'. split; [exact H1|]. etrans; [exact H2|]. by vm_compute.
Defined.

Definition w_refused : AccountDB * result (Session * User) :=
  LoginWithCode [] true 3 (w_draw "s2" 5 3000) "alice" "wrong" [] "" "web" w_db1.

Lemma login_gate_witness :
  w_refused.2 = Err auth_ErrBadCredentials ∧ sessions w_refused.1 = sessions w_db1.
Proof.
  assert (w_refused.2 = Err auth_ErrBadCredentials) as Hr by by vm_compute.
  pose proof (login_gate [] true 3 (w_draw "s2" 5 3000) "alice" "wrong" [] "" "web" w_db1
    w_refused.1 w_refused.2 w_served w_fresh_draw (surjective_pairing w_refused)) as Hg.
  rewrite Hr in Hg. exact (conj Hr (proj1 Hg)).
Defined.

Lemma login_works_witness :
  ∃ db' sess, LoginWithCode [] true 3 (w_draw "s2" 5 3000) "ALICE" "secret" [] "" "web" w_db1
    = (db', Ok (sess, w_u1)).
Proof.
  destruct (login_works [] true 3 (w_draw "s2" 5 3000) "ALICE" "secret" [] "" "web" w_db1 w_u1
    (w_tok 5) (w_tok 6) w_served w_fresh_draw) as (db' & sess & H1 & _);
    [by vm_compute | by vm_compute | by vm_compute | reflexivity | reflexivity | by vm_compute |].
  exists db', sess. exact H1.
Defined.

Lemma ChangePassword_secures_witness :
  ∃ db' n, ChangePassword (Some w_salt) (λ _, 5000) 5000 "u1" "secret" "hunter22" "s1" w_db1
    = (db', Ok n).
Proof.
  destruct (ChangePassword_secures [] true w_salt (λ _, 5000) 5000 "u1" "secret" "hunter22" "s1" w_db1
    w_u1 w_served) as (db' & n & x' & H1 & _);
    [by vm_compute | by vm_compute | by vm_compute | by vm_compute |].
  exists db', n. exact H1.
Defined.

Lemma handles_unique_witness : GetUserByUsername "alice" w_db1 = (w_db1, Ok w_u1).
Proof.
  destruct (proj2 (handles_unique [] true w_db1 w_served) "u1" w_u1) as (_ & _ & _ & Hg);
    [by vm_compute | exact Hg].
Defined.

Lemma push_preview_lost_witness :
  ∃ db' x', UpdatePrivacy "u1" (mkPrivacy "nobody" "contacts" "everyone" true) w_db1 = (db', Ok tt) ∧
    GetUser "u1" db' = (db', Ok x') ∧ Privacy_PushPreview (User_Privacy x') = false.
Proof.
  destruct (push_preview_lost "u1" (mkPrivacy "nobody" "contacts" "everyone" true) w_db1 w_u1)
    as (db' & x' & H1 & H2 & H3 & _); [by vm_compute|].
  exists db', x'. exact (conj H1 (conj H2 H3)).
Defined.
End witnesses.
