(* ===== verification/Invite.v ===== *)
(** * Handles, invite links and member roles

    [internal/invite] invite.go and [internal/store/memory] invites.go, over the chat
    service as the server wires it: role questions go to the chat service with its caches,
    role changes straight to the store ([wiring.go], [memberRoles]). *)

From Stdlib Require Import Strings.Byte.
From S2P Require Import Prelude Bytes Base64 GoStrings Model EventBus MemChats ChatService.

Record InviteLink := mkInvite {
  Invite_Code : string;
  Invite_ChatID : string;
  Invite_CreatedBy : string;
  Invite_CreatedAt : Z;
  Invite_ExpiresAt : Z;
  Invite_MaxUses : Z;
  Invite_Uses : Z;
  Invite_Revoked : bool;
}.
Definition set_Uses (n : Z) (l : InviteLink) : InviteLink :=
  mkInvite (Invite_Code l) (Invite_ChatID l) (Invite_CreatedBy l) (Invite_CreatedAt l)
    (Invite_ExpiresAt l) (Invite_MaxUses l) n (Invite_Revoked l).
Definition set_Revoked (b : bool) (l : InviteLink) : InviteLink :=
  mkInvite (Invite_Code l) (Invite_ChatID l) (Invite_CreatedBy l) (Invite_CreatedAt l)
    (Invite_ExpiresAt l) (Invite_MaxUses l) (Invite_Uses l) b.
Definition set_Username (u : string) (c : Chat) : Chat :=
  mkChat (Chat_ID c) (Chat_Type c) (Chat_Title c) (Chat_OwnerID c) (Chat_CreatedAt c)
    (Chat_LastSeq c) u.

(** The chat service with its store, and the map of links. *)
Record InviteState := mkState { svc : Service; invites : gmap string InviteLink }.

Definition set_svc (v : Service) (st : InviteState) : InviteState := mkState v (invites st).
Definition set_invites (v : gmap string InviteLink) (st : InviteState) : InviteState :=
  mkState (svc st) v.
(** A call of the chat service. *)
Definition chats_ {A} (m : M Service A) : M InviteState A := λ st,
  let '(s, r) := m (svc st) in (set_svc s st, r).
Definition chat_db (st : InviteState) : ChatDB := cdb (svc st).

Section invite.
Context `{Unicode} `{RangeOrder}.

(** ** The store *)

Definition SetChatUsername (chatID username : string) : M InviteState unit :=
  st ← get;
  let cs := chats (chat_db st) in
  match cs !! chatID with
  | None => fail store_ErrNotFound
  | Some c =>
      if negb (bool_decide (username = "")) &&
         existsb (λ e, negb (bool_decide (e.1 = chatID)) &&
                    EqualFold (sbytes (Chat_Username e.2)) (sbytes username)) (range_map cs)
      then fail store_ErrConflict
      else chats_ (store (modify (set_chats (<[chatID := set_Username username c]> cs))))
  end.

Definition GetChatByUsername (username : string) : M InviteState Chat :=
  st ← get;
  match find (λ c, negb (bool_decide (Chat_Username c = "")) &&
                EqualFold (sbytes (Chat_Username c)) (sbytes username))
          (range_map (chats (chat_db st))).*2 with
  | Some c => mret c
  | None => fail store_ErrNotFound
  end.

Definition CreateInvite (l : InviteLink) : M InviteState unit :=
  st ← get;
  match invites st !! Invite_Code l with
  | Some _ => fail store_ErrConflict
  | None => modify (set_invites (<[Invite_Code l := l]> (invites st)))
  end.

Definition GetInvite (code : string) : M InviteState InviteLink :=
  st ← get;
  match invites st !! code with Some l => mret l | None => fail store_ErrNotFound end.

Definition RevokeInvite (code chatID : string) : M InviteState unit :=
  st ← get;
  match invites st !! code with
  | Some l =>
      if negb (bool_decide (Invite_ChatID l = chatID)) then fail store_ErrNotFound
      else modify (set_invites (<[code := set_Revoked true l]> (invites st)))
  | None => fail store_ErrNotFound
  end.

(** [sort.Slice] by creation, newest first; equal times stay as ranged. *)
Fixpoint insert_newest (l : InviteLink) (ls : list InviteLink) : list InviteLink :=
  match ls with
  | [] => [l]
  | x :: ls' => if Invite_CreatedAt x <? Invite_CreatedAt l then l :: ls
                else x :: insert_newest l ls'
  end.
Definition ListInvites (chatID : string) : M InviteState (list InviteLink) :=
  gets (λ st, foldl (λ acc l, insert_newest l acc) []
    (filter (λ l, Invite_ChatID l = chatID ∧ Invite_Revoked l = false) (range_map (invites st)).*2)).

Definition UseInvite (code : string) (now : Z) : M InviteState InviteLink :=
  st ← get;
  match invites st !! code with
  | None => fail store_ErrNotFound
  | Some l =>
      if Invite_Revoked l then fail store_ErrNotFound
      else if negb (Invite_ExpiresAt l =? 0) && (Invite_ExpiresAt l <=? now) then fail store_ErrNotFound
      else if negb (Invite_MaxUses l =? 0) && (Invite_MaxUses l <=? Invite_Uses l)
           then fail store_ErrNotFound
      else
        let l := set_Uses (i32 (Invite_Uses l + 1)) l in
        modify (set_invites (<[code := l]> (invites st)));;
        mret l
  end.

(** ** The service *)

Definition rank (r : MemberRole) : Z :=
  if bool_decide (r = RoleOwner) then 3
  else if bool_decide (r = RoleAdmin) then 2
  else if bool_decide (r = RoleMember) then 1 else 0.

Definition requireRole (t t' : Ticks) (chatID actorID : string) (min : MemberRole)
    : M InviteState unit :=
  '(r, mem) ← chats_ (MemberRole_ t t' chatID actorID);
  guard_or (mem && negb (rank r <? rank min)) invite_ErrForbidden.

(** [^[a-zA-Z][a-zA-Z0-9_]{4,31}$]. *)
Definition letter (c : byte) : bool :=
  let z := Zbyte c in ((97 <=? z) && (z <=? 122)) || ((65 <=? z) && (z <=? 90)).
Definition handle_tail (c : byte) : bool :=
  letter c || ((48 <=? Zbyte c) && (Zbyte c <=? 57)) || (Zbyte c =? 95).
Definition usernameRe (b : bytes) : bool :=
  match b with
  | [] => false
  | c :: tl => letter c && forallb handle_tail tl && (4 <=? len tl) && (len tl <=? 31)
  end.

Definition SetUsername (t t' : Ticks) (chatID actorID username : string) : M InviteState unit :=
  requireRole t t' chatID actorID RoleOwner;;
  guard_or (bool_decide (username = "") || usernameRe (sbytes username)) invite_ErrBadUsername;;
  r ← attempt (SetChatUsername chatID username);
  lift (match r with
        | Err e => if bool_decide (e = store_ErrConflict) then Err invite_ErrTaken else Err e
        | Ok u => Ok u
        end).

Definition ResolveUsername (username : string) : M InviteState Chat :=
  GetChatByUsername (bstring (TrimPrefix (byteZ 64) (sbytes username))).

(** 16 random bytes. *)
Definition newCode (rand : option bytes) : result string :=
  match rand with
  | None => Err rand_error
  | Some b => Ok (RawURL_EncodeToString b)
  end.

Definition CreateLink (t t' : Ticks) (rand : option bytes) (chatID actorID : string)
    (expiresAt maxUses now : Z) : M InviteState InviteLink :=
  requireRole t t' chatID actorID RoleAdmin;;
  code ← lift (newCode rand);
  let l := mkInvite code chatID actorID now expiresAt maxUses 0 false in
  CreateInvite l;;
  mret l.

Definition RevokeLink (t t' : Ticks) (chatID actorID code : string) : M InviteState unit :=
  requireRole t t' chatID actorID RoleAdmin;;
  RevokeInvite code chatID.

Definition ListLinks (t t' : Ticks) (chatID actorID : string) : M InviteState (list InviteLink) :=
  requireRole t t' chatID actorID RoleAdmin;;
  ListInvites chatID.

Definition new_member (chatID userID : string) (now : Z) : ChatMember :=
  mkMember chatID userID RoleMember now false no_flags.

Definition Join (t t' : Ticks) (code userID : string) (now : Z) : M InviteState Chat :=
  r ← attempt (GetInvite code);
  l ← lift (match r with Err _ => Err invite_ErrInvalidLink | Ok l => Ok l end);
  mem ← chats_ (IsMember t t' (Invite_ChatID l) userID);
  if (mem : bool) then chats_ (Get (Invite_ChatID l))
  else
    r ← attempt (UseInvite code now);
    used ← lift (match r with Err _ => Err invite_ErrInvalidLink | Ok l => Ok l end);
    chats_ (AddMember (new_member (Invite_ChatID used) userID now));;
    chats_ (Get (Invite_ChatID used)).

Definition JoinPublic (t t' : Ticks) (username userID : string) (now : Z) : M InviteState Chat :=
  c ← ResolveUsername username;
  mem ← chats_ (IsMember t t' (Chat_ID c) userID);
  if (mem : bool) then mret c
  else
    chats_ (AddMember (new_member (Chat_ID c) userID now));;
    mret c.

(** The role is written to the store, past the chat service. *)
Definition SetRole (t t' u u' : Ticks) (chatID actorID targetID : string) (r : MemberRole)
    : M InviteState unit :=
  requireRole t t' chatID actorID RoleOwner;;
  guard_or (bool_decide (r = RoleMember) || bool_decide (r = RoleAdmin) || bool_decide (r = RoleOwner))
    invite_ErrForbidden;;
  (if bool_decide (r = RoleOwner) then mret tt
   else
     '(targetRole, mem) ← chats_ (MemberRole_ u u' chatID targetID);
     guard_or mem invite_ErrForbidden;;
     if bool_decide (targetRole = RoleOwner) then
       owners ← chats_ (CountMembersWithRole chatID RoleOwner);
       guard_or (negb (owners <=? 1)) invite_ErrLastOwner
     else mret tt);;
  chats_ (store (MemChats.SetMemberRole chatID targetID r)).
End invite.

(** ** Lemmas *)

Section lemmas.
Context `{Unicode} `{RangeOrder}.

Lemma chats_eq {A} (m : M Service A) st : chats_ m st = (set_svc (m (svc st)).1 st, (m (svc st)).2).
Proof. unfold chats_. by destruct (m (svc st)). Qed.

(** Role questions leave the store alone. *)
Definition same_cdb (s s' : Service) : Prop := cdb s' = cdb s.
#[local] Instance same_cdb_preorder : PreOrder same_cdb.
Proof. split; [done|]. unfold same_cdb. intros ? ? ? E1 E2. congruence. Qed.

Lemma store_read {A} (m : M ChatDB A) s : (m (cdb s)).1 = cdb s → runs same_cdb s (store m).
Proof. intros Hm. unfold runs, same_cdb. by rewrite store_eq. Qed.
Lemma sweep_cdb now s : cdb (sweepLocked now s) = cdb s.
Proof. unfold sweepLocked. by destruct (_ && _). Qed.

Lemma authView_cdb t cid s : runs same_cdb s (authView t cid).
Proof.
  unfold authView. apply runs_get_bind.
  assert (∀ s, runs same_cdb s (c ← store (GetChat cid);
    ms ← store (ListMembersPage cid "" (maxCachedMembers + 1));
    let big := maxCachedMembers <? len ms in
    let e := mkEntry (Chat_Type c) (if big then ∅ else roles_of ms) big (at_load t + authCacheTTL) in
    modify (sweepLocked (at_sweep t));; modify (λ s, set_cache (<[cid := e]> (cache s)) s);; mret e)) as Hload.
  { intros s'. apply runs_bind; [apply store_read; by rewrite GetChat_eq|]. intros ? ? _.
    apply runs_bind; [by apply store_read|]. intros ? ? _.
    apply runs_bind; [apply runs_modify, sweep_cdb|]. intros ? ? _.
    apply runs_bind; [by apply runs_modify | intros; apply runs_ret]. }
  destruct (cache s !! cid); [|apply Hload]. destruct (_ <? _); [apply runs_ret | apply Hload].
Qed.

Lemma roleOf_cdb t t' cid uid s : runs same_cdb s (roleOf t t' cid uid).
Proof.
  unfold roleOf. apply runs_bind; [apply authView_cdb|]. intros s1 e _.
  destruct (negb (large e)); [apply runs_ret|]. apply runs_get_bind.
  assert (runs same_cdb s1 (r ← attempt (store (GetMember cid uid));
      mr ← lift (match r with
                 | Err err => if bool_decide (err = store_ErrNotFound)
                              then Ok (mkMemberRole "" false (at_load t' + authCacheTTL))
                              else Err err
                 | Ok m => Ok (mkMemberRole (Member_Role m) true (at_load t' + authCacheTTL))
                 end);
      modify (sweepLocked (at_sweep t'));;
      modify (λ s, set_roleCache (<[roleKey cid uid := mr]> (roleCache s)) s);;
      mret (typ e, role mr, member mr))) as Hprobe.
  { apply runs_bind; [apply runs_attempt, store_read; by rewrite GetMember_eq|]. intros ? ? _.
    apply runs_bind; [apply runs_lift|]. intros ? ? _.
    apply runs_bind; [apply runs_modify, sweep_cdb|]. intros ? ? _.
    apply runs_bind; [by apply runs_modify | intros; apply runs_ret]. }
  destruct (roleCache s1 !! _); [|done]. destruct (_ <? _); [apply runs_ret | done].
Qed.

Lemma IsMember_cdb t t' cid uid s : cdb (IsMember t t' cid uid s).1 = cdb s.
Proof. apply (runs_bind (R := same_cdb)); [apply roleOf_cdb|]. intros ? [[? ?] ?] _. apply runs_ret. Qed.
Lemma MemberRole_cdb t t' cid uid s : cdb (MemberRole_ t t' cid uid s).1 = cdb s.
Proof. apply (runs_bind (R := same_cdb)); [apply roleOf_cdb|]. intros ? [[? ?] ?] _. apply runs_ret. Qed.

(** Only the caches of the chat service change. *)
Definition calm (st st' : InviteState) : Prop :=
  chat_db st' = chat_db st ∧ invites st' = invites st.
#[local] Instance calm_preorder : PreOrder calm.
Proof. split; [done|]. intros ? ? ? [E1 E2] [E3 E4]. split; congruence. Qed.

Lemma runs_calm {A} (m : M Service A) st : runs same_cdb (svc st) m → runs calm st (chats_ m).
Proof. intros Hm. unfold runs. rewrite chats_eq. by split. Qed.

Lemma requireRole_calm t t' cid uid r st : runs calm st (requireRole t t' cid uid r).
Proof.
  apply runs_bind; [apply runs_calm, MemberRole_cdb|]. intros ? [? ?] _. apply runs_guard_or.
Qed.

(** ** The member count of a chat under [Join] *)

Definition headcount (cid : string) (st : InviteState) : Z :=
  maplen (members_of cid (chat_db st)).

Lemma AddMember_headcount m s :
  maplen (members_of (Member_ChatID m) (cdb (AddMember m s).1)) ≤
  maplen (members_of (Member_ChatID m) (cdb s)) + 1.
Proof.
  unfold AddMember. rewrite M_bind_eq, store_eq. cbn. unfold members_of at 1. cbn.
  rewrite lookup_insert_eq. cbn. unfold maplen. fold (members_of (Member_ChatID m) (cdb s)).
  rewrite map_size_insert. destruct (_ !! _); unfold id; lia.
Qed.

(** A link that still admits. *)
Definition usable (now : Z) (l : InviteLink) : bool :=
  negb (Invite_Revoked l)
  && ((Invite_ExpiresAt l =? 0) || (now <? Invite_ExpiresAt l))
  && ((Invite_MaxUses l =? 0) || (Invite_Uses l <? Invite_MaxUses l)).

Lemma UseInvite_run code now st l :
  invites st !! code = Some l →
  UseInvite code now st =
  if usable now l then
    (set_invites (<[code := set_Uses (i32 (Invite_Uses l + 1)) l]> (invites st)) st,
     Ok (set_Uses (i32 (Invite_Uses l + 1)) l))
  else (st, Err store_ErrNotFound).
Proof.
  intros Hl. unfold UseInvite, usable. rewrite (bind_Ok _ _ _ st st) by done. rewrite Hl.
  rewrite (Z.ltb_antisym (Invite_ExpiresAt l) now), (Z.ltb_antisym (Invite_MaxUses l) (Invite_Uses l)).
  destruct (Invite_Revoked l); [done|]. cbn [negb andb].
  destruct (Invite_ExpiresAt l =? 0), (Invite_ExpiresAt l <=? now), (Invite_MaxUses l =? 0),
    (Invite_MaxUses l <=? Invite_Uses l); done.
Qed.

Lemma Join_run t t' code u now st :
  Join t t' code u now st =
  match invites st !! code with
  | None => (st, Err invite_ErrInvalidLink)
  | Some l =>
      match IsMember t t' (Invite_ChatID l) u (svc st) with
      | (s, Err e) => (set_svc s st, Err e)
      | (s, Ok true) => chats_ (Get (Invite_ChatID l)) (set_svc s st)
      | (s, Ok false) =>
          if usable now l then
            (chats_ (AddMember (new_member (Invite_ChatID l) u now));; chats_ (Get (Invite_ChatID l)))
              (mkState s (<[code := set_Uses (i32 (Invite_Uses l + 1)) l]> (invites st)))
          else (set_svc s st, Err invite_ErrInvalidLink)
      end
  end.
Proof.
  unfold Join, GetInvite. rewrite M_bind_eq. unfold attempt at 1. rewrite M_bind_eq. cbn [get].
  destruct (invites st !! code) as [l|] eqn:Hl; [|done]. cbn [mret M_ret].
  rewrite (bind_Ok _ _ _ st l) by done. rewrite M_bind_eq, chats_eq.
  destruct (IsMember _ _ _ _ _) as [s [[]|e]]; cbn [fst snd]; [done| |done].
  rewrite M_bind_eq. unfold attempt. rewrite (UseInvite_run _ _ _ l) by done.
  by destruct (usable now l).
Qed.

Lemma Get_calm cid st : runs calm st (chats_ (Get cid)).
Proof. apply runs_calm, store_read. by rewrite GetChat_eq. Qed.

(** One use spent, or none: what [Join] does to the link and to the chat's size. *)
Lemma Join_spends t t' code u now st st' r l :
  Join t t' code u now st = (st', r) →
  invites st !! code = Some l → 0 < Invite_MaxUses l < 2 ^ 31 → 0 ≤ Invite_Uses l ≤ Invite_MaxUses l →
  ∃ l', invites st' !! code = Some l' ∧
    Invite_MaxUses l' = Invite_MaxUses l ∧ Invite_ChatID l' = Invite_ChatID l ∧
    Invite_Uses l ≤ Invite_Uses l' ≤ Invite_MaxUses l ∧
    headcount (Invite_ChatID l) st' - headcount (Invite_ChatID l) st ≤ Invite_Uses l' - Invite_Uses l.
Proof.
  intros HJ Hl Hmax Huses. rewrite Join_run, Hl in HJ.
  assert (calm st st' → ∃ l', invites st' !! code = Some l' ∧
    Invite_MaxUses l' = Invite_MaxUses l ∧ Invite_ChatID l' = Invite_ChatID l ∧
    Invite_Uses l ≤ Invite_Uses l' ≤ Invite_MaxUses l ∧
    headcount (Invite_ChatID l) st' - headcount (Invite_ChatID l) st ≤ Invite_Uses l' - Invite_Uses l)
    as Hcalm.
  { intros [H1' H2']. exists l. unfold headcount. rewrite H1', H2'. split_and!; try done; lia. }
  pose proof (IsMember_cdb t t' (Invite_ChatID l) u (svc st)) as Hc.
  destruct (IsMember _ _ _ _ _) as [s [[]|e]]; cbn [fst] in Hc.
  - pose proof (Get_calm (Invite_ChatID l) (set_svc s st)) as [H1' H2']. rewrite HJ in H1', H2'.
    apply Hcalm. unfold chat_db in *. cbn [fst svc set_svc invites] in *. split; [unfold chat_db; congruence | done].
  - destruct (usable now l) eqn:Hus; [|injection HJ as <- _; by apply Hcalm].
    unfold usable in Hus. rewrite (proj2 (Z.eqb_neq (Invite_MaxUses l) 0)) in Hus by lia.
    cbn [orb] in Hus. bool_to_prop.
    assert (i32 (Invite_Uses l + 1) = Invite_Uses l + 1) as Hw.
    { unfold i32, sext. replace (32 - 1) with 31 by lia. rewrite Z.mod_small; lia. }
    rewrite M_bind_eq, chats_eq in HJ. cbn [svc] in HJ.
    pose proof (AddMember_headcount (new_member (Invite_ChatID l) u now) s) as Hadd. rewrite Hc in Hadd.
    cbn [Member_ChatID new_member] in Hadd.
    assert (∃ s', st' = mkState s' (<[code := set_Uses (i32 (Invite_Uses l + 1)) l]> (invites st)) ∧
      cdb s' = cdb (AddMember (new_member (Invite_ChatID l) u now) s).1) as (s' & -> & Hs').
    { destruct (AddMember _ s) as [s1 [[]|e]]; cbn [fst snd] in HJ; [|injection HJ as <- _; by eexists].
      unfold Get in HJ. rewrite chats_eq, store_eq, GetChat_eq in HJ. injection HJ as <- _. eexists.
      split; [done|]. done. }
    eexists. cbn. rewrite lookup_insert_eq. split; [done|]. cbn. rewrite Hw.
    unfold headcount, chat_db. cbn [svc]. rewrite Hs'. split_and!; try done; lia.
  - injection HJ as <- _. by apply Hcalm.
Qed.
End lemmas.

(** ** Theorems *)

(** One request to join by a link: the clock readings, the user and the time. *)
Record JoinReq := mkJoin { jr_t : Ticks; jr_t' : Ticks; jr_user : string; jr_now : Z }.

Section theorems.
Context `{Unicode} `{RangeOrder}.

Definition join_all (code : string) (reqs : list JoinReq) (st : InviteState) : InviteState :=
  foldl (λ st r, (Join (jr_t r) (jr_t' r) code (jr_user r) (jr_now r) st).1) st reqs.

(** A capped link admits at most its cap.  However many users try a link, and in
    whatever order, the chat gains no more members than the link had uses left. *)
Theorem link_capped code reqs st l :
  invites st !! code = Some l → 0 < Invite_MaxUses l < 2 ^ 31 → 0 ≤ Invite_Uses l ≤ Invite_MaxUses l →
  headcount (Invite_ChatID l) (join_all code reqs st) ≤
  headcount (Invite_ChatID l) st + (Invite_MaxUses l - Invite_Uses l).
Proof.
  revert st l. induction reqs as [|r reqs IH]; intros st l Hl Hmax Huses; [cbn; lia|].
  cbn [join_all foldl]. destruct (Join _ _ _ _ _ st) as [st' res] eqn:HJ.
  destruct (Join_spends _ _ _ _ _ _ _ _ l HJ Hl Hmax Huses) as (l' & Hl' & Hm & Hc & Hu & Hh).
  specialize (IH st' l' Hl'). rewrite Hm, Hc in IH. unfold join_all in IH. cbn [fst]. lia.
Qed.

(** A dead link admits nobody.  If the link is revoked, expired or used up, a user who
    is not a member gets [ErrInvalidLink], and neither the chat nor the link changes; a
    member is let through without spending a use. *)
Theorem dead_link_refused t t' code u now st l c :
  coherent (svc st) → no_bar (Invite_ChatID l) = true → chats (chat_db st) !! Invite_ChatID l = Some c →
  invites st !! code = Some l →
  ((Invite_Revoked l = true ∨ (Invite_ExpiresAt l ≠ 0 ∧ Invite_ExpiresAt l ≤ now) ∨
    (Invite_MaxUses l ≠ 0 ∧ Invite_MaxUses l ≤ Invite_Uses l)) →
   members_of (Invite_ChatID l) (chat_db st) !! u = None →
   ∃ st', Join t t' code u now st = (st', Err invite_ErrInvalidLink) ∧ calm st st') ∧
  (is_Some (members_of (Invite_ChatID l) (chat_db st) !! u) →
   ∃ st', Join t t' code u now st = (st', Ok c) ∧ calm st st').
Proof.
  intros Hco Hbar Hc Hl.
  pose proof (decisions_exact (svc st) t t' (Invite_ChatID l) u Hco Hbar) as Hd. cbv zeta in Hd.
  unfold chat_db in *. rewrite Hc in Hd. destruct Hd as (_ & Hm & _).
  pose proof (IsMember_cdb t t' (Invite_ChatID l) u (svc st)) as Hcdb.
  rewrite Join_run, Hl. destruct (IsMember _ _ _ _ _) as [s r]. cbn [fst snd] in *. subst r. split.
  - intros Hdead Hn. rewrite bool_decide_false by (rewrite Hn; by intros []).
    assert (usable now l = false) as ->.
    { unfold usable. destruct Hdead as [->|[[He Hle]|[He Hle]]]; [done|..].
      - rewrite (proj2 (Z.eqb_neq _ _) He), (proj2 (Z.ltb_ge _ _) Hle). cbn [orb].
        by rewrite andb_false_r.
      - rewrite (proj2 (Z.eqb_neq _ _) He), (proj2 (Z.ltb_ge _ _) Hle). cbn [orb].
        by rewrite andb_false_r. }
    eexists. split; [done|]. by split.
  - intros Hm. rewrite bool_decide_true by done. unfold Get. rewrite chats_eq, store_eq, GetChat_eq.
    cbn [svc set_svc]. rewrite Hcdb, Hc. eexists. split; [done|]. by split.
Qed.

(** Someone administers the chat. *)
Definition has_owner (cid : string) (db : ChatDB) : Prop :=
  ∃ uid m, members_of cid db !! uid = Some m ∧ Member_Role m = RoleOwner.

Lemma owners_two (mm : gmap string ChatMember) uid m :
  1 < len (filter (λ m, Member_Role m = RoleOwner) (range_map mm).*2) → mm !! uid = Some m →
  ∃ uid' m', uid' ≠ uid ∧ mm !! uid' = Some m' ∧ Member_Role m' = RoleOwner.
Proof.
  intros Hlen Hu.
  set (ks := filter (λ e, Member_Role e.2 = RoleOwner) (range_map mm)).
  assert (len (filter (λ m, Member_Role m = RoleOwner) (range_map mm).*2) = len ks.*1) as Hl.
  { unfold ks, len. by rewrite filter_fmap, !length_fmap. }
  assert (NoDup ks.*1) as Hnd.
  { apply NoDup_fmap_filter, NoDup_range_keys. }
  rewrite Hl in Hlen. destruct (ks.*1) as [|a [|b rest]] eqn:Eks; [by vm_compute in Hlen..|].
  assert (∀ k, k ∈ a :: b :: rest → ∃ m', mm !! k = Some m' ∧ Member_Role m' = RoleOwner) as Hin.
  { intros k Hk. rewrite <- Eks in Hk. apply list_elem_of_fmap in Hk as ([k' m'] & -> & Hk).
    unfold ks in Hk. apply list_elem_of_filter in Hk as [Hr Hk]. apply elem_of_range_map in Hk. eauto. }
  apply NoDup_cons in Hnd as [Hab _].
  destruct (decide (a = uid)) as [->|Hne].
  - destruct (Hin b) as (m' & Hm' & Hr); [right; left|]. exists b, m'. split_and!; [|done..].
    intros ->. apply Hab. left.
  - destruct (Hin a) as (m' & Hm' & Hr); [left|]. by exists a, m'.
Qed.

Lemma MemberRole_exact t t' cid uid s c :
  coherent s → no_bar cid = true → chats (cdb s) !! cid = Some c →
  ∃ s', MemberRole_ t t' cid uid s =
    (s', Ok (default "" (Member_Role <$> members_of cid (cdb s) !! uid),
             bool_decide (is_Some (members_of cid (cdb s) !! uid)))) ∧
    coherent s' ∧ cdb s' = cdb s.
Proof.
  intros Hco Hbar Hc. pose proof (roleOf_exact t t' cid uid s Hco Hbar) as Hr. rewrite Hc in Hr.
  destruct Hr as (s' & Hr & Hco' & Hd). exists s'. split; [|done]. unfold MemberRole_.
  by rewrite (bind_Ok _ _ _ s' (truth (cdb s) (Chat_Type c) cid uid)).
Qed.

(** The owner check, when roles are exact. *)
Lemma requireOwner_exact t t' cid uid st st' :
  coherent (svc st) → no_bar cid = true → requireRole t t' cid uid RoleOwner st = (st', Ok tt) →
  coherent (svc st') ∧ chat_db st' = chat_db st ∧ is_Some (chats (chat_db st) !! cid) ∧
  ∃ m, members_of cid (chat_db st) !! uid = Some m ∧ Member_Role m = RoleOwner.
Proof.
  intros Hco Hbar Hr. unfold requireRole in Hr. rewrite M_bind_eq, chats_eq in Hr.
  unfold chat_db in *. destruct (chats (cdb (svc st)) !! cid) as [c|] eqn:Hc.
  2:{ pose proof (roleOf_exact t t' cid uid (svc st) Hco Hbar) as Hx. rewrite Hc in Hx.
      unfold MemberRole_ in Hr. rewrite (bind_Err _ _ _ _ _ Hx) in Hr. done. }
  destruct (MemberRole_exact t t' cid uid (svc st) c Hco Hbar Hc) as (s' & Hm & Hco' & Hd).
  rewrite Hm in Hr. cbn [fst snd] in Hr. apply guard_or_Ok in Hr as [Hg ->]. split_and!; [done..|eauto|].
  destruct (members_of cid _ !! uid) as [m|]; [|done]. exists m. split; [done|].
  cbn in Hg. unfold rank in Hg. repeat case_bool_decide; done.
Qed.

(** A role change keeps every other owner, and makes one of the target when it says so. *)
Lemma SetMemberRole_owner cid target r db :
  has_owner cid db →
  r = RoleOwner ∨ (∃ uid' m', uid' ≠ target ∧ members_of cid db !! uid' = Some m' ∧
                      Member_Role m' = RoleOwner) →
  has_owner cid (MemChats.SetMemberRole cid target r db).1.
Proof.
  intros Hown Hor. unfold MemChats.SetMemberRole. rewrite M_bind_eq. cbn [get].
  destruct (members db !! cid) as [mm|] eqn:Em; [|done]. destruct (mm !! target) as [m|] eqn:Et; [|done].
  unfold has_owner, members_of in *. cbn. rewrite lookup_insert_eq. rewrite Em in Hor. cbn in *.
  destruct Hor as [->|(uid' & m' & Hne & Hm' & Hr')].
  - exists target, (set_Role RoleOwner m). by rewrite lookup_insert_eq.
  - exists uid', m'. by rewrite lookup_insert_ne.
Qed.

(** The last owner stays.  While the chat service answers role questions from the
    store's current state, no [SetRole] call, whoever makes it, leaves a chat that had an
    owner without one, and only an owner changes anything. *)
Theorem SetRole_keeps_owner t t' v v' cid actor target r st st' res :
  SetRole t t' v v' cid actor target r st = (st', res) →
  coherent (svc st) → no_bar cid = true → has_owner cid (chat_db st) →
  has_owner cid (chat_db st') ∧
  (chat_db st' ≠ chat_db st →
   ∃ m, members_of cid (chat_db st) !! actor = Some m ∧ Member_Role m = RoleOwner).
Proof.
  intros Hrun Hco Hbar Hown. unfold SetRole in Hrun. rewrite M_bind_eq in Hrun.
  pose proof (requireRole_calm t t' cid actor RoleOwner st) as [Hd0 _].
  destruct (requireRole _ _ _ _ _ st) as [st1 [[]|e]] eqn:Hreq; cbn [fst] in Hd0.
  2:{ injection Hrun as <- _. by rewrite Hd0. }
  destruct (requireOwner_exact _ _ _ _ _ _ Hco Hbar Hreq) as (Hco1 & _ & [c Hc] & Hact).
  split; [|by intros _]. clear Hreq Hact. rewrite <- Hd0 in Hown, Hc. clear Hd0 Hco st. rename st1 into st.
  rewrite M_bind_eq in Hrun. destruct (_ || _); cbn [guard_or mret M_ret fail] in Hrun;
    [|by injection Hrun as <- _].
  rewrite M_bind_eq in Hrun.
  assert (∀ st0, chat_db st0 = chat_db st →
    (r = RoleOwner ∨ ∃ uid' m', uid' ≠ target ∧ members_of cid (chat_db st) !! uid' = Some m' ∧
       Member_Role m' = RoleOwner) →
    has_owner cid (chat_db (chats_ (store (MemChats.SetMemberRole cid target r)) st0).1)) as Hset.
  { intros st0 Hst0 Hor. rewrite chats_eq, store_eq. unfold chat_db in *. cbn. rewrite Hst0.
    by apply SetMemberRole_owner. }
  case_bool_decide as Hro.
  { cbn [mret M_ret] in Hrun. specialize (Hset st eq_refl (or_introl Hro)). by rewrite Hrun in Hset. }
  rewrite M_bind_eq, chats_eq in Hrun.
  destruct (MemberRole_exact v v' cid target (svc st) c Hco1 Hbar Hc) as (s2 & Hm & Hco2 & Hd2).
  rewrite Hm in Hrun. cbn [fst snd] in Hrun. set (st2 := set_svc s2 st) in Hrun.
  assert (chat_db st2 = chat_db st) as Hst2 by done.
  unfold chat_db at 1 in Hown. unfold chat_db in Hset.
  destruct (members_of cid (cdb (svc st)) !! target) as [m|] eqn:Htm.
  2:{ rewrite (bool_decide_false (is_Some None)) in Hrun by (by intros [? ?]).
      injection Hrun as <- _. by rewrite Hst2. }
  rewrite (bool_decide_true (is_Some (Some m))) in Hrun by eauto. cbn [fmap option_fmap option_map default from_option id] in Hrun.
  rewrite (bind_Ok _ _ _ st2 tt) in Hrun by done. destruct (bool_decide_reflect (Member_Role m = RoleOwner)) as [Hmo|Hmo].
  - rewrite M_bind_eq, chats_eq in Hrun. unfold CountMembersWithRole in Hrun. rewrite store_eq in Hrun.
    cbn [fst snd MemChats.CountMembersWithRole gets svc st2 set_svc] in Hrun. rewrite Hd2 in Hrun.
    destruct (Z.leb_spec (len (filter (λ m, Member_Role m = RoleOwner)
      (range_map (members_of cid (cdb (svc st)))).*2)) 1) as [|Hlt];
      cbn [negb guard_or fail mret M_ret] in Hrun.
    + injection Hrun as <- _. exact Hown.
    + destruct (owners_two _ target m Hlt Htm) as (uid' & m' & Hne & Hm' & Hr').
      match type of Hrun with _ ?st0 = _ => specialize (Hset st0) end. rewrite Hrun in Hset.
      apply Hset; [done|]. right. by exists uid', m'.
  - cbn [mret M_ret] in Hrun. specialize (Hset st2 Hd2). rewrite Hrun in Hset. apply Hset.
    right. destruct Hown as (uid' & m' & Hm' & Hr'). exists uid', m'. split; [|done]. congruence.
Qed.
(** *** Role changes past the cache *)

Lemma MemberRole_cached t t' cid uid s e :
  cache s !! cid = Some e → at_check t < expires e → large e = false →
  MemberRole_ t t' cid uid s =
  (s, Ok (default "" (roles e !! uid), bool_decide (is_Some (roles e !! uid)))).
Proof.
  intros He Ht Hl. unfold MemberRole_, roleOf, authView. rewrite M_bind_eq, M_bind_eq.
  rewrite (bind_Ok _ _ _ s s) by done. rewrite He, (proj2 (Z.ltb_lt _ _) Ht).
  cbn [mret M_ret]. by rewrite Hl.
Qed.

(** A role change does not reach the authorization cache.  For as long as a cached view
    of the chat lives, [SetRole] obeys the roles it recorded: a user it lists as owner may
    demote a user it does not list as owner, whatever roles the store holds by then, so
    the guard for the last owner is not consulted. *)
Theorem stale_role_obeyed t t' v v' cid actor target r r0 st e m :
  cache (svc st) !! cid = Some e → at_check t < expires e → at_check v < expires e →
  large e = false → roles e !! actor = Some RoleOwner → roles e !! target = Some r0 →
  r0 ≠ RoleOwner → r = RoleMember ∨ r = RoleAdmin →
  members_of cid (chat_db st) !! target = Some m →
  ∃ st', SetRole t t' v v' cid actor target r st = (st', Ok tt) ∧
    members_of cid (chat_db st') = <[target := set_Role r m]> (members_of cid (chat_db st)) ∧
    cache (svc st') = cache (svc st).
Proof.
  intros He Ht Hv Hl Ha Hr0 Hne Hr Hm. unfold SetRole, requireRole.
  rewrite M_bind_eq, M_bind_eq, chats_eq, (MemberRole_cached _ _ _ _ _ e), Ha by done.
  assert (set_svc (svc st) st = st) as Hst by by destruct st.
  cbn [fst snd default from_option id]. rewrite Hst, bool_decide_true by eauto. cbn [andb].
  rewrite Z.ltb_irrefl. cbn [negb guard_or mret M_ret]. rewrite M_bind_eq.
  replace (bool_decide (r = RoleMember) || bool_decide (r = RoleAdmin) || bool_decide (r = RoleOwner))
    with true by (by destruct Hr as [-> | ->]).
  cbn [guard_or mret M_ret]. rewrite (bool_decide_false (r = RoleOwner)) by (by destruct Hr as [-> | ->]).
  rewrite M_bind_eq, M_bind_eq, chats_eq, (MemberRole_cached _ _ _ _ _ e), Hr0 by done.
  cbn [fst snd default from_option id]. rewrite Hst, (bool_decide_true (is_Some _)) by eauto.
  rewrite (bind_Ok _ _ _ st tt) by done. rewrite (bool_decide_false (r0 = RoleOwner)) by done.
  cbn [mret M_ret]. rewrite chats_eq, store_eq. unfold chat_db, members_of in *.
  unfold MemChats.SetMemberRole. rewrite M_bind_eq. cbn [get].
  destruct (members (cdb (svc st)) !! cid) as [mm|] eqn:Emm; [|done]. cbn in Hm. rewrite Hm.
  eexists. split; [done|]. cbn. by rewrite lookup_insert_eq.
Qed.

(** *** Handles *)

Definition valid_handle (h : string) : Prop := h = "" ∨ usernameRe (sbytes h) = true.
(** Handles are valid and, up to case, distinct. *)
Record handles_ok (cs : gmap string Chat) : Prop := {
  ho_valid id c : cs !! id = Some c → Chat_ID c = id ∧ valid_handle (Chat_Username c);
  ho_distinct i j c d : cs !! i = Some c → cs !! j = Some d → Chat_Username c ≠ "" →
    EqualFold (sbytes (Chat_Username c)) (sbytes (Chat_Username d)) = true → i = j;
}.

Lemma handle_ascii b : usernameRe b = true → ascii_only b = true.
Proof.
  unfold usernameRe, ascii_only. destruct b as [|c tl]; [done|]. intros Hb.
  apply andb_prop in Hb as [[[Hc Htl]%andb_prop _]%andb_prop _]. apply forallb_forall.
  assert (∀ x, letter x = true ∨ handle_tail x = true → (Zbyte x <? 128) = true) as Hx.
  { intros x Hx. apply Z.ltb_lt. unfold handle_tail, letter in Hx.
    destruct Hx as [Hx|Hx]; repeat (apply orb_prop in Hx as [Hx|Hx]); bool_to_prop; lia. }
  intros x [<-|Hin]; apply Hx; [by left|]. right. by apply (proj1 (forallb_forall _ _) Htl).
Qed.

Lemma EqualFold_ascii a b :
  ascii_only a = true → ascii_only b = true →
  EqualFold a b = true ↔ lower_byte <$> a = lower_byte <$> b.
Proof. intros Ha Hb. unfold EqualFold. rewrite Ha, Hb. apply bool_decide_eq_true. Qed.

(** What a claimed handle is checked against. *)
Lemma no_conflict cid h cs id c :
  existsb (λ e : string * Chat, negb (bool_decide (e.1 = cid)) &&
     EqualFold (sbytes (Chat_Username e.2)) (sbytes h)) (range_map cs) = false →
  cs !! id = Some c → id ≠ cid → EqualFold (sbytes (Chat_Username c)) (sbytes h) = false.
Proof.
  intros Hex Hc Hne. apply not_true_is_false. intros Hf. apply not_true_iff_false in Hex. apply Hex.
  apply existsb_exists. exists (id, c). split.
  - by apply list_elem_of_In, elem_of_range_map.
  - cbn. by rewrite bool_decide_false.
Qed.

(** Public handles are unambiguous.  [SetUsername] keeps every handle well formed and,
    up to case, on one chat only; a name taken elsewhere is [ErrTaken] and changes
    nothing. *)
Theorem SetUsername_handles t t' cid actor h st st' r :
  SetUsername t t' cid actor h st = (st', r) → handles_ok (chats (chat_db st)) →
  handles_ok (chats (chat_db st')) ∧
  (r = Ok tt → Chat_Username <$> chats (chat_db st') !! cid = Some h) ∧
  (r ≠ Ok tt → chat_db st' = chat_db st) ∧
  (∀ id c, id ≠ cid → chats (chat_db st) !! id = Some c → h ≠ "" →
     EqualFold (sbytes (Chat_Username c)) (sbytes h) = true → r ≠ Ok tt).
Proof.
  intros Hrun Hok. unfold SetUsername in Hrun. rewrite M_bind_eq in Hrun.
  pose proof (requireRole_calm t t' cid actor RoleOwner st) as [Hd _].
  destruct (requireRole _ _ _ _ _ st) as [st1 [[]|e]]; cbn [fst] in Hd.
  2:{ injection Hrun as <- <-. rewrite Hd. done. }
  rewrite <- Hd in *. clear Hd st. rename st1 into st. rewrite M_bind_eq in Hrun.
  destruct (_ || _) eqn:Hval; cbn [guard_or mret M_ret fail] in Hrun; [|injection Hrun as <- <-; done].
  rewrite M_bind_eq in Hrun. unfold attempt, SetChatUsername in Hrun.
  rewrite (bind_Ok _ _ _ st st) in Hrun by done.
  destruct (chats (chat_db st) !! cid) as [c|] eqn:Hc; [|injection Hrun as <- <-; done].
  destruct (negb _ && existsb _ _) eqn:Hex; [injection Hrun as <- <-; done|].
  rewrite chats_eq, store_eq in Hrun. cbn in Hrun. injection Hrun as <- <-. unfold chat_db in *. cbn.
  rewrite lookup_insert_eq. apply orb_prop in Hval. rewrite bool_decide_eq_true in Hval.
  assert (h ≠ "" → ∀ id d, id ≠ cid → chats (cdb (svc st)) !! id = Some d →
    EqualFold (sbytes (Chat_Username d)) (sbytes h) = false) as Hfree.
  { intros Hne id d Hid Hdd. rewrite bool_decide_false in Hex by done. cbn [negb andb] in Hex.
    by eapply no_conflict. }
  split_and!; [|done|done|].
  - split.
    + intros id d [[<- <-]|[_ Hdd]]%lookup_insert_Some; [|by apply Hok].
      split; [by apply (ho_valid _ Hok cid c)|]. cbn. by destruct Hval; [left|right].
    + intros i j d d' [[<- <-]|[Hi Hdd]]%lookup_insert_Some [[<- <-]|[Hj Hdd']]%lookup_insert_Some;
        cbn [Chat_Username set_Username];
        intros Hne Hf; [done| | |by eapply (ho_distinct _ Hok)].
      * exfalso. destruct Hval as [->|Hre]; [done|].
        destruct (ho_valid _ Hok j d' Hdd') as [_ [Hemp|Hre']].
        { rewrite Hemp, EqualFold_ascii in Hf by (done || by apply handle_ascii).
          destruct (sbytes h); [done|]. by cbn in Hf. }
        specialize (Hfree Hne j d' (not_eq_sym Hj) Hdd').
        rewrite EqualFold_ascii in Hf by (by apply handle_ascii).
        apply not_true_iff_false in Hfree. apply Hfree.
        by rewrite EqualFold_ascii by (by apply handle_ascii).
      * exfalso. destruct (decide (h = "")) as [->|Hh].
        { destruct (ho_valid _ Hok i d Hdd) as [_ [?|Hre']]; [done|].
          rewrite EqualFold_ascii in Hf by (done || by apply handle_ascii).
          destruct (sbytes (Chat_Username d)) eqn:E; [done|]. by cbn in Hf. }
        rewrite (Hfree Hh i d) in Hf by done. done.
  - intros id d Hid Hdd Hh Hf. rewrite (Hfree Hh id d Hid Hdd) in Hf. done.
Qed.

(** A handle leads to its chat, in any capitalisation and whatever order the store's map
    is ranged in. *)
Theorem ResolveUsername_finds id c name st :
  handles_ok (chats (chat_db st)) → chats (chat_db st) !! id = Some c → Chat_Username c ≠ "" →
  ascii_only (sbytes name) = true →
  lower_byte <$> sbytes name = lower_byte <$> sbytes (Chat_Username c) →
  ResolveUsername ("@" +:+ name) st = (st, Ok c).
Proof.
  intros Hok Hc Hne Hasc Heq. unfold ResolveUsername.
  replace (bstring (TrimPrefix (byteZ 64) (sbytes ("@" +:+ name)))) with name.
  2:{ symmetry. change (sbytes ("@" +:+ name)) with (byteZ 64 :: sbytes name). cbn [TrimPrefix].
      rewrite bool_decide_true by done. apply bstring_sbytes. }
  unfold GetChatByUsername. rewrite (bind_Ok _ _ _ st st) by done.
  assert (∀ i d, chats (chat_db st) !! i = Some d → Chat_Username d ≠ "" →
    ascii_only (sbytes (Chat_Username d)) = true) as Hda.
  { intros i d Hd Hdn. destruct (ho_valid _ Hok i d Hd) as [_ [?|?]]; [done|]. by apply handle_ascii. }
  destruct (find _ _) as [d|] eqn:Hf.
  - apply find_some in Hf as [Hin Hm]. apply list_elem_of_In, list_elem_of_fmap in Hin as ([i d'] & -> & Hin).
    apply elem_of_range_map in Hin. cbn [snd] in *. bool_to_prop.
    assert (id = i) as <-; [|by rewrite Hc in Hin; injection Hin as <-].
    apply (ho_distinct _ Hok id i c d'); [done..|].
    rewrite EqualFold_ascii by eauto. rewrite <- Heq.
    match goal with Hm : EqualFold _ (sbytes name) = true |- _ => apply EqualFold_ascii in Hm; [|by eauto..] end.
    done.
  - assert (In c (range_map (chats (chat_db st))).*2) as Hin.
    { apply list_elem_of_In, list_elem_of_fmap. exists (id, c). by rewrite elem_of_range_map. }
    apply (find_none _ _ Hf) in Hin. rewrite bool_decide_false in Hin by done.
    cbn [negb andb] in Hin. apply not_true_iff_false in Hin. exfalso. apply Hin.
    by apply EqualFold_ascii; eauto.
Qed.
End theorems.

(** ** Witnesses *)

Section witnesses.
#[local] Existing Instance canonical_order.
#[local] Existing Instance ascii_tables.

(** A group of two with a link for one use. *)
Definition w_group : InviteState :=
  mkState (CreateGroup "u1" "team" ChatGroup ["u2"] "c1" 0 (ChatService.New 0 MemChats.New)).1 ∅.
Definition w_link : InviteLink := mkInvite "k" "c1" "u1" 5 0 1 0 false.
Definition w_linked : InviteState := set_invites {["k" := w_link]} w_group.
Definition w_used : InviteState := (Join (w_ticks 1) (w_ticks 1) "k" "u3" 7 w_linked).1.

Lemma w_group_coherent : coherent (svc w_group).
Proof. apply reachable_coherent, r_group; [apply r_new | done | done | by repeat constructor]. Qed.

Lemma link_capped_witness :
  headcount "c1" w_linked = 2 ∧
  headcount "c1" (join_all "k" [mkJoin (w_ticks 1) (w_ticks 1) "u3" 7; mkJoin (w_ticks 2) (w_ticks 2) "u4" 8]
    w_linked) ≤ 3.
Proof.
  split; [by vm_compute|].
  exact (link_capped "k" [mkJoin (w_ticks 1) (w_ticks 1) "u3" 7; mkJoin (w_ticks 2) (w_ticks 2) "u4" 8]
    w_linked w_link eq_refl ltac:(cbn; lia) ltac:(cbn; lia)).
Defined.

Definition w_spent : InviteState := set_invites {["k" := set_Uses 1 w_link]} w_group.
Lemma dead_link_refused_witness :
  ∃ st', Join (w_ticks 1) (w_ticks 1) "k" "u4" 9 w_spent = (st', Err invite_ErrInvalidLink).
Proof.
  destruct (proj1 (dead_link_refused (w_ticks 1) (w_ticks 1) "k" "u4" 9 w_spent (set_Uses 1 w_link)
    (mkChat "c1" ChatGroup "team" "u1" 0 0 "") w_group_coherent eq_refl eq_refl eq_refl))
    as (st' & HJ & _); [right; right; cbn; lia | by vm_compute |].
  exists st'. exact HJ.
Defined.

Lemma SetRole_keeps_owner_witness :
  (SetRole (w_ticks 1) (w_ticks 1) (w_ticks 1) (w_ticks 1) "c1" "u1" "u1" RoleMember w_group).2
    = Err invite_ErrLastOwner ∧
  has_owner "c1" (chat_db (SetRole (w_ticks 1) (w_ticks 1) (w_ticks 1) (w_ticks 1)
    "c1" "u1" "u1" RoleMember w_group).1).
Proof.
  split; [by vm_compute|].
  refine (proj1 (SetRole_keeps_owner (w_ticks 1) (w_ticks 1) (w_ticks 1) (w_ticks 1) "c1" "u1" "u1" RoleMember
    w_group _ _ (surjective_pairing _) w_group_coherent eq_refl _)).
  exists "u1", (mkMember "c1" "u1" RoleOwner 0 false no_flags). by vm_compute.
Defined.

(** Within one cache lifetime the owner promotes [u2], steps down, and, still an owner to
    the cache, demotes [u2], who is by now the last owner. *)
Definition w_promoted : InviteState :=
  (SetRole (w_ticks 1) (w_ticks 1) (w_ticks 1) (w_ticks 1) "c1" "u1" "u2" RoleOwner w_group).1.
Definition w_stepped_down : InviteState :=
  (SetRole (w_ticks 2) (w_ticks 2) (w_ticks 2) (w_ticks 2) "c1" "u1" "u1" RoleMember w_promoted).1.
Definition w_view : authEntry :=
  mkEntry ChatGroup {["u1" := RoleOwner; "u2" := RoleMember]} false (1 + authCacheTTL).
Definition w_last_owner : ChatMember := mkMember "c1" "u2" RoleOwner 0 false no_flags.

Lemma stale_role_obeyed_witness :
  has_owner "c1" (chat_db w_stepped_down) ∧
  ∃ st', SetRole (w_ticks 3) (w_ticks 3) (w_ticks 3) (w_ticks 3) "c1" "u1" "u2" RoleMember w_stepped_down
      = (st', Ok tt) ∧ ¬ has_owner "c1" (chat_db st').
Proof.
  split; [exists "u2", w_last_owner; by vm_compute|].
  destruct (stale_role_obeyed (w_ticks 3) (w_ticks 3) (w_ticks 3) (w_ticks 3) "c1" "u1" "u2" RoleMember
    RoleMember w_stepped_down w_view w_last_owner) as (st' & Hrun & Hm & _);
    [by vm_compute | by vm_compute | by vm_compute | done | by vm_compute | by vm_compute | done
    | by left | by vm_compute |].
  exists st'. split; [exact Hrun|]. clear Hrun. intros (uid & m & Hu & Hr). rewrite Hm in Hu. clear Hm.
  apply lookup_insert_Some in Hu as [[_ <-]|[Hne Hu]]; [discriminate|].
  assert (members_of "c1" (chat_db w_stepped_down) =
    {["u1" := mkMember "c1" "u1" RoleMember 0 false no_flags; "u2" := w_last_owner]}) as E by by vm_compute.
  rewrite E in Hu. clear E. apply lookup_insert_Some in Hu as [[_ <-]|[_ Hu]]; [discriminate|].
  apply lookup_singleton_Some in Hu as [Hu _]. exact (Hne Hu).
Defined.

Lemma SetUsername_handles_witness :
  handles_ok (chats (chat_db (SetUsername (w_ticks 1) (w_ticks 1) "c1" "u1" "Team_1" w_group).1)).
Proof.
  refine (proj1 (SetUsername_handles (w_ticks 1) (w_ticks 1) "c1" "u1" "Team_1" w_group _ _
    (surjective_pairing _) _)).
  assert (chats (chat_db w_group) = {["c1" := mkChat "c1" ChatGroup "team" "u1" 0 0 ""]}) as E by by vm_compute.
  rewrite E. split.
  - intros id c [<- <-]%lookup_singleton_Some. split; [done | by left].
  - intros i j c d [<- <-]%lookup_singleton_Some [<- <-]%lookup_singleton_Some. done.
Defined.

Definition w_named : InviteState :=
  (SetUsername (w_ticks 1) (w_ticks 1) "c1" "u1" "Team_1" w_group).1.
Lemma ResolveUsername_finds_witness :
  ResolveUsername "@tEAM_1" w_named = (w_named, Ok (mkChat "c1" ChatGroup "team" "u1" 0 0 "Team_1")).
Proof.
  refine (ResolveUsername_finds "c1" (mkChat "c1" ChatGroup "team" "u1" 0 0 "Team_1") "tEAM_1" w_named
    _ _ _ _ _); [|by vm_compute | done | by vm_compute | by vm_compute].
  assert (chats (chat_db w_named) = {["c1" := mkChat "c1" ChatGroup "team" "u1" 0 0 "Team_1"]}) as E
    by by vm_compute.
  rewrite E. split.
  - intros id c [<- <-]%lookup_singleton_Some. split; [done | by right; vm_compute].
  - intros i j c d [<- <-]%lookup_singleton_Some [<- <-]%lookup_singleton_Some. done.
Defined.

(** A secret chat of [u1] and [u2]. *)
Definition w_secret : InviteState := mkState (EnsureSecret "u1" "u2" "c9" 0 (ChatService.New 0 MemChats.New)).1 ∅.
(** A secret chat can be joined by link.  The one who opened it is its owner, links are made
    for chats of any kind, and whoever has the link becomes its third member. *)
Theorem secret_chat_joined :
  let r := CreateLink (w_ticks 1) (w_ticks 1) (Some (repeat x00 16)) "c9" "u1" 0 0 5 w_secret in
  let r' := Join (w_ticks 2) (w_ticks 2) "AAAAAAAAAAAAAAAAAAAAAA" "u3" 6 r.1 in
  r.2 = Ok (mkInvite "AAAAAAAAAAAAAAAAAAAAAA" "c9" "u1" 5 0 0 0 false) ∧
  r'.2 = Ok (mkChat "c9" ChatSecret "" "u1" 0 0 "") ∧ headcount "c9" w_secret = 2 ∧ headcount "c9" r'.1 = 3.
Proof. cbv zeta. split_and!; by vm_compute. Qed.
End witnesses.
