(* ===== verification/Utf8.v ===== *)
(** * Go's [unicode/utf8]

    [RuneCountInString] and [ValidString] on byte strings: a well-formed sequence of one to
    four bytes is a rune, and every byte that starts none counts as one. *)

From Stdlib Require Import Strings.Byte.
From S2P Require Import Prelude Bytes.

Definition in_range (lo hi : Z) (c : byte) : bool := (lo <=? Zbyte c) && (Zbyte c <=? hi).
Definition continuation (c : byte) : bool := in_range 128 191 c.

Definition RuneStart (c : byte) : bool := negb (Z.land (Zbyte c) 0xC0 =? 0x80).

(** The size of the well-formed sequence at the front, if there is one. *)
Definition rune_size (b : bytes) : option nat :=
  match b with
  | [] => None
  | c0 :: b1 =>
      if Zbyte c0 <? 128 then Some 1%nat
      else
        match b1 with
        | [] => None
        | c1 :: b2 =>
            if in_range 194 223 c0 && continuation c1 then Some 2%nat
            else
              match b2 with
              | [] => None
              | c2 :: b3 =>
                  let lead3 :=
                    (in_range 224 224 c0 && in_range 160 191 c1)
                    || ((in_range 225 236 c0 || in_range 238 239 c0) && continuation c1)
                    || (in_range 237 237 c0 && in_range 128 159 c1) in
                  if lead3 && continuation c2 then Some 3%nat
                  else
                    match b3 with
                    | [] => None
                    | c3 :: _ =>
                        let lead4 :=
                          (in_range 240 240 c0 && in_range 144 191 c1)
                          || (in_range 241 243 c0 && continuation c1)
                          || (in_range 244 244 c0 && in_range 128 143 c1) in
                        if lead4 && continuation c2 && continuation c3 then Some 4%nat else None
                    end
              end
        end
  end.

(** The runes of a string: their number, and whether all are well formed.  Every round
    takes at least one byte, so as many rounds as bytes are enough. *)
Fixpoint runes (fuel : nat) (b : bytes) : Z * bool :=
  match fuel, b with
  | _, [] => (0, true)
  | O, _ => (0, false)
  | S fuel, _ =>
      let '(n, ok) := runes fuel (drop (default 1%nat (rune_size b)) b) in
      (n + 1, ok && bool_decide (is_Some (rune_size b)))
  end.

Definition RuneCount (b : bytes) : Z := (runes (length b) b).1.
Definition ValidString (b : bytes) : bool := (runes (length b) b).2.

(** ** Lemmas *)

Lemma runes_count fuel b :
  (length b ≤ fuel)%nat → 0 ≤ (runes fuel b).1 ≤ len b ∧ (b ≠ [] → 0 < (runes fuel b).1).
Proof.
  revert b. induction fuel as [|fuel IH]; intros [|c b] Hf; try (simpl; split; [unfold len; simpl; lia | done]).
  { simpl in Hf. lia. }
  set (k := default 1%nat (rune_size (c :: b))).
  assert (1 ≤ k)%nat as Hk.
  { unfold k, rune_size. repeat case_match; simplify_eq; simpl; lia. }
  assert (length (drop k (c :: b)) ≤ fuel)%nat as Hl by (rewrite length_drop; simpl in *; lia).
  destruct (IH _ Hl) as [[Hlo Hhi] _]. cbn [runes]. fold k.
  destruct (runes fuel (drop k (c :: b))) as [n ok]. cbn [fst] in *.
  unfold len in *. rewrite length_drop in Hhi. simpl length in *. split; [lia|]. intros _. lia.
Qed.

Lemma RuneCount_bounds b : 0 ≤ RuneCount b ≤ len b ∧ (b ≠ [] → 0 < RuneCount b).
Proof. by apply runes_count. Qed.

(** Plain ASCII: a rune per byte. *)
Lemma runes_ascii b : forallb (λ c, Zbyte c <? 128) b = true → runes (length b) b = (len b, true).
Proof.
  induction b as [|c b IH]; [done|]. cbn [forallb]. intros [Hc Hb]%andb_prop.
  assert (rune_size (c :: b) = Some 1%nat) as Hr by (unfold rune_size; by rewrite Hc).
  change (runes (length (c :: b)) (c :: b)) with
    (let '(n, ok) := runes (length b) (drop (default 1%nat (rune_size (c :: b))) (c :: b)) in
     (n + 1, ok && bool_decide (is_Some (rune_size (c :: b))))).
  rewrite Hr. change (drop (default 1%nat (Some 1%nat)) (c :: b)) with (drop 0 b). rewrite drop_0.
  rewrite IH, bool_decide_true, len_cons by eauto. f_equal. lia.
Qed.

Lemma range_continues lo hi c : 128 ≤ lo → hi ≤ 191 → in_range lo hi c = true → continuation c = true.
Proof.
  unfold continuation, in_range. intros Hlo Hhi [Ha Hb]%andb_prop. apply Z.leb_le in Ha, Hb. apply andb_true_iff.
  split; apply Z.leb_le; lia.
Qed.
Lemma range_starts lo hi c : 192 ≤ lo → in_range lo hi c = true → continuation c = false.
Proof.
  unfold continuation, in_range. intros Hlo [H1 _]%andb_prop. apply Z.leb_le in H1. apply andb_false_iff. right. apply Z.leb_gt. lia.
Qed.
Lemma RuneStart_continuation c : RuneStart c = negb (continuation c).
Proof. by destruct c. Qed.

(** A rune: its first byte starts it, the others continue it, and nothing after them matters. *)
Lemma rune_size_spec b n :
  rune_size b = Some n →
  (1 ≤ n ≤ 4)%nat ∧ (n ≤ length b)%nat ∧
  (∃ c, b !! 0%nat = Some c ∧ continuation c = false) ∧
  (∀ i c, (0 < i < n)%nat → b !! i = Some c → continuation c = true) ∧
  ∀ k, (n ≤ k)%nat → rune_size (take k b) = Some n.
Proof.
  unfold rune_size at 1. destruct b as [|c0 b1]; [done|].
  destruct (Zbyte c0 <? 128) eqn:E0.
  { intros [= <-]. split_and!; [lia | lia | cbn; lia | | intros; lia |].
    - exists c0. split; [done|]. apply Z.ltb_lt in E0. unfold continuation, in_range. apply andb_false_iff. left. apply Z.leb_gt. lia.
    - intros [|k] Hk; [lia|]. cbn. by rewrite E0. }
  destruct b1 as [|c1 b2]; [done|]. destruct (in_range 194 223 c0 && continuation c1) eqn:E2.
  { intros [= <-]. apply andb_prop in E2 as E2'. destruct E2' as [H0 H1]. split_and!; [lia | lia | cbn; lia | | |].
    - exists c0. split; [done|]. by apply (range_starts 194 223).
    - intros [|[|i]] c Hi; [lia | by intros [= <-] | lia].
    - intros [|[|k]] Hk; [lia | lia |]. cbn. by rewrite E0, E2. }
  destruct b2 as [|c2 b3]; [done|]. cbv zeta. destruct (_ && continuation c2) eqn:E3.
  { intros [= <-]. apply andb_prop in E3 as E3'. destruct E3' as [H0 H2].
    assert (continuation c1 = true ∧ continuation c0 = false) as [H1 Hc0].
    { rewrite !orb_true_iff, !andb_true_iff, orb_true_iff in H0.
      destruct H0 as [[[H0 H1]|[[H0|H0] H1]]|[H0 H1]];
        (split; [first [exact H1 | eapply range_continues; [| |exact H1]; lia] | eapply range_starts; [|exact H0]; lia]). }
    split_and!; [lia | lia | cbn; lia | by exists c0 | |].
    - intros [|[|[|i]]] c Hi; [lia | by intros [= <-] | by intros [= <-] | lia].
    - intros [|[|[|k]]] Hk; [lia.. |]. cbn [take rune_size]. rewrite E0, E2. cbv zeta. by rewrite E3. }
  destruct b3 as [|c3 b4]; [done|]. destruct (_ && continuation c2 && continuation c3) eqn:E4; [|done].
  intros [= <-]. apply andb_prop in E4 as E4'. destruct E4' as [H0 H3]. apply andb_prop in H0 as [H0 H2].
  assert (continuation c1 = true ∧ continuation c0 = false) as [H1 Hc0].
  { rewrite !orb_true_iff, !andb_true_iff in H0.
    destruct H0 as [[[H0 H1]|[H0 H1]]|[H0 H1]];
      (split; [first [exact H1 | eapply range_continues; [| |exact H1]; lia] | eapply range_starts; [|exact H0]; lia]). }
  split_and!; [lia | lia | cbn; lia | by exists c0 | |].
  - intros [|[|[|[|i]]]] c Hi; [lia | by intros [= <-] | by intros [= <-] | by intros [= <-] | lia].
  - intros [|[|[|[|k]]]] Hk; [lia.. |]. cbn [take rune_size]. rewrite E0, E2. cbv zeta. by rewrite E3, E4.
Qed.

Lemma runes_fuel fuel fuel' b : (length b ≤ fuel)%nat → (length b ≤ fuel')%nat → runes fuel b = runes fuel' b.
Proof.
  revert fuel' b. induction fuel as [|fuel IH]; intros [|fuel'] [|c b] Hf Hf'; try done; try (cbn in *; lia).
  cbn [runes]. assert (1 ≤ default 1 (rune_size (c :: b)))%nat as Hn.
  { destruct (rune_size (c :: b)) as [n|] eqn:E; [|done]. cbn. by apply rune_size_spec in E as [[? _] _]. }
  rewrite (IH fuel'); [done| |]; rewrite length_drop; cbn [length] in *; lia.
Qed.

Lemma ValidString_cons b n :
  rune_size b = Some n → ValidString b = ValidString (drop n b).
Proof.
  intros Hn. destruct (rune_size_spec b n Hn) as (Hn1 & Hle & _). unfold ValidString. destruct b as [|c b]; [done|].
  assert (length (drop n (c :: b)) ≤ length b)%nat as Hl by (rewrite length_drop; cbn [length] in *; lia).
  cbn [length runes]. rewrite Hn. change (default 1%nat (Some n)) with n. rewrite (runes_fuel (length b) (length (drop n (c :: b)))) by done.
  destruct (runes _ _) as [k ok]. cbn [snd]. by rewrite bool_decide_true, andb_true_r by eauto.
Qed.
Lemma ValidString_rune c b : ValidString (c :: b) = true → ∃ n, rune_size (c :: b) = Some n.
Proof.
  unfold ValidString. cbn [length runes]. destruct (runes _ _) as [k ok]. cbn [snd].
  intros [_ Hr]%andb_prop. by apply bool_decide_eq_true in Hr.
Qed.

(** Cut where a rune starts, a valid string is valid; and a start is never far. *)
Lemma ValidString_take b k c :
  ValidString b = true → b !! k = Some c → RuneStart c = true → ValidString (take k b) = true.
Proof.
  remember (length b) as m eqn:Hm. revert b k Hm. induction m as [m IH] using lt_wf_ind. intros b k -> Hv Hk Hs.
  destruct k as [|k]; [done|]. destruct b as [|c0 b]; [done|]. destruct (ValidString_rune c0 b Hv) as [n Hn].
  destruct (rune_size_spec _ n Hn) as (Hn1 & Hle & _ & Hcont & Htake). destruct (decide (S k < n)%nat) as [Hlt|Hge].
  { rewrite RuneStart_continuation, (Hcont (S k) c) in Hs by (done || lia). done. }
  rewrite (ValidString_cons _ n) by (apply Htake; lia). rewrite (ValidString_cons _ n Hn) in Hv.
  rewrite skipn_firstn_comm.
  eapply (IH (length (drop n (c0 :: b)))); [rewrite length_drop; cbn [length] in *; lia | done | done | | done].
  rewrite lookup_drop. by replace (n + (S k - n))%nat with (S k) by lia.
Qed.

Lemma RuneStart_near b k :
  ValidString b = true → (k < length b)%nat →
  ∃ j c, (j ≤ k ≤ j + 3)%nat ∧ b !! j = Some c ∧ RuneStart c = true.
Proof.
  remember (length b) as m eqn:Hm. revert b k Hm. induction m as [m IH] using lt_wf_ind. intros b k -> Hv Hk.
  destruct b as [|c0 b]; [cbn in Hk; lia|]. destruct (ValidString_rune c0 b Hv) as [n Hn].
  destruct (rune_size_spec _ n Hn) as (Hn1 & Hle & (c & Hc & Hcs) & _). destruct (decide (k < n)%nat) as [Hlt|Hge].
  { exists 0%nat, c. split; [lia|]. split; [done|]. by rewrite RuneStart_continuation, Hcs. }
  rewrite (ValidString_cons _ n Hn) in Hv.
  destruct (IH (length (drop n (c0 :: b)))) with (b := drop n (c0 :: b)) (k := (k - n)%nat) as (j & c' & Hj & Hjc & Hs); try done;
    [rewrite length_drop; cbn [length] in *; lia..|].
  exists (n + j)%nat, c'. rewrite lookup_drop in Hjc. split; [lia | done].
Qed.

(** The reference points of the encoding: one rune of each length, an overlong form, a
    surrogate, a lone continuation byte. *)
Example utf8_examples :
  runes 10 (byteZ <$> [36; 194; 162; 226; 130; 172; 240; 144; 141; 136]) = (4, true) ∧
  runes 2 (byteZ <$> [192; 128]) = (2, false) ∧ runes 3 (byteZ <$> [237; 160; 128]) = (3, false) ∧
  runes 1 (byteZ <$> [128]) = (1, false).
Proof. by vm_compute. Qed.
