(* ===== verification/Social.v ===== *)
(** * What the services around a chat rely on

    The reaction, poll, pin and call services each own a table and ask the chat service who
    is a member.  Here is the interface they are written against ([ChatAuthority], [Table],
    the bus), what it promises ([SocialLaws]), and the in-process deployment that keeps the
    promises. *)

From S2P Require Import Prelude Model EventBus MemChats ChatService.

(** [IsMember], [CanPin] and [MemberIDs] of the chat service; [T] is what an implementation
    reads of the clock. *)
Class ChatAuthority (T W : Type) := {
  ca_IsMember : T → string → string → M W bool;
  ca_CanPin : T → string → string → M W bool;
  ca_MemberIDs : T → string → M W (list string);
}.

(** The service's own tables within the process state. *)
Class Table (D W : Type) := {
  tbl : W → D;
  set_tbl : D → W → W;
}.

(** A call on the tables. *)
Definition on_tbl {D W A} `{Table D W} (m : M D A) : M W A := λ w,
  let '(d, r) := m (tbl w) in (set_tbl d w, r).

(** What the authority says of a user in a chat. *)
Record Says := mkSays { says_member : result bool; says_pin : result bool }.

Class SocialLaws (T D E W : Type) `{!ChatAuthority T W} `{!Table D W} `{!Bus E W} := {
  sgood : W → Prop;
  says : W → string → string → Says;
  tbl_set d w : tbl (set_tbl d w) = d;
  set_set d d' w : set_tbl d (set_tbl d' w) = set_tbl d w;
  squiet (w w' : W) : Prop := sgood w' ∧ tbl w' = tbl w ∧ ∀ c u, says w' c u = says w c u;
  IsMember_says t c u w :
    sgood w → no_bar c = true →
    ∃ w', ca_IsMember t c u w = (w', says_member (says w c u)) ∧ squiet w w';
  CanPin_says t c u w :
    sgood w → no_bar c = true →
    ∃ w', ca_CanPin t c u w = (w', says_pin (says w c u)) ∧ squiet w w';
  (* every member once, for a chat that exists *)
  MemberIDs_says t c u0 b w :
    sgood w → says_member (says w c u0) = Ok b →
    ∃ w' ids, ca_MemberIDs t c w = (w', Ok ids) ∧ squiet w w' ∧ NoDup ids ∧
      ∀ u, u ∈ ids ↔ says_member (says w c u) = Ok true;
  publish_squiet e w : sgood w → squiet w (Publish e w).1;
  set_tbl_good d w :
    sgood w → sgood (set_tbl d w) ∧ ∀ c u, says (set_tbl d w) c u = says w c u;
}.

Section facts.
Context `{SocialLaws T D E W}.
Implicit Types w : W.

Lemma squiet_refl w : sgood w → squiet w w.
Proof. done. Qed.
Lemma squiet_trans w1 w2 w3 : squiet w1 w2 → squiet w2 w3 → squiet w1 w3.
Proof.
  intros (? & ? & Ha) (? & ? & Ha'). split_and!; [done | congruence | intros; by rewrite Ha'].
Qed.
Lemma on_tbl_eq {A} (m : M D A) w : on_tbl m w = (set_tbl (m (tbl w)).1 w, (m (tbl w)).2).
Proof. unfold on_tbl. by destruct (m (tbl w)). Qed.

(** A state that differs by its tables only, from the service's point of view. *)
Definition tables (d : D) (w w' : W) : Prop :=
  sgood w' ∧ tbl w' = d ∧ ∀ c u, says w' c u = says w c u.

Lemma tables_set d w : sgood w → tables d w (set_tbl d w).
Proof. intros Hw. destruct (set_tbl_good d w Hw) as [Hg Hs]. split_and!; [done | apply tbl_set | done]. Qed.
Lemma tables_quiet w w' : squiet w w' → tables (tbl w) w w'.
Proof. intros (? & ? & ?). by split_and!. Qed.
Lemma tables_trans d d' w1 w2 w3 : tables d w1 w2 → tables d' w2 w3 → tables d' w1 w3.
Proof.
  intros (? & ? & Ha) (? & ? & Ha'). split_and!; [done | congruence | intros; by rewrite Ha'].
Qed.
Lemma tables_then_quiet d w1 w2 w3 : tables d w1 w2 → squiet w2 w3 → tables d w1 w3.
Proof.
  intros (? & ? & Ha) (? & ? & Ha'). split_and!; [done | congruence | intros; by rewrite Ha'].
Qed.
(** A table call, then a publication. *)
Lemma tables_publish e d w : sgood w → tables d w (Publish e (set_tbl d w)).1.
Proof.
  intros Hw. eapply tables_then_quiet; [by apply tables_set|]. apply publish_squiet.
  by apply (tables_set d w Hw).
Qed.
End facts.

(** ** The in-process deployment *)

Record Deployed (D E : Type) := mkDeployed {
  d_svc : Service;
  d_tbl : D;
  (** what has been published *)
  d_bus : list (Event E);
}.
Arguments mkDeployed {D E}.
Arguments d_svc {D E}.
Arguments d_tbl {D E}.
Arguments d_bus {D E}.

Section deployed.
Context {D E : Type} `{RangeOrder}.

Definition on_svc {A} (m : M Service A) : M (Deployed D E) A := λ w,
  let '(s, r) := m (d_svc w) in (mkDeployed s (d_tbl w) (d_bus w), r).

(** [MemberIDs] with as many pages as can be needed. *)
Definition all_members (t : Ticks) (c : string) : M Service (list string) :=
  s ← get;
  r ← MemberIDs (S (size (members_of c (cdb s)))) t c;
  mret (default [] r).

#[global] Instance deployed_chats : ChatAuthority (Ticks * Ticks) (Deployed D E) := {|
  ca_IsMember t c u := on_svc (IsMember t.1 t.2 c u);
  ca_CanPin t c u := on_svc (CanPin t.1 t.2 c u);
  ca_MemberIDs t c := on_svc (all_members t.1 c);
|}.
#[global] Instance deployed_table : Table D (Deployed D E) := {|
  tbl := d_tbl;
  set_tbl d w := mkDeployed (d_svc w) d (d_bus w);
|}.
#[global] Instance deployed_bus : Bus E (Deployed D E) := λ e,
  modify (λ w, mkDeployed (d_svc w) (d_tbl w) (d_bus w ++ [e])).

Definition store_says (db : ChatDB) (c u : string) : Says :=
  match chats db !! c with
  | None => mkSays (Err store_ErrNotFound) (Err store_ErrNotFound)
  | Some ch =>
      let m := members_of c db !! u in
      mkSays (Ok (bool_decide (is_Some m))) (Ok (may_pin (Chat_Type ch) m))
  end.

Lemma ask_roleOf t t' c u s :
  (IsMember t t' c u s).1 = (roleOf t t' c u s).1 ∧ (CanPin t t' c u s).1 = (roleOf t t' c u s).1.
Proof.
  unfold IsMember, CanPin. rewrite !M_bind_eq.
  destruct (roleOf t t' c u s) as [s' [[[ty r] mem]|e]]; [|done].
  by destruct mem, (bool_decide (ty = ChatDirect)).
Qed.

Lemma deployed_ask t t' c u s :
  reachable s → no_bar c = true →
  (IsMember t t' c u s).2 = says_member (store_says (cdb s) c u) ∧
  (CanPin t t' c u s).2 = says_pin (store_says (cdb s) c u) ∧
  reachable (roleOf t t' c u s).1 ∧ cdb (roleOf t t' c u s).1 = cdb s.
Proof.
  intros Hs Hb. pose proof (decisions_exact s t t' c u (reachable_coherent s Hs) Hb) as Hd.
  cbv zeta in Hd. assert (reachable (roleOf t t' c u s).1) by by apply r_role. unfold store_says.
  destruct (chats (cdb s) !! c); destruct Hd as (_ & ? & ? & _ & ?); by split_and!.
Qed.

Lemma all_members_run t c s ch :
  reachable s → chats (cdb s) !! c = Some ch →
  ∃ s' ids, all_members t c s = (s', Ok ids) ∧ reachable s' ∧ cdb s' = cdb s ∧ NoDup ids ∧
    ∀ u, u ∈ ids ↔ is_Some (members_of c (cdb s) !! u).
Proof.
  intros Hs Hc. unfold all_members. rewrite (bind_Ok _ _ _ s s) by done.
  set (fuel := S (size (members_of c (cdb s)))).
  destruct (MemberIDs_complete fuel s t c ch Hs Hc) as (ids & Hids & Hnd & Hin);
    [unfold fuel, maplen; lia|].
  pose proof (authView_exact t c s (reachable_coherent s Hs)) as Hv. rewrite Hc in Hv.
  destruct Hv as (s' & e & Hv & _ & Hd & _).
  assert ((MemberIDs fuel t c s).1 = s') as Hst.
  { unfold MemberIDs. rewrite M_bind_eq, Hv. by destruct (negb (large e)). }
  assert (reachable s') as Hs'.
  { assert (s' = (authView t c s).1) as -> by by rewrite Hv. by apply r_view. }
  rewrite M_bind_eq. destruct (MemberIDs fuel t c s) as [s1 r]. cbn [fst snd] in *. subst. by exists s', ids.
Qed.

#[global] Instance deployed_laws : SocialLaws (Ticks * Ticks) D E (Deployed D E).
Proof.
  refine {| sgood w := reachable (d_svc w); says w := store_says (cdb (d_svc w)) |}; simpl.
  - done.
  - done.
  - intros [t t'] c u w Hw Hb. destruct (deployed_ask t t' c u (d_svc w) Hw Hb) as (Hr & _ & Hg & Hd).
    destruct (ask_roleOf t t' c u (d_svc w)) as (Hst & _). unfold on_svc. simpl.
    destruct (IsMember t t' c u (d_svc w)) as [s' r]. simpl in *. subst. eexists. split; [done|].
    split_and!; [done..|intros; simpl; by rewrite Hd].
  - intros [t t'] c u w Hw Hb. destruct (deployed_ask t t' c u (d_svc w) Hw Hb) as (_ & Hr & Hg & Hd).
    destruct (ask_roleOf t t' c u (d_svc w)) as (_ & Hst). unfold on_svc. simpl.
    destruct (CanPin t t' c u (d_svc w)) as [s' r]. simpl in *. subst. eexists. split; [done|].
    split_and!; [done..|intros; simpl; by rewrite Hd].
  - intros [t t'] c u0 b w Hw Hc. unfold store_says in Hc.
    destruct (chats (cdb (d_svc w)) !! c) as [ch|] eqn:Hch; [|done].
    destruct (all_members_run t c (d_svc w) ch Hw Hch) as (s' & ids & Hm & Hs' & Hd & Hnd & Hin).
    unfold on_svc. simpl. rewrite Hm. eexists _, ids. split; [done|].
    split; [split_and!; [done..|intros; simpl; by rewrite Hd]|]. split; [done|].
    intros u. rewrite Hin. unfold store_says. rewrite Hch. simpl. split.
    + intros Hu. by rewrite bool_decide_true.
    + intros [= Hu]. by apply bool_decide_eq_true in Hu.
  - intros e w Hw. by split_and!.
  - by intros d w Hw.
Defined.
End deployed.
