(* ===== verification/Reaction.v ===== *)
(** * Reactions

    [internal/reaction] reaction.go and [internal/store/memory] reactions.go: one reaction
    per user and message, toggled, with the tally published after every change. *)

From S2P Require Import Prelude Bytes Utf8 Model EventBus ChatService Social.

Record Reaction := mkReaction {
  Reaction_ChatID : string;
  Reaction_MessageID : string;
  Reaction_UserID : string;
  Reaction_Emoji : string;
  Reaction_CreatedAt : Z;
}.

(** message → user → reaction *)
Abbreviation Reactions := (gmap string (gmap string Reaction)).

Record ReactUpdateBody := mkReactUpdate {
  React_ChatID : string;
  React_MessageID : string;
  React_UserID : string;
  React_Emoji : string;
  React_Added : bool;
  React_Counts : gmap string Z;
}.

Definition maxEmojiRunes : Z := 8.

(** ** The store *)

(** [s.reactions[messageID]], a nil map read as empty. *)
Definition reactions_to (messageID : string) (d : Reactions) : gmap string Reaction :=
  default ∅ (d !! messageID).

Definition SetReaction (r : Reaction) : M Reactions bool :=
  d ← get;
  let byUser := reactions_to (Reaction_MessageID r) d in
  let put m : M Reactions unit := modify (λ d, <[Reaction_MessageID r := m]> d) in
  let toggled_off :=
    match byUser !! Reaction_UserID r with
    | Some prev => bool_decide (Reaction_Emoji prev = Reaction_Emoji r)
    | None => false
    end in
  if toggled_off then
    let m := delete (Reaction_UserID r) byUser in
    put m;;
    (if maplen m =? 0 then modify (delete (Reaction_MessageID r)) else mret tt);;
    mret false
  else
    put (<[Reaction_UserID r := r]> byUser);;
    mret true.

Section reaction.
Context `{RangeOrder}.

Definition ListReactions (messageID : string) : M Reactions (list Reaction) :=
  gets (λ d, (range_map (reactions_to messageID d)).*2).

(** [for _, r := range rs { out[r.Emoji]++ }]; no rows gives the nil map. *)
Definition tally_up (rs : list Reaction) : gmap string Z :=
  tally_by Reaction_Emoji rs ∅.

(** ** The service *)

Section service.
Context {T W : Type} `{!ChatAuthority T W} `{!Table Reactions W} `{!Bus ReactUpdateBody W}.
Variable trace : Headers.

Definition counts (messageID : string) : M W (gmap string Z) :=
  rs ← on_tbl (ListReactions messageID);
  mret (tally_up rs).

Definition Toggle (t : T) (chatID messageID userID emoji : string) (now : Z)
    : M W (bool * gmap string Z) :=
  let e := sbytes emoji in
  guard_or (negb (bool_decide (emoji = "") || (maxEmojiRunes <? RuneCount e)
                  || negb (ValidString e))) reaction_ErrBadEmoji;;
  mem ← ca_IsMember t chatID userID;
  guard_or mem reaction_ErrForbidden;;
  added ← on_tbl (SetReaction (mkReaction chatID messageID userID emoji now));
  cs ← counts messageID;
  attempt (Publish (mkEvent SubjReaction chatID
    (mkReactUpdate chatID messageID userID emoji added cs) trace));;
  mret (added, cs).

Definition List_ (messageID : string) : M W (gmap string Z) := counts messageID.
End service.

(** ** Lemmas *)

(** How many users reacted with an emoji. *)
Definition tally (messageID emoji : string) (d : Reactions) : Z :=
  len (filter (λ r, Reaction_Emoji r = emoji) (range_map (reactions_to messageID d)).*2).

Lemma tally_up_lookup rs e :
  tally_up rs !! e =
  let n := len (filter (λ r, Reaction_Emoji r = e) rs) in if n =? 0 then None else Some n.
Proof. apply tally_by_lookup.
Qed.

Lemma SetReaction_run r d :
  let byUser := reactions_to (Reaction_MessageID r) d in
  ∃ d' added, SetReaction r d = (d', Ok added) ∧
    reactions_to (Reaction_MessageID r) d' =
      (if added then <[Reaction_UserID r := r]> byUser else delete (Reaction_UserID r) byUser) ∧
    (∀ m, m ≠ Reaction_MessageID r → d' !! m = d !! m) ∧
    added = negb (bool_decide (Reaction_Emoji <$> byUser !! Reaction_UserID r = Some (Reaction_Emoji r))) ∧
    (added = false → d' !! Reaction_MessageID r ≠ Some ∅).
Proof.
  intros byUser. unfold SetReaction. rewrite (bind_Ok _ _ _ d d) by done. fold byUser.
  set (off := match byUser !! Reaction_UserID r with
              | Some prev => bool_decide (Reaction_Emoji prev = Reaction_Emoji r)
              | None => false end).
  assert (off = bool_decide (Reaction_Emoji <$> byUser !! Reaction_UserID r = Some (Reaction_Emoji r))) as Hoff.
  { unfold off. destruct (byUser !! _); cbn; [|by rewrite bool_decide_false].
    apply bool_decide_ext. split; congruence. }
  rewrite <- Hoff. destruct off; cbv zeta.
  - rewrite (bind_Ok _ _ _ (<[Reaction_MessageID r := delete (Reaction_UserID r) byUser]> d) tt) by done.
    destruct (Z.eqb_spec (maplen (delete (Reaction_UserID r) byUser)) 0) as [Hz|Hz].
    + rewrite (bind_Ok _ _ _ (delete (Reaction_MessageID r)
        (<[Reaction_MessageID r := delete (Reaction_UserID r) byUser]> d)) tt) by done.
      eexists _, false. split; [done|]. unfold maplen in Hz. assert (size (delete (Reaction_UserID r) byUser) = 0%nat) as Hs by lia.
      apply map_size_empty_inv in Hs. unfold reactions_to. rewrite lookup_delete_eq. cbn. split_and!; [done| |done|done].
      intros m Hm. by rewrite lookup_delete_ne, lookup_insert_ne.
    + rewrite (bind_Ok _ _ _ (<[Reaction_MessageID r := delete (Reaction_UserID r) byUser]> d) tt) by done.
      eexists _, false. split; [done|]. unfold reactions_to. rewrite lookup_insert_eq. cbn. split_and!; [done| |done|].
      * intros m Hm. by rewrite lookup_insert_ne.
      * intros _ [= He]. apply Hz. unfold maplen. by rewrite He, map_size_empty.
  - rewrite (bind_Ok _ _ _ (<[Reaction_MessageID r := <[Reaction_UserID r := r]> byUser]> d) tt) by done.
    eexists _, true. split; [done|]. unfold reactions_to. rewrite lookup_insert_eq. cbn. split_and!; [done| |done|done].
    intros m Hm. by rewrite lookup_insert_ne.
Qed.
End reaction.

(** ** Theorems *)

Definition valid_emoji (emoji : string) : bool :=
  negb (bool_decide (emoji = "") || (maxEmojiRunes <? RuneCount (sbytes emoji))
        || negb (ValidString (sbytes emoji))).

Section theorems.
Context `{RangeOrder} `{SocialLaws T Reactions ReactUpdateBody W}.
Variable trace : Headers.

Lemma Toggle_member t c m u emoji now w :
  sgood w → no_bar c = true → valid_emoji emoji = true → says_member (says w c u) = Ok true →
  let r := mkReaction c m u emoji now in
  ∃ w' d' added, SetReaction r (tbl w) = (d', Ok added) ∧
    Toggle trace t c m u emoji now w =
      (w', Ok (added, tally_up (range_map (reactions_to m d')).*2)) ∧ tables d' w w'.
Proof.
  intros Hw Hb Hv Hs r. destruct (SetReaction_run r (tbl w)) as (d' & added & Hset & _).
  unfold Toggle. fold (valid_emoji emoji). rewrite Hv, (bind_Ok _ _ _ w tt) by done.
  destruct (IsMember_says t c u w Hw Hb) as (w1 & Hm & Hq1). rewrite Hs in Hm.
  rewrite (bind_Ok _ _ _ w1 true), (bind_Ok _ _ _ w1 tt) by done.
  destruct Hq1 as (Hg1 & Ht1 & Hs1). rewrite M_bind_eq, on_tbl_eq, Ht1. fold r. rewrite Hset. cbn [fst snd].
  unfold counts. rewrite M_bind_eq, M_bind_eq, on_tbl_eq. cbn [ListReactions gets fst snd].
  rewrite tbl_set, set_set. cbn [mret M_ret]. rewrite M_bind_eq. unfold attempt.
  set (e := mkEvent _ _ _ _). pose proof (tables_publish e d' w1 Hg1) as Hp.
  destruct (Publish e (set_tbl d' w1)) as [w2 res]. exists w2, d', added. split_and!; [done..|].
  destruct Hp as (Hg2 & Ht2 & Hs2). split_and!; [done..|]. intros. by rewrite Hs2, Hs1.
Qed.

(** A toggle is exact.  For a member and a valid emoji the call succeeds; the user then
    has that reaction or, if they already had it, none; nobody else's reaction and no
    other message changes; and the tally returned counts, for every emoji, the users who
    have it.  Anyone else is refused and changes nothing. *)
Theorem Toggle_exact t c m u emoji now w :
  sgood w → no_bar c = true → valid_emoji emoji = true →
  match says_member (says w c u) with
  | Ok true =>
      ∃ w' added cs, Toggle trace t c m u emoji now w = (w', Ok (added, cs)) ∧
        added = negb (bool_decide (Reaction_Emoji <$> reactions_to m (tbl w) !! u = Some emoji)) ∧
        Reaction_Emoji <$> reactions_to m (tbl w') !! u = (if added then Some emoji else None) ∧
        (∀ v, v ≠ u → reactions_to m (tbl w') !! v = reactions_to m (tbl w) !! v) ∧
        (∀ m', m' ≠ m → tbl w' !! m' = tbl w !! m') ∧
        (∀ e, cs !! e = let n := tally m e (tbl w') in if n =? 0 then None else Some n)
  | Ok false => ∃ w', Toggle trace t c m u emoji now w = (w', Err reaction_ErrForbidden) ∧ tbl w' = tbl w
  | Err err => ∃ w', Toggle trace t c m u emoji now w = (w', Err err) ∧ tbl w' = tbl w
  end.
Proof.
  intros Hw Hb Hv. destruct (says_member (says w c u)) as [[]|err] eqn:Hs.
  - destruct (Toggle_member t c m u emoji now w Hw Hb Hv Hs) as (w' & d' & added & Hset & HT & _ & Ht & _).
    destruct (SetReaction_run (mkReaction c m u emoji now) (tbl w)) as (d1 & a1 & Hset' & Hm & Ho & Ha & _).
    rewrite Hset in Hset'. injection Hset' as <- <-. cbn in *.
    exists w', added, (tally_up (range_map (reactions_to m d')).*2). rewrite Ht.
    split_and!; [done|done| | |done|].
    + rewrite Hm. destruct added; [by rewrite lookup_insert_eq | by rewrite lookup_delete_eq].
    + intros v Hne. rewrite Hm. destruct added; [by rewrite lookup_insert_ne | by rewrite lookup_delete_ne].
    + intros e. apply tally_up_lookup.
  - destruct (IsMember_says t c u w Hw Hb) as (w1 & Hm & _ & Ht & _). rewrite Hs in Hm.
    exists w1. split; [|done]. unfold Toggle. fold (valid_emoji emoji).
    by rewrite Hv, (bind_Ok _ _ _ w tt), (bind_Ok _ _ _ w1 false).
  - destruct (IsMember_says t c u w Hw Hb) as (w1 & Hm & _ & Ht & _). rewrite Hs in Hm.
    exists w1. split; [|done]. unfold Toggle. fold (valid_emoji emoji).
    by rewrite Hv, (bind_Ok _ _ _ w tt), (bind_Err _ _ _ w1 err).
Qed.

(** The chat a reaction is checked against need not be the message's.  A user who may
    not see chat [c'] but is a member of some chat [c] can name [c] and a message of [c']:
    their reaction is stored among that message's, and the tally they get back counts the
    reactions of the members of [c']. *)
Theorem reaction_crosses_chats t c c' m u v r emoji now w :
  sgood w → no_bar c = true → valid_emoji emoji = true →
  says_member (says w c u) = Ok true → says_member (says w c' u) = Ok false → u ≠ v →
  reactions_to m (tbl w) !! v = Some r → Reaction_ChatID r = c' → reactions_to m (tbl w) !! u = None →
  ∃ w' cs, Toggle trace t c m u emoji now w = (w', Ok (true, cs)) ∧
    is_Some (reactions_to m (tbl w') !! u) ∧ reactions_to m (tbl w') !! v = Some r ∧
    (∃ n, cs !! Reaction_Emoji r = Some n ∧ 0 < n).
Proof.
  intros Hw Hb Hv Hs _ Hne Hr _ Hu.
  destruct (Toggle_member t c m u emoji now w Hw Hb Hv Hs) as (w' & d' & added & Hset & HT & _ & Ht & _).
  destruct (SetReaction_run (mkReaction c m u emoji now) (tbl w)) as (d1 & a1 & Hset' & Hm & _ & Ha & _).
  rewrite Hset in Hset'. injection Hset' as <- <-. cbn in *. rewrite Hu in Ha. cbn in Ha.
  rewrite bool_decide_false in Ha by done. subst added. cbn in Hm.
  assert (reactions_to m d' !! v = Some r) as Hv' by (rewrite Hm; by rewrite lookup_insert_ne).
  exists w', (tally_up (range_map (reactions_to m d')).*2). rewrite Ht. split_and!; [done| |done|].
  - rewrite Hm, lookup_insert_eq. eauto.
  - rewrite tally_up_lookup. cbv zeta. set (l := filter _ _).
    assert (r ∈ l) as Hin.
    { apply list_elem_of_filter. split; [done|]. apply list_elem_of_fmap. exists (v, r).
      by rewrite elem_of_range_map. }
    assert (0 < len l) as Hl.
    { destruct l; [by apply not_elem_of_nil in Hin | rewrite len_cons; pose proof (len_nonneg l); lia]. }
    rewrite (proj2 (Z.eqb_neq _ _)) by lia. eauto.
Qed.
End theorems.

(** ** Witnesses

    [u1] and [u2] share chat [c1]; message [m9] is in chat [c2] of [u3] and [u4]. *)
Section witnesses.
#[local] Existing Instance canonical_order.
Abbreviation World := (Deployed Reactions ReactUpdateBody).

Definition w_chats : Service :=
  (CreateGroup "u3" "theirs" ChatGroup ["u4"] "c2" 0
    (CreateGroup "u1" "ours" ChatGroup ["u2"] "c1" 0 (New 0 MemChats.New)).1).1.
Lemma w_chats_reachable : reachable w_chats.
Proof.
  apply r_group; [|done|done|by repeat constructor].
  apply r_group; [apply r_new | done | done | by repeat constructor].
Qed.

Definition w_theirs : Reaction := mkReaction "c2" "m9" "u3" "+" 1.
Definition w_world : World := mkDeployed w_chats {["m9" := {["u3" := w_theirs]}]} [].

Lemma Toggle_exact_witness :
  ∃ w' cs, Toggle ∅ (w_ticks 1, w_ticks 1) "c1" "m1" "u1" "+" 5 w_world = (w', Ok (true, cs)) ∧
    cs !! "+" = Some 1.
Proof.
  destruct (Toggle_exact (H0 := deployed_laws) ∅ (w_ticks 1, w_ticks 1) "c1" "m1" "u1" "+" 5 w_world w_chats_reachable
    eq_refl eq_refl) as (w' & added & cs & HT & Ha & Hu & Hv & _ & Hc).
  assert (added = true) as -> by (rewrite Ha; by vm_compute).
  exists w', cs. split; [exact HT|]. rewrite Hc. clear Hc.
  assert (reactions_to "m1" (tbl w') = {["u1" := mkReaction "c1" "m1" "u1" "+" 5]}) as E.
  { replace w' with (Toggle ∅ (w_ticks 1, w_ticks 1) "c1" "m1" "u1" "+" 5 w_world).1 by (by rewrite HT).
    by vm_compute. }
  unfold tally. rewrite E. by vm_compute.
Defined.

Lemma reaction_crosses_chats_witness :
  says_member (says w_world "c2" "u1") = Ok false ∧
  ∃ w' cs, Toggle ∅ (w_ticks 1, w_ticks 1) "c1" "m9" "u1" "+" 5 w_world = (w', Ok (true, cs)) ∧
    ∃ n, cs !! "+" = Some n ∧ 0 < n.
Proof.
  split; [by vm_compute|].
  destruct (reaction_crosses_chats (H0 := deployed_laws) ∅ (w_ticks 1, w_ticks 1) "c1" "c2" "m9" "u1" "u3" w_theirs "+" 5 w_world
    w_chats_reachable eq_refl eq_refl) as (w' & cs & HT & _ & _ & Hn);
    [by vm_compute | by vm_compute | done | by vm_compute | done | by vm_compute |].
  exists w', cs. exact (conj HT Hn).
Defined.
End witnesses.
