(* ===== verification/SyncPage.v ===== *)
(** * Incremental sync pages

    The page cut shared by [contact.Service.Sync] and [pin.Service.SyncDrafts]: rows changed
    after a cursor, oldest change first, cut where the timestamp changes, so that rows with
    one timestamp are never split between two pages. *)

From S2P Require Import Prelude.

(** [truncate] of [internal/store/memory]. *)
Definition truncate {A} (rows : list A) (limit : Z) : list A :=
  if (0 <? limit) && (limit <? len rows) then ztake limit rows else rows.

Fixpoint drop_trailing {A} (p : A → bool) (l : list A) : list A :=
  match l with
  | [] => []
  | x :: l =>
      match drop_trailing p l with
      | [] => if p x then [] else [x]
      | l' => x :: l'
      end
  end.

Section sync.
Context {A : Type} (upd : A → Z).

(** [sort.Slice] by [UpdatedAt]. *)
Definition older (a b : A) : Prop := upd a ≤ upd b.
#[global] Instance older_dec : RelDecision older.
Proof. intros a b. unfold older. apply _. Defined.
Definition sort_upd (l : list A) : list A := merge_sort older l.

(** The store's listing: changed after [since], oldest first, at most [limit]. *)
Definition changed_since (table : list A) (since limit : Z) : list A :=
  truncate (sort_upd (filter (λ x, since < upd x) table)) limit.

(** The body of [Sync] after the listing: the page and the cursor. *)
Definition cut_page (size since : Z) (rows : list A) : list A * Z :=
  if len rows <=? size then (rows, foldl (λ high x, if high <? upd x then upd x else high) since rows)
  else
    match rows !! Z.to_nat size with
    | None => (rows, since)
    | Some x =>
        let boundary := upd x in
        let page := drop_trailing (λ y, upd y =? boundary) (ztake size rows) in
        match last page with
        | None => (ztake size rows, boundary)
        | Some y => (page, upd y)
        end
    end.

(** A client's sync: pages from a cursor until one comes back empty. *)
Fixpoint sync_walk (fuel : nat) (size : Z) (table : list A) (since : Z) (out : list A)
    : option (list A) :=
  match fuel with
  | O => None
  | S fuel =>
      match cut_page size since (changed_since table since (size + 1)) with
      | ([], _) => Some out
      | (page, cursor) => sync_walk fuel size table cursor (out ++ page)
      end
  end.

(** ** Lemmas *)

#[local] Instance older_total : Total older.
Proof. intros a b. unfold older. lia. Qed.
#[local] Instance older_trans : Transitive older.
Proof. intros a b c. unfold older. lia. Qed.

Lemma sort_upd_perm l : sort_upd l ≡ₚ l.
Proof. apply merge_sort_Permutation. Qed.
Lemma sort_upd_sorted l : StronglySorted older (sort_upd l).
Proof. apply (StronglySorted_merge_sort _). Qed.

Lemma drop_trailing_app (p : A → bool) l :
  ∃ tail, l = drop_trailing p l ++ tail ∧ Forall (λ x, p x = true) tail ∧
    (∀ y, last (drop_trailing p l) = Some y → p y = false).
Proof.
  induction l as [|x l (tail & Hl & Ht & Hy)]; [by exists []|]. simpl.
  destruct (drop_trailing p l) as [|z l'] eqn:E.
  - simpl in Hl. subst tail. destruct (p x) eqn:Hp.
    + exists (x :: l). split_and!; [done | by constructor | done].
    + exists l. split_and!; [done..|]. by intros y [= <-].
  - exists tail. rewrite Hl at 1. split_and!; [done..|]. intros y Hy'. apply Hy. by rewrite last_cons_cons in Hy'.
Qed.

Lemma high_water rows since :
  let high := foldl (λ high x, if high <? upd x then upd x else high) since rows in
  since ≤ high ∧ Forall (λ x, upd x ≤ high) rows.
Proof.
  revert since. induction rows as [|x rows IH]; intros since; [cbn; split; [lia|done]|].
  cbn [foldl]. destruct (IH (if since <? upd x then upd x else since)) as [H1 H2]. cbv zeta in *.
  destruct (Z.ltb_spec since (upd x)); (split; [lia|constructor; [lia|done]]).
Qed.

(** The rows of a table up to a cursor, and the ones after it. *)
Lemma split_at_cursor table since c :
  since ≤ c →
  filter (λ x, since < upd x) table ≡ₚ
  filter (λ x, since < upd x ≤ c) table ++ filter (λ x, c < upd x) table.
Proof.
  intros Hc. induction table as [|x table IH]; [done|]. rewrite !filter_cons.
  destruct (decide (since < upd x)), (decide (since < upd x ≤ c)), (decide (c < upd x)); try lia; try done;
    cbn [app]; rewrite IH; [done|]. by rewrite Permutation_middle.
Qed.

Lemma filter_below (l p s : list A) c :
  l ≡ₚ p ++ s → Forall (λ x, upd x ≤ c) p → Forall (λ x, c < upd x) s → filter (λ x, upd x ≤ c) l ≡ₚ p.
Proof.
  intros -> Hp Hs. rewrite filter_app, (filter_Forall _ p), (filter_none _ s), app_nil_r by
    (done || (eapply Forall_impl; [exact Hs|]; intros x Hx; cbn in Hx; lia)). done.
Qed.

(** A row past the end of the page sits at the boundary or after it. *)
Lemma sorted_split l k x :
  StronglySorted older l → l !! k = Some x →
  Forall (λ y, upd y ≤ upd x) (take k l) ∧ Forall (λ y, upd x ≤ upd y) (drop k l).
Proof.
  intros Hs Hx. rewrite <- (take_drop_middle l k x Hx) in Hs.
  assert (Forall (λ y, upd y ≤ upd x) (take k l)) as Hle.
  { apply Forall_forall. intros y Hy. eapply (StronglySorted_app_1_elem_of older); [exact Hs | done | left]. }
  split; [done|]. rewrite (drop_S l x k Hx). apply StronglySorted_app_1_r, StronglySorted_inv in Hs as [_ Hs].
  constructor; [lia|done].
Qed.

Lemma sorted_last l y : StronglySorted older l → last l = Some y → Forall (λ x, upd x ≤ upd y) l.
Proof.
  intros Hs Hl. apply last_Some in Hl as [l' ->]. apply Forall_app. split; [|by constructor].
  apply Forall_forall. intros x Hx. eapply (StronglySorted_app_1_elem_of older); [exact Hs | done | left].
Qed.

(** The cut: a prefix of the sorted rows, up to the cursor. *)
Lemma cut_prefix size since l page cursor :
  0 < size → StronglySorted older l → Forall (λ x, since < upd x) l →
  (∀ ts, len (filter (λ x, upd x = ts) l) ≤ size) →
  cut_page size since (truncate l (size + 1)) = (page, cursor) →
  ∃ rest, l = page ++ rest ∧ since ≤ cursor ∧ Forall (λ x, upd x ≤ cursor) page ∧
    Forall (λ x, cursor < upd x) rest ∧ (page = [] → l = []).
Proof.
  intros Hsize Hsorted Hafter Hts Hcut. unfold cut_page in Hcut.
  destruct (Z.le_gt_cases (len l) size) as [Hle|Hgt].
  { assert (truncate l (size + 1) = l) as Htr.
    { unfold truncate. rewrite (proj2 (Z.ltb_ge (size + 1) (len l))), andb_false_r by lia. done. }
    rewrite Htr, (proj2 (Z.leb_le _ _)) in Hcut by done. injection Hcut as <- <-.
    destruct (high_water l since) as [H1 H2]. exists []. rewrite app_nil_r. by split_and!. }
  assert (truncate l (size + 1) = ztake (size + 1) l) as Htr.
  { unfold truncate. rewrite (proj2 (Z.ltb_lt 0 (size + 1))) by lia. cbn [andb].
    destruct (Z.ltb_spec (size + 1) (len l)); [done|]. unfold ztake. rewrite take_ge; [done|].
    unfold len in *. lia. }
  rewrite Htr, (proj2 (Z.leb_gt _ _)) in Hcut by (rewrite len_ztake; lia).
  set (k := Z.to_nat size) in *. unfold ztake in Hcut. fold k in Hcut.
  replace (Z.to_nat (size + 1)) with (S k) in Hcut by lia.
  destruct (lookup_lt_is_Some_2 l k) as [x Hx]; [unfold len in Hgt; lia|].
  rewrite lookup_take_lt, Hx, take_take in Hcut by lia. replace (k `min` S k)%nat with k in Hcut by lia.
  destruct (sorted_split l k x Hsorted Hx) as [Hlow Hhigh].
  destruct (drop_trailing_app (λ y, upd y =? upd x) (take k l)) as (tail & Htake & Htail & Hlast).
  set (page' := drop_trailing _ _) in *.
  assert (Forall (λ y, upd y = upd x) tail) as Htail'.
  { eapply Forall_impl; [exact Htail|]. intros y Hy. by apply Z.eqb_eq. }
  destruct (last page') as [y|] eqn:Elast.
  - injection Hcut as <- <-. specialize (Hlast y eq_refl). apply Z.eqb_neq in Hlast.
    assert (y ∈ take k l) as Hyin.
    { rewrite Htake. apply elem_of_app. left. apply last_Some in Elast as [p' ->]. apply elem_of_app. right. left. }
    assert (upd y < upd x) as Hyx by (pose proof (proj1 (Forall_forall _ _) Hlow y Hyin); cbv beta in *; lia).
    exists (tail ++ drop k l). rewrite app_assoc, <- Htake, take_drop. split_and!; [done| |..].
    + assert (y ∈ l) as Hyl by (rewrite <- (take_drop k l); apply elem_of_app; by left).
      pose proof (proj1 (Forall_forall _ _) Hafter y Hyl). cbv beta in *. lia.
    + apply sorted_last; [|done]. rewrite <- (take_drop k l), Htake, <- app_assoc in Hsorted.
      by apply StronglySorted_app_1_l in Hsorted.
    + apply Forall_app. split; (eapply Forall_impl; [eassumption|]); intros z Hz; cbv beta in *; lia.
    + intros Hnil. by rewrite Hnil in Elast.
  - exfalso. apply last_None in Elast. rewrite Elast in Htake. cbn in Htake.
    specialize (Hts (upd x)). rewrite <- (take_drop k l), filter_app, len_app in Hts.
    rewrite (filter_Forall _ (take k l)) in Hts by (by rewrite Htake).
    assert (0 < len (filter (λ y, upd y = upd x) (drop k l))) as Hpos.
    { rewrite (drop_S l x k Hx), filter_cons_True by done. rewrite len_cons.
      pose proof (len_nonneg (filter (λ y, upd y = upd x) (drop (S k) l))). lia. }
    unfold len in Hts at 1. rewrite length_take in Hts. unfold len in Hgt. lia.
Qed.

(** One page: the rows after the cursor are those of the page and those after its cursor. *)
Lemma page_spec size table since page cursor :
  0 < size →
  (∀ ts, len (filter (λ x, upd x = ts) table) ≤ size) →
  cut_page size since (changed_since table since (size + 1)) = (page, cursor) →
  since ≤ cursor ∧ page ≡ₚ filter (λ x, since < upd x ≤ cursor) table ∧
  (page = [] → filter (λ x, since < upd x) table = []).
Proof.
  intros Hsize Hts Hcut. set (l := sort_upd (filter (λ x, since < upd x) table)).
  assert (l ≡ₚ filter (λ x, since < upd x) table) as Hperm by apply sort_upd_perm.
  assert (Forall (λ x, since < upd x) l) as Hafter.
  { rewrite Hperm. apply Forall_forall. intros x [? _]%list_elem_of_filter. done. }
  destruct (cut_prefix size since l page cursor) as (rest & Hl & Hc & Hp & Hr & Hnil);
    [done | apply sort_upd_sorted | done | | done |].
  { intros ts. rewrite Hperm, list_filter_filter. etrans; [|apply (Hts ts)]. unfold len.
    rewrite (filter_ext_in _ (λ x, since < upd x ∧ upd x = ts)) by (intros; lia).
    rewrite <- (list_filter_filter (λ x, since < upd x) (λ x, upd x = ts)). apply inj_le, length_filter. }
  split_and!; [done| |].
  - rewrite <- (filter_below l page rest cursor) by (done || by rewrite Hl).
    rewrite Hperm, list_filter_filter.
    rewrite (filter_ext_in _ (λ x, since < upd x ≤ cursor)); [done|]. intros x _. lia.
  - intros Hn. apply Hnil in Hn. rewrite Hn in Hperm. by apply Permutation_nil_l in Hperm.
Qed.

(** A sync that starts at [since] returns every row changed after it, once, and ends. *)
Lemma sync_walk_all size table since fuel out :
  0 < size → (∀ ts, len (filter (λ x, upd x = ts) table) ≤ size) →
  (length (filter (λ x, (since < upd x)%Z) table) < fuel)%nat →
  ∃ rows, sync_walk fuel size table since out = Some (out ++ rows) ∧
    rows ≡ₚ filter (λ x, since < upd x) table.
Proof.
  intros Hsize Hts. revert since out. induction fuel as [|fuel IH]; intros since out Hf; [lia|].
  cbn [sync_walk]. destruct (cut_page _ _ _) as [page cursor] eqn:Hcut.
  destruct (page_spec size table since page cursor Hsize Hts Hcut) as (Hc & Hpage & Hnil).
  destruct page as [|x page].
  - exists []. rewrite app_nil_r, Hnil by done. done.
  - pose proof (split_at_cursor table since cursor Hc) as Hsplit. rewrite <- Hpage in Hsplit.
    destruct (IH cursor (out ++ x :: page)) as (rows & -> & Hrows).
    { rewrite Hsplit in Hf. cbn in Hf. rewrite length_app in Hf. lia. }
    exists ((x :: page) ++ rows). rewrite app_assoc. split; [done|]. by rewrite Hrows, Hsplit.
Qed.


(** Every row of a walk changed after the cursor it started from. *)
Lemma cut_page_sub size since rows x : x ∈ (cut_page size since rows).1 → x ∈ rows.
Proof.
  unfold cut_page. destruct (len rows <=? size); [done|]. destruct (rows !! _) as [y|]; [|done].
  destruct (drop_trailing_app (λ z, upd z =? upd y) (ztake size rows)) as (tail & Ht & _).
  destruct (last _); cbn [fst]; intros Hx; [|by apply elem_of_ztake in Hx].
  apply (elem_of_ztake size). rewrite Ht. apply elem_of_app. by left.
Qed.

Lemma changed_since_after table since limit x : x ∈ changed_since table since limit → since < upd x.
Proof.
  unfold changed_since, truncate. intros Hx.
  assert (x ∈ sort_upd (filter (λ x, since < upd x) table)) as Hin.
  { destruct (_ && _); [by apply elem_of_ztake in Hx | done]. }
  rewrite sort_upd_perm in Hin. by apply list_elem_of_filter in Hin as [? _].
Qed.

Lemma cut_page_cursor size since rows :
  Forall (λ x, since < upd x) rows → since ≤ (cut_page size since rows).2.
Proof.
  intros Hr. unfold cut_page. destruct (len rows <=? size); [apply high_water|].
  destruct (rows !! _) as [y|] eqn:Hy; [|cbn; lia].
  assert (since < upd y) by (eapply (Forall_lookup_1 _ _ _ _ Hr Hy)).
  destruct (last _) as [z|] eqn:Hz; cbn [snd]; [|lia].
  destruct (drop_trailing_app (λ z, upd z =? upd y) (ztake size rows)) as (tail & Ht & _).
  assert (z ∈ rows) as Hin.
  { apply (elem_of_ztake size). rewrite Ht. apply elem_of_app. left.
    apply last_Some in Hz as [l' ->]. apply elem_of_app. right. left. }
  pose proof (proj1 (Forall_forall _ _) Hr z Hin). cbv beta in *. lia.
Qed.

(** A walk shows rows of the table only. *)
Lemma sync_walk_sub fuel size table since out rows x :
  sync_walk fuel size table since out = Some rows → x ∈ rows → x ∈ out ∨ x ∈ table.
Proof.
  revert since out. induction fuel as [|fuel IH]; intros since out Hw Hx; [done|]. cbn in Hw.
  set (l := changed_since table since (size + 1)) in *.
  assert (∀ y, y ∈ (cut_page size since l).1 → y ∈ table) as Hsub.
  { intros y Hy%cut_page_sub. unfold l, changed_since, truncate in Hy.
    assert (y ∈ sort_upd (filter (λ x, since < upd x) table)) as Hin.
    { destruct (_ && _); [by apply elem_of_ztake in Hy | done]. }
    rewrite sort_upd_perm in Hin. by apply list_elem_of_filter in Hin as [_ ?]. }
  destruct (cut_page size since l) as [page cursor]. cbn [fst] in Hsub.
  destruct page as [|y page]; [injection Hw as <-; by left|].
  destruct (IH _ _ Hw Hx) as [Hin|]; [|by right]. apply elem_of_app in Hin as [|]; [by left|right; auto].
Qed.

Lemma sync_walk_after fuel size table since lo out rows :
  lo ≤ since → Forall (λ x, lo < upd x) out →
  sync_walk fuel size table since out = Some rows → Forall (λ x, lo < upd x) rows.
Proof.
  revert since out. induction fuel as [|fuel IH]; intros since out Hlo Hout Hw; [done|]. cbn in Hw.
  set (l := changed_since table since (size + 1)) in *.
  assert (Forall (λ x, since < upd x) l) as Hl by (apply Forall_forall; apply changed_since_after).
  pose proof (cut_page_cursor size since l Hl) as Hc. pose proof (cut_page_sub size since l) as Hsub.
  destruct (cut_page size since l) as [page cursor]. cbn [fst snd] in *.
  destruct page as [|x page]; [by injection Hw as <-|].
  apply (IH cursor (out ++ x :: page)); [lia| |done]. apply Forall_app. split; [done|].
  apply Forall_forall. intros y Hy. apply Hsub in Hy.
  pose proof (proj1 (Forall_forall _ _) Hl y Hy). cbv beta in *. lia.
Qed.
End sync.
