(* ===== verification/Contact.v ===== *)
(** * Contacts and blocks

    [internal/contact] contact.go and [internal/store/memory] contacts.go: a private address
    book per user, with the block list in the same rows, and its incremental sync.  The
    service resolves users through the account store. *)

From S2P Require Import Prelude Bytes Utf8 GoStrings EventBus Model MemAccounts SyncPage.

Record Contact := mkContact {
  Contact_OwnerID : string;
  Contact_UserID : string;
  Contact_Name : string;
  Contact_Blocked : bool;
  Contact_CreatedAt : Z;
  Contact_UpdatedAt : Z;
}.

(** owner → user → contact *)
Abbreviation Contacts := (gmap string (gmap string Contact)).

Definition MaxNameLen : Z := 100.
Definition SyncPageSize : Z := 500.

(** ** The store *)

(** [s.contacts[ownerID]], a nil map read as empty. *)
Definition book (ownerID : string) (d : Contacts) : gmap string Contact := default ∅ (d !! ownerID).
Definition put_contact (ownerID userID : string) (c : Contact) (d : Contacts) : Contacts :=
  <[ownerID := <[userID := c]> (book ownerID d)]> d.

Definition UpsertContact (c : Contact) : M Contacts unit :=
  d ← get;
  let cp :=
    match book (Contact_OwnerID c) d !! Contact_UserID c with
    | Some prev => mkContact (Contact_OwnerID c) (Contact_UserID c) (Contact_Name c)
                     (Contact_Blocked prev) (Contact_CreatedAt prev) (Contact_UpdatedAt c)
    | None => c
    end in
  modify (put_contact (Contact_OwnerID c) (Contact_UserID c) cp).

Definition DeleteContact (ownerID userID : string) : M Contacts unit :=
  modify (λ d, match d !! ownerID with
               | Some m => <[ownerID := delete userID m]> d
               | None => d
               end).

Definition GetContact (ownerID userID : string) : M Contacts Contact :=
  d ← get; found (book ownerID d) userID.

Definition SetBlocked_ (ownerID userID : string) (blocked : bool) (at_ : Z) : M Contacts unit :=
  d ← get;
  let c := default (mkContact ownerID userID "" false at_ 0) (book ownerID d !! userID) in
  modify (put_contact ownerID userID
    (mkContact (Contact_OwnerID c) (Contact_UserID c) (Contact_Name c) blocked (Contact_CreatedAt c) at_)).

Definition blocked_in (ownerID userID : string) (d : Contacts) : bool :=
  match book ownerID d !! userID with Some c => Contact_Blocked c | None => false end.
Definition IsBlocked_ (ownerID userID : string) : M Contacts bool := gets (blocked_in ownerID userID).

Section contact.
Context `{RangeOrder} `{Unicode}.

Definition ListContacts (ownerID : string) (since limit : Z) : M Contacts (list Contact) :=
  gets (λ d, changed_since Contact_UpdatedAt (range_map (book ownerID d)).*2 since limit).

(** ** The service *)

Record ContactState := mkContactState {
  accounts : AccountDB;
  contacts : Contacts;
}.

Definition on_users {A} (m : M AccountDB A) : M ContactState A := λ st,
  let '(a, r) := m (accounts st) in (mkContactState a (contacts st), r).
Definition on_contacts {A} (m : M Contacts A) : M ContactState A := λ st,
  let '(d, r) := m (contacts st) in (mkContactState (accounts st) d, r).

(** [@] is byte 64. *)
Definition resolve (target : string) : M ContactState User :=
  let target := TrimSpace (sbytes target) in
  match target with
  | [] => fail store_ErrNotFound
  | c :: _ =>
      if Zbyte c =? 64 then on_users (GetUserByUsername (bstring (TrimPrefix (byteZ 64) target)))
      else on_users (GetUser (bstring target))
  end.

Definition Add (ownerID target name : string) (now : Z) : M ContactState Contact :=
  let name := TrimSpace (sbytes name) in
  guard_or (negb (MaxNameLen <? RuneCount name)) contact_ErrBadName;;
  u ← resolve target;
  guard_or (negb (bool_decide (User_ID u = ownerID))) contact_ErrSelf;;
  let c := mkContact ownerID (User_ID u) (bstring name) false now now in
  on_contacts (UpsertContact c);;
  mret c.

Definition Remove (ownerID target : string) : M ContactState unit :=
  u ← resolve target;
  blocked ← on_contacts (IsBlocked_ ownerID (User_ID u));
  if blocked : bool then
    on_contacts (UpsertContact (mkContact ownerID (User_ID u) "" true 0 0))
  else on_contacts (DeleteContact ownerID (User_ID u)).

Definition Sync (ownerID : string) (since : Z) : M ContactState (list Contact * Z) :=
  rows ← on_contacts (ListContacts ownerID since (SyncPageSize + 1));
  mret (cut_page Contact_UpdatedAt SyncPageSize since rows).

Definition SetBlocked (ownerID target : string) (blocked : bool) (now : Z) : M ContactState unit :=
  u ← resolve target;
  guard_or (negb (bool_decide (User_ID u = ownerID))) contact_ErrSelf;;
  on_contacts (SetBlocked_ ownerID (User_ID u) blocked now).

Definition IsContact (ownerID userID : string) : M ContactState bool :=
  r ← attempt (on_contacts (GetContact ownerID userID));
  match r with
  | Ok c => mret (negb (Contact_Blocked c))
  | Err store_ErrNotFound => mret false
  | Err e => fail e
  end.

Definition IsBlocked (ownerID userID : string) : M ContactState bool :=
  on_contacts (IsBlocked_ ownerID userID).

Definition BlocksBetween (a b : string) : M ContactState bool :=
  ab ← on_contacts (IsBlocked_ a b);
  if ab : bool then mret true else on_contacts (IsBlocked_ b a).

(** A client: pages from its cursor until one comes back empty. *)
Fixpoint SyncAll (fuel : nat) (ownerID : string) (since : Z) (out : list Contact)
    : M ContactState (option (list Contact)) :=
  match fuel with
  | O => mret None
  | S fuel =>
      p ← Sync ownerID since;
      match p with
      | ([], _) => mret (Some out)
      | (page, cursor) => SyncAll fuel ownerID cursor (out ++ page)
      end
  end.

(** The calls that change an address book; accounts come and go in between. *)
Inductive op :=
  | OAdd (ownerID target name : string) (now : Z)
  | ORemove (ownerID target : string)
  | OSetBlocked (ownerID target : string) (blocked : bool) (now : Z)
  | OAccounts (a : AccountDB).

Definition exec (o : op) (st : ContactState) : ContactState :=
  match o with
  | OAdd ownerID target name now => (Add ownerID target name now st).1
  | ORemove ownerID target => (Remove ownerID target st).1
  | OSetBlocked ownerID target b now => (SetBlocked ownerID target b now st).1
  | OAccounts a => mkContactState a (contacts st)
  end.

(** The call is [a] unblocking [b]. *)
Definition unblocks (a b : string) (o : op) (st : ContactState) : bool :=
  match o with
  | OSetBlocked ownerID target false _ =>
      bool_decide (ownerID = a) &&
      match (resolve target st).2 with Ok u => bool_decide (User_ID u = b) | Err _ => false end
  | _ => false
  end.

Fixpoint exec_all (os : list op) (st : ContactState) : ContactState :=
  match os with [] => st | o :: os => exec_all os (exec o st) end.
Fixpoint never_unblocks (a b : string) (os : list op) (st : ContactState) : bool :=
  match os with
  | [] => true
  | o :: os => negb (unblocks a b o st) && never_unblocks a b os (exec o st)
  end.

(** ** Lemmas *)

Lemma book_put o u c d o' :
  book o' (put_contact o u c d) = if decide (o' = o) then <[u := c]> (book o d) else book o' d.
Proof.
  unfold book, put_contact. destruct (decide (o' = o)) as [->|Hne].
  - by rewrite lookup_insert_eq.
  - by rewrite lookup_insert_ne by done.
Qed.

Lemma lookup_put o u c d o' u' :
  book o' (put_contact o u c d) !! u' =
  if decide (o' = o ∧ u' = u) then Some c else book o' d !! u'.
Proof.
  rewrite book_put. destruct (decide (o' = o)) as [->|Hne].
  - destruct (decide (u' = u)) as [->|].
    + by rewrite decide_True, lookup_insert_eq.
    + by rewrite decide_False, lookup_insert_ne by intuition congruence.
  - by rewrite decide_False by intuition congruence.
Qed.

Lemma lookup_DeleteContact o u d o' u' :
  book o' (DeleteContact o u d).1 !! u' = if decide (o' = o ∧ u' = u) then None else book o' d !! u'.
Proof.
  unfold DeleteContact, modify, book. cbn [fst]. destruct (d !! o) as [m|] eqn:E.
  - destruct (decide (o' = o)) as [->|Hne].
    + rewrite lookup_insert_eq, E. cbn. destruct (decide (u' = u)) as [->|].
      * by rewrite decide_True, lookup_delete_eq.
      * by rewrite decide_False, lookup_delete_ne by intuition congruence.
    + by rewrite decide_False, lookup_insert_ne by intuition congruence.
  - case_decide as Hd; [|done]. destruct Hd as [-> ->]. by rewrite E.
Qed.

Lemma resolve_reads target st : (resolve target st).1 = st.
Proof.
  unfold resolve. destruct (TrimSpace _) as [|c t]; [done|]. destruct st as [a d].
  destruct (Zbyte c =? 64); unfold on_users; cbn [accounts contacts].
  - unfold GetUserByUsername. rewrite (bind_Ok _ _ _ a a) by done.
    rewrite M_bind_eq. unfold found. destruct (usersByName a !! _); [|done]. cbn.
    unfold deref. by destruct (users a !! _).
  - unfold GetUser. rewrite (bind_Ok _ _ _ a a) by done. unfold found. by destruct (users a !! _).
Qed.

(** Who a target is depends on the accounts only. *)
Lemma resolve_accounts target st d : (resolve target (mkContactState (accounts st) d)).2 = (resolve target st).2.
Proof.
  assert (∀ A (m : M AccountDB A) s, (on_users m s).2 = (m (accounts s)).2) as Hu.
  { intros A m s. unfold on_users. by destruct (m (accounts s)). }
  unfold resolve. destruct (TrimSpace _) as [|c t]; [done|]. by destruct (Zbyte c =? 64); rewrite !Hu.
Qed.

(** [resolve] as a step of a computation. *)
Lemma resolve_bind {A} target (f : User → M ContactState A) st :
  (resolve target ≫= f) st = match (resolve target st).2 with Ok u => f u st | Err e => (st, Err e) end.
Proof.
  rewrite M_bind_eq. pose proof (resolve_reads target st) as Hr.
  destruct (resolve target st) as [st' [u|e]]; cbn in *; by subst.
Qed.

Lemma UpsertContact_run c d :
  UpsertContact c d =
  (put_contact (Contact_OwnerID c) (Contact_UserID c)
    (match book (Contact_OwnerID c) d !! Contact_UserID c with
     | Some prev => mkContact (Contact_OwnerID c) (Contact_UserID c) (Contact_Name c)
                      (Contact_Blocked prev) (Contact_CreatedAt prev) (Contact_UpdatedAt c)
     | None => c
     end) d, Ok tt).
Proof. done. Qed.

(** What each call does to the rows. *)
Lemma Add_run o t n now st :
  Add o t n now st =
  let name := TrimSpace (sbytes n) in
  if MaxNameLen <? RuneCount name then (st, Err contact_ErrBadName) else
  match (resolve t st).2 with
  | Err e => (st, Err e)
  | Ok u =>
      if bool_decide (User_ID u = o) then (st, Err contact_ErrSelf) else
      let c := mkContact o (User_ID u) (bstring name) false now now in
      (mkContactState (accounts st) (UpsertContact c (contacts st)).1, Ok c)
  end.
Proof.
  unfold Add. cbv zeta. destruct (MaxNameLen <? _).
  { by rewrite (bind_Err _ _ _ st contact_ErrBadName). }
  rewrite (bind_Ok _ _ _ st tt), resolve_bind by done. destruct (resolve t st).2 as [u|e]; [|done].
  by destruct (bool_decide _).
Qed.

Lemma Remove_run o t st :
  Remove o t st =
  match (resolve t st).2 with
  | Err e => (st, Err e)
  | Ok u => (mkContactState (accounts st)
      (if blocked_in o (User_ID u) (contacts st)
       then (UpsertContact (mkContact o (User_ID u) "" true 0 0) (contacts st)).1
       else (DeleteContact o (User_ID u) (contacts st)).1), Ok tt)
  end.
Proof.
  unfold Remove. rewrite resolve_bind. destruct (resolve t st).2 as [u|e]; [|done].
  rewrite (bind_Ok _ _ _ st (blocked_in o (User_ID u) (contacts st))) by (by destruct st).
  by destruct (blocked_in _ _ _).
Qed.

Lemma SetBlocked_run o t b now st :
  SetBlocked o t b now st =
  match (resolve t st).2 with
  | Err e => (st, Err e)
  | Ok u =>
      if bool_decide (User_ID u = o) then (st, Err contact_ErrSelf) else
      (mkContactState (accounts st) (SetBlocked_ o (User_ID u) b now (contacts st)).1, Ok tt)
  end.
Proof.
  unfold SetBlocked. rewrite resolve_bind. destruct (resolve t st).2 as [u|e]; [|done].
  by destruct (bool_decide _).
Qed.

Lemma blocked_Upsert c d o u :
  blocked_in o u d = true → blocked_in o u (UpsertContact c d).1 = true.
Proof.
  rewrite UpsertContact_run. cbn [fst]. unfold blocked_in. rewrite lookup_put.
  case_decide as Hd; [|done]. destruct Hd as [-> ->]. by destruct (book _ d !! _).
Qed.

Lemma blocked_kept a b o st :
  blocked_in a b (contacts st) = true → unblocks a b o st = false →
  blocked_in a b (contacts (exec o st)) = true.
Proof.
  intros Hb Hu. destruct o as [o t n now|o t|o t bl now|a']; cbn [exec].
  - rewrite Add_run. cbv zeta. destruct (MaxNameLen <? _); [done|].
    destruct (resolve t st).2; [|done]. destruct (bool_decide _); [done|]. cbn [fst contacts].
    by apply blocked_Upsert.
  - rewrite Remove_run. destruct (resolve t st).2 as [u|]; [|done]. cbn [fst contacts].
    destruct (blocked_in o (User_ID u) (contacts st)) eqn:E; [by apply blocked_Upsert|].
    unfold blocked_in in *. rewrite lookup_DeleteContact. case_decide as Hd; [|done].
    destruct Hd as [-> ->]. by rewrite Hb in E.
  - rewrite SetBlocked_run. cbn [unblocks] in Hu. destruct (resolve t st).2 as [u|]; [|done].
    destruct (bool_decide (User_ID u = o)); [done|]. cbn [fst contacts].
    unfold blocked_in in *. cbn [SetBlocked_ fst]. unfold SetBlocked_.
    rewrite (bind_Ok _ _ _ (contacts st) (contacts st)) by done. cbn [modify fst]. rewrite lookup_put.
    destruct (decide (a = o ∧ b = User_ID u)) as [[-> ->]|_]; [|done]. cbn. destruct bl; [done|].
    by rewrite !bool_decide_true in Hu.
  - done.
Qed.

Lemma SyncAll_walk fuel o since out st :
  SyncAll fuel o since out st =
  (st, Ok (sync_walk Contact_UpdatedAt fuel SyncPageSize (range_map (book o (contacts st))).*2 since out)).
Proof.
  revert since out. induction fuel as [|fuel IH]; intros since out; [done|]. cbn [SyncAll sync_walk].
  rewrite (bind_Ok _ _ _ st (cut_page Contact_UpdatedAt SyncPageSize since (changed_since Contact_UpdatedAt
    (range_map (book o (contacts st))).*2 since (SyncPageSize + 1)))) by (by destruct st).
  destruct (cut_page _ _ _ _) as [[|x page] cursor]; [done|]. apply IH.
Qed.

Lemma IsContact_run o u st :
  IsContact o u st =
  (st, Ok (match book o (contacts st) !! u with Some c => negb (Contact_Blocked c) | None => false end)).
Proof.
  destruct st as [a d]. unfold IsContact, attempt, on_contacts, GetContact. rewrite M_bind_eq.
  cbn [contacts accounts]. rewrite (bind_Ok _ _ _ d d) by done. unfold found. by destruct (book o d !! u).
Qed.

Lemma BlocksBetween_run a b st :
  BlocksBetween a b st = (st, Ok (blocked_in a b (contacts st) || blocked_in b a (contacts st))).
Proof.
  destruct st as [ac d]. unfold BlocksBetween. rewrite M_bind_eq. cbn.
  by destruct (blocked_in a b d).
Qed.

Lemma blocked_kept_all a b os st :
  blocked_in a b (contacts st) = true → never_unblocks a b os st = true →
  blocked_in a b (contacts (exec_all os st)) = true.
Proof.
  revert st. induction os as [|o os IH]; intros st Hb Hn; [done|]. cbn in *.
  apply andb_prop in Hn as [Hu Hn]. apply negb_true_iff in Hu. apply IH; [|done]. by apply blocked_kept.
Qed.

Lemma SetBlocked_row o u b now d :
  book o (SetBlocked_ o u b now d).1 !! u =
  let c := default (mkContact o u "" false now 0) (book o d !! u) in
  Some (mkContact (Contact_OwnerID c) (Contact_UserID c) (Contact_Name c) b (Contact_CreatedAt c) now).
Proof.
  unfold SetBlocked_. rewrite (bind_Ok _ _ _ d d) by done. cbn [modify fst].
  by rewrite lookup_put, decide_True.
Qed.

Lemma SetBlocked_Ok o t b now st st1 :
  SetBlocked o t b now st = (st1, Ok tt) →
  ∃ u, (resolve t st).2 = Ok u ∧ User_ID u ≠ o ∧
    st1 = mkContactState (accounts st) (SetBlocked_ o (User_ID u) b now (contacts st)).1.
Proof.
  rewrite SetBlocked_run. destruct (resolve t st).2 as [u|]; [|done].
  destruct (bool_decide_reflect (User_ID u = o)); [done|]. intros [= <-]. eauto.
Qed.

(** ** Theorems *)

(** A block holds until it is lifted.  Once [a] has blocked [b], whatever anyone then
    does — renaming or removing the contact, other blocks, accounts created or deleted —
    [a] and [b] are blocked in both directions and [b] is not a contact of [a], as long as
    [a] does not unblock [b]. *)
Theorem block_holds a t now u st st1 os :
  SetBlocked a t true now st = (st1, Ok tt) → (resolve t st).2 = Ok u →
  never_unblocks a (User_ID u) os st1 = true →
  let st2 := exec_all os st1 in
  BlocksBetween a (User_ID u) st2 = (st2, Ok true) ∧ BlocksBetween (User_ID u) a st2 = (st2, Ok true) ∧
  IsContact a (User_ID u) st2 = (st2, Ok false).
Proof.
  intros Hset Hres Hn st2. apply SetBlocked_Ok in Hset as (u' & Hu' & _ & Hst).
  rewrite Hres in Hu'. injection Hu' as <-. subst st1.
  assert (blocked_in a (User_ID u) (contacts st2) = true) as Hb.
  { apply blocked_kept_all; [|done]. unfold blocked_in. cbn [contacts]. by rewrite SetBlocked_row. }
  rewrite !BlocksBetween_run, IsContact_run, Hb, orb_true_r. split_and!; [done..|].
  unfold blocked_in in Hb. destruct (book a _ !! _); [|done]. by rewrite Hb.
Qed.


(** Blocking a stranger and thinking better of it makes them a contact: the row that
    only carried the block stays, and [IsContact] reads it as an address-book entry. *)
Theorem unblocked_stranger_is_contact o t u now now' st st1 st2 :
  (resolve t st).2 = Ok u → book o (contacts st) !! User_ID u = None →
  SetBlocked o t true now st = (st1, Ok tt) → SetBlocked o t false now' st1 = (st2, Ok tt) →
  IsContact o (User_ID u) st = (st, Ok false) ∧ IsContact o (User_ID u) st2 = (st2, Ok true).
Proof.
  intros Hres Hnone H1 H2. rewrite !IsContact_run, Hnone. split; [done|].
  apply SetBlocked_Ok in H1 as (u1 & Hu1 & _ & ->). apply SetBlocked_Ok in H2 as (u2 & Hu2 & _ & ->).
  rewrite resolve_accounts, Hres in Hu2. injection Hu2 as <-.
  rewrite Hres in Hu1. injection Hu1 as <-. cbn [contacts]. by rewrite SetBlocked_row.
Qed.

(** Removing a blocked contact is never synced: the row is rewritten with no
    modification time, so no page of any client that syncs from the start or later carries
    the change. *)
Theorem removed_blocked_unsynced o t u since st :
  (resolve t st).2 = Ok u → blocked_in o (User_ID u) (contacts st) = true → 0 ≤ since →
  let st1 := (Remove o t st).1 in
  (∃ c, book o (contacts st1) !! User_ID u = Some c ∧ Contact_Name c = "" ∧ Contact_UpdatedAt c = 0) ∧
  ∀ fuel rows, SyncAll fuel o since [] st1 = (st1, Ok (Some rows)) →
    Forall (λ c, 0 < Contact_UpdatedAt c) rows.
Proof.
  intros Hres Hb Hs st1. split.
  - unfold st1. rewrite Remove_run, Hres, Hb, UpsertContact_run. cbn [fst contacts]. rewrite lookup_put.
    cbn. rewrite decide_True by done. unfold blocked_in in Hb. destruct (book o _ !! _); eauto.
  - intros fuel rows. rewrite SyncAll_walk. intros [= Hw]. revert Hw.
    apply sync_walk_after; [lia|constructor].
Qed.
End contact.

(** ** Witnesses *)
Section witnesses.
#[local] Existing Instance canonical_order.
#[local] Existing Instance ascii_tables.

Definition w_accounts : AccountDB :=
  let add id name := λ db, (CreateUser (mkUser id name name "" "" 0 DefaultPrivacy) db).1 in
  add "u2" "bob" (add "u1" "alice" MemAccounts.New).
Definition w_book : ContactState := mkContactState w_accounts ∅.
Definition w_bob : User := mkUser "u2" "bob" "bob" "" "" 0 DefaultPrivacy.
Definition w_blocked : ContactState := (SetBlocked "u1" "@bob" true 5 w_book).1.
Definition w_ops : list op := [OAdd "u1" "u2" "Bob" 6; ORemove "u1" " @bob"; OSetBlocked "u2" "u1" false 7].

Lemma block_holds_witness :
  BlocksBetween "u2" "u1" (exec_all w_ops w_blocked) = (exec_all w_ops w_blocked, Ok true).
Proof.
  apply (block_holds "u1" "@bob" 5 w_bob w_book w_blocked w_ops); by vm_compute.
Defined.


Lemma unblocked_stranger_is_contact_witness :
  IsContact "u1" "u2" (SetBlocked "u1" "@bob" false 6 w_blocked).1 =
  ((SetBlocked "u1" "@bob" false 6 w_blocked).1, Ok true).
Proof.
  apply (unblocked_stranger_is_contact "u1" "@bob" w_bob 5 6 w_book w_blocked); by vm_compute.
Defined.

Lemma removed_blocked_unsynced_witness :
  ∃ c, book "u1" (contacts (Remove "u1" "@bob" w_blocked).1) !! "u2" = Some c ∧ Contact_UpdatedAt c = 0.
Proof.
  destruct (removed_blocked_unsynced "u1" "@bob" w_bob 0 w_blocked) as [(c & Hc & _ & Hu) _];
    [by vm_compute | by vm_compute | done |].
  exists c. exact (conj Hc Hu).
Defined.
End witnesses.
