(* ===== verification/Pin.v ===== *)
(** * Pinned messages and drafts

    [internal/pin] pin.go with [internal/store/memory] pins.go and drafts.go.  Pins belong to
    the chat and need the right to pin; drafts belong to one user and are synced to that
    user's devices page by page. *)

From S2P Require Import Prelude Bytes Utf8 EventBus Model ChatService Social SyncPage.

Record PinnedMessage := mkPinned {
  Pinned_ChatID : string;
  Pinned_MessageID : string;
  Pinned_PinnedBy : string;
  Pinned_PinnedAt : Z;
}.

Record Draft := mkDraft {
  Draft_UserID : string;
  Draft_ChatID : string;
  Draft_Text : string;
  Draft_ReplyTo : string;
  Draft_UpdatedAt : Z;
}.

(** [wire.Pin] and [wire.PinnedBody]. *)
Record WirePin := mkWirePin { WirePin_MessageID : string; WirePin_PinnedBy : string; WirePin_PinnedAt : Z }.
Record PinnedBody := mkPinnedBody { PinnedBody_ChatID : string; PinnedBody_Pins : list WirePin }.

Definition MaxDraftLen : Z := 8192.
Definition DraftPageSize : Z := 200.

(** chat → message → pin, and user → chat → draft. *)
Record PinTables := mkPinTables {
  pins : gmap string (gmap string PinnedMessage);
  drafts : gmap string (gmap string Draft);
}.

(** ** The store *)

Definition pins_of (chatID : string) (d : PinTables) : gmap string PinnedMessage := default ∅ (pins d !! chatID).
Definition drafts_of (userID : string) (d : PinTables) : gmap string Draft := default ∅ (drafts d !! userID).

Definition Pin_ (p : PinnedMessage) : M PinTables unit :=
  modify (λ d, mkPinTables
    (<[Pinned_ChatID p := <[Pinned_MessageID p := p]> (pins_of (Pinned_ChatID p) d)]> (pins d)) (drafts d)).

Definition Unpin_ (chatID messageID : string) : M PinTables unit :=
  d ← get;
  match pins d !! chatID with
  | None => fail store_ErrNotFound
  | Some m =>
      match m !! messageID with
      | None => fail store_ErrNotFound
      | Some _ => modify (λ d, mkPinTables (<[chatID := delete messageID m]> (pins d)) (drafts d))
      end
  end.

(** [sort.Slice] by [PinnedAt], latest first. *)
Definition pinned_later (p q : PinnedMessage) : Prop := Pinned_PinnedAt q ≤ Pinned_PinnedAt p.
#[global] Instance pinned_later_dec : RelDecision pinned_later.
Proof. intros p q. unfold pinned_later. apply _. Defined.

Definition SetDraft_ (dr : Draft) : M PinTables unit :=
  modify (λ d, mkPinTables (pins d)
    (<[Draft_UserID dr := <[Draft_ChatID dr := dr]> (drafts_of (Draft_UserID dr) d)]> (drafts d))).

Definition DeleteDraft_ (userID chatID : string) : M PinTables unit :=
  modify (λ d, match drafts d !! userID with
               | Some m => mkPinTables (pins d) (<[userID := delete chatID m]> (drafts d))
               | None => d
               end).

Section pin.
Context `{RangeOrder}.

Definition pin_list (chatID : string) (d : PinTables) : list PinnedMessage :=
  merge_sort pinned_later (range_map (pins_of chatID d)).*2.
Definition ListPins_ (chatID : string) : M PinTables (list PinnedMessage) := gets (pin_list chatID).

Definition ListDrafts_ (userID : string) (since limit : Z) : M PinTables (list Draft) :=
  gets (λ d, changed_since Draft_UpdatedAt (range_map (drafts_of userID d)).*2 since limit).

(** ** The service *)

Section service.
Context {T W : Type} `{!ChatAuthority T W} `{!Table PinTables W} `{!Bus PinnedBody W}.
Variable trace : Headers.

Definition authorize (t : T) (chatID userID : string) : M W unit :=
  ok ← ca_CanPin t chatID userID;
  guard_or ok pin_ErrForbidden.

Definition broadcast (chatID : string) : M W unit :=
  r ← attempt (on_tbl (ListPins_ chatID));
  match r with
  | Err _ => mret tt
  | Ok ps =>
      let body := mkPinnedBody chatID
        ((λ p, mkWirePin (Pinned_MessageID p) (Pinned_PinnedBy p) (Pinned_PinnedAt p)) <$> ps) in
      attempt (Publish (mkEvent SubjPinned chatID body trace));;
      mret tt
  end.

Definition Pin (t : T) (chatID messageID userID : string) (now : Z) : M W unit :=
  authorize t chatID userID;;
  on_tbl (Pin_ (mkPinned chatID messageID userID now));;
  broadcast chatID.

Definition Unpin (t : T) (chatID messageID userID : string) : M W unit :=
  authorize t chatID userID;;
  on_tbl (Unpin_ chatID messageID);;
  broadcast chatID.

Definition ListPins (t : T) (chatID userID : string) : M W (list PinnedMessage) :=
  member ← ca_IsMember t chatID userID;
  guard_or member pin_ErrForbidden;;
  on_tbl (ListPins_ chatID).

Definition SetDraft (t : T) (userID chatID text replyTo : string) (now : Z) : M W unit :=
  guard_or (negb (MaxDraftLen <? RuneCount (sbytes text))) pin_ErrTooLong;;
  member ← ca_IsMember t chatID userID;
  guard_or member pin_ErrForbidden;;
  if bool_decide (text = "") && bool_decide (replyTo = "") then on_tbl (DeleteDraft_ userID chatID)
  else on_tbl (SetDraft_ (mkDraft userID chatID text replyTo now)).

Definition SyncDrafts (userID : string) (since : Z) : M W (list Draft * Z) :=
  rows ← on_tbl (ListDrafts_ userID since (DraftPageSize + 1));
  mret (cut_page Draft_UpdatedAt DraftPageSize since rows).

(** A device: pages from its cursor until one comes back empty. *)
Fixpoint SyncAllDrafts (fuel : nat) (userID : string) (since : Z) (out : list Draft)
    : M W (option (list Draft)) :=
  match fuel with
  | O => mret None
  | S fuel =>
      p ← SyncDrafts userID since;
      match p with
      | ([], _) => mret (Some out)
      | (page, cursor) => SyncAllDrafts fuel userID cursor (out ++ page)
      end
  end.
End service.
End pin.

(** ** Lemmas *)

#[local] Instance pinned_later_total : Total pinned_later.
Proof. intros p q. unfold pinned_later. lia. Qed.
#[local] Instance pinned_later_trans : Transitive pinned_later.
Proof. intros p q r. unfold pinned_later. lia. Qed.

Section lemmas.
Context `{RangeOrder} `{SocialLaws T PinTables PinnedBody W}.
Variable trace : Headers.
Implicit Types w : W.

Lemma pin_list_spec c d :
  pin_list c d ≡ₚ (range_map (pins_of c d)).*2 ∧ StronglySorted pinned_later (pin_list c d).
Proof.
  split; [apply merge_sort_Permutation | apply (StronglySorted_merge_sort _)].
Qed.

Lemma drafts_Set dr d u :
  drafts_of u (SetDraft_ dr d).1 =
  if decide (u = Draft_UserID dr) then <[Draft_ChatID dr := dr]> (drafts_of u d) else drafts_of u d.
Proof.
  unfold drafts_of. cbn. destruct (decide (u = Draft_UserID dr)) as [->|].
  - by rewrite lookup_insert_eq.
  - by rewrite lookup_insert_ne by done.
Qed.

Lemma drafts_Delete u c d v :
  drafts_of v (DeleteDraft_ u c d).1 = if decide (v = u) then delete c (drafts_of v d) else drafts_of v d.
Proof.
  unfold drafts_of, DeleteDraft_, modify. cbn [fst]. destruct (drafts d !! u) as [m|] eqn:E; cbn [drafts].
  - destruct (decide (v = u)) as [->|]; [by rewrite lookup_insert_eq, E | by rewrite lookup_insert_ne by done].
  - destruct (decide (v = u)) as [->|]; [|done]. rewrite E. cbn. by rewrite delete_empty.
Qed.

Lemma broadcast_run c w : sgood w → ∃ w', broadcast trace c w = (w', Ok tt) ∧ tables (tbl w) w w'.
Proof.
  intros Hw. unfold broadcast. rewrite M_bind_eq. unfold attempt. rewrite on_tbl_eq.
  cbn [ListPins_ gets fst snd]. rewrite M_bind_eq. set (e := mkEvent _ _ _ _).
  pose proof (tables_publish e (tbl w) w Hw) as Hp.
  destruct (Publish e (set_tbl (tbl w) w)) as [w' r]. by exists w'.
Qed.

(** A call that needs the right to pin: the table operation, then the broadcast. *)
Lemma pin_call t c u (m : M PinTables unit) w :
  sgood w → no_bar c = true →
  let go := (authorize t c u;; on_tbl m;; broadcast trace c) w in
  match says_pin (says w c u) with
  | Ok true => ∃ w', go = (w', (m (tbl w)).2) ∧ tables (m (tbl w)).1 w w'
  | Ok false => ∃ w', go = (w', Err pin_ErrForbidden) ∧ squiet w w'
  | Err e => ∃ w', go = (w', Err e) ∧ squiet w w'
  end.
Proof.
  intros Hw Hb go. unfold go. destruct (CanPin_says t c u w Hw Hb) as (w1 & Hc & Hq).
  destruct (says_pin (says w c u)) as [ok|e].
  2: { exists w1. split; [|done]. unfold authorize. by rewrite (bind_Err _ _ _ w1 e) by by rewrite (bind_Err _ _ _ w1 e). }
  destruct ok.
  2: { exists w1. split; [|done]. rewrite (bind_Err _ _ _ w1 pin_ErrForbidden); [done|].
       unfold authorize. by rewrite (bind_Ok _ _ _ w1 false). }
  rewrite (bind_Ok _ _ _ w1 tt) by (unfold authorize; by rewrite (bind_Ok _ _ _ w1 true)).
  destruct Hq as (Hg & Ht & Hs). rewrite M_bind_eq, on_tbl_eq, Ht.
  pose proof (tables_set (m (tbl w)).1 w1 Hg) as (Hg2 & Ht2 & Hs2).
  destruct (m (tbl w)).2 as [[]|e].
  - destruct (broadcast_run c (set_tbl (m (tbl w)).1 w1) Hg2) as (w' & -> & Hg3 & Ht3 & Hs3).
    exists w'. split; [done|]. split_and!; [done | congruence |]. intros. by rewrite Hs3, Hs2, Hs.
  - eexists. split; [done|]. split_and!; [done..|]. intros. by rewrite Hs2, Hs.
Qed.

Lemma SetDraft_run t u c text replyTo now w :
  sgood w → no_bar c = true → RuneCount (sbytes text) ≤ MaxDraftLen →
  match says_member (says w c u) with
  | Ok true => ∃ w', SetDraft t u c text replyTo now w = (w', Ok tt) ∧
      tables ((if bool_decide (text = "") && bool_decide (replyTo = "") then DeleteDraft_ u c
               else SetDraft_ (mkDraft u c text replyTo now)) (tbl w)).1 w w'
  | Ok false => ∃ w', SetDraft t u c text replyTo now w = (w', Err pin_ErrForbidden) ∧ squiet w w'
  | Err e => ∃ w', SetDraft t u c text replyTo now w = (w', Err e) ∧ squiet w w'
  end.
Proof.
  intros Hw Hb Hlen. unfold SetDraft. rewrite (bind_Ok _ _ _ w tt) by (by rewrite (proj2 (Z.ltb_ge _ _))).
  destruct (IsMember_says t c u w Hw Hb) as (w1 & Hm & Hq).
  destruct (says_member (says w c u)) as [[]|e].
  - rewrite (bind_Ok _ _ _ w1 true), (bind_Ok _ _ _ w1 tt) by done. destruct Hq as (Hg & Ht & Hs).
    destruct (_ && _); rewrite on_tbl_eq, Ht; eexists; (split; [done|]);
      (eapply tables_trans; [|by apply tables_set]); by split_and!.
  - exists w1. by rewrite (bind_Ok _ _ _ w1 false).
  - exists w1. by rewrite (bind_Err _ _ _ w1 e).
Qed.

Lemma SyncAllDrafts_walk fuel u since out w :
  sgood w →
  ∃ w', SyncAllDrafts fuel u since out w =
    (w', Ok (sync_walk Draft_UpdatedAt fuel DraftPageSize (range_map (drafts_of u (tbl w))).*2 since out)) ∧
    tables (tbl w) w w'.
Proof.
  revert since out w. induction fuel as [|fuel IH]; intros since out w Hw.
  { exists w. by split_and!. }
  cbn [SyncAllDrafts sync_walk]. pose proof (tables_set (tbl w) w Hw) as Hset.
  rewrite (bind_Ok _ _ _ (set_tbl (tbl w) w) (cut_page Draft_UpdatedAt DraftPageSize since
    (changed_since Draft_UpdatedAt (range_map (drafts_of u (tbl w))).*2 since (DraftPageSize + 1)))).
  2: { unfold SyncDrafts. rewrite M_bind_eq, on_tbl_eq. done. }
  destruct (cut_page _ _ _ _) as [[|x page] cursor]; [by eexists|].
  destruct (IH cursor (out ++ x :: page) (set_tbl (tbl w) w)) as (w' & Hr & Hq); [by apply Hset|].
  rewrite tbl_set in Hr, Hq. exists w'. split; [done|]. by eapply tables_trans.
Qed.
End lemmas.

(** ** Theorems *)

Section theorems.
Context `{RangeOrder} `{SocialLaws T PinTables PinnedBody W}.
Variable trace : Headers.
Implicit Types w : W.

(** Who may pin decides, and members see it.  For a user with the right to pin, [Pin]
    succeeds and changes that one pin; every member then lists exactly the chat's pins,
    latest first, and nobody else lists anything.  Without the right, [Pin] and [Unpin] are
    refused and no table changes. *)
Theorem Pin_exact t c m u now w :
  sgood w → no_bar c = true →
  match says_pin (says w c u) with
  | Ok true =>
      ∃ w', Pin trace t c m u now w = (w', Ok tt) ∧
        pins_of c (tbl w') = <[m := mkPinned c m u now]> (pins_of c (tbl w)) ∧
        (∀ c', c' ≠ c → pins_of c' (tbl w') = pins_of c' (tbl w)) ∧ drafts (tbl w') = drafts (tbl w) ∧
        ∀ t' v, match says_member (says w c v), (ListPins t' c v w').2 with
                | Ok true, Ok ps => ps ≡ₚ (range_map (pins_of c (tbl w'))).*2 ∧ StronglySorted pinned_later ps
                | Ok false, Err e => e = pin_ErrForbidden
                | Err e, Err e' => e' = e
                | _, _ => False
                end
  | r =>
      let err := match r with Ok _ => pin_ErrForbidden | Err e => e end in
      (∃ w', Pin trace t c m u now w = (w', Err err) ∧ tbl w' = tbl w) ∧
      (∃ w', Unpin trace t c m u w = (w', Err err) ∧ tbl w' = tbl w)
  end.
Proof.
  intros Hw Hb. pose proof (pin_call trace t c u (Pin_ (mkPinned c m u now)) w Hw Hb) as Hp.
  pose proof (pin_call trace t c u (Unpin_ c m) w Hw Hb) as Hu. cbv zeta in *.
  destruct (says_pin (says w c u)) as [[]|e].
  2-3: destruct Hp as (w1 & Hp & Hq1), Hu as (w2 & Hu & Hq2); split; [exists w1|exists w2];
    (split; [done|]); [apply Hq1 | apply Hq2].
  destruct Hp as (w' & Hp & Hg & Ht & Hs). exists w'. split; [done|]. rewrite Ht. cbn [Pin_ modify fst].
  unfold pins_of. cbn [pins drafts Pinned_ChatID Pinned_MessageID]. rewrite lookup_insert_eq. cbn [default from_option id].
  split_and!; [done| |done|].
  - intros c' Hne. by rewrite lookup_insert_ne.
  - intros t' v. unfold ListPins. destruct (IsMember_says t' c v w' Hg Hb) as (w2 & Hm & Hg2 & Ht2 & Hs2).
    rewrite Hs in Hm. destruct (says_member (says w c v)) as [[]|e].
    + rewrite (bind_Ok _ _ _ w2 true), (bind_Ok _ _ _ w2 tt), on_tbl_eq by done. cbn [ListPins_ gets snd].
      destruct (pin_list_spec c (tbl w2)) as [Hperm Hsort]. split; [|done]. rewrite Hperm, Ht2, Ht.
      unfold pins_of. cbn. by rewrite lookup_insert_eq.
    + by rewrite (bind_Ok _ _ _ w2 false).
    + by rewrite (bind_Err _ _ _ w2 e).
Qed.

(** A draft is private and reaches the user's devices.  A member's draft with some text
    or a reply is stored, nobody else's drafts change, and a device syncing from a cursor
    before it gets it — exactly once, with every other draft changed since. *)
Theorem draft_synced t u c text replyTo now since w :
  sgood w → no_bar c = true → RuneCount (sbytes text) ≤ MaxDraftLen →
  says_member (says w c u) = Ok true → ¬ (text = "" ∧ replyTo = "") → since < now →
  (∀ ts, len (filter (λ d, Draft_UpdatedAt d = ts) (range_map (drafts_of u (tbl w))).*2) < DraftPageSize) →
  let dr := mkDraft u c text replyTo now in
  ∃ w' w'' rows, SetDraft t u c text replyTo now w = (w', Ok tt) ∧
    (∀ v, v ≠ u → drafts_of v (tbl w') = drafts_of v (tbl w)) ∧
    SyncAllDrafts (S (S (size (drafts_of u (tbl w))))) u since [] w' = (w'', Ok (Some rows)) ∧
    dr ∈ rows ∧ rows ≡ₚ filter (λ d, since < Draft_UpdatedAt d) (range_map (<[c := dr]> (drafts_of u (tbl w)))).*2.
Proof.
  intros Hw Hb Hlen Hm Hne Hs Hts dr.
  pose proof (SetDraft_run t u c text replyTo now w Hw Hb Hlen) as Hr. rewrite Hm in Hr.
  destruct Hr as (w' & Hset & Hg & Ht & _).
  assert (bool_decide (text = "") && bool_decide (replyTo = "") = false) as Hnb.
  { apply andb_false_iff. destruct (decide (text = "")) as [->|]; [right|left]; apply bool_decide_eq_false; naive_solver. }
  rewrite Hnb in Ht. fold dr in Ht.
  set (old := drafts_of u (tbl w)) in *. set (new := <[c := dr]> old).
  assert (drafts_of u (tbl w') = new) as Hnew by (by rewrite Ht, drafts_Set, decide_True).
  destruct (SyncAllDrafts_walk (S (S (size old))) u since [] w' Hg) as (w'' & Hwalk & _).
  rewrite Hnew in Hwalk.
  destruct (sync_walk_all Draft_UpdatedAt DraftPageSize (range_map new).*2 since (S (S (size old))) [])
    as (rows & Hrows & Hperm); [done| | |].
  - intros ts. specialize (Hts ts).
    pose proof (range_insert_filter (λ d, Draft_UpdatedAt d = ts) c dr old) as Hi. fold new in Hi. lia.
  - eapply Nat.le_lt_trans; [apply length_filter|]. rewrite length_fmap, length_range_map. unfold new.
    rewrite map_size_insert. destruct (old !! c); cbn; lia.
  - exists w', w'', rows. rewrite Hwalk, Hrows. split_and!; [done| |done| |done].
    + intros v Hv. by rewrite Ht, drafts_Set, decide_False.
    + rewrite Hperm. apply list_elem_of_filter. split; [done|]. apply list_elem_of_fmap.
      exists (c, dr). split; [done|]. apply elem_of_range_map. unfold new. by rewrite lookup_insert_eq.
Qed.

(** Clearing a draft is not synced.  The row is deleted, so a device that held it and
    was away syncs, from whatever cursor, pages that say nothing about the chat: its copy
    of the draft stays. *)
Theorem cleared_draft_unsynced t u c now w :
  sgood w → no_bar c = true → says_member (says w c u) = Ok true →
  (∀ c' d, drafts_of u (tbl w) !! c' = Some d → Draft_ChatID d = c') →
  ∃ w', SetDraft t u c "" "" now w = (w', Ok tt) ∧
    ∀ fuel since w'' rows, SyncAllDrafts fuel u since [] w' = (w'', Ok (Some rows)) →
      Forall (λ d, Draft_ChatID d ≠ c) rows.
Proof.
  intros Hw Hb Hm Hkey. pose proof (SetDraft_run t u c "" "" now w Hw Hb ltac:(by vm_compute)) as Hr.
  rewrite Hm in Hr. destruct Hr as (w' & Hset & Hg & Ht & _).
  change (tbl w' = (DeleteDraft_ u c (tbl w)).1) in Ht. exists w'. split; [done|].
  intros fuel since w'' rows Hs. destruct (SyncAllDrafts_walk fuel u since [] w' Hg) as (w3 & Hwalk & _).
  rewrite Hs in Hwalk. injection Hwalk as -> Hwalk. symmetry in Hwalk. apply Forall_forall. intros d Hd.
  apply (sync_walk_sub _ _ _ _ _ _ _ _ Hwalk) in Hd as [Hd|Hd]; [by apply not_elem_of_nil in Hd|].
  apply list_elem_of_fmap in Hd as ([c' d'] & -> & Hd). apply elem_of_range_map in Hd.
  rewrite Ht, drafts_Delete, decide_True in Hd by done. apply lookup_delete_Some in Hd as [Hne Hd].
  cbn. rewrite (Hkey c' d' Hd). done.
Qed.
End theorems.

(** ** Witnesses: a group of [u1] (its owner) and [u2]. *)
Section witnesses.
#[local] Existing Instance canonical_order.

Definition w_group : Service := (CreateGroup "u1" "ours" ChatGroup ["u2"] "c1" 0 (New 0 MemChats.New)).1.
Lemma w_group_reachable : reachable w_group.
Proof. apply r_group; [apply r_new | done | done | by repeat constructor]. Qed.

Definition w_pins : Deployed PinTables PinnedBody := mkDeployed w_group (mkPinTables ∅ ∅) [].
Definition w_at : Ticks * Ticks := (w_ticks 1, w_ticks 1).
Definition w_drafting : Deployed PinTables PinnedBody :=
  (SetDraft w_at "u2" "c1" "dear all" "" 5 w_pins).1.

Lemma Pin_exact_witness :
  (∃ w', Pin ∅ w_at "c1" "m1" "u1" 7 w_pins = (w', Ok tt) ∧
     pins_of "c1" (tbl w') !! "m1" = Some (mkPinned "c1" "m1" "u1" 7)) ∧
  ∃ w', Pin ∅ w_at "c1" "m1" "u2" 7 w_pins = (w', Err pin_ErrForbidden) ∧ tbl w' = tbl w_pins.
Proof.
  split.
  - destruct (Pin_exact (H0 := deployed_laws) ∅ w_at "c1" "m1" "u1" 7 w_pins w_group_reachable eq_refl)
      as (w' & HP & Hpins & _).
    exists w'. split; [exact HP|]. rewrite Hpins. by vm_compute.
  - exact (proj1 (Pin_exact (H0 := deployed_laws) ∅ w_at "c1" "m1" "u2" 7 w_pins w_group_reachable eq_refl)).
Defined.

Lemma draft_synced_witness :
  ∃ w' w'' rows, SetDraft w_at "u2" "c1" "dear all" "" 5 w_pins = (w', Ok tt) ∧
    SyncAllDrafts 2 "u2" 0 [] w' = (w'', Ok (Some rows)) ∧ mkDraft "u2" "c1" "dear all" "" 5 ∈ rows.
Proof.
  destruct (draft_synced (H0 := deployed_laws) w_at "u2" "c1" "dear all" "" 5 0 w_pins w_group_reachable eq_refl)
    as (w' & w'' & rows & Hset & _ & Hsync & Hin & _);
    [by vm_compute | by vm_compute | by intros [? _] | done | intros ts; by vm_compute |].
  exists w', w'', rows. exact (conj Hset (conj Hsync Hin)).
Defined.

Lemma cleared_draft_unsynced_witness :
  drafts_of "u2" (tbl w_drafting) !! "c1" = Some (mkDraft "u2" "c1" "dear all" "" 5) ∧
  ∃ w', SetDraft w_at "u2" "c1" "" "" 9 w_drafting = (w', Ok tt) ∧
    ∀ fuel since w'' rows, SyncAllDrafts fuel "u2" since [] w' = (w'', Ok (Some rows)) →
      Forall (λ d, Draft_ChatID d ≠ "c1") rows.
Proof.
  split; [by vm_compute|].
  assert (sgood (SocialLaws := deployed_laws) w_drafting) as Hg.
  { assert (d_svc w_drafting = (roleOf (w_ticks 1) (w_ticks 1) "c1" "u2" w_group).1) as E by by vm_compute.
    change (reachable (d_svc w_drafting)). rewrite E. by apply r_role; [apply w_group_reachable|]. }
  apply (cleared_draft_unsynced (H0 := deployed_laws) w_at "u2" "c1" 9 w_drafting Hg eq_refl); [by vm_compute|].
  intros c' d. assert (drafts_of "u2" (tbl w_drafting) = {["c1" := mkDraft "u2" "c1" "dear all" "" 5]}) as ->
    by by vm_compute.
  intros [<- <-]%lookup_singleton_Some. done.
Defined.
End witnesses.
