(* ===== verification/Poll.v ===== *)
(** * Polls

    [internal/poll] poll.go and [internal/store/memory] polls.go: a question with fixed
    options, one vote or several per member, and a tally published after every change. *)

From S2P Require Import Prelude Bytes Utf8 GoStrings EventBus Model MemChats MemAccounts ChatService Social.

Record Poll := mkPoll {
  Poll_ID : string;
  Poll_ChatID : string;
  Poll_MessageID : string;
  Poll_CreatorID : string;
  Poll_Question : string;
  Poll_Options : list string;
  Poll_MultiChoice : bool;
  Poll_Anonymous : bool;
  Poll_Closed : bool;
  Poll_CreatedAt : Z;
}.

Definition close (p : Poll) : Poll :=
  mkPoll (Poll_ID p) (Poll_ChatID p) (Poll_MessageID p) (Poll_CreatorID p) (Poll_Question p)
    (Poll_Options p) (Poll_MultiChoice p) (Poll_Anonymous p) true (Poll_CreatedAt p).

Record PollVote := mkPollVote {
  Vote_PollID : string;
  Vote_UserID : string;
  Vote_OptionIndex : Z;
  Vote_CreatedAt : Z;
}.

Record PollOption := mkPollOption { PollOption_Index : Z; PollOption_Text : string; PollOption_Votes : Z }.
Record PollStateBody := mkPollState {
  PollState_PollID : string;
  PollState_ChatID : string;
  PollState_MessageID : string;
  PollState_Question : string;
  PollState_Options : list PollOption;
  PollState_TotalVotes : Z;
  PollState_MultiChoice : bool;
  PollState_Anonymous : bool;
  PollState_Closed : bool;
  PollState_MyVotes : list Z;
}.

Definition MaxQuestionLen : Z := 300.
Definition MaxOptionLen : Z := 100.
Definition MinOptions : Z := 2.
Definition MaxOptions : Z := 10.

(** [pollVotes] is poll → user → the options picked, a set as [map[int32]bool]. *)
Record PollTables := mkPollTables {
  polls : gmap string Poll;
  pollByMsg : gmap string string;
  pollVotes : gmap string (gmap string (gmap Z bool));
}.

(** ** The store *)

Definition CreatePoll (p : Poll) : M PollTables unit :=
  modify (λ d, mkPollTables (<[Poll_ID p := p]> (polls d)) (<[Poll_MessageID p := Poll_ID p]> (pollByMsg d))
                 (pollVotes d)).

Definition GetPoll (id : string) : M PollTables Poll := d ← get; found (polls d) id.

Definition GetPollByMessage (messageID : string) : M PollTables Poll :=
  d ← get;
  id ← found (pollByMsg d) messageID;
  GetPoll id.

Definition ClosePoll (id : string) : M PollTables unit :=
  d ← get;
  p ← found (polls d) id;
  modify (λ d, mkPollTables (<[id := close p]> (polls d)) (pollByMsg d) (pollVotes d)).

Definition voters (pollID : string) (d : PollTables) : gmap string (gmap Z bool) := default ∅ (pollVotes d !! pollID).
Definition picks (pollID userID : string) (d : PollTables) : gmap Z bool := default ∅ (voters pollID d !! userID).
Definition put_picks (pollID userID : string) (cur : gmap Z bool) (d : PollTables) : PollTables :=
  mkPollTables (polls d) (pollByMsg d) (<[pollID := <[userID := cur]> (voters pollID d)]> (pollVotes d)).

Definition Vote_ (v : PollVote) (multiChoice : bool) : M PollTables bool :=
  d ← get;
  p ← found (polls d) (Vote_PollID v);
  guard_or (negb (Poll_Closed p)) store_ErrPollClosed;;
  let cur := picks (Vote_PollID v) (Vote_UserID v) d in
  let set_cur m := modify (put_picks (Vote_PollID v) (Vote_UserID v) m) in
  if multiChoice && default false (cur !! Vote_OptionIndex v) then
    set_cur (delete (Vote_OptionIndex v) cur);;
    mret false
  else
    set_cur (<[Vote_OptionIndex v := true]> (if multiChoice then cur else ∅));;
    mret true.

Section poll.
Context `{RangeOrder} `{Unicode}.

(** [for idx := range opts { out[idx]++ }] for each voter. *)
Definition tally_of (votes : gmap string (gmap Z bool)) : gmap Z Z :=
  foldl (λ out (e : string * gmap Z bool), tally_by id (range_keys e.2) out) ∅ (range_map votes).
Definition Tally (pollID : string) : M PollTables (gmap Z Z) := gets (λ d, tally_of (voters pollID d)).

Definition VotedOptions (pollID userID : string) : M PollTables (list Z) :=
  gets (λ d, merge_sort Z.le (range_keys (picks pollID userID d))).

(** ** The service *)

Fixpoint valid_options (seen : gset string) (options : list string) : bool :=
  match options with
  | [] => true
  | o :: options =>
      let o := TrimSpace (sbytes o) in
      if bool_decide (o = []) || (MaxOptionLen <? RuneCount o) then false
      else if bool_decide (bstring o ∈ seen) then false
      else valid_options ({[bstring o]} ∪ seen) options
  end.

Definition validate (question : string) (options : list string) : bool :=
  let q := TrimSpace (sbytes question) in
  if bool_decide (q = []) || (MaxQuestionLen <? RuneCount q) then false
  else if (len options <? MinOptions) || (MaxOptions <? len options) then false
  else valid_options ∅ options.

Record CreateInput := mkCreateInput {
  In_ChatID : string;
  In_MessageID : string;
  In_CreatorID : string;
  In_Question : string;
  In_Options : list string;
  In_MultiChoice : bool;
  In_Anonymous : bool;
}.

(** The wire view of a poll, given its tally. *)
Definition poll_view (p : Poll) (mine : list Z) (tally : gmap Z Z) : PollStateBody :=
  mkPollState (Poll_ID p) (Poll_ChatID p) (Poll_MessageID p) (Poll_Question p)
    (imap (λ i text, mkPollOption (i32 (Z.of_nat i)) text (i32 (default 0 (tally !! i32 (Z.of_nat i))))) (Poll_Options p))
    (i32 (zsum (range_map tally).*2))
    (Poll_MultiChoice p) (Poll_Anonymous p) (Poll_Closed p) mine.

Section service.
Context {T W : Type} `{!ChatAuthority T W} `{!Table PollTables W} `{!Bus PollStateBody W}.
Variable trace : Headers.

Definition state (p : Poll) (mine : list Z) : M W PollStateBody :=
  tally ← on_tbl (Tally (Poll_ID p));
  mret (poll_view p mine tally).

Definition broadcast (p : Poll) (mine : list Z) : M W unit :=
  body ← state p mine;
  attempt (Publish (mkEvent SubjPollState (Poll_ChatID p) body trace));;
  mret tt.

(** [newID] is what the id generator hands out. *)
Definition Create (t : T) (in_ : CreateInput) (newID : string) (now : Z) : M W Poll :=
  guard_or (validate (In_Question in_) (In_Options in_)) poll_ErrBadPoll;;
  member ← ca_IsMember t (In_ChatID in_) (In_CreatorID in_);
  guard_or member poll_ErrForbidden;;
  let p := mkPoll newID (In_ChatID in_) (In_MessageID in_) (In_CreatorID in_)
    (bstring (TrimSpace (sbytes (In_Question in_)))) (In_Options in_) (In_MultiChoice in_) (In_Anonymous in_)
    false now in
  on_tbl (CreatePoll p);;
  broadcast p [];;
  mret p.

Definition Vote (t : T) (pollID userID : string) (option : Z) (now : Z) : M W Poll :=
  p ← on_tbl (GetPoll pollID);
  guard_or (negb (Poll_Closed p)) poll_ErrClosed;;
  guard_or (negb ((option <? 0) || (len (Poll_Options p) <=? option))) poll_ErrBadOption;;
  member ← ca_IsMember t (Poll_ChatID p) userID;
  guard_or member poll_ErrForbidden;;
  r ← attempt (on_tbl (Vote_ (mkPollVote pollID userID option now) (Poll_MultiChoice p)));
  match r with
  | Err store_ErrPollClosed => fail poll_ErrClosed
  | Err e => fail e
  | Ok _ => broadcast p [];; mret p
  end.

Definition Close (pollID userID : string) : M W Poll :=
  p ← on_tbl (GetPoll pollID);
  guard_or (bool_decide (Poll_CreatorID p = userID)) poll_ErrForbidden;;
  on_tbl (ClosePoll pollID);;
  broadcast (close p) [];;
  mret (close p).

Definition Results (t : T) (pollID userID : string) : M W PollStateBody :=
  p ← on_tbl (GetPoll pollID);
  member ← ca_IsMember t (Poll_ChatID p) userID;
  guard_or member poll_ErrForbidden;;
  mine ← on_tbl (VotedOptions pollID userID);
  state p mine.

Definition ByMessage (messageID : string) : M W Poll := on_tbl (GetPollByMessage messageID).
End service.

(** The writes the service makes, one store call at a time: calls of different users
    interleave between them.  A vote is written with what an earlier read of the poll
    returned. *)
Inductive write : PollTables → PollTables → Prop :=
  | w_create p d :
      polls d !! Poll_ID p = None → len (Poll_Options p) ≤ MaxOptions → Poll_Closed p = false →
      write d (CreatePoll p d).1
  | w_close id d : write d (ClosePoll id d).1
  | w_vote v p0 p d :
      polls d !! Vote_PollID v = Some p → p = p0 ∨ p = close p0 →
      0 ≤ Vote_OptionIndex v < len (Poll_Options p0) →
      write d (Vote_ v (Poll_MultiChoice p0) d).1.

(** Every vote is for an option of its poll, and a single-choice poll has one per user. *)
Definition tables_ok (d : PollTables) : Prop :=
  (∀ pid p u, polls d !! pid = Some p →
     (∀ i b, picks pid u d !! i = Some b → b = true ∧ 0 ≤ i < len (Poll_Options p)) ∧
     (Poll_MultiChoice p = false → (size (picks pid u d) ≤ 1)%nat) ∧ len (Poll_Options p) ≤ MaxOptions) ∧
  (∀ pid, polls d !! pid = None → voters pid d = ∅).

(** ** Lemmas *)

(** What a vote makes of the voter's picks. *)
Definition voted (multi : bool) (i : Z) (cur : gmap Z bool) : gmap Z bool :=
  if multi && default false (cur !! i) then delete i cur else <[i := true]> (if multi then cur else ∅).

Lemma voters_put pid u cur d pid' :
  voters pid' (put_picks pid u cur d) = if decide (pid' = pid) then <[u := cur]> (voters pid d) else voters pid' d.
Proof.
  unfold voters, put_picks. cbn. destruct (decide (pid' = pid)) as [->|].
  - by rewrite lookup_insert_eq.
  - by rewrite lookup_insert_ne by done.
Qed.

Lemma picks_put pid u cur d pid' u' :
  picks pid' u' (put_picks pid u cur d) = if decide (pid' = pid ∧ u' = u) then cur else picks pid' u' d.
Proof.
  unfold picks. rewrite voters_put. destruct (decide (pid' = pid)) as [->|].
  - destruct (decide (u' = u)) as [->|].
    + by rewrite decide_True, lookup_insert_eq.
    + by rewrite decide_False, lookup_insert_ne by intuition congruence.
  - by rewrite decide_False by intuition congruence.
Qed.

Lemma Vote__run v multi d :
  Vote_ v multi d =
  match polls d !! Vote_PollID v with
  | None => (d, Err store_ErrNotFound)
  | Some p =>
      if Poll_Closed p then (d, Err store_ErrPollClosed) else
      let cur := picks (Vote_PollID v) (Vote_UserID v) d in
      (put_picks (Vote_PollID v) (Vote_UserID v) (voted multi (Vote_OptionIndex v) cur) d,
       Ok (negb (multi && default false (cur !! Vote_OptionIndex v))))
  end.
Proof.
  unfold Vote_. rewrite (bind_Ok _ _ _ d d), M_bind_eq by done. unfold found.
  destruct (polls d !! _) as [p|]; [|done]. cbn [mret M_ret]. rewrite M_bind_eq. unfold guard_or.
  destruct (Poll_Closed p); [done|]. cbn [negb]. unfold voted. cbv zeta. cbn [mret M_ret].
  by destruct (multi && _).
Qed.

Lemma ClosePoll_run id d :
  ClosePoll id d =
  match polls d !! id with
  | None => (d, Err store_ErrNotFound)
  | Some p => (mkPollTables (<[id := close p]> (polls d)) (pollByMsg d) (pollVotes d), Ok tt)
  end.
Proof.
  unfold ClosePoll. rewrite (bind_Ok _ _ _ d d), M_bind_eq by done. unfold found. by destruct (polls d !! id).
Qed.

Lemma voted_ok multi i cur n :
  0 ≤ i < n → (∀ j b, cur !! j = Some b → b = true ∧ 0 ≤ j < n) →
  (∀ j b, voted multi i cur !! j = Some b → b = true ∧ 0 ≤ j < n) ∧
  (multi = false → (size (voted multi i cur) ≤ 1)%nat).
Proof.
  intros Hi Hc. unfold voted. split.
  - intros j b. destruct (multi && _).
    + intros [_ Hj]%lookup_delete_Some. by apply Hc.
    + rewrite lookup_insert_Some. intros [[<- <-]|[Hne Hj]]; [done|].
      destruct multi; [by apply Hc | by rewrite lookup_empty in Hj].
  - intros ->. cbn. rewrite map_size_insert, lookup_empty. cbn. by rewrite map_size_empty.
Qed.

Lemma write_ok d d' : write d d' → tables_ok d → tables_ok d'.
Proof.
  intros [p d0 Hnew Hlen Hcl|id d0|v p0 p d0 Hp Hp0 Hi] [Hok Hno].
  - split.
    + intros pid q u. change (picks pid u (CreatePoll p d0).1) with (picks pid u d0).
      cbn. rewrite lookup_insert_Some. intros [[<- <-]|[Hne Hq]]; [|by apply Hok].
      unfold picks. rewrite Hno, lookup_empty by done. cbn. split_and!; [done| |done].
      rewrite map_size_empty. lia.
    + intros pid. cbn. rewrite lookup_insert_None. intros [Hq _]. by apply Hno.
  - rewrite ClosePoll_run. destruct (polls d0 !! id) as [p|] eqn:Ep; [|by split]. cbn [fst]. split.
    + intros pid q u. cbn. rewrite lookup_insert_Some. intros [[<- <-]|[Hne Hq]]; [|by apply Hok].
      by apply (Hok id p u).
    + intros pid. cbn. rewrite lookup_insert_None. intros [Hq _]. by apply Hno.
  - rewrite Vote__run, Hp. destruct (Poll_Closed p); [by split|]. cbn [fst]. split.
    + intros pid q u Hq. rewrite picks_put. destruct (decide _) as [[-> ->]|]; [|by apply Hok].
      cbn in Hq. rewrite Hp in Hq. injection Hq as <-.
      destruct (Hok _ _ (Vote_UserID v) Hp) as (Hr & _ & Hlen).
      assert (Poll_Options p = Poll_Options p0 ∧ Poll_MultiChoice p = Poll_MultiChoice p0) as [Ho Hm]
        by (destruct Hp0; by subst).
      rewrite Ho in *. rewrite Hm. destruct (voted_ok (Poll_MultiChoice p0) _ _ _ Hi Hr). done.
    + intros pid Hq. rewrite voters_put. cbn in Hq. rewrite decide_False by congruence. by apply Hno.
Qed.

Lemma writes_ok d d' : rtc write d d' → tables_ok d → tables_ok d'.
Proof. induction 1; eauto using write_ok. Qed.

Lemma tables_ok_new : tables_ok (mkPollTables ∅ ∅ ∅).
Proof. split; [by intros pid p u [=] | done]. Qed.

Lemma write_frozen d d' pid p :
  write d d' → polls d !! pid = Some p → Poll_Closed p = true →
  polls d' !! pid = Some p ∧ voters pid d' = voters pid d.
Proof.
  intros [q d0 Hnew Hlen Hcl|id d0|v p0 q d0 Hq Hp0 Hi] Hp Hc.
  - split; [|done]. cbn. rewrite lookup_insert_ne by congruence. done.
  - rewrite ClosePoll_run. destruct (polls d0 !! id) as [q|] eqn:Eq; [|done]. cbn [fst polls]. split; [|done].
    destruct (decide (id = pid)) as [->|]; [|by rewrite lookup_insert_ne].
    rewrite lookup_insert_eq. rewrite Hp in Eq. injection Eq as <-. destruct p; cbn in *. by subst.
  - rewrite Vote__run, Hq. destruct (Poll_Closed q) eqn:Eq; [done|]. cbn [fst]. split; [done|].
    rewrite voters_put, decide_False by congruence. done.
Qed.

(** *** The tally *)

Lemma count_key (m : gmap Z bool) i :
  len (filter (λ j, j = i) (range_keys m)) = if decide (is_Some (m !! i)) then 1 else 0.
Proof.
  destruct (decide (is_Some (m !! i))) as [[b Hb]|Hn].
  - unfold range_keys. rewrite (range_map_delete m i b Hb). cbn [fmap list_fmap fst].
    rewrite filter_cons_True, len_cons by done. rewrite filter_none, len_nil; [done|].
    apply Forall_forall. intros j Hj ->. change (i ∈ range_keys (delete i m)) in Hj.
    apply elem_of_range_keys in Hj as [c Hc]. by rewrite lookup_delete_eq in Hc.
  - rewrite filter_none; [done|]. apply Forall_forall. by intros j Hj%elem_of_range_keys ->.
Qed.

Definition all_picks (votes : gmap string (gmap Z bool)) : list Z :=
  (range_map votes) ≫= λ e, range_keys e.2.

Lemma tally_of_picks votes : tally_of votes = tally_by id (all_picks votes) ∅.
Proof.
  unfold tally_of, all_picks. generalize (range_map votes) (∅ : gmap Z Z).
  intros l. induction l as [|e l IH]; intros out; [done|]. cbn [foldl mbind list_bind].
  rewrite tally_by_app. apply IH.
Qed.

(** The users who picked an option. *)
Definition picked (i : Z) (votes : gmap string (gmap Z bool)) : Z :=
  len (filter (λ e : string * gmap Z bool, is_Some (e.2 !! i)) (range_map votes)).

Lemma picked_filter votes i : picked i votes = len (filter (λ x, x = i) (all_picks votes)).
Proof.
  unfold picked, all_picks. induction (range_map votes) as [|e l IH]; [done|].
  rewrite bind_cons, filter_app, len_app, count_key, filter_cons, <- IH.
  destruct (decide (is_Some (e.2 !! i))); rewrite ?len_cons; lia.
Qed.

Lemma tally_count votes i : default 0 (tally_of votes !! i) = picked i votes.
Proof.
  rewrite tally_of_picks, tally_by_lookup, picked_filter. unfold id. cbv zeta.
  destruct (Z.eqb_spec (len (filter (λ x, x = i) (all_picks votes))) 0) as [->|]; done.
Qed.

Lemma tally_total votes : zsum (range_map (tally_of votes)).*2 = len (all_picks votes).
Proof. rewrite tally_of_picks, tally_by_sum, range_map_empty. cbn. lia. Qed.

Lemma elem_of_all_picks votes i :
  i ∈ all_picks votes ↔ ∃ u m, votes !! u = Some m ∧ is_Some (m !! i).
Proof.
  unfold all_picks. rewrite list_elem_of_bind. split.
  - intros ([u m] & Hi & Hin). exists u, m. cbn in *. by rewrite <- elem_of_range_keys, <- elem_of_range_map.
  - intros (u & m & Hu & Hi). exists (u, m). cbn. by rewrite elem_of_range_keys, elem_of_range_map.
Qed.

(** One pick per voter at most, where each voter has at most one. *)
Lemma all_picks_single votes :
  (∀ u m, votes !! u = Some m → (size m ≤ 1)%nat) → len (all_picks votes) ≤ maplen votes.
Proof.
  intros H1. unfold all_picks, maplen. rewrite <- length_range_map.
  assert (Forall (λ e : string * gmap Z bool, (size e.2 ≤ 1)%nat) (range_map votes)) as Hl.
  { apply Forall_forall. intros [u m] Hin%elem_of_range_map. by apply (H1 u). }
  induction Hl as [|e l He _ IH]; [done|]. rewrite bind_cons, len_app. cbn [length].
  unfold len at 1. unfold range_keys at 1. rewrite length_fmap, length_range_map. cbv beta in He. lia.
Qed.

Lemma picked_le votes i : 0 ≤ picked i votes ≤ len (all_picks votes).
Proof. rewrite picked_filter. split; [apply len_nonneg | apply inj_le, length_filter]. Qed.
End poll.

(** ** The calls, as writes *)

Section calls.
Context `{RangeOrder} `{Unicode} `{SocialLaws T PollTables PollStateBody W}.
Variable trace : Headers.
Implicit Types w : W.

Lemma GetPoll_bind {A} pid (f : Poll → M W A) w :
  (on_tbl (GetPoll pid) ≫= f) w =
  match polls (tbl w) !! pid with
  | Some p => f p (set_tbl (tbl w) w)
  | None => (set_tbl (tbl w) w, Err store_ErrNotFound)
  end.
Proof.
  rewrite M_bind_eq, on_tbl_eq. unfold GetPoll. rewrite (bind_Ok _ _ _ (tbl w) (tbl w)) by done.
  unfold found. by destruct (polls (tbl w) !! pid).
Qed.

Lemma state_run p mine w :
  state p mine w = (set_tbl (tbl w) w, Ok (poll_view p mine (tally_of (voters (Poll_ID p) (tbl w))))).
Proof. unfold state. by rewrite M_bind_eq, on_tbl_eq. Qed.

Lemma broadcast_poll_run p mine w : sgood w → ∃ w', broadcast trace p mine w = (w', Ok tt) ∧ tables (tbl w) w w'.
Proof.
  intros Hw. unfold broadcast. rewrite M_bind_eq, state_run, M_bind_eq. unfold attempt. set (e := mkEvent _ _ _ _).
  pose proof (tables_publish e (tbl w) w Hw) as Hp.
  destruct (Publish e (set_tbl (tbl w) w)) as [w' r]. by exists w'.
Qed.

(** A vote, on every branch. *)
Lemma Vote_run t pid u i now w p :
  sgood w → polls (tbl w) !! pid = Some p → no_bar (Poll_ChatID p) = true →
  ∃ w' r d', Vote trace t pid u i now w = (w', r) ∧ tables d' w w' ∧
    if Poll_Closed p then r = Err poll_ErrClosed ∧ d' = tbl w
    else if (i <? 0) || (len (Poll_Options p) <=? i) then r = Err poll_ErrBadOption ∧ d' = tbl w
    else match says_member (says w (Poll_ChatID p) u) with
         | Ok true => r = Ok p ∧ d' = (Vote_ (mkPollVote pid u i now) (Poll_MultiChoice p) (tbl w)).1
         | Ok false => r = Err poll_ErrForbidden ∧ d' = tbl w
         | Err e => r = Err e ∧ d' = tbl w
         end.
Proof.
  intros Hw Hp Hb. unfold Vote. rewrite GetPoll_bind, Hp.
  pose proof (tables_set (tbl w) w Hw) as Hset. set (w1 := set_tbl (tbl w) w) in *.
  destruct (Poll_Closed p) eqn:Ec.
  { exists w1, (Err poll_ErrClosed), (tbl w). by rewrite (bind_Err _ _ _ w1 poll_ErrClosed). }
  rewrite (bind_Ok _ _ _ w1 tt) by done. destruct (_ || _).
  { exists w1, (Err poll_ErrBadOption), (tbl w). by rewrite (bind_Err _ _ _ w1 poll_ErrBadOption). }
  rewrite (bind_Ok _ _ _ w1 tt) by done. destruct Hset as (Hg1 & Ht1 & Hs1).
  destruct (IsMember_says t (Poll_ChatID p) u w1 Hg1 Hb) as (w2 & Hm & Hq). rewrite Hs1 in Hm.
  assert (tables (tbl w) w w2) as (Hg2 & Ht2 & Hs2)
    by (eapply tables_then_quiet; [by split_and!|done]).
  destruct (says_member _) as [[]|e].
  2: { exists w2, (Err poll_ErrForbidden), (tbl w). rewrite (bind_Ok _ _ _ w2 false) by done. by split_and!. }
  2: { exists w2, (Err e), (tbl w). rewrite (bind_Err _ _ _ w2 e) by done. by split_and!. }
  rewrite (bind_Ok _ _ _ w2 true), (bind_Ok _ _ _ w2 tt), M_bind_eq by done. unfold attempt.
  rewrite on_tbl_eq, Ht2, Vote__run. cbn [Vote_PollID]. rewrite Hp, Ec. cbn [fst snd]. set (d' := put_picks _ _ _ _).
  destruct (tables_set d' w2 Hg2) as (Hg3 & Ht3 & Hs3).
  destruct (broadcast_poll_run p [] (set_tbl d' w2) Hg3) as (w4 & Hbc & Hg4 & Ht4 & Hs4).
  rewrite (bind_Ok _ _ _ w4 tt) by done. exists w4, (Ok p), d'. split; [done|].
  split; [|done]. split; [done|]. split; [congruence|]. intros. by rewrite Hs4, Hs3, Hs2.
Qed.

Lemma Vote_writes t pid u i now w :
  sgood w → (∀ p, polls (tbl w) !! pid = Some p → no_bar (Poll_ChatID p) = true) →
  rtc write (tbl w) (tbl (Vote trace t pid u i now w).1).
Proof.
  intros Hw Hb. destruct (polls (tbl w) !! pid) as [p|] eqn:Hp.
  2: { unfold Vote. rewrite GetPoll_bind, Hp. cbn [fst]. by rewrite tbl_set. }
  destruct (Vote_run t pid u i now w p Hw Hp (Hb p eq_refl)) as (w' & r & d' & -> & (_ & Ht & _) & Hr). cbn [fst].
  rewrite Ht. destruct (Poll_Closed p); [destruct Hr as [_ ->]; reflexivity|].
  destruct (_ || _) eqn:Ei; [destruct Hr as [_ ->]; reflexivity|].
  apply orb_false_iff in Ei as [E1%Z.ltb_ge E2%Z.leb_gt].
  destruct (says_member _) as [[]|e]; destruct Hr as [_ ->]; [|reflexivity..].
  apply rtc_once. eapply w_vote; [exact Hp | by left | done].
Qed.

Lemma Close_writes pid u w :
  sgood w → rtc write (tbl w) (tbl (Close trace pid u w).1).
Proof.
  intros Hw. unfold Close. rewrite GetPoll_bind. destruct (polls (tbl w) !! pid) as [p|] eqn:Hp.
  2: { cbn [fst]. by rewrite tbl_set. }
  destruct (bool_decide _).
  2: { rewrite (bind_Err _ _ _ (set_tbl (tbl w) w) poll_ErrForbidden) by done. cbn [fst]. by rewrite tbl_set. }
  rewrite (bind_Ok _ _ _ (set_tbl (tbl w) w) tt), M_bind_eq, on_tbl_eq, tbl_set, set_set by done.
  set (d' := (ClosePoll pid (tbl w)).1). assert (rtc write (tbl w) d') as Hd by apply rtc_once, w_close.
  destruct (tables_set d' w Hw) as (Hg & Ht & _).
  destruct (ClosePoll pid (tbl w)).2 as [[]|e]; [|by rewrite <- Ht in Hd].
  destruct (broadcast_poll_run (close p) [] (set_tbl d' w) Hg) as (w' & Hbc & _ & Ht' & _).
  rewrite (bind_Ok _ _ _ w' tt) by done. cbn [mret M_ret fst]. by rewrite Ht', Ht.
Qed.

Lemma validate_options q os : validate q os = true → len os ≤ MaxOptions.
Proof.
  unfold validate. destruct (_ || _); [done|]. destruct (len os <? MinOptions); [done|]. cbn [orb].
  destruct (Z.ltb_spec MaxOptions (len os)); [done|lia].
Qed.

Lemma Create_writes t in_ newID now w :
  sgood w → no_bar (In_ChatID in_) = true → polls (tbl w) !! newID = None →
  rtc write (tbl w) (tbl (Create trace t in_ newID now w).1).
Proof.
  intros Hw Hb Hnew. unfold Create. destruct (validate _ _) eqn:Hv.
  2: { by rewrite (bind_Err _ _ _ w poll_ErrBadPoll). }
  rewrite (bind_Ok _ _ _ w tt) by done.
  destruct (IsMember_says t (In_ChatID in_) (In_CreatorID in_) w Hw Hb) as (w1 & Hm & Hg1 & Ht1 & _).
  rewrite M_bind_eq, Hm. destruct (says_member _) as [[]|e]; [| |cbn [fst]; by rewrite Ht1].
  2: { rewrite (bind_Err _ _ _ w1 poll_ErrForbidden) by done. cbn [fst]. by rewrite Ht1. }
  rewrite (bind_Ok _ _ _ w1 tt), M_bind_eq, on_tbl_eq, Ht1 by done. set (p := mkPoll _ _ _ _ _ _ _ _ _ _).
  destruct (tables_set (CreatePoll p (tbl w)).1 w1 Hg1) as (Hg & Ht & _). cbn [CreatePoll modify snd].
  destruct (broadcast_poll_run p [] (set_tbl (CreatePoll p (tbl w)).1 w1) Hg) as (w' & Hbc & _ & Ht' & _).
  rewrite (bind_Ok _ _ _ w' tt) by done. cbn [mret M_ret fst]. rewrite Ht', Ht.
  apply rtc_once, w_create; [done | | done]. by apply validate_options in Hv.
Qed.
End calls.

(** ** Theorems *)

Section theorems.
Context `{RangeOrder} `{Unicode} `{SocialLaws T PollTables PollStateBody W}.
Variable trace : Headers.
Implicit Types w : W.

(** A vote does what it says, or nothing.  On an open poll, for a member and an option
    of the poll, the voter then has that option alone — or, in a multi-choice poll, has it
    iff they did not have it before, their other picks as they were; nobody else's picks
    and no other poll change.  A closed poll, an option out of range and a non-member are
    refused, in this order, and change nothing. *)
Theorem Vote_exact t pid u i now w p :
  sgood w → tables_ok (tbl w) → polls (tbl w) !! pid = Some p → no_bar (Poll_ChatID p) = true →
  let w' := (Vote trace t pid u i now w).1 in
  let r := (Vote trace t pid u i now w).2 in
  if Poll_Closed p then r = Err poll_ErrClosed ∧ tbl w' = tbl w
  else if (i <? 0) || (len (Poll_Options p) <=? i) then r = Err poll_ErrBadOption ∧ tbl w' = tbl w
  else match says_member (says w (Poll_ChatID p) u) with
       | Ok true =>
           r = Ok p ∧ polls (tbl w') = polls (tbl w) ∧
           (∀ j, is_Some (picks pid u (tbl w') !! j) ↔
                 if Poll_MultiChoice p
                 then (if decide (j = i) then ¬ is_Some (picks pid u (tbl w) !! j)
                       else is_Some (picks pid u (tbl w) !! j))
                 else j = i) ∧
           (∀ pid' u', (pid', u') ≠ (pid, u) → picks pid' u' (tbl w') = picks pid' u' (tbl w))
       | Ok false => r = Err poll_ErrForbidden ∧ tbl w' = tbl w
       | Err e => r = Err e ∧ tbl w' = tbl w
       end.
Proof.
  intros Hw [Hok _] Hp Hb. destruct (Vote_run trace t pid u i now w p Hw Hp Hb) as (w' & r & d' & -> & (_ & Ht & _) & Hr).
  cbn [fst snd]. rewrite Ht. destruct (Poll_Closed p) eqn:Ec; [done|]. destruct (_ || _); [done|].
  destruct (says_member _) as [[]|e]; [|done..]. destruct Hr as [-> ->]. rewrite Vote__run. cbn [Vote_PollID].
  rewrite Hp, Ec. cbn [fst Vote_UserID Vote_OptionIndex]. split_and!; [done..| |].
  - intros j. rewrite picks_put, decide_True by done. unfold voted. set (cur := picks pid u (tbl w)).
    assert (∀ k, default false (cur !! k) = bool_decide (is_Some (cur !! k))) as Hcur.
    { intros k. destruct (cur !! k) as [b|] eqn:Ek; [|done]. by destruct (proj1 (Hok pid p u Hp) k b Ek) as [-> _]. }
    destruct (Poll_MultiChoice p); cbn [andb].
    + rewrite Hcur. destruct (decide (j = i)) as [->|Hne]; destruct (bool_decide_reflect (is_Some (cur !! i))).
      * rewrite lookup_delete_eq. split; [by intros [? ?] | done].
      * rewrite lookup_insert_eq. split; [done | eauto].
      * by rewrite lookup_delete_ne.
      * by rewrite lookup_insert_ne.
    + rewrite lookup_insert_is_Some', lookup_empty. split; [intros [->|[? ?]]; done | by left].
  - intros pid' u' Hne. rewrite picks_put, decide_False by (intros [-> ->]; by apply Hne). done.
Qed.

(** The published numbers are the votes.  Through any interleaving of creations, closes
    and votes, for every poll: the votes shown for an option are the users who picked it,
    they add up to the total, and with a single choice the total is at most one per voter
    — as long as the picks of one poll stay below 2^31. *)
Theorem poll_adds_up d pid p mine :
  rtc write (mkPollTables ∅ ∅ ∅) d → polls d !! pid = Some p → len (all_picks (voters pid d)) < 2 ^ 31 →
  let body := poll_view p mine (tally_of (voters pid d)) in
  (∀ k o, PollState_Options body !! k = Some o →
     PollOption_Index o = Z.of_nat k ∧ PollOption_Votes o = picked (Z.of_nat k) (voters pid d)) ∧
  zsum (PollOption_Votes <$> PollState_Options body) = PollState_TotalVotes body ∧
  (Poll_MultiChoice p = false → PollState_TotalVotes body ≤ maplen (voters pid d)).
Proof.
  intros Hd Hp Hlt. pose proof (writes_ok _ _ Hd tables_ok_new) as [Hok _].
  assert (len (Poll_Options p) ≤ MaxOptions) as Hn by by apply (Hok pid p "" Hp). unfold MaxOptions in Hn.
  pose proof (len_nonneg (all_picks (voters pid d))) as Hnn. set (votes := voters pid d) in *.
  assert (∀ j, i32 (default 0 (tally_of votes !! j)) = picked j votes) as Hv.
  { intros j. rewrite tally_count. pose proof (picked_le votes j). apply i32_small. lia. }
  assert (∀ k o, PollState_Options (poll_view p mine (tally_of votes)) !! k = Some o →
    PollOption_Index o = Z.of_nat k ∧ PollOption_Votes o = picked (Z.of_nat k) votes) as Ho.
  { intros k o. cbn. rewrite list_lookup_imap. destruct (Poll_Options p !! k) as [text|] eqn:Ek; [|done]. cbn.
    intros [= <-]. cbn. apply lookup_lt_Some in Ek. rewrite i32_small by (unfold len in Hn; lia). by rewrite Hv. }
  assert (i32 (zsum (range_map (tally_of votes)).*2) = len (all_picks votes)) as Htot.
  { rewrite tally_total. apply i32_small. lia. }
  cbv zeta. split_and!; [exact Ho | | ].
  - cbn [PollState_TotalVotes poll_view]. rewrite Htot, <- (count_by_value _ (len (Poll_Options p))).
    + f_equal. apply list_eq. intros k. rewrite !list_lookup_fmap.
      destruct (PollState_Options _ !! k) as [o|] eqn:Eo.
      * cbn [fmap option_fmap option_map]. rewrite (proj2 (Ho k o Eo)), picked_filter.
        cbn in Eo. apply lookup_lt_Some in Eo. rewrite length_imap in Eo.
        rewrite lookup_seqZ_lt by (unfold len; lia). done.
      * cbn in Eo. apply lookup_ge_None in Eo. rewrite length_imap in Eo.
        rewrite lookup_seqZ_ge by (unfold len; lia). done.
    + apply len_nonneg.
    + apply Forall_forall. intros i (u & m & Hu & [b Hb])%elem_of_all_picks.
      apply (proj1 (Hok pid p u Hp) i b). unfold picks. fold votes. by rewrite Hu.
  - intros Hm. cbn [PollState_TotalVotes poll_view]. rewrite Htot.
    apply all_picks_single. intros u m Hu. destruct (Hok pid p u Hp) as (_ & Hone & _). unfold picks in Hone.
    fold votes in Hone. rewrite Hu in Hone. by apply Hone.
Qed.

(** A closed poll is frozen.  Whatever was already on its way — a vote that read the
    poll as open, other closes, new polls — the poll stays closed and no vote in it
    changes. *)
Theorem closed_poll_frozen d d' pid p :
  polls d !! pid = Some p → Poll_Closed p = true → rtc write d d' →
  polls d' !! pid = Some p ∧ voters pid d' = voters pid d.
Proof.
  intros Hp Hc. induction 1 as [d|d d1 d' Hw _ IH]; [done|].
  destruct (write_frozen d d1 pid p Hw Hp Hc) as [Hp1 Hv1]. destruct (IH Hp1) as [Hp' Hv']. split; congruence.
Qed.
End theorems.

(** ** Witnesses: a poll in a group of [u1] and [u2]. *)
Section witnesses.
#[local] Existing Instance canonical_order.
#[local] Existing Instance ascii_tables.

Definition w_members : Service := (CreateGroup "u1" "ours" ChatGroup ["u2"] "c1" 0 (New 0 MemChats.New)).1.
Lemma w_members_reachable : reachable w_members.
Proof. apply r_group; [apply r_new | done | done | by repeat constructor]. Qed.

Abbreviation World := (Deployed PollTables PollStateBody).
Definition w_now : Ticks * Ticks := (w_ticks 1, w_ticks 1).
Definition w_lunch : Poll := mkPoll "p1" "c1" "m1" "u1" "Lunch?" ["Pizza"; "Sushi"] false false false 1.
Definition w_polls : PollTables := (CreatePoll w_lunch (mkPollTables ∅ ∅ ∅)).1.
Definition w_open : World := mkDeployed w_members w_polls [].
Definition w_voted : PollTables := (Vote_ (mkPollVote "p1" "u2" 1 2) false w_polls).1.
Definition w_closed : PollTables := (ClosePoll "p1" w_voted).1.

Lemma w_polls_writes : rtc write (mkPollTables ∅ ∅ ∅) w_polls.
Proof. by apply rtc_once, w_create. Qed.
Lemma w_voted_writes : rtc write (mkPollTables ∅ ∅ ∅) w_voted.
Proof.
  eapply rtc_r; [apply w_polls_writes|]. apply (w_vote (mkPollVote "p1" "u2" 1 2) w_lunch w_lunch);
    [by vm_compute | by left | done].
Qed.

Lemma Vote_exact_witness :
  (Vote ∅ w_now "p1" "u2" 1 2 w_open).2 = Ok w_lunch ∧
  (∀ j, is_Some (picks "p1" "u2" (tbl (Vote ∅ w_now "p1" "u2" 1 2 w_open).1) !! j) ↔ j = 1) ∧
  (Vote ∅ w_now "p1" "u9" 1 2 w_open).2 = Err poll_ErrForbidden.
Proof.
  pose proof (writes_ok _ _ w_polls_writes tables_ok_new) as Hok.
  pose proof (Vote_exact (H1 := deployed_laws) ∅ w_now "p1" "u2" 1 2 w_open w_lunch
    w_members_reachable Hok eq_refl eq_refl) as (Hr & _ & Hj & _).
  pose proof (Vote_exact (H1 := deployed_laws) ∅ w_now "p1" "u9" 1 2 w_open w_lunch
    w_members_reachable Hok eq_refl eq_refl) as (Hr' & _).
  exact (conj Hr (conj Hj Hr')).
Defined.

Lemma poll_adds_up_witness :
  zsum (PollOption_Votes <$> PollState_Options (poll_view w_lunch [] (tally_of (voters "p1" w_voted)))) = 1.
Proof.
  destruct (poll_adds_up w_voted "p1" w_lunch [] w_voted_writes) as (_ & Hs & _); [by vm_compute..|].
  rewrite Hs. by vm_compute.
Defined.

(** A vote that read the poll as open reaches the store after the close. *)
Lemma closed_poll_frozen_witness :
  voters "p1" (Vote_ (mkPollVote "p1" "u1" 0 3) false w_closed).1 = voters "p1" w_closed.
Proof.
  apply (closed_poll_frozen w_closed (Vote_ (mkPollVote "p1" "u1" 0 3) false w_closed).1 "p1" (close w_lunch));
    [by vm_compute | done |].
  apply rtc_once, (w_vote (mkPollVote "p1" "u1" 0 3) w_lunch (close w_lunch)); [by vm_compute | by right | done].
Defined.
End witnesses.
