(* ===== verification/Interleave.v ===== *)
(** * Calls as sequences of atomic actions

    A service method is not atomic: between two store calls of one request, other requests
    run.  A [prog] is a method cut at those points.  [exec] runs it alone, which gives its
    sequential meaning; [interleave] runs two against each other under a schedule. *)

From S2P Require Import Prelude.

Inductive prog (W A : Type) : Type :=
  | Done (r : result A)
  | Act (now : W → W) (next : W → prog W A).
Arguments Done {W A}.
Arguments Act {W A}.

(** [Act now next]: the action takes [w] to [now w]; the rest is [next w].  An atomic action
    is a call on a store, the bus, another service. *)
Definition act {W A} (m : M W A) : prog W A := Act (λ w, (m w).1) (λ w, Done (m w).2).

Fixpoint prog_bind_ {W A B} (f : A → prog W B) (p : prog W A) : prog W B :=
  match p with
  | Done (Ok a) => f a
  | Done (Err e) => Done (Err e)
  | Act now next => Act now (λ w, prog_bind_ f (next w))
  end.
#[global] Instance prog_ret {W} : MRet (prog W) := λ A a, Done (Ok a).
#[global] Instance prog_bind {W} : MBind (prog W) := λ A B, prog_bind_.

(** [v, err := m()]: go on with whatever came back. *)
Fixpoint settle_ {W A} (p : prog W A) : prog W (result A) :=
  match p with
  | Done r => Done (Ok r)
  | Act now next => Act now (λ w, settle_ (next w))
  end.

Fixpoint exec {W A} (p : prog W A) : M W A := λ w,
  match p with
  | Done r => (w, r)
  | Act now next => exec (next w) (now w)
  end.

(** The loop of a method over a slice. *)
Fixpoint each {W A} (f : A → prog W unit) (l : list A) : prog W unit :=
  match l with [] => mret tt | x :: l => f x;; each f l end.

(** [true] lets the left program make its next action, [false] the right one; a program
    that is done stays done. *)
Definition step_prog {W A} (w : W) (p : prog W A) : W * prog W A :=
  match p with Done r => (w, Done r) | Act now next => (now w, next w) end.
Fixpoint interleave {W A B} (schedule : list bool) (w : W) (p : prog W A) (q : prog W B)
    : W * prog W A * prog W B :=
  match schedule with
  | [] => (w, p, q)
  | true :: schedule => let '(w', p') := step_prog w p in interleave schedule w' p' q
  | false :: schedule => let '(w', q') := step_prog w q in interleave schedule w' p q'
  end.

Section lemmas.
Context {W : Type}.

Lemma exec_act {A} (m : M W A) w : exec (act m) w = m w.
Proof. cbn. by destruct (m w). Qed.

Lemma exec_bind {A B} (p : prog W A) (f : A → prog W B) w :
  exec (p ≫= f) w = match exec p w with (w', Ok a) => exec (f a) w' | (w', Err e) => (w', Err e) end.
Proof. revert w. induction p as [[a|e]|now next IH]; intros w; [done..|]. apply IH. Qed.

Lemma exec_act_bind {A B} (m : M W A) (f : A → prog W B) w :
  exec (act m ≫= f) w = match m w with (w', Ok a) => exec (f a) w' | (w', Err e) => (w', Err e) end.
Proof. by rewrite exec_bind, exec_act. Qed.

Lemma exec_settle {A} (p : prog W A) w : exec (settle_ p) w = attempt (exec p) w.
Proof. revert w. induction p as [r|now next IH]; intros w; [done|]. apply IH. Qed.

(** One action of a program that begins with [m]. *)
Lemma step_act {A B} (m : M W A) (f : A → prog W B) w w' a :
  m w = (w', Ok a) → step_prog w (act m ≫= f) = (w', f a).
Proof. intros E. cbn. by rewrite E. Qed.
End lemmas.

(** ** Any number of requests at once *)

(** A request, whatever it answers. *)
Definition request {W A} (p : prog W A) : prog W unit := settle_ p;; mret tt.

(** Some request of the pool makes its next action. *)
Inductive pool_step {W A} : W * list (prog W A) → W * list (prog W A) → Prop :=
  | pool_act i p w ps : ps !! i = Some p → pool_step (w, ps) ((step_prog w p).1, <[i := (step_prog w p).2]> ps).
(** The requests acting in the order of a schedule. *)
Fixpoint pool_run {W A} (schedule : list nat) (w : W) (ps : list (prog W A)) : W * list (prog W A) :=
  match schedule with
  | [] => (w, ps)
  | i :: schedule =>
      match ps !! i with
      | Some p => pool_run schedule (step_prog w p).1 (<[i := (step_prog w p).2]> ps)
      | None => pool_run schedule w ps
      end
  end.

(** A program all of whose actions are in a relation [R], whatever the others do meanwhile. *)
Inductive every {W} (R : W → W → Prop) {A} : prog W A → Prop :=
  | every_done r : every R (Done r)
  | every_act now next : (∀ w, R w (now w)) → (∀ w, every R (next w)) → every R (Act now next).

Lemma pool_run_steps {W A} schedule (w : W) (ps : list (prog W A)) : rtc pool_step (w, ps) (pool_run schedule w ps).
Proof.
  revert w ps. induction schedule as [|i schedule IH]; intros w ps; [apply rtc_refl|]. cbn [pool_run].
  destruct (ps !! i) as [p|] eqn:Hi; [|apply IH]. eapply rtc_l; [by apply pool_act | apply IH].
Qed.

Section every.
Context {W : Type} (R : W → W → Prop).

Lemma every_bind {A B} (p : prog W A) (f : A → prog W B) :
  every R p → (∀ a, every R (f a)) → every R (p ≫= f).
Proof.
  intros Hp Hf. induction Hp as [[a|e]|now next Hn _ IH]; [apply Hf | constructor | by constructor].
Qed.
Lemma every_settle {A} (p : prog W A) : every R p → every R (settle_ p).
Proof. induction 1; by constructor. Qed.
Lemma every_action {A} (m : M W A) : (∀ w, R w (m w).1) → every R (act m).
Proof. intros Hm. constructor; [done|]. intros w. constructor. Qed.
Lemma every_each {A} (f : A → prog W unit) l : (∀ x, every R (f x)) → every R (each f l).
Proof. intros Hf. induction l as [|x l IH]; [constructor|]. by apply every_bind. Qed.
Lemma every_request {A} (p : prog W A) : every R p → every R (request p).
Proof. intros Hp. apply every_bind; [by apply every_settle|]. intros a. constructor. Qed.
Lemma every_step `{!Reflexive R} {A} (p : prog W A) w :
  every R p → R w (step_prog w p).1 ∧ every R (step_prog w p).2.
Proof. intros [r|now next Hn Hx]; cbn; [split; [done | constructor] | done]. Qed.
End every.
