(* ===== verification/Call.v ===== *)
(** * Calls

    [internal/call] call.go and [internal/store/memory] calls.go: the call rooms of a chat,
    their rosters and lifecycle.  The methods are [prog]s, cut at their store calls: run
    alone by [exec], or two at a time by [interleave]. *)

From S2P Require Import Prelude EventBus Model MemChats MemAccounts ChatService Social Interleave.

Inductive CallKind := CallAudio | CallVideo | CallKind_other (s : string).
Inductive CallState := CallRinging | CallActive | CallEnded.
Inductive ParticipantState := PartInvited | PartJoined | PartLeft | PartDeclined.
#[global] Instance CallState_eq_dec : EqDecision CallState.
Proof. solve_decision. Defined.
#[global] Instance ParticipantState_eq_dec : EqDecision ParticipantState.
Proof. solve_decision. Defined.

Record Call := mkCall {
  Call_ID : string;
  Call_ChatID : string;
  Call_InitiatorID : string;
  Call_Kind : CallKind;
  Call_State : CallState;
  Call_CreatedAt : Z;
  Call_EndedAt : Z;
}.

Record CallParticipant := mkPart {
  Part_CallID : string;
  Part_UserID : string;
  Part_DeviceID : string;
  Part_State : ParticipantState;
  Part_JoinedAt : Z;
  Part_LeftAt : Z;
}.

(** [wire.CallStateBody]; a participant is sent as its user, device and state. *)
Record CallStateBody := mkCallState {
  CallState_CallID : string;
  CallState_ChatID : string;
  CallState_InitiatorID : string;
  CallState_Kind : CallKind;
  CallState_State : CallState;
  CallState_Participants : list (string * string * ParticipantState);
}.

Definition with_state (st : CallState) (endedAt : Z) (c : Call) : Call :=
  mkCall (Call_ID c) (Call_ChatID c) (Call_InitiatorID c) (Call_Kind c) st (Call_CreatedAt c) endedAt.

(** call → call, and call → user → participant. *)
Record CallTables := mkCallTables {
  calls : gmap string Call;
  callParts : gmap string (gmap string CallParticipant);
}.

(** ** The store *)

Definition CreateCall (c : Call) : M CallTables unit :=
  modify (λ d, mkCallTables (<[Call_ID c := c]> (calls d)) (callParts d)).

Definition GetCall (id : string) : M CallTables Call := d ← get; found (calls d) id.

Definition SetCallState (id : string) (st : CallState) (at_ : Z) : M CallTables unit :=
  d ← get;
  c ← found (calls d) id;
  let c' := with_state st (if bool_decide (st = CallEnded) then at_ else Call_EndedAt c) c in
  modify (λ d, mkCallTables (<[id := c']> (calls d)) (callParts d)).

(** [s.callParts[callID]], a nil map read as empty. *)
Definition roster (callID : string) (d : CallTables) : gmap string CallParticipant := default ∅ (callParts d !! callID).

Definition UpsertParticipant (p : CallParticipant) : M CallTables unit :=
  modify (λ d,
    let m := roster (Part_CallID p) d in
    let cp :=
      match m !! Part_UserID p with
      | Some prev => mkPart (Part_CallID p) (Part_UserID p) (Part_DeviceID p) (Part_State p)
          (if Part_JoinedAt p =? 0 then Part_JoinedAt prev else Part_JoinedAt p)
          (if Part_LeftAt p =? 0 then Part_LeftAt prev else Part_LeftAt p)
      | None => p
      end in
    mkCallTables (calls d) (<[Part_CallID p := <[Part_UserID p := cp]> m]> (callParts d))).

(** [sort.Slice] by [UserID]. *)
Definition user_le (p q : CallParticipant) : Prop := String.leb (Part_UserID p) (Part_UserID q) = true.
#[global] Instance user_le_dec : RelDecision user_le.
Proof. intros p q. unfold user_le. apply _. Defined.

Section call.
Context `{RangeOrder}.

Definition participants (callID : string) (d : CallTables) : list CallParticipant :=
  merge_sort user_le (range_map (roster callID d)).*2.
Definition ListParticipants (callID : string) : M CallTables (list CallParticipant) := gets (participants callID).

(** The newest call of the chat that has not ended. *)
Definition newest_live (chatID : string) (d : CallTables) : option Call :=
  foldl (λ newest (e : string * Call),
    let c := e.2 in
    if negb (bool_decide (Call_ChatID c = chatID)) || bool_decide (Call_State c = CallEnded) then newest
    else match newest with
         | None => Some c
         | Some n => if Call_CreatedAt n <? Call_CreatedAt c then Some c else newest
         end) None (range_map (calls d)).
Definition ActiveCallForChat (chatID : string) : M CallTables Call :=
  d ← get;
  match newest_live chatID d with Some c => mret c | None => fail store_ErrNotFound end.

(** ** The service *)

Section service.
Context {T W : Type} `{!ChatAuthority T W} `{!Table CallTables W} `{!Bus CallStateBody W}.
Variable trace : Headers.

(** A call on the store, as one action. *)
Definition tx {A} (m : M CallTables A) : prog W A := act (on_tbl m).
Definition raise {A} (e : error) : prog W A := Done (Err e).

Definition broadcast (c : Call) : prog W unit :=
  r ← settle_ (tx (ListParticipants (Call_ID c)));
  match r with
  | Err _ => mret tt
  | Ok parts =>
      let body := mkCallState (Call_ID c) (Call_ChatID c) (Call_InitiatorID c) (Call_Kind c) (Call_State c)
        ((λ p, (Part_UserID p, Part_DeviceID p, Part_State p)) <$> parts) in
      settle_ (act (Publish (mkEvent SubjCallState (Call_ChatID c) body trace)));;
      mret tt
  end.

Definition authorize (t : T) (c : Call) (userID : string) : prog W unit :=
  member ← act (ca_IsMember t (Call_ChatID c) userID);
  if member : bool then mret tt else raise call_ErrForbidden.

Definition authorizeParticipant (t : T) (c : Call) (userID : string) : prog W unit :=
  authorize t c userID;;
  parts ← tx (ListParticipants (Call_ID c));
  if existsb (λ p, bool_decide (Part_UserID p = userID)) parts then mret tt else raise call_ErrForbidden.

Definition Accept (t : T) (callID userID deviceID : string) (now : Z) : prog W Call :=
  c ← tx (GetCall callID);
  if bool_decide (Call_State c = CallEnded) then raise call_ErrCallEnded else
  authorize t c userID;;
  tx (UpsertParticipant (mkPart callID userID deviceID PartJoined now 0));;
  c ← (if bool_decide (Call_State c = CallRinging) then
         tx (SetCallState callID CallActive now);;
         mret (with_state CallActive (Call_EndedAt c) c)
       else mret c);
  broadcast c;;
  mret c.

(** [newID] is what the id generator hands out. *)
Definition Invite (t : T) (newID chatID initiatorID deviceID : string) (kind : CallKind) (now : Z) : prog W Call :=
  match kind with
  | CallKind_other _ => raise call_ErrBadKind
  | _ =>
      member ← act (ca_IsMember t chatID initiatorID);
      if negb member then raise call_ErrForbidden else
      r ← settle_ (tx (ActiveCallForChat chatID));
      match r with
      | Ok existing =>
          Accept t (Call_ID existing) initiatorID deviceID now;;
          tx (GetCall (Call_ID existing))
      | Err store_ErrNotFound =>
          let c := mkCall newID chatID initiatorID kind CallRinging now 0 in
          tx (CreateCall c);;
          tx (UpsertParticipant (mkPart newID initiatorID deviceID PartJoined now 0));;
          members ← act (ca_MemberIDs t chatID);
          each (λ uid,
            if bool_decide (uid = initiatorID) then mret tt
            else tx (UpsertParticipant (mkPart newID uid "" PartInvited 0 0))) members;;
          broadcast c;;
          mret c
      | Err e => raise e
      end
  end.

Definition count (st : ParticipantState) (parts : list CallParticipant) : Z :=
  len (filter (λ p, Part_State p = st) parts).

Definition settle (c : Call) (now : Z) : prog W unit :=
  parts ← tx (ListParticipants (Call_ID c));
  c ← (if (count PartJoined parts <? 2) && (count PartInvited parts =? 0)
          && negb (bool_decide (Call_State c = CallEnded)) then
         tx (SetCallState (Call_ID c) CallEnded now);;
         mret (with_state CallEnded now c)
       else mret c);
  broadcast c.

Definition Decline (t : T) (callID userID : string) (now : Z) : prog W unit :=
  c ← tx (GetCall callID);
  authorizeParticipant t c userID;;
  tx (UpsertParticipant (mkPart callID userID "" PartDeclined 0 now));;
  settle c now.

Definition Hangup (t : T) (callID userID : string) (now : Z) : prog W unit :=
  c ← tx (GetCall callID);
  authorizeParticipant t c userID;;
  tx (UpsertParticipant (mkPart callID userID "" PartLeft 0 now));;
  settle c now.

Definition Participants (callID : string) : prog W (list CallParticipant) := tx (ListParticipants callID).
Definition Get (callID : string) : prog W Call := tx (GetCall callID).

Definition InCall (callID userID : string) : prog W bool :=
  parts ← tx (ListParticipants callID);
  mret (existsb (λ p, bool_decide (Part_UserID p = userID)
    && (bool_decide (Part_State p = PartJoined) || bool_decide (Part_State p = PartInvited))) parts).
End service.
End call.

(** ** Running a method alone *)

Section runs.
Context `{RangeOrder} `{SocialLaws T CallTables CallStateBody W}.
Variable trace : Headers.
Implicit Types w : W.

(** [p] run alone from [w] answers [r] and leaves the tables [d]; the chats are as before. *)
Definition runsto {A} (p : prog W A) (w : W) (r : result A) (d : CallTables) : Prop :=
  ∃ w', exec p w = (w', r) ∧ tables d w w'.

Lemma runsto_done {A} (r : result A) w : sgood w → runsto (Done r) w r (tbl w).
Proof. intros Hw. by exists w. Qed.
Lemma runsto_then {A} (r : result A) d w w1 : tables d w w1 → runsto (Done r) w1 r d.
Proof. intros (Hg & <- & _). by apply runsto_done. Qed.
Lemma runsto_act {A} (m : M W A) w w' r : m w = (w', r) → squiet w w' → runsto (act m) w r (tbl w).
Proof. intros Hm Hq. exists w'. rewrite exec_act. split; [done|]. by apply tables_quiet. Qed.
Lemma runsto_tx {A} (m : M CallTables A) w : sgood w → runsto (tx m) w (m (tbl w)).2 (m (tbl w)).1.
Proof.
  intros Hw. exists (set_tbl (m (tbl w)).1 w). unfold tx. rewrite exec_act, on_tbl_eq. split; [done|].
  by apply tables_set.
Qed.
Lemma runsto_bind {A B} (p : prog W A) (f : A → prog W B) w a d r d' :
  runsto p w (Ok a) d → (∀ w1, tables d w w1 → runsto (f a) w1 r d') → runsto (p ≫= f) w r d'.
Proof.
  intros (w1 & Hp & Ht1) Hf. destruct (Hf w1 Ht1) as (w2 & Hf2 & Ht2). exists w2.
  rewrite exec_bind, Hp. split; [done|]. by eapply tables_trans.
Qed.
Lemma runsto_bind_Err {A B} (p : prog W A) (f : A → prog W B) w e d :
  runsto p w (Err e) d → runsto (p ≫= f) w (Err e) d.
Proof. intros (w1 & Hp & Ht1). exists w1. by rewrite exec_bind, Hp. Qed.
Lemma runsto_settle {A} (p : prog W A) w r d : runsto p w r d → runsto (settle_ p) w (Ok r) d.
Proof. intros (w1 & Hp & Ht1). exists w1. rewrite exec_settle. unfold attempt. by rewrite Hp. Qed.

Lemma runsto_member t c u w :
  sgood w → no_bar c = true → runsto (act (ca_IsMember t c u)) w (says_member (says w c u)) (tbl w).
Proof. intros Hw Hb. destruct (IsMember_says t c u w Hw Hb) as (w' & Hm & Hq). by eapply runsto_act. Qed.

Lemma runsto_broadcast c w : sgood w → runsto (broadcast trace c) w (Ok tt) (tbl w).
Proof.
  intros Hw. unfold broadcast. eapply runsto_bind; [eapply runsto_settle, runsto_tx, Hw|].
  intros w1 (Hg & Ht & _). cbn [ListParticipants gets fst snd] in *. eapply runsto_bind.
  - eapply runsto_settle, runsto_act; [apply surjective_pairing | by apply publish_squiet].
  - intros w2 (Hg2 & Ht2 & _). rewrite <- Ht, <- Ht2. by apply runsto_done.
Qed.

Lemma runsto_authorize t c u w :
  sgood w → no_bar (Call_ChatID c) = true →
  runsto (authorize t c u) w
    (match says_member (says w (Call_ChatID c) u) with
     | Ok true => Ok tt | Ok false => Err call_ErrForbidden | Err e => Err e end) (tbl w).
Proof.
  intros Hw Hb. pose proof (runsto_member t (Call_ChatID c) u w Hw Hb) as Hm. unfold authorize.
  destruct (says_member _) as [b|e]; [|by apply runsto_bind_Err].
  eapply runsto_bind; [exact Hm|]. intros w1 (Hg & <- & _). destruct b; by apply runsto_done.
Qed.

(** A step whose answer and tables are read off the goal's. *)
Lemma runsto_eq {A} (p : prog W A) w r d r' d' : runsto p w r' d' → r' = r → d' = d → runsto p w r d.
Proof. by intros ? -> ->. Qed.

(** *** What the methods do to the tables *)

Lemma GetCall_found id d c : calls d !! id = Some c → GetCall id d = (d, Ok c).
Proof. intros E. unfold GetCall, found. rewrite (bind_Ok _ _ _ d d) by done. by rewrite E. Qed.
Lemma SetCallState_found id st at_ d c :
  calls d !! id = Some c →
  SetCallState id st at_ d =
  (mkCallTables (<[id := with_state st (if bool_decide (st = CallEnded) then at_ else Call_EndedAt c) c]> (calls d))
     (callParts d), Ok tt).
Proof.
  intros E. unfold SetCallState, found. rewrite (bind_Ok _ _ _ d d) by done. rewrite E.
  by rewrite (bind_Ok _ _ _ d c).
Qed.

Lemma runsto_GetCall id w c : sgood w → calls (tbl w) !! id = Some c → runsto (tx (GetCall id)) w (Ok c) (tbl w).
Proof. intros Hw Hc. pose proof (runsto_tx (GetCall id) w Hw) as Hg. by rewrite (GetCall_found id _ c Hc) in Hg. Qed.

Definition upsert (p : CallParticipant) (d : CallTables) : CallTables := (UpsertParticipant p d).1.
Definition set_state (id : string) (st : CallState) (at_ : Z) (d : CallTables) : CallTables := (SetCallState id st at_ d).1.

Lemma runsto_upsert p w : sgood w → runsto (tx (UpsertParticipant p)) w (Ok tt) (upsert p (tbl w)).
Proof. apply runsto_tx. Qed.
Lemma runsto_list id w : sgood w → runsto (tx (ListParticipants id)) w (Ok (participants id (tbl w))) (tbl w).
Proof. apply runsto_tx. Qed.
Lemma runsto_set_state id st at_ w c :
  sgood w → calls (tbl w) !! id = Some c →
  runsto (tx (SetCallState id st at_)) w (Ok tt) (set_state id st at_ (tbl w)).
Proof.
  intros Hw Hc. eapply runsto_eq; [by apply runsto_tx | by rewrite (SetCallState_found _ _ _ _ c Hc) | done].
Qed.

Definition accepted (id u dev : string) (now : Z) (c : Call) (d : CallTables) : CallTables :=
  let d := upsert (mkPart id u dev PartJoined now 0) d in
  if bool_decide (Call_State c = CallRinging) then set_state id CallActive now d else d.
Definition live_call (c : Call) : Call :=
  if bool_decide (Call_State c = CallRinging) then with_state CallActive (Call_EndedAt c) c else c.

Lemma runsto_Accept t id u dev now w c :
  sgood w → calls (tbl w) !! id = Some c → no_bar (Call_ChatID c) = true →
  if bool_decide (Call_State c = CallEnded) then
    runsto (Accept trace t id u dev now) w (Err call_ErrCallEnded) (tbl w)
  else match says_member (says w (Call_ChatID c) u) with
       | Ok true => runsto (Accept trace t id u dev now) w (Ok (live_call c)) (accepted id u dev now c (tbl w))
       | Ok false => runsto (Accept trace t id u dev now) w (Err call_ErrForbidden) (tbl w)
       | Err e => runsto (Accept trace t id u dev now) w (Err e) (tbl w)
       end.
Proof.
  intros Hw Hc Hb. pose proof (runsto_GetCall id w c Hw Hc) as Hget.
  assert (∀ w1, tables (tbl w) w w1 → runsto (authorize t c u) w1
    (match says_member (says w (Call_ChatID c) u) with
     | Ok true => Ok tt | Ok false => Err call_ErrForbidden | Err e => Err e end) (tbl w)) as Hauth.
  { intros w1 (Hg & Ht & Hs). pose proof (runsto_authorize t c u w1 Hg Hb) as Ha. by rewrite Hs, Ht in Ha. }
  destruct (bool_decide (Call_State c = CallEnded)) eqn:Ee; [|destruct (says_member _) as [[]|e]];
    (eapply runsto_bind; [exact Hget|]); cbv beta; rewrite Ee; intros w1 Ht1.
  { destruct Ht1 as (Hg & <- & _). by apply runsto_done. }
  2-3: by apply runsto_bind_Err, Hauth.
  eapply runsto_bind; [by apply Hauth|]. intros w2 (Hg2 & Ht2 & _).
  eapply runsto_bind; [by apply runsto_upsert|]. intros w3 (Hg3 & Ht3 & _). rewrite Ht2 in Ht3.
  unfold accepted. cbv zeta. rewrite <- Ht3. assert (calls (tbl w3) !! id = Some c) as Hc3 by by rewrite Ht3.
  eapply (runsto_bind _ _ _ (live_call c) (if bool_decide (Call_State c = CallRinging)
                                            then set_state id CallActive now (tbl w3) else tbl w3)).
  - unfold live_call. destruct (bool_decide (Call_State c = CallRinging)); [|by apply runsto_done].
    eapply runsto_bind; [by eapply runsto_set_state|]. intros w4 (Hg4 & <- & _). by apply runsto_done.
  - intros w4 (Hg4 & Ht4 & _). eapply runsto_bind; [by apply runsto_broadcast|]. intros w5 (Hg5 & Ht5 & _).
    eapply runsto_eq; [by apply runsto_done | done |]. by rewrite Ht5, Ht4.
Qed.

(** [settle] ends a call nobody can be talking in. *)
Definition deserted (id : string) (d : CallTables) : bool :=
  (count PartJoined (participants id d) <? 2) && (count PartInvited (participants id d) =? 0).
Definition settled (c : Call) (now : Z) (d : CallTables) : CallTables :=
  if deserted (Call_ID c) d && negb (bool_decide (Call_State c = CallEnded)) then set_state (Call_ID c) CallEnded now d
  else d.

Lemma runsto_service_settle c now w :
  sgood w → is_Some (calls (tbl w) !! Call_ID c) → runsto (settle trace c now) w (Ok tt) (settled c now (tbl w)).
Proof.
  intros Hw [c0 Hc]. unfold settle. eapply runsto_bind; [by apply runsto_list|]. intros w1 (Hg1 & Ht1 & _).
  rewrite <- Ht1. fold (deserted (Call_ID c) (tbl w1)). rewrite <- Ht1 in Hc. unfold settled.
  destruct (deserted _ _ && _).
  - eapply runsto_bind; [eapply runsto_bind; [by eapply runsto_set_state|]|].
    + intros w2. apply runsto_then.
    + intros w2 (Hg2 & <- & _). by apply runsto_broadcast.
  - eapply runsto_bind; [by apply runsto_done|]. intros w2 (Hg2 & <- & _). by apply runsto_broadcast.
Qed.

Lemma in_participants id u d :
  (∀ v p, roster id d !! v = Some p → Part_UserID p = v) →
  existsb (λ p, bool_decide (Part_UserID p = u)) (participants id d) = bool_decide (is_Some (roster id d !! u)).
Proof.
  intros Hkey. apply eq_true_iff_eq. rewrite existsb_exists, bool_decide_eq_true. unfold participants. split.
  - intros (p & Hp & Hu%bool_decide_eq_true). apply list_elem_of_In in Hp. rewrite merge_sort_Permutation in Hp.
    apply list_elem_of_fmap in Hp as ([v q] & -> & Hq%elem_of_range_map). rewrite <- Hu. cbn.
    rewrite (Hkey v q Hq). eauto.
  - intros [p Hp]. exists p. split; [|by apply bool_decide_eq_true, Hkey]. apply list_elem_of_In.
    rewrite merge_sort_Permutation. apply list_elem_of_fmap. exists (u, p). by rewrite elem_of_range_map.
Qed.

(** [Decline] and [Hangup] differ by the state they leave behind. *)
Definition leaves (t : T) (st : ParticipantState) (callID userID : string) (now : Z) : prog W unit :=
  c ← tx (GetCall callID);
  authorizeParticipant t c userID;;
  tx (UpsertParticipant (mkPart callID userID "" st 0 now));;
  settle trace c now.

Lemma runsto_leaves t st id u now w c :
  sgood w → calls (tbl w) !! id = Some c → Call_ID c = id → no_bar (Call_ChatID c) = true →
  (∀ v p, roster id (tbl w) !! v = Some p → Part_UserID p = v) →
  match says_member (says w (Call_ChatID c) u) with
  | Ok true =>
      if bool_decide (is_Some (roster id (tbl w) !! u)) then
        runsto (leaves t st id u now) w (Ok tt) (settled c now (upsert (mkPart id u "" st 0 now) (tbl w)))
      else runsto (leaves t st id u now) w (Err call_ErrForbidden) (tbl w)
  | Ok false => runsto (leaves t st id u now) w (Err call_ErrForbidden) (tbl w)
  | Err e => runsto (leaves t st id u now) w (Err e) (tbl w)
  end.
Proof.
  intros Hw Hc Hid Hb Hkey. pose proof (runsto_GetCall id w c Hw Hc) as Hget.
  assert (∀ w1, tables (tbl w) w w1 → runsto (authorizeParticipant t c u) w1
    (match says_member (says w (Call_ChatID c) u) with
     | Ok true => if bool_decide (is_Some (roster id (tbl w) !! u)) then Ok tt else Err call_ErrForbidden
     | Ok false => Err call_ErrForbidden | Err e => Err e end) (tbl w)) as Hauth.
  { intros w1 (Hg & Ht & Hs). pose proof (runsto_authorize t c u w1 Hg Hb) as Ha. rewrite Hs, Ht in Ha.
    unfold authorizeParticipant. destruct (says_member _) as [[]|e]; [|by apply runsto_bind_Err..].
    eapply runsto_bind; [exact Ha|]. intros w2 (Hg2 & Ht2 & _). eapply runsto_bind; [by apply runsto_list|].
    intros w3 (Hg3 & Ht3 & _). rewrite Hid, Ht2, in_participants by done. rewrite <- Ht2, <- Ht3.
    destruct (bool_decide _); by apply runsto_done. }
  destruct (says_member _) as [[]|e]; [destruct (bool_decide _)|..]; (eapply runsto_bind; [exact Hget|]);
    intros w1 Ht1; [|by apply runsto_bind_Err, Hauth..].
  eapply runsto_bind; [by apply Hauth|]. intros w2 (Hg2 & Ht2 & _).
  eapply runsto_bind; [by apply runsto_upsert|]. intros w3 (Hg3 & Ht3 & _). rewrite <- Ht2, <- Ht3.
  apply runsto_service_settle; [done|]. rewrite Ht3, Ht2, Hid. cbn. eauto.
Qed.

(** *** Starting a call *)

Lemma newest_live_spec chat d :
  match newest_live chat d with
  | Some c => (∃ id, calls d !! id = Some c) ∧ Call_ChatID c = chat ∧ Call_State c ≠ CallEnded
  | None => ∀ id c, calls d !! id = Some c → Call_ChatID c = chat → Call_State c = CallEnded
  end.
Proof.
  unfold newest_live. set (step := λ (newest : option Call) (e : string * Call), _).
  assert (∀ l newest,
    match foldl step newest l with
    | Some c => newest = Some c ∨ (∃ id, (id, c) ∈ l) ∧ Call_ChatID c = chat ∧ Call_State c ≠ CallEnded
    | None => newest = None ∧ ∀ id c, (id, c) ∈ l → Call_ChatID c = chat → Call_State c = CallEnded
    end) as Hgen.
  { induction l as [|[id c] l IH]; intros newest; cbn [foldl].
    { destruct newest; [by left|]. split; [done|]. by intros ? ? ?%not_elem_of_nil. }
    specialize (IH (step newest (id, c))).
    assert (step newest (id, c) = newest ∨
            step newest (id, c) = Some c ∧ Call_ChatID c = chat ∧ Call_State c ≠ CallEnded) as Hst.
    { unfold step. cbn. destruct (bool_decide_reflect (Call_ChatID c = chat)), (bool_decide_reflect (Call_State c = CallEnded));
        [by left | | by left | by left]. cbn. destruct newest as [n0|]; [|by right].
      destruct (_ <? _); [by right | by left]. }
    assert (newest = None → step newest (id, c) = None → Call_ChatID c = chat → Call_State c = CallEnded) as Hno.
    { intros -> Hs Hc. unfold step in Hs. cbn in Hs. rewrite (bool_decide_true (Call_ChatID c = chat)) in Hs by done.
      cbn in Hs. by destruct (bool_decide_reflect (Call_State c = CallEnded)). }
    destruct (foldl step (step newest (id, c)) l) as [c'|].
    - destruct IH as [IH|((id' & Hin) & Hrest)]; [|right; split; [exists id'; by right | done]].
      destruct Hst as [Hst|(Hst & Hrest)]; [left; congruence|]. right. assert (c' = c) as -> by congruence.
      split; [exists id; left | done].
    - destruct IH as [IH Hl]. destruct Hst as [Hst|(Hst & _)]; [|congruence]. split; [congruence|].
      intros id' c' [[= -> ->]|Hin]%elem_of_cons; [|by eapply Hl]. apply Hno; congruence. }
  specialize (Hgen (range_map (calls d)) None). destruct (foldl step None (range_map (calls d))) as [c|].
  - destruct Hgen as [|((id & Hin) & Hrest)]; [done|]. split; [exists id; by apply elem_of_range_map | done].
  - destruct Hgen as [_ Hl]. intros id c Hc. apply (Hl id). by apply elem_of_range_map.
Qed.

Definition rung (newID initiatorID : string) (members : list string) (d : CallTables) : CallTables :=
  foldl (λ d uid, if bool_decide (uid = initiatorID) then d
                  else upsert (mkPart newID uid "" PartInvited 0 0) d) d members.

Lemma runsto_each newID u members w :
  sgood w →
  runsto (each (λ uid, if bool_decide (uid = u) then mret tt
                       else tx (UpsertParticipant (mkPart newID uid "" PartInvited 0 0))) members) w
    (Ok tt) (rung newID u members (tbl w)).
Proof.
  revert w. induction members as [|uid members IH]; intros w Hw; [by apply runsto_done|].
  cbn [each rung foldl]. eapply (runsto_bind _ _ _ tt (if bool_decide (uid = u) then tbl w
                                            else upsert (mkPart newID uid "" PartInvited 0 0) (tbl w))).
  - destruct (bool_decide (uid = u)); [by apply runsto_done | by apply runsto_upsert].
  - intros w1 (Hg & <- & _). by apply IH.
Qed.

Lemma runsto_lookup chat w :
  sgood w → runsto (settle_ (tx (ActiveCallForChat chat))) w
    (Ok (match newest_live chat (tbl w) with Some c => Ok c | None => Err store_ErrNotFound end)) (tbl w).
Proof.
  intros Hw. eapply runsto_settle, runsto_eq; [by apply runsto_tx|..]; unfold ActiveCallForChat;
    rewrite (bind_Ok _ _ _ (tbl w) (tbl w)) by done; by destruct (newest_live chat (tbl w)).
Qed.

Definition valid_kind (k : CallKind) : bool := match k with CallKind_other _ => false | _ => true end.

(** A member's invitation when the chat has no call going on. *)
Lemma runsto_Invite_new t newID chat u dev kind now w :
  sgood w → no_bar chat = true → valid_kind kind = true → says_member (says w chat u) = Ok true →
  newest_live chat (tbl w) = None →
  let c := mkCall newID chat u kind CallRinging now 0 in
  ∃ members, NoDup members ∧ (∀ v, v ∈ members ↔ says_member (says w chat v) = Ok true) ∧
    runsto (Invite trace t newID chat u dev kind now) w (Ok c)
      (rung newID u members (upsert (mkPart newID u dev PartJoined now 0) (CreateCall c (tbl w)).1)).
Proof.
  intros Hw Hb Hk Hm Hnone c. set (d1 := (CreateCall c (tbl w)).1).
  set (d2 := upsert (mkPart newID u dev PartJoined now 0) d1).
  pose proof (runsto_member t chat u w Hw Hb) as Hmem. rewrite Hm in Hmem.
  destruct Hmem as (w1 & Ha1 & Hg1 & Ht1 & Hs1).
  destruct (runsto_lookup chat w1 Hg1) as (w2 & Ha2 & Hg2 & Ht2 & Hs2). rewrite Ht1, Hnone in Ha2.
  destruct (runsto_tx (CreateCall c) w2 Hg2) as (w3 & Ha3 & Hg3 & Ht3 & Hs3). rewrite Ht2, Ht1 in Ht3.
  destruct (runsto_upsert (mkPart newID u dev PartJoined now 0) w3 Hg3) as (w4 & Ha4 & Hg4 & Ht4 & Hs4).
  rewrite Ht3 in Ht4. assert (∀ v, says w4 chat v = says w chat v) as Hs by (intros; by rewrite Hs4, Hs3, Hs2, Hs1).
  destruct (MemberIDs_says t chat u true w4 Hg4) as (w5 & members & Hids & (Hg5 & Ht5 & Hs5) & Hnd & Hin); [by rewrite Hs|].
  exists members. split; [done|]. split; [intros v; by rewrite Hin, Hs|].
  destruct (runsto_each newID u members w5 Hg5) as (w6 & Ha6 & Hg6 & Ht6 & Hs6). rewrite Ht5, Ht4 in Ht6.
  destruct (runsto_broadcast c w6 Hg6) as (w7 & Ha7 & Hg7 & Ht7 & Hs7).
  exists w7. split.
  - unfold Invite. destruct kind; [| |done]; rewrite exec_bind, Ha1; cbn [negb]; rewrite exec_bind, Ha2;
      fold c; rewrite exec_bind, Ha3; cbn [CreateCall modify snd]; rewrite exec_bind, Ha4, exec_act_bind, Hids;
      rewrite exec_bind, Ha6, exec_bind, Ha7; done.
  - split; [done|]. split; [by rewrite Ht7, Ht6|]. intros c' v. by rewrite Hs7, Hs6, Hs5, Hs4, Hs3, Hs2, Hs1.
Qed.

(** ... and when there is one: the caller joins it. *)
Lemma runsto_Invite_join t newID chat u dev kind now w c :
  sgood w → no_bar chat = true → valid_kind kind = true → says_member (says w chat u) = Ok true →
  newest_live chat (tbl w) = Some c → calls (tbl w) !! Call_ID c = Some c →
  ∃ c', runsto (Invite trace t newID chat u dev kind now) w (Ok c') (accepted (Call_ID c) u dev now c (tbl w)) ∧
    Call_ID c' = Call_ID c.
Proof.
  intros Hw Hb Hk Hm Hlive Hc. pose proof (newest_live_spec chat (tbl w)) as Hspec. rewrite Hlive in Hspec.
  destruct Hspec as (_ & Hchat & Hst).
  pose proof (runsto_member t chat u w Hw Hb) as Hmem. rewrite Hm in Hmem.
  destruct Hmem as (w1 & Ha1 & Hg1 & Ht1 & Hs1).
  destruct (runsto_lookup chat w1 Hg1) as (w2 & Ha2 & Hg2 & Ht2 & Hs2). rewrite Ht1, Hlive in Ha2.
  rewrite Ht1 in Ht2. pose proof (runsto_Accept t (Call_ID c) u dev now w2 c Hg2) as Hacc.
  rewrite Ht2, Hchat, Hs2, Hs1, Hm, bool_decide_false in Hacc by done.
  destruct (Hacc Hc Hb) as (w3 & Ha3 & Hg3 & Ht3 & Hs3).
  assert (∃ c', calls (tbl w3) !! Call_ID c = Some c' ∧ Call_ID c' = Call_ID c) as (c' & Hc' & Hid).
  { rewrite Ht3. unfold accepted. cbv zeta. destruct (bool_decide _); [|cbn; eauto].
    unfold set_state. rewrite (SetCallState_found _ _ _ _ c) by done. cbn. rewrite lookup_insert_eq. by eexists. }
  destruct (runsto_GetCall (Call_ID c) w3 c' Hg3 Hc') as (w4 & Ha4 & Hg4 & Ht4 & Hs4).
  exists c'. split; [|done]. exists w4. split.
  - unfold Invite. destruct kind; [| |done]; rewrite exec_bind, Ha1; cbn [negb]; rewrite exec_bind, Ha2;
      by rewrite exec_bind, Ha3.
  - split; [done|]. split; [by rewrite Ht4, Ht3|]. intros c0 v. by rewrite Hs4, Hs3, Hs2, Hs1.
Qed.
End runs.

(** ** The rooms of a chat *)

(** At most one call of a chat is going on; rows are stored under their own keys. *)
Record calls_ok (d : CallTables) : Prop := {
  ok_key id c : calls d !! id = Some c → Call_ID c = id ∧ no_bar (Call_ChatID c) = true;
  ok_part id u p : roster id d !! u = Some p → Part_UserID p = u;
  ok_fresh id : calls d !! id = None → roster id d = ∅;
  ok_room id id' c c' :
    calls d !! id = Some c → calls d !! id' = Some c' → Call_ChatID c = Call_ChatID c' →
    Call_State c ≠ CallEnded → Call_State c' ≠ CallEnded → id = id';
}.

(** An ended call is not touched again. *)
Definition ended_kept (d d' : CallTables) : Prop :=
  ∀ id c, calls d !! id = Some c → Call_State c = CallEnded → calls d' !! id = Some c.
Definition rooms_step (d d' : CallTables) : Prop := calls_ok d → calls_ok d' ∧ ended_kept d d'.

#[global] Instance rooms_step_preorder : PreOrder rooms_step.
Proof.
  split; [intros d Hd; split; [done | by intros id c]|]. intros d1 d2 d3 H12 H23 Hd1. destruct (H12 Hd1) as [Hd2 Hk2].
  destruct (H23 Hd2) as [Hd3 Hk3]. split; [done|]. intros id c Hc He. by apply Hk3; [apply Hk2|].
Qed.

Lemma roster_upsert p d id :
  roster id (upsert p d) =
  if decide (id = Part_CallID p) then
    <[Part_UserID p :=
        match roster id d !! Part_UserID p with
        | Some prev => mkPart (Part_CallID p) (Part_UserID p) (Part_DeviceID p) (Part_State p)
            (if Part_JoinedAt p =? 0 then Part_JoinedAt prev else Part_JoinedAt p)
            (if Part_LeftAt p =? 0 then Part_LeftAt prev else Part_LeftAt p)
        | None => p
        end]> (roster id d)
  else roster id d.
Proof.
  unfold upsert, UpsertParticipant, roster. cbn. destruct (decide (id = Part_CallID p)) as [->|].
  - by rewrite lookup_insert_eq.
  - by rewrite lookup_insert_ne by done.
Qed.

Lemma step_upsert p d : is_Some (calls d !! Part_CallID p) → rooms_step d (upsert p d).
Proof.
  intros [c Hc] Hd. split; [|by intros id c0]. split.
  - apply Hd.
  - intros id u q. rewrite roster_upsert. case_decide; [|apply Hd]. rewrite lookup_insert_Some.
    intros [[<- <-]|[_ Hq]]; [|by eapply Hd]. by destruct (roster id d !! _).
  - intros id Hid. change (calls d !! id = None) in Hid. rewrite roster_upsert, decide_False by congruence.
    by apply Hd.
  - apply Hd.
Qed.

Lemma step_set_state id st at_ d c :
  calls d !! id = Some c → Call_State c ≠ CallEnded → rooms_step d (set_state id st at_ d).
Proof.
  intros Hc Hst Hd. unfold set_state. rewrite (SetCallState_found _ _ _ _ c Hc). cbn [fst].
  set (c1 := with_state _ _ _). split.
  2: { intros id' c' Hc' He. cbn. rewrite lookup_insert_ne; [done|]. intros ->. rewrite Hc in Hc'. by injection Hc' as ->. }
  assert (∀ id' c', <[id := c1]> (calls d) !! id' = Some c' → ∃ c0, calls d !! id' = Some c0 ∧
    Call_ID c0 = Call_ID c' ∧ Call_ChatID c0 = Call_ChatID c' ∧ (Call_State c' ≠ CallEnded → Call_State c0 ≠ CallEnded)) as Hold.
  { intros id' c'. rewrite lookup_insert_Some. intros [[<- <-]|[_ Hc']]; [by exists c | by exists c']. }
  split.
  - intros id' c' (c0 & Hc0 & <- & <- & _)%Hold. by apply Hd.
  - apply Hd.
  - intros id'. cbn. rewrite lookup_insert_None. intros [Hn _]. by apply Hd.
  - intros i1 i2 c' c'' (c0' & H1 & _ & <- & Hs1)%Hold (c0'' & H2 & _ & <- & Hs2)%Hold Heq Hl1 Hl2.
    by apply (ok_room d Hd i1 i2 c0' c0''); auto.
Qed.

Lemma step_create c d :
  calls d !! Call_ID c = None → no_bar (Call_ChatID c) = true →
  (∀ id c', calls d !! id = Some c' → Call_ChatID c' = Call_ChatID c → Call_State c' = CallEnded) →
  rooms_step d (CreateCall c d).1.
Proof.
  intros Hnew Hb Hnone Hd. cbn [CreateCall modify fst]. split.
  2: { intros id' c' Hc' He. cbn. rewrite lookup_insert_ne by congruence. done. }
  split; cbn.
  - intros id c'. rewrite lookup_insert_Some. intros [[<- <-]|[_ Hc']]; [done|]. by apply Hd.
  - apply Hd.
  - intros id. rewrite lookup_insert_None. intros [Hn _]. by apply Hd.
  - intros i1 i2 c1 c2 H1 H2 Heq Hl1 Hl2. rewrite lookup_insert_Some in H1, H2.
    destruct H1 as [[<- <-]|[_ H1]], H2 as [[<- <-]|[_ H2]]; [done| | |by eapply Hd].
    + destruct Hl2. by apply (Hnone i2).
    + destruct Hl1. by apply (Hnone i1).
Qed.

Lemma step_rung newID u members d : is_Some (calls d !! newID) → rooms_step d (rung newID u members d).
Proof.
  revert d. unfold rung. induction members as [|v members IH]; intros d Hd; [reflexivity|]. cbn [foldl].
  destruct (bool_decide (v = u)); [by apply IH|]. etrans; [apply (step_upsert (mkPart newID v "" PartInvited 0 0)); exact Hd|]. by apply IH.
Qed.

Lemma step_accepted id u dev now c d :
  calls d !! id = Some c → Call_State c ≠ CallEnded → rooms_step d (accepted id u dev now c d).
Proof.
  intros Hc Hst. unfold accepted. cbv zeta. etrans; [apply (step_upsert (mkPart id u dev PartJoined now 0)); cbn; eauto|].
  destruct (bool_decide _); [|reflexivity]. by apply (step_set_state _ _ _ _ c).
Qed.

Lemma step_settled `{RangeOrder} c now d :
  calls d !! Call_ID c = Some c → rooms_step d (settled c now d).
Proof.
  intros Hc. unfold settled. destruct (deserted _ _ && _) eqn:E; [|reflexivity].
  apply andb_prop in E as [_ E%negb_true_iff%bool_decide_eq_false]. by apply (step_set_state _ _ _ _ c).
Qed.

(** *** Serving requests one at a time *)

Section served.
Context `{RangeOrder} `{SocialLaws T CallTables CallStateBody W}.
Variable trace : Headers.
Implicit Types w : W.

(** One request, run alone; [served_other] is whatever the rest of the system does, such as
    changing who is a member. *)
Inductive served : W → W → Prop :=
  | served_invite t newID chat u dev kind now w :
      calls (tbl w) !! newID = None → no_bar chat = true →
      served w (exec (Invite trace t newID chat u dev kind now) w).1
  | served_accept t id u dev now w : served w (exec (Accept trace t id u dev now) w).1
  | served_decline t id u now w : served w (exec (Decline trace t id u now) w).1
  | served_hangup t id u now w : served w (exec (Hangup trace t id u now) w).1
  | served_other w w' : sgood w' → tbl w' = tbl w → served w w'.

Lemma runsto_step {A} (p : prog W A) w r d :
  runsto p w r d → rooms_step (tbl w) d → sgood (exec p w).1 ∧ rooms_step (tbl w) (tbl (exec p w).1).
Proof. intros (w' & E & Hg & Ht & _) Hd. rewrite E. cbn [fst]. by rewrite Ht. Qed.

Lemma runsto_GetCall_none id w : sgood w → calls (tbl w) !! id = None → runsto (tx (GetCall id)) w (Err store_ErrNotFound) (tbl w).
Proof.
  intros Hw Hc. eapply runsto_eq; [by apply runsto_tx|..]; unfold GetCall, found;
    rewrite (bind_Ok _ _ _ (tbl w) (tbl w)) by done; by rewrite Hc.
Qed.

Lemma Accept_step t id u dev now w :
  sgood w → calls_ok (tbl w) →
  sgood (exec (Accept trace t id u dev now) w).1 ∧ rooms_step (tbl w) (tbl (exec (Accept trace t id u dev now) w).1).
Proof.
  intros Hw Hd. destruct (calls (tbl w) !! id) as [c|] eqn:Hc.
  2: { eapply runsto_step; [by apply runsto_bind_Err, runsto_GetCall_none | reflexivity]. }
  destruct (ok_key _ Hd id c Hc) as [Hid Hb]. pose proof (runsto_Accept trace t id u dev now w c Hw Hc Hb) as Hr.
  destruct (bool_decide_reflect (Call_State c = CallEnded)); [by eapply runsto_step|].
  destruct (says_member _) as [[]|e]; (eapply runsto_step; [exact Hr|]); [by apply step_accepted | done | done].
Qed.

Lemma leaves_step t st id u now w :
  sgood w → calls_ok (tbl w) →
  sgood (exec (leaves trace t st id u now) w).1 ∧
  rooms_step (tbl w) (tbl (exec (leaves trace t st id u now) w).1).
Proof.
  intros Hw Hd. destruct (calls (tbl w) !! id) as [c|] eqn:Hc.
  2: { eapply runsto_step; [by apply runsto_bind_Err, runsto_GetCall_none | reflexivity]. }
  destruct (ok_key _ Hd id c Hc) as [Hid Hb].
  pose proof (runsto_leaves trace t st id u now w c Hw Hc Hid Hb (ok_part _ Hd id)) as Hr.
  destruct (says_member _) as [[]|e]; [destruct (bool_decide _)|..]; (eapply runsto_step; [exact Hr|]); [|done..].
  etrans; [apply (step_upsert (mkPart id u "" st 0 now)); cbn; eauto|]. apply step_settled. by rewrite Hid.
Qed.

Lemma Invite_step t newID chat u dev kind now w :
  sgood w → calls_ok (tbl w) → calls (tbl w) !! newID = None → no_bar chat = true →
  sgood (exec (Invite trace t newID chat u dev kind now) w).1 ∧
  rooms_step (tbl w) (tbl (exec (Invite trace t newID chat u dev kind now) w).1).
Proof.
  intros Hw Hd Hnew Hb. destruct (valid_kind kind) eqn:Hk.
  2: { destruct kind; [done..|]. by apply (runsto_step _ _ (Err call_ErrBadKind) (tbl w)); [apply runsto_done|]. }
  destruct (says_member (says w chat u)) as [[]|e] eqn:Hm.
  - destruct (newest_live chat (tbl w)) as [c|] eqn:Hl.
    + pose proof (newest_live_spec chat (tbl w)) as Hs. rewrite Hl in Hs. destruct Hs as ((id & Hc) & _ & Hst).
      pose proof (proj1 (ok_key _ Hd id c Hc)) as Hid. rewrite <- Hid in Hc.
      destruct (runsto_Invite_join trace t newID chat u dev kind now w c Hw Hb Hk Hm Hl Hc) as (c' & Hr & _).
      eapply runsto_step; [exact Hr|]. by apply step_accepted.
    + pose proof (newest_live_spec chat (tbl w)) as Hs. rewrite Hl in Hs.
      destruct (runsto_Invite_new trace t newID chat u dev kind now w Hw Hb Hk Hm Hl) as (members & _ & _ & Hr).
      eapply runsto_step; [exact Hr|]. etrans; [by apply (step_create (mkCall newID chat u kind CallRinging now 0))|].
      etrans; [apply (step_upsert (mkPart newID u dev PartJoined now 0)); cbn; rewrite lookup_insert_eq; eauto|].
      apply step_rung. cbn. rewrite lookup_insert_eq. eauto.
  - pose proof (runsto_member t chat u w Hw Hb) as Hr. rewrite Hm in Hr.
    destruct kind; [..|done]; (eapply (runsto_step _ _ (Err call_ErrForbidden) (tbl w)); [|reflexivity]);
      (eapply runsto_bind; [exact Hr|]); intros w1; apply runsto_then.
  - pose proof (runsto_member t chat u w Hw Hb) as Hr. rewrite Hm in Hr.
    destruct kind; [..|done]; (eapply runsto_step; [by apply runsto_bind_Err | reflexivity]).
Qed.

Lemma served_step w w' :
  served w w' → sgood w → calls_ok (tbl w) → sgood w' ∧ rooms_step (tbl w) (tbl w').
Proof.
  intros [t newID chat u dev kind now w0 Hn Hb|t id u dev now w0|t id u now w0|t id u now w0|w0 w1 Hg Ht] Hw Hd.
  - by apply Invite_step.
  - by apply Accept_step.
  - by apply (leaves_step t PartDeclined).
  - by apply (leaves_step t PartLeft).
  - split; [done|]. by rewrite Ht.
Qed.

(** ** Theorems *)

(** One room per chat.  Requests served one at a time — invitations, acceptances,
    refusals and hang-ups, in any order and number, with memberships changing in between —
    never leave two calls going on in one chat, and a call that has ended is not touched
    again. *)
Theorem one_room w w' :
  rtc served w w' → sgood w → calls_ok (tbl w) → calls_ok (tbl w') ∧ ended_kept (tbl w) (tbl w').
Proof.
  induction 1 as [w|w w1 w' Hs _ IH]; intros Hw Hd; [by split; [|intros id c]|].
  destruct (served_step w w1 Hs Hw Hd) as [Hg1 Hst]. destruct (Hst Hd) as [Hd1 Hk1].
  destruct (IH Hg1 Hd1) as [Hd' Hk']. split; [done|]. intros id c Hc He. by apply Hk'; [apply Hk1|].
Qed.

Lemma roster_rung newID u members d v :
  NoDup members → (∀ x, x ∈ members → x ≠ u → roster newID d !! x = None) →
  roster newID (rung newID u members d) !! v =
  if decide (v ∈ members ∧ v ≠ u) then Some (mkPart newID v "" PartInvited 0 0) else roster newID d !! v.
Proof.
  unfold rung. revert d. induction members as [|x members IH]; intros d Hnd Hno; cbn [foldl].
  { rewrite decide_False; [done|]. by intros [?%not_elem_of_nil _]. }
  apply NoDup_cons in Hnd as [Hx Hnd]. destruct (bool_decide_reflect (x = u)) as [->|Hxu].
  - rewrite IH by (done || (intros y Hy; apply Hno; by right)). apply decide_ext. rewrite elem_of_cons. tauto.
  - set (d1 := upsert _ d).
    assert (∀ y, roster newID d1 !! y = if decide (y = x) then Some (mkPart newID x "" PartInvited 0 0) else roster newID d !! y) as Hd1.
    { intros y. unfold d1. rewrite roster_upsert. cbn [Part_CallID Part_UserID]. rewrite decide_True by done.
      rewrite Hno by (done || left). destruct (decide (y = x)) as [->|]; [by rewrite lookup_insert_eq | by rewrite lookup_insert_ne]. }
    rewrite IH; [|done|].
    + rewrite Hd1. destruct (decide (v = x)) as [->|Hv].
      * rewrite decide_False by tauto. rewrite decide_True; [done|]. split; [left|done].
      * apply decide_ext. rewrite elem_of_cons. tauto.
    + intros y Hy Hyu. rewrite Hd1, decide_False by congruence. apply Hno; [by right|done].
Qed.

(** A new call rings everybody.  In a chat with no call going on, a member's invitation
    creates a ringing call whose roster is exactly the chat's members: the caller joined,
    everyone else invited. *)
Theorem Invite_rings t newID chat u dev kind now w :
  sgood w → calls_ok (tbl w) → no_bar chat = true → valid_kind kind = true →
  says_member (says w chat u) = Ok true → calls (tbl w) !! newID = None →
  (∀ id c, calls (tbl w) !! id = Some c → Call_ChatID c = chat → Call_State c = CallEnded) →
  ∃ w' c, exec (Invite trace t newID chat u dev kind now) w = (w', Ok c) ∧
    calls (tbl w') !! newID = Some c ∧ Call_State c = CallRinging ∧
    ∀ v, Part_State <$> roster newID (tbl w') !! v =
         if bool_decide (v = u) then Some PartJoined
         else if bool_decide (says_member (says w chat v) = Ok true) then Some PartInvited else None.
Proof.
  intros Hw Hd Hb Hk Hm Hnew Hnone.
  assert (newest_live chat (tbl w) = None) as Hl.
  { pose proof (newest_live_spec chat (tbl w)) as Hs. destruct (newest_live chat (tbl w)) as [c|]; [|done].
    destruct Hs as ((id & Hc) & Hch & Hst). by destruct Hst; apply (Hnone id). }
  destruct (runsto_Invite_new trace t newID chat u dev kind now w Hw Hb Hk Hm Hl) as (members & Hnd & Hin & w' & Hr & _ & Ht & _).
  eexists w', _. split; [exact Hr|]. rewrite Ht.
  set (c := mkCall newID chat u kind CallRinging now 0). set (d2 := upsert _ _).
  assert (∀ l d, calls (rung newID u l d) = calls d) as Hcalls.
  { unfold rung. intros l. induction l as [|x l IH]; intros d; [done|]. cbn [foldl]. rewrite IH. by destruct (bool_decide _). }
  assert (roster newID (CreateCall c (tbl w)).1 = ∅) as Hemp by by apply (ok_fresh _ Hd).
  assert (roster newID d2 = {[u := mkPart newID u dev PartJoined now 0]}) as Hd2.
  { unfold d2. rewrite roster_upsert. cbn [Part_CallID Part_UserID]. by rewrite decide_True, Hemp. }
  split_and!; [|done|].
  - rewrite Hcalls. unfold d2. cbn. by rewrite lookup_insert_eq.
  - intros v. rewrite roster_rung by (done || (intros x _ Hx; rewrite Hd2; by apply lookup_singleton_ne)).
    rewrite Hd2. destruct (bool_decide_reflect (v = u)) as [->|Hv].
    + rewrite decide_False by tauto. by rewrite lookup_singleton_eq.
    + rewrite lookup_singleton_ne by done. rewrite <- (bool_decide_ext _ _ (Hin v)).
      destruct (bool_decide_reflect (v ∈ members)); [by rewrite decide_True | by rewrite decide_False by tauto].
Qed.

(** Leaving settles the call.  When a member who is on the roster hangs up, they are
    marked as gone, nobody else's state changes, and the call ends exactly if it had not
    yet and fewer than two people are left in it with nobody still ringing. *)
Theorem Hangup_exact t id u now w c :
  sgood w → calls_ok (tbl w) → calls (tbl w) !! id = Some c →
  says_member (says w (Call_ChatID c) u) = Ok true → is_Some (roster id (tbl w) !! u) →
  ∃ w' c', exec (Hangup trace t id u now) w = (w', Ok tt) ∧ calls (tbl w') !! id = Some c' ∧
    Part_State <$> roster id (tbl w') !! u = Some PartLeft ∧
    (∀ v, v ≠ u → roster id (tbl w') !! v = roster id (tbl w) !! v) ∧
    Call_State c' = if deserted id (tbl w') then CallEnded else Call_State c.
Proof.
  intros Hw Hd Hc Hm Hu. destruct (ok_key _ Hd id c Hc) as [Hid Hb].
  pose proof (runsto_leaves trace t PartLeft id u now w c Hw Hc Hid Hb (ok_part _ Hd id)) as Hr.
  rewrite Hm, bool_decide_true in Hr by done. destruct Hr as (w' & Hr & _ & Ht & _).
  set (d1 := upsert (mkPart id u "" PartLeft 0 now) (tbl w)) in *.
  assert (roster id (tbl w') = roster id d1) as Hroster.
  { rewrite Ht. unfold settled. destruct (_ && _); [|done]. unfold set_state.
    by rewrite (SetCallState_found _ _ _ _ c) by (by rewrite Hid). }
  assert (∀ v, roster id d1 !! v = if decide (v = u) then roster id d1 !! u else roster id (tbl w) !! v) as Hd1.
  { intros v. destruct (decide (v = u)) as [->|Hv]; [done|]. unfold d1. rewrite roster_upsert. cbn [Part_CallID Part_UserID].
    rewrite decide_True by done. by rewrite lookup_insert_ne. }
  assert (deserted id (tbl w') = deserted id d1) as Hdes by (unfold deserted, participants; by rewrite Hroster).
  exists w', (if deserted id d1 && negb (bool_decide (Call_State c = CallEnded)) then with_state CallEnded now c else c).
  split; [exact Hr|]. rewrite Hroster, Hdes. split_and!.
  - rewrite Ht. unfold settled. rewrite Hid. destruct (_ && _); [|done]. unfold set_state.
    rewrite (SetCallState_found _ _ _ _ c) by done. cbn. by rewrite lookup_insert_eq.
  - unfold d1. rewrite roster_upsert. cbn [Part_CallID Part_UserID]. rewrite decide_True, lookup_insert_eq by done.
    by destruct (roster id (tbl w) !! u).
  - intros v Hv. by rewrite Hd1, decide_False.
  - destruct (deserted id d1); [|done]. by destruct (bool_decide_reflect (Call_State c = CallEnded)).
Qed.

(** Somebody is still ringing. *)
Lemma ringing_not_deserted id v d :
  Part_State <$> roster id d !! v = Some PartInvited → deserted id d = false.
Proof.
  intros Hv. apply fmap_Some in Hv as (p & Hp & Hst). unfold deserted. apply andb_false_iff. right. apply Z.eqb_neq.
  unfold count. set (l := filter _ _). assert (p ∈ l) as Hin.
  { apply list_elem_of_filter. split; [done|]. unfold participants. rewrite merge_sort_Permutation.
    apply list_elem_of_fmap. exists (v, p). by rewrite elem_of_range_map. }
  destruct l as [|q l]; [by apply not_elem_of_nil in Hin|]. rewrite len_cons. pose proof (len_nonneg l). lia.
Qed.

(** A cancelled call keeps ringing.  When the caller hangs up before anyone has
    answered, and the chat has another member, the call stays in the ringing state: nobody
    is in it, everyone else is still being rung, and it is the chat's call from then on. *)
Theorem cancelled_call_rings t t' newID chat u v dev kind now now' w :
  sgood w → calls_ok (tbl w) → no_bar chat = true → valid_kind kind = true →
  says_member (says w chat u) = Ok true → says_member (says w chat v) = Ok true → u ≠ v →
  calls (tbl w) !! newID = None →
  (∀ id c, calls (tbl w) !! id = Some c → Call_ChatID c = chat → Call_State c = CallEnded) →
  ∃ w1 w2 c, exec (Invite trace t newID chat u dev kind now) w = (w1, Ok c) ∧
    exec (Hangup trace t' newID u now') w1 = (w2, Ok tt) ∧
    (∃ c', calls (tbl w2) !! newID = Some c' ∧ Call_State c' = CallRinging) ∧
    Part_State <$> roster newID (tbl w2) !! u = Some PartLeft ∧
    Part_State <$> roster newID (tbl w2) !! v = Some PartInvited.
Proof.
  intros Hw Hd Hb Hk Hu Hv Hne Hnew Hnone.
  destruct (Invite_rings t newID chat u dev kind now w Hw Hd Hb Hk Hu Hnew Hnone) as (w1 & c & HI & Hc & Hst & Hroster).
  destruct (Invite_step t newID chat u dev kind now w Hw Hd Hnew Hb) as [Hg1 Hs1].
  destruct (Hs1 Hd) as [Hd1 _]. rewrite HI in Hg1, Hd1. cbn [fst] in Hg1, Hd1.
  destruct (runsto_Invite_new trace t newID chat u dev kind now w Hw Hb Hk Hu) as (_ & _ & _ & w1' & HI' & _ & _ & Hsays).
  { pose proof (newest_live_spec chat (tbl w)) as Hs. destruct (newest_live chat (tbl w)) as [c0|]; [|done].
    destruct Hs as ((id & Hc0) & Hch & Hst0). by destruct Hst0; apply (Hnone id). }
  rewrite HI in HI'. injection HI' as <- ->.
  destruct (Hangup_exact t' newID u now' w1 _ Hg1 Hd1 Hc) as (w2 & c' & HH & Hc' & Hleft & Hothers & Hst').
  { cbn. by rewrite Hsays. }
  { specialize (Hroster u). rewrite bool_decide_true in Hroster by done. apply fmap_Some in Hroster as (p & -> & _). eauto. }
  assert (Part_State <$> roster newID (tbl w2) !! v = Some PartInvited) as Hvi.
  { rewrite Hothers by congruence. rewrite Hroster, bool_decide_false, bool_decide_true by congruence. done. }
  eexists w1, w2, _. split; [exact HI|]. split; [exact HH|]. split_and!; [|done|done].
  exists c'. split; [done|]. rewrite Hst'. by rewrite (ringing_not_deserted newID v).
Qed.

(** Two invitations at once make two rooms.  When two members call at the same moment,
    so that both look for a call going on before either has created one, each creates its
    own: the chat then has two calls ringing. *)
Theorem rival_rooms t t' id1 id2 chat u v dev dev' kind kind' now now' w :
  sgood w → no_bar chat = true → valid_kind kind = true → valid_kind kind' = true →
  says_member (says w chat u) = Ok true → says_member (says w chat v) = Ok true → id1 ≠ id2 →
  newest_live chat (tbl w) = None →
  ∃ w' p q, interleave [true; true; false; false; true; false] w
      (Invite trace t id1 chat u dev kind now) (Invite trace t' id2 chat v dev' kind' now') = (w', p, q) ∧
    ∃ c1 c2, calls (tbl w') !! id1 = Some c1 ∧ calls (tbl w') !! id2 = Some c2 ∧
      Call_ChatID c1 = chat ∧ Call_ChatID c2 = chat ∧ Call_State c1 = CallRinging ∧ Call_State c2 = CallRinging.
Proof.
  intros Hw Hb Hk Hk' Hu Hv Hne Hnone.
  destruct (IsMember_says t chat u w Hw Hb) as (w1 & Hm1 & Hg1 & Ht1 & Hs1). rewrite Hu in Hm1.
  assert (∀ w0, tbl w0 = tbl w → on_tbl (ActiveCallForChat chat) w0 = (set_tbl (tbl w) w0, Err store_ErrNotFound)) as Hlook.
  { intros w0 Ht. rewrite on_tbl_eq, Ht. unfold ActiveCallForChat. rewrite (bind_Ok _ _ _ (tbl w) (tbl w)) by done.
    by rewrite Hnone. }
  destruct (tables_set (tbl w) w1 Hg1) as (Hg2 & Ht2 & Hs2). set (w2 := set_tbl (tbl w) w1) in *.
  destruct (IsMember_says t' chat v w2 Hg2 Hb) as (w3 & Hm3 & Hg3 & Ht3 & Hs3). rewrite Hs2, Hs1, Hv in Hm3.
  set (c1 := mkCall id1 chat u kind CallRinging now 0). set (c2 := mkCall id2 chat v kind' CallRinging now' 0).
  set (w4 := set_tbl (tbl w) w3).
  assert (tbl w4 = tbl w) as Ht4 by apply tbl_set.
  set (w5 := set_tbl (CreateCall c1 (tbl w4)).1 w4). set (w6 := set_tbl (CreateCall c2 (tbl w5)).1 w5).
  eexists w6, _, _. split.
  - unfold Invite. destruct kind; [..|done]; (destruct kind'; [..|done]); cbn [interleave];
      rewrite (step_act _ _ _ _ _ Hm1); cbn [negb step_prog settle_ tx act mbind prog_bind prog_bind_];
      rewrite (Hlook w1 Ht1); cbn [fst snd]; fold w2; rewrite Hm3; cbn [fst snd negb];
      cbn [step_prog settle_ tx act mbind prog_bind prog_bind_]; rewrite (Hlook w3) by congruence;
      cbn [fst snd]; rewrite !on_tbl_eq; reflexivity.
  - exists c1, c2. unfold w6. rewrite tbl_set. cbn. unfold w5. rewrite tbl_set. cbn.
    rewrite lookup_insert_ne, !lookup_insert_eq by congruence. done.
Qed.
End served.

(** ** Witnesses: a group of [u1] and [u2]. *)
Section witnesses.
#[local] Existing Instance canonical_order.

Definition w_circle : Service := (CreateGroup "u1" "ours" ChatGroup ["u2"] "c1" 0 (New 0 MemChats.New)).1.
Lemma w_circle_reachable : reachable w_circle.
Proof. apply r_group; [apply r_new | done | done | by repeat constructor]. Qed.

Abbreviation World := (Deployed CallTables CallStateBody).
Definition w_clock : Ticks * Ticks := (w_ticks 1, w_ticks 1).
Definition w_idle : World := mkDeployed w_circle (mkCallTables ∅ ∅) [].
Definition w_ringing : World := (exec (Invite ∅ w_clock "k1" "c1" "u1" "d1" CallVideo 5) w_idle).1.

Lemma w_idle_ok : calls_ok (tbl w_idle).
Proof. by split. Qed.

Lemma one_room_witness : calls_ok (tbl (exec (Hangup ∅ w_clock "k1" "u1" 6) w_ringing).1).
Proof.
  apply (one_room (H0 := deployed_laws) ∅ w_idle).
  - eapply rtc_l; [by apply (served_invite ∅ w_clock "k1" "c1" "u1" "d1" CallVideo 5 w_idle)|].
    apply rtc_once, served_hangup.
  - exact w_circle_reachable.
  - exact w_idle_ok.
Defined.

Lemma cancelled_call_rings_witness :
  ∃ w2, exec (Hangup ∅ w_clock "k1" "u1" 6) w_ringing = (w2, Ok tt) ∧
    ∃ c', calls (tbl w2) !! "k1" = Some c' ∧ Call_State c' = CallRinging.
Proof.
  destruct (cancelled_call_rings (H0 := deployed_laws) ∅ w_clock w_clock "k1" "c1" "u1" "u2" "d1" CallVideo 5 6 w_idle
    w_circle_reachable w_idle_ok) as (w1 & w2 & c & HI & HH & Hc & _); [done | done | by vm_compute | by vm_compute | done..|].
  exists w2. assert (w1 = w_ringing) as E by (unfold w_ringing; by rewrite HI). rewrite E in HH. exact (conj HH Hc).
Defined.

Lemma rival_rooms_witness :
  ∃ w' p q, interleave [true; true; false; false; true; false] w_idle
      (Invite ∅ w_clock "k1" "c1" "u1" "d1" CallVideo 5) (Invite ∅ w_clock "k2" "c1" "u2" "d2" CallAudio 5) = (w', p, q) ∧
    ∃ c1 c2, calls (tbl w') !! "k1" = Some c1 ∧ calls (tbl w') !! "k2" = Some c2 ∧
      Call_ChatID c1 = "c1" ∧ Call_ChatID c2 = "c1" ∧ Call_State c1 = CallRinging ∧ Call_State c2 = CallRinging.
Proof.
  apply (rival_rooms (H0 := deployed_laws) ∅ w_clock w_clock "k1" "k2" "c1" "u1" "u2" "d1" "d2" CallVideo CallAudio 5 5 w_idle);
    [exact w_circle_reachable | by vm_compute..].
Defined.

(** The state of a call after two requests of [u2] have met: one device accepts, and has
    read the call as ringing, while the other declines and so ends it. *)
Definition accept_meets_decline (rest : list bool) : option CallState :=
  let '(w, _, _) := interleave ([true; true] ++ replicate 8 false ++ rest) w_ringing
    (Accept ∅ w_clock "k1" "u2" "phone" 7) (Decline ∅ w_clock "k1" "u2" 7) in
  Call_State <$> calls (tbl w) !! "k1".

(** The refusal ends the call, and the acceptance makes the ended call active. *)
Example ended_call_revived :
  accept_meets_decline [] = Some CallEnded ∧ accept_meets_decline [true; true] = Some CallActive.
Proof. split; by vm_compute. Qed.
End witnesses.
