(* ===== verification/Schedule.v ===== *)
(** * Scheduled messages

    [internal/schedule] schedule.go and the scheduled rows of [internal/store/memory]
    schedule.go.  The dispatcher claims due rows and hands each to the message service; here
    it runs over that service's own model. *)

From S2P Require Import Prelude Model EventBus MemChats MemMessages MemAccounts MessageLog ChatService MessageService.

Record ScheduledMessage := mkScheduled {
  Sched_ID : string;
  Sched_ChatID : string;
  Sched_SenderID : string;
  Sched_Text : string;
  Sched_MediaRef : string;
  Sched_Attachment : option Attachment;
  Sched_ReplyTo : string;
  Sched_TTLSeconds : Z;
  Sched_SendAt : Z;
  Sched_CreatedAt : Z;
  Sched_Sent : bool;
}.

Definition mark_sent (m : ScheduledMessage) : ScheduledMessage :=
  mkScheduled (Sched_ID m) (Sched_ChatID m) (Sched_SenderID m) (Sched_Text m) (Sched_MediaRef m)
    (Sched_Attachment m) (Sched_ReplyTo m) (Sched_TTLSeconds m) (Sched_SendAt m) (Sched_CreatedAt m) true.

(** [MaxHorizon] in milliseconds: a year of 365 days. *)
Definition MaxHorizon : Z := 365 * 24 * 3600 * 1000.
Definition sentRetain : Z := 3600 * 1000.
Definition purgeBatch : Z := 500.

Abbreviation Pending := (gmap string ScheduledMessage).

(** ** The store *)

Definition CreateScheduled (m : ScheduledMessage) : M Pending unit := modify <[Sched_ID m := m]>.

Definition CancelScheduled (id senderID : string) : M Pending unit :=
  d ← get;
  match d !! id with
  | None => fail store_ErrNotFound
  | Some m =>
      if negb (bool_decide (Sched_SenderID m = senderID)) || Sched_Sent m then fail store_ErrNotFound
      else modify (delete id)
  end.

Definition send_before (a b : ScheduledMessage) : Prop := Sched_SendAt a ≤ Sched_SendAt b.
#[global] Instance send_before_dec : RelDecision send_before.
Proof. intros a b. unfold send_before. apply _. Defined.

(** The body of the claiming loop, over the rows in iteration order. *)
Fixpoint claim_loop (now limit : Z) (rows : list (string * ScheduledMessage)) (out : list ScheduledMessage) (d : Pending)
    : Pending * list ScheduledMessage :=
  match rows with
  | [] => (d, out)
  | (id, m) :: rows =>
      if Sched_Sent m || (now <? Sched_SendAt m) then claim_loop now limit rows out d
      else
        let m := mark_sent m in
        let d := <[id := m]> d in
        let out := out ++ [m] in
        if limit <=? len out then (d, out) else claim_loop now limit rows out d
  end.

Fixpoint purge_loop (before limit : Z) (rows : list (string * ScheduledMessage)) (n : Z) (d : Pending) : Pending * Z :=
  match rows with
  | [] => (d, n)
  | (id, m) :: rows =>
      if limit <=? n then (d, n)
      else if Sched_Sent m && (Sched_SendAt m <? before) then purge_loop before limit rows (n + 1) (delete id d)
      else purge_loop before limit rows n d
  end.

Section schedule.
Context `{RangeOrder}.

Definition ListScheduled (senderID chatID : string) : M Pending (list ScheduledMessage) :=
  gets (λ d, merge_sort send_before
    (filter (λ m, Sched_SenderID m = senderID ∧ Sched_ChatID m = chatID ∧ Sched_Sent m = false) (range_map d).*2)).

Definition ClaimDueScheduled (now limit : Z) : M Pending (list ScheduledMessage) := λ d,
  let limit := if limit <=? 0 then 100 else limit in
  let '(d', out) := claim_loop now limit (range_map d) [] d in (d', Ok (merge_sort send_before out)).

Definition PurgeSentScheduled (before limit : Z) : M Pending Z := λ d,
  let '(d', n) := purge_loop before limit (range_map d) 0 d in (d', Ok n).

(** ** The service *)

Record SchedInput := mkSchedInput {
  SIn_ChatID : string;
  SIn_SenderID : string;
  SIn_Text : string;
  SIn_MediaRef : string;
  SIn_Attachment : option Attachment;
  SIn_ReplyTo : string;
  SIn_TTLSeconds : Z;
  SIn_SendAt : Z;
}.

(** The scheduled rows beside the state [X] of the message service. *)
Record SchedState (X : Type) := mkSchedState { scheduled : Pending; rest : X }.
#[global] Arguments mkSchedState {X}.
#[global] Arguments scheduled {X}.
#[global] Arguments rest {X}.

(** What firing one message reads: the clock for the authority, fresh ids, the time. *)
Record Firing (T : Type) := mkFiring { f_check : T; f_send : T; f_id : string; f_obID : string; f_now : Z }.
#[global] Arguments mkFiring {T}.
#[global] Arguments f_check {T}.
#[global] Arguments f_send {T}.
#[global] Arguments f_id {T}.
#[global] Arguments f_obID {T}.
#[global] Arguments f_now {T}.

Section service.
Context `{HasStore X} `{Chats T X}.
Variable trace : gmap string string.
(** [blocks], if a gate is attached. *)
Variable blocks : option (string → string → M X bool).

Definition on_pending {A} (m : M Pending A) : M (SchedState X) A := λ s,
  let '(d, r) := m (scheduled s) in (mkSchedState d (rest s), r).
Definition on_world {A} (m : M X A) : M (SchedState X) A := λ s,
  let '(x, r) := m (rest s) in (mkSchedState (scheduled s) x, r).

Definition Schedule (t : T) (newID : string) (in_ : SchedInput) (now : Z) : M (SchedState X) ScheduledMessage :=
  guard_or (negb (SIn_SendAt in_ <=? now)) schedule_ErrPastTime;;
  guard_or (negb (i64 (now + MaxHorizon) <? SIn_SendAt in_)) schedule_ErrTooFar;;
  ok ← on_world (Chats_CanPost t (SIn_ChatID in_) (SIn_SenderID in_));
  guard_or ok schedule_ErrForbidden;;
  let m := mkScheduled newID (SIn_ChatID in_) (SIn_SenderID in_) (SIn_Text in_) (SIn_MediaRef in_)
    (SIn_Attachment in_) (SIn_ReplyTo in_) (SIn_TTLSeconds in_) (SIn_SendAt in_) now false in
  on_pending (CreateScheduled m);;
  mret m.

Definition Cancel (id senderID : string) : M (SchedState X) unit := on_pending (CancelScheduled id senderID).
Definition List_ (senderID chatID : string) : M (SchedState X) (list ScheduledMessage) :=
  on_pending (ListScheduled senderID chatID).

(** The send a claimed row becomes. *)
Definition due_input (m : ScheduledMessage) : SendInput :=
  mkSend (Sched_SenderID m) (Sched_ChatID m) ("sched:" +:+ Sched_ID m) (Sched_Text m) (Sched_MediaRef m)
    (Sched_ReplyTo m) (Sched_Attachment m) None (Sched_TTLSeconds m).

(** The body of the loop of [dispatchDue]; failures are logged and the loop goes on. *)
Definition fire (f : Firing T) (m : ScheduledMessage) : M X unit :=
  ok ← attempt (Chats_CanPost (f_check f) (Sched_ChatID m) (Sched_SenderID m));
  if negb (bool_decide (ok = Ok true)) then mret tt else
  blocked ← match blocks with
            | None => mret false
            | Some gate =>
                r ← attempt (gate (Sched_ChatID m) (Sched_SenderID m));
                mret (negb (bool_decide (r = Ok false)))
            end;
  if blocked : bool then mret tt else
  attempt (Send trace (f_send f) (f_id f) (f_obID f) (f_now f) (due_input m));;
  mret tt.

Fixpoint fire_all (fs : string → Firing T) (due : list ScheduledMessage) : M X unit :=
  match due with [] => mret tt | m :: due => fire (fs (Sched_ID m)) m;; fire_all fs due end.

Definition dispatchDue (fs : string → Firing T) (now : Z) : M (SchedState X) unit :=
  due ← on_pending (ClaimDueScheduled now 100);
  on_world (fire_all fs due).

(** The loop of [purgeSent]: one batch after another until one is short. *)
Fixpoint purge_batches (fuel : nat) (before : Z) : M (SchedState X) bool :=
  match fuel with
  | O => mret false
  | S fuel =>
      n ← on_pending (PurgeSentScheduled before purgeBatch);
      if n <? purgeBatch then mret true else purge_batches fuel before
  end.
Definition purgeSent (fuel : nat) (now : Z) : M (SchedState X) bool := purge_batches fuel (now - sentRetain).
End service.
End schedule.

(** ** What the loops compute *)

Definition due (now : Z) (m : ScheduledMessage) : bool := negb (Sched_Sent m || (now <? Sched_SendAt m)).
Definition stale (before : Z) (m : ScheduledMessage) : bool := Sched_Sent m && (Sched_SendAt m <? before).

Abbreviation Row := (string * ScheduledMessage)%type.
Definition mark_rows (rows : list Row) (d : Pending) : Pending :=
  foldl (λ d (e : Row), <[e.1 := mark_sent e.2]> d) d rows.
Definition drop_rows (rows : list Row) (d : Pending) : Pending := foldl (λ d (e : Row), delete e.1 d) d rows.

Lemma claim_loop_eq now limit rows out d :
  len out < limit →
  claim_loop now limit rows out d =
  let taken := ztake (limit - len out) (filter (λ e : Row, due now e.2 = true) rows) in
  (mark_rows taken d, out ++ ((λ e : Row, mark_sent e.2) <$> taken)).
Proof.
  unfold due. revert out d. induction rows as [|[id m] rows IH]; intros out d Hout.
  { unfold ztake. cbn. by rewrite take_nil, app_nil_r. }
  cbn [claim_loop]. rewrite filter_cons. cbn [snd]. destruct (Sched_Sent m || (now <? Sched_SendAt m)); cbn [negb].
  { rewrite decide_False by done. by apply IH. }
  rewrite decide_True by done. cbv zeta. rewrite len_app, len_cons, len_nil. unfold ztake.
  destruct (Z.leb_spec limit (len out + (1 + 0))).
  - replace (Z.to_nat (limit - len out)) with 1%nat by lia. cbn. by rewrite take_0.
  - rewrite IH by (rewrite len_app, len_cons, len_nil; lia). cbv zeta. unfold ztake.
    rewrite len_app, len_cons, len_nil.
    replace (Z.to_nat (limit - len out)) with (S (Z.to_nat (limit - (len out + (1 + 0))))) by lia.
    cbn [take mark_rows foldl fst snd fmap list_fmap]. by rewrite <- app_assoc.
Qed.

Lemma purge_loop_eq before limit rows n d :
  n ≤ limit →
  purge_loop before limit rows n d =
  let taken := ztake (limit - n) (filter (λ e : Row, stale before e.2 = true) rows) in
  (drop_rows taken d, n + len taken).
Proof.
  unfold stale. revert n d. induction rows as [|[id m] rows IH]; intros n d Hn; cbn [purge_loop].
  { unfold ztake. cbn. rewrite take_nil. cbn. by rewrite Z.add_0_r. }
  rewrite filter_cons. cbn [snd]. unfold ztake. destruct (Z.leb_spec limit n).
  { replace (Z.to_nat (limit - n)) with 0%nat by lia. cbn. by rewrite Z.add_0_r. }
  destruct (Sched_Sent m && (Sched_SendAt m <? before)).
  - rewrite decide_True, IH by (done || lia). cbv zeta. unfold ztake.
    replace (Z.to_nat (limit - n)) with (S (Z.to_nat (limit - (n + 1)))) by lia.
    cbn [take drop_rows foldl fst]. f_equal. rewrite len_cons. lia.
  - rewrite decide_False by done. by rewrite IH.
Qed.

(** Rows of a table, each key once. *)
Definition rows_of (d : Pending) (rows : list Row) : Prop :=
  NoDup rows.*1 ∧ ∀ id m, (id, m) ∈ rows → d !! id = Some m.

Lemma lookup_mark_rows rows d id :
  NoDup rows.*1 →
  mark_rows rows d !! id =
  match list_find (λ e : Row, e.1 = id) rows with Some (_, e) => Some (mark_sent e.2) | None => d !! id end.
Proof.
  unfold mark_rows. revert d. induction rows as [|[k m] rows IH]; intros d Hnd; [done|]. cbn [foldl fst snd].
  cbn in Hnd. apply NoDup_cons in Hnd as [Hk Hnd]. rewrite IH by done. cbn [list_find fst].
  destruct (decide (k = id)) as [->|Hne].
  - assert (list_find (λ e : Row, e.1 = id) rows = None) as ->.
    { apply list_find_None, Forall_forall. intros [k' m'] Hin Hk'. cbn in Hk'. subst k'. apply Hk. apply list_elem_of_fmap. by exists (id, m'). }
    by rewrite lookup_insert_eq.
  - destruct (list_find _ rows) as [[i e]|]; [done|]. cbn. by rewrite lookup_insert_ne.
Qed.

Lemma lookup_drop_rows rows d id : drop_rows rows d !! id = if decide (id ∈ rows.*1) then None else d !! id.
Proof.
  unfold drop_rows. revert d. induction rows as [|[k m] rows IH]; intros d; [done|]. cbn [foldl fst].
  rewrite IH. cbn. destruct (decide (id = k)) as [->|Hne].
  - rewrite (decide_True (P := k ∈ k :: rows.*1)) by left. case_decide; [done|]. by rewrite lookup_delete_eq.
  - rewrite lookup_delete_ne by done. apply decide_ext. rewrite elem_of_cons. tauto.
Qed.

Section claims.
Context `{RangeOrder}.

Definition due_rows (now : Z) (d : Pending) : list Row := filter (λ e : Row, due now e.2 = true) (range_map d).

Lemma rows_of_take (P : Row → Prop) `{∀ e, Decision (P e)} n d : rows_of d (ztake n (filter P (range_map d))).
Proof.
  split.
  - eapply sublist_NoDup; [apply (NoDup_fmap_filter fst P), NoDup_range_keys|].
    unfold ztake. rewrite fmap_take. apply sublist_take.
  - intros id m Hin%elem_of_ztake. apply list_elem_of_filter in Hin as [_ Hin]. by apply elem_of_range_map in Hin.
Qed.

(** A claim marks some due rows and hands exactly those out. *)
Lemma Claim_run now limit d :
  0 < limit →
  let taken := ztake limit (due_rows now d) in
  ∃ out, ClaimDueScheduled now limit d = (mark_rows taken d, Ok out) ∧ out ≡ₚ (λ e : Row, mark_sent e.2) <$> taken.
Proof.
  intros Hl taken. unfold ClaimDueScheduled. rewrite (proj2 (Z.leb_gt _ _)) by done.
  rewrite claim_loop_eq by (rewrite len_nil; done). rewrite len_nil, Z.sub_0_r. cbv zeta. fold (due_rows now d). fold taken.
  eexists. split; [done|]. apply merge_sort_Permutation.
Qed.

(** A row after a claim. *)
Lemma claimed_lookup now limit d id :
  let taken := ztake limit (due_rows now d) in
  (∃ m, (id, m) ∈ taken ∧ d !! id = Some m ∧ due now m = true ∧ mark_rows taken d !! id = Some (mark_sent m)) ∨
  ((id ∉ taken.*1) ∧ mark_rows taken d !! id = d !! id).
Proof.
  intros taken. destruct (rows_of_take (λ e : Row, due now e.2 = true) limit d) as [Hnd Hrows].
  fold (due_rows now d) in Hnd, Hrows. fold taken in Hnd, Hrows. rewrite lookup_mark_rows by done.
  destruct (list_find (λ e : Row, e.1 = id) taken) as [[i [k m]]|] eqn:E.
  - apply list_find_Some in E as (Hi & Hk & _). cbn in Hk. subst k. left. exists m.
    assert ((id, m) ∈ taken) as Hin by by eapply list_elem_of_lookup_2. split_and!; [done | by apply Hrows | | done].
    apply elem_of_ztake in Hin. by apply list_elem_of_filter in Hin as [? _].
  - right. split; [|done]. apply list_find_None in E. rewrite Forall_forall in E. intros Hin.
    apply list_elem_of_fmap in Hin as ([k m] & -> & Hin). by apply (E _ Hin).
Qed.

(** ** A run of the store *)

Inductive sop :=
  | SCreate (m : ScheduledMessage)
  | SCancel (id senderID : string)
  | SClaim (now limit : Z)
  | SPurge (before limit : Z).

(** The rows, and what has happened: ids handed to [CreateScheduled], claims with their
    time, ids whose cancellation succeeded. *)
Record History := mkHistory {
  h_rows : Pending;
  h_used : list string;
  h_claimed : list (Z * ScheduledMessage);
  h_cancelled : list string;
}.

Definition serve (o : sop) (h : History) : History :=
  match o with
  | SCreate m => mkHistory (CreateScheduled m (h_rows h)).1 (Sched_ID m :: h_used h) (h_claimed h) (h_cancelled h)
  | SCancel id u =>
      match CancelScheduled id u (h_rows h) with
      | (d, Ok _) => mkHistory d (h_used h) (h_claimed h) (id :: h_cancelled h)
      | (d, Err _) => mkHistory d (h_used h) (h_claimed h) (h_cancelled h)
      end
  | SClaim now limit =>
      match ClaimDueScheduled now limit (h_rows h) with
      | (d, Ok out) => mkHistory d (h_used h) (h_claimed h ++ ((λ m, (now, m)) <$> out)) (h_cancelled h)
      | (d, Err _) => mkHistory d (h_used h) (h_claimed h) (h_cancelled h)
      end
  | SPurge before limit =>
      mkHistory (PurgeSentScheduled before limit (h_rows h)).1 (h_used h) (h_claimed h) (h_cancelled h)
  end.

(** Ids are fresh and a new row is unsent, as [Schedule] makes them. *)
Definition admissible (o : sop) (h : History) : Prop :=
  match o with SCreate m => (Sched_ID m ∉ h_used h) ∧ Sched_Sent m = false | _ => True end.
Inductive history : History → Prop :=
  | h_start : history (mkHistory ∅ [] [] [])
  | h_serve o h : history h → admissible o h → history (serve o h).

Definition claimed_ids (h : History) : list string := (λ e : Z * ScheduledMessage, Sched_ID e.2) <$> h_claimed h.

Record history_ok (h : History) : Prop := {
  ok_id id m : h_rows h !! id = Some m → Sched_ID m = id ∧ id ∈ h_used h ∧ (id ∉ h_cancelled h);
  ok_unsent id m : h_rows h !! id = Some m → Sched_Sent m = false → id ∉ claimed_ids h;
  ok_once : NoDup (claimed_ids h);
  ok_time : Forall (λ e, Sched_SendAt e.2 ≤ e.1) (h_claimed h);
  ok_apart id : id ∈ h_cancelled h → id ∉ claimed_ids h;
  ok_used id : id ∈ claimed_ids h ∨ id ∈ h_cancelled h → id ∈ h_used h;
}.

Lemma Cancel_run id u d :
  CancelScheduled id u d =
  match d !! id with
  | Some m => if bool_decide (Sched_SenderID m = u) && negb (Sched_Sent m) then (delete id d, Ok tt) else (d, Err store_ErrNotFound)
  | None => (d, Err store_ErrNotFound)
  end.
Proof.
  unfold CancelScheduled. rewrite (bind_Ok _ _ _ d d) by done. destruct (d !! id) as [m|]; [|done].
  by destruct (bool_decide _), (Sched_Sent m).
Qed.

Lemma Purge_sub before limit d id m : (PurgeSentScheduled before limit d).1 !! id = Some m → d !! id = Some m.
Proof.
  unfold PurgeSentScheduled. destruct (Z.le_gt_cases 0 limit) as [Hl|Hl].
  - rewrite purge_loop_eq by done. cbv zeta. cbn [fst]. rewrite lookup_drop_rows. by case_decide.
  - destruct (range_map d) as [|[k x] rows]; cbn; [done|]. by rewrite (proj2 (Z.leb_le _ _)) by lia.
Qed.

Lemma claim_ok now limit h : history_ok h → history_ok (serve (SClaim now limit) h).
Proof.
  intros Hh. cbn [serve]. set (lim := if limit <=? 0 then 100 else limit).
  assert (0 < lim) as Hlim by (unfold lim; destruct (Z.leb_spec limit 0); lia).
  assert (ClaimDueScheduled now limit (h_rows h) = ClaimDueScheduled now lim (h_rows h)) as ->.
  { unfold ClaimDueScheduled. fold lim. by rewrite (proj2 (Z.leb_gt lim 0)) by done. }
  set (taken := ztake lim (due_rows now (h_rows h))).
  destruct (Claim_run now lim (h_rows h) Hlim) as (out & -> & Hout). fold taken in Hout |- *.
  destruct (rows_of_take (λ e : Row, due now e.2 = true) lim (h_rows h)) as [Hnd Hrows].
  fold (due_rows now (h_rows h)) in Hnd, Hrows. fold taken in Hnd, Hrows.
  assert (Sched_ID <$> out ≡ₚ taken.*1) as Hids.
  { rewrite Hout, <- list_fmap_compose. apply Permutation_refl', list_fmap_ext. intros i [k m] Hi. cbn.
    apply (ok_id h Hh k m). apply Hrows. by eapply list_elem_of_lookup_2. }
  assert (∀ id, id ∈ taken.*1 → ∃ m, h_rows h !! id = Some m ∧ due now m = true) as Hin.
  { intros id Hid. destruct (claimed_lookup now lim (h_rows h) id) as [(m & _ & Hm & Hdue & _)|[Hn _]]; [eauto|done]. }
  assert (∀ id, id ∈ taken.*1 → id ∉ claimed_ids h) as Hnew.
  { intros id (m & Hm & Hdue)%Hin. apply (ok_unsent h Hh id m Hm). unfold due in Hdue.
    apply negb_true_iff, orb_false_iff in Hdue. tauto. }
  assert (∀ h', h_claimed h' = h_claimed h ++ ((λ m, (now, m)) <$> out) → claimed_ids h' ≡ₚ claimed_ids h ++ taken.*1) as Hcl.
  { intros h' E. unfold claimed_ids. rewrite E, fmap_app, <- list_fmap_compose, <- Hids. done. }
  set (h' := mkHistory _ _ _ _). specialize (Hcl h' eq_refl). split.
  - intros id m Hm. cbn in Hm. destruct (claimed_lookup now lim (h_rows h) id) as [(m0 & _ & Hm0 & _ & E)|[_ E]];
      fold taken in E; rewrite E in Hm; [injection Hm as <-; by apply (ok_id h Hh id m0) | by apply (ok_id h Hh id m)].
  - intros id m Hm Hs. cbn in Hm. rewrite Hcl, elem_of_app.
    destruct (claimed_lookup now lim (h_rows h) id) as [(m0 & _ & _ & _ & E)|[Hn E]]; fold taken in E; rewrite E in Hm.
    + by injection Hm as <-.
    + intros [Hc|Hc]; [by apply (ok_unsent h Hh id m Hm Hs) | done].
  - rewrite Hcl. apply NoDup_app. split; [apply Hh|]. split; [|done]. intros id Hc Ht. by apply (Hnew id Ht).
  - apply Forall_app. split; [apply Hh|]. apply Forall_fmap. rewrite Hout. apply Forall_fmap, Forall_forall.
    intros [k m] Hkm. cbn. apply elem_of_ztake, list_elem_of_filter in Hkm as [Hdue _]. unfold due in Hdue. cbn in Hdue.
    apply negb_true_iff, orb_false_iff in Hdue as [_ Hdue%Z.ltb_ge]. done.
  - intros id Hc. rewrite Hcl, elem_of_app. intros [Hc'|Ht]; [by apply (ok_apart h Hh id)|].
    destruct (Hin id Ht) as (m & Hm & _). by apply (ok_id h Hh id m Hm).
  - intros id. rewrite Hcl, elem_of_app. intros [[Hc|Ht]|Hc]; [apply Hh; by left| |apply Hh; by right].
    destruct (Hin id Ht) as (m & Hm & _). by apply (ok_id h Hh id m Hm).
Qed.

Lemma serve_ok o h : history_ok h → admissible o h → history_ok (serve o h).
Proof.
  intros Hh Ho. destruct o as [m|id u|now limit|before limit].
  - destruct Ho as [Hnew Hs]. split; cbn; try apply Hh.
    + intros id m'. rewrite lookup_insert_Some. intros [[<- <-]|[_ Hm]].
      * split_and!; [done | left |]. intros Hc. apply Hnew, (ok_used h Hh). by right.
      * destruct (ok_id h Hh id m' Hm) as (? & ? & ?). split_and!; [done | by right | done].
    + intros id m'. rewrite lookup_insert_Some. intros [[<- <-]|[_ Hm]] Hs'; [|by eapply Hh].
      intros Hc. apply Hnew, (ok_used h Hh). by left.
    + intros id Hid. right. by apply Hh.
  - cbn [serve]. rewrite Cancel_run. destruct (h_rows h !! id) as [m|] eqn:Hm; [|by destruct Hh].
    destruct (bool_decide _ && negb (Sched_Sent m)) eqn:E; [|by destruct Hh].
    apply andb_prop in E as [_ E%negb_true_iff]. destruct (ok_id h Hh id m Hm) as (_ & Hu & _).
    pose proof (ok_unsent h Hh id m Hm E) as Hn. split; cbn; try apply Hh.
    + intros id' m' [Hne Hm']%lookup_delete_Some. destruct (ok_id h Hh id' m' Hm') as (? & ? & ?).
      split_and!; [done..|]. by intros [->|?]%elem_of_cons.
    + intros id' m' [_ Hm']%lookup_delete_Some. by apply Hh.
    + intros id' [->|Hc]%elem_of_cons; [done | by apply Hh].
    + intros id' [Hc|[->|Hc]%elem_of_cons]; [apply Hh; by left | done | apply Hh; by right].
  - by apply claim_ok.
  - split; cbn; try apply Hh.
    + intros id m Hm%Purge_sub. by apply Hh.
    + intros id m Hm%Purge_sub. by apply Hh.
Qed.

(** How many rows are due. *)
Definition backlog (now : Z) (d : Pending) : Z := len (due_rows now d).

Lemma backlog_claim now limit d :
  0 < limit → backlog now (ClaimDueScheduled now limit d).1 = Z.max 0 (backlog now d - limit).
Proof.
  intros Hl. destruct (Claim_run now limit d Hl) as (out & -> & _). cbn [fst].
  set (taken := ztake limit (due_rows now d)).
  assert (NoDup (due_rows now d).*1) as Hnd by apply (NoDup_fmap_filter fst), NoDup_range_keys.
  assert (due_rows now (mark_rows taken d) ≡ₚ zdrop limit (due_rows now d)) as Hperm.
  { apply NoDup_Permutation.
    - eapply NoDup_fmap_1. apply (NoDup_fmap_filter fst), NoDup_range_keys.
    - apply NoDup_fmap_1 in Hnd. eapply sublist_NoDup; [exact Hnd|]. apply sublist_drop.
    - intros [id m]. unfold due_rows at 1. rewrite list_elem_of_filter, elem_of_range_map. cbn [snd].
      assert (id ∈ taken.*1 → (id, m) ∉ zdrop limit (due_rows now d)) as Hdisj.
      { intros Ht Hd. rewrite <- (ztake_zdrop limit (due_rows now d)), fmap_app in Hnd. apply NoDup_app in Hnd as (_ & Hx & _).
        apply (Hx id Ht). apply list_elem_of_fmap. by exists (id, m). }
      destruct (claimed_lookup now limit d id) as [(m0 & Hin & _ & _ & E)|[Hn E]]; fold taken in E; rewrite E.
      + assert (id ∈ taken.*1) as Ht by (apply list_elem_of_fmap; by exists (id, m0)). split.
        * intros [Hdue [= <-]]. done.
        * intros Hd. by destruct (Hdisj Ht).
      + rewrite <- elem_of_range_map. split.
        * intros [Hdue Hin]. assert ((id, m) ∈ due_rows now d) as Hr by by apply list_elem_of_filter.
          rewrite <- (ztake_zdrop limit (due_rows now d)) in Hr. apply elem_of_app in Hr as [Hr|]; [|done].
          destruct Hn. apply list_elem_of_fmap. by exists (id, m).
        * intros Hd. assert ((id, m) ∈ due_rows now d) as Hr.
          { rewrite <- (ztake_zdrop limit (due_rows now d)). apply elem_of_app. by right. }
          by apply list_elem_of_filter in Hr. }
  unfold backlog. rewrite Hperm. unfold len, zdrop. rewrite length_drop. lia.
Qed.

Definition stale_rows (before : Z) (d : Pending) : list Row := filter (λ e : Row, stale before e.2 = true) (range_map d).

Lemma Purge_run before d :
  let taken := ztake purgeBatch (stale_rows before d) in
  PurgeSentScheduled before purgeBatch d = (drop_rows taken d, Ok (len taken)).
Proof. intros taken. unfold PurgeSentScheduled. by rewrite purge_loop_eq. Qed.

(** Dropping stale rows leaves the others; dropping all of them leaves nothing else. *)
Lemma drop_rows_keeps before d rows :
  rows_of d rows → rows ⊆ stale_rows before d →
  filter (λ e : Row, stale before e.2 = false) (drop_rows rows d) = filter (λ e : Row, stale before e.2 = false) d.
Proof.
  intros [_ Hr] Hsub. apply map_eq. intros id. apply option_eq. intros m.
  rewrite !map_lookup_filter_Some, lookup_drop_rows. cbn [snd]. case_decide as Hin; [|done].
  split; [by intros [[=] _]|]. intros [Hm Hs]. apply list_elem_of_fmap in Hin as ([k m'] & -> & Hin). cbn in Hm.
  rewrite (Hr k m' Hin) in Hm. injection Hm as <-. apply Hsub, list_elem_of_filter in Hin as [Hs' _]. cbn in *. congruence.
Qed.

Lemma drop_rows_all before d :
  drop_rows (stale_rows before d) d = filter (λ e : Row, stale before e.2 = false) d.
Proof.
  rewrite <- (drop_rows_keeps before d (stale_rows before d)); [|split|done].
  - symmetry. apply map_filter_id. intros id m Hm. cbn. rewrite lookup_drop_rows in Hm. case_decide as Hin; [done|].
    destruct (stale before m) eqn:Hs; [|done]. destruct Hin. apply list_elem_of_fmap. exists (id, m). split; [done|].
    apply list_elem_of_filter. split; [done|]. by apply elem_of_range_map.
  - apply (NoDup_fmap_filter fst), NoDup_range_keys.
  - intros id m Hin%list_elem_of_filter. destruct Hin as [_ Hin]. by apply elem_of_range_map in Hin.
Qed.

Lemma drop_rows_size rows d : rows ≠ [] → rows_of d rows → (size (drop_rows rows d) < size d)%nat.
Proof.
  intros Hne [_ Hr]. destruct rows as [|[k m] rows]; [done|]. apply map_subset_size, map_subset_alt. split.
  - apply map_subseteq_spec. intros id m'. rewrite lookup_drop_rows. by case_decide.
  - exists k. rewrite lookup_drop_rows, decide_True by (cbn; left). split; [done|].
    rewrite (Hr k m) by left. eauto.
Qed.

(** ** Theorems *)

(** A scheduled message is sent once, in time, and not after it was cancelled.  Through
    any sequence of schedulings, cancellations, claims and purges — by any number of
    dispatchers — no id is claimed twice, none before its time, and none that was
    cancelled, before or after. *)
Theorem claimed_once h :
  history h →
  NoDup (claimed_ids h) ∧ Forall (λ e, Sched_SendAt e.2 ≤ e.1) (h_claimed h) ∧
  ∀ id, id ∈ h_cancelled h → id ∉ claimed_ids h.
Proof.
  intros Hh. assert (history_ok h) as Hok; [|split_and!; apply Hok].
  induction Hh as [|o h _ IH Ho]; [|by apply serve_ok].
  split; cbn; try (by intros ? ? [=]); try (by intros ? ?%not_elem_of_nil); [by constructor | by constructor |].
  by intros id [?%not_elem_of_nil|?%not_elem_of_nil].
Qed.
End claims.

Section service_theorems.
Context `{RangeOrder} `{HasStore X} `{Chats T X}.
Variable trace : gmap string string.
Variable blocks : option (string → string → M X bool).

Fixpoint ticks (n : nat) (fs : nat → string → Firing T) (now : Z) (s : SchedState X) : SchedState X :=
  match n with O => s | S n => ticks n fs now (dispatchDue trace blocks (fs n) now s).1 end.

Lemma dispatch_rows fs now s :
  scheduled (dispatchDue trace blocks fs now s).1 = (ClaimDueScheduled now 100 (scheduled s)).1.
Proof.
  unfold dispatchDue. rewrite M_bind_eq. unfold on_pending.
  destruct (ClaimDueScheduled now 100 (scheduled s)) as [d [out|e]]; [|done]. cbn [fst]. unfold on_world. cbn [rest].
  by destruct (fire_all trace blocks fs out (rest s)).
Qed.

(** Everything due is dispatched.  Whatever the message service answers, [k] ticks of
    the dispatcher take [100 * k] due messages: with enough ticks for the backlog, none is
    left waiting. *)
Theorem due_all_dispatched k fs now s :
  backlog now (scheduled s) ≤ 100 * Z.of_nat k → backlog now (scheduled (ticks k fs now s)) = 0.
Proof.
  revert s. induction k as [|k IH]; intros s Hk; cbn [ticks].
  - pose proof (len_nonneg (due_rows now (scheduled s))). unfold backlog in *. lia.
  - apply IH. rewrite dispatch_rows, backlog_claim by lia. lia.
Qed.

(** Purging ends and removes exactly what it should.  One batch more than the table has
    rows is enough, and then the rows left are those that are unsent or were due within
    the last hour. *)
Theorem purge_exact now (s : SchedState X) :
  let s' := (purgeSent (S (size (scheduled s))) now s).1 in
  (purgeSent (S (size (scheduled s))) now s).2 = Ok true ∧
  scheduled s' = filter (λ e : Row, stale (now - sentRetain) e.2 = false) (scheduled s) ∧ rest s' = rest s.
Proof.
  unfold purgeSent. set (before := now - sentRetain). generalize (Nat.lt_succ_diag_r (size (scheduled s))).
  generalize (S (size (scheduled s))) as fuel. intros fuel. revert s.
  induction fuel as [|fuel IH]; intros s Hf; [lia|]. cbn [purge_batches].
  set (rows := stale_rows before (scheduled s)).
  rewrite (bind_Ok _ _ _ (mkSchedState (drop_rows (ztake purgeBatch rows) (scheduled s)) (rest s)) (len (ztake purgeBatch rows)))
    by (unfold on_pending; by rewrite Purge_run).
  destruct (Z.ltb_spec (len (ztake purgeBatch rows)) purgeBatch) as [Hlt|Hge].
  - assert (ztake purgeBatch rows = rows) as E.
    { unfold ztake, len in *. rewrite length_take in Hlt. unfold purgeBatch in *. apply take_ge. lia. }
    cbn. rewrite E. split_and!; [done| |done]. apply drop_rows_all.
  - destruct (IH (mkSchedState (drop_rows (ztake purgeBatch rows) (scheduled s)) (rest s))) as (Hok & Hs & Hr).
    + cbn. enough (size (drop_rows (ztake purgeBatch rows) (scheduled s)) < size (scheduled s))%nat by lia.
      apply drop_rows_size; [|apply rows_of_take]. intros E. rewrite E in Hge. by unfold purgeBatch in Hge.
    + split_and!; [done| |done]. rewrite Hs. cbn [scheduled]. apply drop_rows_keeps; [apply rows_of_take|].
      intros e. apply elem_of_ztake.
Qed.

(** A message whose dispatch fails is lost.  The row is marked as sent before anything
    is tried: if the permission check then errs — the sender may well be allowed to post —
    nothing is sent, the sender can neither list nor cancel the message, and no later tick
    sends it. *)
Theorem failed_dispatch_lost m fs now x e :
  due now m = true →
  (∀ t, Chats_CanPost t (Sched_ChatID m) (Sched_SenderID m) x = (x, Err e)) →
  let s := mkSchedState {[Sched_ID m := m]} x in
  let s' := mkSchedState {[Sched_ID m := mark_sent m]} x in
  dispatchDue trace blocks fs now s = (s', Ok tt) ∧
  (List_ (Sched_SenderID m) (Sched_ChatID m) s').2 = Ok [] ∧
  (Cancel (Sched_ID m) (Sched_SenderID m) s').2 = Err store_ErrNotFound ∧
  ∀ fs' now' y, dispatchDue trace blocks fs' now' (mkSchedState (scheduled s') y) = (mkSchedState (scheduled s') y, Ok tt).
Proof.
  intros Hdue Herr s s'.
  assert (∀ (d : ScheduledMessage), range_map ({[Sched_ID m := d]} : Pending) = [(Sched_ID m, d)]) as Hrange.
  { intros d. apply Permutation_singleton_r. by rewrite range_map_perm, map_to_list_singleton. }
  assert (Sched_Sent m || (now <? Sched_SendAt m) = false) as Hd by by apply negb_true_iff.
  split_and!.
  - unfold dispatchDue. rewrite (bind_Ok _ _ _ s' [mark_sent m]).
    + unfold on_world. cbn [rest s' fire_all].
      assert (fire trace blocks (fs (Sched_ID (mark_sent m))) (mark_sent m) x = (x, Ok tt)) as Hfire.
      { unfold fire. rewrite (bind_Ok _ _ _ x (Err e)); [done|]. unfold attempt. by rewrite Herr. }
      by rewrite (bind_Ok _ _ _ x tt).
    + unfold on_pending, ClaimDueScheduled. cbn [scheduled s]. rewrite Hrange. cbn [claim_loop]. rewrite Hd.
      cbn -[merge_sort]. by rewrite insert_singleton_eq.
  - unfold List_, on_pending, ListScheduled, gets. cbn [scheduled s' snd]. rewrite Hrange.
    cbn [fmap list_fmap snd]. by rewrite filter_cons_False by by intros (_ & _ & ?).
  - unfold Cancel, on_pending. cbn [scheduled s']. rewrite Cancel_run, lookup_singleton_eq. cbn.
    by rewrite andb_false_r.
  - intros fs' now' y. unfold dispatchDue. rewrite M_bind_eq. unfold on_pending, ClaimDueScheduled. cbn [scheduled s'].
    rewrite Hrange. done.
Qed.
End service_theorems.

(** ** Witnesses: the poster [u1] of a channel, a reader [u2]. *)
Section witnesses.
#[local] Existing Instance canonical_order.

Definition w_later (id : string) : ScheduledMessage := mkScheduled id "c1" "u1" "hi" "" None "" 0 50 10 false.
Definition w_plan : History :=
  serve (SClaim 60 100) (serve (SCancel "s2" "u1") (serve (SCreate (w_later "s2")) (serve (SCreate (w_later "s1"))
    (mkHistory ∅ [] [] [])))).

Lemma claimed_once_witness :
  claimed_ids w_plan = ["s1"] ∧ h_cancelled w_plan = ["s2"] ∧
  NoDup (claimed_ids w_plan) ∧ ∀ id, id ∈ h_cancelled w_plan → id ∉ claimed_ids w_plan.
Proof.
  split; [by vm_compute|]. split; [by vm_compute|].
  destruct (claimed_once w_plan) as (H1 & _ & H3).
  { do 4 (apply h_serve; [|first [by split; [apply not_elem_of_nil|] | done
      | split; [by apply not_elem_of_cons; split; [|apply not_elem_of_nil]|done]]]). apply h_start. }
  exact (conj H1 H3).
Defined.

Abbreviation X := (Local (B := unit)).
Definition w_fire (t : Ticks) (_ : string) : Firing (Ticks * Ticks) := mkFiring (t, t) (t, t) "m1" "o1" 60.
Definition w_sched : SchedState X := mkSchedState {["s1" := w_later "s1"]} (w_channel, tt).

Lemma due_all_dispatched_witness :
  backlog 60 (scheduled w_sched) = 1 ∧
  backlog 60 (scheduled (ticks ∅ None 1 (λ _, w_fire (w_ticks 2)) 60 w_sched)) = 0.
Proof.
  split; [by vm_compute|]. apply (due_all_dispatched ∅ None 1 (λ _, w_fire (w_ticks 2)) 60 w_sched). by vm_compute.
Defined.

(** The message was for a chat that does not exist: the permission check errs. *)
Definition w_orphan : ScheduledMessage := mkScheduled "s1" "c9" "u1" "hi" "" None "" 0 50 10 false.
Lemma failed_dispatch_lost_witness :
  (dispatchDue (X := X) ∅ None (w_fire (w_ticks 2)) 60 (mkSchedState {["s1" := w_orphan]} (New 0 MemChats.New, tt))).2 = Ok tt.
Proof.
  destruct (failed_dispatch_lost (X := X) (T := Ticks * Ticks) ∅ None w_orphan (w_fire (w_ticks 2)) 60
    (New 0 MemChats.New, tt) store_ErrNotFound eq_refl) as (HD & _).
  { intros [t t']. by vm_compute. }
  exact (f_equal snd HD).
Defined.
End witnesses.
