(* ===== verification/Billing.v ===== *)
(** * Subscriptions and payments

    [internal/model] billing.go, [internal/billing] billing.go and [internal/store/memory]
    billing.go.  The service methods are [prog]s, cut at their store, acquirer and bus calls.
    An acquirer is a parameter, a [Provider]; what it was asked to charge is kept in the
    state, as its own record of it. *)

From S2P Require Import Prelude Bytes GoStrings EventBus MemAccounts Interleave.

(** ** The model *)

Inductive Plan := PlanFree | PlanPremium.
Inductive SubscriptionStatus := SubIncomplete | SubActive | SubPastDue | SubCanceled.
Inductive PaymentStatus := PayPending | PaySucceeded | PayFailed | PayRefunded.
Abbreviation PaymentMethod := string (only parsing).
#[global] Instance Plan_eq_dec : EqDecision Plan.
Proof. solve_decision. Defined.
#[global] Instance Plan_countable : Countable Plan.
Proof.
  refine (inj_countable' (λ p, match p with PlanFree => false | PlanPremium => true end)
    (λ b : bool, if b then PlanPremium else PlanFree) _). by intros [].
Defined.
#[global] Instance SubscriptionStatus_eq_dec : EqDecision SubscriptionStatus.
Proof. solve_decision. Defined.
#[global] Instance PaymentStatus_eq_dec : EqDecision PaymentStatus.
Proof. solve_decision. Defined.

Definition CanTransitionTo (p next : PaymentStatus) : bool :=
  if bool_decide (p = next) then false else
  match p with
  | PayPending => bool_decide (next = PaySucceeded) || bool_decide (next = PayFailed)
  | PaySucceeded => bool_decide (next = PayRefunded)
  | PayFailed => bool_decide (next = PaySucceeded)
  | PayRefunded => false
  end.

Definition Terminal (p : PaymentStatus) : bool := bool_decide (p = PayRefunded).

Record Subscription := mkSub {
  Sub_UserID : string;
  Sub_Plan : Plan;
  Sub_Status : SubscriptionStatus;
  Sub_CurrentPeriodEnd : Z;
  Sub_Provider : string;
  Sub_CreatedAt : Z;
  Sub_UpdatedAt : Z;
  Sub_CancelAtPeriodEnd : bool;
}.

Definition Active (s : Subscription) (now : Z) : bool :=
  if negb (bool_decide (Sub_Plan s = PlanPremium)) then false else
  match Sub_Status s with
  | SubActive | SubPastDue => (Sub_CurrentPeriodEnd s =? 0) || (now <? Sub_CurrentPeriodEnd s)
  | _ => false
  end.

Record Payment := mkPayment {
  Pay_ID : string;
  Pay_UserID : string;
  Pay_Plan : Plan;
  Pay_Provider : string;
  Pay_ProviderRef : string;
  Pay_Method : PaymentMethod;
  Pay_AmountMinor : Z;
  Pay_Currency : string;
  Pay_Status : PaymentStatus;
  Pay_IdempotencyKey : string;
  Pay_CreatedAt : Z;
  Pay_UpdatedAt : Z;
}.

Definition with_ref (ref : string) (p : Payment) : Payment :=
  mkPayment (Pay_ID p) (Pay_UserID p) (Pay_Plan p) (Pay_Provider p) ref (Pay_Method p) (Pay_AmountMinor p)
    (Pay_Currency p) (Pay_Status p) (Pay_IdempotencyKey p) (Pay_CreatedAt p) (Pay_UpdatedAt p).
Definition with_status (st : PaymentStatus) (at_ : Z) (p : Payment) : Payment :=
  mkPayment (Pay_ID p) (Pay_UserID p) (Pay_Plan p) (Pay_Provider p) (Pay_ProviderRef p) (Pay_Method p)
    (Pay_AmountMinor p) (Pay_Currency p) st (Pay_IdempotencyKey p) (Pay_CreatedAt p) at_.

Record Entitlements := mkEntitlements {
  Ent_Plan : Plan;
  Ent_SecretChats : bool;
  Ent_MaxUploadBytes : Z;
  Ent_MaxPinnedChats : Z;
  Ent_Folders : bool;
  Ent_AdvancedSearch : bool;
  Ent_PriorityDelivery : bool;
  Ent_VoiceTranscription : bool;
  Ent_Badge : bool;
  Ent_CustomThemes : bool;
}.

Definition FreeEntitlements : Entitlements :=
  mkEntitlements PlanFree false (Z.shiftl 100 20) 5 false false false false false false.
Definition PremiumEntitlements : Entitlements :=
  mkEntitlements PlanPremium true (Z.shiftl 4 30) 100 true true true true true true.
Definition EntitlementsFor (sub : Subscription) (now : Z) : Entitlements :=
  if Active sub now then PremiumEntitlements else FreeEntitlements.
Definition UngatedEntitlements : Entitlements :=
  let e := PremiumEntitlements in
  mkEntitlements PlanFree (Ent_SecretChats e) (Ent_MaxUploadBytes e) (Ent_MaxPinnedChats e) (Ent_Folders e)
    (Ent_AdvancedSearch e) (Ent_PriorityDelivery e) (Ent_VoiceTranscription e) false (Ent_CustomThemes e).

(** ** The store *)

Record BillingDB := mkBillingDB {
  subscriptions : gmap string Subscription;
  payments : gmap string Payment;
  paymentIdem : gmap string string;
  paymentRefs : gmap string string;
}.
Definition set_subscriptions (m : gmap string Subscription) (d : BillingDB) : BillingDB :=
  mkBillingDB m (payments d) (paymentIdem d) (paymentRefs d).
Definition set_payments (m : gmap string Payment) (d : BillingDB) : BillingDB :=
  mkBillingDB (subscriptions d) m (paymentIdem d) (paymentRefs d).
Definition set_paymentIdem (m : gmap string string) (d : BillingDB) : BillingDB :=
  mkBillingDB (subscriptions d) (payments d) m (paymentRefs d).
Definition set_paymentRefs (m : gmap string string) (d : BillingDB) : BillingDB :=
  mkBillingDB (subscriptions d) (payments d) (paymentIdem d) m.

Definition bar (a b : string) : string := a +:+ "|" +:+ b.

Definition GetSubscription (userID : string) : M BillingDB Subscription :=
  d ← get; found (subscriptions d) userID.

Definition PutSubscription (sub : Subscription) : M BillingDB unit :=
  modify (λ d, set_subscriptions (<[Sub_UserID sub := sub]> (subscriptions d)) d).

Definition CreatePayment (p : Payment) : M BillingDB (Payment * bool) :=
  d ← get;
  let key := bar (Pay_UserID p) (Pay_IdempotencyKey p) in
  match paymentIdem d !! key with
  | Some id => cp ← deref (payments d) id; mret (cp, true)
  | None =>
      modify (λ d, set_payments (<[Pay_ID p := p]> (payments d)) d);;
      modify (λ d, set_paymentIdem (<[key := Pay_ID p]> (paymentIdem d)) d);;
      (if bool_decide (Pay_ProviderRef p = "") then mret tt
       else modify (λ d, set_paymentRefs (<[bar (Pay_Provider p) (Pay_ProviderRef p) := Pay_ID p]> (paymentRefs d)) d));;
      mret (p, false)
  end.

Definition GetPaymentByRef (provider providerRef : string) : M BillingDB Payment :=
  d ← get;
  id ← found (paymentRefs d) (bar provider providerRef);
  deref (payments d) id.

Definition AttachProviderRef (paymentID providerRef : string) : M BillingDB unit :=
  d ← get;
  p ← found (payments d) paymentID;
  (if bool_decide (Pay_ProviderRef p = "") then mret tt
   else modify (λ d, set_paymentRefs (delete (bar (Pay_Provider p) (Pay_ProviderRef p)) (paymentRefs d)) d));;
  modify (λ d, set_payments (<[paymentID := with_ref providerRef p]> (payments d)) d);;
  modify (λ d, set_paymentRefs (<[bar (Pay_Provider p) providerRef := paymentID]> (paymentRefs d)) d).

Definition ApplyPaymentStatus (provider providerRef : string) (next : PaymentStatus) (at_ : Z)
    (sub : option Subscription) : M BillingDB bool :=
  d ← get;
  id ← found (paymentRefs d) (bar provider providerRef);
  p ← deref (payments d) id;
  if negb (CanTransitionTo (Pay_Status p) next) then mret false
  else
    modify (λ d, set_payments (<[id := with_status next at_ p]> (payments d)) d);;
    match sub with
    | Some s => modify (λ d, set_subscriptions (<[Sub_UserID s := s]> (subscriptions d)) d)
    | None => mret tt
    end;;
    mret true.

(** The newest first, then by id from the highest. *)
Definition receipt_order (p q : Payment) : Prop :=
  Pay_CreatedAt q < Pay_CreatedAt p ∨ (Pay_CreatedAt p = Pay_CreatedAt q ∧ String.leb (Pay_ID q) (Pay_ID p) = true).
#[global] Instance receipt_order_dec : RelDecision receipt_order.
Proof. intros p q. unfold receipt_order. apply _. Defined.

Fixpoint expire_loop (now limit : Z) (rows : list (string * Subscription)) (out : list string)
    (m : gmap string Subscription) : gmap string Subscription * list string :=
  match rows with
  | [] => (m, out)
  | (uid, sub) :: rows =>
      if limit <=? len out then (m, out) else
      let live := bool_decide (Sub_Status sub = SubActive) || bool_decide (Sub_Status sub = SubPastDue) in
      if negb live || (Sub_CurrentPeriodEnd sub =? 0) || (now <? Sub_CurrentPeriodEnd sub)
      then expire_loop now limit rows out m
      else expire_loop now limit rows (out ++ [uid])
             (<[uid := mkSub (Sub_UserID sub) (Sub_Plan sub) SubCanceled (Sub_CurrentPeriodEnd sub) (Sub_Provider sub)
                         (Sub_CreatedAt sub) now (Sub_CancelAtPeriodEnd sub)]> m)
  end.

Section store.
Context `{RangeOrder}.

Definition ListPayments (userID : string) (limit : Z) : M BillingDB (list Payment) :=
  gets (λ d,
    let limit := if limit <=? 0 then 50 else limit in
    let out := merge_sort receipt_order (filter (λ p, Pay_UserID p = userID) (range_map (payments d)).*2) in
    if limit <? len out then ztake limit out else out).

Definition ExpireSubscriptions (now limit : Z) : M BillingDB (list string) := λ d,
  let limit := if limit <=? 0 then 500 else limit in
  let '(m, out) := expire_loop now limit (range_map (subscriptions d)) [] (subscriptions d) in
  (set_subscriptions m d, Ok out).
End store.

(** ** The service *)

Definition ProviderYooKassa : string := "yookassa".
Definition ProviderStripe : string := "stripe".
(** 30 days in milliseconds. *)
Definition subscriptionPeriod : Z := 30 * 24 * 3600 * 1000.
Definition expirySweepBatch : Z := 500.

Abbreviation Prices := (gmap (Plan * string) Z).
Definition defaultPrices : Prices :=
  {[ (PlanPremium, "RUB") := 29900; (PlanPremium, "USD") := 399; (PlanPremium, "EUR") := 399 ]}.

Record CheckoutRequest := mkCheckoutRequest {
  Req_UserID : string;
  Req_Country : string;
  Req_Method : PaymentMethod;
  Req_IdempotencyKey : string;
  Req_ReturnURL : string;
}.
Record Checkout_ := mkCheckout {
  Chk_Payment : Payment;
  Chk_PayURL : string;
  Chk_QRPayload : string;
  Chk_Deduplicated : bool;
}.
Record PlanOffer := mkOffer {
  Offer_Plan : Plan;
  Offer_AmountMinor : Z;
  Offer_Currency : string;
  Offer_PeriodDays : Z;
  Offer_Methods : list PaymentMethod;
}.
Record subscriptionEvent := mkSubEvent {
  SE_UserID : string;
  SE_Plan : Plan;
  SE_Status : SubscriptionStatus;
  SE_PeriodEnd : Z;
  SE_Entitlements : Entitlements;
}.
Record ChargeRequest := mkChargeRequest {
  Charge_UserID : string;
  Charge_Plan : Plan;
  Charge_Method : PaymentMethod;
  Charge_AmountMinor : Z;
  Charge_Currency : string;
  Charge_IdempotencyKey : string;
  Charge_ReturnURL : string;
}.
Record ChargeResult := mkChargeResult { CR_ProviderRef : string; CR_PayURL : string; CR_QRPayload : string }.
Record Callback := mkCallback {
  CB_ProviderRef : string;
  CB_Status : PaymentStatus;
  CB_AmountMinor : Z;
  CB_Currency : string;
  CB_PaidAt : Z;
}.

(** An acquirer; [Prov_AllowsSource] for one that restricts where its notifications come
    from, given the address one arrived from. *)
Record Provider := mkProvider {
  Prov_Name : string;
  Prov_Methods : list PaymentMethod;
  Prov_Charge : ChargeRequest → result ChargeResult;
  Prov_Verify : bytes → gmap string string → result Callback;
  Prov_AllowsSource : option (string → bool);
}.

Section billing.
Context `{RangeOrder} `{Unicode} {B : Type} `{Bus subscriptionEvent B}.

(** The store, the bus, and what the acquirers were asked to charge. *)
Record World := mkWorld { db : BillingDB; bus : B; charged : list (string * ChargeRequest) }.

Definition tx {A} (m : M BillingDB A) : prog World A := act (λ w,
  let '(d, r) := m (db w) in (mkWorld d (bus w) (charged w), r)).
Definition raise {A} (e : error) : prog World A := Done (Err e).

Definition isRussia (country : string) : bool := EqualFold (TrimSpace (sbytes country)) (sbytes "RU").
Definition isEurozone (country : string) : bool :=
  bool_decide (bstring (ToUpper (TrimSpace (sbytes country))) ∈
    ["AT"; "BE"; "CY"; "DE"; "EE"; "ES"; "FI"; "FR"; "GR"; "HR"; "IE"; "IT"; "LT"; "LU"; "LV"; "MT"; "NL"; "PT"; "SI"; "SK"]).
Definition currencyFor (country : string) : string :=
  if isRussia country then "RUB" else if isEurozone country then "EUR" else "USD".

Section service.
(** The registered acquirers and the catalogue. *)
Variable providers : gmap string Provider.
Variable prices : Prices.

Definition SellsTiers : bool := 0 <? maplen providers.

Definition providerFor (country : string) : option Provider :=
  let name := if isRussia country then ProviderYooKassa else ProviderStripe in
  match providers !! name with
  | Some p => Some p
  | None => match range_map providers with (_, p) :: _ => Some p | [] => None end
  end.

Definition methodsFor (country : string) : list PaymentMethod :=
  match providerFor country with Some p => Prov_Methods p | None => [] end.

Definition Plans (country : string) : list PlanOffer :=
  let currency := currencyFor country in
  match prices !! (PlanPremium, currency) with
  | None => []
  | Some amount => [mkOffer PlanPremium amount currency 30 (methodsFor country)]
  end.

Definition supports (p : Provider) (m : PaymentMethod) : bool := existsb (λ have, bool_decide (have = m)) (Prov_Methods p).

(** [announce]; [nowA] is its own reading of the clock. *)
Definition announce (nowA : Z) (sub : Subscription) : prog World unit :=
  let ev := mkSubEvent (Sub_UserID sub) (Sub_Plan sub) (Sub_Status sub) (Sub_CurrentPeriodEnd sub)
    (EntitlementsFor sub nowA) in
  settle_ (act (λ w, let '(b, r) := Publish (mkEvent SubjSubscription (Sub_UserID sub) ev ∅) (bus w) in
                     (mkWorld (db w) b (charged w), r)));;
  mret tt.

Definition ensureIncompleteSubscription (userID provider : string) (now : Z) : prog World unit :=
  r ← settle_ (tx (GetSubscription userID));
  let put := tx (PutSubscription (mkSub userID PlanPremium SubIncomplete 0 provider now now false)) in
  match r with
  | Ok existing => if Active existing now then mret tt else put
  | Err store_ErrNotFound => put
  | Err e => raise e
  end.

Definition charge (p : Provider) (req : ChargeRequest) : prog World (result ChargeResult) :=
  act (λ w, (mkWorld (db w) (bus w) (charged w ++ [(Prov_Name p, req)]), Ok (Prov_Charge p req))).

Definition new_payment (newID : string) (req : CheckoutRequest) (provider : Provider) (method : PaymentMethod)
    (amount : Z) (currency : string) (now : Z) : Payment :=
  mkPayment newID (Req_UserID req) PlanPremium (Prov_Name provider) "" method amount currency PayPending
    (Req_IdempotencyKey req) now now.

Definition Checkout (newID : string) (req : CheckoutRequest) (now : Z) : prog World Checkout_ :=
  if bool_decide (Req_UserID req = "") then raise billing_ErrNoUser else
  if bool_decide (Req_IdempotencyKey req = "") then raise billing_ErrNoIdempotencyKey else
  let currency := currencyFor (Req_Country req) in
  match prices !! (PlanPremium, currency) with
  | None => raise billing_ErrNoPrice
  | Some amount =>
      match providerFor (Req_Country req) with
      | None => raise billing_ErrNoProvider
      | Some provider =>
          match (if bool_decide (Req_Method req = "") then head (Prov_Methods provider) else Some (Req_Method req)) with
          | None => raise go_panic
          | Some method =>
              if negb (supports provider method) then raise billing_ErrBadMethod else
              '(stored, dup) ← tx (CreatePayment (new_payment newID req provider method amount currency now));
              if dup : bool then mret (mkCheckout stored "" "" true) else
              r ← charge provider (mkChargeRequest (Req_UserID req) PlanPremium method amount currency
                                     (Req_IdempotencyKey req) (Req_ReturnURL req));
              match r with
              | Err _ => raise billing_ErrChargeFailed
              | Ok res =>
                  if bool_decide (CR_ProviderRef res = "") then raise billing_ErrNoProviderRef else
                  tx (AttachProviderRef (Pay_ID stored) (CR_ProviderRef res));;
                  ensureIncompleteSubscription (Req_UserID req) (Prov_Name provider) now;;
                  mret (mkCheckout (with_ref (CR_ProviderRef res) stored) (CR_PayURL res) (CR_QRPayload res) false)
              end
          end
      end
  end.

Definition extended (s : Subscription) (p : Payment) (at_ : Z) : Subscription :=
  let from := if at_ <? Sub_CurrentPeriodEnd s then Sub_CurrentPeriodEnd s else at_ in
  mkSub (Sub_UserID s) (Pay_Plan p) SubActive (i64 (from + subscriptionPeriod)) (Pay_Provider p)
    (if Sub_CreatedAt s =? 0 then at_ else Sub_CreatedAt s) at_ false.

(** A user without a row starts from the zero record, whose plan and status [extended]
    replaces. *)
Definition blank_sub (userID : string) (at_ : Z) : Subscription := mkSub userID PlanFree SubIncomplete 0 "" at_ 0 false.

Definition subscriptionAfterPayment (p : Payment) (at_ : Z) : prog World Subscription :=
  r ← settle_ (tx (GetSubscription (Pay_UserID p)));
  let s := match r with Ok s => s | Err _ => blank_sub (Pay_UserID p) at_ end in
  mret (extended s p at_).

Definition HandleCallback (providerName source : string) (raw : bytes) (headers : gmap string string)
    (now nowA : Z) : prog World unit :=
  match providers !! providerName with
  | None => raise billing_ErrNoProvider
  | Some provider =>
      if match Prov_AllowsSource provider with Some allows => negb (allows source) | None => false end
      then raise billing_ErrUntrustedSource else
      match Prov_Verify provider raw headers with
      | Err billing_ErrProviderUnavailable => raise billing_ErrProviderUnavailable
      | Err _ => raise billing_ErrBadSignature
      | Ok cb =>
          r ← settle_ (tx (GetPaymentByRef providerName (CB_ProviderRef cb)));
          match r with
          | Err store_ErrNotFound => mret tt
          | Err e => raise e
          | Ok payment =>
              if negb (CB_AmountMinor cb =? 0) && negb (CB_AmountMinor cb =? Pay_AmountMinor payment)
              then raise billing_ErrAmountMismatch else
              let at_ := if CB_PaidAt cb =? 0 then now else CB_PaidAt cb in
              sub ← (if bool_decide (CB_Status cb = PaySucceeded)
                     then s ← subscriptionAfterPayment payment at_; mret (Some s)
                     else mret None);
              changed ← tx (ApplyPaymentStatus providerName (CB_ProviderRef cb) (CB_Status cb) at_ sub);
              if negb changed then mret tt else
              match sub with Some s => announce nowA s | None => mret tt end
          end
      end
  end.

Definition Cancel (userID : string) (now nowA : Z) : prog World Subscription :=
  sub ← tx (GetSubscription userID);
  let sub := mkSub (Sub_UserID sub) (Sub_Plan sub) (Sub_Status sub) (Sub_CurrentPeriodEnd sub) (Sub_Provider sub)
    (Sub_CreatedAt sub) now true in
  tx (PutSubscription sub);;
  announce nowA sub;;
  mret sub.

Definition Subscription_ (userID : string) : prog World Subscription :=
  r ← settle_ (tx (GetSubscription userID));
  mret (match r with Ok s => s | Err _ => mkSub userID PlanFree SubCanceled 0 "" 0 0 false end).

Definition Entitlements_ (userID : string) (now : Z) : prog World Entitlements :=
  sub ← Subscription_ userID;
  mret (EntitlementsFor sub now).

Definition Payments (userID : string) (limit : Z) : prog World (list Payment) := tx (ListPayments userID limit).

(** [nowA] gives the clock each announcement reads. *)
Definition sweepExpired (now : Z) (nowA : string → Z) : prog World unit :=
  r ← settle_ (tx (ExpireSubscriptions now expirySweepBatch));
  match r with
  | Err _ => mret tt
  | Ok users => each (λ uid, sub ← Subscription_ uid; announce (nowA uid) sub) users
  end.
End service.

(** ** Charging once *)

Section once.
Variable providers : gmap string Provider.
Variable prices : Prices.
(** A user and an idempotency key. *)
Variable u k : string.

Definition for_key (e : string * ChargeRequest) : Prop := Charge_UserID e.2 = u ∧ Charge_IdempotencyKey e.2 = k.
#[local] Instance for_key_dec e : Decision (for_key e).
Proof. unfold for_key. apply _. Defined.
(** How many charges an acquirer was asked for. *)
Definition charges (w : World) : Z := len (filter for_key (charged w)).
Definition claimed (w : World) : Prop := is_Some (paymentIdem (db w) !! bar u k).

(** An action that charges nothing for the key and forgets no key. *)
Definition calm (w w' : World) : Prop := charges w' = charges w ∧ (claimed w → claimed w').
#[local] Instance calm_refl : Reflexive calm.
Proof. by split. Qed.

Lemma calm_tx {A} (m : M BillingDB A) :
  (∀ d, is_Some (paymentIdem d !! bar u k) → is_Some (paymentIdem (m d).1 !! bar u k)) → every calm (tx m).
Proof.
  intros Hm. apply every_action. intros w. unfold calm, charges, claimed. specialize (Hm (db w)).
  by destruct (m (db w)) as [d r].
Qed.

Lemma keeps_idem {A} (m : M BillingDB A) :
  (∀ d, paymentIdem (m d).1 = paymentIdem d) → every calm (tx m).
Proof. intros Hm. apply calm_tx. intros d. by rewrite Hm. Qed.

Lemma calm_announce nowA sub : every calm (announce nowA sub).
Proof.
  unfold announce. apply every_bind; [|intros; constructor]. apply every_settle, every_action. intros w. cbn.
  by destruct (Publish _ (bus w)).
Qed.

Lemma calm_get uid : every calm (settle_ (tx (GetSubscription uid))).
Proof.
  apply every_settle, keeps_idem. intros d. unfold GetSubscription, found.
  rewrite (bind_Ok _ _ _ d d) by done. by destruct (subscriptions d !! uid).
Qed.
Lemma calm_put sub : every calm (tx (PutSubscription sub)).
Proof. by apply keeps_idem. Qed.

Lemma calm_ensure uid prov now : every calm (ensureIncompleteSubscription uid prov now).
Proof.
  unfold ensureIncompleteSubscription. apply every_bind; [apply calm_get|]. intros [s|[]]; try apply calm_put;
    try apply every_done. destruct (Active s now); [constructor | apply calm_put].
Qed.

Lemma calm_attach id ref : every calm (tx (AttachProviderRef id ref)).
Proof.
  apply keeps_idem. intros d. unfold AttachProviderRef, found. rewrite (bind_Ok _ _ _ d d) by done.
  destruct (payments d !! id) as [p|]; [|done]. rewrite (bind_Ok _ _ _ d p) by done. by destruct (bool_decide _).
Qed.

Lemma calm_Cancel uid now nowA : every calm (Cancel uid now nowA).
Proof.
  unfold Cancel. apply every_bind.
  - apply keeps_idem. intros d. unfold GetSubscription, found. rewrite (bind_Ok _ _ _ d d) by done.
    by destruct (subscriptions d !! uid).
  - intros s. apply every_bind; [apply calm_put|]. intros _. apply every_bind; [apply calm_announce|]. intros _. constructor.
Qed.

Lemma calm_sweep now nowA : every calm (sweepExpired now nowA).
Proof.
  unfold sweepExpired. apply every_bind.
  - apply every_settle, keeps_idem. intros d. unfold ExpireSubscriptions. by destruct (expire_loop _ _ _ _ _).
  - intros [users|e]; [|constructor]. apply every_each. intros uid. apply every_bind; [|intros s; apply calm_announce].
    unfold Subscription_. apply every_bind; [apply calm_get|]. intros r. constructor.
Qed.

Lemma calm_HandleCallback name src raw hs now nowA : every calm (HandleCallback providers name src raw hs now nowA).
Proof.
  unfold HandleCallback. destruct (providers !! name) as [p|]; [|constructor].
  destruct (match Prov_AllowsSource p with Some _ => _ | None => _ end); [constructor|].
  destruct (Prov_Verify p raw hs) as [cb|[]]; try apply every_done. apply every_bind.
  - apply every_settle, keeps_idem. intros d. unfold GetPaymentByRef, found. rewrite (bind_Ok _ _ _ d d), M_bind_eq by done.
    destruct (paymentRefs d !! _) as [id|]; [|done]. cbn. unfold deref. by destruct (payments d !! id).
  - intros [pay|[]]; try apply every_done. destruct (_ && _); [constructor|]. apply every_bind.
    + destruct (bool_decide _); [|constructor]. apply every_bind; [|intros; constructor].
      unfold subscriptionAfterPayment. apply every_bind; [apply calm_get|]. intros r. constructor.
    + intros sub. apply every_bind.
      * apply keeps_idem. intros d. unfold ApplyPaymentStatus, found. rewrite (bind_Ok _ _ _ d d), M_bind_eq by done.
        destruct (paymentRefs d !! _) as [id|]; [|done]. cbn. rewrite M_bind_eq. unfold deref.
        destruct (payments d !! id) as [q|]; [|done]. cbn. destruct (negb _); [done|]. by destruct sub.
      * intros []; cbn; [|constructor]. destruct sub; [apply calm_announce | constructor].
Qed.

(** What a request can still charge for the key: nothing; possibly once, if the key is not
    taken by then; or once, having taken it. *)
Inductive stage : prog World unit → Z → Prop :=
  | at_rest p : every calm p → stage p 0
  | at_start pay f :
      Pay_UserID pay = u → Pay_IdempotencyKey pay = k →
      (∀ e, every calm (f (Err e))) → (∀ q, every calm (f (Ok (q, true)))) → (∀ q, stage (f (Ok (q, false))) 1) →
      stage (settle_ (tx (CreatePayment pay)) ≫= f) 0
  | at_charge p req f :
      Charge_UserID req = u → Charge_IdempotencyKey req = k → (∀ r, every calm (f r)) →
      stage (charge p req ≫= f) 1.

Lemma CreatePayment_run pay d :
  CreatePayment pay d =
  let key := bar (Pay_UserID pay) (Pay_IdempotencyKey pay) in
  match paymentIdem d !! key with
  | Some id => match payments d !! id with Some cp => (d, Ok (cp, true)) | None => (d, Err go_panic) end
  | None =>
      (mkBillingDB (subscriptions d) (<[Pay_ID pay := pay]> (payments d)) (<[key := Pay_ID pay]> (paymentIdem d))
         (if bool_decide (Pay_ProviderRef pay = "") then paymentRefs d
          else <[bar (Pay_Provider pay) (Pay_ProviderRef pay) := Pay_ID pay]> (paymentRefs d)), Ok (pay, false))
  end.
Proof.
  unfold CreatePayment. rewrite (bind_Ok _ _ _ d d) by done. cbv zeta. destruct (paymentIdem d !! _) as [id|].
  - rewrite M_bind_eq. unfold deref. by destruct (payments d !! id).
  - by destruct (bool_decide _).
Qed.

Lemma step_tx {A C} (m : M BillingDB A) (f : result A → prog World C) w :
  step_prog w (settle_ (tx m) ≫= f) = (mkWorld (m (db w)).1 (bus w) (charged w), f (m (db w)).2).
Proof. cbn. by destruct (m (db w)). Qed.

(** One action of a request: what was charged plus what it can still charge does not grow,
    except when it takes a free key. *)
Lemma stage_step p n w :
  stage p n →
  ∃ n', stage (step_prog w p).2 n' ∧ (claimed w → claimed (step_prog w p).1) ∧
    (charges (step_prog w p).1 + n' = charges w + n ∨
     charges (step_prog w p).1 = charges w ∧ n = 0 ∧ n' = 1 ∧ ¬ claimed w ∧ claimed (step_prog w p).1).
Proof.
  intros [q Hq|pay f Hu Hk He Ht Hf|prov req f Hu Hk Hf].
  - destruct (every_step calm q w Hq) as [[Hc Hi] Hn]. exists 0. split; [by apply at_rest|]. split; [done|]. left. lia.
  - rewrite step_tx, CreatePayment_run, Hu, Hk. cbv zeta. unfold claimed.
    destruct (paymentIdem (db w) !! bar u k) as [id|] eqn:E.
    + exists 0. destruct (payments (db w) !! id) as [cp|]; cbn [fst snd];
        (split_and!; [by apply at_rest | cbn; by rewrite E | left; unfold charges; cbn; lia]).
    + cbn [fst snd]. exists 1. split; [apply Hf|]. split; [by intros [? ?]|]. right.
      split_and!; [done | done | done | by intros [? ?] | cbn; rewrite lookup_insert_eq; eauto].
  - cbn. exists 0. split; [by apply at_rest|]. split; [done|]. left. unfold charges. cbn. rewrite filter_app, len_app.
    rewrite filter_cons_True by (by split). rewrite filter_nil, len_cons, len_nil. lia.
Qed.

(** The rest of a checkout once its charge has been answered. *)
Lemma calm_charged provider stored req now (r : result ChargeResult) :
  every calm (match r with
              | Err _ => raise billing_ErrChargeFailed
              | Ok res =>
                  if bool_decide (CR_ProviderRef res = "") then raise billing_ErrNoProviderRef else
                  tx (AttachProviderRef (Pay_ID stored) (CR_ProviderRef res));;
                  ensureIncompleteSubscription (Req_UserID req) (Prov_Name provider) now;;
                  mret (mkCheckout (with_ref (CR_ProviderRef res) stored) (CR_PayURL res) (CR_QRPayload res) false)
              end).
Proof.
  destruct r as [res|e]; [|constructor]. destruct (bool_decide _); [constructor|].
  apply every_bind; [apply calm_attach|]. intros _. apply every_bind; [apply calm_ensure|]. intros _. constructor.
Qed.

(** A request that begins with a store call or a charge. *)
Lemma request_tx {A C} (m : M BillingDB A) (g : A → prog World C) :
  request (tx m ≫= g) =
  settle_ (tx m) ≫= λ r, request (match r with Ok a => g a | Err e => Done (Err e) end).
Proof. reflexivity. Qed.
Lemma request_charge {C} p req (g : result ChargeResult → prog World C) :
  request (charge p req ≫= g) = charge p req ≫= λ r, request (g r).
Proof. reflexivity. Qed.

Lemma stage_Checkout newID req now : stage (request (Checkout providers prices newID req now)) 0.
Proof.
  unfold Checkout.
  assert (∀ e, stage (request (raise (A := Checkout_) e)) 0) as Hraise
    by (intros e; apply at_rest, every_request; constructor).
  destruct (bool_decide (Req_UserID req = "")); [apply Hraise|].
  destruct (bool_decide (Req_IdempotencyKey req = "")); [apply Hraise|]. cbv zeta.
  destruct (prices !! _) as [amount|]; [|apply Hraise]. destruct (providerFor _ _) as [prov|]; [|apply Hraise].
  destruct (if bool_decide (Req_Method req = "") then _ else _) as [method|]; [|apply Hraise].
  destruct (negb (supports prov method)); [apply Hraise|].
  set (pay := new_payment _ _ _ _ _ _ _). set (creq := mkChargeRequest _ _ _ _ _ _ _).
  destruct (decide (Req_UserID req = u ∧ Req_IdempotencyKey req = k)) as [[Hu Hk]|Hne].
  - rewrite request_tx. apply at_start; [done | done | intros; apply every_request; constructor.. |].
    intros q. rewrite request_charge. apply at_charge; [done | done |].
    intros r. apply every_request, calm_charged.
  - apply at_rest, every_request, every_bind.
    + apply calm_tx. intros d [id Hid]. rewrite CreatePayment_run. cbv zeta. destruct (paymentIdem d !! bar (Pay_UserID pay) _) as [id'|].
      * destruct (payments d !! id'); cbn [fst]; rewrite Hid; eauto.
      * cbn. apply lookup_insert_is_Some'. right. eauto.
    + intros [stored dup]. destruct dup; [constructor|]. apply every_bind; [|intros r; apply calm_charged].
      apply every_action. intros w. split; [|done]. unfold charges. cbn. rewrite filter_app, len_app.
      rewrite filter_cons_False by (intros [? ?]; by apply Hne). rewrite filter_nil, len_nil. lia.
Qed.

(** A pool of requests, with what they can still charge. *)
Definition pool_ok (w : World) (ps : list (prog World unit)) : Prop :=
  ∃ ns, Forall2 stage ps ns ∧ charges w + zsum ns ≤ 1 ∧ (1 ≤ charges w + zsum ns → claimed w).

Lemma zsum_insert (ns : list Z) i n n' : ns !! i = Some n → zsum (<[i := n']> ns) = zsum ns - n + n'.
Proof.
  intros Hi. rewrite <- (take_drop_middle ns i n Hi) at 2. rewrite insert_take_drop by (by apply lookup_lt_Some in Hi).
  rewrite !zsum_app, !zsum_cons. lia.
Qed.

Lemma pool_ok_step w ps w' ps' : pool_step (w, ps) (w', ps') → pool_ok w ps → pool_ok w' ps'.
Proof.
  intros Hst (ns & Hns & Hle & Hcl). inversion Hst as [i p w0 ps0 Hp Ew Ep]; subst.
  destruct (Forall2_lookup_l _ _ _ _ _ Hns Hp) as (n & Hn & Hsp).
  destruct (stage_step p n w Hsp) as (n' & Hs' & Hmono & Hsum). exists (<[i := n']> ns).
  rewrite (zsum_insert ns i n n' Hn). split; [by apply Forall2_insert|].
  destruct Hsum as [Hsum|(Hch & -> & -> & Hfree & Htaken)].
  - split; [lia|]. intros Hone. apply Hmono, Hcl. lia.
  - split; [|done]. rewrite Hch. destruct (decide (1 ≤ charges w + zsum ns)) as [Hge|]; [by destruct Hfree; apply Hcl | lia].
Qed.
End once.

(** The requests a deployment serves. *)
Inductive billing_request (providers : gmap string Provider) (prices : Prices) : prog World unit → Prop :=
  | br_checkout newID req now : billing_request providers prices (request (Checkout providers prices newID req now))
  | br_callback name src raw hs now nowA :
      billing_request providers prices (request (HandleCallback providers name src raw hs now nowA))
  | br_cancel uid now nowA : billing_request providers prices (request (Cancel uid now nowA))
  | br_sweep now nowA : billing_request providers prices (request (sweepExpired now nowA)).

Lemma stage_request providers prices u k p : billing_request providers prices p → stage u k p 0.
Proof.
  intros [newID req now|name src raw hs now nowA|uid now nowA|now nowA]; [apply stage_Checkout|..];
    apply at_rest, every_request; [apply calm_HandleCallback | apply calm_Cancel | apply calm_sweep].
Qed.

(** ** Theorems *)

(** C31: Nobody is charged twice.  However many requests run at once — the same checkout
    retried over and over, other checkouts, notifications, cancellations, expiry sweeps —
    and however their actions interleave, the acquirers are asked for at most one charge
    per user and idempotency key. *)
Theorem charged_once providers prices u k w ps w' ps' :
  Forall (billing_request providers prices) ps → charges u k w = 0 →
  rtc pool_step (w, ps) (w', ps') → charges u k w' ≤ 1.
Proof.
  intros Hps H0w Hrun.
  assert (pool_ok u k w ps) as Hok.
  { exists (replicate (length ps) 0). assert (zsum (replicate (length ps) 0) = 0) as ->.
    { induction (length ps) as [|n IH]; [done|]. cbn [replicate]. rewrite zsum_cons, IH. done. }
    split; [|split; [lia|intros; lia]]. clear Hrun. induction Hps; cbn; constructor; [by eapply stage_request | done]. }
  assert (pool_ok u k w' ps') as (ns & Hns & Hle & _).
  { clear Hps H0w. remember (w, ps) as c eqn:Ec. remember (w', ps') as c' eqn:Ec'. revert w ps Ec Hok.
    induction Hrun as [c|c [w1 ps1] c' Hst _ IH]; intros w ps -> Hok; [by injection Ec' as <- <-|].
    eapply IH; [done..|]. by eapply pool_ok_step. }
  enough (0 ≤ zsum ns) by lia. clear -Hns. induction Hns as [|p n ps ns Hs _ IH]; [done|].
  rewrite zsum_cons. destruct Hs; lia.
Qed.

(** *** Running a method alone *)

Lemma exec_tx_bind {A C} (m : M BillingDB A) (f : A → prog World C) w :
  exec (tx m ≫= f) w =
  match m (db w) with
  | (d, Ok a) => exec (f a) (mkWorld d (bus w) (charged w))
  | (d, Err e) => (mkWorld d (bus w) (charged w), Err e)
  end.
Proof. unfold tx. rewrite exec_act_bind. by destruct (m (db w)) as [d [a|e]]. Qed.
Lemma exec_settle_tx {A C} (m : M BillingDB A) (f : result A → prog World C) w :
  exec (settle_ (tx m) ≫= f) w = exec (f (m (db w)).2) (mkWorld (m (db w)).1 (bus w) (charged w)).
Proof.
  rewrite exec_bind, exec_settle. unfold attempt, tx. rewrite exec_act. by destruct (m (db w)).
Qed.

Lemma GetSubscription_run uid d :
  GetSubscription uid d = (d, match subscriptions d !! uid with Some s => Ok s | None => Err store_ErrNotFound end).
Proof. unfold GetSubscription, found. rewrite (bind_Ok _ _ _ d d) by done. by destruct (subscriptions d !! uid). Qed.

Lemma GetPaymentByRef_run prov ref d :
  GetPaymentByRef prov ref d =
  (d, match paymentRefs d !! bar prov ref with
      | None => Err store_ErrNotFound
      | Some id => match payments d !! id with Some p => Ok p | None => Err go_panic end
      end).
Proof.
  unfold GetPaymentByRef, found. rewrite (bind_Ok _ _ _ d d), M_bind_eq by done.
  destruct (paymentRefs d !! _) as [id|]; [|done]. cbn. unfold deref. by destruct (payments d !! id).
Qed.

Lemma Apply_run prov ref next at_ sub d id p :
  paymentRefs d !! bar prov ref = Some id → payments d !! id = Some p →
  ApplyPaymentStatus prov ref next at_ sub d =
  if CanTransitionTo (Pay_Status p) next then
    (mkBillingDB (match sub with Some s => <[Sub_UserID s := s]> (subscriptions d) | None => subscriptions d end)
       (<[id := with_status next at_ p]> (payments d)) (paymentIdem d) (paymentRefs d), Ok true)
  else (d, Ok false).
Proof.
  intros Hid Hp. unfold ApplyPaymentStatus, found, deref. rewrite (bind_Ok _ _ _ d d) by done. rewrite Hid.
  rewrite (bind_Ok _ _ _ d id) by done. rewrite Hp, (bind_Ok _ _ _ d p) by done.
  destruct (CanTransitionTo _ _); [|done]. by destruct sub.
Qed.

Lemma announce_run nowA s w : ∃ b, exec (announce nowA s) w = (mkWorld (db w) b (charged w), Ok tt).
Proof.
  unfold announce. rewrite exec_bind, exec_settle. unfold attempt. rewrite exec_act.
  destruct (Publish _ (bus w)) as [b r]. by exists b.
Qed.

Lemma Attach_run id ref d p :
  payments d !! id = Some p → Pay_ProviderRef p = "" →
  AttachProviderRef id ref d =
  (mkBillingDB (subscriptions d) (<[id := with_ref ref p]> (payments d)) (paymentIdem d)
     (<[bar (Pay_Provider p) ref := id]> (paymentRefs d)), Ok tt).
Proof.
  intros Hp Hr. unfold AttachProviderRef, found. rewrite (bind_Ok _ _ _ d d) by done. rewrite Hp.
  rewrite (bind_Ok _ _ _ d p) by done. rewrite bool_decide_true by done. done.
Qed.

(** The row a checkout leaves for its notification; an active subscription stays. *)
Lemma ensure_run uid prov now w :
  ∃ w', exec (ensureIncompleteSubscription uid prov now) w = (w', Ok tt) ∧ payments (db w') = payments (db w) ∧
    subscriptions (db w') =
      (if match subscriptions (db w) !! uid with Some s => Active s now | None => false end then subscriptions (db w)
       else <[uid := mkSub uid PlanPremium SubIncomplete 0 prov now now false]> (subscriptions (db w))).
Proof.
  destruct w as [d b ch]. unfold ensureIncompleteSubscription. rewrite exec_settle_tx, GetSubscription_run.
  cbn [fst snd db bus charged]. destruct (subscriptions d !! uid) as [s|]; [destruct (Active s now)|]; by eexists.
Qed.

(** What an authentic notification does, once it names a payment of ours. *)
Lemma HandleCallback_run providers name src raw hs now nowA w prov cb id p :
  providers !! name = Some prov →
  match Prov_AllowsSource prov with Some allows => allows src = true | None => True end →
  Prov_Verify prov raw hs = Ok cb →
  paymentRefs (db w) !! bar name (CB_ProviderRef cb) = Some id → payments (db w) !! id = Some p →
  CB_AmountMinor cb = 0 ∨ CB_AmountMinor cb = Pay_AmountMinor p →
  let at_ := if CB_PaidAt cb =? 0 then now else CB_PaidAt cb in
  let s := default (blank_sub (Pay_UserID p) at_) (subscriptions (db w) !! Pay_UserID p) in
  ∃ b, exec (HandleCallback providers name src raw hs now nowA) w =
    (mkWorld (if CanTransitionTo (Pay_Status p) (CB_Status cb) then
                mkBillingDB (if bool_decide (CB_Status cb = PaySucceeded)
                             then <[Sub_UserID s := extended s p at_]> (subscriptions (db w))
                             else subscriptions (db w))
                  (<[id := with_status (CB_Status cb) at_ p]> (payments (db w))) (paymentIdem (db w)) (paymentRefs (db w))
              else db w) b (charged w), Ok tt).
Proof.
  intros Hprov Hsrc Hv Hid Hp Hamt at_ s. destruct w as [d b0 ch]. cbn [db bus charged] in *.
  unfold HandleCallback. rewrite Hprov.
  assert (match Prov_AllowsSource prov with Some allows => negb (allows src) | None => false end = false) as ->.
  { destruct (Prov_AllowsSource prov); [by rewrite Hsrc | done]. }
  rewrite Hv, exec_settle_tx. cbn [db bus charged]. rewrite GetPaymentByRef_run, Hid, Hp. cbn [fst snd].
  assert (negb (CB_AmountMinor cb =? 0) && negb (CB_AmountMinor cb =? Pay_AmountMinor p) = false) as ->.
  { destruct Hamt as [->| ->]; [done | by rewrite Z.eqb_refl, andb_false_r]. }
  cbv zeta. fold at_. destruct (bool_decide (CB_Status cb = PaySucceeded)).
  - rewrite exec_bind, exec_bind. unfold subscriptionAfterPayment. rewrite exec_settle_tx. cbn [db bus charged].
    rewrite GetSubscription_run. cbn [fst snd].
    assert ((match match subscriptions d !! Pay_UserID p with Some s0 => Ok s0 | None => Err store_ErrNotFound end with
             | Ok s0 => s0 | Err _ => blank_sub (Pay_UserID p) at_ end) = s) as ->.
    { unfold s. by destruct (subscriptions d !! Pay_UserID p). }
    cbn [exec mret prog_ret]. rewrite exec_tx_bind. cbn [db bus charged]. rewrite (Apply_run _ _ _ _ _ _ id p Hid Hp).
    destruct (CanTransitionTo _ _); [|by exists b0]. cbn [negb].
    destruct (announce_run nowA (extended s p at_) (mkWorld (mkBillingDB (<[Sub_UserID (extended s p at_) := extended s p at_]> (subscriptions d))
       (<[id := with_status (CB_Status cb) at_ p]> (payments d)) (paymentIdem d) (paymentRefs d)) b0 ch)) as [b' Hb'].
    exists b'. by rewrite Hb'.
  - rewrite exec_bind. cbn [exec mret prog_ret]. rewrite exec_tx_bind. cbn [db bus charged].
    rewrite (Apply_run _ _ _ _ _ _ id p Hid Hp). by destruct (CanTransitionTo _ _); exists b0.
Qed.

(** *** Notifications of one payment *)

(** A notification: its body and headers, what the acquirer's check makes of them, and the
    clock when it is handled. *)
Record Notice := mkNotice { n_raw : bytes; n_hs : gmap string string; n_cb : Callback; n_now : Z; n_nowA : Z }.
Definition n_at (n : Notice) : Z := if CB_PaidAt (n_cb n) =? 0 then n_now n else CB_PaidAt (n_cb n).
Definition says_paid (n : Notice) : bool := bool_decide (CB_Status (n_cb n) = PaySucceeded).

Section notices.
Variable providers : gmap string Provider.
Variables name src : string.

Fixpoint notify (ns : list Notice) (w : World) : World :=
  match ns with
  | [] => w
  | n :: ns => notify ns (exec (HandleCallback providers name src (n_raw n) (n_hs n) (n_now n) (n_nowA n)) w).1
  end.

(** Authentic, and about payment [p]. *)
Definition genuine (prov : Provider) (ref : string) (p : Payment) (n : Notice) : Prop :=
  Prov_Verify prov (n_raw n) (n_hs n) = Ok (n_cb n) ∧ CB_ProviderRef (n_cb n) = ref ∧
  (CB_AmountMinor (n_cb n) = 0 ∨ CB_AmountMinor (n_cb n) = Pay_AmountMinor p).

Definition unpaid (st : PaymentStatus) : bool := match st with PayPending | PayFailed => true | _ => false end.

Context (prov : Provider) (ref id : string).
Hypothesis Hprov : providers !! name = Some prov.
Hypothesis Hsrc : match Prov_AllowsSource prov with Some allows => allows src = true | None => True end.

(** One notification; the payment keeps everything but its status. *)
Lemma notify_one n w p :
  genuine prov ref p n → paymentRefs (db w) !! bar name ref = Some id → payments (db w) !! id = Some p →
  let w' := (exec (HandleCallback providers name src (n_raw n) (n_hs n) (n_now n) (n_nowA n)) w).1 in
  let go := CanTransitionTo (Pay_Status p) (CB_Status (n_cb n)) in
  let s := default (blank_sub (Pay_UserID p) (n_at n)) (subscriptions (db w) !! Pay_UserID p) in
  paymentRefs (db w') = paymentRefs (db w) ∧
  payments (db w') !! id = Some (if go then with_status (CB_Status (n_cb n)) (n_at n) p else p) ∧
  subscriptions (db w') = (if go && says_paid n then <[Sub_UserID s := extended s p (n_at n)]> (subscriptions (db w))
                           else subscriptions (db w)).
Proof.
  intros (Hv & Hr & Ha) Hid Hp w' go s. rewrite <- Hr in Hid.
  destruct (HandleCallback_run providers name src (n_raw n) (n_hs n) (n_now n) (n_nowA n) w prov (n_cb n) id p
    Hprov Hsrc Hv Hid Hp Ha) as [b Hb].
  assert (w' = mkWorld (if go then
      mkBillingDB (if says_paid n then <[Sub_UserID s := extended s p (n_at n)]> (subscriptions (db w)) else subscriptions (db w))
        (<[id := with_status (CB_Status (n_cb n)) (n_at n) p]> (payments (db w))) (paymentIdem (db w)) (paymentRefs (db w))
      else db w) b (charged w)) as -> by (unfold w'; by rewrite Hb).
  destruct go; cbn; split_and!; [done | by rewrite lookup_insert_eq | by destruct (says_paid n) | done..].
Qed.

Lemma genuine_status st at_ p n : genuine prov ref p n → genuine prov ref (with_status st at_ p) n.
Proof. done. Qed.

(** A paid payment changes no subscription again. *)
Lemma notify_paid ns w p :
  Forall (genuine prov ref p) ns → paymentRefs (db w) !! bar name ref = Some id → payments (db w) !! id = Some p →
  unpaid (Pay_Status p) = false → subscriptions (db (notify ns w)) = subscriptions (db w).
Proof.
  revert w p. induction ns as [|n ns IH]; intros w p Hg Hid Hp Hst; [done|]. apply Forall_cons in Hg as [Hn Hg].
  destruct (notify_one n w p Hn Hid Hp) as (Hrefs & Hp' & Hsub). cbn [notify].
  set (w1 := (exec _ w).1) in *.
  assert (CanTransitionTo (Pay_Status p) (CB_Status (n_cb n)) && says_paid n = false) as Hno.
  { unfold says_paid, CanTransitionTo. destruct (Pay_Status p), (CB_Status (n_cb n)); done. }
  rewrite Hno in Hsub. rewrite <- Hrefs in Hid. destruct (CanTransitionTo _ _) eqn:Ego.
  - rewrite (IH w1 _ (Forall_impl _ _ _ Hg (λ n0, genuine_status _ _ p n0)) Hid Hp'); [done|].
    cbn. unfold CanTransitionTo in Ego. by destruct (Pay_Status p), (CB_Status (n_cb n)).
  - rewrite (IH w1 p Hg Hid Hp' Hst). done.
Qed.

Lemma notify_unpaid ns w p :
  Forall (genuine prov ref p) ns → paymentRefs (db w) !! bar name ref = Some id → payments (db w) !! id = Some p →
  unpaid (Pay_Status p) = true →
  subscriptions (db (notify ns w)) =
  match find says_paid ns with
  | Some n =>
      let s := default (blank_sub (Pay_UserID p) (n_at n)) (subscriptions (db w) !! Pay_UserID p) in
      <[Sub_UserID s := extended s p (n_at n)]> (subscriptions (db w))
  | None => subscriptions (db w)
  end.
Proof.
  revert w p. induction ns as [|n ns IH]; intros w p Hg Hid Hp Hst; [done|]. apply Forall_cons in Hg as [Hn Hg].
  destruct (notify_one n w p Hn Hid Hp) as (Hrefs & Hp' & Hsub). cbn [notify find].
  set (w1 := (exec _ w).1) in *. rewrite <- Hrefs in Hid. destruct (says_paid n) eqn:Epaid.
  - assert (CanTransitionTo (Pay_Status p) (CB_Status (n_cb n)) = true) as Ego.
    { apply bool_decide_eq_true in Epaid. rewrite Epaid. by destruct (Pay_Status p). }
    rewrite Ego in Hp', Hsub. cbn [andb] in Hsub. cbv zeta. rewrite <- Hsub. apply bool_decide_eq_true in Epaid.
    apply (notify_paid ns w1 _ (Forall_impl _ _ _ Hg (λ n0, genuine_status _ _ p n0)) Hid Hp'). cbn. by rewrite Epaid.
  - rewrite andb_false_r in Hsub. destruct (CanTransitionTo _ _) eqn:Ego.
    + rewrite (IH w1 _ (Forall_impl _ _ _ Hg (λ n0, genuine_status _ _ p n0)) Hid Hp'); [by rewrite Hsub|].
      cbn. unfold says_paid in Epaid. unfold CanTransitionTo in Ego. by destruct (Pay_Status p), (CB_Status (n_cb n)).
    + rewrite (IH w1 p Hg Hid Hp' Hst). by rewrite Hsub.
Qed.

(** A payment buys one period, however it is reported.  An acquirer may notify in any
    order and as often as it likes — failures after the success, the success again and
    again, a refund: of all the authentic notifications of one unpaid payment, the first
    that says it succeeded extends the subscription, once, and the others leave every
    subscription as it is. *)
Theorem one_period_per_payment ns w p :
  Forall (genuine prov ref p) ns → paymentRefs (db w) !! bar name ref = Some id → payments (db w) !! id = Some p →
  unpaid (Pay_Status p) = true → (∀ uid s, subscriptions (db w) !! uid = Some s → Sub_UserID s = uid) →
  subscriptions (db (notify ns w)) =
  match find says_paid ns with
  | Some n =>
      let s := default (blank_sub (Pay_UserID p) (n_at n)) (subscriptions (db w) !! Pay_UserID p) in
      <[Pay_UserID p := extended s p (n_at n)]> (subscriptions (db w))
  | None => subscriptions (db w)
  end.
Proof.
  intros Hg Hid Hp Hst Hkey. rewrite (notify_unpaid ns w p Hg Hid Hp Hst). destruct (find says_paid ns) as [n|]; [|done].
  cbv zeta. destruct (subscriptions (db w) !! Pay_UserID p) as [s|] eqn:Es; [|done]. cbn. by rewrite (Hkey _ s Es).
Qed.
End notices.

(** *** A checkout that can be sold *)

Section checkout.
Variable providers : gmap string Provider.
Variable prices : Prices.

Record sellable (req : CheckoutRequest) (prov : Provider) (method : PaymentMethod) (amount : Z) : Prop := {
  sell_user : Req_UserID req ≠ "";
  sell_key : Req_IdempotencyKey req ≠ "";
  sell_price : prices !! (PlanPremium, currencyFor (Req_Country req)) = Some amount;
  sell_provider : providerFor providers (Req_Country req) = Some prov;
  sell_method : (if bool_decide (Req_Method req = "") then head (Prov_Methods prov) else Some (Req_Method req)) = Some method;
  sell_supported : supports prov method = true;
}.

Definition charge_request (req : CheckoutRequest) (method : PaymentMethod) (amount : Z) : ChargeRequest :=
  mkChargeRequest (Req_UserID req) PlanPremium method amount (currencyFor (Req_Country req)) (Req_IdempotencyKey req)
    (Req_ReturnURL req).

Definition after_charge (prov : Provider) (req : CheckoutRequest) (now : Z) (stored : Payment)
    (r : result ChargeResult) : prog World Checkout_ :=
  match r with
  | Err _ => raise billing_ErrChargeFailed
  | Ok res =>
      if bool_decide (CR_ProviderRef res = "") then raise billing_ErrNoProviderRef else
      tx (AttachProviderRef (Pay_ID stored) (CR_ProviderRef res));;
      ensureIncompleteSubscription (Req_UserID req) (Prov_Name prov) now;;
      mret (mkCheckout (with_ref (CR_ProviderRef res) stored) (CR_PayURL res) (CR_QRPayload res) false)
  end.

Lemma Checkout_sellable newID req now prov method amount :
  sellable req prov method amount →
  Checkout providers prices newID req now =
  ('(stored, dup) ← tx (CreatePayment (new_payment newID req prov method amount (currencyFor (Req_Country req)) now));
   if dup : bool then mret (mkCheckout stored "" "" true) else
   charge prov (charge_request req method amount) ≫= after_charge prov req now stored).
Proof.
  intros [Hu Hk Hprice Hp Hm Hs]. unfold Checkout. rewrite bool_decide_false by done. rewrite bool_decide_false by done.
  cbv zeta. rewrite Hprice, Hp, Hm, Hs. done.
Qed.

(** The state after the payment row has been written and the acquirer called. *)
Definition asked (pay : Payment) (e : string * ChargeRequest) (w : World) : World :=
  mkWorld (CreatePayment pay (db w)).1 (bus w) (charged w ++ [e]).

Lemma Checkout_asked newID req now prov method amount w :
  sellable req prov method amount →
  paymentIdem (db w) !! bar (Req_UserID req) (Req_IdempotencyKey req) = None →
  let pay := new_payment newID req prov method amount (currencyFor (Req_Country req)) now in
  let creq := charge_request req method amount in
  ∀ C (q : prog World C), interleave [true; true] w (Checkout providers prices newID req now) q =
    (asked pay (Prov_Name prov, creq) w, after_charge prov req now pay (Prov_Charge prov creq), q).
Proof.
  intros Hsell Hnew pay creq C q. rewrite (Checkout_sellable newID req now prov method amount Hsell). fold pay.
  pose proof (CreatePayment_run pay (db w)) as Hrun. cbn [Pay_UserID Pay_IdempotencyKey pay new_payment] in Hrun.
  rewrite Hnew in Hrun. cbv zeta in Hrun. cbn [interleave].
  unfold tx at 1. erewrite step_act by (rewrite Hrun; reflexivity). cbv beta iota. cbn [step_prog].
  unfold asked. rewrite Hrun. reflexivity.
Qed.

(** A notification that is faster than its checkout is lost.  The acquirer has been
    called and answers, at once, that the payment succeeded; the server has not yet noted
    the acquirer's reference.  The notification finds no payment and is answered with
    success, so it will not come again; the checkout then completes, and the payment that
    was made stays pending. *)
Theorem early_callback_lost newID req now prov method amount res src raw hs cb now' nowA w :
  sellable req prov method amount →
  paymentIdem (db w) !! bar (Req_UserID req) (Req_IdempotencyKey req) = None →
  Prov_Charge prov (charge_request req method amount) = Ok res → CR_ProviderRef res ≠ "" →
  providers !! Prov_Name prov = Some prov →
  match Prov_AllowsSource prov with Some allows => allows src = true | None => True end →
  Prov_Verify prov raw hs = Ok cb → CB_Status cb = PaySucceeded → CB_ProviderRef cb = CR_ProviderRef res →
  paymentRefs (db w) !! bar (Prov_Name prov) (CR_ProviderRef res) = None →
  ∃ w1 p1 q1, interleave [true; true] w (Checkout providers prices newID req now)
      (HandleCallback providers (Prov_Name prov) src raw hs now' nowA) = (w1, p1, q1) ∧
    exec q1 w1 = (w1, Ok tt) ∧
    ∃ w2 c, exec p1 w1 = (w2, Ok c) ∧ Chk_Deduplicated c = false ∧
      Pay_Status <$> payments (db w2) !! newID = Some PayPending.
Proof.
  intros Hsell Hnew Hch Href Hprov Hsrc Hv Hst Hcb Hnone.
  rewrite (Checkout_asked newID req now prov method amount w Hsell Hnew). rewrite Hch.
  set (pay := new_payment _ _ _ _ _ _ _). set (w1 := asked _ _ _).
  assert ((CreatePayment pay (db w)).1 = mkBillingDB (subscriptions (db w)) (<[newID := pay]> (payments (db w)))
    (<[bar (Req_UserID req) (Req_IdempotencyKey req) := newID]> (paymentIdem (db w))) (paymentRefs (db w))) as Hdb.
  { rewrite CreatePayment_run. cbn [Pay_UserID Pay_IdempotencyKey pay new_payment]. by rewrite Hnew. }
  eexists w1, _, _. split; [done|]. split.
  - unfold HandleCallback. rewrite Hprov.
    assert (match Prov_AllowsSource prov with Some allows => negb (allows src) | None => false end = false) as ->.
    { destruct (Prov_AllowsSource prov); [by rewrite Hsrc | done]. }
    rewrite Hv, exec_settle_tx, GetPaymentByRef_run, Hcb. unfold w1, asked. cbn [db bus charged]. rewrite Hdb. cbn [paymentRefs].
    by rewrite Hnone.
  - cbn [after_charge]. rewrite bool_decide_false, exec_tx_bind by done. unfold w1, asked. cbn [db bus charged]. rewrite Hdb.
    rewrite (Attach_run _ _ _ pay) by (cbn; by rewrite ?lookup_insert_eq). cbn [Pay_Provider pay new_payment payments].
    rewrite exec_bind. edestruct (ensure_run (Req_UserID req) (Prov_Name prov) now) as (w2 & He & Hpay & _). rewrite He.
    eexists w2, _. split; [done|]. split; [done|]. rewrite Hpay. cbn. by rewrite lookup_insert_eq.
Qed.

(** After a failed charge the key is spent.  When the acquirer refuses, or cannot be
    reached, the client is told to try again; with the same key, every further try answers
    with the pending payment and neither calls the acquirer nor says where to pay. *)
Theorem failed_charge_stuck newID newID' req now now' prov method amount e w :
  sellable req prov method amount →
  paymentIdem (db w) !! bar (Req_UserID req) (Req_IdempotencyKey req) = None →
  Prov_Charge prov (charge_request req method amount) = Err e →
  ∃ w1 pay, exec (Checkout providers prices newID req now) w = (w1, Err billing_ErrChargeFailed) ∧
    exec (Checkout providers prices newID' req now') w1 = (w1, Ok (mkCheckout pay "" "" true)) ∧
    Pay_Status pay = PayPending.
Proof.
  intros Hsell Hnew Hch. rewrite !(Checkout_sellable _ req _ prov method amount Hsell).
  set (pay := new_payment newID req prov method amount _ now). set (pay' := new_payment newID' req _ _ _ _ _).
  set (d1 := mkBillingDB (subscriptions (db w)) (<[newID := pay]> (payments (db w)))
    (<[bar (Req_UserID req) (Req_IdempotencyKey req) := newID]> (paymentIdem (db w))) (paymentRefs (db w))).
  assert (CreatePayment pay (db w) = (d1, Ok (pay, false))) as Hc1.
  { rewrite CreatePayment_run. cbn [Pay_UserID Pay_IdempotencyKey pay new_payment]. by rewrite Hnew. }
  assert (CreatePayment pay' d1 = (d1, Ok (pay, true))) as Hc2.
  { rewrite CreatePayment_run. cbn [Pay_UserID Pay_IdempotencyKey pay' new_payment d1 paymentIdem payments].
    by rewrite !lookup_insert_eq. }
  exists (mkWorld d1 (bus w) (charged w ++ [(Prov_Name prov, charge_request req method amount)])), pay.
  split_and!; [| |done].
  - rewrite exec_tx_bind, Hc1. unfold charge. rewrite exec_act_bind, Hch. done.
  - rewrite exec_tx_bind. cbn [db bus charged]. by rewrite Hc2.
Qed.

(** *** Access that was paid for *)

Definition rows_ok (d : BillingDB) : Prop :=
  (∀ uid s, subscriptions d !! uid = Some s → Sub_UserID s = uid) ∧
  (∀ id p, payments d !! id = Some p → Pay_Plan p = PlanPremium).
(** Premium at time [t], for a period that ends. *)
Definition has_access (t : Z) (uid : string) (d : BillingDB) : Prop :=
  ∃ s, subscriptions d !! uid = Some s ∧ Active s t = true ∧ Sub_CurrentPeriodEnd s ≠ 0.
(** Rows stay well formed and nobody loses access at [t]. *)
Definition keeps (t : Z) (d d' : BillingDB) : Prop :=
  rows_ok d → rows_ok d' ∧ ∀ uid, has_access t uid d → has_access t uid d'.

#[local] Instance keeps_preorder t : PreOrder (keeps t).
Proof.
  split; [by intros d Hd|]. intros d1 d2 d3 H12 H23 Hd. destruct (H12 Hd) as [Hd2 Ha2].
  destruct (H23 Hd2) as [Hd3 Ha3]. split; [done|]. intros uid Ha. by apply Ha3, Ha2.
Qed.

Lemma Active_premium s t : Active s t = true → Sub_CurrentPeriodEnd s ≠ 0 →
  Sub_Plan s = PlanPremium ∧ (Sub_Status s = SubActive ∨ Sub_Status s = SubPastDue) ∧ t < Sub_CurrentPeriodEnd s.
Proof.
  unfold Active. destruct (bool_decide_reflect (Sub_Plan s = PlanPremium)); [|done]. cbn [negb]. intros Ha H0e.
  destruct (Sub_Status s); try done; (split_and!; [done | tauto |]); rewrite (proj2 (Z.eqb_neq _ _)) in Ha by done;
    by apply Z.ltb_lt in Ha.
Qed.

(** Writing one row. *)
Lemma keeps_put t s d :
  (∀ s0, subscriptions d !! Sub_UserID s = Some s0 → Active s0 t = true → Sub_CurrentPeriodEnd s0 ≠ 0 →
     Active s t = true ∧ Sub_CurrentPeriodEnd s ≠ 0) →
  keeps t d (set_subscriptions (<[Sub_UserID s := s]> (subscriptions d)) d).
Proof.
  intros Hs [Hk Hp]. split.
  - split; [|done]. intros uid s'. cbn. rewrite lookup_insert_Some. intros [[<- <-]|[_ H']]; [done | by apply Hk].
  - intros uid (s0 & Hs0 & Ha & He). unfold has_access. cbn. destruct (decide (uid = Sub_UserID s)) as [->|Hne].
    + rewrite lookup_insert_eq. exists s. split; [done|]. by apply (Hs s0).
    + rewrite lookup_insert_ne by done. by exists s0.
Qed.

Lemma keeps_subs t d d' :
  subscriptions d' = subscriptions d → (∀ id p, payments d' !! id = Some p → Pay_Plan p = PlanPremium ∨ payments d !! id = Some p) →
  keeps t d d'.
Proof.
  intros Hs Hpay [Hk Hp]. split.
  - split; [by rewrite Hs|]. intros id p Hp'. destruct (Hpay id p Hp') as [?|?]; [done | by eapply Hp].
  - intros uid. unfold has_access. by rewrite Hs.
Qed.

Lemma extended_access t s p at_ :
  Pay_Plan p = PlanPremium → Active s t = true → Sub_CurrentPeriodEnd s ≠ 0 →
  0 ≤ t → at_ + subscriptionPeriod < 2 ^ 63 → Sub_CurrentPeriodEnd s + subscriptionPeriod < 2 ^ 63 →
  Active (extended s p at_) t = true ∧ Sub_CurrentPeriodEnd (extended s p at_) ≠ 0.
Proof.
  intros Hplan Ha He Ht Hb1 Hb2. destruct (Active_premium s t Ha He) as (_ & _ & Hlt).
  unfold extended. set (from := if at_ <? Sub_CurrentPeriodEnd s then Sub_CurrentPeriodEnd s else at_).
  assert (Sub_CurrentPeriodEnd s ≤ from ∧ from + subscriptionPeriod < 2 ^ 63) as [Hf1 Hf2].
  { unfold from. destruct (Z.ltb_spec at_ (Sub_CurrentPeriodEnd s)); lia. }
  assert (i64 (from + subscriptionPeriod) = from + subscriptionPeriod) as Hi.
  { apply i64_small. unfold subscriptionPeriod in *. lia. }
  unfold Active. cbn [Sub_Plan Sub_Status Sub_CurrentPeriodEnd]. rewrite Hi, Hplan, bool_decide_true by done. cbn [negb].
  unfold subscriptionPeriod in *. rewrite (proj2 (Z.ltb_lt t _)) by lia. rewrite orb_true_r. split; [done | lia].
Qed.

Lemma keeps_Checkout t newID req now w :
  now ≤ t → keeps t (db w) (db (exec (Checkout providers prices newID req now) w).1).
Proof.
  intros Hnow. unfold Checkout.
  destruct (bool_decide (Req_UserID req = "")); [reflexivity|].
  destruct (bool_decide (Req_IdempotencyKey req = "")); [reflexivity|]. cbv zeta.
  destruct (prices !! _) as [amount|]; [|reflexivity]. destruct (providerFor _ _) as [prov|]; [|reflexivity].
  destruct (if bool_decide (Req_Method req = "") then _ else _) as [method|]; [|reflexivity].
  destruct (negb (supports prov method)); [reflexivity|].
  set (pay := new_payment _ _ _ _ _ _ _). rewrite exec_tx_bind, CreatePayment_run. cbv zeta.
  destruct (paymentIdem (db w) !! _) as [id|].
  { by destruct (payments (db w) !! id). }
  set (d1 := mkBillingDB _ _ _ _). unfold charge. rewrite exec_act_bind. cbn [db bus charged].
  assert (keeps t (db w) d1) as Hd1.
  { apply keeps_subs; [done|]. intros id p. cbn. rewrite lookup_insert_Some. intros [[_ <-]|[_ ?]]; [by left | by right]. }
  destruct (Prov_Charge prov _) as [res|e]; [|exact Hd1].
  destruct (bool_decide (CR_ProviderRef res = "")); [exact Hd1|].
  rewrite exec_tx_bind. cbn [db bus charged]. rewrite (Attach_run _ _ _ pay) by (cbn; by rewrite ?lookup_insert_eq).
  set (d2 := mkBillingDB _ _ _ _).
  assert (keeps t d1 d2) as Hd2.
  { apply keeps_subs; [done|]. intros id p. cbn. rewrite lookup_insert_Some. intros [[_ <-]|[_ ?]]; [by left | by right]. }
  rewrite exec_bind. set (w2 := mkWorld d2 _ _).
  destruct (ensure_run (Req_UserID req) (Prov_Name prov) now w2) as (w3 & -> & Hpay & Hsub). cbn [exec mret prog_ret fst].
  etrans; [exact Hd1|]. etrans; [exact Hd2|]. change d2 with (db w2).
  destruct (match subscriptions (db w2) !! Req_UserID req with Some s => Active s now | None => false end) eqn:Ea.
  { apply keeps_subs; [done|]. intros id p Hp. right. by rewrite <- Hpay. }
  set (s3 := mkSub _ _ _ _ _ _ _ _) in Hsub.
  transitivity (set_subscriptions (<[Sub_UserID s3 := s3]> (subscriptions (db w2))) (db w2)).
  - apply keeps_put. cbn [Sub_UserID s3]. intros s0 Hs0 Ha He. rewrite Hs0 in Ea.
    destruct (Active_premium s0 t Ha He) as (Hpl & Hst & Hlt). unfold Active in Ea. rewrite bool_decide_true in Ea by done.
    cbn [negb] in Ea. destruct Hst as [Hst|Hst]; rewrite Hst in Ea; apply orb_false_iff in Ea as [_ Ea%Z.ltb_ge]; lia.
  - apply keeps_subs; [exact Hsub|]. intros id p Hp. right. cbn. by rewrite Hpay in Hp.
Qed.

Lemma keeps_Cancel t uid now nowA w :
  rows_ok (db w) → keeps t (db w) (db (exec (Cancel uid now nowA) w).1).
Proof.
  intros [Hk _]. unfold Cancel. rewrite exec_tx_bind, GetSubscription_run.
  destruct (subscriptions (db w) !! uid) as [s|] eqn:Es; [|reflexivity]. rewrite exec_tx_bind. cbn [db bus charged].
  set (s1 := mkSub _ _ _ _ _ _ _ _). cbn [PutSubscription modify]. rewrite exec_bind.
  edestruct (announce_run nowA s1) as [b ->]. cbn [exec mret prog_ret fst db]. apply keeps_put. cbn [Sub_UserID s1].
  intros s0 Hs0 Ha He. rewrite (Hk uid s Es), Es in Hs0. injection Hs0 as <-. exact (conj Ha He).
Qed.

Lemma expire_loop_keeps now limit rows out m uid s :
  now < Sub_CurrentPeriodEnd s → (∀ s', (uid, s') ∈ rows → s' = s) → m !! uid = Some s →
  (expire_loop now limit rows out m).1 !! uid = Some s.
Proof.
  intros Hlt. revert out m. induction rows as [|[v s'] rows IH]; intros out m Hrows Hm; [done|]. cbn [expire_loop].
  destruct (limit <=? len out); [done|]. destruct (_ || _) eqn:E.
  - apply IH; [|done]. intros s0 Hin. apply Hrows. by right.
  - apply IH; [intros s0 Hin; apply Hrows; by right|]. destruct (decide (v = uid)) as [->|Hne]; [|by rewrite lookup_insert_ne].
    rewrite (Hrows s') in E by left. apply orb_false_iff in E as [_ E%Z.ltb_ge]. lia.
Qed.

Lemma expire_loop_keys now limit rows out m :
  (∀ v s', (v, s') ∈ rows → Sub_UserID s' = v) → (∀ uid s, m !! uid = Some s → Sub_UserID s = uid) →
  ∀ uid s, (expire_loop now limit rows out m).1 !! uid = Some s → Sub_UserID s = uid.
Proof.
  revert out m. induction rows as [|[v s'] rows IH]; intros out m Hrows Hm; [done|]. cbn [expire_loop].
  assert (∀ v0 s0, (v0, s0) ∈ rows → Sub_UserID s0 = v0) as Hrows' by (intros v0 s0 Hin; apply Hrows; by right).
  destruct (limit <=? len out); [done|]. destruct (_ || _); apply IH; try done.
  intros uid s. rewrite lookup_insert_Some. intros [[<- <-]|[_ Hs]]; [|by apply Hm]. cbn. apply Hrows. left.
Qed.

Lemma keeps_expire t now limit d : now ≤ t → keeps t d (ExpireSubscriptions now limit d).1.
Proof.
  intros Hnow [Hk Hp]. unfold ExpireSubscriptions. set (lim := if limit <=? 0 then 500 else limit).
  set (r := expire_loop now lim (range_map (subscriptions d)) [] (subscriptions d)).
  assert ((let '(m, out) := r in (set_subscriptions m d, Ok out)).1 = set_subscriptions r.1 d) as -> by by destruct r.
  split.
  - split; [|done]. cbn. apply expire_loop_keys; [|done]. intros v s' Hin%elem_of_range_map. by apply Hk.
  - intros uid (s & Hs & Ha & He). exists s. split_and!; [|done|done]. cbn. destruct (Active_premium s t Ha He) as (_ & _ & Hlt).
    apply expire_loop_keeps; [lia| |done]. intros s' Hin%elem_of_range_map. congruence.
Qed.

Lemma sweep_db now nowA w :
  db (exec (sweepExpired now nowA) w).1 = (ExpireSubscriptions now expirySweepBatch (db w)).1.
Proof.
  unfold sweepExpired. rewrite exec_settle_tx.
  destruct (ExpireSubscriptions now expirySweepBatch (db w)) as [d [users|e]]; [|done]. cbn [fst snd].
  set (w1 := mkWorld _ _ _). change d with (db w1). generalize w1. clear w1. induction users as [|uid users IH]; intros w1; [done|].
  cbn [each]. rewrite exec_bind, exec_bind. unfold Subscription_. rewrite exec_settle_tx, GetSubscription_run. cbn [fst snd].
  cbn [exec mret prog_ret]. edestruct announce_run as [b ->]. rewrite IH. done.
Qed.

(** A notification, whatever it is, changes nothing or settles a payment. *)
Lemma callback_cases name src raw hs now nowA w :
  db (exec (HandleCallback providers name src raw hs now nowA) w).1 = db w ∨
  ∃ prov cb id p, providers !! name = Some prov ∧ Prov_Verify prov raw hs = Ok cb ∧ payments (db w) !! id = Some p ∧
    let at_ := if CB_PaidAt cb =? 0 then now else CB_PaidAt cb in
    let s := default (blank_sub (Pay_UserID p) at_) (subscriptions (db w) !! Pay_UserID p) in
    db (exec (HandleCallback providers name src raw hs now nowA) w).1 =
      mkBillingDB (if bool_decide (CB_Status cb = PaySucceeded) then <[Sub_UserID s := extended s p at_]> (subscriptions (db w))
                   else subscriptions (db w))
        (<[id := with_status (CB_Status cb) at_ p]> (payments (db w))) (paymentIdem (db w)) (paymentRefs (db w)).
Proof.
  destruct (providers !! name) as [prov|] eqn:Hprov; [|left; unfold HandleCallback; by rewrite Hprov].
  destruct (match Prov_AllowsSource prov with Some allows => negb (allows src) | None => false end) eqn:Hs.
  { left. unfold HandleCallback. by rewrite Hprov, Hs. }
  destruct (Prov_Verify prov raw hs) as [cb|e] eqn:Hv.
  2: { left. unfold HandleCallback. rewrite Hprov, Hs, Hv. by destruct e. }
  destruct (paymentRefs (db w) !! bar name (CB_ProviderRef cb)) as [id|] eqn:Hid.
  2: { left. unfold HandleCallback. rewrite Hprov, Hs, Hv, exec_settle_tx, GetPaymentByRef_run, Hid. done. }
  destruct (payments (db w) !! id) as [p|] eqn:Hp.
  2: { left. unfold HandleCallback. rewrite Hprov, Hs, Hv, exec_settle_tx, GetPaymentByRef_run, Hid, Hp. done. }
  destruct (negb (CB_AmountMinor cb =? 0) && negb (CB_AmountMinor cb =? Pay_AmountMinor p)) eqn:Ha.
  { left. unfold HandleCallback. rewrite Hprov, Hs, Hv, exec_settle_tx, GetPaymentByRef_run, Hid, Hp. cbn [fst snd]. by rewrite Ha. }
  destruct (HandleCallback_run providers name src raw hs now nowA w prov cb id p Hprov) as [b ->]; [|done..| |].
  { destruct (Prov_AllowsSource prov); [by apply negb_false_iff | done]. }
  { apply andb_false_iff in Ha as [Ha|Ha]; apply negb_false_iff, Z.eqb_eq in Ha; auto. }
  cbn [fst db]. destruct (CanTransitionTo _ _); [|by left]. right. by exists prov, cb, id, p.
Qed.

Lemma keeps_callback t name src raw hs now nowA w :
  rows_ok (db w) → 0 ≤ t →
  (∀ prov cb, providers !! name = Some prov → Prov_Verify prov raw hs = Ok cb →
     (if CB_PaidAt cb =? 0 then now else CB_PaidAt cb) + subscriptionPeriod < 2 ^ 63) →
  (∀ uid s, subscriptions (db w) !! uid = Some s → Sub_CurrentPeriodEnd s + subscriptionPeriod < 2 ^ 63) →
  keeps t (db w) (db (exec (HandleCallback providers name src raw hs now nowA) w).1).
Proof.
  intros [Hk Hp] Ht Hat Hend. destruct (callback_cases name src raw hs now nowA w) as [->|(prov & cb & id & p & Hprov & Hv & Hpay & ->)];
    [reflexivity|]. set (at_ := if CB_PaidAt cb =? 0 then now else CB_PaidAt cb).
  set (s := default (blank_sub (Pay_UserID p) at_) (subscriptions (db w) !! Pay_UserID p)).
  set (d' := mkBillingDB _ _ _ _).
  transitivity (mkBillingDB (subscriptions d') (payments (db w)) (paymentIdem (db w)) (paymentRefs (db w))).
  2: { apply keeps_subs; [done|]. intros id' p'. cbn. rewrite lookup_insert_Some.
       intros [[_ <-]|[_ ?]]; [left; cbn; by apply (Hp id) | by right]. }
  cbn [subscriptions d']. destruct (bool_decide _).
  - change (mkBillingDB (<[Sub_UserID s := extended s p at_]> (subscriptions (db w))) (payments (db w)) (paymentIdem (db w)) (paymentRefs (db w)))
      with (set_subscriptions (<[Sub_UserID (extended s p at_) := extended s p at_]> (subscriptions (db w))) (db w)).
    apply keeps_put. cbn [Sub_UserID extended]. intros s0 Hs0 Ha He.
    assert (s = s0) as Es.
    { unfold s in Hs0 |- *. destruct (subscriptions (db w) !! Pay_UserID p) as [s1|] eqn:E1; cbn in Hs0 |- *; [|congruence].
      rewrite (Hk _ s1 E1), E1 in Hs0. by injection Hs0. }
    rewrite <- Es in Ha, He. apply extended_access; [by apply (Hp id) | done | done | done | by apply (Hat prov) |].
    rewrite Es. by apply (Hend _ s0 Hs0).
  - apply keeps_subs; [done|]. by right.
Qed.

(** Requests served one at a time, their clocks at most [t]. *)
Inductive paid_step (t : Z) : World → World → Prop :=
  | ps_checkout newID req now w : now ≤ t → paid_step t w (exec (Checkout providers prices newID req now) w).1
  | ps_cancel uid now nowA w : paid_step t w (exec (Cancel uid now nowA) w).1
  | ps_sweep now nowA w : now ≤ t → paid_step t w (exec (sweepExpired now nowA) w).1
  | ps_callback name src raw hs now nowA w :
      (∀ prov cb, providers !! name = Some prov → Prov_Verify prov raw hs = Ok cb →
         (if CB_PaidAt cb =? 0 then now else CB_PaidAt cb) + subscriptionPeriod < 2 ^ 63) →
      (∀ uid s, subscriptions (db w) !! uid = Some s → Sub_CurrentPeriodEnd s + subscriptionPeriod < 2 ^ 63) →
      paid_step t w (exec (HandleCallback providers name src raw hs now nowA) w).1.

(** What was paid for is not taken away.  A user whose subscription runs beyond [t]
    still has it at [t] after any sequence of requests served by then: new checkouts,
    cancellations, expiry sweeps, and notifications of any kind for anybody's payments. *)
Theorem access_kept t w w' uid :
  rtc (paid_step t) w w' → 0 ≤ t → rows_ok (db w) → has_access t uid (db w) →
  ∃ s, subscriptions (db w') !! uid = Some s ∧ EntitlementsFor s t = PremiumEntitlements.
Proof.
  intros Hrun Ht. assert (keeps t (db w) (db w')) as Hk.
  { assert (rows_ok (db w) → rows_ok (db w') ∧ ∀ u, has_access t u (db w) → has_access t u (db w')) as Hgen; [|exact Hgen].
    induction Hrun as [w|w w1 w' Hst _ IH]; intros Hd; [by split|].
    assert (keeps t (db w) (db w1)) as Hw1.
    { destruct Hst; [by apply keeps_Checkout | by apply keeps_Cancel | rewrite sweep_db; by apply keeps_expire | by apply keeps_callback]. }
    destruct (Hw1 Hd) as [Hd1 Ha1]. destruct (IH Hd1) as [Hd' Ha']. split; [done|]. intros u Hu. by apply Ha', Ha1. }
  intros Hd Ha. destruct (Hk Hd) as [_ Hk']. destruct (Hk' uid Ha) as (s & Hs & Hact & _).
  exists s. split; [done|]. unfold EntitlementsFor. by rewrite Hact.
Qed.
End checkout.
End billing.

(** ** Witnesses *)
Section witnesses.
#[local] Existing Instances canonical_order ascii_tables.
#[local] Instance event_list : Bus subscriptionEvent (list (Event subscriptionEvent)) := λ e b, (b ++ [e], Ok tt).
Abbreviation W := (World (B := list (Event subscriptionEvent))).

(** An acquirer that accepts charges and reads its notifications as a status byte. *)
Definition w_read (raw : bytes) (_ : gmap string string) : result Callback :=
  match Zbyte <$> head raw with
  | Some 115 => Ok (mkCallback "r1" PaySucceeded 29900 "RUB" 50)
  | Some 116 => Ok (mkCallback "r2" PaySucceeded 29900 "RUB" 50)
  | Some 102 => Ok (mkCallback "r1" PayFailed 0 "RUB" 0)
  | Some 114 => Ok (mkCallback "r1" PayRefunded 29900 "RUB" 90)
  | _ => Err other_error
  end.
Definition w_acquirer : Provider :=
  mkProvider "yookassa" ["bank_card"] (λ req, Ok (mkChargeResult (if bool_decide (Charge_IdempotencyKey req = "k1") then "r1" else "r2") "https://pay" ""))
    w_read (Some (λ src, bool_decide (src = "10.0.0.1"))).
Definition w_refuser : Provider :=
  mkProvider "yookassa" ["bank_card"] (λ _, Err other_error) w_read None.
Definition w_providers : gmap string Provider := {["yookassa" := w_acquirer]}.
Definition w_empty : W := mkWorld (mkBillingDB ∅ ∅ ∅ ∅) [] [].
Definition w_order : CheckoutRequest := mkCheckoutRequest "u1" "ru" "" "k1" "".
Definition w_bought : W := (exec (Checkout w_providers defaultPrices "p1" w_order 40) w_empty).1.

Lemma w_sellable prov : Prov_Methods prov = ["bank_card"] →
  sellable {["yookassa" := prov]} defaultPrices w_order prov "bank_card" 29900.
Proof.
  intros Hm. split; [done | done | by vm_compute | by vm_compute | |].
  - by rewrite Hm.
  - unfold supports. by rewrite Hm.
Qed.

Lemma every_row {A C} `{EqDecision C} (f : A → C) (g : string → C) (m : gmap string A) :
  bool_decide (map_Forall (λ k x, f x = g k) m) = true → ∀ k x, m !! k = Some x → f x = g k.
Proof. intros Hm%bool_decide_eq_true k x. apply Hm. Qed.

(** The same checkout twice at once, its actions alternating. *)
Definition w_twice : list (prog W unit) :=
  [request (Checkout w_providers defaultPrices "p1" w_order 40); request (Checkout w_providers defaultPrices "p2" w_order 41)].
Definition w_raced : W * list (prog W unit) := pool_run [0; 1; 0; 1; 0; 1; 0; 1]%nat w_empty w_twice.

Lemma charged_once_witness : charges "u1" "k1" w_raced.1 = 1 ∧ charges "u1" "k1" w_raced.1 ≤ 1.
Proof.
  split; [by vm_compute|]. apply (charged_once w_providers defaultPrices "u1" "k1" w_empty w_twice w_raced.1 w_raced.2).
  - repeat constructor.
  - by vm_compute.
  - unfold w_raced. rewrite <- surjective_pairing. apply pool_run_steps.
Defined.

Definition w_news : list Notice :=
  [mkNotice (sbytes "f") ∅ (mkCallback "r1" PayFailed 0 "RUB" 0) 45 45;
   mkNotice (sbytes "s") ∅ (mkCallback "r1" PaySucceeded 29900 "RUB" 50) 51 51;
   mkNotice (sbytes "s") ∅ (mkCallback "r1" PaySucceeded 29900 "RUB" 50) 52 52].
Definition w_pay : Payment :=
  mkPayment "p1" "u1" PlanPremium "yookassa" "r1" "bank_card" 29900 "RUB" PayPending "k1" 40 40.

Lemma one_period_per_payment_witness :
  Sub_CurrentPeriodEnd <$> subscriptions (db (notify w_providers "yookassa" "10.0.0.1" w_news w_bought)) !! "u1" =
    Some (50 + subscriptionPeriod).
Proof.
  rewrite (one_period_per_payment w_providers "yookassa" "10.0.0.1" w_acquirer "r1" "p1" eq_refl eq_refl w_news w_bought w_pay).
  - by vm_compute.
  - repeat apply Forall_cons_2; [..|apply Forall_nil_2]; (split; [reflexivity|]; split; [reflexivity | vm_compute; auto]).
  - by vm_compute.
  - by vm_compute.
  - reflexivity.
  - apply (every_row Sub_UserID id). by vm_compute.
Defined.

Lemma early_callback_lost_witness :
  ∃ w1 p1 q1, interleave [true; true] w_empty (Checkout w_providers defaultPrices "p1" w_order 40)
      (HandleCallback w_providers "yookassa" "10.0.0.1" (sbytes "s") ∅ 41 42) = (w1, p1, q1) ∧
    exec q1 w1 = (w1, Ok tt) ∧
    ∃ w2 c, exec p1 w1 = (w2, Ok c) ∧ Chk_Deduplicated c = false ∧
      Pay_Status <$> payments (db w2) !! "p1" = Some PayPending.
Proof.
  apply (early_callback_lost w_providers defaultPrices "p1" w_order 40 w_acquirer "bank_card" 29900
    (mkChargeResult "r1" "https://pay" "") "10.0.0.1" (sbytes "s") ∅ (mkCallback "r1" PaySucceeded 29900 "RUB" 50));
    [by apply w_sellable | first [reflexivity | done]..].
Defined.

Lemma failed_charge_stuck_witness :
  ∃ w1 pay, exec (Checkout {["yookassa" := w_refuser]} defaultPrices "p1" w_order 40) w_empty = (w1, Err billing_ErrChargeFailed) ∧
    exec (Checkout {["yookassa" := w_refuser]} defaultPrices "p2" w_order 45) w1 = (w1, Ok (mkCheckout pay "" "" true)) ∧
    Pay_Status pay = PayPending.
Proof.
  apply (failed_charge_stuck {["yookassa" := w_refuser]} defaultPrices "p1" "p2" w_order 40 45 w_refuser "bank_card" 29900 other_error);
    [by apply w_sellable | first [reflexivity | done]..].
Defined.

(** Bought and paid for, then cancelled and swept. *)
Definition w_paid : W := (exec (HandleCallback w_providers "yookassa" "10.0.0.1" (sbytes "s") ∅ 55 55) w_bought).1.
Definition w_cancelled : W := (exec (sweepExpired 70 (λ _, 70)) (exec (Cancel "u1" 60 60) w_paid).1).1.

Lemma access_kept_witness :
  ∃ s, subscriptions (db w_cancelled) !! "u1" = Some s ∧ EntitlementsFor s 100 = PremiumEntitlements.
Proof.
  apply (access_kept w_providers defaultPrices 100 w_paid).
  - eapply rtc_l; [apply ps_cancel|]. apply rtc_once, ps_sweep. lia.
  - lia.
  - split; [apply (every_row Sub_UserID id) | apply (every_row Pay_Plan (λ _, PlanPremium))]; by vm_compute.
  - eexists. split; [by vm_compute|]. by vm_compute.
Defined.

(** Two payments of one user, reported one after the other, buy two periods; reported at
    once, the second computes its end from the subscription as it was before the first. *)
Definition w_both : W := (exec (Checkout w_providers defaultPrices "p2" (mkCheckoutRequest "u1" "ru" "" "k2" "") 41) w_bought).1.
Definition w_report (raw : string) : prog W unit := HandleCallback w_providers "yookassa" "10.0.0.1" (sbytes raw) ∅ 55 55.
Definition period_end (w : W) : option Z := Sub_CurrentPeriodEnd <$> subscriptions (db w) !! "u1".

Example concurrent_callbacks_lose_period :
  period_end (exec (w_report "t") (exec (w_report "s") w_both).1).1 = Some (50 + 2 * subscriptionPeriod) ∧
  let '(w, p, _) := interleave [true; true; false; false; false; false] w_both (w_report "s") (w_report "t") in
  period_end (exec p w).1 = Some (50 + subscriptionPeriod) ∧
  Pay_Status <$> payments (db (exec p w).1) !! "p1" = Some PaySucceeded ∧
  Pay_Status <$> payments (db (exec p w).1) !! "p2" = Some PaySucceeded.
Proof. by vm_compute. Qed.

(** A cancellation that read the subscription before a payment was applied puts it back:
    paid, and not premium. *)
Example cancel_undoes_payment :
  let '(w, p, _) := interleave [true; false; false; false; false] w_bought (Cancel "u1" 54 54) (w_report "s") in
  Pay_Status <$> payments (db (exec p w).1) !! "p1" = Some PaySucceeded ∧
  (λ s, EntitlementsFor s 60) <$> subscriptions (db (exec p w).1) !! "u1" = Some FreeEntitlements.
Proof. by vm_compute. Qed.
End witnesses.
