(* ===== verification/Fanout.v ===== *)
(** * Fan-out

    [internal/fanout] fanout.go, types.go and constants.go: from a domain event to node
    deliveries and push jobs.  The chats, the router, the bus and the optional policies are
    interfaces over a world [X]; the service keeps its two caches.  Events are carried
    decoded; the bodies a delivery carries are marshalled by a parameter, the wire codec. *)

From S2P Require Import Prelude Bytes Utf8 Model EventBus Router NodeCodec SecretPayload Reaction Pin Poll Call.

Definition memberCacheTTL : Z := 3 * 10 ^ 9.
Definition memberCacheMax : Z := 50000.
Definition memberSweepEvery : Z := 30 * 10 ^ 9.
Definition kindCacheMax : Z := 100000.
Definition fanoutShardThreshold : Z := 1000.
Definition fanoutShardSize : Z := 500.
Definition subjFanoutShard : string := "fanout.shard".
Definition presencePageSize : Z := 200.
Definition maxPresencePages : nat := 10.
Definition routeBatchSize : Z := 200.

Definition MsgNew : Z := 10.
Definition MsgReadUpd : Z := 12.
Definition MsgTyping : Z := 13.
Definition MsgPresence : Z := 14.
Definition MsgSecretRecv : Z := 54.
Definition MsgReactUpd : Z := 81.
Definition MsgPollState : Z := 87.
Definition MsgCallState : Z := 94.
Definition MsgPinned : Z := 109.

Record TypingBody := mkTyping { Typing_ChatID : string; Typing_UserID : string; Typing_Active : bool }.
Record PresenceBody := mkPresence { Presence_UserID : string; Presence_Online : bool; Presence_LastSeenMs : Z }.
Record FanoutShardBody := mkShard { Shard_Body : NewMessageBody; Shard_Members : list string }.
Record pushJob := mkPush {
  Push_UserID : string;
  Push_ChatID : string;
  Push_MessageID : string;
  Push_CallID : string;
  Push_SenderID : string;
  Push_Preview : string;
}.

(** What goes to a client in a frame. *)
Inductive Payload :=
  | PNew (b : NewMessageBody) | PRead (b : ReadUpdateBody) | PReact (b : ReactUpdateBody) | PTyping (b : TypingBody)
  | PPresence (b : PresenceBody) | PCallState (b : CallStateBody) | PPollState (b : PollStateBody) | PPinned (b : PinnedBody)
  | PSecret (b : SecretMsgBody).

(** What the service publishes: an encoded delivery for a node, a shard of a hot chat for
    another worker, a notification to push. *)
Inductive FanoutData := FNode (data : bytes) | FShard (job : FanoutShardBody) | FPush (job : pushJob).

(** The interfaces [Chats] and [router.Router]. *)
Class Chats (X : Type) := {
  MemberIDsPage : string → string → Z → M X (list string);
  UserChats : string → string → Z → M X (list ChatSummary);
}.
Class Routes (X : Type) := {
  rt_NodesFor : string → M X (list string);
  rt_NodesForMany : list string → M X (gmap string (list string));
}.
(** The optional policies: [PresenceAudience], [MuteChecker], [PreviewPolicy], [ChatKinds]. *)
Record Policies (X : Type) := mkPolicies {
  audience : option (X → string → string → result bool);
  mutes : option (X → string → string → result MemberFlags);
  previews : option (X → string → bool);
  kinds : option (X → string → result ChatType);
}.
Arguments audience {X}.
Arguments mutes {X}.
Arguments previews {X}.
Arguments kinds {X}.

Record memberEntry := mkEntry { ids : list string; hot : bool; expires : Z }.
Record Service := mkService {
  cache : gmap string memberEntry;
  lastSweep : Z;
  kindCache : gmap string ChatType;
}.
Record State (X : Type) := mkState { svc : Service; ext : X }.
Arguments mkState {X}.
Arguments svc {X}.
Arguments ext {X}.

(** Readings of the clock: of a cached entry, of the stamp on a new one, of the sweep. *)
Record Clock := mkClock { at_check : Z; at_stamp : Z; at_sweep : Z }.

Fixpoint for_each {S A} (f : A → M S unit) (l : list A) : M S unit :=
  match l with [] => mret tt | x :: l => f x;; for_each f l end.

(** The pages [l[0:n], l[n:2n], ...]. *)
Fixpoint pages {A} (fuel : nat) (n : Z) (l : list A) : list (list A) :=
  match fuel, l with
  | S fuel, _ :: _ => ztake n l :: pages fuel n (zdrop n l)
  | _, _ => []
  end.

(** The cut of a notification text, at the start of a character. *)
Fixpoint cut_back (cut : nat) (text : bytes) : nat :=
  match cut with
  | O => O
  | S c => match text !! cut with Some b => if RuneStart b then cut else cut_back c text | None => cut end
  end.
Definition preview (text : string) : string :=
  let b := sbytes text in
  if len b <=? 120 then text else bstring (take (cut_back 120 b) b).

Section service.
Context `{RangeOrder} {X : Type} `{Chats X} `{Routes X} `{Bus FanoutData X}.
Variable policies : Policies X.
(** [wire.Marshal]. *)
Variable Marshal : Payload → bytes.
Abbreviation St := (State X).

Definition on_ext {A} (m : M X A) : M St A := λ s,
  let '(x, r) := m (ext s) in (mkState (svc s) x, r).
Definition set_cache (c : gmap string memberEntry) (s : Service) : Service := mkService c (lastSweep s) (kindCache s).
Definition set_kindCache (c : gmap string ChatType) (s : Service) : Service := mkService (cache s) (lastSweep s) c.
Definition on_svc (f : Service → Service) : M St unit := modify (λ s, mkState (f (svc s)) (ext s)).

Definition muted (now : Z) (chatID userID : string) : M St bool :=
  match mutes policies with
  | None => mret false
  | Some flags => gets (λ s, match flags (ext s) chatID userID with Err _ => false | Ok f => MutedAt f now end)
  end.

Definition sweepLocked (now : Z) (s : Service) : Service :=
  if (now - lastSweep s <? memberSweepEvery) && (maplen (cache s) <? memberCacheMax) then s
  else
    let c := filter (λ e, (expires e.2 <? now) = false) (cache s) in
    mkService (evict memberCacheMax (range_keys c) c) now (kindCache s).

Definition members (t : Clock) (chatID : string) : M St (list string * bool) :=
  let load : M St (list string * bool) :=
    first ← on_ext (MemberIDsPage chatID "" (fanoutShardThreshold + 1));
    let entry := if fanoutShardThreshold <? len first then mkEntry [] true (at_stamp t + memberCacheTTL)
                 else mkEntry first false (at_stamp t + memberCacheTTL) in
    on_svc (sweepLocked (at_sweep t));;
    on_svc (λ s, set_cache (<[chatID := entry]> (cache s)) s);;
    mret (ids entry, hot entry) in
  s ← get;
  match cache (svc s) !! chatID with
  | Some e => if at_check t <? expires e then mret (ids e, hot e) else load
  | None => load
  end.

(** [publish]; a failed publication is not reported. *)
Definition publish (nodes users : list string) (deviceID : string) (ty : Z) (body : bytes) : M St unit :=
  let data := Encode (mkNodeDelivery users deviceID (u16 ty) body) in
  let key := default "" (head users) in
  for_each (λ node, attempt (on_ext (Publish (mkEvent (DeliverSubject node) key (FNode data) ∅)));; mret tt) nodes.

Definition route (userID deviceID : string) (ty : Z) (body : bytes) : M St Z :=
  r ← attempt (on_ext (rt_NodesFor userID));
  match r with
  | Err _ => mret 0
  | Ok nodes => publish nodes [userID] deviceID ty body;; mret (len nodes)
  end.

(** Node → recipients, and those on no node. *)
Definition add_recipient (uid : string) (m : gmap string (list string)) (node : string) : gmap string (list string) :=
  <[node := default [] (m !! node) ++ [uid]]> m.
Definition invert (byUser : gmap string (list string)) (userIDs : list string) : gmap string (list string) * list string :=
  foldl (λ '(perNode, offline) uid,
    let nodes := default [] (byUser !! uid) in
    if len nodes =? 0 then (perNode, offline ++ [uid])
    else (foldl (add_recipient uid) perNode nodes, offline)) (∅, []) userIDs.

Definition routeMany (userIDs : list string) (ty : Z) (body : bytes) : M St (list string) :=
  if len userIDs =? 0 then mret []
  else
    r ← attempt (on_ext (rt_NodesForMany userIDs));
    match r with
    | Err _ => mret []
    | Ok byUser =>
        let '(perNode, offline) := invert byUser userIDs in
        for_each (λ e, publish [e.1] e.2 "" ty body) (range_map perNode);;
        mret offline
    end.

Definition publishPush (userID : string) (job : pushJob) : M St unit :=
  attempt (on_ext (Publish (mkEvent SubjNotifyPush userID (FPush job) ∅)));; mret tt.

Definition enqueuePush (userID : string) (msg : NewMessageBody) : M St unit :=
  wants ← gets (λ s, match previews policies with Some p => p (ext s) userID | None => false end);
  publishPush userID (mkPush userID (NM_ChatID msg) (NM_MessageID msg) "" (NM_SenderID msg)
    (if wants : bool then preview (NM_Text msg) else "")).

(** One offline recipient; [now] is read for each. *)
Definition notify_offline (now : string → Z) (body : NewMessageBody) (uid : string) : M St unit :=
  if NM_Edited body || NM_Deleted body then mret tt
  else if bool_decide (uid = NM_SenderID body) then mret tt
  else
    m ← muted (now uid) (NM_ChatID body) uid;
    if m : bool then mret tt else enqueuePush uid body.

Definition deliverNew (now : string → Z) (recipients : list string) (body : NewMessageBody) : M St unit :=
  for_each (λ page,
    offline ← routeMany page MsgNew (Marshal (PNew body));
    for_each (notify_offline now body) offline) (pages (length recipients) routeBatchSize recipients).

(** The walk over a hot chat; [fuel] bounds the pages, [None] is a walk still running. *)
Fixpoint shard_walk (fuel : nat) (headers : Headers) (body : NewMessageBody) (after : string) : M St (option unit) :=
  match fuel with
  | O => mret None
  | S fuel =>
      page ← on_ext (MemberIDsPage (NM_ChatID body) after fanoutShardSize);
      match last page with
      | None => mret (Some tt)
      | Some after =>
          on_ext (Publish (mkEvent subjFanoutShard (NM_ChatID body) (FShard (mkShard body page)) headers));;
          if len page <? fanoutShardSize then mret (Some tt) else shard_walk fuel headers body after
      end
  end.
Definition shardHotChat (fuel : nat) (headers : Headers) (body : NewMessageBody) : M St (option unit) :=
  shard_walk fuel headers body "".

Definition onMessage (fuel : nat) (t : Clock) (now : string → Z) (headers : Headers) (body : NewMessageBody)
    : M St (option unit) :=
  '(recipients, big) ← members t (NM_ChatID body);
  if big : bool then shardHotChat fuel headers body
  else deliverNew now recipients body;; mret (Some tt).

Definition onShard (now : string → Z) (job : FanoutShardBody) : M St unit :=
  deliverNew now (Shard_Members job) (Shard_Body job).

(** [eachMember]: [fn] threads what its closure accumulates. *)
Fixpoint fold_members {A} (fn : string → A → M St A) (l : list string) (a : A) : M St A :=
  match l with [] => mret a | uid :: l => a ← fn uid a; fold_members fn l a end.
Fixpoint member_walk {A} (fuel : nat) (chatID : string) (fn : string → A → M St A) (after : string) (a : A)
    : M St (option A) :=
  match fuel with
  | O => mret None
  | S fuel =>
      page ← on_ext (MemberIDsPage chatID after fanoutShardSize);
      match last page with
      | None => mret (Some a)
      | Some after =>
          a ← fold_members fn page a;
          if len page <? fanoutShardSize then mret (Some a) else member_walk fuel chatID fn after a
      end
  end.
Definition eachMember {A} (fuel : nat) (t : Clock) (chatID : string) (fn : string → A → M St A) (a : A) : M St (option A) :=
  '(ids, big) ← members t chatID;
  if negb big then a ← fold_members fn ids a; mret (Some a) else member_walk fuel chatID fn "" a.

Definition flush (ty : Z) (payload : bytes) (batch : list string) : M St unit :=
  if len batch =? 0 then mret tt else routeMany batch ty payload;; mret tt.
Definition collect (ty : Z) (payload : bytes) (skipUser uid : string) (batch : list string) : M St (list string) :=
  if bool_decide (uid = skipUser) then mret batch
  else
    let batch := batch ++ [uid] in
    if len batch =? routeBatchSize then flush ty payload batch;; mret [] else mret batch.
Definition broadcast (fuel : nat) (t : Clock) (chatID : string) (ty : Z) (payload : bytes) (skipUser : string)
    : M St (option unit) :=
  r ← eachMember fuel t chatID (collect ty payload skipUser) [];
  match r with
  | None => mret None
  | Some batch => flush ty payload batch;; mret (Some tt)
  end.

Definition chatKind (chatID : string) : M St (option ChatType) :=
  match kinds policies with
  | None => mret None
  | Some ChatType =>
      s ← get;
      match kindCache (svc s) !! chatID with
      | Some typ => mret (Some typ)
      | None =>
          match ChatType (ext s) chatID with
          | Err _ => mret None
          | Ok typ =>
              if bool_decide (typ = "") then mret None
              else
                on_svc (λ s, let kc := if kindCacheMax <=? maplen (kindCache s) then ∅ else kindCache s in
                             set_kindCache (<[chatID := typ]> kc) s);;
                mret (Some typ)
          end
      end
  end.

Definition receiptsArePrivate (t : Clock) (chatID : string) : M St bool :=
  k ← chatKind chatID;
  if bool_decide (k = Some ChatChannel) then mret true
  else
    r ← attempt (members t chatID);
    mret (match r with Ok (_, big) => big | Err _ => false end).

(** Two reads of the member cache: for the decision, and for the broadcast. *)
Definition onRead (fuel : nat) (t t' : Clock) (body : ReadUpdateBody) : M St (option unit) :=
  private ← receiptsArePrivate t (RU_ChatID body);
  if private : bool then mret (Some tt)
  else broadcast fuel t' (RU_ChatID body) MsgReadUpd (Marshal (PRead body)) (RU_UserID body).

Definition onReaction (fuel : nat) (t : Clock) (body : ReactUpdateBody) : M St (option unit) :=
  broadcast fuel t (React_ChatID body) MsgReactUpd (Marshal (PReact body)) "".
Definition onTyping (fuel : nat) (t : Clock) (body : TypingBody) : M St (option unit) :=
  broadcast fuel t (Typing_ChatID body) MsgTyping (Marshal (PTyping body)) (Typing_UserID body).
Definition onPollState (fuel : nat) (t : Clock) (body : PollStateBody) : M St (option unit) :=
  let body := mkPollState (PollState_PollID body) (PollState_ChatID body) (PollState_MessageID body)
    (PollState_Question body) (PollState_Options body) (PollState_TotalVotes body) (PollState_MultiChoice body)
    (PollState_Anonymous body) (PollState_Closed body) [] in
  broadcast fuel t (PollState_ChatID body) MsgPollState (Marshal (PPollState body)) "".
Definition onPinned (fuel : nat) (t : Clock) (body : PinnedBody) : M St (option unit) :=
  broadcast fuel t (PinnedBody_ChatID body) MsgPinned (Marshal (PPinned body)) "".

Definition mayAnnounce (ownerID viewerID : string) : M St bool :=
  match audience policies with
  | None => mret true
  | Some MaySeePresence => gets (λ s, match MaySeePresence (ext s) ownerID viewerID with Ok ok => ok | Err _ => false end)
  end.

(** One page of summaries: the cursor, the peers seen, the peers listed. *)
Definition collect_peer (userID : string) (acc : string * gset string * list string) (sum : ChatSummary)
    : string * gset string * list string :=
  let '(after, seen, out) := acc in
  match Sum_Chat sum with
  | None => acc
  | Some c =>
      let after := Chat_ID c in
      let peer := Sum_PeerID sum in
      if negb (bool_decide (Chat_Type c = ChatDirect)) || bool_decide (peer = "") || bool_decide (peer = userID)
      then (after, seen, out)
      else if bool_decide (peer ∈ seen) then (after, seen, out)
      else (after, {[peer]} ∪ seen, out ++ [peer])
  end.
Fixpoint peer_walk (rounds : nat) (userID : string) (acc : string * gset string * list string) : M St (list string) :=
  match rounds with
  | O => mret acc.2
  | S rounds =>
      page ← on_ext (UserChats userID acc.1.1 presencePageSize);
      if len page =? 0 then mret acc.2
      else
        let acc := foldl (collect_peer userID) acc page in
        if len page <? presencePageSize then mret acc.2 else peer_walk rounds userID acc
  end.
Definition directPeers (userID : string) : M St (list string) := peer_walk maxPresencePages userID ("", ∅, []).

Definition onPresence (body : PresenceBody) : M St unit :=
  if bool_decide (Presence_UserID body = "") then mret tt
  else
    r ← attempt (directPeers (Presence_UserID body));
    match r with
    | Err _ => mret tt
    | Ok peers =>
        for_each (λ uid,
          ok ← mayAnnounce (Presence_UserID body) uid;
          if negb ok then mret tt else route uid "" MsgPresence (Marshal (PPresence body));; mret tt) peers
    end.

Definition RouteSecret (toUser toDevice : string) (body : SecretMsgBody) : M St unit :=
  route toUser toDevice MsgSecretRecv (Marshal (PSecret body));; mret tt.

Definition kind_text (k : CallKind) : string :=
  match k with CallAudio => "audio" | CallVideo => "video" | CallKind_other s => s end.
Definition enqueueCallPush (userID : string) (c : CallStateBody) : M St unit :=
  publishPush userID (mkPush userID (CallState_ChatID c) "" (CallState_CallID c) (CallState_InitiatorID c)
    ("Incoming " +:+ kind_text (CallState_Kind c) +:+ " call")).

Definition onCallState (body : CallStateBody) : M St unit :=
  for_each (λ '(userID, _, state),
    if bool_decide (state = PartLeft) || bool_decide (state = PartDeclined) then mret tt
    else
      delivered ← route userID "" MsgCallState (Marshal (PCallState body));
      if (delivered =? 0) && bool_decide (state = PartInvited) && bool_decide (CallState_State body = CallRinging)
      then enqueueCallPush userID body else mret tt) (CallState_Participants body).
End service.

(** ** What the interfaces promise

    [rest x c a] are the members of chat [c] past the cursor [a], in order; [nodes x u] the
    nodes user [u] is on; [still] relates worlds that differ in what was published only. *)
Class FanoutLaws (X : Type) `{!Chats X} `{!Routes X} `{!Bus FanoutData X} (policies : Policies X) := {
  still : relation X;
  still_preorder :: PreOrder still;
  sent : X → list (Event FanoutData);
  rest : X → string → string → list string;
  nodes : X → string → list string;
  summaries : X → string → list ChatSummary;
  still_rest x x' c a : still x x' → rest x' c a = rest x c a;
  still_nodes x x' u : still x x' → nodes x' u = nodes x u;
  still_summaries x x' u : still x x' → summaries x' u = summaries x u;
  still_flags x x' f c u : still x x' → mutes policies = Some f → f x' c u = f x c u;
  still_previews x x' f u : still x x' → previews policies = Some f → f x' u = f x u;
  still_audience x x' f u v : still x x' → audience policies = Some f → f x' u v = f x u v;
  still_kinds x x' f c : still x x' → kinds policies = Some f → f x' c = f x c;
  rest_NoDup x c : NoDup (rest x c "");
  rest_next x c a n uid : 0 < n → last (ztake n (rest x c a)) = Some uid →
    rest x c a = ztake n (rest x c a) ++ rest x c uid;
  nodes_NoDup x u : NoDup (nodes x u);
  MemberIDsPage_reads c a n x : 0 < n →
    ∃ x', MemberIDsPage c a n x = (x', Ok (ztake n (rest x c a))) ∧ still x x' ∧ sent x' = sent x;
  UserChats_reads u a n x :
    ∃ x' page, UserChats u a n x = (x', Ok page) ∧ page ⊆ summaries x u ∧ still x x' ∧ sent x' = sent x;
  NodesFor_reads u x : ∃ x', rt_NodesFor u x = (x', Ok (nodes x u)) ∧ still x x' ∧ sent x' = sent x;
  NodesForMany_reads us x :
    ∃ x' m, rt_NodesForMany us x = (x', Ok m) ∧ (∀ u, u ∈ us → default [] (m !! u) = nodes x u) ∧
      still x x' ∧ sent x' = sent x;
  Publish_logs e x : ∃ x', Publish e x = (x', Ok tt) ∧ still x x' ∧ sent x' = sent x ++ [e];
}.

(** ** Lemmas *)

Lemma concat_pages {A} fuel n (l : list A) : 0 < n → (length l ≤ fuel)%nat → concat (pages fuel n l) = l.
Proof.
  intros Hn. revert l. induction fuel as [|fuel IH]; intros l Hl; destruct l as [|x l]; try done; [cbn in Hl; lia|].
  cbn [pages concat]. rewrite IH; [apply ztake_zdrop|]. unfold zdrop. rewrite length_drop. cbn [length] in *. lia.
Qed.
Lemma pages_size {A} fuel n (l : list A) : 0 ≤ n → Forall (λ p, len p ≤ n) (pages fuel n l).
Proof.
  intros Hn. revert l. induction fuel as [|fuel IH]; intros l; destruct l as [|x l]; cbn [pages]; try apply Forall_nil_2.
  apply Forall_cons_2; [|apply IH]. unfold ztake, len. rewrite length_take. lia.
Qed.

Lemma elem_of_cons_ne {A} (x y : A) l : x ≠ y → x ∈ y :: l ↔ x ∈ l.
Proof. intros Hne. rewrite elem_of_cons. intuition congruence. Qed.

Lemma concat_fmap_singleton {A B} (f : A → B) l : concat ((λ x, [f x]) <$> l) = f <$> l.
Proof. induction l as [|x l IH]; [done|]. cbn [fmap list_fmap concat app]. by f_equal. Qed.

Lemma concat_Permutation {A} (ls ls' : list (list A)) : ls ≡ₚ ls' → concat ls ≡ₚ concat ls'.
Proof.
  induction 1 as [|l ls ls' _ IH|l l' ls|ls1 ls2 ls3 _ IH1 _ IH2]; cbn [concat]; [done | by rewrite IH | | by etrans].
  rewrite !app_assoc. by rewrite (Permutation_app_comm l l').
Qed.

(** How often [u] occurs. *)
Definition occurs (u : string) (l : list string) : Z := len (filter (.= u) l).
Lemma occurs_app u l k : occurs u (l ++ k) = occurs u l + occurs u k.
Proof. unfold occurs. by rewrite filter_app, len_app. Qed.
Lemma occurs_cons u v l : occurs u (v :: l) = (if bool_decide (v = u) then 1 else 0) + occurs u l.
Proof. unfold occurs. rewrite filter_cons. destruct (decide (v = u)); case_bool_decide; rewrite ?len_cons; done || lia. Qed.
Lemma occurs_concat u ls : occurs u (concat ls) = zsum (occurs u <$> ls).
Proof. induction ls as [|l ls IH]; [done|]. cbn [concat fmap list_fmap]. by rewrite occurs_app, zsum_cons, IH. Qed.
Lemma occurs_NoDup u l : NoDup l → occurs u l = if bool_decide (u ∈ l) then 1 else 0.
Proof.
  induction 1 as [|v l Hv _ IH]; [done|]. rewrite occurs_cons, IH.
  destruct (decide (v = u)) as [->|Hne].
  - by rewrite (bool_decide_true (u = u)), (bool_decide_false (u ∈ l)), (bool_decide_true (u ∈ u :: l)) by (done || by left).
  - rewrite (bool_decide_false (v = u)) by done. rewrite (bool_decide_ext (u ∈ v :: l) (u ∈ l)); [lia | by apply elem_of_cons_ne].
Qed.
Lemma occurs_filter u (P : string → Prop) `{∀ v, Decision (P v)} l :
  occurs u (filter P l) = if bool_decide (P u) then occurs u l else 0.
Proof.
  induction l as [|v l IH]; [by case_bool_decide|]. rewrite filter_cons, occurs_cons.
  destruct (decide (P v)) as [Hv|Hv]; rewrite ?occurs_cons, IH; destruct (decide (v = u)) as [->|Hne].
  - by rewrite !(bool_decide_true (P u)).
  - rewrite bool_decide_false by done. by case_bool_decide.
  - by rewrite !(bool_decide_false (P u)).
  - rewrite (bool_decide_false (v = u)) by done. by case_bool_decide.
Qed.

(** A recipient is filed once under each of their nodes. *)
Lemma add_recipients uid ns m n :
  NoDup ns →
  default [] (foldl (add_recipient uid) m ns !! n) = default [] (m !! n) ++ (if bool_decide (n ∈ ns) then [uid] else []).
Proof.
  intros Hns. revert m. induction Hns as [|n' ns Hn' _ IH]; intros m; [by rewrite app_nil_r|]. cbn [foldl]. rewrite IH.
  unfold add_recipient at 1. destruct (decide (n' = n)) as [->|Hne].
  - rewrite lookup_insert_eq. cbn. by rewrite (bool_decide_false (n ∈ ns)), (bool_decide_true (n ∈ n :: ns)), app_nil_r by (done || by left).
  - rewrite lookup_insert_ne by done. by rewrite (bool_decide_ext (n ∈ n' :: ns) (n ∈ ns)) by by apply elem_of_cons_ne.
Qed.

Lemma add_recipients_some uid ns m n l : foldl (add_recipient uid) m ns !! n = Some l → l ≠ [] ∨ m !! n = Some l.
Proof.
  revert m. induction ns as [|n' ns IH]; intros m Hl; [by right|]. destruct (IH _ Hl) as [?|Hl']; [by left|].
  unfold add_recipient in Hl'. apply lookup_insert_Some in Hl' as [[_ <-]|[_ ?]]; [left | by right]. by destruct (default [] (m !! n')).
Qed.

Lemma invert_spec byUser (ns : string → list string) us :
  (∀ u, u ∈ us → default [] (byUser !! u) = ns u) → (∀ u, NoDup (ns u)) →
  (invert byUser us).2 = filter (λ u, ns u = []) us ∧
  (∀ n, default [] ((invert byUser us).1 !! n) = filter (λ u, n ∈ ns u) us) ∧
  (∀ n l, (invert byUser us).1 !! n = Some l → l ≠ []).
Proof.
  intros Hby Hnd. unfold invert. induction us as [|u us IH] using rev_ind.
  { cbn [foldl fst snd]. split; [done|]. split; [intros n; by rewrite lookup_empty | intros n l; by rewrite lookup_empty]. }
  rewrite foldl_app. destruct IH as (IH1 & IH2 & IH3); [intros v Hv; apply Hby; set_solver|].
  destruct (foldl _ (∅, []) us) as [perNode offline]. cbn [fst snd foldl] in *. rewrite (Hby u) by set_solver.
  rewrite !filter_app, !filter_cons, !filter_nil. destruct (ns u) as [|n0 nsu] eqn:Eu.
  - change (len (@nil string) =? 0) with true. cbn [fst snd]. rewrite IH1. split_and!; [by rewrite decide_True | | done].
    intros n. rewrite filter_app, filter_cons, filter_nil, Eu, decide_False, app_nil_r by apply not_elem_of_nil. apply IH2.
  - rewrite len_cons, (proj2 (Z.eqb_neq _ _)) by (pose proof (len_nonneg nsu); lia). cbn [fst snd]. rewrite <- Eu. split_and!.
    + by rewrite decide_False, app_nil_r by congruence.
    + intros n. rewrite add_recipients, IH2, filter_app, filter_cons, filter_nil by done. f_equal.
      case_bool_decide; by case_decide.
    + intros n l Hl. apply add_recipients_some in Hl as [?|Hl]; [done | by apply (IH3 n)].
Qed.

(** The cut: at a character's start, and not far back. *)
Lemma cut_back_start cut b :
  (cut < length b)%nat →
  (cut_back cut b ≤ cut)%nat ∧
  (cut_back cut b = 0%nat ∨ ∃ c, b !! cut_back cut b = Some c ∧ RuneStart c = true) ∧
  ∀ i c, (cut_back cut b < i ≤ cut)%nat → b !! i = Some c → RuneStart c = false.
Proof.
  induction cut as [|k IH]; intros Hk; cbn [cut_back]; [split_and!; [lia | by left | intros; lia]|].
  destruct (lookup_lt_is_Some_2 b (S k) Hk) as [c Hc]. rewrite Hc. destruct (RuneStart c) eqn:E.
  - split_and!; [lia | right; by exists c | intros; lia].
  - destruct IH as (H1 & H2 & H3); [lia|]. split_and!; [lia | done|]. intros i c' Hi Hc'.
    destruct (decide (i = S k)) as [->|Hne]; [congruence|]. apply (H3 i); [lia | done].
Qed.

Lemma preview_spec text :
  ValidString (sbytes text) = true →
  ValidString (sbytes (preview text)) = true ∧ len (sbytes (preview text)) ≤ 120 ∧
  (120 < len (sbytes text) → 117 ≤ len (sbytes (preview text))) ∧ sbytes (preview text) `prefix_of` sbytes text.
Proof.
  intros Hv. unfold preview. set (b := sbytes text) in *. destruct (Z.leb_spec (len b) 120) as [Hle|Hgt].
  { fold b. split_and!; [done | done | lia | done]. }
  unfold len in Hgt. rewrite sbytes_bstring. destruct (cut_back_start 120 b) as (H1 & H2 & H3); [lia|].
  set (k := cut_back 120 b) in *. assert (len (take k b) = Z.of_nat k) as Hlen by (unfold len; rewrite length_take; lia).
  split_and!; [|lia | | by apply prefix_take].
  - destruct H2 as [->|(c & Hc & Hs)]; [done|]. by apply (ValidString_take b k c).
  - intros _. destruct (RuneStart_near b 120) as (j & c & Hj & Hc & Hs); [done | lia|].
    destruct (decide (j ≤ k)%nat) as [Hjk|Hjk]; [lia|]. rewrite (H3 j c) in Hs by (done || lia). done.
Qed.

Section laws.
Context `{RangeOrder} {X : Type} `{!Chats X} `{!Routes X} `{!Bus FanoutData X}.
Context (policies : Policies X) `{!FanoutLaws X policies} (Marshal : Payload → bytes).
(** [encoding/json] on deliveries of the old format. *)
Context (json : bytes → result (string * string * Z * bytes)).
Abbreviation St := (State X).

(** From [s] to [s'], [evs] was published and nothing else changed but the caches. *)
Definition emits (evs : list (Event FanoutData)) (s s' : St) : Prop :=
  still (ext s) (ext s') ∧ sent (ext s') = sent (ext s) ++ evs.

Lemma emits_refl s s' : ext s' = ext s → emits [] s s'.
Proof. intros Hx. split; rewrite Hx; [done | by rewrite app_nil_r]. Qed.
Lemma emits_app evs1 evs2 s1 s2 s3 : emits evs1 s1 s2 → emits evs2 s2 s3 → emits (evs1 ++ evs2) s1 s3.
Proof. intros [H1 H1'] [H2 H2']. split; [by etrans|]. by rewrite H2', H1', app_assoc. Qed.

(** A call of an interface that reads. *)
Lemma on_ext_reads {A} (m : M X A) (r : result A) (s : St) x' :
  m (ext s) = (x', r) → still (ext s) x' → sent x' = sent (ext s) →
  ∃ s', on_ext m s = (s', r) ∧ emits [] s s' ∧ svc s' = svc s.
Proof.
  intros Hm Hst Hsent. exists (mkState (svc s) x'). unfold on_ext. rewrite Hm. split; [done|]. split; [|done].
  split; [done|]. cbn. by rewrite Hsent, app_nil_r.
Qed.

Lemma publish_one e (s : St) :
  ∃ s', on_ext (Publish e) s = (s', Ok tt) ∧ emits [e] s s' ∧ svc s' = svc s.
Proof.
  destruct (Publish_logs (policies := policies) e (ext s)) as (x' & He & Hst & Hs). exists (mkState (svc s) x').
  unfold on_ext. by rewrite He.
Qed.

(** A loop whose bodies publish; what each publishes is known from the world it started in. *)
Lemma for_each_emits {A} (f : A → M St unit) (g : A → list (Event FanoutData)) l (s0 s : St) :
  (∀ a s, a ∈ l → still (ext s0) (ext s) → ∃ s', f a s = (s', Ok tt) ∧ emits (g a) s s') → still (ext s0) (ext s) →
  ∃ s', for_each f l s = (s', Ok tt) ∧ emits (concat (g <$> l)) s s'.
Proof.
  intros Hf. revert s. induction l as [|a l IH]; intros s Hs; [exists s; split; [done | by apply emits_refl]|].
  destruct (Hf a s) as (s1 & Ha & He1); [by left | done|]. destruct (IH) with (s := s1) as (s2 & Hl & He2).
  { intros b s' Hb. apply Hf. by right. }
  { etrans; [exact Hs | apply He1]. }
  exists s2. cbn [for_each fmap list_fmap concat]. rewrite (bind_Ok _ _ s s1 tt Ha). split; [done | by eapply emits_app].
Qed.

Definition node_event (users : list string) (dev : string) (ty : Z) (body : bytes) (node : string) : Event FanoutData :=
  mkEvent (DeliverSubject node) (default "" (head users)) (FNode (Encode (mkNodeDelivery users dev (u16 ty) body))) ∅.

Lemma publish_emits ns users dev ty body (s : St) :
  ∃ s', publish ns users dev ty body s = (s', Ok tt) ∧ emits (node_event users dev ty body <$> ns) s s'.
Proof.
  destruct (for_each_emits (λ node, attempt (on_ext (Publish (node_event users dev ty body node)));; mret tt)
    (λ node, [node_event users dev ty body node]) ns s s) as (s' & Hl & He); [|done|].
  - intros node s1 _ _. destruct (publish_one (node_event users dev ty body node) s1) as (s2 & H2 & He & _).
    exists s2. split; [|done]. rewrite (bind_Ok _ _ s1 s2 (Ok tt)); [done|]. unfold attempt. by rewrite H2.
  - exists s'. split; [exact Hl|]. by rewrite <- concat_fmap_singleton.
Qed.

Lemma routeMany_emits us ty body (s : St) :
  ∃ s' perNode, routeMany us ty body s = (s', Ok (filter (λ u, nodes (ext s) u = []) us)) ∧
    emits ((λ e, node_event e.2 "" ty body e.1) <$> range_map perNode) s s' ∧
    (∀ n, default [] (perNode !! n) = filter (λ u, n ∈ nodes (ext s) u) us).
Proof.
  unfold routeMany. destruct us as [|u us]; [|rewrite len_cons, (proj2 (Z.eqb_neq _ _)) by (pose proof (len_nonneg us); lia)].
  { exists s, ∅. split; [done|]. rewrite range_map_empty. split; [by apply emits_refl | done]. }
  destruct (NodesForMany_reads (policies := policies) (u :: us) (ext s)) as (x' & m & Hm & Hby & Hst & Hsent).
  destruct (on_ext_reads _ _ s x' Hm Hst Hsent) as (s1 & H1 & He1 & _).
  destruct (invert_spec m (nodes (ext s)) (u :: us) Hby (nodes_NoDup (ext s))) as (Hoff & Hper & _).
  rewrite (bind_Ok _ _ s s1 (Ok m)) by (unfold attempt; by rewrite H1).
  destruct (invert m (u :: us)) as [perNode offline]. cbn [fst snd] in *. subst offline.
  destruct (for_each_emits (λ e, publish [e.1] e.2 "" ty body) (λ e, [node_event e.2 "" ty body e.1]) (range_map perNode) s1 s1)
    as (s2 & H2 & He2); [|done|].
  { intros e s2 _ _. apply (publish_emits [e.1] e.2 "" ty body s2). }
  exists s2, perNode. rewrite (bind_Ok _ _ s1 s2 tt H2). split; [done|]. split; [|done].
  pose proof (emits_app _ _ _ _ _ He1 He2) as He. by rewrite concat_fmap_singleton in He.
Qed.

(** How many times a list of events names [u] to node [n], for a frame. *)
Definition named (ty : Z) (body : bytes) (n u : string) (e : Event FanoutData) : Z :=
  match Event_Data e with
  | FNode data =>
      match DecodeNodeDelivery json data with
      | Ok nd => if bool_decide (Event_Subject e = DeliverSubject n) && (DType nd =? ty) && bool_decide (DBody nd = body)
                      && bool_decide (DeviceID nd = "") then occurs u (Users nd) else 0
      | Err _ => 0
      end
  | _ => 0
  end.
Definition copies (ty : Z) (body : bytes) (n u : string) (evs : list (Event FanoutData)) : Z :=
  zsum (named ty body n u <$> evs).
(** How many notifications [u] gets, and the shards to work on. *)
Definition push_to (u : string) (e : Event FanoutData) : Z :=
  match Event_Data e with
  | FPush job => if bool_decide (Event_Subject e = SubjNotifyPush) && bool_decide (Push_UserID job = u) then 1 else 0
  | _ => 0
  end.
Definition pushes (u : string) (evs : list (Event FanoutData)) : Z := zsum (push_to u <$> evs).
Definition shards (evs : list (Event FanoutData)) : list FanoutShardBody :=
  omap (λ e, match Event_Data e with FShard job => Some job | _ => None end) evs.

Lemma copies_app ty body n u evs evs' : copies ty body n u (evs ++ evs') = copies ty body n u evs + copies ty body n u evs'.
Proof. unfold copies. by rewrite fmap_app, zsum_app. Qed.
Lemma pushes_app u evs evs' : pushes u (evs ++ evs') = pushes u evs + pushes u evs'.
Proof. unfold pushes. by rewrite fmap_app, zsum_app. Qed.
Lemma shards_app evs evs' : shards (evs ++ evs') = shards evs ++ shards evs'.
Proof. apply omap_app. Qed.

(** A delivery for every device of its users. *)
Definition open_event (e : Event FanoutData) : Prop :=
  match Event_Data e with FNode data => ∃ nd, DecodeNodeDelivery json data = Ok nd ∧ DeviceID nd = "" | _ => True end.

(** The sizes the delivery format can express. *)
Definition frame_ok (ty : Z) (body : bytes) : Prop := 0 ≤ ty < 2 ^ 16 ∧ len body < 2 ^ 32.
Definition ids_ok (us : list string) : Prop := Forall (λ u, len (sbytes u) < 2 ^ 16) us.

Lemma named_node_event ty body n u users node :
  frame_ok ty body → ids_ok users → len users < 2 ^ 16 →
  named ty body n u (node_event users "" ty body node) = if bool_decide (node = n) then occurs u users else 0.
Proof.
  intros [Hty Hb] Hu Hl. unfold named, node_event. cbn [Event_Data Event_Subject]. rewrite u16_small by done.
  pose proof (node_decode_encode json (mkNodeDelivery users "" ty body) []) as Hd. rewrite app_nil_r in Hd.
  rewrite Hd by (split_and!; cbn; done || lia). cbn [DType DBody DeviceID Users].
  rewrite Z.eqb_refl, (bool_decide_true (body = body)), (bool_decide_true ("" = "")), !andb_true_r by done.
  rewrite (bool_decide_ext (DeliverSubject node = DeliverSubject n) (node = n)); [done|].
  unfold DeliverSubject. split; [|congruence]. apply (inj (String.append "deliver.")).
Qed.

Lemma node_event_open ty body users node :
  frame_ok ty body → ids_ok users → len users < 2 ^ 16 → open_event (node_event users "" ty body node).
Proof.
  intros [Hty Hb] Hu Hl. unfold open_event, node_event. cbn [Event_Data]. rewrite u16_small by done.
  pose proof (node_decode_encode json (mkNodeDelivery users "" ty body) []) as Hd. rewrite app_nil_r in Hd.
  rewrite Hd by (split_and!; cbn; done || lia). by eexists.
Qed.

Lemma copies_per_node ty body n u (m : gmap string (list string)) :
  frame_ok ty body → (∀ n' l, m !! n' = Some l → ids_ok l ∧ len l < 2 ^ 16) →
  copies ty body n u ((λ e, node_event e.2 "" ty body e.1) <$> range_map m) = occurs u (default [] (m !! n)).
Proof.
  intros Hf. induction m as [|k l m Hk IH] using map_ind; intros Hm; [by rewrite range_map_empty|].
  unfold copies in *. rewrite range_map_insert, delete_id by done. cbn [fmap list_fmap]. rewrite zsum_cons, IH; cycle 1.
  { intros n' l' Hl'. apply (Hm n'). rewrite lookup_insert_ne; [done | congruence]. }
  destruct (Hm k l) as [Hids Hlen]; [by rewrite lookup_insert_eq|]. cbn [fst snd]. rewrite named_node_event by done.
  destruct (decide (k = n)) as [->|Hne].
  - rewrite bool_decide_true, Hk, lookup_insert_eq by done. cbn. change (occurs u []) with 0. lia.
  - by rewrite bool_decide_false, lookup_insert_ne by done.
Qed.

(** *** A message *)

(** Who is told of a message they are not connected for. *)
Definition silenced (x : X) (now : Z) (c u : string) : bool :=
  match mutes policies with
  | Some flags => match flags x c u with Ok f => MutedAt f now | Err _ => false end
  | None => false
  end.
Definition news (x : X) (now : string → Z) (b : NewMessageBody) (u : string) : bool :=
  bool_decide (nodes x u = []) && negb (NM_Edited b || NM_Deleted b) && negb (bool_decide (u = NM_SenderID b))
  && negb (silenced x (now u) (NM_ChatID b) u).
Definition wants (x : X) (u : string) : bool := match previews policies with Some p => p x u | None => false end.
Definition push_event (x : X) (b : NewMessageBody) (u : string) : Event FanoutData :=
  mkEvent SubjNotifyPush u (FPush (mkPush u (NM_ChatID b) (NM_MessageID b) "" (NM_SenderID b)
    (if wants x u then preview (NM_Text b) else ""))) ∅.

Definition push_events (x : X) (now : string → Z) (b : NewMessageBody) (u : string) : list (Event FanoutData) :=
  if news x now b u then [push_event x b u] else [].

(** The audience [l] was reached: one frame per node for those connected, one notification
    for those it is news to. *)
Record reaches (x : X) (now : string → Z) (b : NewMessageBody) (l : list string) (evs : list (Event FanoutData)) : Prop := {
  re_shards : shards evs = [];
  re_copies n u : copies MsgNew (Marshal (PNew b)) n u evs = if bool_decide (n ∈ nodes x u) then occurs u l else 0;
  re_pushes u : pushes u evs = if news x now b u then occurs u l else 0;
  re_jobs : Forall (λ e, ∀ job, Event_Data e = FPush job → ∃ u, e = push_event x b u) evs;
  re_open : Forall open_event evs;
}.

Lemma reaches_nil x now b : reaches x now b [] [].
Proof. split; [done | | | constructor | constructor]; intros; by case_match. Qed.
Lemma reaches_app x now b l l' evs evs' :
  reaches x now b l evs → reaches x now b l' evs' → reaches x now b (l ++ l') (evs ++ evs').
Proof.
  intros [H1 H2 H3 H4 H5] [H1' H2' H3' H4' H5']. split; intros.
  - by rewrite shards_app, H1, H1'.
  - rewrite copies_app, H2, H2', occurs_app. by case_match.
  - rewrite pushes_app, H3, H3', occurs_app. by case_match.
  - by apply Forall_app_2.
  - by apply Forall_app_2.
Qed.

Lemma still_silenced x x' now c u : still x x' → silenced x' now c u = silenced x now c u.
Proof. intros Hx. unfold silenced. destruct (mutes policies) as [f|] eqn:E; [|done]. by rewrite (still_flags x x' f). Qed.
Lemma still_news x x' now b u : still x x' → news x' now b u = news x now b u.
Proof. intros Hx. unfold news. by rewrite (still_nodes x x'), (still_silenced x x') by done. Qed.
Lemma still_wants x x' u : still x x' → wants x' u = wants x u.
Proof. intros Hx. unfold wants. destruct (previews policies) as [f|] eqn:E; [|done]. by rewrite (still_previews x x' f). Qed.

Lemma notify_emits now b uid (s : St) :
  nodes (ext s) uid = [] →
  ∃ s', notify_offline policies now b uid s = (s', Ok tt) ∧
    emits (push_events (ext s) now b uid) s s'.
Proof.
  intros Hn. unfold notify_offline, push_events, news. rewrite (bool_decide_true (nodes (ext s) uid = [])) by done. cbn [andb].
  destruct (NM_Edited b || NM_Deleted b); [exists s; split; [done | by apply emits_refl]|].
  destruct (bool_decide (uid = NM_SenderID b)); [exists s; split; [done | by apply emits_refl]|]. cbn [negb andb].
  assert (muted policies (now uid) (NM_ChatID b) uid s = (s, Ok (silenced (ext s) (now uid) (NM_ChatID b) uid))) as Hm.
  { unfold muted, silenced. by destruct (mutes policies). }
  rewrite (bind_Ok _ _ s s _ Hm). destruct (silenced _ _ _ _); cbn [negb].
  { exists s. split; [done | by apply emits_refl]. }
  destruct (publish_one (push_event (ext s) b uid) s) as (s' & Hp & He & _). exists s'. split; [|done].
  unfold enqueuePush. rewrite (bind_Ok _ _ s s (wants (ext s) uid)) by done. unfold publishPush.
  fold (push_event (ext s) b uid). rewrite (bind_Ok _ _ s s' (Ok tt)); [done|]. unfold attempt. by rewrite Hp.
Qed.

Lemma pushes_news x now b u l :
  pushes u (concat (push_events x now b <$> l)) =
  if news x now b u then occurs u l else 0.
Proof.
  induction l as [|v l IH]; [by case_match|]. cbn [fmap list_fmap concat]. rewrite pushes_app, IH, occurs_cons. unfold push_events.
  assert (pushes u [push_event x b v] = if bool_decide (v = u) then 1 else 0) as Hone.
  { unfold pushes. cbn [fmap list_fmap]. rewrite zsum_cons. unfold push_to, push_event. cbn [Event_Data Event_Subject Push_UserID].
    rewrite (bool_decide_true (SubjNotifyPush = SubjNotifyPush)) by done. cbn [andb]. by case_bool_decide. }
  destruct (decide (v = u)) as [->|Hne].
  - rewrite (bool_decide_true (u = u)) by done. destruct (news x now b u); rewrite ?Hone, ?bool_decide_true by done; done.
  - rewrite (bool_decide_false (v = u)) by done.
    destruct (news x now b v); rewrite ?Hone, ?bool_decide_false by done; cbn; by destruct (news x now b u).
Qed.

Lemma no_frames x now b l ty body n u :
  copies ty body n u (concat (push_events x now b <$> l)) = 0 ∧
  shards (concat (push_events x now b <$> l)) = [].
Proof.
  induction l as [|v l [IH1 IH2]]; [done|]. cbn [fmap list_fmap concat]. rewrite copies_app, shards_app, IH1, IH2. unfold push_events.
  by destruct (news x now b v).
Qed.
Lemma frames_only ty body (m : list (string * list string)) u :
  pushes u ((λ e, node_event e.2 "" ty body e.1) <$> m) = 0 ∧ shards ((λ e, node_event e.2 "" ty body e.1) <$> m) = [].
Proof.
  induction m as [|e m [IH1 IH2]]; [done|]. cbn [fmap list_fmap]. split; [|exact IH2].
  unfold pushes in *. cbn [fmap list_fmap]. by rewrite zsum_cons, IH1.
Qed.

Lemma still_reaches x x' now b l evs : still x x' → reaches x' now b l evs → reaches x now b l evs.
Proof.
  intros Hx [H1 H2 H3 H4 H5]. split; intros; [done | by rewrite H2, (still_nodes x x') | by rewrite H3, (still_news x x') | | done].
  eapply Forall_impl; [exact H4|]. intros e He job Hj. destruct (He job Hj) as [u ->]. exists u. unfold push_event.
  by rewrite (still_wants x x').
Qed.

Lemma ids_ok_filter (P : string → Prop) `{∀ v, Decision (P v)} l : ids_ok l → ids_ok (filter P l).
Proof. unfold ids_ok. rewrite !Forall_forall. intros Hl v [_ Hv]%list_elem_of_filter. by apply Hl. Qed.

(** Each of [l] was named a frame on each of their nodes; nothing else was published. *)
Record frames (x : X) (ty : Z) (body : bytes) (l : list string) (evs : list (Event FanoutData)) : Prop := {
  fr_shards : shards evs = [];
  fr_pushes u : pushes u evs = 0;
  fr_copies n u : copies ty body n u evs = if bool_decide (n ∈ nodes x u) then occurs u l else 0;
  fr_jobs : Forall (λ e, ∀ job, Event_Data e ≠ FPush job) evs;
  fr_open : Forall open_event evs;
}.
Lemma frames_nil x ty body : frames x ty body [] [].
Proof. split; [done | done | | constructor | constructor]. intros. by case_match. Qed.
Lemma frames_app x ty body l l' evs evs' :
  frames x ty body l evs → frames x ty body l' evs' → frames x ty body (l ++ l') (evs ++ evs').
Proof.
  intros [H1 H2 H3 H4 H5] [H1' H2' H3' H4' H5']. split; intros; [by rewrite shards_app, H1, H1' | by rewrite pushes_app, H2, H2' | | |].
  - rewrite copies_app, H3, H3', occurs_app. by case_match.
  - by apply Forall_app_2.
  - by apply Forall_app_2.
Qed.
Lemma still_frames x x' ty body l evs : still x x' → frames x' ty body l evs → frames x ty body l evs.
Proof. intros Hx [H1 H2 H3 H4 H5]. split; intros; [done | done | by rewrite H3, (still_nodes x x') | done | done]. Qed.

Lemma routeMany_frames us ty body (s : St) :
  frame_ok ty body → ids_ok us → len us ≤ routeBatchSize →
  ∃ s' evs, routeMany us ty body s = (s', Ok (filter (λ u, nodes (ext s) u = []) us)) ∧ emits evs s s' ∧ frames (ext s) ty body us evs.
Proof.
  intros Hf Hids Hlen. destruct (routeMany_emits us ty body s) as (s1 & m & H1 & He1 & Hm).
  assert (∀ n' l, m !! n' = Some l → ids_ok l ∧ len l < 2 ^ 16) as Hsize.
  { intros n' l Hl. assert (l = filter (λ u, n' ∈ nodes (ext s) u) us) as -> by (by rewrite <- Hm, Hl).
    split; [by apply ids_ok_filter|]. unfold len, routeBatchSize in *. pose proof (length_filter (λ u, n' ∈ nodes (ext s) u) us). lia. }
  eexists s1, _. split; [done|]. split; [done|]. split.
  - by destruct (frames_only ty body (range_map m) "").
  - intros u. by destruct (frames_only ty body (range_map m) u).
  - intros n u. by rewrite copies_per_node, Hm, occurs_filter.
  - apply Forall_fmap, Forall_forall. by intros e _ job.
  - apply Forall_fmap, Forall_forall. intros [n' l] Hin%elem_of_range_map. destruct (Hsize n' l Hin). by apply node_event_open.
Qed.

(** One page of recipients. *)
Lemma page_reaches now b p (s : St) :
  frame_ok MsgNew (Marshal (PNew b)) → ids_ok p → len p ≤ routeBatchSize →
  ∃ s' evs, (offline ← routeMany p MsgNew (Marshal (PNew b)); for_each (notify_offline policies now b) offline) s = (s', Ok tt) ∧
    emits evs s s' ∧ reaches (ext s) now b p evs.
Proof.
  intros Hf Hids Hlen. destruct (routeMany_frames p MsgNew (Marshal (PNew b)) s Hf Hids Hlen) as (s1 & evs1 & H1 & He1 & [Hsh Hpu Hcp Hjob Hop]).
  set (off := filter (λ u, nodes (ext s) u = []) p) in *.
  destruct (for_each_emits (notify_offline policies now b) (push_events (ext s) now b) off s s1) as (s2 & H2 & He2); [|apply He1|].
  { intros uid s2 Hin Hst. apply list_elem_of_filter in Hin as [Hn _].
    destruct (notify_emits now b uid s2) as (s3 & H3 & He3); [by rewrite (still_nodes (ext s))|]. exists s3. split; [done|].
    unfold push_events, push_event. rewrite <- (still_news (ext s) (ext s2)), <- (still_wants (ext s) (ext s2)) by done. done. }
  eexists s2, _. rewrite (bind_Ok _ _ s s1 _ H1). split; [done|]. split; [by eapply emits_app|]. split.
  - rewrite shards_app, Hsh. by destruct (no_frames (ext s) now b off MsgNew [] "" "") as [_ ->].
  - intros n u. rewrite copies_app, Hcp. destruct (no_frames (ext s) now b off MsgNew (Marshal (PNew b)) n u) as [-> _]. lia.
  - intros u. rewrite pushes_app, Hpu, pushes_news. unfold off. rewrite occurs_filter. unfold news.
    by destruct (bool_decide (nodes (ext s) u = [])).
  - apply Forall_app_2; [eapply Forall_impl; [exact Hjob|]; intros e He job Hj; by destruct (He job)|].
    rewrite Forall_concat, Forall_fmap. apply Forall_forall. intros u _. unfold compose, push_events.
    destruct (news (ext s) now b u); repeat constructor. intros job _. by exists u.
  - apply Forall_app_2; [done|]. rewrite Forall_concat, Forall_fmap. apply Forall_forall. intros u _. unfold compose, push_events.
    destruct (news (ext s) now b u); by repeat constructor.
Qed.

Lemma pages_reach now b ps (s : St) :
  frame_ok MsgNew (Marshal (PNew b)) → ids_ok (concat ps) → Forall (λ p, len p ≤ routeBatchSize) ps →
  ∃ s' evs, for_each (λ page, offline ← routeMany page MsgNew (Marshal (PNew b));
      for_each (notify_offline policies now b) offline) ps s = (s', Ok tt) ∧
    emits evs s s' ∧ reaches (ext s) now b (concat ps) evs.
Proof.
  intros Hf. revert s. induction ps as [|p ps IH]; intros s Hids Hps.
  { exists s, []. split; [done|]. split; [by apply emits_refl | apply reaches_nil]. }
  cbn [concat] in *. apply Forall_app in Hids as [Hp Hids]. apply Forall_cons in Hps as [Hlen Hps].
  destruct (page_reaches now b p s Hf Hp Hlen) as (s1 & evs1 & H1 & He1 & Hr1).
  destruct (IH s1 Hids Hps) as (s2 & evs2 & H2 & He2 & Hr2). exists s2, (evs1 ++ evs2). cbn [for_each].
  rewrite (bind_Ok _ _ s s1 tt H1). split; [done|]. split; [by eapply emits_app|]. apply reaches_app; [done|].
  eapply still_reaches; [apply He1 | done].
Qed.

Lemma deliverNew_reaches now b l (s : St) :
  frame_ok MsgNew (Marshal (PNew b)) → ids_ok l →
  ∃ s' evs, deliverNew policies Marshal now l b s = (s', Ok tt) ∧ emits evs s s' ∧ reaches (ext s) now b l evs.
Proof.
  intros Hf Hids. pose proof (concat_pages (length l) routeBatchSize l ltac:(done) ltac:(done)) as Hc.
  destruct (pages_reach now b (pages (length l) routeBatchSize l) s Hf) as (s' & evs & H1 & H2 & H3); [by rewrite Hc | by apply pages_size|].
  rewrite Hc in H3. by exists s', evs.
Qed.

(** *** The audience *)

Definition is_hot (x : X) (c : string) : bool := fanoutShardThreshold <? len (rest x c "").
(** A cached entry that may still be used at [now] tells the truth. *)
Definition fresh (now : Z) (c : string) (s : St) : Prop := ∀ e,
  cache (svc s) !! c = Some e → now < expires e →
  hot e = is_hot (ext s) c ∧ ids e = if is_hot (ext s) c then [] else rest (ext s) c "".

Lemma members_run t c (s : St) :
  fresh (at_check t) c s →
  ∃ s', members t c s = (s', Ok (if is_hot (ext s) c then [] else rest (ext s) c "", is_hot (ext s) c)) ∧
    emits [] s s' ∧ (∀ now, fresh now c s → fresh now c s').
Proof.
  intros Hfr. unfold members. rewrite (bind_Ok _ _ s s s) by done.
  assert (∃ s', (first ← on_ext (MemberIDsPage c "" (fanoutShardThreshold + 1));
    let entry := if fanoutShardThreshold <? len first then mkEntry [] true (at_stamp t + memberCacheTTL)
                 else mkEntry first false (at_stamp t + memberCacheTTL) in
    on_svc (sweepLocked (at_sweep t));; on_svc (λ s, set_cache (<[c := entry]> (cache s)) s);; mret (ids entry, hot entry)) s =
    (s', Ok (if is_hot (ext s) c then [] else rest (ext s) c "", is_hot (ext s) c)) ∧ emits [] s s' ∧
    (∀ now, fresh now c s → fresh now c s')) as Hload.
  { destruct (MemberIDsPage_reads (policies := policies) c "" (fanoutShardThreshold + 1) (ext s)) as (x' & Hp & Hst & Hs); [done|].
    destruct (on_ext_reads _ _ s x' Hp Hst Hs) as (s1 & H1 & He1 & _). rewrite (bind_Ok _ _ s s1 _ H1). cbv zeta.
    set (r := rest (ext s) c "") in *.
    assert ((fanoutShardThreshold <? len (ztake (fanoutShardThreshold + 1) r)) = is_hot (ext s) c) as ->.
    { unfold is_hot. fold r. apply eq_bool_prop_intro. rewrite !Is_true_true, !Z.ltb_lt. unfold ztake, len, fanoutShardThreshold.
      rewrite length_take. lia. }
    assert (is_hot (ext s) c = false → ztake (fanoutShardThreshold + 1) r = r) as Hall.
    { unfold is_hot. fold r. intros Hh%Z.ltb_ge. unfold ztake. apply take_ge. unfold len, fanoutShardThreshold in *. lia. }
    set (entry := if is_hot (ext s) c then _ else _).
    assert (hot entry = is_hot (ext s) c ∧ ids entry = if is_hot (ext s) c then [] else r) as [Hh Hi].
    { unfold entry. destruct (is_hot (ext s) c) eqn:E; cbn; [done|]. by rewrite Hall. }
    eexists. split; [rewrite <- Hh at 2; rewrite <- Hi; reflexivity|].
    split; [destruct He1 as [Ha Hb]; split; [exact Ha | exact Hb]|].
    intros now _ e. cbn [svc cache ext set_cache]. rewrite lookup_insert_eq. intros [= <-] _. unfold is_hot in *.
    rewrite !(still_rest (ext s) (ext s1)) by apply He1. done. }
  destruct (cache (svc s) !! c) as [e|] eqn:Ec; [|exact Hload]. destruct (Z.ltb_spec (at_check t) (expires e)) as [Hlt|Hge]; [|exact Hload].
  destruct (Hfr e Ec Hlt) as [-> ->]. exists s. split; [done|]. split; [by apply emits_refl | done].
Qed.

Definition shard_event (headers : Headers) (b : NewMessageBody) (page : list string) : Event FanoutData :=
  mkEvent subjFanoutShard (NM_ChatID b) (FShard (mkShard b page)) headers.

(** A page of the keyset walk: the end of the walk, or what is left after it. *)
Lemma walk_page x c after fuel :
  len (rest x c after) < fanoutShardSize * Z.of_nat (S fuel) →
  let page := ztake fanoutShardSize (rest x c after) in
  match last page with
  | None => rest x c after = []
  | Some after' =>
      if len page <? fanoutShardSize then rest x c after = page
      else rest x c after = page ++ rest x c after' ∧ len (rest x c after') < fanoutShardSize * Z.of_nat fuel
  end.
Proof.
  intros Hf page. destruct (last page) as [after'|] eqn:Hl.
  - pose proof (rest_next x c after fanoutShardSize after' ltac:(done) Hl) as Hn. fold page in Hn.
    destruct (Z.ltb_spec (len page) fanoutShardSize) as [Hlt|Hge].
    + unfold page in *. clear Hn. unfold ztake, len, fanoutShardSize in *. rewrite length_take in Hlt. rewrite take_ge by lia. done.
    + split; [done|]. rewrite Hn, len_app in Hf. lia.
  - apply last_None in Hl. unfold page, ztake, fanoutShardSize in Hl. by destruct (rest x c after).
Qed.

Lemma shard_walk_emits fuel headers b after (s : St) :
  len (rest (ext s) (NM_ChatID b) after) < fanoutShardSize * Z.of_nat fuel →
  ∃ s' pgs, shard_walk fuel headers b after s = (s', Ok (Some tt)) ∧ emits (shard_event headers b <$> pgs) s s' ∧
    concat pgs = rest (ext s) (NM_ChatID b) after.
Proof.
  revert after s. induction fuel as [|fuel IH]; intros after s Hf; [pose proof (len_nonneg (rest (ext s) (NM_ChatID b) after)); lia|].
  cbn [shard_walk]. set (c := NM_ChatID b) in *.
  destruct (MemberIDsPage_reads (policies := policies) c after fanoutShardSize (ext s)) as (x' & Hp & Hst & Hs); [done|].
  destruct (on_ext_reads _ _ s x' Hp Hst Hs) as (s1 & H1 & He1 & _). rewrite (bind_Ok _ _ s s1 _ H1).
  pose proof (walk_page (ext s) c after fuel Hf) as Hw. cbv zeta in Hw. set (page := ztake fanoutShardSize _) in *.
  destruct (last page) as [after'|].
  2: { exists s1, []. rewrite Hw. split; [done|]. by split. }
  destruct (publish_one (shard_event headers b page) s1) as (s2 & H2 & He2 & _). rewrite (bind_Ok _ _ s1 s2 tt H2).
  pose proof (emits_app _ _ _ _ _ He1 He2) as He. cbn [app] in He. destruct (len page <? fanoutShardSize).
  { exists s2, [page]. split; [done|]. split; [done|]. cbn. by rewrite app_nil_r, Hw. }
  destruct Hw as [Hw Hf']. destruct (IH after' s2) as (s3 & pgs & H3 & He3 & Hc).
  { by rewrite (still_rest (ext s)) by apply He. }
  exists s3, (page :: pgs). split; [done|]. split.
  - apply (emits_app [shard_event headers b page] _ s s2 s3 He He3).
  - cbn [concat]. by rewrite Hc, (still_rest (ext s) (ext s2)) by apply He.
Qed.

Lemma shards_events headers b pgs :
  shards (shard_event headers b <$> pgs) = mkShard b <$> pgs ∧ Forall open_event (shard_event headers b <$> pgs) ∧
  (∀ ty body n u, copies ty body n u (shard_event headers b <$> pgs) = 0) ∧ (∀ u, pushes u (shard_event headers b <$> pgs) = 0).
Proof.
  induction pgs as [|p pgs (IH1 & IH0 & IH2 & IH3)]; [by split_and!; try constructor|]. cbn [fmap list_fmap]. split_and!.
  - cbn. by f_equal.
  - by constructor.
  - intros ty body n u. unfold copies in *. cbn [fmap list_fmap]. by rewrite zsum_cons, IH2.
  - intros u. unfold pushes in *. cbn [fmap list_fmap]. by rewrite zsum_cons, IH3.
Qed.

Lemma shards_reach now b pgs (s : St) :
  frame_ok MsgNew (Marshal (PNew b)) → ids_ok (concat pgs) →
  ∃ s' evs, for_each (onShard policies Marshal now) (mkShard b <$> pgs) s = (s', Ok tt) ∧ emits evs s s' ∧
    reaches (ext s) now b (concat pgs) evs.
Proof.
  intros Hf. revert s. induction pgs as [|p pgs IH]; intros s Hids.
  { exists s, []. split; [done|]. split; [by apply emits_refl | apply reaches_nil]. }
  cbn [concat] in *. apply Forall_app in Hids as [Hp Hids].
  destruct (deliverNew_reaches now b p s Hf Hp) as (s1 & evs1 & H1 & He1 & Hr1).
  destruct (IH s1 Hids) as (s2 & evs2 & H2 & He2 & Hr2). exists s2, (evs1 ++ evs2). cbn [fmap list_fmap for_each].
  rewrite (bind_Ok _ _ s s1 tt H1). split; [done|]. split; [by eapply emits_app|]. apply reaches_app; [done|].
  eapply still_reaches; [apply He1 | done].
Qed.

#[local] Instance occurs_Permutation u : Proper ((≡ₚ) ==> (=)) (occurs u).
Proof. intros l k Hp. unfold occurs, len. by rewrite Hp. Qed.

Lemma reaches_audience x now b l l' evs :
  l ≡ₚ l' → NoDup l' → reaches x now b l evs →
  ∀ u, (∀ n, copies MsgNew (Marshal (PNew b)) n u evs = if bool_decide (u ∈ l') && bool_decide (n ∈ nodes x u) then 1 else 0) ∧
    pushes u evs = if bool_decide (u ∈ l') && news x now b u then 1 else 0.
Proof.
  intros Hp Hnd [_ Hc Hpu _ _] u. split; intros; rewrite ?Hc, ?Hpu, Hp, occurs_NoDup by done.
  - by case_bool_decide; case_bool_decide.
  - case_bool_decide; by destruct (news x now b u).
Qed.

(** *** Chat-wide events *)

Lemma flush_frames ty body batch (s : St) :
  frame_ok ty body → ids_ok batch → len batch ≤ routeBatchSize →
  ∃ s' evs, flush ty body batch s = (s', Ok tt) ∧ emits evs s s' ∧ frames (ext s) ty body batch evs.
Proof.
  intros Hf Hids Hlen. unfold flush. destruct batch as [|u batch].
  { exists s, []. split; [done|]. split; [by apply emits_refl | apply frames_nil]. }
  rewrite len_cons, (proj2 (Z.eqb_neq _ _)) by (pose proof (len_nonneg batch); lia).
  destruct (routeMany_frames (u :: batch) ty body s Hf Hids Hlen) as (s' & evs & H1 & He & Hfr). exists s', evs.
  by rewrite (bind_Ok _ _ s s' _ H1).
Qed.

(** What was collected: sent already, or still in the batch. *)
Definition collected (x : X) (ty : Z) (body : bytes) (l : list string) (evs : list (Event FanoutData)) (batch : list string) : Prop :=
  ids_ok batch ∧ len batch < routeBatchSize ∧ ∃ d, frames x ty body d evs ∧ l = d ++ batch.

Lemma collect_all ty body skip l batch (s : St) :
  frame_ok ty body → ids_ok l → ids_ok batch → len batch < routeBatchSize →
  ∃ s' evs batch', fold_members (collect ty body skip) l batch s = (s', Ok batch') ∧ emits evs s s' ∧
    collected (ext s) ty body (batch ++ filter (.≠ skip) l) evs batch'.
Proof.
  intros Hf. revert batch s. induction l as [|u l IH]; intros batch s Hl Hb Hlen.
  { exists s, [], batch. split; [done|]. split; [by apply emits_refl|]. split; [done|]. split; [done|].
    exists []. split; [apply frames_nil | by rewrite app_nil_r]. }
  apply Forall_cons in Hl as [Hu Hl]. cbn [fold_members]. rewrite filter_cons. destruct (decide (u = skip)) as [Hskip|Hskip].
  { rewrite (bind_Ok _ _ s s batch) by (unfold collect; by rewrite bool_decide_true). rewrite decide_False by (intros Hn; by apply Hn).
    by apply IH. }
  rewrite decide_True by done.
  assert (collect ty body skip u batch = if len (batch ++ [u]) =? routeBatchSize then flush ty body (batch ++ [u]);; mret [] else mret (batch ++ [u]))
    as -> by (unfold collect; by rewrite bool_decide_false).
  assert (ids_ok (batch ++ [u])) as Hb' by (apply Forall_app_2; [done | by repeat constructor]).
  destruct (Z.eqb_spec (len (batch ++ [u])) routeBatchSize) as [Heq|Hneq].
  - destruct (flush_frames ty body (batch ++ [u]) s Hf Hb') as (s1 & evs1 & H1 & He1 & Hfr1); [lia|].
    rewrite (bind_Ok _ _ s s1 []) by (by rewrite (bind_Ok _ _ s s1 tt H1)).
    destruct (IH [] s1 Hl) as (s2 & evs2 & b2 & H2 & He2 & Hb2 & Hl2 & d & Hd & Heqd); [by constructor | done|].
    exists s2, (evs1 ++ evs2), b2. split; [done|]. split; [by eapply emits_app|]. split; [done|]. split; [done|].
    exists ((batch ++ [u]) ++ d). split; [apply frames_app; [done | eapply still_frames; [apply He1 | done]]|].
    cbn [app] in Heqd. by rewrite <- app_assoc, <- Heqd, <- app_assoc.
  - rewrite (bind_Ok _ _ s s (batch ++ [u])) by done.
    destruct (IH (batch ++ [u]) s Hl Hb') as (s2 & evs2 & b2 & H2 & He2 & Hc).
    { rewrite len_app, len_cons, len_nil in *. lia. }
    exists s2, evs2, b2. split; [done|]. split; [done|]. by rewrite <- app_assoc in Hc.
Qed.

Lemma walk_all fuel c ty body skip after batch (s : St) :
  len (rest (ext s) c after) < fanoutShardSize * Z.of_nat fuel →
  frame_ok ty body → ids_ok (rest (ext s) c after) → ids_ok batch → len batch < routeBatchSize →
  ∃ s' evs batch', member_walk fuel c (collect ty body skip) after batch s = (s', Ok (Some batch')) ∧ emits evs s s' ∧
    collected (ext s) ty body (batch ++ filter (.≠ skip) (rest (ext s) c after)) evs batch'.
Proof.
  intros Hfu Hf. revert after batch s Hfu.
  induction fuel as [|fuel IH]; intros after batch s Hfu Hids Hb Hlen; [pose proof (len_nonneg (rest (ext s) c after)); lia|].
  cbn [member_walk].
  destruct (MemberIDsPage_reads (policies := policies) c after fanoutShardSize (ext s)) as (x' & Hp & Hst & Hs); [done|].
  destruct (on_ext_reads _ _ s x' Hp Hst Hs) as (s1 & H1 & He1 & _). rewrite (bind_Ok _ _ s s1 _ H1).
  pose proof (walk_page (ext s) c after fuel Hfu) as Hw. cbv zeta in Hw. set (page := ztake fanoutShardSize _) in *.
  assert (ids_ok page) as Hpage.
  { unfold ids_ok in *. rewrite Forall_forall in *. intros v Hv. apply Hids. by eapply elem_of_ztake. }
  destruct (last page) as [after'|].
  2: { exists s1, [], batch. rewrite Hw. split; [done|]. split; [done|]. split; [done|]. split; [done|].
       exists []. split; [apply frames_nil | by rewrite app_nil_r]. }
  destruct (collect_all ty body skip page batch s1 Hf Hpage Hb Hlen) as (s2 & evs2 & b2 & H2 & He2 & Hb2 & Hl2 & d & Hd & Heq).
  pose proof (emits_app _ _ _ _ _ He1 He2) as He. cbn [app] in He. apply (still_frames (ext s)) in Hd; [|apply He1].
  rewrite (bind_Ok _ _ s1 s2 _ H2). destruct (len page <? fanoutShardSize).
  { exists s2, evs2, b2. split; [done|]. split; [done|]. split; [done|]. split; [done|]. exists d. by rewrite Hw. }
  destruct Hw as [Hw Hfu']. rewrite Hw in Hids. apply Forall_app in Hids as [_ Hids].
  destruct (IH after' b2 s2) as (s3 & evs3 & b3 & H3 & He3 & Hb3 & Hl3 & d3 & Hd3 & Heq3); try done;
    [by rewrite (still_rest (ext s)) by apply He..|].
  rewrite (still_rest (ext s)) in Heq3 by apply He. apply (still_frames (ext s)) in Hd3; [|apply He].
  exists s3, (evs2 ++ evs3), b3. split; [done|]. split; [exact (emits_app _ _ _ _ _ He He3)|]. split; [done|]. split; [done|].
  exists (d ++ d3). split; [by apply frames_app|]. by rewrite Hw, filter_app, app_assoc, Heq, <- app_assoc, Heq3, app_assoc.
Qed.

Lemma broadcast_frames fuel t c ty body skip (s : St) :
  fresh (at_check t) c s → len (rest (ext s) c "") < fanoutShardSize * Z.of_nat fuel →
  frame_ok ty body → ids_ok (rest (ext s) c "") →
  ∃ s' evs, broadcast fuel t c ty body skip s = (s', Ok (Some tt)) ∧ emits evs s s' ∧
    frames (ext s) ty body (filter (.≠ skip) (rest (ext s) c "")) evs.
Proof.
  intros Hfr Hfu Hf Hids. destruct (members_run t c s Hfr) as (s0 & H0 & He0 & _). pose proof (proj1 He0) as Hst0.
  assert (∃ s1 evs batch, eachMember fuel t c (collect ty body skip) [] s = (s1, Ok (Some batch)) ∧ emits evs s s1 ∧
    collected (ext s) ty body (filter (.≠ skip) (rest (ext s) c "")) evs batch) as (s1 & evs & b1 & H1 & He1 & Hb1 & Hl1 & d & Hd & Heq).
  { unfold eachMember. rewrite (bind_Ok _ _ s s0 _ H0). destruct (is_hot (ext s) c); cbn [negb].
    - destruct (walk_all fuel c ty body skip "" [] s0) as (s1 & evs & b1 & H1 & He1 & Hc); try done;
        [by rewrite (still_rest (ext s)) by done.. | by constructor|].
      exists s1, evs, b1. split; [done|]. split; [exact (emits_app _ _ _ _ _ He0 He1)|].
      rewrite (still_rest (ext s)) in Hc by done. destruct Hc as (Ha & Hb & d & Hd & Heq). split; [done|]. split; [done|].
      exists d. split; [by eapply still_frames | done].
    - destruct (collect_all ty body skip (rest (ext s) c "") [] s0 Hf Hids) as (s1 & evs & b1 & H1 & He1 & Ha & Hb & d & Hd & Heq);
        [by constructor | done|].
      exists s1, evs, b1. rewrite (bind_Ok _ _ s0 s1 _ H1). split; [done|]. split; [exact (emits_app _ _ _ _ _ He0 He1)|].
      split; [done|]. split; [done|]. exists d. split; [by eapply still_frames | done]. }
  unfold broadcast. rewrite (bind_Ok _ _ s s1 _ H1).
  destruct (flush_frames ty body b1 s1 Hf Hb1) as (s2 & evs2 & H2 & He2 & Hfr2); [lia|].
  exists s2, (evs ++ evs2). rewrite (bind_Ok _ _ s1 s2 tt H2). split; [done|]. split; [by eapply emits_app|].
  rewrite Heq. apply frames_app; [done|]. eapply still_frames; [apply He1 | done].
Qed.

(** What the kind lookup says, and that a remembered kind is the current one. *)
Definition channel (x : X) (c : string) : bool :=
  match kinds policies with Some f => bool_decide (f x c = Ok ChatChannel) | None => false end.
Definition kind_true (c : string) (s : St) : Prop := ∀ f typ,
  kinds policies = Some f → kindCache (svc s) !! c = Some typ → f (ext s) c = Ok typ.

Lemma chatKind_run c (s : St) :
  kind_true c s →
  ∃ s' k, chatKind policies c s = (s', Ok k) ∧ ext s' = ext s ∧ cache (svc s') = cache (svc s) ∧
    bool_decide (k = Some ChatChannel) = channel (ext s) c.
Proof.
  intros Hk. unfold chatKind, channel. destruct (kinds policies) as [f|] eqn:Ef; [|by exists s, None].
  rewrite (bind_Ok _ _ s s s) by done. destruct (kindCache (svc s) !! c) as [typ|] eqn:Ec.
  { exists s, (Some typ). split; [done|]. split; [done|]. split; [done|]. rewrite (Hk f typ Ef Ec). apply bool_decide_ext. split; congruence. }
  destruct (f (ext s) c) as [typ|e]; [|by exists s, None].
  case_bool_decide as Ht; [subst; by exists s, None|]. eexists _, (Some typ). split; [reflexivity|]. cbn. split; [done|]. split; [done|].
  apply bool_decide_ext. split; congruence.
Qed.

Lemma private_run t c (s : St) :
  kind_true c s → fresh (at_check t) c s →
  ∃ s', receiptsArePrivate policies t c s = (s', Ok (channel (ext s) c || is_hot (ext s) c)) ∧ emits [] s s' ∧
    (∀ now, fresh now c s → fresh now c s').
Proof.
  intros Hk Hfr. destruct (chatKind_run c s Hk) as (s1 & k & H1 & Hx & Hca & Hch). unfold receiptsArePrivate.
  rewrite (bind_Ok _ _ s s1 k H1), Hch.
  assert (∀ now, fresh now c s → fresh now c s1) as Hmv.
  { intros now Hn e. rewrite Hca, Hx. apply Hn. }
  destruct (channel (ext s) c); [exists s1; split; [done|]; split; [by apply emits_refl | done]|].
  destruct (members_run t c s1 (Hmv _ Hfr)) as (s2 & H2 & He2 & Hmv2). exists s2.
  rewrite (bind_Ok _ _ s1 s2 (Ok (if is_hot (ext s1) c then [] else rest (ext s1) c "", is_hot (ext s1) c)))
    by (unfold attempt; by rewrite H2).
  rewrite Hx. cbn [orb]. split; [done|]. split; [|by intros now Hn; apply Hmv2, Hmv].
  apply (emits_app [] [] s s1 s2); [by apply emits_refl | done].
Qed.

Lemma frames_audience x ty body skip l evs :
  NoDup l → frames x ty body (filter (.≠ skip) l) evs → ∀ n u,
  copies ty body n u evs = if bool_decide (u ∈ l) && negb (bool_decide (u = skip)) && bool_decide (n ∈ nodes x u) then 1 else 0.
Proof.
  intros Hnd [_ _ Hc _ _] n u. rewrite Hc, occurs_filter, occurs_NoDup by done.
  destruct (decide (u = skip)) as [Hs|Hs].
  - rewrite (bool_decide_false (u ≠ skip)), (bool_decide_true (u = skip)) by tauto. rewrite andb_false_r. by case_match.
  - rewrite (bool_decide_true (u ≠ skip)), (bool_decide_false (u = skip)) by done. by case_bool_decide; case_bool_decide.
Qed.

(** *** One recipient *)

Lemma route_frames u ty body (s : St) :
  frame_ok ty body → ids_ok [u] →
  ∃ s' evs, route u "" ty body s = (s', Ok (len (nodes (ext s) u))) ∧ emits evs s s' ∧ frames (ext s) ty body [u] evs.
Proof.
  intros Hf Hu. unfold route. destruct (NodesFor_reads (policies := policies) u (ext s)) as (x' & Hn & Hst & Hs).
  destruct (on_ext_reads _ _ s x' Hn Hst Hs) as (s1 & H1 & He1 & _).
  rewrite (bind_Ok _ _ s s1 (Ok (nodes (ext s) u))) by (unfold attempt; by rewrite H1).
  destruct (publish_emits (nodes (ext s) u) [u] "" ty body s1) as (s2 & H2 & He2). rewrite (bind_Ok _ _ s1 s2 tt H2).
  exists s2, (node_event [u] "" ty body <$> nodes (ext s) u). split; [done|]. split; [exact (emits_app _ _ _ _ _ He1 He2)|].
  pose proof (nodes_NoDup (ext s) u) as Hnd.
  assert (∀ n v ns, NoDup ns → copies ty body n v (node_event [u] "" ty body <$> ns) =
    if bool_decide (n ∈ ns) then occurs v [u] else 0) as Hc.
  { intros n v ns Hns. induction Hns as [|m ns Hm _ IH]; [done|]. unfold copies in *. cbn [fmap list_fmap].
    rewrite zsum_cons, IH, named_node_event by done. destruct (decide (m = n)) as [->|Hne].
    - rewrite bool_decide_true, (bool_decide_false (n ∈ ns)), (bool_decide_true (n ∈ n :: ns)) by (done || by left). lia.
    - rewrite bool_decide_false by done. rewrite (bool_decide_ext (n ∈ m :: ns) (n ∈ ns)); [done | by apply elem_of_cons_ne]. }
  split.
  - clear. induction (nodes (ext s) u); [done | by cbn].
  - intros v. clear. unfold pushes. induction (nodes (ext s) u) as [|n ns IH]; [done|].
    exact IH.
  - intros n v. rewrite Hc by done. destruct (decide (v = u)) as [->|Hne]; [done|].
    assert (occurs v [u] = 0) as -> by (rewrite occurs_cons, bool_decide_false by done; done). by repeat case_bool_decide.
  - apply Forall_fmap, Forall_forall. by intros e _ job.
  - apply Forall_fmap, Forall_forall. intros n _. by apply node_event_open.
Qed.

(** The people [u] has a direct chat with. *)
Definition direct_peer (x : X) (u v : string) : Prop :=
  v ≠ "" ∧ v ≠ u ∧ ∃ sum c, sum ∈ summaries x u ∧ Sum_Chat sum = Some c ∧ Chat_Type c = ChatDirect ∧ Sum_PeerID sum = v.
Definition may_see (x : X) (u v : string) : bool :=
  match audience policies with Some f => match f x u v with Ok ok => ok | Err _ => false end | None => true end.

Definition peers_ok (x : X) (u : string) (acc : string * gset string * list string) : Prop :=
  NoDup acc.2 ∧ (∀ v, v ∈ acc.1.2 ↔ v ∈ acc.2) ∧ Forall (direct_peer x u) acc.2.

Lemma collect_peers x u page acc :
  page ⊆ summaries x u → peers_ok x u acc → peers_ok x u (foldl (collect_peer u) acc page).
Proof.
  revert acc. induction page as [|sum page IH]; intros acc Hsub Hacc; [done|]. cbn [foldl].
  apply IH; [intros v Hv; apply Hsub; by right|]. destruct acc as [[after seen] out]. unfold collect_peer.
  destruct (Sum_Chat sum) as [c|] eqn:Ec; [|done]. destruct (negb _ || _ || _) eqn:E; [exact Hacc|]. destruct (bool_decide_reflect (Sum_PeerID sum ∈ seen)) as [Hseen|Hseen]; [exact Hacc|].
  apply orb_false_iff in E as [[E1 E2]%orb_false_iff E3]. apply negb_false_iff, bool_decide_eq_true in E1.
  apply bool_decide_eq_false in E2, E3. destruct Hacc as (Hnd & Hin & Hall). cbn [fst snd] in *. split_and!; cbn [fst snd].
  - rewrite <- Permutation_cons_append. constructor; [by rewrite <- Hin | done].
  - intros v. rewrite elem_of_union, elem_of_singleton, elem_of_app, list_elem_of_singleton, Hin. tauto.
  - apply Forall_app_2; [done|]. repeat constructor; [done | done|]. exists sum, c. split; [apply Hsub; by left | done].
Qed.

Lemma peer_walk_run rounds u acc (s : St) :
  peers_ok (ext s) u acc →
  ∃ s' peers, peer_walk rounds u acc s = (s', Ok peers) ∧ emits [] s s' ∧ NoDup peers ∧ Forall (direct_peer (ext s) u) peers.
Proof.
  revert acc s. induction rounds as [|rounds IH]; intros acc s Hacc.
  { exists s, acc.2. split; [done|]. split; [by apply emits_refl|]. split; apply Hacc. }
  cbn [peer_walk].
  destruct (UserChats_reads (policies := policies) u acc.1.1 presencePageSize (ext s)) as (x' & page & Hp & Hsub & Hst & Hs).
  destruct (on_ext_reads _ _ s x' Hp Hst Hs) as (s1 & H1 & He1 & _). rewrite (bind_Ok _ _ s s1 page H1).
  destruct (len page =? 0); [exists s1, acc.2; split; [done|]; split; [done|]; split; apply Hacc|].
  pose proof (collect_peers (ext s) u page acc Hsub Hacc) as Hacc'. cbv zeta. set (acc' := foldl _ acc page) in *.
  destruct (len page <? presencePageSize); [exists s1, acc'.2; split; [done|]; split; [done|]; split; apply Hacc'|].
  assert (∀ v, direct_peer (ext s1) u v ↔ direct_peer (ext s) u v) as Hdp.
  { intros v. unfold direct_peer. by rewrite (still_summaries (ext s) (ext s1)) by apply He1. }
  assert (Forall (direct_peer (ext s1) u) acc'.2) as Hall.
  { eapply Forall_impl; [apply Hacc'|]. intros v. apply Hdp. }
  destruct (IH acc' s1) as (s2 & peers & H2 & He2 & Hnd & Hpeers); [by split_and!; try apply Hacc'|].
  exists s2, peers. split; [done|]. split; [exact (emits_app _ _ _ _ _ He1 He2)|]. split; [done|].
  eapply Forall_impl; [done|]. intros v. apply Hdp.
Qed.

Lemma announce_frames u ty body peers (s0 s : St) :
  frame_ok ty body → ids_ok peers → still (ext s0) (ext s) →
  ∃ s' evs, for_each (λ uid, ok ← mayAnnounce policies u uid;
      if negb ok then mret tt else route uid "" ty body;; mret tt) peers s = (s', Ok tt) ∧ emits evs s s' ∧
    frames (ext s0) ty body (filter (λ v, may_see (ext s0) u v = true) peers) evs.
Proof.
  intros Hf. revert s. induction peers as [|v peers IH]; intros s Hids Hst.
  { exists s, []. split; [done|]. split; [by apply emits_refl | apply frames_nil]. }
  apply Forall_cons in Hids as [Hv Hids]. cbn [for_each]. rewrite filter_cons.
  assert (mayAnnounce policies u v s = (s, Ok (may_see (ext s0) u v))) as Hm.
  { unfold mayAnnounce, may_see. destruct (audience policies) as [f|] eqn:Ef; [|done].
    unfold gets. by rewrite (still_audience (ext s0) (ext s) f). }
  destruct (may_see (ext s0) u v) eqn:E; case_decide; try done.
  - destruct (route_frames v ty body s Hf) as (s1 & evs1 & H1 & He1 & Hfr1); [by repeat constructor|].
    destruct (IH s1 Hids) as (s2 & evs2 & H2 & He2 & Hfr2); [etrans; [done | apply He1]|]. exists s2, (evs1 ++ evs2).
    rewrite (bind_Ok _ _ s s1 tt); [split; [done|]; split; [by eapply emits_app|]|].
    + apply (frames_app _ _ _ [v]); [by eapply still_frames | done].
    + rewrite (bind_Ok _ _ s s _ Hm). cbn [negb]. by rewrite (bind_Ok _ _ s s1 _ H1).
  - destruct (IH s Hids Hst) as (s2 & evs2 & H2 & He2 & Hfr2). exists s2, evs2. rewrite (bind_Ok _ _ s s tt); [done|].
    by rewrite (bind_Ok _ _ s s _ Hm).
Qed.

Lemma message_fanned fuel t now headers b (s : St) :
  fresh (at_check t) (NM_ChatID b) s → len (rest (ext s) (NM_ChatID b) "") < fanoutShardSize * Z.of_nat fuel →
  frame_ok MsgNew (Marshal (PNew b)) → ids_ok (rest (ext s) (NM_ChatID b) "") →
  ∃ s1 evs1, onMessage policies Marshal fuel t now headers b s = (s1, Ok (Some tt)) ∧ emits evs1 s s1 ∧
    ∀ jobs, jobs ≡ₚ shards evs1 →
      ∃ s2 evs2, for_each (onShard policies Marshal now) jobs s1 = (s2, Ok tt) ∧ emits evs2 s1 s2 ∧ shards evs2 = [] ∧
        Forall open_event (evs1 ++ evs2) ∧
        ∀ u, let here := bool_decide (u ∈ rest (ext s) (NM_ChatID b) "") in
          (∀ n, copies MsgNew (Marshal (PNew b)) n u (evs1 ++ evs2) = if here && bool_decide (n ∈ nodes (ext s) u) then 1 else 0) ∧
          pushes u (evs1 ++ evs2) = if here && news (ext s) now b u then 1 else 0.
Proof.
  intros Hfr Hfuel Hf Hids. set (c := NM_ChatID b) in *. set (r := rest (ext s) c "") in *.
  destruct (members_run t c s Hfr) as (s0 & H0 & He0 & _). unfold onMessage. rewrite (bind_Ok _ _ s s0 _ H0).
  fold r. pose proof (rest_NoDup (ext s) c) as Hnd. fold r in Hnd. destruct (is_hot (ext s) c).
  - destruct (shard_walk_emits fuel headers b "" s0) as (s1 & pgs & H1 & He1 & Hc).
    { fold c. rewrite (still_rest (ext s)) by apply He0. done. }
    fold c in Hc. rewrite (still_rest (ext s)) in Hc by apply He0. fold r in Hc.
    destruct (shards_events headers b pgs) as (Hsh & Hop & Hcp & Hpu). pose proof (emits_app _ _ _ _ _ He0 He1) as He01.
    exists s1, (shard_event headers b <$> pgs). split; [done|]. split; [done|]. intros jobs Hjobs. rewrite Hsh in Hjobs.
    apply Permutation_map_inv in Hjobs as (pgs' & -> & Hperm).
    assert (concat pgs' ≡ₚ r) as Hr by (rewrite <- Hc; symmetry; by apply concat_Permutation).
    destruct (shards_reach now b pgs' s1 Hf) as (s2 & evs2 & H2 & He2 & Hr2); [by unfold ids_ok; rewrite Hr|].
    exists s2, evs2. split; [done|]. split; [done|]. split; [apply Hr2|].
    split; [apply Forall_app_2; [done | apply Hr2]|]. intros u.
    apply (still_reaches (ext s)) in Hr2; [|apply He01].
    destruct (reaches_audience (ext s) now b _ r evs2 Hr Hnd Hr2 u) as [Ha Hb].
    split; [intros n; by rewrite copies_app, Hcp, Ha | by rewrite pushes_app, Hpu, Hb].
  - destruct (deliverNew_reaches now b r s0 Hf Hids) as (s1 & evs1 & H1 & He1 & Hr1).
    exists s1, evs1. rewrite (bind_Ok _ _ s0 s1 tt H1). split; [done|]. split; [exact (emits_app _ _ _ _ _ He0 He1)|].
    intros jobs Hjobs. rewrite (re_shards _ _ _ _ _ Hr1) in Hjobs. apply Permutation_nil_r in Hjobs as ->.
    exists s1, []. split; [done|]. split; [by apply emits_refl|]. split; [done|]. rewrite app_nil_r. split; [apply Hr1|]. intros u.
    apply (still_reaches (ext s)) in Hr1; [|apply He0]. by apply (reaches_audience (ext s) now b r r).
Qed.

(** ** Theorems *)

(** A message reaches its audience, each member once.  Handled as an event, and, when the
    chat is too big to be served inline, as the shards it is cut into, worked on in any
    order: every member of the chat is named exactly once to each node they are connected
    to, with the message; every member on no node is notified exactly once unless they
    sent it, muted the chat, or it is an edit or a deletion; nobody else gets anything.
    [fuel] is enough when it exceeds the pages of 500 the membership has. *)
Theorem every_member_reached fuel t now headers b (s : St) :
  fresh (at_check t) (NM_ChatID b) s → len (rest (ext s) (NM_ChatID b) "") < fanoutShardSize * Z.of_nat fuel →
  frame_ok MsgNew (Marshal (PNew b)) → ids_ok (rest (ext s) (NM_ChatID b) "") →
  ∃ s1 evs1, onMessage policies Marshal fuel t now headers b s = (s1, Ok (Some tt)) ∧ emits evs1 s s1 ∧
    ∀ jobs, jobs ≡ₚ shards evs1 →
      ∃ s2 evs2, for_each (onShard policies Marshal now) jobs s1 = (s2, Ok tt) ∧ emits evs2 s1 s2 ∧ shards evs2 = [] ∧
        ∀ u, let here := bool_decide (u ∈ rest (ext s) (NM_ChatID b) "") in
          (∀ n, copies MsgNew (Marshal (PNew b)) n u (evs1 ++ evs2) = if here && bool_decide (n ∈ nodes (ext s) u) then 1 else 0) ∧
          pushes u (evs1 ++ evs2) = if here && news (ext s) now b u then 1 else 0.
Proof.
  intros Hfr Hfuel Hf Hids. destruct (message_fanned fuel t now headers b s Hfr Hfuel Hf Hids) as (s1 & evs1 & H1 & He1 & Hjobs).
  exists s1, evs1. split; [done|]. split; [done|]. intros jobs Hp.
  destruct (Hjobs jobs Hp) as (s2 & evs2 & H2 & He2 & Hsh & _ & Hall). by exists s2, evs2.
Qed.

(** Read receipts stay private where readership is.  In a channel, and in a chat too big
    to be served inline, a receipt is published to nobody; elsewhere it is named exactly
    once to each node of every other member, never to the reader, and notifies nobody. *)
Theorem receipts_private fuel t t' body (s : St) :
  kind_true (RU_ChatID body) s → fresh (at_check t) (RU_ChatID body) s → fresh (at_check t') (RU_ChatID body) s →
  len (rest (ext s) (RU_ChatID body) "") < fanoutShardSize * Z.of_nat fuel →
  frame_ok MsgReadUpd (Marshal (PRead body)) → ids_ok (rest (ext s) (RU_ChatID body) "") →
  ∃ s' evs, onRead policies Marshal fuel t t' body s = (s', Ok (Some tt)) ∧ emits evs s s' ∧
    (channel (ext s) (RU_ChatID body) || is_hot (ext s) (RU_ChatID body) = true → evs = []) ∧
    (channel (ext s) (RU_ChatID body) || is_hot (ext s) (RU_ChatID body) = false → ∀ u, pushes u evs = 0 ∧
      ∀ n, copies MsgReadUpd (Marshal (PRead body)) n u evs =
        if bool_decide (u ∈ rest (ext s) (RU_ChatID body) "") && negb (bool_decide (u = RU_UserID body))
           && bool_decide (n ∈ nodes (ext s) u) then 1 else 0).
Proof.
  intros Hk Hfr Hfr' Hfu Hf Hids. set (c := RU_ChatID body) in *.
  destruct (private_run t c s Hk Hfr) as (s1 & H1 & He1 & Hmv). unfold onRead. rewrite (bind_Ok _ _ s s1 _ H1).
  destruct (channel (ext s) c || is_hot (ext s) c).
  { exists s1, []. split; [done|]. split; [done|]. by split. }
  pose proof (proj1 He1) as Hst. pose proof (still_rest (ext s) (ext s1) c "" Hst) as Hrest.
  destruct (broadcast_frames fuel t' c MsgReadUpd (Marshal (PRead body)) (RU_UserID body) s1) as (s2 & evs & H2 & He2 & Hfrm);
    [by apply Hmv | by rewrite Hrest | done | by rewrite Hrest|].
  exists s2, evs. split; [done|]. split; [exact (emits_app _ _ _ _ _ He1 He2)|]. split; [done|]. intros _ u.
  rewrite Hrest in Hfrm. apply (still_frames (ext s)) in Hfrm; [|done].
  split; [apply (fr_pushes _ _ _ _ _ Hfrm)|]. intros n. apply frames_audience; [apply rest_NoDup | done].
Qed.

(** Presence goes to those entitled to it.  A transition of [u] is named at most once per
    node, and only to people [u] has a direct chat with and whom the audience policy lets
    see it; it notifies nobody. *)
Theorem presence_entitled body (s : St) :
  frame_ok MsgPresence (Marshal (PPresence body)) →
  (∀ sum, sum ∈ summaries (ext s) (Presence_UserID body) → len (sbytes (Sum_PeerID sum)) < 2 ^ 16) →
  ∃ s' evs, onPresence policies Marshal body s = (s', Ok tt) ∧ emits evs s s' ∧
    ∀ v, pushes v evs = 0 ∧
      ∀ n, 0 ≤ copies MsgPresence (Marshal (PPresence body)) n v evs ≤ 1 ∧
        (copies MsgPresence (Marshal (PPresence body)) n v evs = 1 →
         direct_peer (ext s) (Presence_UserID body) v ∧ may_see (ext s) (Presence_UserID body) v = true ∧ n ∈ nodes (ext s) v).
Proof.
  intros Hf Hshort. set (u := Presence_UserID body) in *. unfold onPresence. fold u. case_bool_decide.
  { exists s, []. split; [done|]. split; [by apply emits_refl|]. intros v. split; [done|]. by intros n. }
  destruct (peer_walk_run maxPresencePages u ("", ∅, []) s) as (s1 & peers & H1 & He1 & Hnd & Hpeers).
  { split_and!; cbn; [constructor | set_solver | constructor]. }
  unfold directPeers. rewrite (bind_Ok _ _ s s1 (Ok peers)) by (unfold attempt; by rewrite H1).
  assert (ids_ok peers) as Hids.
  { eapply Forall_impl; [done|]. intros v (_ & _ & sum & c & Hs & _ & _ & <-). by apply Hshort. }
  destruct (announce_frames u MsgPresence (Marshal (PPresence body)) peers s s1 Hf Hids (proj1 He1)) as (s2 & evs & H2 & He2 & Hfr).
  exists s2, evs. split; [done|]. split; [exact (emits_app _ _ _ _ _ He1 He2)|]. intros v. split; [apply (fr_pushes _ _ _ _ _ Hfr)|].
  intros n. rewrite (fr_copies _ _ _ _ _ Hfr), occurs_filter, occurs_NoDup by done. rewrite Forall_forall in Hpeers.
  repeat case_bool_decide; (split; [lia|]); try done. intros _. split; [by apply Hpeers | done].
Qed.

(** A notification says no more than its recipient chose.  The pushes of a message to any
    list of recipients carry text only for those who asked for previews; the text is then
    at most 120 bytes, and well formed whenever the message is: it is cut between two
    characters. *)
Theorem push_discreet now b l (s : St) :
  frame_ok MsgNew (Marshal (PNew b)) → ids_ok l → ValidString (sbytes (NM_Text b)) = true →
  ∃ s' evs, deliverNew policies Marshal now l b s = (s', Ok tt) ∧ emits evs s s' ∧
    ∀ e job, e ∈ evs → Event_Data e = FPush job →
      (wants (ext s) (Push_UserID job) = false → Push_Preview job = "") ∧
      sbytes (Push_Preview job) `prefix_of` sbytes (NM_Text b) ∧
      ValidString (sbytes (Push_Preview job)) = true ∧ len (sbytes (Push_Preview job)) ≤ 120.
Proof.
  intros Hf Hids Hv. destruct (deliverNew_reaches now b l s Hf Hids) as (s' & evs & H1 & He & Hr). exists s', evs.
  split; [done|]. split; [done|]. intros e job Hin Hj. destruct (preview_spec (NM_Text b) Hv) as (Hpv & Hpl & _ & Hpp).
  pose proof (re_jobs _ _ _ _ _ Hr) as Hjobs. rewrite Forall_forall in Hjobs. destruct (Hjobs e Hin job Hj) as [u ->].
  injection Hj as <-. cbn [Push_UserID Push_Preview]. destruct (wants (ext s) u).
  - by split.
  - split; [done|]. split; [apply prefix_nil | done].
Qed.
End laws.
