(* ===== verification/Delivery.v ===== *)
(** * Delivery: the fleet

    The node side of fan-out, [internal/gateway] gateway.go ([StartDelivery],
    [routeToDevice], [routeToUser], [publishToNodes]) and delivered.go, and the deployment in
    which the fan-out service runs over the chat service, the registry and a bus: a message
    goes from its event to the sockets of its audience. *)

From S2P Require Import Prelude Bytes Model EventBus Router NodeCodec Hub SecretPayload MemChats ChatService Summaries Fanout.

Record deliveryReport := mkReport { report_senderID : string; report_payload : bytes }.

(** The body of a frame: nothing, encoded bytes, or a message of type [V] to be encoded. *)
Inductive Body (V : Type) := BNil | BBytes (b : bytes) | BVal (v : V).
Arguments BNil {V}.
Arguments BBytes {V}.
Arguments BVal {V}.
Definition EncodeBody {V} (Marshal : V → bytes) (b : Body V) : bytes :=
  match b with BNil => [] | BBytes b => b | BVal v => Marshal v end.

(** What runs once a frame is written: a delivery report is raised, or the connection closed. *)
Inductive hook := HReport (r : deliveryReport) | HClose.

(** A frame for a socket; [D_BodyFor], if set, gives the body for the socket's capabilities. *)
Record Delivery (V : Type) := mkDelivery {
  D_Type : Z;
  D_RequestID : Z;
  D_Body : Body V;
  D_BodyFor : option (Z → Body V);
  D_OnWritten : option hook;
}.
Arguments mkDelivery {V}.
Arguments D_Type {V}.
Arguments D_RequestID {V}.
Arguments D_Body {V}.
Arguments D_BodyFor {V}.
Arguments D_OnWritten {V}.

Section node.
Context `{RangeOrder} {V Sink W : Type} `{!SinkOps Sink (Delivery V) W} (of_secret : SecretMsgBody → V).
(** The wire codec, and [encoding/json] on deliveries of the old format. *)
Context (Marshal : Payload → bytes) (Unmarshal_message : bytes → result NewMessageBody)
  (Unmarshal_secret : bytes → result SecretMsgBody) (json : bytes → result (string * string * Z * bytes)).

Definition deliveryReporterFor (recipientID : string) (body : bytes) : option deliveryReport :=
  match Unmarshal_message body with
  | Err _ => None
  | Ok msg =>
      if bool_decide (NM_SenderID msg = "") || bool_decide (NM_SenderID msg = recipientID) || (NM_ChatSeq msg =? 0) then None
      else Some (mkReport (NM_SenderID msg) (Marshal (PRead (mkReadUpdate (NM_ChatID msg) recipientID (NM_ChatSeq msg)))))
  end.

(** The body of the loop over the recipients. *)
Definition frame_for (nd : NodeDelivery) (userID : string) : Delivery V :=
  let secret := if DType nd =? MsgSecretRecv then match Unmarshal_secret (DBody nd) with Ok sb => Some sb | Err _ => None end
                else None in
  mkDelivery (DType nd) 0 (BBytes (DBody nd))
    (sb ← secret;
     let '(header, cipher) := default ([], []) (SecretPayload sb) in
     Some (λ caps, BVal (of_secret (SetSecretPayloadFor sb caps header cipher))))
    (if DType nd =? MsgNew then HReport <$> deliveryReporterFor userID (DBody nd) else None).
Fixpoint deliver_users (h : Hub Sink) (nd : NodeDelivery) (users : list string) (w : W) : W :=
  match users with
  | [] => w
  | userID :: users =>
      let d := frame_for nd userID in
      deliver_users h nd users
        (if bool_decide (NodeCodec.DeviceID nd = "") then (Route h userID d w).1
         else (RouteDevice h userID (NodeCodec.DeviceID nd) d w).1)
  end.
Definition onDeliver (h : Hub Sink) (data : bytes) : M W unit := λ w,
  match DecodeNodeDelivery json data with
  | Err e => (w, Err e)
  | Ok nd => (deliver_users h nd (Users nd) w, Ok tt)
  end.

(** What a node does with the events of a bus: those on its own subject are its. *)
Fixpoint consume (node : string) (h : Hub Sink) (evs : list (Event FanoutData)) (w : W) : W :=
  match evs with
  | [] => w
  | e :: evs =>
      consume node h evs
        (match Event_Data e with
         | FNode data => if bool_decide (Event_Subject e = DeliverSubject node) then (onDeliver h data w).1 else w
         | _ => w
         end)
  end.
End node.

(** ** Routing from the gateway *)
Section routing.
Context {X : Type} `{!Routes X} `{!Bus FanoutData X}.
(** [NodesForDevice] of the router. *)
Context (NodesForDevice_ : string → string → M X (list string)).

Definition publishToNodes (nodes : list string) (userID deviceID : string) (ty : Z) (body : bytes) : M X Z :=
  let data := Encode (mkNodeDelivery [userID] deviceID (u16 ty) body) in
  for_each (λ node, attempt (Publish (mkEvent (DeliverSubject node) userID (FNode data) ∅));; mret tt) nodes;;
  mret (len nodes).
Definition routeToDevice (userID deviceID : string) (ty : Z) (body : bytes) : M X Z :=
  r ← attempt (NodesForDevice_ userID deviceID);
  match r with Err _ => mret 0 | Ok nodes => publishToNodes nodes userID deviceID ty body end.
Definition routeToUser (userID deviceID : string) (ty : Z) (body : bytes) : M X Z :=
  r ← attempt (rt_NodesFor userID);
  match r with Err _ => mret 0 | Ok nodes => publishToNodes nodes userID deviceID ty body end.
End routing.

(** ** The deployment *)

Record Fleet := mkFleet { chat_svc : ChatService.Service; registry : memoryRouter; log : list (Event FanoutData) }.

Definition on_chat {A} (m : M ChatService.Service A) : M Fleet A := λ x,
  let '(s, r) := m (chat_svc x) in (mkFleet s (registry x) (log x), r).

Section fleet.
Context `{RangeOrder}.
#[global] Instance fleet_chats : Chats Fleet := {|
  Fanout.MemberIDsPage c after limit := on_chat (ChatService.MemberIDsPage c after limit);
  Fanout.UserChats u after limit := on_chat (Summaries.UserChats u after limit);
|}.
#[global] Instance fleet_routes : Routes Fleet := {|
  rt_NodesFor u := gets (λ x, NodesFor (registry x) u);
  rt_NodesForMany us := gets (λ x, NodesForMany (registry x) us);
|}.
#[global] Instance fleet_bus : Bus FanoutData Fleet := λ e, modify (λ x, mkFleet (chat_svc x) (registry x) (log x ++ [e])).

(** The mute and kind policies are the chat service's answers, at clock readings [t]; the
    privacy settings are given. *)
Definition fleet_policies (t : Ticks) (see : option (string → string → result bool)) (preview : option (string → bool)) : Policies Fleet :=
  mkPolicies Fleet ((λ f _, f) <$> see)
    (Some (λ x c u, (ChatFlags c u (chat_svc x)).2))
    ((λ f _, f) <$> preview)
    (Some (λ x c, (ChatType_ t c (chat_svc x)).2)).

(** The deployment keeps the promises fan-out relies on. *)
#[global] Instance fleet_laws t see preview : FanoutLaws Fleet (fleet_policies t see preview).
Proof.
  refine {|
    still x x' := chat_svc x' = chat_svc x ∧ registry x' = registry x;
    sent := log;
    rest x c a := after_ids (members_of c (cdb (chat_svc x))) a;
    nodes x u := NodesFor (registry x) u;
    summaries x u := summary_rows u false (cdb (chat_svc x));
  |}.
  - split; [by intros x | intros x y z [] []; split; congruence].
  - by intros x x' c a [-> _].
  - by intros x x' u [_ ->].
  - by intros x x' u [-> _].
  - intros x x' f c u [Hc _] [= <-]. by rewrite Hc.
  - intros x x' f u _. destruct preview; [|done]. by intros [= <-].
  - intros x x' f u v _. destruct see; [|done]. by intros [= <-].
  - intros x x' f c [Hc _] [= <-]. by rewrite Hc.
  - intros x c. apply after_ids_spec.
  - intros x c a n uid Hn Hl. pose proof (after_ids_next (members_of c (cdb (chat_svc x))) a n uid Hn) as Hx.
    rewrite ids_page_eq in Hx by done. by apply Hx.
  - intros x u. apply NoDup_range_keys.
  - intros c a n [s m l] Hn. eexists. split; [|by split]. unfold on_chat, ChatService.MemberIDsPage, store, ListMemberIDsPage, gets.
    cbn. rewrite ids_page_eq by done. by destruct s.
  - intros u a n [s m l]. eexists _, _. split; [reflexivity|]. split; [|split; [split|]]; try (by destruct s).
    intros r Hr. by apply elem_of_ztake, list_elem_of_filter in Hr as [_ Hr].
  - intros u x. by eexists.
  - intros us x. eexists _, _. split; [reflexivity|]. split; [|by split; [split|]]. intros u Hu.
    rewrite NodesForMany_NodesFor, bool_decide_true by done. cbn [andb]. by case_bool_decide as Hz; [rewrite Hz|].
  - intros e x. by eexists.
Defined.
End fleet.

(** ** Lemmas *)

Section sockets.
Context `{RangeOrder} {V Sink : Type} `{EqDecision Sink} (of_secret : SecretMsgBody → V) (dev owner : Sink → string) (accepts : Sink → bool).
#[local] Instance sockets : SinkOps Sink (Delivery V) (list (Sink * Delivery V)) := log_sinks dev accepts.
Context (Marshal : Payload → bytes) (Unmarshal_message : bytes → result NewMessageBody)
  (Unmarshal_secret : bytes → result SecretMsgBody) (json : bytes → result (string * string * Z * bytes)).

(** A socket is registered for its owner, under its device. *)
Definition owned (t : table Sink) : Prop := ∀ u d s, t !! (u, d) = Some s → owner s = u ∧ dev s = d.

Lemma sinks_owned t u s : owned t → s ∈ sinks_of t u → owner s = u.
Proof.
  intros Ht. unfold sinks_of. intros ([[v d] s'] & -> & Hin)%list_elem_of_fmap.
  apply list_elem_of_filter in Hin as [Hv Hin]. cbn in *. subst v. apply elem_of_map_to_list in Hin. by apply Ht in Hin as [? _].
Qed.
Lemma sinks_NoDup t u : owned t → NoDup (sinks_of t u).
Proof.
  intros Ht. unfold sinks_of. apply NoDup_fmap_2_strong; [|apply NoDup_filter, NoDup_map_to_list].
  intros [[v d] s] [[v' d'] s'] H1 H2 Heq. cbn in Heq. subst s'.
  apply list_elem_of_filter in H1 as [_ H1%elem_of_map_to_list], H2 as [_ H2%elem_of_map_to_list].
  destruct (Ht _ _ _ H1), (Ht _ _ _ H2). congruence.
Qed.

(** How often a socket was given a frame. *)
Definition body_is (x : bytes) (b : Body V) : bool := match b with BBytes y => bool_decide (y = x) | _ => false end.
Definition got (ty : Z) (body : bytes) (s : Sink) (w : list (Sink * Delivery V)) : Z :=
  len (filter (λ e, e.1 = s ∧ D_Type e.2 = ty ∧ body_is body (D_Body e.2) = true) w).
Definition connected (t : table Sink) (s : Sink) : bool := bool_decide (s ∈ sinks_of t (owner s)).

Lemma got_app ty body s w w' : got ty body s (w ++ w') = got ty body s w + got ty body s w'.
Proof. unfold got. by rewrite filter_app, len_app. Qed.
Lemma got_frame ty body s d (l : list Sink) :
  NoDup l →
  got ty body s ((., d) <$> l) = if bool_decide (s ∈ l) && (D_Type d =? ty) && body_is body (D_Body d) then 1 else 0.
Proof.
  unfold got. induction 1 as [|s' l Hs' _ IH]; [done|]. rewrite fmap_cons, filter_cons. cbn [fst snd].
  destruct (decide (D_Type d = ty ∧ body_is body (D_Body d) = true)) as [[Ht Hb]|Hn].
  - rewrite Ht, Z.eqb_refl, Hb, !andb_true_r in IH |- * by done. destruct (decide (s' = s)) as [->|Hne].
    + rewrite decide_True by done. rewrite len_cons, IH, (bool_decide_false (s ∈ l)), (bool_decide_true (s ∈ s :: l)) by (done || by left). lia.
    + rewrite decide_False by tauto. rewrite IH, (bool_decide_ext (s ∈ s' :: l) (s ∈ l)); [done | apply elem_of_cons_ne; congruence].
  - assert (∀ b, b && (D_Type d =? ty) && body_is body (D_Body d) = false) as Hf.
    { intros b. destruct (Z.eqb_spec (D_Type d) ty), (body_is body (D_Body d)) eqn:?; rewrite ?andb_false_r; try done. tauto. }
    rewrite decide_False by tauto. rewrite Hf in IH |- *. done.
Qed.

Section one_hub.
Variable ops : list (op (Sink := Sink)).
Abbreviation h := (foldl apply_op NewHub ops).
Abbreviation t := (foldl apply_spec ∅ ops).
Hypothesis Hown : owned t.

Lemma route_got ty body s u d w :
  got ty body s (Route h u d w).1 =
  got ty body s w + (if bool_decide (u = owner s) && connected t s && (D_Type d =? ty) && body_is body (D_Body d) then 1 else 0).
Proof.
  destruct (Route_exact dev accepts ops u d w) as (sinks & Hp & Hr). cbv zeta in Hr.
  replace (Route h u d w).1 with (w ++ ((., d) <$> sinks)) by (symmetry; exact (f_equal fst Hr)).
  rewrite got_app, got_frame by (rewrite Hp; by apply sinks_NoDup). f_equal. unfold connected.
  rewrite (bool_decide_ext (s ∈ sinks) (s ∈ sinks_of t u)) by by rewrite Hp.
  destruct (decide (u = owner s)) as [->|Hne]; [by rewrite (bool_decide_true (owner s = owner s))|].
  rewrite (bool_decide_false (u = owner s)), (bool_decide_false (s ∈ sinks_of t u)); [done | |done].
  intros Hin. by apply (sinks_owned t u s Hown) in Hin.
Qed.

Lemma users_got ty body s nd users w :
  NodeCodec.DeviceID nd = "" →
  got ty body s (deliver_users of_secret Marshal Unmarshal_message Unmarshal_secret h nd users w) =
  got ty body s w + (if connected t s && (DType nd =? ty) && bool_decide (DBody nd = body) then occurs (owner s) users else 0).
Proof.
  intros Hdev. revert w. induction users as [|u users IH]; intros w; [cbn; case_match; change (occurs (owner s) []) with 0; lia|].
  cbn [deliver_users]. rewrite bool_decide_true by done. rewrite IH, route_got, occurs_cons. cbn [D_Type D_Body frame_for body_is].
  destruct (bool_decide (u = owner s)), (connected t s), (DType nd =? ty), (bool_decide (DBody nd = body)); cbn [andb]; lia.
Qed.

Lemma consume_got ty body s node evs w :
  Forall (open_event json) evs →
  got ty body s (consume of_secret Marshal Unmarshal_message Unmarshal_secret json node h evs w) =
  got ty body s w + (if connected t s then copies json ty body node (owner s) evs else 0).
Proof.
  intros Hop. revert w. induction Hop as [|e evs He _ IH]; intros w; [cbn; case_match; change (copies json ty body node (owner s) []) with 0; lia|].
  cbn [consume]. rewrite IH. unfold copies. cbn [fmap list_fmap]. rewrite zsum_cons.
  assert (got ty body s match Event_Data e with
    | FNode data => if bool_decide (Event_Subject e = DeliverSubject node)
        then (onDeliver of_secret Marshal Unmarshal_message Unmarshal_secret json h data w).1 else w | _ => w end =
    got ty body s w + (if connected t s then named json ty body node (owner s) e else 0)) as ->; [|destruct (connected t s); lia].
  unfold named, open_event in *. destruct (Event_Data e) as [data| |]; [|destruct (connected t s); lia..].
  destruct He as (nd & Hd & Hdev). unfold onDeliver. rewrite Hd. cbn [fst]. rewrite (bool_decide_true (NodeCodec.DeviceID nd = "")) by done.
  destruct (bool_decide (Event_Subject e = DeliverSubject node)); cbn [andb]; [|destruct (connected t s); lia].
  rewrite users_got by done. destruct (connected t s), (DType nd =? ty), (bool_decide (DBody nd = body)); cbn [andb]; lia.
Qed.
End one_hub.

(** ** Theorems *)

End sockets.


Section presence.
Context `{RangeOrder}.

Lemma peer_walk_S n u acc (s : State Fleet) :
  peer_walk (S n) u acc s =
  (page ← on_ext (UserChats u acc.1.1 presencePageSize);
   if len page =? 0 then mret acc.2
   else if len page <? presencePageSize then mret (foldl (collect_peer u) acc page).2
   else peer_walk n u (foldl (collect_peer u) acc page)) s.
Proof. done. Qed.

(** Presence is announced to the first page only.  The walk over a user's direct chats
    asks for each further page by chat id alone, and gets nothing: only peers among the 200
    most recently active chats that are not archived are ever told. *)
Theorem presence_first_page u (s : State Fleet) :
  let rows := summary_rows u false (cdb (chat_svc (ext s))) in
  chats_filed (cdb (chat_svc (ext s))) → (∀ r, r ∈ rows → 0 < Sum_LastActivityAt r) →
  (directPeers u s).2 = Ok (foldl (collect_peer u) ("", ∅, []) (ztake presencePageSize rows)).2.
Proof.
  intros rows Hdb Hact. destruct (summary_rows_spec u false _ Hdb) as [_ Hf]. fold rows in Hf.
  assert (∀ after (s' : State Fleet), chat_svc (ext s') = chat_svc (ext s) →
    on_ext (UserChats u after presencePageSize) s' =
      (s', Ok (if bool_decide (after = "") then ztake presencePageSize rows else []))) as Hpage.
  { intros after s' Hs'. destruct s' as [sv [ch m l]]. cbn in Hs'. subst ch. unfold on_ext. cbn [ext svc UserChats fleet_chats].
    unfold on_chat. cbn [chat_svc registry log]. destruct (Summaries.UserChats u after presencePageSize (chat_svc (ext s))) as [sv' r] eqn:E.
    assert (sv' = chat_svc (ext s)) as -> by (apply (f_equal fst) in E; cbn in E; rewrite <- E; by destruct (chat_svc (ext s))).
    f_equal. case_bool_decide as Ha.
    - subst after. apply (f_equal snd) in E. cbn [snd] in E. rewrite <- E. unfold Summaries.UserChats, UserChatPage, store, UserChatSummaries, gets.
      cbn [AfterActivity After IncludeArchived snd]. fold rows. rewrite filter_Forall; [done | by apply Forall_forall].
    - rewrite <- (id_cursor_empty u after presencePageSize (chat_svc (ext s)) Ha Hact), E. done. }
  unfold directPeers, maxPresencePages. rewrite (peer_walk_S 9), (bind_Ok _ _ s s (ztake presencePageSize rows)) by exact (Hpage "" s eq_refl).
  set (page := ztake presencePageSize rows) in *.
  destruct (Z.eqb_spec (len page) 0) as [Hz|Hz]; [by destruct page; [|rewrite len_cons in Hz; pose proof (len_nonneg page); lia]|].
  set (acc := foldl _ _ page). destruct (len page <? presencePageSize); [done|].
  assert (acc.1.1 ≠ "") as Hne.
  { assert (∀ l a, Forall filed l → l ≠ [] → (foldl (collect_peer u) a l).1.1 ≠ "") as Hgen.
    { intros l. induction l as [|r l IH] using rev_ind; [done|]. intros a [_ Hr]%Forall_app _. rewrite foldl_app. cbn [foldl].
      apply Forall_cons in Hr as [Hr _]. apply filed_nonempty in Hr. unfold Sum_ChatID in Hr. destruct (foldl _ a l) as [[after seen] out].
      unfold collect_peer. destruct (Sum_Chat r) as [c|]; [|done]. by repeat case_match. }
    apply Hgen; [by apply Forall_take | by intros ->]. }
  rewrite (peer_walk_S 8), (bind_Ok _ _ s s []); [done|]. by rewrite (Hpage acc.1.1 s eq_refl), bool_decide_false.
Qed.
End presence.

(** ** Witnesses *)
Section witnesses.
#[local] Existing Instance canonical_order.

(** A group of three: the sender on one node, a member on two, a member nowhere. *)
Definition w_body : NewMessageBody := mkNewMessage "m1" "7" "1" 1 "hello" "" "" None None 0 "" 0 false false 5.
Definition w_members : ChatService.Service := (CreateGroup "1" "team" ChatGroup ["2"; "3"] "7" 5 (ChatService.New 0 MemChats.New)).1.
Definition w_registry : memoryRouter := Bind (Bind (Bind NewMemory "1" "phone" "n1") "2" "phone" "n1") "2" "laptop" "n2".
Definition w_fleet : State Fleet := mkState (mkService ∅ 0 ∅) (mkFleet w_members w_registry []).
Definition w_policies : Policies Fleet := fleet_policies (mkTicks 10 10 10) None (Some (λ u, bool_decide (u = "2"))).
Definition w_clock : Clock := mkClock 10 10 10.
Definition w_marshal (p : Payload) : bytes := match p with PNew b => sbytes (NM_Text b) | _ => [] end.
Definition w_json (_ : bytes) : result (string * string * Z * bytes) := Err codec_error.

Definition w_sent : State Fleet * result (option ()) := onMessage w_policies w_marshal 1 w_clock (λ _, 9) ∅ w_body w_fleet.

Lemma w_fresh now c : fresh w_policies now c w_fleet.
Proof. intros e He. cbn in He. by rewrite lookup_empty in He. Qed.
Lemma w_short : ids_ok (rest (policies := w_policies) (ext w_fleet) "7" "").
Proof. apply (bool_decide_unpack _). by vm_compute. Qed.
Lemma w_no_shards : shards (log (ext w_sent.1)) = [].
Proof. by vm_compute. Qed.

Lemma every_member_reached_witness :
  w_sent.2 = Ok (Some tt) ∧ copies w_json MsgNew (sbytes "hello") "n2" "2" (log (ext w_sent.1)) = 1 ∧ pushes "3" (log (ext w_sent.1)) = 1.
Proof.
  destruct (every_member_reached w_policies w_marshal w_json 1 w_clock (λ _, 9) ∅ w_body w_fleet (w_fresh _ _)) as (s1 & evs1 & H1 & [_ He1] & Hj).
  - by vm_compute.
  - by vm_compute.
  - exact w_short.
  - fold w_sent in H1. pose proof w_no_shards as Hsh. rewrite H1 in Hsh |- *. cbn [fst snd] in Hsh |- *.
    assert (evs1 = log (ext s1)) as -> by exact (eq_sym He1).
    destruct (Hj [] ltac:(by rewrite Hsh)) as (s2 & evs2 & H2 & [_ He2] & _ & Hall). injection H2 as <-.
    assert (evs2 = []) as -> by (apply (app_inv_head (log (ext s1))); by rewrite app_nil_r).
    destruct (Hall "2") as [Hc _]. destruct (Hall "3") as [_ Hp]. rewrite app_nil_r in Hc, Hp.
    split; [done|]. split; [|rewrite Hp; by vm_compute].
    change (sbytes "hello") with (w_marshal (PNew w_body)). rewrite (Hc "n2"). by vm_compute.
Defined.

Definition w_read : ReadUpdateBody := mkReadUpdate "7" "1" 1.
Definition w_receipt : State Fleet * result (option ()) := onRead w_policies w_marshal 1 w_clock w_clock w_read w_fleet.

Lemma receipts_private_witness :
  w_receipt.2 = Ok (Some tt) ∧ copies w_json MsgReadUpd [] "n1" "2" (log (ext w_receipt.1)) = 1 ∧
  copies w_json MsgReadUpd [] "n1" "1" (log (ext w_receipt.1)) = 0.
Proof.
  destruct (receipts_private w_policies w_marshal w_json 1 w_clock w_clock w_read w_fleet) as (s1 & evs & H1 & [_ He] & _ & Hall).
  - intros f typ _ Hk. cbn in Hk. by rewrite lookup_empty in Hk.
  - apply w_fresh.
  - apply w_fresh.
  - by vm_compute.
  - by vm_compute.
  - exact w_short.
  - fold w_receipt in H1. rewrite H1. cbn [fst snd]. assert (evs = log (ext s1)) as -> by exact (eq_sym He).
    specialize (Hall ltac:(by vm_compute)). split; [done|].
    change [] with (w_marshal (PRead w_read)).
    split; [rewrite (proj2 (Hall "2") "n1") | rewrite (proj2 (Hall "1") "n1")]; by vm_compute.
Defined.

(** Two people with a direct chat. *)
Definition w_pair : State Fleet :=
  mkState (mkService ∅ 0 ∅) (mkFleet (EnsureDirect "1" "2" "7" 5 (ChatService.New 0 MemChats.New)).1 w_registry []).
Definition w_online : PresenceBody := mkPresence "2" true 5.
Definition w_announced : State Fleet * result () := onPresence w_policies w_marshal w_online w_pair.

Lemma presence_entitled_witness :
  w_announced.2 = Ok tt ∧ copies w_json MsgPresence [] "n1" "1" (log (ext w_announced.1)) = 1 ∧
  direct_peer w_policies (ext w_pair) "2" "1".
Proof.
  destruct (presence_entitled w_policies w_marshal w_json w_online w_pair) as (s1 & evs & H1 & [_ He] & Hall).
  - by vm_compute.
  - assert (Forall (λ r, len (sbytes (Sum_PeerID r)) < 2 ^ 16) (summaries (policies := w_policies) (ext w_pair) "2")) as Hs.
    { apply (bool_decide_unpack _). by vm_compute. }
    by rewrite Forall_forall in Hs.
  - assert (copies w_json MsgPresence [] "n1" "1" (log (ext w_announced.1)) = 1) as Hc by by vm_compute.
    fold w_announced in H1. rewrite H1 in Hc |- *. cbn [fst snd] in Hc |- *.
    assert (evs = log (ext s1)) as -> by exact (eq_sym He). split; [done|]. split; [done|].
    exact (proj1 (proj2 (proj2 (Hall "1") "n1") Hc)).
Defined.

Lemma push_discreet_witness :
  (deliverNew w_policies w_marshal (λ _, 9) ["3"] w_body w_fleet).2 = Ok tt ∧
  ∀ e job, e ∈ log (ext (deliverNew w_policies w_marshal (λ _, 9) ["3"] w_body w_fleet).1) → Event_Data e = FPush job →
    Push_UserID job = "3" → Push_Preview job = "".
Proof.
  destruct (push_discreet w_policies w_marshal w_json (λ _, 9) w_body ["3"] w_fleet) as (s1 & evs & H1 & [_ He] & Hall).
  - by vm_compute.
  - apply (bool_decide_unpack _). by vm_compute.
  - by vm_compute.
  - rewrite H1. cbn [fst snd]. assert (evs = log (ext s1)) as -> by exact (eq_sym He). split; [done|].
    intros e job Hin Hj Hu. apply (Hall e job Hin Hj). by rewrite Hu.
Defined.

(** Sockets are pairs of a user and a device. *)
#[local] Instance w_sockets : SinkOps (string * string) (Delivery SecretMsgBody) (list (string * string * Delivery SecretMsgBody)) := log_sinks snd (λ _, true).
Definition w_ops (n : string) : list (op (Sink := string * string)) :=
  if bool_decide (n = "n1") then [ORegister "1" ("1", "phone"); ORegister "2" ("2", "phone")]
  else if bool_decide (n = "n2") then [ORegister "2" ("2", "laptop")] else [].
Definition w_got (n : string) (sk : string * string) : Z :=
  got MsgNew (sbytes "hello") sk
    (consume id w_marshal (λ _, Err codec_error) (λ _, Err codec_error) w_json n (foldl apply_op NewHub (w_ops n)) (log (ext w_sent.1)) []).
Definition w_table (n : string) : table (string * string) := foldl apply_spec ∅ (w_ops n).

Lemma w_sinks n u d sk : w_table n !! (u, d) = Some sk →
  sk = (u, d) ∧ (n, u, d) ∈ [("n1", "2", "phone"); ("n1", "1", "phone"); ("n2", "2", "laptop")].
Proof.
  unfold w_table, w_ops. repeat case_bool_decide; subst; cbn [foldl apply_spec]; unfold t_register; cbn;
    rewrite ?lookup_insert_Some, ?lookup_empty; intros; destruct_or?; destruct_and?; destruct_or?; destruct_and?; simplify_eq;
    (split; [congruence|]); rewrite !elem_of_cons; tauto.
Qed.
Lemma w_owned n : owned snd fst (w_table n).
Proof. by intros u d sk [-> _]%w_sinks. Qed.
Lemma w_bound n sk : connected fst (w_table n) sk = true → n ∈ NodesFor w_registry sk.1.
Proof.
  unfold connected, sinks_of. intros Hc%bool_decide_eq_true. apply list_elem_of_fmap in Hc as ([[u d] sk'] & -> & Hin).
  apply list_elem_of_filter in Hin as [Hu Hin%elem_of_map_to_list]. apply w_sinks in Hin as [-> Hin]. cbn in *.
  apply (bool_decide_unpack _). repeat (apply elem_of_cons in Hin as [Hin|Hin]; [injection Hin as -> -> ->; by vm_compute|]).
  by apply not_elem_of_nil in Hin.
Qed.


Lemma w_pair_filed : chats_filed (cdb (chat_svc (ext w_pair))).
Proof.
  assert (chats (cdb (chat_svc (ext w_pair))) = {["7" := mkChat "7" ChatDirect "" "1" 5 0 ""]}) as Hw by by vm_compute.
  intros id c. rewrite Hw, lookup_singleton_Some. intros [<- <-]. split; [done | by exists 7].
Qed.

Lemma presence_first_page_witness : (directPeers "2" w_pair).2 = Ok ["1"].
Proof.
  etrans; [apply (presence_first_page "2" w_pair w_pair_filed)|by vm_compute].
  assert (Forall (λ r, 0 < Sum_LastActivityAt r) (summary_rows "2" false (cdb (chat_svc (ext w_pair))))) as Hall.
  { apply (bool_decide_unpack _). by vm_compute. }
  by rewrite Forall_forall in Hall.
Defined.
End witnesses.
