(* ===== verification/KeyDir.v ===== *)
(** * The prekey directory

    [internal/keydir] keydir.go: the in-process directory of public prekey bundles.
    Clock readings, in nanoseconds, are arguments; [None] is Go's zero time. *)

From S2P Require Import Prelude.

Definition MaxOneTimePreKeys : Z := 256.
Definition MaxPreKeysPerPublish : Z := 128.
Definition EntryTTL : Z := 90 * 24 * 3600 * 10 ^ 9.

Record KeyPublishBody := mkKeyPublish {
  KP_IdentityKey : string;
  KP_SigningKey : string;
  KP_SignedPreKey : string;
  KP_SignedPreKeySig : string;
  KP_PreKeys : list string;
}.
Record KeyBundleBody := mkKeyBundle {
  KB_UserID : string;
  KB_DeviceID : string;
  KB_IdentityKey : string;
  KB_SigningKey : string;
  KB_SignedPreKey : string;
  KB_SignedPreKeySig : string;
  KB_OneTimePreKey : string;
}.
(** [State]: what a publish reports. *)
Record DirState := mkDirState {
  OneTimePreKeysLeft : Z;
  Accepted : Z;
  SignedPreKeyFirstSeen : option Z;
}.
Record deviceKeys := mkDeviceKeys {
  identityKey : string;
  signingKey : string;
  signedPreKey : string;
  signedPreKeySig : string;
  spkFirstSeen : option Z;
  oneTime : list string;
  expires : option Z;
}.
Record memoryDir := mkDir { bundles : gmap string deviceKeys; devices : gmap string (list string) }.

Definition NewMemory : memoryDir := mkDir ∅ ∅.
Definition key (userID deviceID : string) : string := userID +:+ "|" +:+ deviceID.

Definition survivors (pushed left : Z) : Z := if pushed <? left then pushed else left.
Definition appendCapped (existing incoming : list string) : list string * Z :=
  let incoming := if MaxPreKeysPerPublish <? len incoming then ztake MaxPreKeysPerPublish incoming else incoming in
  let pushed := len incoming in
  let out := existing ++ incoming in
  let out := if MaxOneTimePreKeys <? len out then zdrop (len out - MaxOneTimePreKeys) out else out in
  (out, survivors pushed (len out)).

Definition no_keys : deviceKeys := mkDeviceKeys "" "" "" "" None [] None.

Definition Publish (now : Z) (userID deviceID : string) (b : KeyPublishBody) (d : memoryDir) : memoryDir * DirState :=
  let k := key userID deviceID in
  let devs := match bundles d !! k with
              | Some _ => devices d
              | None => <[userID := default [] (devices d !! userID) ++ [deviceID]]> (devices d)
              end in
  let dk := default no_keys (bundles d !! k) in
  let seen := if bool_decide (signedPreKey dk = KP_SignedPreKey b) then spkFirstSeen dk else Some now in
  let '(oneTime', accepted) := appendCapped (oneTime dk) (KP_PreKeys b) in
  let dk := mkDeviceKeys (KP_IdentityKey b) (KP_SigningKey b) (KP_SignedPreKey b) (KP_SignedPreKeySig b) seen oneTime'
              (Some (now + EntryTTL)) in
  (mkDir (<[k := dk]> (bundles d)) devs, mkDirState (len oneTime') accepted seen).

(** [append(devices[:i:i], devices[i+1:]...)] at the first [deviceID]. *)
Fixpoint remove_first (deviceID : string) (l : list string) : list string :=
  match l with
  | [] => []
  | x :: l => if bool_decide (x = deviceID) then l else x :: remove_first deviceID l
  end.
Definition forgetLocked (userID deviceID : string) (d : memoryDir) : memoryDir :=
  let ds := remove_first deviceID (default [] (devices d !! userID)) in
  mkDir (delete (key userID deviceID) (bundles d))
    (if len ds =? 0 then delete userID (devices d) else <[userID := ds]> (devices d)).

Definition after_expiry (now : Z) (dk : deviceKeys) : bool :=
  match expires dk with Some t => t <? now | None => false end.

Definition Fetch (now : Z) (userID deviceID : string) (d : memoryDir) : memoryDir * option KeyBundleBody :=
  match bundles d !! key userID deviceID with
  | None => (d, None)
  | Some dk =>
      if bool_decide (identityKey dk = "") then (d, None)
      else if after_expiry now dk then (forgetLocked userID deviceID d, None)
      else
        let bundle := mkKeyBundle userID deviceID (identityKey dk) (signingKey dk) (signedPreKey dk) (signedPreKeySig dk) in
        match oneTime dk with
        | [] => (d, Some (bundle ""))
        | k :: rest =>
            let dk := mkDeviceKeys (identityKey dk) (signingKey dk) (signedPreKey dk) (signedPreKeySig dk) (spkFirstSeen dk)
                        rest (expires dk) in
            (mkDir (<[key userID deviceID := dk]> (bundles d)) (devices d), Some (bundle k))
        end
  end.

Fixpoint fetch_each (now : string → Z) (userID : string) (devs : list string) (d : memoryDir) : memoryDir * list KeyBundleBody :=
  match devs with
  | [] => (d, [])
  | dev :: devs =>
      let '(d, b) := Fetch (now dev) userID dev d in
      let '(d, bs) := fetch_each now userID devs d in
      (d, match b with Some b => b :: bs | None => bs end)
  end.
Definition FetchAll (now : string → Z) (userID : string) (d : memoryDir) : memoryDir * list KeyBundleBody :=
  fetch_each now userID (default [] (devices d !! userID)) d.

(** ** Histories *)

Inductive op :=
  | OPublish (now : Z) (u d : string) (b : KeyPublishBody)
  | OFetch (now : Z) (u d : string)
  | OFetchAll (now : string → Z) (u : string).
Definition op_user (o : op) : string := match o with OPublish _ u _ _ | OFetch _ u _ | OFetchAll _ u => u end.

(** The directory after a call, and the bundles it handed out. *)
Definition apply (o : op) (d : memoryDir) : memoryDir * list KeyBundleBody :=
  match o with
  | OPublish now u dev b => ((Publish now u dev b d).1, [])
  | OFetch now u dev => let '(d, b) := Fetch now u dev d in (d, option_list b)
  | OFetchAll now u => FetchAll now u d
  end.
Fixpoint run (ops : list op) (d : memoryDir) : memoryDir * list KeyBundleBody :=
  match ops with
  | [] => (d, [])
  | o :: ops => let '(d, bs) := apply o d in let '(d, bs') := run ops d in (d, bs ++ bs')
  end.

(** The one-time keys a device offered, those still held, and those handed out. *)
Definition offered1 (u d : string) (o : op) : list string :=
  match o with OPublish _ u' d' b => if bool_decide (u' = u ∧ d' = d) then KP_PreKeys b else [] | _ => [] end.
Definition offered (u d : string) (ops : list op) : list string := ops ≫= offered1 u d.
Definition stored (u d : string) (dir : memoryDir) : list string := oneTime (default no_keys (bundles dir !! key u d)).
Definition is_for (u d : string) (b : KeyBundleBody) : Prop := KB_UserID b = u ∧ KB_DeviceID b = d ∧ KB_OneTimePreKey b ≠ "".
#[global] Instance is_for_dec u d b : Decision (is_for u d b) := _.
Definition taken (u d : string) (bs : list KeyBundleBody) : list string := KB_OneTimePreKey <$> filter (is_for u d) bs.

(** The last publish of a device, and histories whose clock does not run back. *)
Definition latest1 (u d : string) (l : option (Z * KeyPublishBody)) (o : op) : option (Z * KeyPublishBody) :=
  match o with OPublish now u' d' b => if bool_decide (u' = u ∧ d' = d) then Some (now, b) else l | _ => l end.
Definition latest (u d : string) (ops : list op) : option (Z * KeyPublishBody) := foldl (latest1 u d) None ops.
Fixpoint clocked (t : Z) (ops : list op) (t' : Z) : Prop :=
  match ops with
  | [] => t ≤ t'
  | OPublish now _ _ _ :: ops | OFetch now _ _ :: ops => t ≤ now ∧ clocked now ops t'
  | OFetchAll now _ :: ops => ∃ t1, (∀ d, t ≤ now d ≤ t1) ∧ clocked t1 ops t'
  end.

(** ** Lemmas *)

Lemma key_inj u u' d d' : no_bar u = true → no_bar u' = true → key u d = key u' d' → u = u' ∧ d = d'.
Proof. apply bar_key_inj. Qed.
Lemma key_ne u u' d d' : no_bar u = true → no_bar u' = true → ¬ (u' = u ∧ d' = d) → key u' d' ≠ key u d.
Proof. intros Hu Hu' Hne Heq. apply Hne. by apply key_inj. Qed.

Lemma taken_app u d bs bs' : taken u d (bs ++ bs') = taken u d bs ++ taken u d bs'.
Proof. unfold taken. by rewrite filter_app, fmap_app. Qed.

(** What a publish keeps: the newest of the old keys and the frame's. *)
Lemma appendCapped_spec old new :
  let '(out, n) := appendCapped old new in
  out `suffix_of` old ++ ztake MaxPreKeysPerPublish new ∧ n = Z.min (len new) MaxPreKeysPerPublish ∧
  ztake MaxPreKeysPerPublish new `suffix_of` out ∧ len out = Z.min (len old + n) MaxOneTimePreKeys.
Proof.
  unfold appendCapped. set (inc := if MaxPreKeysPerPublish <? len new then _ else new).
  assert (inc = ztake MaxPreKeysPerPublish new ∧ len inc = Z.min (len new) MaxPreKeysPerPublish) as [Hinc Hl].
  { subst inc. unfold MaxPreKeysPerPublish, ztake, len in *. case_match; bool_to_prop.
    - split; [done|]. rewrite length_take. lia.
    - rewrite take_ge by lia. split; [done | lia]. }
  rewrite <- Hinc. clearbody inc. unfold MaxOneTimePreKeys, MaxPreKeysPerPublish, survivors, zdrop, len in *.
  assert (∀ k, (k ≤ length old)%nat → inc `suffix_of` drop k (old ++ inc)) as Hsuf.
  { intros k Hk. rewrite drop_app_le by done. by eexists. }
  rewrite !length_app. case_match; bool_to_prop.
  - rewrite length_drop, length_app. split_and!; [apply suffix_drop | case_match; bool_to_prop; lia | apply Hsuf; lia | case_match; bool_to_prop; lia].
  - rewrite !length_app. split_and!; [done | case_match; bool_to_prop; lia | by eexists | case_match; bool_to_prop; lia].
Qed.

Lemma stored_insert u d u' d' dk bs ds :
  no_bar u = true → no_bar u' = true →
  stored u d (mkDir (<[key u' d' := dk]> bs) ds) = if bool_decide (u' = u ∧ d' = d) then oneTime dk else stored u d (mkDir bs ds).
Proof.
  intros Hu Hu'. unfold stored. cbn [bundles]. destruct (bool_decide_reflect (u' = u ∧ d' = d)) as [[-> ->]|Hne].
  - by rewrite lookup_insert_eq.
  - rewrite lookup_insert_ne; [done | by apply key_ne].
Qed.
Lemma stored_delete u d u' d' bs ds ds' :
  no_bar u = true → no_bar u' = true →
  stored u d (mkDir (delete (key u' d') bs) ds') = if bool_decide (u' = u ∧ d' = d) then [] else stored u d (mkDir bs ds).
Proof.
  intros Hu Hu'. unfold stored. cbn [bundles]. destruct (bool_decide_reflect (u' = u ∧ d' = d)) as [[-> ->]|Hne].
  - by rewrite lookup_delete_eq.
  - rewrite lookup_delete_ne; [done | by apply key_ne].
Qed.

Lemma Fetch_moves u d now u' d' dir :
  no_bar u = true → no_bar u' = true →
  let '(dir', b) := Fetch now u' d' dir in taken u d (option_list b) ++ stored u d dir' `sublist_of` stored u d dir.
Proof.
  intros Hu Hu'. destruct dir as [bs ds]. unfold Fetch. cbn [bundles devices].
  destruct (bs !! key u' d') as [dk|] eqn:Hk; [|done]. case_bool_decide; [done|]. destruct (after_expiry now dk).
  { unfold forgetLocked. cbn [bundles devices]. rewrite (stored_delete _ _ _ _ _ ds) by done. cbn. case_bool_decide; [apply sublist_nil_l | done]. }
  destruct (oneTime dk) as [|k rest] eqn:Ho; unfold option_list; cbn [option_rect].
  { unfold taken. rewrite filter_cons_False by by intros (_ & _ & ?). done. }
  rewrite stored_insert by done. unfold taken. destruct (bool_decide_reflect (u' = u ∧ d' = d)) as [[-> ->]|Hne].
  - assert (stored u d (mkDir bs ds) = k :: rest) as -> by (unfold stored; cbn [bundles]; by rewrite Hk).
    destruct (decide (k = "")) as [->|Hkn].
    + rewrite filter_cons_False by by intros (_ & _ & ?). by apply sublist_cons.
    + by rewrite filter_cons_True.
  - rewrite filter_cons_False by by intros (? & ? & _); apply Hne. done.
Qed.
Lemma fetch_each_moves u d now u' devs dir :
  no_bar u = true → no_bar u' = true →
  let '(dir', bs) := fetch_each now u' devs dir in taken u d bs ++ stored u d dir' `sublist_of` stored u d dir.
Proof.
  intros Hu Hu'. revert dir. induction devs as [|d' devs IH]; intros dir; [exact (reflexivity (stored u d dir))|]. cbn [fetch_each].
  pose proof (Fetch_moves u d (now d') u' d' dir Hu Hu') as H1. destruct (Fetch (now d') u' d' dir) as [dir1 b].
  specialize (IH dir1). destruct (fetch_each now u' devs dir1) as [dir2 bs].
  replace (match b with Some b => b :: bs | None => bs end) with (option_list b ++ bs) by by destruct b.
  rewrite taken_app, <- app_assoc. etrans; [|exact H1]. by apply sublist_app.
Qed.

Lemma apply_moves u d o dir :
  no_bar u = true → no_bar (op_user o) = true →
  let '(dir', bs) := apply o dir in taken u d bs ++ stored u d dir' `sublist_of` stored u d dir ++ offered1 u d o.
Proof.
  intros Hu. destruct o as [now u' d' b|now u' d'|now u']; cbn [op_user apply offered1]; intros Hu'.
  - unfold Publish. pose proof (appendCapped_spec (oneTime (default no_keys (bundles dir !! key u' d'))) (KP_PreKeys b)) as Hc.
    destruct (appendCapped _ _) as [out n]. destruct Hc as (Hsuf & _). cbn [fst]. rewrite stored_insert by done.
    cbn [oneTime taken filter fmap]. cbn. case_bool_decide as Hud.
    + destruct Hud as [-> ->]. fold (stored u d dir) in Hsuf. destruct Hsuf as [k Hk].
      etrans; [exact (sublist_inserts_l k _ _ (reflexivity out))|]. rewrite <- Hk. apply sublist_app; [done | apply sublist_take].
    + rewrite app_nil_r. by destruct dir.
  - pose proof (Fetch_moves u d now u' d' dir Hu Hu') as Hf. destruct (Fetch now u' d' dir). by rewrite app_nil_r.
  - rewrite app_nil_r. by apply fetch_each_moves.
Qed.

(** What the directory holds for a device is its last publish, or nothing once that is
    out of date. *)
Definition holds (u d : string) (clock : Z) (l : option (Z * KeyPublishBody)) (dir : memoryDir) : Prop :=
  match l with
  | None => bundles dir !! key u d = None
  | Some (t, b) =>
      (bundles dir !! key u d = None ∧ t + EntryTTL < clock) ∨
      ∃ seen keys, bundles dir !! key u d = Some (mkDeviceKeys (KP_IdentityKey b) (KP_SigningKey b) (KP_SignedPreKey b)
        (KP_SignedPreKeySig b) seen keys (Some (t + EntryTTL)))
  end.

Lemma holds_later u d c c' l dir : holds u d c l dir → c ≤ c' → holds u d c' l dir.
Proof. destruct l as [[t b]|]; [|done]. intros [[? ?]|?] ?; [left; split; [done | lia] | by right]. Qed.

Lemma Fetch_other u d now u' d' dir :
  no_bar u = true → no_bar u' = true → ¬ (u' = u ∧ d' = d) → bundles (Fetch now u' d' dir).1 !! key u d = bundles dir !! key u d.
Proof.
  intros Hu Hu' Hne. unfold Fetch. destruct (bundles dir !! key u' d') as [dk|]; [|done]. case_bool_decide; [done|].
  destruct (after_expiry now dk); cbn [forgetLocked fst bundles]; [by rewrite lookup_delete_ne by by apply key_ne|].
  destruct (oneTime dk); [done|]. cbn [fst bundles]. by rewrite lookup_insert_ne by by apply key_ne.
Qed.
Lemma holds_Fetch u d c l now u' d' dir :
  no_bar u = true → no_bar u' = true → holds u d c l dir → now ≤ c → holds u d c l (Fetch now u' d' dir).1.
Proof.
  intros Hu Hu' Hh Hc. destruct (decide (u' = u ∧ d' = d)) as [[-> ->]|Hne].
  2:{ unfold holds in *. by rewrite Fetch_other by done. }
  unfold Fetch. destruct (bundles dir !! key u d) as [dk|] eqn:Hk; [|done]. case_bool_decide; [done|].
  unfold holds in *. rewrite Hk in Hh. destruct l as [[t b]|]; [|done]. destruct Hh as [[? _]|(seen & keys & [= ->])]; [done|].
  cbn [after_expiry expires]. destruct (Z.ltb_spec (t + EntryTTL) now).
  - left. unfold forgetLocked. cbn [bundles fst]. rewrite lookup_delete_eq. split; [done | lia].
  - right. cbn [oneTime]. destruct keys as [|k keys]; cbn [fst bundles]; [by eexists _, _|]. rewrite lookup_insert_eq. by eexists _, _.
Qed.
Lemma holds_fetch_each u d c l now u' devs dir :
  no_bar u = true → no_bar u' = true → (∀ dev, now dev ≤ c) → holds u d c l dir → holds u d c l (fetch_each now u' devs dir).1.
Proof.
  intros Hu Hu' Hnow. revert dir. induction devs as [|d' devs IH]; intros dir Hh; cbn [fetch_each]; [done|].
  pose proof (holds_Fetch u d c l (now d') u' d' dir Hu Hu' Hh (Hnow d')) as H1. destruct (Fetch (now d') u' d' dir) as [dir1 b].
  specialize (IH dir1 H1). by destruct (fetch_each now u' devs dir1) as [dir2 bs].
Qed.
Lemma holds_run u d ops t t' l dir :
  no_bar u = true → Forall (λ o, no_bar (op_user o) = true) ops → clocked t ops t' → holds u d t l dir →
  holds u d t' (foldl (latest1 u d) l ops) (run ops dir).1.
Proof.
  intros Hu Hops. revert t l dir. induction Hops as [|o ops Ho _ IH]; intros t l dir Hc Hh; [by eapply holds_later|].
  cbn [run foldl]. assert (∃ t1, clocked t1 ops t' ∧ holds u d t1 (latest1 u d l o) (apply o dir).1) as (t1 & Hc1 & H1).
  { destruct o as [now u' d' b|now u' d'|now u']; cbn [clocked op_user apply latest1] in *.
    - destruct Hc as [Htn Hc]. exists now. split; [done|]. apply (holds_later _ _ _ now) in Hh; [|done].
      unfold Publish. destruct (appendCapped _ _) as [keys n]. case_bool_decide as Hud.
      + destruct Hud as [-> ->]. right. cbn [fst bundles]. rewrite lookup_insert_eq. by eexists _, _.
      + unfold holds in *. cbn [fst bundles]. by rewrite lookup_insert_ne by by apply key_ne.
    - destruct Hc as [Htn Hc]. exists now. split; [done|]. apply (holds_later _ _ _ now) in Hh; [|done].
      pose proof (holds_Fetch u d now l now u' d' dir Hu Ho Hh ltac:(lia)) as Hf. by destruct (Fetch now u' d' dir).
    - destruct Hc as (t1 & Hn & Hc). exists t1. split; [done|]. apply holds_fetch_each; [done..| |].
      + intros dev. by apply Hn.
      + eapply holds_later; [done|]. specialize (Hn ""). lia. }
  specialize (IH t1 _ _ Hc1 H1). destruct (apply o dir) as [dir1 bs]. cbn [fst] in IH. by destruct (run ops dir1).
Qed.

(** ** Theorems *)

(** C30: A one-time prekey is handed out at most once.  After any history of publishes and
    fetches by anybody, the keys handed out for a device followed by those still held are
    a subsequence, in order, of the keys the device offered. *)
Theorem prekey_once ops u d :
  no_bar u = true → Forall (λ o, no_bar (op_user o) = true) ops →
  taken u d (run ops NewMemory).2 ++ stored u d (run ops NewMemory).1 `sublist_of` offered u d ops.
Proof.
  intros Hu Hops. assert (∀ dir, taken u d (run ops dir).2 ++ stored u d (run ops dir).1 `sublist_of` stored u d dir ++ offered u d ops) as Hgen.
  { induction Hops as [|o ops Ho _ IH]; intros dir; [by rewrite app_nil_r|]. cbn [run].
    pose proof (apply_moves u d o dir Hu Ho) as H1. destruct (apply o dir) as [dir1 bs]. specialize (IH dir1).
    destruct (run ops dir1) as [dir2 bs']. cbn [fst snd] in *. rewrite taken_app, <- app_assoc. unfold offered in *. cbn [mbind list_bind].
    etrans; [apply sublist_app; [done | exact IH]|]. rewrite !app_assoc. apply sublist_app; [|done]. done. }
  specialize (Hgen NewMemory). unfold stored at 2, NewMemory at 3 in Hgen. cbn [bundles] in Hgen. by rewrite lookup_empty in Hgen.
Qed.

(** The directory answers for the devices that published within the last ninety days,
    and with what they published last.  Whatever else was called before, a fetch at [now]
    of a device whose last publish was at [t] returns the keys of that publish, and the
    first one-time key still held, when [now] is at most [t] plus the lifetime; otherwise
    it finds nothing. *)
Theorem served_exact ops t0 now u d :
  no_bar u = true → Forall (λ o, no_bar (op_user o) = true) ops → clocked t0 ops now →
  (Fetch now u d (run ops NewMemory).1).2 =
  match latest u d ops with
  | Some (t, b) =>
      if bool_decide (KP_IdentityKey b = "") || (t + EntryTTL <? now) then None
      else Some (mkKeyBundle u d (KP_IdentityKey b) (KP_SigningKey b) (KP_SignedPreKey b) (KP_SignedPreKeySig b)
             (default "" (head (stored u d (run ops NewMemory).1))))
  | None => None
  end.
Proof.
  intros Hu Hops Hc. assert (holds u d now (latest u d ops) (run ops NewMemory).1) as Hh.
  { eapply holds_run; [done..|]. cbn. apply lookup_empty. }
  unfold Fetch, stored. destruct (latest u d ops) as [[t b]|]; cbn [holds] in Hh; [|by rewrite Hh].
  destruct Hh as [[Hk Ht]|(seen & keys & Hk)]; rewrite Hk.
  - rewrite (proj2 (Z.ltb_lt _ _)), orb_true_r by done. done.
  - cbn [identityKey after_expiry expires default oneTime]. case_bool_decide; [done|]. cbn [orb]. case_match; [done|]. by destruct keys.
Qed.

(** A publish reports what is now held.  The frame's first 128 one-time keys are all
    kept, after the newest of those held before, 256 in all at most; [Accepted] counts the
    first and [OneTimePreKeysLeft] all of them. *)
Theorem Publish_reports now u d b dir :
  let '(dir', st) := Publish now u d b dir in
  Accepted st = Z.min (len (KP_PreKeys b)) MaxPreKeysPerPublish ∧
  OneTimePreKeysLeft st = Z.min (len (stored u d dir) + Accepted st) MaxOneTimePreKeys ∧
  OneTimePreKeysLeft st = len (stored u d dir') ∧
  stored u d dir' `suffix_of` stored u d dir ++ ztake MaxPreKeysPerPublish (KP_PreKeys b) ∧
  ztake MaxPreKeysPerPublish (KP_PreKeys b) `suffix_of` stored u d dir'.
Proof.
  unfold Publish. fold (stored u d dir). pose proof (appendCapped_spec (stored u d dir) (KP_PreKeys b)) as Hc.
  destruct (appendCapped _ _) as [out n]. destruct Hc as (H1 & H2 & H3 & H4). cbn [Accepted OneTimePreKeysLeft].
  assert (stored u d (mkDir (<[key u d := mkDeviceKeys (KP_IdentityKey b) (KP_SigningKey b) (KP_SignedPreKey b) (KP_SignedPreKeySig b)
    (if bool_decide (signedPreKey (default no_keys (bundles dir !! key u d)) = KP_SignedPreKey b)
     then spkFirstSeen (default no_keys (bundles dir !! key u d)) else Some now) out (Some (now + EntryTTL))]> (bundles dir))
    match bundles dir !! key u d with Some _ => devices dir
    | None => <[u := default [] (devices dir !! u) ++ [d]]> (devices dir) end) = out) as ->.
  { unfold stored. cbn [bundles]. by rewrite lookup_insert_eq. }
  by subst n.
Qed.

(** ** Witnesses *)
Definition w_keys : KeyPublishBody := mkKeyPublish "ik" "sk" "spk" "sig" ["k1"; "k2"].
Definition w_history : list op :=
  [OPublish 1 "7" "phone" w_keys; OFetch 2 "7" "phone"; OFetchAll (λ _, 3) "7"; OPublish 4 "7" "phone" w_keys].

Lemma prekey_once_witness : taken "7" "phone" (run w_history NewMemory).2 = ["k1"; "k2"] ∧
  taken "7" "phone" (run w_history NewMemory).2 ++ stored "7" "phone" (run w_history NewMemory).1 `sublist_of` ["k1"; "k2"; "k1"; "k2"].
Proof. split; [by vm_compute|]. apply (prekey_once w_history "7" "phone"); [done | by repeat constructor]. Defined.

Lemma served_exact_witness :
  (Fetch 5 "7" "phone" (run w_history NewMemory).1).2 = Some (mkKeyBundle "7" "phone" "ik" "sk" "spk" "sig" "k1").
Proof.
  etrans; [apply (served_exact w_history 0 5 "7" "phone")|by vm_compute]; [done | by repeat constructor|].
  cbn. split; [lia|]. split; [lia|]. exists 3. split; [lia|]. lia.
Defined.
