(* ===== verification/SecretQueue.v ===== *)
(** * The queue of undelivered ciphertext

    [internal/store/memory] secretqueue.go, and the collector of [internal/gateway]
    secretqueue.go that keeps its retention promise.  Times are in milliseconds. *)

From S2P Require Import Prelude Bytes.

Record SecretEnvelope := mkSecretEnvelope {
  Env_ID : string;
  Env_ToUserID : string;
  Env_ToDeviceID : string;
  Env_FromUserID : string;
  Env_FromDeviceID : string;
  Env_Header : bytes;
  Env_Ciphertext : bytes;
  Env_CreatedAt : Z;
  Env_ExpiresAt : Z;
}.

Definition secretQueueTTL : Z := 14 * 24 * 3600 * 1000.
Definition maxQueuedPerDevice : Z := 1000.
Definition secretPurgeBatch : Z := 500.

Abbreviation SecretQ := (gmap string (list SecretEnvelope)).

Definition secretKey (userID deviceID : string) : string := userID +:+ "|" +:+ deviceID.
Definition queue (u d : string) (m : SecretQ) : list SecretEnvelope := default [] (m !! secretKey u d).

Definition EnqueueSecret (e : SecretEnvelope) (maxPerDevice : Z) : M SecretQ unit := modify (λ m,
  let q := queue (Env_ToUserID e) (Env_ToDeviceID e) m ++ [e] in
  let q := if (0 <? maxPerDevice) && (maxPerDevice <? len q) then zdrop (len q - maxPerDevice) q else q in
  <[secretKey (Env_ToUserID e) (Env_ToDeviceID e) := q]> m).

(** The rows behind the cursor; an empty one is before the first row. *)
Fixpoint behind (afterID : string) (q : list SecretEnvelope) : list SecretEnvelope :=
  match q with
  | [] => []
  | e :: q => if bool_decide (Env_ID e = afterID) then q else behind afterID q
  end.
Definition PendingSecrets (toUserID toDeviceID afterID : string) (limit : Z) : M SecretQ (list SecretEnvelope) := gets (λ m,
  let limit := if limit <=? 0 then 100 else limit in
  let q := queue toUserID toDeviceID m in
  ztake limit (if bool_decide (afterID = "") then q else behind afterID q)).

(** [kept] is written back, or the key dropped when nothing is kept. *)
Definition put_queue (k : string) (kept : list SecretEnvelope) (m : SecretQ) : SecretQ :=
  match kept with [] => delete k m | _ => <[k := kept]> m end.

Definition AckSecrets (toUserID toDeviceID : string) (ids : list string) : M SecretQ Z := λ m,
  if len ids =? 0 then (m, Ok 0)
  else
    let q := queue toUserID toDeviceID m in
    let kept := filter (λ e, Env_ID e ∉ ids) q in
    (put_queue (secretKey toUserID toDeviceID) kept m, Ok (len q - len kept)).

Definition expired (now : Z) (e : SecretEnvelope) : bool := negb (Env_ExpiresAt e =? 0) && (Env_ExpiresAt e <=? now).
Fixpoint purge_queue (now limit : Z) (q : list SecretEnvelope) (n : Z) : list SecretEnvelope * Z :=
  match q with
  | [] => ([], n)
  | e :: q =>
      if expired now e && (n <? limit) then purge_queue now limit q (n + 1)
      else let '(kept, n) := purge_queue now limit q n in (e :: kept, n)
  end.
Fixpoint purge_rows (now limit : Z) (rows : list (string * list SecretEnvelope)) (n : Z) (m : SecretQ) : SecretQ * Z :=
  match rows with
  | [] => (m, n)
  | (k, q) :: rows => let '(kept, n) := purge_queue now limit q n in purge_rows now limit rows n (put_queue k kept m)
  end.

Section collector.
Context `{RangeOrder}.
Definition PurgeExpiredSecrets (now limit : Z) : M SecretQ Z := λ m,
  let limit := if limit <=? 0 then 1000 else limit in
  let '(m', n) := purge_rows now limit (range_map m) 0 m in (m', Ok n).

(** [purgeSecretQueue], with [fuel] batches; [true] when it caught up. *)
Fixpoint purgeSecretQueue (fuel : nat) (now : Z) : M SecretQ bool :=
  match fuel with
  | O => mret false
  | S fuel =>
      n ← PurgeExpiredSecrets now secretPurgeBatch;
      if n <? secretPurgeBatch then mret true else purgeSecretQueue fuel now
  end.
End collector.

(** ** Histories *)

Inductive op :=
  | OEnqueue (e : SecretEnvelope)
  | OAck (u d : string) (ids : list string)
  | OPurge (now limit : Z).
Definition apply `{RangeOrder} (o : op) (m : SecretQ) : SecretQ :=
  match o with
  | OEnqueue e => (EnqueueSecret e maxQueuedPerDevice m).1
  | OAck u d ids => (AckSecrets u d ids m).1
  | OPurge now limit => (PurgeExpiredSecrets now limit m).1
  end.
(** The ways a queued envelope may leave: its device acknowledges it, or it expires. *)
Definition spares (e : SecretEnvelope) (o : op) : bool :=
  match o with
  | OEnqueue e' => no_bar (Env_ToUserID e')
  | OAck u d ids =>
      no_bar u && negb (bool_decide (u = Env_ToUserID e ∧ d = Env_ToDeviceID e ∧ Env_ID e ∈ ids))
  | OPurge now _ => negb (expired now e)
  end.
Definition same_device (e : SecretEnvelope) (o : op) : Prop :=
  match o with OEnqueue e' => Env_ToUserID e' = Env_ToUserID e ∧ Env_ToDeviceID e' = Env_ToDeviceID e | _ => False end.
#[global] Instance same_device_dec e o : Decision (same_device e o).
Proof. destruct o; cbn; apply _. Defined.

(** A device reading its queue: pages from a cursor until one is short. *)
Fixpoint sync_pages (fuel : nat) (u d after : string) (limit : Z) (m : SecretQ) (out : list SecretEnvelope)
    : option (list SecretEnvelope) :=
  match fuel with
  | O => None
  | S fuel =>
      match (PendingSecrets u d after limit m).2 with
      | Err _ => None
      | Ok page =>
          if len page <? limit then Some (out ++ page)
          else sync_pages fuel u d (default "" (Env_ID <$> last page)) limit m (out ++ page)
      end
  end.

(** ** Lemmas *)

Abbreviation live now := (λ e, expired now e = false) (only parsing).
Definition at_key (k : string) (m : SecretQ) : list SecretEnvelope := default [] (m !! k).

Lemma at_put_queue k k' kept m : at_key k' (put_queue k kept m) = if bool_decide (k = k') then kept else at_key k' m.
Proof.
  unfold at_key, put_queue. destruct (bool_decide_reflect (k = k')) as [<-|Hne]; destruct kept;
    by rewrite ?lookup_delete_eq, ?lookup_insert_eq, ?lookup_delete_ne, ?lookup_insert_ne by done.
Qed.
Lemma queue_put u d u' d' kept m :
  no_bar u = true → no_bar u' = true →
  queue u d (put_queue (secretKey u' d') kept m) = if bool_decide (u' = u ∧ d' = d) then kept else queue u d m.
Proof.
  intros Hu Hu'. unfold queue. fold (at_key (secretKey u d) (put_queue (secretKey u' d') kept m)) (at_key (secretKey u d) m).
  rewrite at_put_queue. destruct (bool_decide_reflect (secretKey u' d' = secretKey u d)) as [He|Hne].
  - apply bar_key_inj in He as [-> ->]; [|done..]. by rewrite bool_decide_true.
  - rewrite bool_decide_false; [done|]. by intros [-> ->].
Qed.
Lemma EnqueueSecret_put e max m :
  (EnqueueSecret e max m).1 = put_queue (secretKey (Env_ToUserID e) (Env_ToDeviceID e))
    (let q := queue (Env_ToUserID e) (Env_ToDeviceID e) m ++ [e] in
     if (0 <? max) && (max <? len q) then zdrop (len q - max) q else q) m.
Proof.
  unfold EnqueueSecret, modify. cbn [fst]. set (q := queue _ _ m). cbv zeta. set (l := if (0 <? max) && (max <? len (q ++ [e])) then zdrop (len (q ++ [e]) - max) (q ++ [e]) else q ++ [e]).
  assert (l ≠ []) as Hl; [|by destruct l].
  subst l. case_match eqn:E; [|by destruct q]. apply andb_true_iff in E as [E1 E2]. bool_to_prop.
  intros Hd%(f_equal len). unfold zdrop, len in *. rewrite length_drop in Hd. cbn in Hd. lia.
Qed.

Section purge.
Context (now limit : Z).
#[local] Abbreviation pq := (purge_queue now limit).

Lemma purge_queue_spec q n :
  n ≤ limit → let '(kept, n') := pq q n in
  n ≤ n' ≤ limit ∧ len kept + n' = len q + n ∧ filter (live now) kept = filter (live now) q ∧
  (n' < limit → kept = filter (live now) q).
Proof.
  revert n. induction q as [|e q IH]; intros n Hn; cbn [purge_queue]; [by split_and!; rewrite ?len_nil; try lia|].
  rewrite (filter_cons (live now) e q). destruct (expired now e) eqn:Ee; cbn [andb].
  - rewrite decide_False by done. destruct (Z.ltb_spec n limit).
    + specialize (IH (n + 1) ltac:(lia)). destruct (pq q (n + 1)) as [kept n']. destruct IH as (? & ? & ? & ?).
      rewrite len_cons. split_and!; [lia | lia | lia | done | done].
    + specialize (IH n Hn). destruct (pq q n) as [kept n']. destruct IH as (? & ? & ? & ?). rewrite !len_cons, filter_cons.
      rewrite decide_False by (by rewrite Ee). split_and!; [lia | lia | lia | done | lia].
  - rewrite decide_True by done. specialize (IH n Hn). destruct (pq q n) as [kept n']. destruct IH as (? & ? & Hf & Hk).
    rewrite !len_cons, filter_cons, decide_True, Hf by done. split_and!; [lia | lia | lia | done |]. intros Hlt. by rewrite <- Hk.
Qed.
Lemma purge_queue_split e pre post n :
  expired now e = false →
  ∃ pre' post' n', pq (pre ++ e :: post) n = (pre' ++ e :: post', n') ∧ len post' ≤ len post.
Proof.
  intros He. revert n. induction pre as [|x pre IH]; intros n; cbn [app purge_queue].
  - rewrite He. cbn [andb]. destruct (pq post n) as [kept n'] eqn:E. exists [], kept, n'. split; [done|].
    clear -E. revert n kept n' E. induction post as [|x post IH]; intros n kept n'; cbn [purge_queue]; [by intros [= <- _]|].
    rewrite len_cons. case_match; [intros E; apply IH in E; lia|]. destruct (pq post n) as [kept1 n1] eqn:E.
    intros [= <- <-]. apply IH in E. rewrite len_cons. lia.
  - case_match; [apply IH|]. destruct (IH n) as (pre' & post' & n' & -> & ?). by exists (x :: pre'), post', n'.
Qed.
Lemma purge_rows_spec rows n m :
  NoDup rows.*1 → (∀ k q, (k, q) ∈ rows → m !! k = Some q) → n ≤ limit →
  let '(m', n') := purge_rows now limit rows n m in n ≤ n' ≤ limit ∧
  ∀ k, if bool_decide (k ∈ rows.*1) then ∃ n0, n0 ≤ limit ∧ (pq (at_key k m) n0).2 ≤ n' ∧ at_key k m' = (pq (at_key k m) n0).1
       else at_key k m' = at_key k m.
Proof.
  revert n m. induction rows as [|[k q] rows IH]; intros n m Hnd Hrows Hn; cbn [purge_rows]; [split; [lia|]; done|].
  apply NoDup_cons in Hnd as [Hk Hnd]. pose proof (purge_queue_spec q n Hn) as Hq. destruct (pq q n) as [kept n1] eqn:Eq.
  destruct Hq as (Hn1 & _). assert (m !! k = Some q) as Hmk by (apply Hrows; by left).
  specialize (IH n1 (put_queue k kept m) Hnd). destruct (purge_rows now limit rows n1 (put_queue k kept m)) as [m' n'].
  destruct IH as [Hn' Hall]; [|lia|].
  { intros k' q' Hin. assert (k ≠ k') by (intros ->; apply Hk, list_elem_of_fmap; by exists (k', q')).
    specialize (Hrows k' q' ltac:(by right)). unfold put_queue. destruct kept; by rewrite ?lookup_delete_ne, ?lookup_insert_ne. }
  split; [lia|]. intros k'. specialize (Hall k'). rewrite at_put_queue in Hall. cbn [fmap list_fmap fst].
  destruct (decide (k' = k)) as [->|Hne].
  - rewrite (bool_decide_true (k ∈ _)) by (by left). rewrite bool_decide_false in Hall by done. rewrite bool_decide_true in Hall by done.
    assert (at_key k m = q) as -> by (unfold at_key; by rewrite Hmk). exists n. rewrite Eq. split_and!; [lia | cbn; lia | done].
  - rewrite (bool_decide_false (k = k')) in Hall by done.
    rewrite (bool_decide_ext (k' ∈ k :: rows.*1) (k' ∈ rows.*1)) by (rewrite elem_of_cons; tauto). done.
Qed.
End purge.

Section queues.
Context `{RangeOrder}.

(** How many envelopes are queued in all. *)
Definition total (m : SecretQ) : Z := zsum (len <$> (range_map m).*2).

Lemma total_nonneg m : 0 ≤ total m.
Proof.
  unfold total. induction (range_map m).*2 as [|q l IH]; [done|]. rewrite fmap_cons, zsum_cons.
  pose proof (len_nonneg q). lia.
Qed.
Lemma total_put k q kept m : m !! k = Some q → total (put_queue k kept m) = total m - len q + len kept.
Proof.
  intros Hk. unfold total. rewrite (range_map_delete m k q Hk). rewrite !fmap_cons, zsum_cons. cbn [snd].
  destruct kept as [|e kept]; cbn [put_queue]; [rewrite len_nil; lia|].
  rewrite range_map_insert, !fmap_cons, zsum_cons. cbn [snd]. lia.
Qed.
Lemma purge_rows_total now limit rows n m :
  NoDup rows.*1 → (∀ k q, (k, q) ∈ rows → m !! k = Some q) → n ≤ limit →
  let '(m', n') := purge_rows now limit rows n m in total m' + n' = total m + n.
Proof.
  revert n m. induction rows as [|[k q] rows IH]; intros n m Hnd Hrows Hn; cbn [purge_rows]; [done|].
  apply NoDup_cons in Hnd as [Hk Hnd]. pose proof (purge_queue_spec now limit q n Hn) as Hq.
  destruct (purge_queue now limit q n) as [kept n1]. destruct Hq as (Hn1 & Hlen & _).
  assert (m !! k = Some q) as Hmk by (apply Hrows; by left).
  specialize (IH n1 (put_queue k kept m) Hnd). destruct (purge_rows now limit rows n1 (put_queue k kept m)) as [m' n'].
  rewrite IH; [rewrite (total_put k q kept m Hmk); lia | | lia].
  intros k' q' Hin. assert (k ≠ k') by (intros ->; apply Hk, list_elem_of_fmap; by exists (k', q')).
  specialize (Hrows k' q' ltac:(by right)). unfold put_queue. destruct kept; by rewrite ?lookup_delete_ne, ?lookup_insert_ne.
Qed.

Lemma PurgeExpiredSecrets_spec now limit m :
  let limit := if limit <=? 0 then 1000 else limit in
  ∃ m' n, PurgeExpiredSecrets now limit m = (m', Ok n) ∧ 0 ≤ n ≤ limit ∧ total m' + n = total m ∧
    ∀ k, ∃ n0, n0 ≤ limit ∧ (purge_queue now limit (at_key k m) n0).2 ≤ n ∧ at_key k m' = (purge_queue now limit (at_key k m) n0).1.
Proof.
  intros lim. assert (0 < lim) as Hlim by (subst lim; case_match; bool_to_prop; lia).
  unfold PurgeExpiredSecrets. rewrite (proj2 (Z.leb_gt lim 0)) by lia.
  pose proof (purge_rows_spec now lim (range_map m) 0 m (NoDup_range_keys m)) as Hp.
  pose proof (purge_rows_total now lim (range_map m) 0 m (NoDup_range_keys m)) as Htot.
  assert (∀ k q, (k, q) ∈ range_map m → m !! k = Some q) as Hrows by (intros k q; apply elem_of_range_map).
  destruct (purge_rows now lim (range_map m) 0 m) as [m' n]. destruct Hp as [Hn Hall]; [done | lia|].
  exists m', n. split; [done|]. split; [lia|]. split; [rewrite Htot; [lia | done | lia]|]. intros k. specialize (Hall k). case_bool_decide as Hk; [done|].
  assert (at_key k m = []) as Ek.
  { unfold at_key. destruct (m !! k) as [q|] eqn:E; [|done]. destruct Hk. apply list_elem_of_fmap. exists (k, q). split; [done|].
    by apply elem_of_range_map. }
  exists 0. rewrite Ek in Hall |- *. cbn. split_and!; [lia | lia | done].
Qed.

(** [e] is queued, with at most [n] envelopes behind it. *)
Definition at_tail (e : SecretEnvelope) (n : Z) (m : SecretQ) : Prop :=
  ∃ pre post, queue (Env_ToUserID e) (Env_ToDeviceID e) m = pre ++ e :: post ∧ len post ≤ n.

Lemma tail_drop {A} k (pre post : list A) e :
  (k ≤ length pre)%nat → drop k (pre ++ e :: post) = drop k pre ++ e :: post.
Proof. intros. by rewrite drop_app_le. Qed.

Lemma at_tail_step e n o m :
  no_bar (Env_ToUserID e) = true → at_tail e n m → spares e o = true →
  (same_device e o → n + 1 < maxQueuedPerDevice) →
  at_tail e (n + if bool_decide (same_device e o) then 1 else 0) (apply o m).
Proof.
  intros Hu (pre & post & Hq & Hl) Hs Hroom.
  destruct (bool_decide_reflect (same_device e o)) as [Hd|Hd]; destruct o as [e'|u d ids|now limit]; cbn [apply spares same_device] in *; try done.
  - rewrite EnqueueSecret_put. unfold at_tail. rewrite queue_put, bool_decide_true by done.
    specialize (Hroom Hd). destruct Hd as [-> ->]. rewrite Hq. cbv zeta. rewrite <- app_assoc. cbn [app].
    unfold zdrop, len, maxQueuedPerDevice in *. rewrite length_app. cbn [length]. rewrite length_app. cbn [length].
    case_match; [|exists pre, (post ++ [e']); split; [done|]; rewrite length_app; cbn; lia].
    rewrite tail_drop by lia. eexists _, (post ++ [e']). split; [done|]. rewrite length_app. cbn. lia.
  - rewrite EnqueueSecret_put, Z.add_0_r. unfold at_tail. rewrite queue_put, bool_decide_false by done. by exists pre, post.
  - apply andb_prop in Hs as [Hu' Hs]. apply negb_true_iff, bool_decide_eq_false in Hs. rewrite Z.add_0_r. unfold AckSecrets. destruct (len ids =? 0); [by exists pre, post|]. cbn [fst].
    unfold at_tail. rewrite queue_put by done. destruct (bool_decide_reflect (u = Env_ToUserID e ∧ d = Env_ToDeviceID e)) as [[-> ->]|Hd2]; [|by exists pre, post].
    rewrite Hq, filter_app, filter_cons_True by tauto. eexists _, _. split; [done|]. etrans; [|exact Hl].
    unfold len. apply Nat2Z.inj_le, length_filter.
  - apply negb_true_iff in Hs. rewrite Z.add_0_r. destruct (PurgeExpiredSecrets_spec now limit m) as (m' & n' & Hp & _ & _ & Hall).
    assert ((PurgeExpiredSecrets now limit m).1 = m') as ->.
    { revert Hp. unfold PurgeExpiredSecrets. destruct (limit <=? 0) eqn:El; [|rewrite El]; destruct (purge_rows _ _ _ _ _); by intros [= <-]. }
    destruct (Hall (secretKey (Env_ToUserID e) (Env_ToDeviceID e))) as (n0 & _ & _ & Hk). unfold at_tail, queue in *.
    fold (at_key (secretKey (Env_ToUserID e) (Env_ToDeviceID e)) m) in Hq. fold (at_key (secretKey (Env_ToUserID e) (Env_ToDeviceID e)) m').
    rewrite Hk, Hq. destruct (purge_queue_split now (if limit <=? 0 then 1000 else limit) e pre post n0 Hs) as (pre' & post' & n1 & -> & ?).
    exists pre', post'. split; [done | lia].
Qed.

Lemma behind_split e pre post : Env_ID e ∉ Env_ID <$> pre → behind (Env_ID e) (pre ++ e :: post) = post.
Proof.
  induction pre as [|x pre IH]; cbn [app behind]; intros Hn; [by rewrite bool_decide_true|].
  rewrite bool_decide_false by (intros Hx; apply Hn; rewrite fmap_cons, Hx; by left). apply IH. intros Hin. apply Hn. by right.
Qed.
Lemma behind_none after q : after ∉ Env_ID <$> q → behind after q = [].
Proof.
  induction q as [|e q IH]; [done|]. cbn [behind]. intros Hn. rewrite bool_decide_false by (intros <-; apply Hn; by left).
  apply IH. intros Hin. apply Hn. by right.
Qed.
Lemma PendingSecrets_run u d after limit m :
  0 < limit → PendingSecrets u d after limit m =
  (m, Ok (ztake limit (if bool_decide (after = "") then queue u d m else behind after (queue u d m)))).
Proof. intros. unfold PendingSecrets, gets. by rewrite (proj2 (Z.leb_gt _ _)) by done. Qed.

Lemma sync_pages_rest fuel u d limit m out after rest :
  0 < limit → NoDup (Env_ID <$> queue u d m) → Forall (λ e, Env_ID e ≠ "") (queue u d m) →
  (after = "" ∧ rest = queue u d m ∨ ∃ pre e, queue u d m = pre ++ e :: rest ∧ after = Env_ID e) →
  len rest < limit * Z.of_nat fuel → sync_pages fuel u d after limit m out = Some (out ++ rest).
Proof.
  intros Hl Hnd Hne. revert out after rest. induction fuel as [|fuel IH]; intros out after rest Hcur Hf.
  { pose proof (len_nonneg rest). lia. }
  cbn [sync_pages]. rewrite PendingSecrets_run by done. cbn [snd].
  assert ((if bool_decide (after = "") then queue u d m else behind after (queue u d m)) = rest) as ->.
  { destruct Hcur as [[-> ->]|(pre & e & Hq & ->)]; [done|]. rewrite Hq in Hnd, Hne |- *. apply Forall_app in Hne as [_ [He _]%Forall_cons].
    rewrite bool_decide_false by done. apply behind_split. rewrite fmap_app, fmap_cons in Hnd.
    apply NoDup_app in Hnd as (_ & Hx & _). intros Hin. apply (Hx _ Hin). by left. }
  destruct (Z.ltb_spec (len (ztake limit rest)) limit) as [Hlt|Hge].
  - f_equal. f_equal. unfold ztake, len in *. rewrite length_take in Hlt. apply take_ge. lia.
  - destruct (last (ztake limit rest)) as [e|] eqn:El; [|apply last_None in El; rewrite El in Hge; unfold len in Hge; cbn in Hge; lia].
    apply last_Some in El as [page El]. assert (rest = (page ++ [e]) ++ zdrop limit rest) as Hr by (rewrite <- El; unfold ztake, zdrop; by rewrite take_drop).
    cbn [fmap option_fmap option_map default from_option id]. rewrite (IH _ _ (zdrop limit rest)).
    + rewrite <- app_assoc. by rewrite El, <- Hr.
    + right. destruct Hcur as [[_ ->]|(pre & e0 & Hq & _)].
      * exists page, e. split; [|done]. rewrite Hr at 1. by rewrite <- app_assoc.
      * exists (pre ++ e0 :: page), e. split; [|done]. rewrite Hq, Hr at 1. rewrite <- !app_assoc. done.
    + unfold zdrop, len in *. rewrite length_drop. unfold ztake in Hge. rewrite length_take in Hge. lia.
Qed.

(** ** Theorems *)

(** C29: Queued ciphertext waits for its device.  Once enqueued, an envelope is still in its
    device's queue after any calls by anybody, provided its own device did not acknowledge
    it, it has not expired, and fewer than a thousand later envelopes were queued for that
    device. *)
Theorem queued_until_acked e os m :
  no_bar (Env_ToUserID e) = true → forallb (spares e) os = true →
  len (filter (same_device e) os) < maxQueuedPerDevice →
  e ∈ queue (Env_ToUserID e) (Env_ToDeviceID e) (foldl (λ m o, apply o m) (EnqueueSecret e maxQueuedPerDevice m).1 os).
Proof.
  intros Hu Hs Hn. assert (∀ os m n, at_tail e n m → forallb (spares e) os = true →
    n + len (filter (same_device e) os) < maxQueuedPerDevice → ∃ n', at_tail e n' (foldl (λ m o, apply o m) m os)) as Hgen.
  { clear os m Hs Hn. intros os. induction os as [|o os IH]; intros m n Ht Hs Hn; [by exists n|]. cbn [foldl forallb] in *.
    apply andb_prop in Hs as [Ho Hs]. rewrite filter_cons in Hn.
    assert (same_device e o → n + 1 < maxQueuedPerDevice) as Hroom.
    { intros Hd. rewrite decide_True, len_cons in Hn by done. pose proof (len_nonneg (filter (same_device e) os)). lia. }
    eapply IH; [by apply (at_tail_step e n o m)|done|]. case_bool_decide; [rewrite decide_True, len_cons in Hn by done | rewrite decide_False in Hn by done]; lia. }
  destruct (Hgen os (EnqueueSecret e maxQueuedPerDevice m).1 0) as (n' & pre & post & -> & _); [|done|lia|set_solver].
  rewrite EnqueueSecret_put. unfold at_tail. rewrite queue_put, bool_decide_true by done. set (q := queue _ _ m). cbv zeta.
  unfold zdrop, len, maxQueuedPerDevice. rewrite length_app. cbn [length].
  case_match; [|by exists q, []]. rewrite tail_drop by lia. by eexists _, [].
Qed.

(** The retention promise is kept.  A pass of the collector returns, having removed from
    every queue exactly the expired envelopes and left the others in order; [fuel] batches
    are enough when they exceed what is queued. *)
Theorem purge_complete fuel now m :
  total m < Z.of_nat fuel →
  ∃ m', purgeSecretQueue fuel now m = (m', Ok true) ∧ ∀ k, at_key k m' = filter (live now) (at_key k m).
Proof.
  revert m. induction fuel as [|fuel IH]; intros m Hf; [pose proof (total_nonneg m); lia|]. cbn [purgeSecretQueue].
  destruct (PurgeExpiredSecrets_spec now secretPurgeBatch m) as (m1 & n & Hp & Hn & Htot & Hall). cbn in Hp, Hn, Hall.
  rewrite (bind_Ok _ _ _ _ _ Hp). destruct (Z.ltb_spec n secretPurgeBatch) as [Hlt|Hge].
  - exists m1. split; [done|]. intros k. destruct (Hall k) as (n0 & Hn0 & Hle & ->).
    pose proof (purge_queue_spec now secretPurgeBatch (at_key k m) n0 Hn0) as Hq.
    destruct (purge_queue _ _ _ _) as [kept n']. apply Hq. cbn in Hle. lia.
  - destruct (IH m1) as (m2 & H2 & Hk2); [unfold secretPurgeBatch in *; lia|]. exists m2. split; [done|]. intros k. rewrite Hk2.
    destruct (Hall k) as (n0 & Hn0 & _ & ->). pose proof (purge_queue_spec now secretPurgeBatch (at_key k m) n0 Hn0) as Hq.
    destruct (purge_queue _ _ _ _) as [kept n']. apply Hq.
Qed.

(** An acknowledgement is scoped to its device.  It removes from the caller's own queue
    the envelopes named, reports how many, and leaves every other queue alone. *)
Theorem AckSecrets_scoped u d ids m :
  no_bar u = true →
  let '(m', r) := AckSecrets u d ids m in
  queue u d m' = filter (λ e, Env_ID e ∉ ids) (queue u d m) ∧ r = Ok (len (filter (λ e, Env_ID e ∈ ids) (queue u d m))) ∧
  ∀ u' d', no_bar u' = true → ¬ (u' = u ∧ d' = d) → queue u' d' m' = queue u' d' m.
Proof.
  intros Hu. unfold AckSecrets. destruct (Z.eqb_spec (len ids) 0) as [Hz|Hz].
  - assert (ids = []) as -> by (destruct ids; [done|]; rewrite len_cons in Hz; pose proof (len_nonneg ids); lia).
    rewrite filter_Forall by (apply Forall_forall; intros; apply not_elem_of_nil).
    rewrite filter_none by (apply Forall_forall; intros; apply not_elem_of_nil). done.
  - split; [rewrite queue_put by done; by rewrite bool_decide_true|]. split.
    + f_equal. generalize (queue u d m). intros q. induction q as [|e q IH]; [done|]. rewrite !filter_cons.
      destruct (decide (Env_ID e ∈ ids)); [rewrite decide_False by tauto | rewrite decide_True by done]; rewrite !len_cons; lia.
    + intros u' d' Hu' Hne. rewrite queue_put, bool_decide_false by (done || (intros [-> ->]; by apply Hne)). done.
Qed.

(** A sync returns the whole backlog.  A device that pages through its queue from the
    start, acknowledging nothing meanwhile, gets every envelope once, oldest first. *)
Theorem sync_complete fuel u d limit m :
  0 < limit → NoDup (Env_ID <$> queue u d m) → Forall (λ e, Env_ID e ≠ "") (queue u d m) →
  len (queue u d m) < limit * Z.of_nat fuel → sync_pages fuel u d "" limit m [] = Some (queue u d m).
Proof. intros. apply (sync_pages_rest fuel u d limit m [] "" (queue u d m)); [done..| |done]. by left. Qed.

(** Acknowledging a page strands the rest of the walk.  A device that takes the first
    page, acknowledges it, and asks for what follows the last id it got is told there is
    nothing, whatever still waits: the cursor names an envelope that is gone. *)
Theorem acked_cursor_stalls u d limit m page m1 :
  no_bar u = true → 0 < limit < len (queue u d m) → NoDup (Env_ID <$> queue u d m) → Forall (λ e, Env_ID e ≠ "") (queue u d m) →
  page = ztake limit (queue u d m) → m1 = (AckSecrets u d (Env_ID <$> page) m).1 →
  PendingSecrets u d "" limit m = (m, Ok page) ∧
  PendingSecrets u d (default "" (Env_ID <$> last page)) limit m1 = (m1, Ok []) ∧
  queue u d m1 = zdrop limit (queue u d m) ∧ queue u d m1 ≠ [].
Proof.
  intros Hu Hl Hnd Hne -> ->. set (q := queue u d m) in *. set (page := ztake limit q).
  assert (page ≠ []) as Hp by (intros Hp%(f_equal len); unfold page, ztake, len in *; rewrite length_take in Hp; cbn in Hp; lia).
  assert (q = page ++ zdrop limit q) as Hq by (unfold page, ztake, zdrop; by rewrite take_drop).
  assert (queue u d (AckSecrets u d (Env_ID <$> page) m).1 = zdrop limit q) as Hq1.
  { unfold AckSecrets. destruct (Z.eqb_spec (len (Env_ID <$> page)) 0) as [Hz|_]; [unfold len in Hz; rewrite length_fmap in Hz; destruct page; [done|]; cbn in Hz; lia|].
    cbn [fst]. rewrite queue_put, bool_decide_true by done. fold q. rewrite Hq at 1. rewrite Hq, fmap_app in Hnd. apply NoDup_app in Hnd as (_ & Hx & _).
    rewrite filter_app, filter_none, filter_Forall; [done|..]; apply Forall_forall; intros e He.
    - intros Hin. apply (Hx _ Hin). by apply list_elem_of_fmap_2.
    - intros Hnin. apply Hnin. by apply list_elem_of_fmap_2. }
  rewrite !PendingSecrets_run by lia. rewrite Hq1. split; [done|]. split; [|split; [done|]].
  - f_equal. f_equal. destruct (last page) as [e|] eqn:El; [|by apply last_None in El]. cbn [fmap option_fmap option_map default from_option id].
    assert (e ∈ page) as He by by apply last_Some_elem_of.
    rewrite Hq in Hne, Hnd. apply Forall_app in Hne as [Hne _]. rewrite Forall_forall in Hne. rewrite bool_decide_false by by apply Hne.
    rewrite fmap_app in Hnd. apply NoDup_app in Hnd as (_ & Hx & _). rewrite behind_none; [unfold ztake; by rewrite take_nil|].
    apply Hx. by apply list_elem_of_fmap_2.
  - intros Hz%(f_equal len). unfold zdrop, len in *. rewrite length_drop in Hz. cbn in Hz. lia.
Qed.
End queues.

(** ** Witnesses *)
Section witnesses.
#[local] Existing Instance canonical_order.

Definition w_env (id : string) (exp : Z) : SecretEnvelope := mkSecretEnvelope id "7" "laptop" "8" "phone" [] [] 0 exp.
Definition w_queue : SecretQ := (EnqueueSecret (w_env "2" 9) 1000 (EnqueueSecret (w_env "1" 5) 1000 ∅).1).1.

Lemma queued_until_acked_witness :
  w_env "1" 5 ∈ queue "7" "laptop" (foldl (λ m o, apply o m) (EnqueueSecret (w_env "1" 5) 1000 ∅).1
    [OEnqueue (w_env "2" 9); OPurge 4 500; OAck "7" "phone" ["1"]; OAck "7" "laptop" ["2"]]).
Proof.
  apply (queued_until_acked (w_env "1" 5) [OEnqueue (w_env "2" 9); OPurge 4 500; OAck "7" "phone" ["1"]; OAck "7" "laptop" ["2"]] ∅);
    by vm_compute.
Defined.

Lemma purge_complete_witness : ∃ m', purgeSecretQueue 3 5 w_queue = (m', Ok true) ∧ at_key "7|laptop" m' = [w_env "2" 9].
Proof.
  destruct (purge_complete 3 5 w_queue) as (m' & Hp & Hk); [by vm_compute|]. exists m'. split; [done|].
  etrans; [apply (Hk "7|laptop")|]. by vm_compute.
Defined.

Lemma AckSecrets_scoped_witness : queue "7" "laptop" (AckSecrets "7" "laptop" ["1"] w_queue).1 = [w_env "2" 9].
Proof.
  pose proof (AckSecrets_scoped "7" "laptop" ["1"] w_queue eq_refl) as Ha.
  rewrite (surjective_pairing (AckSecrets _ _ _ _)) in Ha. etrans; [exact (proj1 Ha)|]. by vm_compute.
Defined.

Lemma w_queue_ids : NoDup (Env_ID <$> queue "7" "laptop" w_queue) ∧ Forall (λ e, Env_ID e ≠ "") (queue "7" "laptop" w_queue).
Proof. split; apply (bool_decide_unpack _); by vm_compute. Qed.

Lemma sync_complete_witness : sync_pages 3 "7" "laptop" "" 1 w_queue [] = Some [w_env "1" 5; w_env "2" 9].
Proof. apply (sync_complete 3 "7" "laptop" 1 w_queue); [done | apply w_queue_ids.. | by vm_compute]. Defined.

Lemma acked_cursor_stalls_witness :
  (PendingSecrets "7" "laptop" "1" 1 (AckSecrets "7" "laptop" ["1"] w_queue).1).2 = Ok [] ∧
  queue "7" "laptop" (AckSecrets "7" "laptop" ["1"] w_queue).1 ≠ [].
Proof.
  destruct (acked_cursor_stalls "7" "laptop" 1 w_queue (ztake 1 (queue "7" "laptop" w_queue))
    (AckSecrets "7" "laptop" (Env_ID <$> ztake 1 (queue "7" "laptop" w_queue)) w_queue).1 eq_refl) as (_ & Hp & _ & Hq);
    [by vm_compute | apply w_queue_ids.. | done | done |].
  split; [exact (f_equal snd Hp) | exact Hq].
Defined.
End witnesses.
