(* ===== verification/ClientConn.v ===== *)
(** * A client connection

    [internal/gateway] conn.go: the outbound lanes and their single writer, and the
    numbering of a session's frames across reconnects, with the replay buffer of
    Replay.v behind it.  The outcome of a socket write and clock readings, in nanoseconds,
    are inputs; [None] is a node without a replay buffer. *)

From S2P Require Import Prelude Bytes Envelope Replay Fanout Delivery.

Definition ephemeralLane : Z := 16.
Definition deliveredQueueDepth : Z := 4096.

Definition MsgPing : Z := 6.
Definition MsgPong : Z := 7.
Definition MsgSendAck : Z := 9.
Definition MsgTransportAck : Z := 30.
Definition MsgResumeOK : Z := 32.
Definition MsgError : Z := 40.

(** The three lanes. *)
Inductive Lane := Hi | Mid | Lo.
#[global] Instance Lane_eq_dec : EqDecision Lane.
Proof. solve_decision. Defined.

Definition lane (t : Z) : Lane * bool :=
  if (t =? MsgTyping) || (t =? MsgPresence) then (Lo, true)
  else if (t =? MsgPong) || (t =? MsgPing) || (t =? MsgError) || (t =? MsgSendAck) || (t =? MsgTransportAck) then (Hi, false)
  else (Mid, false).

(** [reportDelivery]: a full queue drops the receipt. *)
Definition reportDelivery (r : deliveryReport) (q : list deliveryReport) : list deliveryReport :=
  if len q <? deliveredQueueDepth then q ++ [r] else q.

Section conn.
Context {V : Type} (Marshal : V → bytes) `{RangeOrder}.
Abbreviation Del := (Delivery V).

Record conn := mkConn {
  maxInflight : Z;
  peerCaps : Z;
  sessionID : string;
  outSeq : Z;
  lastClientSeq : Z;
  outHi : list Del;
  outMid : list Del;
  outLo : list Del;
  (** [done] is closed *)
  closed : bool;
}.

Definition queue (l : Lane) (c : conn) : list Del := match l with Hi => outHi c | Mid => outMid c | Lo => outLo c end.
Definition depth (l : Lane) (c : conn) : Z := match l with Lo => ephemeralLane | _ => maxInflight c end.
Definition set_queue (l : Lane) (q : list Del) (c : conn) : conn :=
  mkConn (maxInflight c) (peerCaps c) (sessionID c) (outSeq c) (lastClientSeq c)
    (if decide (l = Hi) then q else outHi c) (if decide (l = Mid) then q else outMid c) (if decide (l = Lo) then q else outLo c) (closed c).
Definition set_outSeq (n : Z) (c : conn) : conn :=
  mkConn (maxInflight c) (peerCaps c) (sessionID c) n (lastClientSeq c) (outHi c) (outMid c) (outLo c) (closed c).
Definition set_closed (c : conn) : conn :=
  mkConn (maxInflight c) (peerCaps c) (sessionID c) (outSeq c) (lastClientSeq c) (outHi c) (outMid c) (outLo c) true.

Definition Send (d : Del) (c : conn) : conn * bool :=
  let '(l, droppable) := lane (D_Type d) in
  if len (queue l c) <? depth l c then (set_queue l (queue l c ++ [d]) c, true)
  else if droppable then (c, true)
  else (set_closed c, false).

Definition reply (t reqID : Z) (body : Body V) (c : conn) : conn := (Send (mkDelivery t reqID body None None) c).1.
Definition replyThenClose (t reqID : Z) (body : Body V) (c : conn) : conn :=
  (Send (mkDelivery t reqID body None (Some HClose)) c).1.
(** [tick], [idle] being whether the peer has been silent past the timeout. *)
Definition tick (idle : bool) (c : conn) : conn * bool :=
  if idle then (set_closed c, false) else ((Send (mkDelivery MsgPing 0 BNil None None) c).1, true).

Definition nextSeq (c : conn) : Z := u64 (outSeq c + 1).
Definition observe (e : Envelope) (c : conn) : conn :=
  mkConn (maxInflight c) (peerCaps c) (sessionID c) (outSeq c)
    (if Envelope.Seq e <=? lastClientSeq c then lastClientSeq c else Envelope.Seq e) (outHi c) (outMid c) (outLo c) (closed c).

(** A connection with what it writes to: its socket, the replay buffer, the receipts. *)
Record Line := mkLine {
  the_conn : conn;
  wire : list bytes;
  replay : option memoryBuffer;
  delivered : list deliveryReport;
}.
Definition on_conn (f : conn → conn) (L : Line) : Line := mkLine (f (the_conn L)) (wire L) (replay L) (delivered L).

Definition envelope_of (d : Del) (c : conn) : Envelope :=
  let body := match D_BodyFor d with Some f => f (peerCaps c) | None => D_Body d end in
  mkEnvelope (D_Type d) (nextSeq c) (lastClientSeq c) (D_RequestID d) (EncodeBody Marshal body).

Definition run_hook (h : option hook) (L : Line) : Line :=
  match h with
  | None => L
  | Some (HReport r) => mkLine (the_conn L) (wire L) (replay L) (reportDelivery r (delivered L))
  | Some HClose => on_conn set_closed L
  end.

(** [ok] is whether the write succeeds; [t] and [t'] are the readings of [Append]. *)
Definition writeOne (ok : bool) (t t' : Z) (d : Del) (L : Line) : Line * bool :=
  let c := the_conn L in
  let env := envelope_of d c in
  let payload := Encode env in
  let c1 := set_outSeq (Envelope.Seq env) c in
  if ok then
    let L1 := run_hook (D_OnWritten d) (mkLine c1 (wire L ++ [payload]) (replay L) (delivered L)) in
    let buf := match replay L1 with
               | Some m => if bool_decide (sessionID c = "") then Some m
                           else Some (Append m (sessionID c) (Envelope.Seq env) payload t t')
               | None => None
               end in
    (mkLine (the_conn L1) (wire L1) buf (delivered L1), true)
  else (mkLine (set_closed c1) (wire L) (replay L) (delivered L), false).

(** ** The writer, beside everything that sends to it *)

(** The select the writer is at: [hi] alone, [hi] and [mid], all three; or returned. *)
Inductive phase := P0 | P1 | P2 | PStop.
Definition reads (p : phase) (l : Lane) : bool :=
  match p, l with P0, Hi | P1, (Hi | Mid) | P2, _ => true | _, _ => false end.

Inductive label := LSend (d : Del) | LWrite (l : Lane) (d : Del) (ok : bool) | LOther.

Inductive step : phase * Line → label → phase * Line → Prop :=
  | step_send p L d : step (p, L) (LSend d) (p, on_conn (λ c, (Send d c).1) L)
  | step_observe p L e : step (p, L) LOther (p, on_conn (observe e) L)
  | step_close p L : step (p, L) LOther (p, on_conn set_closed L)
  | step_done p L : p ≠ PStop → closed (the_conn L) = true → step (p, L) LOther (PStop, L)
  | step_default0 L : closed (the_conn L) = false → outHi (the_conn L) = [] → step (P0, L) LOther (P1, L)
  | step_default1 L :
      closed (the_conn L) = false → outHi (the_conn L) = [] → outMid (the_conn L) = [] → step (P1, L) LOther (P2, L)
  | step_write p l d q ok t t' L L' b :
      reads p l = true → queue l (the_conn L) = d :: q →
      writeOne ok t t' d (on_conn (set_queue l q) L) = (L', b) →
      step (p, L) (LWrite l d ok) (if b then P0 else PStop, L').

Inductive steps : phase * Line → list label → phase * Line → Prop :=
  | steps_nil s : steps s [] s
  | steps_snoc s tr s1 a s2 : steps s tr s1 → step s1 a s2 → steps s (tr ++ [a]) s2.

Definition sent (l : Lane) (tr : list label) : list Del :=
  omap (λ a, match a with LSend d => if decide ((lane (D_Type d)).1 = l) then Some d else None | _ => None end) tr.
Definition written (l : Lane) (tr : list label) : list Del :=
  omap (λ a, match a with LWrite l' d true => if decide (l' = l) then Some d else None | _ => None end) tr.
Definition writes (tr : list label) : list (Lane * Del) :=
  omap (λ a, match a with LWrite l d true => Some (l, d) | _ => None end) tr.

(** ** Resuming a session *)

(** [doResume] after the token was accepted: a new connection [c] for the session; [body] is
    the encoded RESUME_OK. *)
Definition doResume (c : conn) (buf : option memoryBuffer) (LastAckSeq reqID now : Z) (body : bytes)
    (reports : list deliveryReport) : Line :=
  let '(buf, frames, maxSeq) :=
    match buf with
    | Some m =>
        let '(m, fs) := Since m (sessionID c) LastAckSeq now in
        let maxSeq := foldl (λ a f, if a <? Replay.Seq f then Replay.Seq f else a) 0 fs in
        let hw := HighWater m (sessionID c) in
        (Some m, fs, if maxSeq <? hw then hw else maxSeq)
    | None => (None, [], LastAckSeq)
    end in
  let c := set_outSeq maxSeq c in
  let env := mkEnvelope MsgResumeOK (nextSeq c) (lastClientSeq c) reqID body in
  mkLine (set_outSeq (nextSeq c) c) ((Replay.Payload <$> frames) ++ [Encode env]) buf reports.
End conn.
Arguments conn : clear implicits.
Arguments Line : clear implicits.

(** ** Lemmas *)
Section facts.
Context {V : Type} (Marshal : V → bytes) `{RangeOrder}.
Abbreviation Del := (Delivery V).
Implicit Types (c : conn V) (L : Line V) (s : phase * Line V).

Lemma queue_set l l' (q : list Del) c : queue l (set_queue l' q c) = if decide (l' = l) then q else queue l c.
Proof. by destruct l, l'. Qed.
Lemma depth_lane t : (lane t).2 = bool_decide ((lane t).1 = Lo).
Proof. unfold lane. by repeat case_match. Qed.

(** What a write leaves: the number advances and, if it succeeds, the frame is on the wire
    and in the buffer. *)
Lemma writeOne_spec ok t t' (d : Del) L L' b :
  writeOne Marshal ok t t' d L = (L', b) →
  let env := envelope_of Marshal d (the_conn L) in
  b = ok ∧ outSeq (the_conn L') = nextSeq (the_conn L) ∧ (∀ l, queue l (the_conn L') = queue l (the_conn L)) ∧
  maxInflight (the_conn L') = maxInflight (the_conn L) ∧ sessionID (the_conn L') = sessionID (the_conn L) ∧
  wire L' = wire L ++ (if ok then [Encode env] else []) ∧
  replay L' = (if ok && negb (bool_decide (sessionID (the_conn L) = ""))
               then (λ m, Append m (sessionID (the_conn L)) (nextSeq (the_conn L)) (Encode env) t t') <$> replay L else replay L) ∧
  (closed (the_conn L') = false → ok = true ∧ closed (the_conn L) = false).
Proof.
  destruct L as [c w m q]. unfold writeOne. cbn [the_conn wire replay delivered]. destruct ok.
  - intros [= <- <-]. destruct (D_OnWritten d) as [[r|]|]; cbn; rewrite ?app_nil_r;
      (split_and!; [done | done | by intros [] | done | done | done | |]);
      (case_bool_decide; destruct m; done) || done.
  - intros [= <- <-]. cbn. rewrite app_nil_r. split_and!; done.
Qed.

Lemma Send_spec (d : Del) c :
  closed (Send d c).1 = false →
  closed c = false ∧ maxInflight (Send d c).1 = maxInflight c ∧
  ∀ l, (queue l (Send d c).1 = queue l c ++ (if decide ((lane (D_Type d)).1 = l) then [d] else []) ∧
        (len (queue l c) ≤ depth l c → len (queue l (Send d c).1) ≤ depth l c)) ∨
       (l = Lo ∧ queue l (Send d c).1 = queue l c).
Proof.
  unfold Send. pose proof (depth_lane (D_Type d)) as Hd. destruct (lane (D_Type d)) as [l0 dr]. cbn [fst snd] in *.
  destruct (Z.ltb_spec (len (queue l0 c)) (depth l0 c)) as [Hlt|Hge]; cbn [fst].
  - intros Hc. split; [done|]. split; [done|]. intros l. left. rewrite queue_set. destruct (decide (l0 = l)) as [->|Hne]; [|by rewrite app_nil_r].
    split; [done|]. rewrite len_app. change (len [d]) with 1. lia.
  - destruct dr; [|done]. symmetry in Hd. apply bool_decide_eq_true in Hd as ->. intros Hc. split; [done|]. split; [done|].
    intros l. destruct (decide (Lo = l)) as [<-|Hne]; [by right|]. left. by rewrite app_nil_r.
Qed.

Lemma steps_app s tr s1 tr' s2 : steps Marshal s tr s1 → steps Marshal s1 tr' s2 → steps Marshal s (tr ++ tr') s2.
Proof. intros H1. induction 1 as [s'|s' tr' s2 a s3 _ IH Hs]; [by rewrite app_nil_r|]. rewrite app_assoc. econstructor; [by apply IH | done]. Qed.

(** A lane is a queue: what was sent is what was written and what waits. *)
Definition lanes_ok (tr : list label) L : Prop :=
  (∀ l, l ≠ Lo → sent l tr = written l tr ++ queue l (the_conn L)) ∧
  (written Lo tr ++ queue Lo (the_conn L) `sublist_of` sent Lo tr) ∧
  (∀ l, len (queue l (the_conn L)) ≤ depth l (the_conn L)).

Lemma lanes_step tr s a s' :
  step Marshal s a s' → (closed (the_conn s.2) = false → lanes_ok tr s.2) → closed (the_conn s'.2) = false → lanes_ok (tr ++ [a]) s'.2.
Proof.
  intros Hst Hok Hc. assert (∀ l, written l [a] = match a with LWrite l' d true => if decide (l' = l) then [d] else [] | _ => [] end) as Hw.
  { intros l. unfold written. cbn. destruct a as [|l' d []|]; try done. by destruct (decide (l' = l)). }
  assert (∀ l, sent l [a] = match a with LSend d => if decide ((lane (D_Type d)).1 = l) then [d] else [] | _ => [] end) as Hs.
  { intros l. unfold sent. cbn. destruct a as [d| |]; try done. by destruct (decide ((lane (D_Type d)).1 = l)). }
  assert (∀ l, written l (tr ++ [a]) = written l tr ++ written l [a] ∧ sent l (tr ++ [a]) = sent l tr ++ sent l [a]) as Happ.
  { intros l. unfold written, sent. by rewrite !omap_app. }
  assert (∀ l, written l (tr ++ [a]) = written l tr ++ written l [a]) as Hwa by apply Happ.
  assert (∀ l, sent l (tr ++ [a]) = sent l tr ++ sent l [a]) as Hsa by apply Happ. clear Happ.
  unfold lanes_ok. setoid_rewrite Hwa. setoid_rewrite Hsa. setoid_rewrite Hw. setoid_rewrite Hs.
  destruct Hst as [p L d|p L e|p L|p L _ Hcl|L Hcl Hh|L Hcl Hh Hm|p l d q ok t t' L L' b Hr Hq Hwr]; cbn [snd] in *;
    try (setoid_rewrite app_nil_r); try (by apply Hok).
  - cbn [on_conn the_conn] in *. apply (Send_spec d) in Hc as (Hc & Hmi & Hl). destruct (Hok Hc) as (H1 & H2 & H3). split_and!.
    + intros l Hne. destruct (Hl l) as [[-> _]|[-> _]]; [|done]. by rewrite (H1 l Hne), app_assoc.
    + destruct (Hl Lo) as [[-> _]|[_ ->]]; [rewrite app_assoc; by apply sublist_app|]. by apply sublist_inserts_r.
    + intros l. assert (depth l (Send d (the_conn L)).1 = depth l (the_conn L)) as -> by (destruct l; cbn; by rewrite ?Hmi).
      destruct (Hl l) as [[_ Hx]|[_ ->]]; [by apply Hx | by apply H3].
  - apply writeOne_spec in Hwr as (-> & _ & Hqs & Hmi & _ & _ & _ & Hcl). destruct (Hcl Hc) as [-> Hc0]. destruct (Hok Hc0) as (H1 & H2 & H3).
    assert (∀ l', queue l' (the_conn L') = if decide (l = l') then q else queue l' (the_conn L)) as Hq'.
    { intros l'. rewrite Hqs. apply queue_set. }
    assert (∀ l', (if decide (l = l') then [d] else []) ++ queue l' (the_conn L') = queue l' (the_conn L)) as Hsplit.
    { intros l'. rewrite Hq'. by destruct (decide (l = l')) as [<-|]. }
    split_and!.
    + intros l' Hne. by rewrite <- app_assoc, Hsplit, H1.
    + by rewrite <- app_assoc, Hsplit.
    + intros l'. specialize (H3 l'). rewrite <- Hsplit, len_app in H3. pose proof (len_nonneg (if decide (l = l') then [d] else [])).
      assert (depth l' (the_conn L') = depth l' (the_conn L)) as -> by (destruct l'; cbn; by rewrite ?Hmi). lia.
Qed.

(** ** Theorems: the writer *)

(** C24: Nothing a connection accepts is lost or reordered while it lives.  Whatever the
    interleaving of senders, acknowledgements and the writer: as long as the connection has
    not been closed, what was sent in the control lane is exactly what was written from it
    followed by what is queued, in order, and so for the message lane; of the droppable
    lane some are left out.  No lane outgrows its depth. *)
Theorem lanes_lossless L0 tr p L1 :
  steps Marshal (P0, L0) tr (p, L1) → (∀ l, queue l (the_conn L0) = []) → 0 ≤ maxInflight (the_conn L0) →
  closed (the_conn L1) = false →
  (∀ l, l ≠ Lo → sent l tr = written l tr ++ queue l (the_conn L1)) ∧
  (written Lo tr ++ queue Lo (the_conn L1) `sublist_of` sent Lo tr) ∧
  (∀ l, len (queue l (the_conn L1)) ≤ depth l (the_conn L1)).
Proof.
  intros Hst Hempty Hmi Hc. change (lanes_ok tr L1). remember (P0, L0) as s0 eqn:E0. remember (p, L1) as s1 eqn:E1.
  assert (closed (the_conn s1.2) = false → lanes_ok tr s1.2) as Hgen; [|subst s1; by apply Hgen].
  clear p L1 Hc E1. induction Hst as [s|s tr s1 a s2 _ IH Hs].
  - subst s. intros _. split_and!; cbn [snd].
    + intros l _. by rewrite Hempty.
    + by rewrite Hempty.
    + intros l. rewrite Hempty. destruct l; cbn; unfold ephemeralLane; rewrite ?len_nil; lia.
  - eapply lanes_step; [done|]. by apply IH.
Qed.

(** What the first two frames written are, from a state where a control frame waits. *)
Definition control_due (tr : list (label (V := V))) s : Prop :=
  match writes tr with
  | [] => s.1 = PStop ∨ outHi (the_conn s.2) ≠ []
  | [(l, _)] => l = Hi ∨ s.1 = PStop ∨ (s.1 = P0 ∧ outHi (the_conn s.2) ≠ [])
  | (l, _) :: (l', _) :: _ => l = Hi ∨ l' = Hi
  end.

Lemma step_control s a s' :
  step Marshal s a s' →
  (writes [a] = [] ∧ (s'.1 = PStop ∨ (s.1 ≠ PStop ∧ (outHi (the_conn s.2) ≠ [] → outHi (the_conn s'.2) ≠ [] ∧ (s.1 = P0 → s'.1 = P0))))) ∨
  ∃ l d, writes [a] = [(l, d)] ∧ s'.1 = P0 ∧ reads s.1 l = true ∧ (l ≠ Hi → outHi (the_conn s'.2) = outHi (the_conn s.2)).
Proof.
  intros [p L d|p L e|p L|p L _ Hcl|L Hcl Hh|L Hcl Hh Hm|p l d q ok t t' L L' b Hr Hq Hwr]; cbn [fst snd].
  - left. split; [done|]. destruct p; try (by left); right; (split; [done|]); intros Hne; (split; [|done]);
      unfold Send; destruct (lane (D_Type d)) as [l dr]; cbn [on_conn the_conn];
      (repeat case_match; try done); change (queue Hi (set_queue l (queue l (the_conn L) ++ [d]) (the_conn L)) ≠ []); rewrite queue_set;
      (case_decide; [by destruct (queue l (the_conn L)) | done]).
  - left. split; [done|]. by destruct p; [right..|left].
  - left. split; [done|]. by destruct p; [right..|left].
  - left. split; [done|]. by left.
  - left. split; [done|]. by right.
  - left. split; [done|]. by right.
  - apply writeOne_spec in Hwr as (-> & _ & Hqs & _). destruct ok; [|left; split; [done | by left]].
    right. exists l, d. split_and!; try done. intros Hne. specialize (Hqs Hi). cbn [queue] in Hqs. rewrite Hqs.
    change (queue Hi (set_queue l q (the_conn L)) = queue Hi (the_conn L)). by rewrite queue_set, decide_False.
Qed.
Lemma control_step tr s a s' : step Marshal s a s' → control_due tr s → control_due (tr ++ [a]) s'.
Proof.
  intros Hst. unfold control_due. assert (writes (tr ++ [a]) = writes tr ++ writes [a]) as -> by (unfold writes; by rewrite omap_app).
  destruct (step_control s a s' Hst) as [(-> & Hs)|(l & d & -> & Hs' & Hr & Hhi)]; rewrite ?app_nil_r.
  - destruct (writes tr) as [|[l1 d1] [|[l2 d2] ws]]; [| |done]; tauto.
  - destruct (writes tr) as [|[l1 d1] [|[l2 d2] ws]]; cbn [app]; [| |done].
    + intros [Hp|Hne]; [rewrite Hp in Hr; by destruct l|]. destruct (decide (l = Hi)) as [->|Hl]; [by left|]. right. right. by rewrite Hhi.
    + intros [->|[Hp|[Hp _]]]; [by left|..]; rewrite Hp in Hr; destruct l; try done. by right.
Qed.

(** Control frames do not wait behind a backlog.  From any state in which a control
    frame is queued, whatever is sent meanwhile, one of the next two frames written is a
    control frame. *)
Theorem control_within_two p L tr s' l1 d1 l2 d2 ws :
  steps Marshal (p, L) tr s' → outHi (the_conn L) ≠ [] → writes tr = (l1, d1) :: (l2, d2) :: ws → l1 = Hi ∨ l2 = Hi.
Proof.
  intros Hst Hhi Hw. assert (control_due tr s') as Hc.
  { clear Hw. remember (p, L) as s0 eqn:E. induction Hst as [s|s tr s1 a s2 _ IH Hs]; [subst s; by right|].
    eapply control_step; [done|]. by apply IH. }
  unfold control_due in Hc. by rewrite Hw in Hc.
Qed.

(** Frames hit the wire in the order of their numbers.  Whatever is sent, acknowledged
    or closed meanwhile, the payloads the writer puts on the socket are envelopes numbered
    one after the other, from the number after the connection's counter. *)
Theorem wire_consecutive p L tr p' L' :
  steps Marshal (p, L) tr (p', L') → 0 ≤ outSeq (the_conn L) → outSeq (the_conn L) + len tr < 2 ^ 64 →
  ∃ es, wire L' = wire L ++ (Encode <$> es) ∧ Envelope.Seq <$> es = seqZ (outSeq (the_conn L) + 1) (len es).
Proof.
  intros Hst Hlo Hhi. remember (p, L) as s0 eqn:E0. remember (p', L') as s1 eqn:E1.
  assert (∃ es, wire s1.2 = wire L ++ (Encode <$> es) ∧ Envelope.Seq <$> es = seqZ (outSeq (the_conn L) + 1) (len es) ∧ len es ≤ len tr ∧
    (s1.1 ≠ PStop → outSeq (the_conn s1.2) = outSeq (the_conn L) + len es)) as (es & H1 & H2 & _); [|subst s1; by exists es].
  clear p' L' E1. induction Hst as [s|s tr s1 a s2 _ IH Hs].
  { subst s. exists []. cbn. rewrite app_nil_r, len_nil, Z.add_0_r. done. }
  rewrite len_app in *. change (len [a]) with 1 in *. destruct IH as (es & Hw & Hn & Hle & Hseq); [done | lia|].
  destruct Hs as [q L1 d|q L1 e|q L1|q L1 _ Hcl|L1 Hcl Hh|L1 Hcl Hh Hm|q l d ds ok t t' L1 L2 b Hr Hq Hwr]; cbn [fst snd] in *;
    try (exists es; split_and!; [done | done | lia | by auto]).
  - exists es. split_and!; [done | done | lia|]. intros Hp. rewrite <- (Hseq Hp). cbn [on_conn the_conn]. unfold Send. by repeat case_match.
  - apply writeOne_spec in Hwr as (-> & Hseq' & _ & _ & _ & Hw' & _). cbn [on_conn the_conn wire] in *.
    assert (q ≠ PStop) as Hp by (by intros ->). specialize (Hseq Hp).
    assert (nextSeq (set_queue l ds (the_conn L1)) = outSeq (the_conn L) + len es + 1) as Hnext.
    { unfold nextSeq. cbn [set_queue outSeq]. rewrite Hseq. apply Z.mod_small. pose proof (len_nonneg es). lia. }
    destruct ok.
    + exists (es ++ [envelope_of Marshal d (set_queue l ds (the_conn L1))]). rewrite len_app. change (len [_]) with 1.
      split_and!; [by rewrite Hw', Hw, fmap_app, app_assoc | | lia | by rewrite Hseq', Hnext, Z.add_assoc].
      rewrite fmap_app, Hn. pose proof (len_nonneg es). rewrite seqZ_app by lia. f_equal. cbn [fmap list_fmap Envelope.Seq envelope_of].
      rewrite Hnext. change (seqZ (outSeq (the_conn L) + 1 + len es) 1) with [0 + (outSeq (the_conn L) + 1 + len es)]. f_equal. lia.
    + exists es. rewrite Hw', app_nil_r. split_and!; [done | done | lia | done].
Qed.

(** ** A session across its connections *)

(** The life of session [sid], one connection after another, on a shared replay buffer:
    the present line, and the frames written for it since its buffer last started empty.
    A connection opens with AUTH_OK, which has number 1, or by resuming. *)
Inductive lived (sid : string) : Line V → list Frame → Prop :=
  | lived_auth c m authOK reports :
      sessionID c = sid → outSeq c = 1 → history sid m [] → lived sid (mkLine c [authOK] (Some m) reports) []
  | lived_send L fs d : lived sid L fs → lived sid (on_conn (λ c, (Send d c).1) L) fs
  | lived_observe L fs e : lived sid L fs → lived sid (on_conn (observe e) L) fs
  | lived_close L fs : lived sid L fs → lived sid (on_conn set_closed L) fs
  | lived_write L fs m l d q ok t t' L' b :
      lived sid L fs → replay L = Some m → queue l (the_conn L) = d :: q → outSeq (the_conn L) + 1 < 2 ^ 64 →
      writeOne Marshal ok t t' d (on_conn (set_queue l q) L) = (L', b) →
      lived sid L' (if ok then held (Replay.sweepLocked t m) sid fs ++
        [mkFrame (nextSeq (the_conn L)) (Encode (envelope_of Marshal d (set_queue l q (the_conn L))))] else fs)
  | lived_other L fs m sid' seq payload t t' :
      lived sid L fs → replay L = Some m → sid' ≠ sid →
      lived sid (mkLine (the_conn L) (wire L) (Some (Append m sid' seq payload t t')) (delivered L)) (held (Replay.sweepLocked t m) sid fs)
  | lived_resumed_other L fs m sid' after now :
      lived sid L fs → replay L = Some m → sid' ≠ sid →
      lived sid (mkLine (the_conn L) (wire L) (Some (Since m sid' after now).1) (delivered L)) fs
  | lived_resume L fs c LastAckSeq reqID now body :
      lived sid L fs → sessionID c = sid → outSeq (the_conn L) + 1 < 2 ^ 64 →
      lived sid (doResume c (replay L) LastAckSeq reqID now body (delivered L)) fs.

(** Numbers ascend, the counter is past them, and a payload carries its own number. *)
Definition numbered (n : Z) (fs : list Frame) : Prop :=
  StronglySorted (λ f g, Replay.Seq f < Replay.Seq g) fs ∧
  Forall (λ f, 1 ≤ Replay.Seq f ≤ n ∧ ∃ e, Replay.Payload f = Encode e ∧ Envelope.Seq e = Replay.Seq f) fs.

Lemma numbered_le n n' fs : numbered n fs → n ≤ n' → numbered n' fs.
Proof. intros [Hs Hf] Hn. split; [done|]. eapply Forall_impl; [done|]. intros f [? ?]. split; [lia | done]. Qed.
Lemma numbered_held n m sid fs : numbered n fs → numbered n (held m sid fs).
Proof. unfold held. destruct (sessions m !! sid); [done|]. intros _. split; constructor. Qed.
Lemma numbered_snoc n fs e : 0 ≤ n → numbered n fs → Envelope.Seq e = n + 1 → numbered (n + 1) (fs ++ [mkFrame (n + 1) (Encode e)]).
Proof.
  intros Hn [Hs Hf] He. split.
  - apply StronglySorted_app_2; [|done|by repeat constructor]. intros f g Hin ->%list_elem_of_singleton.
    rewrite Forall_forall in Hf. destruct (Hf f Hin) as [? _]. cbn. lia.
  - apply Forall_app. split; [by apply (numbered_le n (n + 1) fs (conj Hs Hf)); lia|]. apply Forall_singleton. cbn. split; [lia|]. by exists e.
Qed.

(** The number a resume continues from is the last one used. *)
Definition last_seq (fs : list Frame) : Z := match last fs with Some f => Replay.Seq f | None => 0 end.

Lemma last_seq_max n fs : numbered n fs → Forall (λ f, Replay.Seq f ≤ last_seq fs) fs ∧ 0 ≤ last_seq fs.
Proof.
  intros [Hs Hf]. unfold last_seq. induction fs as [|f fs _] using rev_ind; [done|]. rewrite last_snoc.
  apply Forall_app in Hf as [_ [[? _] _]%Forall_cons]. split; [|lia]. apply Forall_app. split; [|by apply Forall_singleton].
  apply Forall_forall. intros g Hg. apply StronglySorted_app_1_elem_of with (x1 := g) (x2 := f) in Hs; [lia | done | by left].
Qed.
Lemma max_seen (fs : list Frame) a k :
  a ≤ k → Forall (λ f, Replay.Seq f ≤ k) fs → foldl (λ a f, if a <? Replay.Seq f then Replay.Seq f else a) a fs ≤ k.
Proof. intros Ha Hf. revert a Ha. induction Hf as [|f fs Hk _ IH]; intros a Ha; [done|]. cbn [foldl]. apply IH. case_match; lia. Qed.

Lemma doResume_numbers (c : conn V) m fs n LastAckSeq reqID now body reports :
  history (sessionID c) m fs → numbered n fs →
  let L := doResume c (Some m) LastAckSeq reqID now body reports in
  last_seq fs + 1 < 2 ^ 64 →
  replay L = Some (Since m (sessionID c) LastAckSeq now).1 ∧ outSeq (the_conn L) = last_seq fs + 1 ∧
  sessionID (the_conn L) = sessionID c ∧
  wire L = (Replay.Payload <$> (Since m (sessionID c) LastAckSeq now).2) ++
           [Encode (mkEnvelope MsgResumeOK (last_seq fs + 1) (lastClientSeq c) reqID body)].
Proof.
  intros Hh Hn L Hb. unfold L, doResume. assert (HighWater (Since m (sessionID c) LastAckSeq now).1 (sessionID c) = last_seq fs) as Hw.
  { apply (HighWater_last (sessionID c) _ fs). by constructor. }
  assert (Forall (λ f, Replay.Seq f ≤ last_seq fs) (Since m (sessionID c) LastAckSeq now).2) as Hall.
  { destruct (history_frames _ _ _ Hh) as [Hfr _]. unfold Since. destruct (sessions m !! sessionID c) as [sb|] eqn:E; [|constructor]. cbn [snd].
    apply Forall_forall. intros f [_ Hin]%list_elem_of_filter. rewrite Hfr in Hin. unfold recent, zdrop in Hin. apply (subseteq_drop _ fs) in Hin.
    destruct (last_seq_max n fs Hn) as [Hall _]. rewrite Forall_forall in Hall. by apply Hall. }
  destruct (Since m (sessionID c) LastAckSeq now) as [m' got] eqn:Es. cbn [fst snd] in *.
  set (mx := foldl _ 0 got). assert (mx ≤ last_seq fs) as Hmx by (apply max_seen; [apply (last_seq_max n fs Hn) | done]).
  rewrite Hw. assert ((if mx <? last_seq fs then last_seq fs else mx) = last_seq fs) as -> by (case_match; bool_to_prop; lia).
  assert (nextSeq (set_outSeq (last_seq fs) c) = last_seq fs + 1) as Hx.
  { unfold nextSeq. cbn. apply Z.mod_small. pose proof (proj2 (last_seq_max n fs Hn)). lia. }
  cbn [replay the_conn wire]. by rewrite Hx.
Qed.


Lemma last_seq_le n fs : numbered n fs → 0 ≤ n → last_seq fs ≤ n.
Proof.
  intros [_ Hf] Hn. unfold last_seq. destruct (last fs) as [f|] eqn:E; [|done]. apply last_Some_elem_of in E.
  rewrite Forall_forall in Hf. by apply Hf.
Qed.

Lemma lived_inv sid L fs :
  sid ≠ "" → lived sid L fs → ∃ m, replay L = Some m ∧ history sid m fs ∧ sessionID (the_conn L) = sid ∧
    0 ≤ outSeq (the_conn L) ∧ numbered (outSeq (the_conn L)) fs.
Proof.
  intros Hs0. induction 1 as [c m ok rs Hsid Hseq Hh|L fs d _ IH|L fs e _ IH|L fs _ IH|L fs m l d q ok t t' L' b _ IH Hm Hq Hb Hw
    |L fs m sid' seq pl t t' _ IH Hm Hne|L fs m sid' af now _ IH Hm Hne|L fs c ack rid now body _ IH Hsid Hb].
  - exists m. cbn. rewrite Hseq. split_and!; try done. split; constructor.
  - destruct IH as (m & ? & ? & ? & ? & ?). exists m. cbn [on_conn the_conn]. unfold Send. by repeat case_match.
  - done.
  - done.
  - destruct IH as (m' & Hm' & Hh & Hsid & Hlo & Hn). rewrite Hm in Hm'. injection Hm' as <-.
    apply writeOne_spec in Hw as (-> & Hseq & _ & _ & Hsid' & _ & Hre & _). cbn [on_conn the_conn set_queue sessionID replay] in *.
    rewrite Hsid, Hm, bool_decide_false, andb_true_r in Hre by done. change (nextSeq (set_queue l q (the_conn L))) with (nextSeq (the_conn L)) in *.
    assert (nextSeq (the_conn L) = outSeq (the_conn L) + 1) as Hnx by (apply Z.mod_small; lia).
    destruct ok; cbn [fmap option_fmap option_map] in Hre; eexists; (split; [exact Hre|]); rewrite Hseq, Hsid', Hnx; (split; [|split; [done|]]).
    + by constructor.
    + split; [lia|]. apply numbered_snoc; [done | by apply numbered_held | done].
    + done.
    + split; [lia|]. apply (numbered_le _ _ _ Hn). lia.
  - destruct IH as (m' & Hm' & Hh & Hsid & Hlo & Hn). rewrite Hm in Hm'. injection Hm' as <-. eexists. split; [done|].
    split; [by constructor|]. split_and!; [done | done | by apply numbered_held].
  - destruct IH as (m' & Hm' & Hh & Hsid & Hlo & Hn). rewrite Hm in Hm'. injection Hm' as <-. eexists. split; [done|].
    split; [by constructor | done].
  - destruct IH as (m & Hm & Hh & _ & Hlo & Hn). rewrite Hm. rewrite <- Hsid in Hh. pose proof (last_seq_le _ _ Hn Hlo).
    destruct (doResume_numbers c m fs _ ack rid now body (delivered L) Hh Hn) as (-> & -> & -> & _); [lia|].
    eexists. split; [done|]. rewrite Hsid in *. split; [by constructor|]. pose proof (last_seq_max _ fs Hn) as [Hall ?].
    split_and!; [done | lia|]. destruct Hn as [Hso Hf]. split; [done|]. apply Forall_forall. intros f Hin. rewrite Forall_forall in Hf, Hall.
    specialize (Hf f Hin). specialize (Hall f Hin). split; [lia | apply Hf].
Qed.


(** RESUME_OK's number is used twice.  It is not kept in the replay buffer: a client that
    received it, acknowledges it and resumes again before another frame is written gets the
    next RESUME_OK under a number it has already acknowledged. *)
Theorem resume_number_reused sid L fs c c' LastAckSeq reqID reqID' now now' body body' :
  sid ≠ "" → lived sid L fs → sessionID c = sid → sessionID c' = sid → outSeq (the_conn L) + 1 < 2 ^ 64 →
  let L1 := doResume c (replay L) LastAckSeq reqID now body (delivered L) in
  let L2 := doResume c' (replay L1) (outSeq (the_conn L1)) reqID' now' body' (delivered L1) in
  wire L2 = [Encode (mkEnvelope MsgResumeOK (outSeq (the_conn L1)) (lastClientSeq c') reqID' body')].
Proof.
  intros Hs0 Hl Hsid Hsid' Hb L1 L2. destruct (lived_inv sid L fs Hs0 Hl) as (m & Hm & Hh & _ & Hlo & Hnum).
  pose proof (last_seq_le _ _ Hnum Hlo). assert (history (sessionID c) m fs) as Hhc by by rewrite Hsid.
  destruct (doResume_numbers c m fs _ LastAckSeq reqID now body (delivered L) Hhc Hnum) as (Hr1 & Ho1 & _); [lia|].
  unfold L2, L1. rewrite Hm, Hr1, Ho1.
  assert (history (sessionID c') (Since m (sessionID c) LastAckSeq now).1 fs) as Hh' by (rewrite Hsid'; by constructor).
  destruct (doResume_numbers c' _ fs _ (last_seq fs + 1) reqID' now' body'
    (delivered (doResume c (Some m) LastAckSeq reqID now body (delivered L))) Hh' Hnum) as (_ & _ & _ & ->); [lia|].
  assert (filter (λ f, last_seq fs + 1 < Replay.Seq f) fs = []) as Hnone.
  { apply filter_none, Forall_forall. intros f Hin. destruct (last_seq_max _ fs Hnum) as [Hall _]. rewrite Forall_forall in Hall. specialize (Hall f Hin). lia. }
  rewrite (since_missed _ _ _ _ _ Hh'); [by rewrite Hnone | apply Hnum | by rewrite Hnone].
Qed.
End facts.

(** ** Witnesses *)
Section witnesses.
#[local] Existing Instance canonical_order.

Definition w_frame (ty : Z) (text : string) : Delivery bytes := mkDelivery ty 0 (BBytes (sbytes text)) None None.
Definition w_conn (n : Z) : conn bytes := mkConn 4 0 "s" n 0 [] [] [] false.
Definition w_line : Line bytes := mkLine (w_conn 1) [sbytes "auth"] (Some (NewMemory 0)) [].
(** A frame queued and written. *)
Definition w_write (d : Delivery bytes) (L : Line bytes) : Line bytes := (writeOne id true 1 2 d L).1.
Definition w_busy : Line bytes := on_conn (λ c, set_queue Hi [w_frame MsgPong "pong"] (set_queue Mid [w_frame MsgNew "hello"] c)) w_line.
Definition w_trace : list (label (V := bytes)) := [LWrite Mid (w_frame MsgNew "hello") true; LWrite Hi (w_frame MsgPong "pong") true].
Definition w_done : Line bytes := w_write (w_frame MsgPong "pong") (on_conn (set_queue Hi []) (w_write (w_frame MsgNew "hello") (on_conn (set_queue Mid []) w_busy))).

Lemma w_busy_run : steps id (P1, w_busy) w_trace (P0, w_done).
Proof.
  apply (steps_snoc _ _ [LWrite Mid (w_frame MsgNew "hello") true] (P0, w_write (w_frame MsgNew "hello") (on_conn (set_queue Mid []) w_busy))).
  - apply (steps_snoc _ _ [] (P1, w_busy)); [constructor|]. by apply (step_write id P1 Mid (w_frame MsgNew "hello") [] true 1 2 w_busy _ true).
  - by apply (step_write id P0 Hi (w_frame MsgPong "pong") [] true 1 2 _ _ true).
Qed.

Lemma lanes_lossless_witness :
  ∃ L, steps id (P0, w_line) [LSend (w_frame MsgNew "hello")] (P0, L) ∧ outMid (the_conn L) = [w_frame MsgNew "hello"].
Proof.
  exists (on_conn (λ c, (Send (w_frame MsgNew "hello") c).1) w_line).
  assert (steps id (P0, w_line) [LSend (w_frame MsgNew "hello")] (P0, on_conn (λ c, (Send (w_frame MsgNew "hello") c).1) w_line)) as Hst.
  { apply (steps_snoc _ _ [] (P0, w_line)); [constructor | apply step_send]. }
  split; [exact Hst|]. destruct (lanes_lossless id _ _ _ _ Hst) as (Hm & _); [by intros [] | done | done|]. symmetry. exact (Hm Mid ltac:(done)).
Defined.

Lemma control_within_two_witness : Mid = Hi ∨ Hi = Hi.
Proof. exact (control_within_two id P1 w_busy w_trace (P0, w_done) Mid _ Hi _ [] w_busy_run ltac:(done) eq_refl). Defined.

Lemma wire_consecutive_witness : ∃ es, wire w_done = [sbytes "auth"] ++ (Encode <$> es) ∧ Envelope.Seq <$> es = seqZ 2 (len es).
Proof. apply (wire_consecutive id P1 w_busy w_trace P0 w_done w_busy_run); by vm_compute. Defined.

Lemma w_lived : lived id "s" w_line [].
Proof. apply lived_auth; [done | done | constructor]. Qed.


Lemma resume_number_reused_witness :
  wire (doResume (w_conn 0) (replay (doResume (w_conn 0) (replay w_line) 0 9 5 (sbytes "ok") [])) 1 10 6 (sbytes "ok") []) =
  [Encode (mkEnvelope MsgResumeOK 1 0 10 (sbytes "ok"))].
Proof.
  apply (resume_number_reused id "s" w_line [] (w_conn 0) (w_conn 0) 0 9 10 5 6 (sbytes "ok") (sbytes "ok") ltac:(done) w_lived); by vm_compute.
Defined.

(** A session authenticated again by its token, on a new connection whose counter starts
    over, keeps the buffer of the connection before. *)
Definition w_before : Line bytes := w_write (w_frame MsgNew "old 4") (w_write (w_frame MsgNew "old 3") (w_write (w_frame MsgNew "old 2") w_line)).
Definition w_again : Line bytes := w_write (w_frame MsgNew "new 2") (mkLine (w_conn 1) [sbytes "auth"] (replay w_before) []).

(** Signing in again with a session's token spoils its replay.  The new connection numbers
    its frames from 1 again while the buffer still holds the frames of the connection
    before: a resume that acknowledges number 2 of the new connection replays numbers 3 and
    4 of the old one. *)
Example reauth_replays_old :
  wire (doResume (w_conn 0) (replay w_again) 2 9 5 (sbytes "ok") []) =
  [Encode (mkEnvelope MsgNew 3 0 0 (sbytes "old 3")); Encode (mkEnvelope MsgNew 4 0 0 (sbytes "old 4"));
   Encode (mkEnvelope MsgResumeOK 5 0 9 (sbytes "ok"))].
Proof. by vm_compute. Qed.
End witnesses.
