(* ===== verification/Presence.v ===== *)
(** * Presence

    [internal/presence] presence.go with its in-process backend; what a connection does to
    the hub, the registry and presence when it opens and closes ([register], [close] and
    [stillConnectedElsewhere] of [internal/gateway] conn.go); and the audience policies of
    presence_audience.go and preview_policy.go.  Times are clock readings in
    milliseconds. *)

From S2P Require Import Prelude Bytes EventBus Router Hub MemAccounts Contact Fanout Delivery.

(** ** The service *)

Record PresenceState := mkPresenceState { PS_UserID : string; PS_Online : bool; PS_LastSeenMs : Z }.
Abbreviation memoryBackend := (gmap string PresenceState).

Definition SetOnline (userID : string) (now : Z) (d : memoryBackend) : memoryBackend :=
  <[userID := mkPresenceState userID true now]> d.
Definition SetOffline (userID : string) (lastSeen : Z) (d : memoryBackend) : memoryBackend :=
  <[userID := mkPresenceState userID false lastSeen]> d.
Definition Get (userID : string) (d : memoryBackend) : PresenceState := default (mkPresenceState userID false 0) (d !! userID).

(** What is published: transitions and typing indicators. *)
Inductive PresenceEvent := EPresence (b : PresenceBody) | ETyping (b : TypingBody).

Record World := mkWorld { pres : memoryBackend; bus : list (Event PresenceEvent) }.

Definition publish (p : PresenceState) (w : World) : World :=
  mkWorld (pres w) (bus w ++ [mkEvent SubjPresence (PS_UserID p) (EPresence (mkPresence (PS_UserID p) (PS_Online p) (PS_LastSeenMs p))) ∅]).
(** Two readings: the backend's and the event's. *)
Definition Online (userID : string) (now now' : Z) (w : World) : World :=
  publish (mkPresenceState userID true now') (mkWorld (SetOnline userID now (pres w)) (bus w)).
Definition Heartbeat (userID : string) (now : Z) (w : World) : World := mkWorld (SetOnline userID now (pres w)) (bus w).
Definition Offline (userID : string) (now : Z) (w : World) : World :=
  publish (mkPresenceState userID false now) (mkWorld (SetOffline userID now (pres w)) (bus w)).
Definition Typing (headers : Headers) (chatID userID : string) (active : bool) (w : World) : World :=
  mkWorld (pres w) (bus w ++ [mkEvent SubjTyping chatID (ETyping (mkTyping chatID userID active)) headers]).

(** ** Connections of a fleet *)

(** An authenticated connection; [c_id] tells connections apart. *)
Record gconn := mkGconn { c_user : string; c_device : string; c_node : string; c_id : nat }.
#[global] Instance gconn_eq_dec : EqDecision gconn.
Proof. solve_decision. Defined.
#[local] Instance gconn_sink : SinkOps gconn (Delivery unit) (list (gconn * Delivery unit)) := log_sinks c_device (λ _, true).

Record Nodes := mkNodes { hubs : gmap string (Hub gconn); rt : memoryRouter; world : World }.

Definition hub_of (n : string) (s : Nodes) : Hub gconn := default NewHub (hubs s !! n).
Definition set_hub (n : string) (h : Hub gconn) (s : Nodes) : Nodes := mkNodes (<[n := h]> (hubs s)) (rt s) (world s).

Section lifecycle.
Context `{RangeOrder}.

Definition register (c : gconn) (now now' : Z) (s : Nodes) : Nodes :=
  let s := set_hub (c_node c) (Register (hub_of (c_node c) s) (c_user c) c) s in
  let s := mkNodes (hubs s) (Bind (rt s) (c_user c) (c_device c) (c_node c)) (world s) in
  mkNodes (hubs s) (rt s) (Online (c_user c) now now' (world s)).

Definition stillConnectedElsewhere (c : gconn) (s : Nodes) : bool :=
  IsOnline (hub_of (c_node c) s) (c_user c) || negb (bool_decide (NodesFor (rt s) (c_user c) = [])).

(** [close] up to the question whether another connection remains, and what follows. *)
Definition detach (c : gconn) (s : Nodes) : Nodes :=
  let s := mkNodes (hubs s) (Unbind (rt s) (c_user c) (c_device c) (c_node c)) (world s) in
  set_hub (c_node c) (unregister (c_user c) c (hub_of (c_node c) s)) s.
Definition announce_gone (c : gconn) (now : Z) (s : Nodes) : Nodes := mkNodes (hubs s) (rt s) (Offline (c_user c) now (world s)).
Definition close (c : gconn) (now : Z) (s : Nodes) : Nodes :=
  let s := detach c s in if stillConnectedElsewhere c s then s else announce_gone c now s.
(** [refreshLiveness]. *)
Definition refreshLiveness (c : gconn) (now : Z) (s : Nodes) : Nodes :=
  mkNodes (hubs s) (Refresh (rt s) (c_user c) (c_device c)) (Heartbeat (c_user c) now (world s)).

(** The fleets that connections produce, with those open; each closes once. *)
Inductive fleet : Nodes → list gconn → Prop :=
  | fleet_new : fleet (mkNodes ∅ Router.NewMemory (mkWorld ∅ [])) []
  | fleet_open s live c now now' : fleet s live → c ∉ live → fleet (register c now now' s) (c :: live)
  | fleet_close s live live' c now : fleet s live → live ≡ₚ c :: live' → fleet (close c now s) live'
  | fleet_refresh s live c now : fleet s live → c ∈ live → fleet (refreshLiveness c now s) live
  | fleet_typing s live headers chat u b :
      fleet s live → fleet (mkNodes (hubs s) (rt s) (Typing headers chat u b (world s))) live.

(** The last transition of [u] that was published. *)
Definition transition (u : string) (e : Event PresenceEvent) : option bool :=
  match Event_Data e with EPresence b => if bool_decide (Presence_UserID b = u) then Some (Presence_Online b) else None | _ => None end.
Definition last_known (u : string) (evs : list (Event PresenceEvent)) : bool := default false (last (omap (transition u) evs)).

(** ** Who may see what *)

Definition MaySeePresence (ownerID viewerID : string) : M ContactState bool :=
  if bool_decide (ownerID = viewerID) then mret true
  else
    r ← attempt (on_users (GetUser ownerID));
    match r with
    | Err store_ErrNotFound => mret false
    | Err e => fail e
    | Ok u =>
        let v := NormalizeVisibility (Privacy_LastSeen (User_Privacy u)) in
        if bool_decide (v = VisibilityEveryone) then mret true
        else if bool_decide (v = VisibilityNobody) then mret false
        else IsContact ownerID viewerID
    end.
Definition WantsPushPreview (userID : string) : M ContactState bool :=
  r ← attempt (on_users (GetUser userID));
  match r with Err _ => mret false | Ok u => mret (Privacy_PushPreview (User_Privacy u)) end.

(** ** Lemmas *)

Definition route_of (c : gconn) : conn := mkConn (c_user c) (c_device c) (c_node c).

(** The hubs hold open connections only, each under its own user, device and node. *)
Definition hub_ok (live : list gconn) (n : string) (h : Hub gconn) : Prop :=
  ∃ t, represents h t ∧ ∀ u d c, t !! (u, d) = Some c → c ∈ live ∧ c_user c = u ∧ c_device c = d ∧ c_node c = n.

Lemma hub_ok_mono live live' n h : (∀ c, c ∈ live → c ∈ live') → hub_ok live n h → hub_ok live' n h.
Proof. intros Hl (t & Hr & Ht). exists t. split; [done|]. intros u d c Hc. destruct (Ht u d c Hc) as (? & ? & ? & ?). auto. Qed.
Lemma hub_ok_register live c h : hub_ok live (c_node c) h → hub_ok (c :: live) (c_node c) (Register h (c_user c) c).
Proof.
  intros (t & Hr & Ht). exists (t_register t (c_user c) c). split; [by apply represents_Register|]. intros u d c'. unfold t_register.
  rewrite lookup_insert_Some. intros [[[= <- <-] <-]|[_ Hc]]; [by split; [left|]|]. destruct (Ht u d c' Hc) as (? & ? & ? & ?). by split; [right|].
Qed.
Lemma hub_ok_unregister live live' c h :
  live ≡ₚ c :: live' → hub_ok live (c_node c) h → hub_ok live' (c_node c) (unregister (c_user c) c h).
Proof.
  intros Hl (t & Hr & Ht). exists (t_unregister (c_user c) c t). split; [by apply represents_unregister|]. intros u d c'. unfold t_unregister.
  intros Hc. assert (t !! (u, d) = Some c') as Ht' by (case_bool_decide; [by apply lookup_delete_Some in Hc as [_ ?] | done]).
  destruct (Ht u d c' Ht') as (Hin & Hu & Hd & Hn). split; [|done]. rewrite Hl in Hin. apply elem_of_cons in Hin as [->|Hin]; [|done].
  exfalso. rewrite <- Hu, <- Hd in Ht', Hc. change (DeviceID c) with (c_device c) in Hc. rewrite bool_decide_true in Hc by done.
  by rewrite lookup_delete_eq in Hc.
Qed.

Lemma nodes_nil m live u : reachable m live → NodesFor m u = [] ↔ ∀ c, c ∈ live → cuser c ≠ u.
Proof.
  intros Hre. assert (∀ n, n ∈ NodesFor m u ↔ ∃ d, mkConn u d n ∈ live) as Hn by (intros n; by apply nodes_live). split.
  - intros Hz [u' d n] Hin Hu. cbn in Hu. subst u'. assert (n ∈ NodesFor m u) as Hx by (apply Hn; by exists d). rewrite Hz in Hx. by apply not_elem_of_nil in Hx.
  - intros Hl. apply elem_of_nil_inv. intros n [d Hin]%Hn. by apply (Hl _ Hin).
Qed.

Lemma still_connected live c s :
  reachable (rt s) (route_of <$> live) → hub_ok live (c_node c) (hub_of (c_node c) s) →
  stillConnectedElsewhere c s = bool_decide (Exists (λ c', c_user c' = c_user c) live).
Proof.
  intros Hre (t & Hr & Ht). unfold stillConnectedElsewhere. pose proof (nodes_nil (rt s) _ (c_user c) Hre) as Hn.
  assert ((∀ c', c' ∈ route_of <$> live → cuser c' ≠ c_user c) ↔ ¬ Exists (λ c', c_user c' = c_user c) live) as Hl.
  { rewrite Exists_exists. split.
    - intros Hall (c' & Hin & Hc). apply (Hall (route_of c')); [by apply list_elem_of_fmap_2 | done].
    - intros Hno c0 (c' & -> & Hin)%list_elem_of_fmap Hc. apply Hno. by exists c'. }
  rewrite Hl in Hn. destruct (bool_decide_reflect (Exists (λ c', c_user c' = c_user c) live)) as [He|He].
  - rewrite (bool_decide_false (NodesFor _ _ = [])) by tauto. apply orb_true_r.
  - rewrite (bool_decide_true (NodesFor _ _ = [])) by tauto. rewrite orb_false_r. destruct (IsOnline _ _) eqn:Eo; [|done].
    apply (represents_online _ t) in Eo as (d & c' & Hc'); [|done]. destruct (Ht _ _ _ Hc') as (Hin & Hu & _). destruct He.
    apply Exists_exists. by exists c'.
Qed.

(** What the backend says of a user and what was last announced, given who is connected. *)
Definition known_ok (live : list gconn) (w : World) : Prop := ∀ u,
  PS_Online (Get u (pres w)) = bool_decide (Exists (λ c, c_user c = u) live) ∧ last_known u (bus w) = PS_Online (Get u (pres w)).

Lemma last_known_snoc u evs e : last_known u (evs ++ [e]) = match transition u e with Some b => b | None => last_known u evs end.
Proof.
  unfold last_known. rewrite omap_app. cbn [omap list_omap]. destruct (transition u e); [by rewrite last_snoc | by rewrite app_nil_r].
Qed.
Lemma known_set live live' u b w d now :
  known_ok live w → d = <[u := mkPresenceState u b now]> (pres w) →
  (∀ v, v ≠ u → Exists (λ c, c_user c = v) live' ↔ Exists (λ c, c_user c = v) live) →
  (b = true ↔ Exists (λ c, c_user c = u) live') → ∀ now', known_ok live' (publish (mkPresenceState u b now') (mkWorld d (bus w))).
Proof.
  intros Hk -> Hother Hu now' v. cbn [publish pres bus PS_UserID PS_Online PS_LastSeenMs]. rewrite last_known_snoc. unfold transition.
  cbn [Event_Data Presence_UserID Presence_Online]. unfold Get. destruct (decide (v = u)) as [->|Hne].
  - rewrite lookup_insert_eq, (bool_decide_true (u = u)) by done. cbn [default from_option id PS_Online]. split; [|done].
    destruct b; symmetry; [apply bool_decide_eq_true; tauto | apply bool_decide_eq_false; intros He; by apply Hu in He].
  - rewrite lookup_insert_ne, (bool_decide_false (u = v)) by done. destruct (Hk v) as [H1 H2]. split; [|done]. unfold Get in H1. rewrite H1.
    apply bool_decide_ext. by rewrite Hother.
Qed.

Lemma hub_of_set n n' h s : hub_of n' (set_hub n h s) = if bool_decide (n = n') then h else hub_of n' s.
Proof. unfold hub_of, set_hub. cbn [hubs]. case_bool_decide as Hn; [subst; by rewrite lookup_insert_eq | by rewrite lookup_insert_ne]. Qed.

Lemma fleet_inv s live :
  fleet s live → reachable (rt s) (route_of <$> live) ∧ (∀ n, hub_ok live n (hub_of n s)) ∧ known_ok live (world s).
Proof.
  induction 1 as [|s live c now now' _ (IHr & IHh & IHk) Hc|s live live' c now _ (IHr & IHh & IHk) Hl|s live c now _ (IHr & IHh & IHk) Hc
    |s live hd ch u b _ (IHr & IHh & IHk)].
  - split_and!; [constructor| |].
    + intros n. unfold hub_of. cbn [hubs]. rewrite lookup_empty. exists ∅. split; [apply represents_NewHub|]. intros u d c. by rewrite lookup_empty.
    + intros u. unfold Get, last_known. cbn. by rewrite lookup_empty.
  - cbn [rt world register]. split_and!.
    + rewrite fmap_cons. by constructor.
    + intros n. unfold register. change (hub_ok (c :: live) n (hub_of n (set_hub (c_node c) (Register (hub_of (c_node c) s) (c_user c) c) s))).
      rewrite hub_of_set. case_bool_decide as Hn; [subst n; by apply hub_ok_register|]. eapply hub_ok_mono; [|apply IHh]. intros c' ?. by right.
    + unfold Online. eapply known_set; [exact IHk | done | |].
      * intros v Hv. rewrite Exists_cons. split; [intros [?|?]; [congruence | done] | by right].
      * split; [intros _; by left | done].
  - assert (reachable (rt (detach c s)) (route_of <$> live')) as Hre.
    { cbn [detach set_hub rt]. eapply reach_unbind; [exact IHr|]. rewrite Hl. by rewrite fmap_cons. }
    assert (∀ n, hub_ok live' n (hub_of n (detach c s))) as Hh.
    { intros n. unfold detach. rewrite hub_of_set. change (hub_of ?n (mkNodes (hubs s) _ _)) with (hub_of n s).
      case_bool_decide as Hn; [subst n; by eapply hub_ok_unregister|]. change (hub_of n (mkNodes (hubs s) _ _)) with (hub_of n s).
      destruct (IHh n) as (t & Hr & Ht). exists t. split; [done|]. intros u d c' Hc'. destruct (Ht u d c' Hc') as (Hin & ? & ? & ?).
      split; [|done]. rewrite Hl in Hin. apply elem_of_cons in Hin as [->|]; [congruence | done]. }
    unfold close. rewrite (still_connected live' c _ Hre (Hh _)).
    destruct (bool_decide_reflect (Exists (λ c', c_user c' = c_user c) live')) as [He|He]; split_and!; try done.
    + intros u. destruct (IHk u) as [H1 H2]. split; [|done]. cbn [detach set_hub world]. rewrite H1. apply bool_decide_ext. rewrite Hl, Exists_cons.
      split; [intros [<-|?]; done | by right].
    + unfold announce_gone, Offline. cbn [world detach set_hub]. eapply known_set; [exact IHk | done | |done].
      intros v Hv. rewrite Hl, Exists_cons. split; [by right | intros [?|?]; [congruence | done]].
  - split_and!; [by apply reach_refresh | done|]. intros v. destruct (IHk v) as [H1 H2]. cbn [refreshLiveness world Heartbeat pres bus] in *.
    unfold Get, SetOnline in *. destruct (decide (v = c_user c)) as [->|Hne]; [|by rewrite lookup_insert_ne].
    assert (Exists (λ c0, c_user c0 = c_user c) live) as He by (apply Exists_exists; by exists c).
    rewrite H2, H1, lookup_insert_eq, (bool_decide_true (Exists _ _)) by done. done.
  - split_and!; [done..|]. intros v. cbn [world Typing pres bus]. by rewrite last_known_snoc.
Qed.

(** ** Theorems *)


(** A reconnect can be announced as a departure.  Between the moment a closing connection
    finds no other and the moment it announces the user gone, another device may connect:
    the user is then stored and announced offline with that connection open. *)
Theorem reconnect_race s live c c' now now' now'' :
  fleet s live → live ≡ₚ [c] → c' ≠ c → c_user c' = c_user c →
  stillConnectedElsewhere c (detach c s) = false ∧
  let s' := announce_gone c now'' (register c' now now' (detach c s)) in
  PS_Online (Get (c_user c) (pres (world s'))) = false ∧ last_known (c_user c) (bus (world s')) = false ∧
  NodesFor (rt s') (c_user c) = [c_node c'].
Proof.
  intros Hf Hl Hne Hu. destruct (fleet_inv s live Hf) as (Hr & Hh & Hk).
  assert (reachable (rt (detach c s)) []) as Hre by (cbn [detach set_hub rt]; eapply reach_unbind; [exact Hr | by rewrite Hl]).
  split.
  - unfold stillConnectedElsewhere. rewrite (proj2 (nodes_nil _ _ _ Hre)) by (intros ? []%not_elem_of_nil).
    rewrite orb_false_r. destruct (IsOnline _ _) eqn:Eo; [|done].
    assert (hub_ok [] (c_node c) (hub_of (c_node c) (detach c s))) as (t & Hrep & Ht).
    { unfold detach. rewrite hub_of_set, bool_decide_true by done. by apply (hub_ok_unregister live []). }
    destruct (proj1 (represents_online _ t _ Hrep) Eo) as (d & c0 & Hc0). destruct (Ht _ _ _ Hc0) as (Hin & _). by apply not_elem_of_nil in Hin.
  - cbv zeta. cbn [announce_gone world Offline publish pres bus register]. rewrite last_known_snoc. unfold transition. cbn [Event_Data Presence_UserID PS_UserID].
    rewrite bool_decide_true by done. unfold Get, SetOffline. rewrite lookup_insert_eq. split_and!; [done | done|]. cbn [rt].
    assert (reachable (Bind (rt (detach c s)) (c_user c') (c_device c') (c_node c')) [route_of c']) as Hb by by constructor.
    change (rt (set_hub _ _ (detach c s))) with (rt (detach c s)).
    assert (∀ n, n ∈ NodesFor (Bind (rt (detach c s)) (c_user c') (c_device c') (c_node c')) (c_user c) ↔ n ∈ [c_node c']) as Hn.
    { intros n. rewrite (nodes_live _ _ _ _ Hb), list_elem_of_singleton, <- Hu. unfold route_of. setoid_rewrite list_elem_of_singleton.
      split; [by intros [d [= _ ->]] | intros ->; by exists (c_device c')]. }
    apply Permutation_singleton_r, NoDup_Permutation; [apply NoDup_range_keys | apply NoDup_singleton | exact Hn].
Qed.
End lifecycle.

(** The owner's settings and address book decide, and nothing is written. *)
Theorem audience_exact o v st :
  MaySeePresence o v st = (st,
    Ok (bool_decide (o = v) ||
        match users (accounts st) !! o with
        | None => false
        | Some u =>
            let vis := NormalizeVisibility (Privacy_LastSeen (User_Privacy u)) in
            bool_decide (vis = VisibilityEveryone) ||
            (negb (bool_decide (vis = VisibilityNobody)) &&
             match book o (contacts st) !! v with Some c => negb (Contact_Blocked c) | None => false end)
        end)).
Proof.
  unfold MaySeePresence. destruct (bool_decide (o = v)); [done|]. cbn [orb].
  assert (attempt (on_users (GetUser o)) st = (st, Ok (match users (accounts st) !! o with Some u => Ok u | None => Err store_ErrNotFound end))) as Hg.
  { destruct st as [a d]. unfold attempt, on_users, GetUser. cbn [accounts contacts]. rewrite (bind_Ok _ _ _ a a) by done. unfold found.
    by destruct (users a !! o). }
  rewrite (bind_Ok _ _ _ _ _ Hg). destruct (users (accounts st) !! o) as [u|]; [|done]. cbv zeta.
  set (vis := NormalizeVisibility _). destruct (bool_decide (vis = VisibilityEveryone)); [done|].
  destruct (bool_decide (vis = VisibilityNobody)); [done | apply IsContact_run].
Qed.

(** ** Witnesses *)
Section witnesses.
#[local] Existing Instance canonical_order.

Definition w_phone : gconn := mkGconn "7" "phone" "n1" 0.
Definition w_laptop : gconn := mkGconn "7" "laptop" "n2" 1.
Definition w_start : Nodes := mkNodes ∅ Router.NewMemory (mkWorld ∅ []).
Definition w_one : Nodes := register w_phone 1 1 w_start.

Lemma w_one_fleet : fleet w_one [w_phone].
Proof. apply fleet_open; [constructor | apply not_elem_of_nil]. Qed.


Lemma reconnect_race_witness :
  PS_Online (Get "7" (pres (world (announce_gone w_phone 4 (register w_laptop 2 3 (detach w_phone w_one)))))) = false ∧
  NodesFor (rt (announce_gone w_phone 4 (register w_laptop 2 3 (detach w_phone w_one)))) "7" = ["n2"].
Proof.
  destruct (reconnect_race w_one [w_phone] w_phone w_laptop 2 3 4 w_one_fleet) as (_ & H1 & _ & H2); [done | done | done|]. by split.
Defined.
End witnesses.
