(* ===== verification/Gateway.v ===== *)
(** * The gateway's message handlers

    [internal/gateway] resolve.go, the message handlers of handlers_message.go, the secret-chat
    refusals of handlers_secretchat.go, the contact, forwarding and scheduling handlers of
    handlers_social.go, the poll handlers of handlers_calls.go, the budgets and routing of
    handlers.go [dispatch], and the scheduler's [BlockGate] of [internal/wiring] wiring.go.
    These are all the handlers that put messages into the log; those of other frames are not
    in [Request].  Everything runs against the in-process
    services of the other files.  A request body arrives decoded, [None] standing for a body
    that does not decode; outcomes of the rate limiters, fresh ids and clock readings are
    arguments; a handler's result is the frames it queues for its own connection. *)

From S2P Require Import Prelude Bytes GoStrings Strconv Social Poll Fanout Presence EventBus Model MemChats MemMessages MessageLog MemAccounts ChatService MessageService Contact Schedule.

(** ** The services behind a gateway *)

(** The polls' tables and the events the poll service published. *)
Record Ballots := mkBallots { bal_tables : PollTables; bal_events : list (Event PollStateBody) }.

Record Backend {B : Type} := mkBackend {
  be_people : ContactState;
  be_local : Local (B := B);
  be_presence : Presence.World;
  be_polls : Ballots;
}.
#[global] Arguments Backend : clear implicits.

Section backend.
Context {B : Type} `{Bus EventBody B}.
Variable media : option (string → list string → ChatDB → M B unit).

Definition on_people {A} (m : M ContactState A) : M (Backend B) A := λ w,
  let '(p, r) := m (be_people w) in (mkBackend _ p (be_local w) (be_presence w) (be_polls w), r).
Definition on_local {A} (m : M (Local (B := B)) A) : M (Backend B) A := λ w,
  let '(l, r) := m (be_local w) in (mkBackend _ (be_people w) l (be_presence w) (be_polls w), r).
Definition on_chats {A} (m : M Service A) : M (Backend B) A := on_local (on_chat m).

#[global] Instance backend_store : HasStore (Backend B) := {|
  mdb w := mdb (be_local w);
  set_mdb db w := mkBackend _ (be_people w) (set_mdb db (be_local w)) (be_presence w) (be_polls w);
|}.
#[global] Instance backend_Chats `{RangeOrder} : Chats (Ticks * Ticks) (Backend B) := {|
  Chats_CanPost t c u := on_local (Chats_CanPost t c u);
  Chats_IsMember t c u := on_local (Chats_IsMember t c u);
  Chats_CanModerate t c u := on_local (Chats_CanModerate t c u);
|}.
#[global] Instance backend_Bus : Bus EventBody (Backend B) := λ e, on_local (Publish e).
#[global] Instance backend_media : MediaCollector (Backend B) := {|
  DeleteIfUnreferenced :=
    (λ del reason refs, on_local (del reason refs)) <$> DeleteIfUnreferenced (MediaCollector := local_media media);
|}.

(** What the poll service is given. *)
#[global] Instance backend_authority `{RangeOrder} : ChatAuthority (Ticks * Ticks) (Backend B) := {|
  ca_IsMember t c u := on_chats (IsMember t.1 t.2 c u);
  ca_CanPin t c u := on_chats (CanPin t.1 t.2 c u);
  ca_MemberIDs t c := on_chats (all_members t.1 c);
|}.
Definition set_polls (b : Ballots) (w : Backend B) : Backend B := mkBackend _ (be_people w) (be_local w) (be_presence w) b.
#[global] Instance backend_polls : Table PollTables (Backend B) := {|
  tbl w := bal_tables (be_polls w);
  set_tbl d w := set_polls (mkBallots d (bal_events (be_polls w))) w;
|}.
#[global] Instance backend_poll_bus : Bus PollStateBody (Backend B) := λ e,
  modify (λ w, set_polls (mkBallots (bal_tables (be_polls w)) (bal_events (be_polls w) ++ [e])) w).
End backend.

(** ** Requests and replies *)

Definition ErrProtocol : Z := 1000.
Definition ErrForbidden : Z := 3000.
Definition ErrNotFound : Z := 3001.
Definition ErrConflict : Z := 3002.
Definition ErrBadArg : Z := 3003.
Definition ErrRateLimited : Z := 4000.
Definition ErrFlood : Z := 4001.
Definition ErrInternal : Z := 5000.

Definition CapBatching : Z := Z.shiftl 1 1.

Record SendBody := mkSendBody {
  SendB_ChatID : string;
  SendB_DedupKey : string;
  SendB_Text : string;
  SendB_MediaRef : string;
  SendB_ReplyTo : string;
  SendB_TTLSeconds : Z;
  SendB_Attachment : option WireAttachment;
}.
Record ReadReq := mkReadReq { ReadB_ChatID : string; ReadB_UpToMessageID : string; ReadB_UpToChatSeq : Z }.
Record EditBody := mkEditBody { EditB_ChatID : string; EditB_MessageID : string; EditB_Text : string }.
Record DeleteBody := mkDeleteBody { DeleteB_ChatID : string; DeleteB_MessageID : string; DeleteB_ForAll : bool }.
Record HistoryBody := mkHistoryBody { HistB_ChatID : string; HistB_BeforeSeq : Z; HistB_Limit : Z }.
Record ThreadBody := mkThreadBody { ThreadB_ChatID : string; ThreadB_RootID : string; ThreadB_AfterSeq : Z; ThreadB_Limit : Z }.
Record ForwardBody := mkForwardBody {
  FwdB_FromChatID : string;
  FwdB_MessageID : string;
  FwdB_ToChatID : string;
  FwdB_DedupKey : string;
}.
Record ScheduleBody := mkScheduleBody {
  SchedB_ChatID : string;
  SchedB_Text : string;
  SchedB_MediaRef : string;
  SchedB_Attachment : option WireAttachment;
  SchedB_ReplyTo : string;
  SchedB_TTLSeconds : Z;
  SchedB_SendAt : Z;
}.
Record PollCreateBody := mkPollCreate {
  PollC_ChatID : string;
  PollC_Question : string;
  PollC_Options : list string;
  PollC_MultiChoice : bool;
  PollC_Anonymous : bool;
}.
Record ScheduledItem := mkItem { Item_ID : string; Item_ChatID : string; Item_Text : string; Item_SendAt : Z }.
Record WireContact := mkWireContact { WC_UserID : string; WC_Name : string; WC_Blocked : bool; WC_UpdatedAt : Z }.

(** The text of an error reply: a literal, or the [Error()] of an error value. *)
Inductive text := Lit (s : string) | Of (e : error).

Inductive Reply :=
  | RError (code : Z) (msg : text) (retryAfterMs : Z)
  | RPong
  | RSendAck (dedup id chat : string) (seq ts : Z) (duplicate : bool)
  | RNew (b : NewMessageBody)
  | RHistoryPage (ms : list NewMessageBody) (chat : string) (nextBefore : Z) (done : bool)
  | RHistoryOK (chat : string) (nextBefore : Z) (done : bool)
  | RThreadOK (chat root : string) (nextAfter : Z) (done : bool)
  | RScheduled (items : list ScheduledItem)
  | RContactList (cs : list WireContact) (cursor : Z)
  | RPollState (b : PollStateBody).

Definition replyError (code : Z) (msg : string) : list Reply := [RError code (Lit msg) 0].
Definition replyErrorRetry (code : Z) (msg : string) (ms : Z) : list Reply := [RError code (Lit msg) ms].

(** The frames modelled here, with their bodies. *)
Inductive Request :=
  | QPing | QPong | QTransportAck
  | QSend (b : option SendBody) | QRead (b : option ReadReq) | QTyping (b : option TypingBody)
  | QThread (b : option ThreadBody) | QForward (b : option ForwardBody)
  | QSchedule (b : option ScheduleBody) | QScheduleList (chat : option string) | QScheduleCancel (id : option string)
  | QEdit (b : option EditBody) | QDelete (b : option DeleteBody) | QHistory (b : option HistoryBody)
  | QContactAdd (b : option (string * string)) | QContactRemove (target : option string)
  | QContactSync (since : option Z) | QBlock (b : option (string * bool))
  | QPollCreate (b : option PollCreateBody) | QPollVote (b : option (string * Z)) | QPollClose (id : option string)
  | QUnknown.

(** What resolving one chat target reads: the clock, a fresh chat id, the limiters. *)
Record Look := mkLook { l_ticks : Ticks; l_id : string; l_now : Z; l_lookup : bool; l_newChat : bool }.

(** What a poll request reads besides: the envelope's request id, the session, a fresh poll
    id, the handler's clock, the clocks of the membership questions. *)
Record PollInputs := mkPollInputs {
  pi_request : Z;
  pi_session : string;
  pi_id : string;
  pi_now : Z;
  pi_ticks : Ticks * Ticks;
  pi_ticks' : Ticks * Ticks;
}.

(** What serving a request reads. *)
Record Inputs := mkInputs {
  i_look : Look;
  i_look' : Look;            (* of a second target *)
  i_ticks : Ticks * Ticks;   (* of the authority, and of its second question *)
  i_ticks' : Ticks * Ticks;
  i_id : string;
  i_obID : string;
  i_now : Z;
  i_send : bool;             (* sendLimit, readLimit, typingLimit, typingChatLimit *)
  i_read : bool;
  i_typing : bool;
  i_typingChat : bool;
  i_poll : PollInputs;
}.

(** ** Identifiers *)

Definition validID (s : string) : bool :=
  let b := sbytes s in
  negb (bool_decide (s = "") || (20 <? len b)) && forallb (λ c, (48 <=? Zbyte c) && (Zbyte c <=? 57)) b.

Definition maxDeviceIDLen : Z := 64.
Definition validDeviceID (s : string) : bool :=
  let b := sbytes s in
  negb (maxDeviceIDLen <? len b) &&
  forallb (λ c, let ch := Zbyte c in
    (ch =? 45) || (ch =? 95) || (ch =? 46) || ((48 <=? ch) && (ch <=? 57)) ||
    ((97 <=? ch) && (ch <=? 122)) || ((65 <=? ch) && (ch <=? 90))) b.

(** ** Error mapping *)

Definition replyForError (err : error) : list Reply :=
  match err with
  | message_ErrForbidden => replyError ErrForbidden "forbidden"
  | store_ErrNotFound => replyError ErrNotFound "not found"
  | message_ErrTooLong | message_ErrEmptyMessage | message_ErrBadCommand => [RError ErrBadArg (Of err) 0]
  | _ => replyError ErrInternal "internal error"
  end.
Definition replyResolveErr (err : error) : list Reply :=
  match err with
  | gateway_errNewChatThrottled => replyErrorRetry ErrRateLimited "too many new chats" 1000
  | gateway_errLookupThrottled => replyErrorRetry ErrRateLimited "too many handle lookups" 2000
  | gateway_errBlocked => replyError ErrForbidden "blocked"
  | _ => [RError ErrNotFound (Of err) 0]
  end.
Definition replyBlocked (err : error) : list Reply :=
  match err with gateway_errBlocked => replyError ErrForbidden "blocked" | _ => replyForError err end.
Definition replyScheduleErr (err : error) : list Reply :=
  match err with
  | schedule_ErrForbidden => replyError ErrForbidden "forbidden"
  | schedule_ErrPastTime => replyError ErrBadArg "send time must be in the future"
  | schedule_ErrTooFar => replyError ErrBadArg "send time too far ahead"
  | _ => replyForError err
  end.
Definition replyContactErr (err : error) : list Reply :=
  match err with
  | contact_ErrSelf => replyError ErrBadArg "cannot target yourself"
  | contact_ErrBadName => replyError ErrBadArg "invalid name"
  | _ => replyForError err
  end.
Definition replyPollErr (err : error) : list Reply :=
  match err with
  | poll_ErrForbidden => replyError ErrForbidden "forbidden"
  | poll_ErrClosed => replyError ErrConflict "poll closed"
  | poll_ErrBadPoll => replyError ErrBadArg "invalid question or options"
  | poll_ErrBadOption => replyError ErrBadArg "option out of range"
  | _ => replyForError err
  end.

(** [msgToWire]. *)
Definition msgToWire (m : Message) : NewMessageBody :=
  let m := Redacted m in
  mkNewMessage (Message_ID m) (Message_ChatID m) (Message_SenderID m) (Message_Seq m) (Message_Text m)
    (Message_MediaRef m) (Message_ReplyTo m) (WireAttachment_of (Message_Attachment m)) (WireForward_of (Message_Forward m))
    (Message_ExpiresAt m) (Message_ThreadRoot m) (Message_ReplyCount m) (Message_Edited m) (Message_Deleted m)
    (Message_CreatedAt m).

(** Why an operation is refused on a chat of this kind; empty when it is not. *)
Definition secretRefusal (op : string) (typ : ChatType) : string :=
  if negb (IsSecret typ) then ""
  else if bool_decide (op = "send") then "this is a secret chat: use SECRET_SEND, which the server cannot read"
  else if bool_decide (op = "history") then "a secret chat has no server-side history; its messages live only on the devices"
  else if bool_decide (op = "forward") then "a message cannot be forwarded out of a secret chat"
  else if bool_decide (op = "membership") then "a secret chat has exactly two members"
  else if bool_decide (op = "invite") then "a secret chat cannot be joined by link"
  else "not available in a secret chat".

(** ** The handlers *)

Section gateway.
Context `{RangeOrder} `{Unicode} {B : Type} `{Bus EventBody B}.
Variable media : option (string → list string → ChatDB → M B unit).
Variable trace : gmap string string.

Abbreviation Back := (Backend B).
#[local] Instance gate_media : MediaCollector Back := backend_media media.
(** The scheduled rows beside everything else. *)
Abbreviation Gate := (SchedState Back).

Definition directPeer (t : Ticks) (userID chatID : string) : M Back (string * bool) :=
  on_chats (DirectPeer t chatID userID).

Definition refuseIfBlocked (t : Ticks) (userID chatID : string) : M Back unit :=
  r ← attempt (directPeer t userID chatID);
  match r with
  | Ok (peer, true) =>
      blocked ← on_people (BlocksBetween userID peer);
      guard_or (negb blocked) gateway_errBlocked
  | _ => mret tt
  end.

(** [@] is byte 64. *)
Definition resolveChat (l : Look) (userID target : string) : M Back string :=
  if negb (HasPrefix target "@") then
    guard_or (validID target) gateway_invalid_chat_id;;
    refuseIfBlocked (l_ticks l) userID target;;
    mret target
  else
    let uname := bstring (ToLower (TrimPrefix (byteZ 64) (sbytes target))) in
    r ← attempt (on_people (on_users (GetUserByUsername uname)));
    match r with
    | Err store_ErrNotFound => if negb (l_lookup l) then fail gateway_errLookupThrottled else fail gateway_no_such_user
    | Err e => fail e
    | Ok u =>
        blocked ← on_people (BlocksBetween userID (User_ID u));
        guard_or (negb blocked) gateway_errBlocked;;
        r ← attempt (on_chats (FindDirect userID (User_ID u)));
        match r with
        | Ok ch => mret (Chat_ID ch)
        | Err store_ErrNotFound =>
            guard_or (l_lookup l) gateway_errLookupThrottled;;
            guard_or (l_newChat l) gateway_errNewChatThrottled;;
            ch ← on_chats (EnsureDirect userID (User_ID u) (l_id l) (l_now l));
            mret (Chat_ID ch)
        | Err e => fail e
        end
    end.

(** The refusal that was queued, if any. *)
Definition refuseIfSecret (chatID op : string) : M Back (option (list Reply)) :=
  if bool_decide (chatID = "") then mret None
  else
    r ← attempt (on_chats (Get chatID));
    match r with
    | Err _ => mret None
    | Ok ch =>
        let msg := secretRefusal op (Chat_Type ch) in
        mret (if bool_decide (msg = "") then None else Some (replyError ErrForbidden msg))
    end.

(** [x, err := m; if err != nil { return onErr(err) }; k(x)]. *)
Definition or_reply {S A} (m : M S A) (onErr : error → list Reply) (k : A → M S (list Reply)) : M S (list Reply) :=
  r ← attempt m;
  match r with Err e => mret (onErr e) | Ok a => k a end.
(** [if c.refuseIfSecret(...) { return nil }; k]. *)
Definition unless_secret (chatID op : string) (k : M Back (list Reply)) : M Back (list Reply) :=
  r ← refuseIfSecret chatID op;
  match r with Some f => mret f | None => k end.

Definition sendAck (dedup : string) (r : Message * bool) : list Reply :=
  [RSendAck dedup (Message_ID r.1) (Message_ChatID r.1) (Message_Seq r.1) (Message_CreatedAt r.1) r.2].

Definition handleSend (i : Inputs) (userID : string) (body : option SendBody) : M Back (list Reply) :=
  match body with
  | None => mret (replyError ErrBadArg "bad send body")
  | Some b =>
      or_reply (resolveChat (i_look i) userID (SendB_ChatID b)) replyResolveErr (λ chatID,
      unless_secret chatID "send" (
      or_reply (Submit trace (i_ticks i) (i_id i) (i_obID i) (i_now i)
        (mkCommand OpCreate userID chatID "" (SendB_DedupKey b) (SendB_Text b) (SendB_MediaRef b) (SendB_ReplyTo b)
          (ModelAttachment (SendB_Attachment b)) (SendB_TTLSeconds b))) replyForError (λ res,
      mret (sendAck (SendB_DedupKey b) res))))
  end.

Definition handleRead (i : Inputs) (userID : string) (body : option ReadReq) : M Back (list Reply) :=
  match body with
  | None => mret (replyError ErrBadArg "bad read body")
  | Some b =>
      or_reply (resolveChat (i_look i) userID (ReadB_ChatID b)) replyResolveErr (λ chatID,
      or_reply (MarkRead trace (i_ticks i) (i_now i) userID chatID (ReadB_UpToChatSeq b)) replyForError (λ _, mret []))
  end.

Definition typing_event (chatID userID : string) (active : bool) : M Back unit := modify (λ w,
  mkBackend _ (be_people w) (be_local w) (Presence.Typing trace chatID userID active (be_presence w)) (be_polls w)).
Definition handleTyping (i : Inputs) (userID : string) (body : option TypingBody) : M Back (list Reply) :=
  if negb (i_typing i) then mret []
  else
    match body with
    | None => mret []
    | Some b =>
        or_reply (resolveChat (i_look i) userID (Typing_ChatID b)) (λ _, []) (λ chatID,
        if negb (i_typingChat i) then mret []
        else typing_event chatID userID (Typing_Active b);; mret [])
    end.

Definition handleEdit (i : Inputs) (userID : string) (body : option EditBody) : M Back (list Reply) :=
  match body with
  | None => mret (replyError ErrBadArg "bad edit body")
  | Some b =>
      if negb (validID (EditB_ChatID b)) || negb (validID (EditB_MessageID b)) then mret (replyError ErrBadArg "invalid id")
      else
        or_reply (refuseIfBlocked (l_ticks (i_look i)) userID (EditB_ChatID b)) replyBlocked (λ _,
        or_reply (Submit trace (i_ticks i) (i_id i) (i_obID i) (i_now i)
          (mkCommand OpEdit userID (EditB_ChatID b) (EditB_MessageID b) "" (EditB_Text b) "" "" None 0)) replyForError (λ _,
        mret []))
  end.

Definition handleDelete (i : Inputs) (userID : string) (body : option DeleteBody) : M Back (list Reply) :=
  match body with
  | None => mret (replyError ErrBadArg "bad delete body")
  | Some b =>
      if negb (validID (DeleteB_ChatID b)) || negb (validID (DeleteB_MessageID b)) then mret (replyError ErrBadArg "invalid id")
      else
        or_reply (Submit trace (i_ticks i) (i_id i) (i_obID i) (i_now i)
          (mkCommand OpDelete userID (DeleteB_ChatID b) (DeleteB_MessageID b) "" "" "" "" None 0)) replyForError (λ _,
        mret [])
  end.

(** The page size a client gets. *)
Definition page_limit (n : Z) : Z := if (n <=? 0) || (100 <? n) then 50 else n.
(** [for _, m := range msgs { next = m.Seq }]. *)
Definition last_seq (ms : list Message) : Z := foldl (λ _ m, Message_Seq m) 0 ms.

Definition handleHistory (i : Inputs) (peerCaps : Z) (userID : string) (body : option HistoryBody) : M Back (list Reply) :=
  match body with
  | None => mret (replyError ErrBadArg "bad history body")
  | Some b =>
      let limit := page_limit (HistB_Limit b) in
      or_reply (resolveChat (i_look i) userID (HistB_ChatID b)) replyResolveErr (λ chatID,
      unless_secret chatID "history" (
      or_reply (MessageService.History (i_ticks i) userID chatID (HistB_BeforeSeq b) limit) replyForError (λ msgs,
      let next := last_seq msgs in
      let done := len msgs <? limit in
      mret (if negb (Z.land peerCaps CapBatching =? 0) then [RHistoryPage (msgToWire <$> msgs) chatID next done]
            else (RNew ∘ msgToWire <$> msgs) ++ [RHistoryOK chatID next done]))))
  end.

Definition handleThread (i : Inputs) (userID : string) (body : option ThreadBody) : M Back (list Reply) :=
  match body with
  | None => mret (replyError ErrBadArg "bad thread body")
  | Some b =>
      if bool_decide (ThreadB_RootID b = "") then mret (replyError ErrBadArg "root_id required")
      else
        let limit := page_limit (ThreadB_Limit b) in
        or_reply (resolveChat (i_look i) userID (ThreadB_ChatID b)) replyResolveErr (λ chatID,
        or_reply (MessageService.Thread (i_ticks i) userID chatID (ThreadB_RootID b) (ThreadB_AfterSeq b) limit) replyForError (λ msgs,
        mret ((RNew ∘ msgToWire <$> msgs) ++ [RThreadOK chatID (ThreadB_RootID b) (last_seq msgs) (len msgs <? limit)])))
  end.

Definition handleForward (i : Inputs) (userID : string) (body : option ForwardBody) : M Back (list Reply) :=
  match body with
  | None => mret (replyError ErrBadArg "bad forward body")
  | Some b =>
      or_reply (resolveChat (i_look i) userID (FwdB_FromChatID b)) replyResolveErr (λ src,
      or_reply (resolveChat (i_look' i) userID (FwdB_ToChatID b)) replyResolveErr (λ dst,
      unless_secret src "forward" (unless_secret dst "send" (
      or_reply (Forward trace (i_ticks i) (i_ticks' i) (i_id i) (i_obID i) (i_now i) userID src (FwdB_MessageID b) dst
        (FwdB_DedupKey b)) replyForError (λ res,
      mret (sendAck (FwdB_DedupKey b) res))))))
  end.

Definition item_of (m : ScheduledMessage) : ScheduledItem := mkItem (Sched_ID m) (Sched_ChatID m) (Sched_Text m) (Sched_SendAt m).

Definition handleSchedule (i : Inputs) (userID : string) (body : option ScheduleBody) : M Gate (list Reply) :=
  match body with
  | None => mret (replyError ErrBadArg "bad schedule body")
  | Some b =>
      or_reply (on_world (resolveChat (i_look i) userID (SchedB_ChatID b))) replyResolveErr (λ chatID,
      or_reply (Schedule (i_ticks i) (i_id i)
        (mkSchedInput chatID userID (SchedB_Text b) (SchedB_MediaRef b) (ModelAttachment (SchedB_Attachment b))
          (SchedB_ReplyTo b) (SchedB_TTLSeconds b) (SchedB_SendAt b)) (i_now i)) replyScheduleErr (λ m,
      mret [RScheduled [item_of m]]))
  end.
Definition handleScheduleList (i : Inputs) (userID : string) (chat : option string) : M Gate (list Reply) :=
  match chat with
  | None => mret (replyError ErrBadArg "bad list body")
  | Some chat =>
      or_reply (on_world (resolveChat (i_look i) userID chat)) replyResolveErr (λ chatID,
      or_reply (List_ userID chatID) replyScheduleErr (λ list, mret [RScheduled (item_of <$> list)]))
  end.
Definition handleScheduleCancel (userID : string) (id : option string) : M Gate (list Reply) :=
  match id with
  | None => mret (replyError ErrBadArg "bad cancel body")
  | Some id => or_reply (Cancel id userID) replyScheduleErr (λ _, mret [RScheduled []])
  end.

Definition wire_contact (c : Contact) : WireContact :=
  mkWireContact (Contact_UserID c) (Contact_Name c) (Contact_Blocked c) (Contact_UpdatedAt c).
Definition handleContactAdd (i : Inputs) (userID : string) (body : option (string * string)) : M Back (list Reply) :=
  match body with
  | None => mret (replyError ErrBadArg "bad contact body")
  | Some (target, name) =>
      or_reply (on_people (Add userID target name (i_now i))) replyContactErr (λ ct,
      mret [RContactList [wire_contact ct] (Contact_UpdatedAt ct)])
  end.
Definition handleContactRemove (userID : string) (target : option string) : M Back (list Reply) :=
  match target with
  | None => mret (replyError ErrBadArg "bad contact body")
  | Some target => or_reply (on_people (Remove userID target)) replyContactErr (λ _, mret [RContactList [] 0])
  end.
Definition handleContactSync (userID : string) (since : option Z) : M Back (list Reply) :=
  match since with
  | None => mret (replyError ErrBadArg "bad sync body")
  | Some since =>
      or_reply (on_people (Sync userID since)) replyContactErr (λ p, mret [RContactList (wire_contact <$> p.1) p.2])
  end.
Definition handleBlock (i : Inputs) (userID : string) (body : option (string * bool)) : M Back (list Reply) :=
  match body with
  | None => mret (replyError ErrBadArg "bad block body")
  | Some (target, blocked) =>
      or_reply (on_people (SetBlocked userID target blocked (i_now i))) replyContactErr (λ _, mret [RContactList [] 0])
  end.

Definition replyPollState (i : Inputs) (userID pollID : string) : M Back (list Reply) :=
  or_reply (Results (pi_ticks' (i_poll i)) pollID userID) replyPollErr (λ st, mret [RPollState st]).
(** The question is a message like any other; the poll then refers to it. *)
Definition poll_dedup (p : PollInputs) : string :=
  "poll:" +:+ bstring (FormatUint (pi_request p)) +:+ ":" +:+ pi_session p.
Definition handlePollCreate (i : Inputs) (userID : string) (body : option PollCreateBody) : M Back (list Reply) :=
  match body with
  | None => mret (replyError ErrBadArg "bad poll body")
  | Some b =>
      or_reply (resolveChat (i_look i) userID (PollC_ChatID b)) replyResolveErr (λ chatID,
      or_reply (Submit trace (i_ticks i) (i_id i) (i_obID i) (i_now i)
        (mkCommand OpCreate userID chatID "" (poll_dedup (i_poll i)) (PollC_Question b) "" "" None 0)) replyForError (λ res,
      or_reply (Poll.Create trace (pi_ticks (i_poll i))
        (mkCreateInput chatID (Message_ID res.1) userID (PollC_Question b) (PollC_Options b) (PollC_MultiChoice b)
          (PollC_Anonymous b)) (pi_id (i_poll i)) (pi_now (i_poll i))) replyPollErr (λ p,
      replyPollState i userID (Poll_ID p))))
  end.
Definition handlePollVote (i : Inputs) (userID : string) (body : option (string * Z)) : M Back (list Reply) :=
  match body with
  | None => mret (replyError ErrBadArg "bad vote body")
  | Some (pollID, option) =>
      or_reply (Poll.Vote trace (pi_ticks (i_poll i)) pollID userID option (pi_now (i_poll i))) replyPollErr (λ _,
      replyPollState i userID pollID)
  end.
Definition handlePollClose (i : Inputs) (userID : string) (id : option string) : M Back (list Reply) :=
  match id with
  | None => mret (replyError ErrBadArg "bad close body")
  | Some pollID => or_reply (Poll.Close trace pollID userID) replyPollErr (λ _, replyPollState i userID pollID)
  end.

(** ** Budgets and routing *)

(** [stateChanging] and [amplifying], on the frames of [Request]. *)
Definition stateChanging (q : Request) : bool :=
  match q with
  | QSend _ | QEdit _ | QDelete _ | QContactAdd _ | QContactRemove _ | QBlock _ | QForward _ | QSchedule _ | QScheduleCancel _
  | QPollCreate _ | QPollVote _ | QPollClose _ => true
  | _ => false
  end.
Definition amplifying (q : Request) : bool :=
  match q with QHistory _ | QThread _ | QRead _ | QContactSync _ | QScheduleList _ => true | _ => false end.

Definition dispatch (i : Inputs) (peerCaps : Z) (userID : string) (q : Request) : M Gate (list Reply) :=
  if stateChanging q && negb (i_send i) then mret (replyErrorRetry ErrFlood "rate limited" 1000)
  else if amplifying q && negb (i_read i) then mret (replyErrorRetry ErrFlood "read rate limited" 1000)
  else
    match q with
    | QPing => mret [RPong]
    | QPong | QTransportAck => mret []
    | QSend b => on_world (handleSend i userID b)
    | QRead b => on_world (handleRead i userID b)
    | QTyping b => on_world (handleTyping i userID b)
    | QThread b => on_world (handleThread i userID b)
    | QContactAdd b => on_world (handleContactAdd i userID b)
    | QContactRemove b => on_world (handleContactRemove userID b)
    | QContactSync b => on_world (handleContactSync userID b)
    | QBlock b => on_world (handleBlock i userID b)
    | QForward b => on_world (handleForward i userID b)
    | QSchedule b => handleSchedule i userID b
    | QScheduleList b => handleScheduleList i userID b
    | QScheduleCancel b => handleScheduleCancel userID b
    | QEdit b => on_world (handleEdit i userID b)
    | QDelete b => on_world (handleDelete i userID b)
    | QHistory b => on_world (handleHistory i peerCaps userID b)
    | QPollCreate b => on_world (handlePollCreate i userID b)
    | QPollVote b => on_world (handlePollVote i userID b)
    | QPollClose b => on_world (handlePollClose i userID b)
    | QUnknown => mret (replyError ErrProtocol "unsupported message type")
    end.

(** ** The scheduler's gate *)

(** [BlockGate.Blocked]; [gt] are its clock readings. *)
Definition Blocked (gt : string → string → Ticks) (chatID senderID : string) : M Back bool :=
  r ← directPeer (gt chatID senderID) senderID chatID;
  if negb r.2 then mret false else on_people (BlocksBetween senderID r.1).

(** What happens behind a fleet of gateways: requests of any user, scheduler ticks. *)
Inductive occurrence :=
  | ORequest (userID : string) (peerCaps : Z) (i : Inputs) (q : Request)
  | ODispatch (gt : string → string → Ticks) (fs : string → Firing (Ticks * Ticks)) (now : Z).

Definition happen (o : occurrence) (w : Gate) : Gate :=
  match o with
  | ORequest u caps i q => (dispatch i caps u q w).1
  | ODispatch gt fs now => (dispatchDue trace (Some (Blocked gt)) fs now w).1
  end.
Definition happen_all (os : list occurrence) (w : Gate) : Gate := foldl (λ w o, happen o w) w os.
End gateway.

(** ** Lemmas *)

(** A chat or user id is digits, hence free of the separator of composite keys. *)
Lemma validID_no_bar s : validID s = true → no_bar s = true.
Proof.
  unfold validID. intros [_ Hf]%andb_prop. induction s as [|a s IH]; [done|].
  change (sbytes (String a s)) with (Ascii.byte_of_ascii a :: sbytes s) in Hf. cbn [forallb] in Hf.
  apply andb_prop in Hf as [Ha Hf]. cbn [no_bar]. rewrite (IH Hf), andb_true_r, negb_true_iff.
  apply bool_decide_eq_false. by intros ->.
Qed.
