(* ===== verification/GatewayRules.v ===== *)
(** * What the gateway enforces

    Theorems about the handlers of Gateway.v: a block between two people silences their 1:1
    chat whatever anybody sends and whatever was scheduled; a secret chat's log stays empty
    under every request but a poll in it, and not under the scheduler; and a caller without
    lookup budget learns nothing about who exists. *)

From S2P Require Import Prelude Bytes GoStrings Social Invite Poll Fanout Presence EventBus Model MemChats MemMessages MessageLog MemAccounts ChatService MessageService MessageRules Contact Schedule Gateway.

(** ** What a message operation leaves alone *)

(** Kinds, members, the index of pairs and the chats' own ids. *)
Definition framed (db db' : ChatDB) : Prop :=
  log_frame db db' ∧ directIndex db' = directIndex db ∧
  ∀ cid, Chat_ID <$> chats db' !! cid = Chat_ID <$> chats db !! cid.

Lemma framed_refl db : framed db db.
Proof. done. Qed.
Lemma framed_insert m k ob db : framed db (InsertMessage m k ob db).1.
Proof.
  split; [apply insert_frame|].
  destruct (dedup_hit (Message_SenderID m) (Message_ChatID m) k db) as [ex|] eqn:Eh.
  { by erewrite InsertMessage_hit by done. }
  destruct (chats db !! Message_ChatID m) as [c|] eqn:Ec.
  - destruct (InsertMessage_new m k ob db c Eh Ec) as (db' & out & -> & _ & Hc & Hi & _).
    split; [done|]. cbn [fst]. intros cid. rewrite Hc. destruct (decide (Message_ChatID m = cid)) as [<-|Hne].
    + by rewrite lookup_insert_eq, Ec.
    + by rewrite lookup_insert_ne.
  - unfold InsertMessage. rewrite M_bind_eq. cbn [get]. by rewrite Eh, Ec.
Qed.
Lemma framed_update cid id f ob db : framed db (update_message cid id f ob db).1.
Proof.
  split; [apply update_frame|]. unfold update_message. rewrite M_bind_eq. cbn [get]. case_match; [|done].
  unfold stageOutboxLocked, modify; simpl. by case_match.
Qed.
Lemma framed_SetRead rs db : framed db (SetRead rs db).1 ∧ messages (SetRead rs db).1 = messages db.
Proof.
  split; [split; [apply SetRead_frame|]|]; unfold SetRead, modify; cbn [fst]; repeat case_match; done.
Qed.

Section framing.
Context `{MessageLaws T W}.
Variable trace : gmap string string.
Implicit Types w : W.

Definition keeps w w' : Prop := good w' ∧ framed (mdb w) (mdb w').

Lemma keeps_quiet w w' : quiet w w' → keeps w w'.
Proof. intros (? & Hd & _). split; [done|]. by rewrite Hd. Qed.
Lemma keeps_effect {A} (m : M ChatDB A) w w' : effect w w' m → framed (mdb w) (m (mdb w)).1 → keeps w w'.
Proof. intros (? & _ & Hd) ?. split; [done|]. by rewrite Hd. Qed.

Lemma Submit_keeps t id obID now cmd w :
  good w → no_bar (Cmd_ChatID cmd) = true → keeps w (Submit trace t id obID now cmd w).1.
Proof.
  intros Hg Hb. rewrite Submit_eq. destruct (validate cmd); [|by apply keeps_quiet].
  destruct (bool_decide (Cmd_Op cmd = OpCreate)).
  { pose proof (Send_effect trace t id obID now (create_input cmd) w Hg Hb) as He. cbv zeta in He.
    destruct (d_post _) as [[]|]; [eapply keeps_effect; [apply He | apply framed_insert] | apply keeps_quiet, He..]. }
  cbn [fst]. destruct (bool_decide (Cmd_Op cmd = OpEdit)).
  - pose proof (Edit_effect trace obID now (Cmd_ActorID cmd) (Cmd_ChatID cmd) (Cmd_MessageID cmd) (Cmd_Text cmd) w Hg) as He.
    cbv zeta in He. destruct (find_msg _ _); [|apply keeps_quiet, He].
    destruct (bool_decide _); [eapply keeps_effect; [apply He | apply framed_update] | apply keeps_quiet, He].
  - pose proof (Delete_effect trace t obID now (Cmd_ActorID cmd) (Cmd_ChatID cmd) (Cmd_MessageID cmd) w Hg Hb) as He.
    cbv zeta in He. destruct (find_msg _ _); [|apply keeps_quiet, He].
    destruct (may_delete _ _ _ _) as [[]|]; [eapply keeps_effect; [apply He | apply framed_update] | apply keeps_quiet, He..].
Qed.

(** A send into [dst] changes no other log, and that one only for somebody who may post. *)
Lemma Send_changes t id obID now s_in w cid :
  good w → no_bar (Send_ChatID s_in) = true →
  let w' := (Send trace t id obID now s_in w).1 in
  keeps w w' ∧
  (messages_of cid (mdb w') ≠ messages_of cid (mdb w) →
   cid = Send_ChatID s_in ∧ d_post (authority w cid (Send_SenderID s_in)) = Ok true).
Proof.
  intros Hg Hb w'. pose proof (Send_effect trace t id obID now s_in w Hg Hb) as He. cbv zeta in He. fold w' in He.
  destruct (d_post _) as [[]|] eqn:Ed; cycle 1.
  { split; [apply keeps_quiet, He|]. by destruct He as [(_ & -> & _) _]. }
  { split; [apply keeps_quiet, He|]. by destruct He as [(_ & -> & _) _]. }
  split; [eapply keeps_effect; [apply He | apply framed_insert]|].
  destruct He as [(_ & _ & ->) _]. intros (-> & _)%InsertMessage_changes. done.
Qed.

Lemma Forward_changes t t' id obID now u src srcID dst k w cid :
  good w → no_bar src = true → no_bar dst = true →
  let w' := (Forward trace t t' id obID now u src srcID dst k w).1 in
  keeps w w' ∧
  (messages_of cid (mdb w') ≠ messages_of cid (mdb w) → cid = dst ∧ d_post (authority w cid u) = Ok true).
Proof.
  intros Hg Hs Hd w'. destruct (Forward_effect trace t t' id obID now u src srcID dst k w Hg Hs Hd) as
    [Hq|(m & _ & Hp & _ & _ & He & _)].
  { split; [by apply keeps_quiet|]. unfold w'. by destruct Hq as (_ & -> & _). }
  split; [eapply keeps_effect; [apply He | apply framed_insert]|]. unfold w'.
  destruct He as (_ & _ & ->). intros (-> & _)%InsertMessage_changes. done.
Qed.

Lemma MarkRead_changes t now u c n w :
  good w → no_bar c = true →
  let w' := (MarkRead trace t now u c n w).1 in keeps w w' ∧ messages (mdb w') = messages (mdb w).
Proof.
  intros Hg Hb w'. pose proof (MarkRead_effect trace t now u c n w Hg Hb) as He. cbv zeta in He. fold w' in He.
  destruct (framed_SetRead (mkRead c u n now) (mdb w)) as [Hf Hm].
  destruct (d_member _) as [[]|]; cycle 1.
  { split; [apply keeps_quiet, He|]. by destruct He as [(_ & -> & _) _]. }
  { split; [apply keeps_quiet, He|]. by destruct He as [(_ & -> & _) _]. }
  split; [by eapply keeps_effect; [apply He|]|]. by destruct He as [(_ & _ & ->) _].
Qed.

Lemma reads_quiet t u c w before limit root after limit' :
  good w → no_bar c = true →
  quiet w (MessageService.History t u c before limit w).1 ∧ quiet w (MessageService.Thread t u c root after limit' w).1.
Proof.
  intros Hg Hb. assert (∀ A (m : M ChatDB A) w1, (m (mdb w1)).1 = mdb w1 → quiet w w1 → quiet w (on_store m w1).1) as Hread.
  { intros A m w1 Hm Hq. rewrite on_store_eq. cbn [fst]. apply (quiet_trans w w1); [done|]. apply quiet_same; [apply Hq | done]. }
  pose proof (member_only t c u (on_store (MemMessages.History c before limit)) w Hg Hb) as Hh.
  pose proof (member_only t c u (on_store (MemMessages.Thread c root after limit')) w Hg Hb) as Ht.
  unfold MessageService.History, MessageService.Thread. cbv zeta in *. destruct (d_member _) as [[]|]; [|split; [apply Hh | apply Ht]..].
  destruct Hh as (w1 & ? & ->), Ht as (w2 & ? & ->). split; apply Hread; done.
Qed.
End framing.

(** ** The peer of a 1:1 chat *)

Lemma maplen_pair {A} (m : gmap string A) u v : (∀ x, is_Some (m !! x) → x = u ∨ x = v) → maplen m ≤ 2.
Proof.
  intros Hm. unfold maplen. rewrite <- size_dom.
  assert (size (dom m) ≤ size ({[u; v]} : gset string))%nat as Hs.
  { apply subseteq_size. intros x Hx%elem_of_dom. apply Hm in Hx. rewrite elem_of_union, !elem_of_singleton. tauto. }
  assert (size ({[u; v]} : gset string) ≤ 2)%nat.
  { rewrite (size_union_alt (C := gset string)), !size_singleton.
    pose proof (subseteq_size (C := gset string) ({[v]} ∖ {[u]}) {[v]}) as Hd. rewrite size_singleton in Hd.
    assert (size (({[v]} : gset string) ∖ {[u]}) ≤ 1)%nat by (apply Hd; intros x [? _]%elem_of_difference; done). lia. }
  lia.
Qed.

Section peer.
Context `{RangeOrder}.

(** Asking for the peer moves the cache only. *)
Lemma DirectPeer_reads t c a s :
  reachable s → ∃ s' r, DirectPeer t c a s = (s', r) ∧ reachable s' ∧ cdb s' = cdb s.
Proof.
  intros Hs. unfold DirectPeer. rewrite M_bind_eq. pose proof (r_view t c s Hs) as Hr.
  pose proof (authView_exact t c s (reachable_coherent s Hs)) as Hv. destruct (chats (cdb s) !! c).
  - destruct Hv as (s' & e & Hv & _ & Hd & _). rewrite Hv in *. repeat case_match; eauto.
  - rewrite Hv in *. eauto.
Qed.

Lemma DirectPeer_pair t c u v s ch :
  reachable s → chats (cdb s) !! c = Some ch → Is1To1 (Chat_Type ch) = true → u ≠ v →
  (∀ x, is_Some (members_of c (cdb s) !! x) ↔ x = u ∨ x = v) →
  ∃ s', DirectPeer t c u s = (s', Ok (v, true)) ∧ reachable s' ∧ cdb s' = cdb s.
Proof.
  intros Hs Hc Hty Hne Hm. unfold DirectPeer. rewrite M_bind_eq. pose proof (r_view t c s Hs) as Hr.
  pose proof (authView_exact t c s (reachable_coherent s Hs)) as Hv. rewrite Hc in Hv.
  destruct Hv as (s' & e & Hv & _ & Hd & Ht & Hro & Hla). rewrite Hv in *. rewrite Ht, Hty. cbn [negb orb].
  destruct (large e).
  { specialize (Hla eq_refl). pose proof (maplen_pair (members_of c (cdb s)) u v (λ x, proj1 (Hm x))) as Hle.
    unfold maxCachedMembers in Hla. lia. }
  rewrite (Hro eq_refl). assert (is_Some ((Member_Role <$> members_of c (cdb s)) !! u)) as Hu.
  { rewrite lookup_fmap, fmap_is_Some. apply Hm. by left. }
  rewrite bool_decide_true by done. cbn [negb].
  assert (∀ x, x ∈ filter (λ uid, uid ≠ u) (range_keys (Member_Role <$> members_of c (cdb s))) ↔ x = v) as Hf.
  { intros x. rewrite list_elem_of_filter, elem_of_range_keys, lookup_fmap, fmap_is_Some, Hm.
    split; [tauto|]. intros ->. split; [congruence | tauto]. }
  destruct (filter _ _) as [|x l]; [exfalso; by apply (not_elem_of_nil v), Hf|].
  assert (x = v) as -> by (apply Hf; left). eauto.
Qed.
End peer.

(** ** Message operations on the backend *)

Section backend.
Context `{RangeOrder} `{Unicode} {B : Type} `{Bus EventBody B}.
Variable media : option (string → list string → ChatDB → M B unit).
Variable trace : gmap string string.
Implicit Types w : Backend B.
Implicit Types g : SchedState (Backend B).

#[local] Instance rules_media : MediaCollector (Backend B) := backend_media media.

Definition be_side w : Presence.World * Ballots := (be_presence w, be_polls w).

(** The services promise the same over the whole backend, and leave contacts and presence
    as [P] and [Q]. *)
#[local] Instance backend_laws (P : ContactState) (Q : Presence.World * Ballots) : MessageLaws (Ticks * Ticks) (Backend B).
Proof.
  refine {| good w := reachable (be_local w).1 ∧ be_people w = P ∧ be_side w = Q;
            authority w := decided (cdb (be_local w).1) |}.
  - done.
  - intros t c u w (Hg & Hp & Hq) Hb.
    destruct (CanPost_spec (MessageLaws := local_laws media) t c u (be_local w) Hg Hb) as (l' & He & Hl & Hd & Ha).
    eexists. split; [unfold Chats_CanPost, backend_Chats, on_local; by rewrite He|]. by split_and!.
  - intros t c u w (Hg & Hp & Hq) Hb.
    destruct (IsMember_spec (MessageLaws := local_laws media) t c u (be_local w) Hg Hb) as (l' & He & Hl & Hd & Ha).
    eexists. split; [unfold Chats_IsMember, backend_Chats, on_local; by rewrite He|]. by split_and!.
  - intros t c u w (Hg & Hp & Hq) Hb.
    destruct (CanModerate_spec (MessageLaws := local_laws media) t c u (be_local w) Hg Hb) as (l' & He & Hl & Hd & Ha).
    eexists. split; [unfold Chats_CanModerate, backend_Chats, on_local; by rewrite He|]. by split_and!.
  - intros e w (Hg & Hp & Hq). pose proof (Publish_quiet (MessageLaws := local_laws media) e (be_local w) Hg) as (? & ? & ?).
    unfold Publish, backend_Bus, on_local. destruct (Publish e (be_local w)) as [l' r]. by split_and!.
  - intros del reason refs w Hdel (Hg & Hp & Hq). cbn in Hdel. destruct media as [del0|] eqn:Em; [|done].
    cbn in Hdel. injection Hdel as <-. unfold on_local, on_rest. destruct w as [p [s b] q bl]. cbn in *.
    destruct (del0 reason refs (cdb s) b). by split_and!.
  - intros db w (Hg & Hp & Hq) Hf. destruct (good_store (MessageLaws := local_laws media) db (be_local w) Hg Hf) as [? ?].
    by split_and!.
Defined.

(** Nothing but caches moved. *)
Definition still w w' : Prop :=
  be_people w' = be_people w ∧ be_side w' = be_side w ∧ (be_local w').2 = (be_local w).2 ∧
  mdb w' = mdb w ∧ reachable (be_local w').1.

Lemma still_refl w : reachable (be_local w).1 → still w w.
Proof. done. Qed.

Lemma on_chats_still {A} (m : M Service A) w s' r :
  m (be_local w).1 = (s', r) → reachable s' → cdb s' = cdb (be_local w).1 →
  ∃ w', on_chats m w = (w', r) ∧ still w w'.
Proof.
  intros Hm Hs Hd. unfold on_chats, on_local, on_chat. rewrite Hm. cbn. eexists. split; [done|]. by split_and!.
Qed.

Lemma directPeer_still t a c w :
  reachable (be_local w).1 → ∃ w' r, directPeer t a c w = (w', r) ∧ still w w'.
Proof.
  intros Hs. destruct (DirectPeer_reads t c a (be_local w).1 Hs) as (s' & r & Hp & Hr & Hd).
  destruct (on_chats_still _ w s' r Hp Hr Hd) as (w' & ? & ?). eauto.
Qed.

Lemma on_people_read {A} (m : M ContactState A) w :
  (m (be_people w)).1 = be_people w → on_people m w = (w, (m (be_people w)).2).
Proof. intros Hm. unfold on_people. destruct w as [p l q bl]. cbn in *. destruct (m p). cbn in *. by subst. Qed.
Lemma Blocks_read a b w :
  on_people (BlocksBetween a b) w =
  (w, Ok (blocked_in a b (contacts (be_people w)) || blocked_in b a (contacts (be_people w)))).
Proof. rewrite on_people_read; by rewrite BlocksBetween_run. Qed.

Lemma refuse_still t a c w :
  reachable (be_local w).1 →
  ∃ w' r, refuseIfBlocked t a c w = (w', r) ∧ still w w'.
Proof.
  intros Hs. unfold refuseIfBlocked. rewrite M_bind_eq. unfold attempt.
  destruct (directPeer_still t a c w Hs) as (w' & r & -> & Hst). destruct r as [[peer []]|e]; [|by eauto..].
  rewrite (bind_Ok _ _ _ _ _ (Blocks_read a peer w')). destruct (_ || _); eauto.
Qed.

(** Polls belong to chats whose ids were issued. *)
Definition polls_ok w : Prop := ∀ id p, polls (tbl w) !! id = Some p → no_bar (Poll_ChatID p) = true.
Lemma side_polls w w' : be_side w' = be_side w → polls_ok w → polls_ok w'.
Proof. intros [= _ Hs]. unfold polls_ok, tbl, backend_polls. by rewrite Hs. Qed.
Definition sound w : Prop := reachable (be_local w).1 ∧ polls_ok w.
(** The poll service asks who is a member, and changes polls only. *)
Definition hushed w w' : Prop :=
  be_people w' = be_people w ∧ be_presence w' = be_presence w ∧ mdb w' = mdb w ∧ (sound w → sound w').
#[local] Instance hushed_preorder : PreOrder hushed.
Proof. split; [done|]. intros ? ? ? (E1 & E2 & E3 & ?) (E4 & E5 & E6 & ?). split_and!; [congruence..|auto]. Qed.

Lemma member_hushed t c a w : no_bar c = true → runs hushed w (ca_IsMember (W := Backend B) t c a).
Proof.
  intros Hb. destruct t as [t t'], w as [p [s b] q bl]. unfold runs. cbn. unfold on_chats, on_local, on_chat. cbn.
  pose proof (ask_roleOf t t' c a s) as [Hr _]. pose proof (IsMember_cdb t t' c a s) as Hd.
  destruct (IsMember t t' c a s) as [s' r]. cbn in *. unfold hushed. split_and!; [done|done|exact Hd|].
  intros [Hs Hp]. split; [|exact Hp]. cbn in *. subst. by apply r_role.
Qed.
Lemma table_hushed {A} (m : M PollTables A) w :
  (polls_ok w → ∀ id p, polls (m (tbl w)).1 !! id = Some p → no_bar (Poll_ChatID p) = true) → runs hushed w (on_tbl m).
Proof.
  intros Hm. unfold runs, on_tbl. destruct (m (tbl w)) as [d r]. cbn in *. unfold hushed. split_and!; [done..|].
  intros [Hs Hp]. split; [done|]. exact (Hm Hp).
Qed.
Lemma read_hushed {A} (m : M PollTables A) w : (m (tbl w)).1 = tbl w → runs hushed w (on_tbl m).
Proof. intros Hm. apply table_hushed. by rewrite Hm. Qed.
Lemma broadcast_hushed p mine w : runs hushed w (Poll.broadcast trace p mine).
Proof.
  apply runs_bind; [|intros w' b _; apply runs_bind; [by apply runs_attempt|intros; apply runs_ret]].
  apply runs_bind; [by apply read_hushed|intros; apply runs_ret].
Qed.
Lemma Create_hushed t in_ id now w : no_bar (In_ChatID in_) = true → runs hushed w (Poll.Create trace t in_ id now).
Proof.
  intros Hb. apply runs_bind; [apply runs_guard_or|]. intros ? _ _. apply runs_bind; [by apply member_hushed|]. intros ? ? _.
  apply runs_bind; [apply runs_guard_or|]. intros w' _ _. apply runs_bind.
  - apply table_hushed. intros Hp id' p'. cbn. rewrite lookup_insert_Some. intros [[_ <-]|[_ Hl]]; [done|by eapply Hp].
  - intros ? _ _. apply runs_bind; [apply broadcast_hushed|intros; apply runs_ret].
Qed.

(** A poll that is read belongs to an issued chat. *)
Lemma with_poll {A} pid (k : Poll.Poll → M (Backend B) A) w :
  polls_ok w → (∀ p, polls (tbl w) !! pid = Some p → no_bar (Poll_ChatID p) = true → runs hushed w (k p)) →
  runs hushed w (p ← on_tbl (GetPoll pid); k p).
Proof.
  intros Hp Hk. unfold runs. rewrite M_bind_eq. unfold on_tbl, GetPoll. rewrite M_bind_eq. cbn [get]. unfold found.
  assert (set_tbl (tbl w) w = w) as Hw by (by destruct w as [? ? ? []]).
  destruct (polls (tbl w) !! pid) as [p|] eqn:E; cbn [mret M_ret fail fst]; rewrite Hw; [|done]. apply (Hk p); [done|by eapply Hp].
Qed.
Lemma Vote_keeps v multi d id p : polls (Vote_ v multi d).1 !! id = Some p → polls d !! id = Some p.
Proof. rewrite Vote__run. by repeat case_match. Qed.
Lemma Vote_hushed t pid a o now w : polls_ok w → runs hushed w (Poll.Vote trace t pid a o now).
Proof.
  intros Hp. apply with_poll; [done|]. intros p _ Hb. apply runs_bind; [apply runs_guard_or|]. intros ? _ _.
  apply runs_bind; [apply runs_guard_or|]. intros ? _ _. apply runs_bind; [by apply member_hushed|]. intros ? ? _.
  apply runs_bind; [apply runs_guard_or|]. intros w' _ _. apply runs_bind.
  - apply runs_attempt, table_hushed. intros Hp' id p' Hl%Vote_keeps. by eapply Hp'.
  - intros ? [r|e] _; [|destruct e; apply runs_fail]. apply runs_bind; [apply broadcast_hushed|intros; apply runs_ret].
Qed.
Lemma Close_hushed pid a w : polls_ok w → runs hushed w (Poll.Close trace pid a).
Proof.
  intros Hp. apply with_poll; [done|]. intros p _ _. apply runs_bind; [apply runs_guard_or|]. intros w' _ _.
  apply runs_bind; [|intros ? _ _; apply runs_bind; [apply broadcast_hushed|intros; apply runs_ret]].
  apply table_hushed. intros Hp' id p'. rewrite ClosePoll_run. destruct (polls (tbl w') !! pid) as [p0|] eqn:E; [|by apply Hp'].
  cbn. rewrite lookup_insert_Some. intros [[_ <-]|[_ Hl]]; [by eapply Hp' in E|by eapply Hp'].
Qed.
Lemma Results_hushed t pid a w : polls_ok w → runs hushed w (Poll.Results t pid a).
Proof.
  intros Hp. apply with_poll; [done|]. intros p _ Hb. apply runs_bind; [by apply member_hushed|]. intros ? ? _.
  apply runs_bind; [apply runs_guard_or|]. intros ? _ _. apply runs_bind; [by apply read_hushed|]. intros ? ? _.
  apply runs_bind; [by apply read_hushed|intros; apply runs_ret].
Qed.

(** Chats are filed under their ids. *)
Definition tidy (db : ChatDB) : Prop := ∀ cid ch, chats db !! cid = Some ch → Chat_ID ch = cid ∧ no_bar cid = true.
Definition users_ok (w : Backend B) : Prop := ∀ k x, users (accounts (be_people w)) !! k = Some x → User_ID x ≠ "".
(** Ids handed out by the generator and not used yet. *)
Definition fresh_ids (ids : list string) (db : ChatDB) : Prop :=
  NoDup ids ∧ Forall (λ id, chats db !! id = None ∧ no_bar id = true) ids.

(** A direct chat of [a] and [x] was opened under [id]. *)
Definition opened (id a x : string) w w' : Prop :=
  be_people w' = be_people w ∧ be_side w' = be_side w ∧ reachable (be_local w').1 ∧
  (∃ ch, Chat_ID ch = id ∧ chats (mdb w') = <[id := ch]> (chats (mdb w))) ∧
  directIndex (mdb w') = <[directKey a x := id]> (directIndex (mdb w)) ∧
  (∀ cid, cid ≠ id → members_of cid (mdb w') = members_of cid (mdb w)) ∧ messages (mdb w') = messages (mdb w).

Lemma EnsureDirect_opens a x id now w :
  reachable (be_local w).1 → chats (mdb w) !! id = None → a ≠ "" → x ≠ "" → directIndex (mdb w) !! directKey a x = None →
  ∃ w' ch, on_chats (EnsureDirect a x id now) w = (w', Ok ch) ∧ Chat_ID ch = id ∧ opened id a x w w'.
Proof.
  intros Hg Hn Ha Hx Hi. destruct w as [p [s b] q bl]. cbn in *. pose proof (r_direct a x id now s Hg Hn Ha Hx) as Hr.
  unfold on_chats, on_local, on_chat. cbn [be_local fst]. destruct (EnsureDirect a x id now s) as [s' r] eqn:E.
  revert E. unfold EnsureDirect. rewrite M_bind_eq, store_eq. unfold GetOrCreateDirect, GetOrCreatePair.
  rewrite M_bind_eq. cbn [get]. replace (pairKey _ a x) with (directKey a x) by done. rewrite Hi. cbn. intros [= <- <-].
  eexists _, _. split; [done|]. split; [done|]. cbn. unfold opened. cbn. split_and!; [done|done|exact Hr|eexists; split; [|reflexivity]; done|done| |done].
  intros cid Hc. unfold members_of. cbn. by rewrite !lookup_insert_ne by done.
Qed.

Lemma GetUser_reads n acc : (GetUserByUsername n acc).1 = acc.
Proof.
  unfold GetUserByUsername. rewrite (bind_Ok _ _ _ acc acc) by done. rewrite M_bind_eq. unfold found.
  destruct (usersByName acc !! _); [|done]. cbn. unfold deref. by destruct (users acc !! _).
Qed.
Lemma GetUser_ok n acc x : (GetUserByUsername n acc).2 = Ok x → ∃ k, users acc !! k = Some x.
Proof.
  unfold GetUserByUsername. rewrite (bind_Ok _ _ _ acc acc) by done. rewrite M_bind_eq. unfold found.
  destruct (usersByName acc !! _) as [k|]; [|done]. cbn. unfold deref. destruct (users acc !! k) eqn:E; [|done]. cbn.
  intros [= ->]. eauto.
Qed.

Lemma FindDirect_read a x w : on_chats (FindDirect a x) w = (w, (GetDirect a x (mdb w)).2).
Proof.
  destruct w as [p [s b] q bl]. unfold on_chats, on_local, on_chat, FindDirect. cbn. rewrite store_eq. unfold GetDirect.
  rewrite M_bind_eq. cbn [get]. destruct (directIndex _ !! _) as [id|]; [destruct (chats (cdb s) !! id)|]; cbn; by rewrite set_cdb_same.
Qed.
Lemma lookup_read n w :
  on_people (on_users (GetUserByUsername n)) w = (w, (GetUserByUsername n (accounts (be_people w))).2).
Proof.
  rewrite on_people_read.
  - unfold on_users. by destruct (GetUserByUsername _ _).
  - unfold on_users. pose proof (GetUser_reads n (accounts (be_people w))) as Hr. destruct (be_people w) as [acc d].
    cbn in *. destruct (GetUserByUsername n acc). cbn in *. by subst.
Qed.

(** What a target can turn into: a chat id the block gate let through, the chat indexed for a
    pair that is not blocked, or a new direct chat. *)
Definition unblocked (a x : string) w : Prop :=
  blocked_in a x (contacts (be_people w)) = false ∧ blocked_in x a (contacts (be_people w)) = false.
Definition named (x : string) w : Prop := ∃ k y, users (accounts (be_people w)) !! k = Some y ∧ User_ID y = x.
Lemma resolve_cases l a target w :
  reachable (be_local w).1 → tidy (mdb w) → chats (mdb w) !! l_id l = None → users_ok w → a ≠ "" →
  ∃ w' r, resolveChat l a target w = (w', r) ∧
  ((still w w' ∧ ∀ id, r = Ok id → no_bar id = true ∧
     ((id = target ∧ (refuseIfBlocked (l_ticks l) a target w).2 = Ok tt) ∨
      ∃ x, directIndex (mdb w) !! directKey a x = Some id ∧ unblocked a x w ∧ named x w)) ∨
   (r = Ok (l_id l) ∧ ∃ x, directIndex (mdb w) !! directKey a x = None ∧ opened (l_id l) a x w w')).
Proof.
  intros Hg Ht Hn Hu Ha. unfold resolveChat. destruct (HasPrefix target "@"); cbn [negb].
  2:{ destruct (validID target) eqn:Ev; [|by eexists _, _; split; [done|]; left].
      rewrite (bind_Ok _ _ _ w tt) by done. rewrite M_bind_eq.
      destruct (refuse_still (l_ticks l) a target w Hg) as (w' & r & -> & Hst). destruct r as [[]|e].
      - eexists _, _. split; [done|]. left. split; [done|]. intros id [= <-]. split; [by apply validID_no_bar|]. by left.
      - eexists _, _. split; [done|]. by left. }
  set (uname := bstring _). rewrite M_bind_eq. unfold attempt. rewrite lookup_read.
  destruct (GetUserByUsername uname _).2 as [x|e] eqn:Ex.
  2:{ destruct e; try (by eexists _, _; split; [done|]; left). destruct (l_lookup l); by eexists _, _; split; [done|]; left. }
  rewrite (bind_Ok _ _ _ _ _ (Blocks_read a (User_ID x) w)).
  destruct (blocked_in a _ _) eqn:Eb1; [by eexists _, _; split; [done|]; left|].
  destruct (blocked_in _ a _) eqn:Eb2; [by eexists _, _; split; [done|]; left|]. cbn [orb negb].
  rewrite (bind_Ok _ _ _ w tt) by done. rewrite M_bind_eq. unfold attempt.
  rewrite FindDirect_read.
  unfold GetDirect. rewrite M_bind_eq. cbn [get]. destruct (directIndex _ !! _) as [id|] eqn:Ei.
  { destruct (chats (mdb w) !! id) as [ch|] eqn:Ec; [|by eexists _, _; split; [done|]; left]. apply Ht in Ec as [Hid Hbar].
    eexists _, _. split; [done|]. left. split; [done|]. cbn. rewrite Hid. intros id' [= <-]. split; [done|]. right. exists (User_ID x).
    apply GetUser_ok in Ex as [k Hk]. split_and!; [done..|]. by exists k, x. }
  cbn [fail fst snd]. destruct (l_lookup l); [|by eexists _, _; split; [done|]; left].
  destruct (l_newChat l); [|by eexists _, _; split; [done|]; left].
  rewrite !(bind_Ok _ _ _ w tt) by done. rewrite M_bind_eq.
  apply GetUser_ok in Ex as [k Hk]. apply Hu in Hk as Hx.
  destruct (EnsureDirect_opens a (User_ID x) (l_id l) (l_now l) w Hg Hn Ha Hx Ei) as (w' & ch & -> & Hch & Hop).
  eexists _, _. split; [done|]. right. cbn. rewrite Hch. eauto.
Qed.

(** What every state has: sound caches, chats under their ids, fresh ids, named users, polls
    of issued chats. *)
Record ordinary (ids : list string) w : Prop := {
  or_good : reachable (be_local w).1;
  or_tidy : tidy (mdb w);
  or_fresh : fresh_ids ids (mdb w);
  or_users : users_ok w;
  or_polls : polls_ok w;
}.
Lemma ordinary_weaken ids w : ordinary ids w → ordinary [] w.
Proof. intros []. split; [done|done| |done|done]. split; constructor. Qed.
Lemma ordinary_framed ids w w' :
  ordinary ids w → reachable (be_local w').1 → be_people w' = be_people w → polls_ok w' → framed (mdb w) (mdb w') →
  ordinary ids w'.
Proof.
  intros [Hg Ht [Hnd Hfr] Hu _] Hg' Hp Hpo (_ & _ & Hid). split.
  - done.
  - intros cid ch' Hch'. pose proof (Hid cid) as Hcid. rewrite Hch' in Hcid.
    destruct (chats (mdb w) !! cid) as [ch0|] eqn:E; [|done]. apply Ht in E as [E ?]. cbn in Hcid.
    split; [|done]. injection Hcid as ->. done.
  - split; [done|]. eapply Forall_impl; [exact Hfr|]. intros id [Hn ?]. split; [|done].
    specialize (Hid id). rewrite Hn in Hid. by destruct (chats (mdb w') !! id).
  - unfold users_ok. by rewrite Hp.
  - done.
Qed.
Lemma ordinary_opened id ids a x w w' : ordinary (id :: ids) w → opened id a x w w' → ordinary ids w'.
Proof.
  intros [Hg Ht [Hnd Hfr] Hu Hpo] (Hp & Hsd & Hg' & (ch & Hch & Hc) & _). apply NoDup_cons in Hnd as [Hni Hnd].
  apply Forall_cons in Hfr as [[_ Hb] Hfr]. split; [done| | | |by eapply side_polls].
  - intros cid ch'. rewrite Hc, lookup_insert_Some. intros [[<- <-]|[_ ?]]; [done|by apply Ht].
  - split; [done|]. rewrite Forall_forall in *. intros id' Hin. rewrite Hc, lookup_insert_ne by (by intros ->). by apply Hfr.
  - unfold users_ok. by rewrite Hp.
Qed.
Lemma ordinary_drop id ids w : ordinary (id :: ids) w → ordinary ids w.
Proof. intros [? ? [Hnd Hfr] ? ?]. split; [done|done| |done|done]. apply NoDup_cons in Hnd as [_ ?]. by apply Forall_cons in Hfr as [_ ?]. Qed.
Lemma ordinary_id id ids w : ordinary (id :: ids) w → chats (mdb w) !! id = None ∧ no_bar id = true.
Proof. intros [_ _ [_ Hfr] _]. by apply Forall_cons in Hfr as [? _]. Qed.

Lemma or_reply_state {S A} (m : M S A) onErr k (s : S) :
  (or_reply m onErr k s).1 = match (m s).2 with Ok a => (k a (m s).1).1 | Err _ => (m s).1 end.
Proof. unfold or_reply. rewrite M_bind_eq. unfold attempt. by destruct (m s) as [s' [a|e]]. Qed.

Lemma refuseIfSecret_reads id op w : (refuseIfSecret id op w).1 = w.
Proof.
  unfold refuseIfSecret. case_bool_decide; [done|].
  rewrite M_bind_eq. unfold attempt, on_chats, on_local, on_chat, Get. destruct w as [p [s b] q bl]. cbn. rewrite store_eq, GetChat_eq.
  cbn. rewrite set_cdb_same. by destruct (chats (cdb s) !! id).
Qed.

(** ** Policies

    A policy is what must hold of the backend and how a step may change it: [p_inv ids] with
    the ids [ids] still fresh, [p_rel] between the states before and after; which chats a
    user's request may go on with and which pass a secret-chat refusal; which scheduled rows
    and which contact calls there are. *)

Record Policy := mkPolicy {
  p_inv : list string → Backend B → Prop;
  p_rel : Backend B → Backend B → Prop;
  p_usable : string → string → Prop;
  p_passes : string → string → Prop;
  p_rows : Pending → Prop;
  p_allowed : op → ContactState → Prop;
}.

Definition calm (P : Policy) (ids : list string) w w' : Prop := p_inv P ids w' ∧ p_rel P w w'.
Definition safe {A} (P : Policy) (ids ids' : list string) (m : M (Backend B) A) (post : A → Prop) : Prop :=
  ∀ w, p_inv P ids w → calm P ids' w (m w).1 ∧ ∀ a, (m w).2 = Ok a → post a.

(** The policy is one that each service call upholds. *)
Record upheld (P : Policy) : Prop := {
  up_refl w : p_rel P w w;
  up_trans w1 w2 w3 : p_rel P w1 w2 → p_rel P w2 w3 → p_rel P w1 w3;
  up_weaken ids w : p_inv P ids w → p_inv P [] w;
  up_base ids w : p_inv P ids w → ordinary ids w;
  up_bar a id : p_usable P a id → no_bar id = true;
  up_resolve l a target ids : a ≠ "" → safe P (l_id l :: ids) ids (resolveChat l a target) (p_usable P a);
  up_refuse t a id ids : validID id = true → safe P ids ids (refuseIfBlocked t a id) (λ _, p_usable P a id);
  up_secret id op ids : safe P ids ids (refuseIfSecret id op) (λ r, r = None → p_passes P op id);
  up_submit t id obID now cmd ids :
    p_usable P (Cmd_ActorID cmd) (Cmd_ChatID cmd) → (Cmd_Op cmd = OpCreate → p_passes P "send" (Cmd_ChatID cmd)) →
    safe P ids ids (Submit trace t id obID now cmd) (λ _, True);
  up_delete t id obID now cmd ids :
    no_bar (Cmd_ChatID cmd) = true → Cmd_Op cmd = OpDelete → safe P ids ids (Submit trace t id obID now cmd) (λ _, True);
  up_forward t t' id obID now a src srcID dst k ids :
    p_usable P a src → p_usable P a dst → p_passes P "send" dst →
    safe P ids ids (Forward trace t t' id obID now a src srcID dst k) (λ _, True);
  up_read t now a id n ids : no_bar id = true → safe P ids ids (MarkRead trace t now a id n) (λ _, True);
  up_quiet w w' ids :
    p_inv P ids w → quiet (MessageLaws := backend_laws (be_people w) (be_side w)) w w' → calm P ids w w';
  up_hushed w w' ids : p_inv P ids w → hushed w w' → calm P ids w w';
  up_typing id a act ids : safe P ids ids (typing_event trace id a act) (λ _, True);
  up_people o w :
    p_inv P [] w → (∀ a, o ≠ OAccounts a) → p_allowed P o (be_people w) →
    calm P [] w (mkBackend _ (exec o (be_people w)) (be_local w) (be_presence w) (be_polls w));
  up_insert d id m a : p_rows P d → p_usable P a (Sched_ChatID m) → p_rows P (<[id := m]> d);
  up_remove d id : p_rows P d → p_rows P (delete id d);
}.

Section policy.
Variable P : Policy.
Hypothesis U : upheld P.

Lemma safe_ret {A} ids (a : A) (post : A → Prop) : post a → safe P ids ids (mret a) post.
Proof. intros Ha w Hw. split; [split; [done|by apply up_refl]|]. by intros a' [= <-]. Qed.
Lemma safe_done {A} ids (a : A) : safe P ids [] (mret a) (λ _, True).
Proof. intros w Hw. split; [|done]. split; [by eapply up_weaken|by apply up_refl]. Qed.
Lemma safe_bind {A C} ids ids' ids2 (m : M (Backend B) A) (k : A → M (Backend B) C) post post' :
  (∀ w, p_inv P ids' w → p_inv P ids2 w) →
  safe P ids ids' m post → (∀ a, post a → safe P ids' ids2 (k a) post') → safe P ids ids2 (m ≫= k) post'.
Proof.
  intros Hw2 Hm Hk w Hw. rewrite M_bind_eq. destruct (Hm w Hw) as [[Hi Hr] Hp]. destruct (m w) as [w1 [a|e]]; cbn [fst snd] in *.
  - destruct (Hk a (Hp a eq_refl) w1 Hi) as [[? ?] ?]. split; [split; [done|by eapply up_trans]|done].
  - split; [split; [by apply Hw2|done]|done].
Qed.
Lemma safe_attempt {A} ids ids' (m : M (Backend B) A) post :
  safe P ids ids' m post → safe P ids ids' (attempt m) (λ r, ∀ a, r = Ok a → post a).
Proof.
  intros Hm w Hw. unfold attempt. destruct (Hm w Hw) as [Hc Hp]. destruct (m w) as [w1 r]; cbn [fst snd] in *.
  split; [done|]. intros r' [= <-]. done.
Qed.
Lemma safe_then {A} ids ids' (m : M (Backend B) A) onErr k post :
  safe P ids ids' m post → (∀ a, post a → safe P ids' [] (k a) (λ _, True)) → safe P ids [] (or_reply m onErr k) (λ _, True).
Proof.
  intros Hm Hk. unfold or_reply. eapply safe_bind; [by apply up_weaken|by apply safe_attempt|].
  intros [a|e] Ha; [by apply Hk, Ha|apply safe_done].
Qed.
Lemma safe_unless ids id op k :
  (p_passes P op id → safe P ids [] k (λ _, True)) → safe P ids [] (unless_secret id op k) (λ _, True).
Proof.
  intros Hk. unfold unless_secret. eapply safe_bind; [by apply up_weaken|by apply up_secret|].
  intros [f|] Hp; [apply safe_done|by apply Hk, Hp].
Qed.
Lemma safe_quiet {A} ids (m : M (Backend B) A) :
  (∀ w, good (MessageLaws := backend_laws (be_people w) (be_side w)) w →
    quiet (MessageLaws := backend_laws (be_people w) (be_side w)) w (m w).1) →
  safe P ids ids m (λ _, True).
Proof. intros Hm w Hw. split; [|done]. apply up_quiet; [done..|]. apply Hm. split; [|done]. by eapply up_base. Qed.
Lemma safe_History ids t a id before limit :
  no_bar id = true → safe P ids ids (MessageService.History t a id before limit) (λ _, True).
Proof.
  intros Hb. apply safe_quiet. intros w Hg.
  by apply (reads_quiet (H0 := backend_laws (be_people w) (be_side w)) t a id w before limit "" 0 0 Hg).
Qed.
Lemma safe_Thread ids t a id root after limit :
  no_bar id = true → safe P ids ids (MessageService.Thread t a id root after limit) (λ _, True).
Proof.
  intros Hb. apply safe_quiet. intros w Hg.
  by apply (reads_quiet (H0 := backend_laws (be_people w) (be_side w)) t a id w 0 0 root after limit Hg).
Qed.
Lemma safe_CanPost ids t id a : no_bar id = true → safe P ids ids (Chats_CanPost t id a) (λ _, True).
Proof.
  intros Hb. apply safe_quiet. intros w Hg.
  by destruct (CanPost_spec (MessageLaws := backend_laws (be_people w) (be_side w)) t id a w Hg Hb) as (w' & -> & ?).
Qed.
Lemma safe_hushed {A} ids (m : M (Backend B) A) : (∀ w, polls_ok w → runs hushed w m) → safe P ids ids m (λ _, True).
Proof.
  intros Hm w Hw. split; [|done]. apply up_hushed; [done..|]. apply Hm. exact (or_polls _ _ (up_base P U _ _ Hw)).
Qed.

(** *** The handlers uphold it *)

Section handlers.
Variables (i : Inputs) (a : string).
Hypothesis a_named : a ≠ "".
Abbreviation ids := [l_id (i_look i); l_id (i_look' i)].

Lemma safe_handleSend b : safe P ids [] (handleSend media trace i a b) (λ _, True).
Proof.
  destruct b as [b|]; [|apply safe_done]. cbn [handleSend]. eapply safe_then; [by apply up_resolve|]. intros id Hid.
  apply safe_unless. intros Hp. eapply safe_then; [by apply up_submit|]. intros r _. apply safe_done.
Qed.
Lemma safe_handleRead b : safe P ids [] (handleRead trace i a b) (λ _, True).
Proof.
  destruct b as [b|]; [|apply safe_done]. cbn [handleRead]. eapply safe_then; [by apply up_resolve|]. intros id Hid.
  eapply safe_then; [apply up_read; [done|by eapply up_bar]|]. intros r _. apply safe_done.
Qed.
Lemma safe_handleTyping b : safe P ids [] (handleTyping trace i a b) (λ _, True).
Proof.
  unfold handleTyping. destruct (i_typing i); [|apply safe_done]. destruct b as [b|]; [|apply safe_done]. cbn [negb].
  eapply safe_then; [by apply up_resolve|]. intros id Hid. destruct (i_typingChat i); [|apply safe_done]. cbn [negb].
  eapply safe_bind; [by apply up_weaken|by apply up_typing|]. intros [] _. apply safe_done.
Qed.
Lemma safe_handleEdit b : safe P ids [] (handleEdit media trace i a b) (λ _, True).
Proof.
  destruct b as [b|]; [|apply safe_done]. cbn [handleEdit]. destruct (validID (EditB_ChatID b)) eqn:Ev; [|apply safe_done].
  destruct (validID (EditB_MessageID b)); [|apply safe_done]. cbn [negb orb]. eapply safe_then; [by apply up_refuse|]. intros [] Hid.
  eapply safe_then; [by apply up_submit|]. intros r _. apply safe_done.
Qed.
Lemma safe_handleDelete b : safe P ids [] (handleDelete media trace i a b) (λ _, True).
Proof.
  destruct b as [b|]; [|apply safe_done]. cbn [handleDelete]. destruct (validID (DeleteB_ChatID b)) eqn:Ev; [|apply safe_done].
  destruct (validID (DeleteB_MessageID b)); [|apply safe_done]. cbn [negb orb].
  eapply safe_then; [by apply up_delete; [done|apply validID_no_bar|]|]. intros r _. apply safe_done.
Qed.
Lemma safe_handleHistory caps b : safe P ids [] (handleHistory i caps a b) (λ _, True).
Proof.
  destruct b as [b|]; [|apply safe_done]. cbn [handleHistory]. eapply safe_then; [by apply up_resolve|]. intros id Hid.
  apply safe_unless. intros _. eapply safe_then; [apply safe_History; by eapply up_bar|]. intros r _. apply safe_done.
Qed.
Lemma safe_handleThread b : safe P ids [] (handleThread i a b) (λ _, True).
Proof.
  destruct b as [b|]; [|apply safe_done]. cbn [handleThread]. case_bool_decide; [apply safe_done|].
  eapply safe_then; [by apply up_resolve|]. intros id Hid. eapply safe_then; [apply safe_Thread; by eapply up_bar|].
  intros r _. apply safe_done.
Qed.
Lemma safe_handleForward b : safe P ids [] (handleForward trace i a b) (λ _, True).
Proof.
  destruct b as [b|]; [|apply safe_done]. cbn [handleForward]. eapply safe_then; [by apply up_resolve|]. intros src Hsrc.
  eapply safe_then; [by apply up_resolve|]. intros dst Hdst. apply safe_unless. intros _. apply safe_unless. intros Hp.
  eapply safe_then; [by apply up_forward|]. intros r _. apply safe_done.
Qed.

Lemma safe_replyPollState ids pid : safe P ids [] (replyPollState i a pid) (λ _, True).
Proof.
  eapply safe_then; [apply safe_hushed; intros; by apply Results_hushed|]. intros r _. apply safe_done.
Qed.
(** A poll's question passes no secret-chat refusal: its target must be one that would. *)
Definition pollable (b : PollCreateBody) : Prop :=
  ∀ ids, safe P (l_id (i_look i) :: ids) ids (resolveChat (i_look i) a (PollC_ChatID b))
    (λ id, p_usable P a id ∧ p_passes P "send" id).
Lemma safe_handlePollCreate b :
  (∀ x, b = Some x → pollable x) → safe P ids [] (handlePollCreate media trace i a b) (λ _, True).
Proof.
  intros Hb. destruct b as [b|]; [|apply safe_done]. cbn [handlePollCreate]. eapply safe_then; [by apply (Hb b)|]. intros id [Hid Hp].
  eapply safe_then; [by apply up_submit|]. intros [m dup] _.
  eapply safe_then; [apply safe_hushed; intros; apply Create_hushed; by eapply up_bar|]. intros p _. apply safe_replyPollState.
Qed.
Lemma safe_handlePollVote b : safe P ids [] (handlePollVote trace i a b) (λ _, True).
Proof.
  destruct b as [[pid o]|]; [|apply safe_done]. cbn [handlePollVote].
  eapply safe_then; [apply safe_hushed; intros; by apply Vote_hushed|]. intros p _. apply safe_replyPollState.
Qed.
Lemma safe_handlePollClose b : safe P ids [] (handlePollClose trace i a b) (λ _, True).
Proof.
  destruct b as [pid|]; [|apply safe_done]. cbn [handlePollClose].
  eapply safe_then; [apply safe_hushed; intros; by apply Close_hushed|]. intros p _. apply safe_replyPollState.
Qed.
End handlers.

(** *** With the scheduler's rows *)

Definition holds (ids : list string) g : Prop := p_inv P ids (rest g) ∧ p_rows P (scheduled g).
Definition gcalm g g' : Prop := holds [] g' ∧ p_rel P (rest g) (rest g').

Lemma gcalm_refl g : holds [] g → gcalm g g.
Proof. intros. split; [done|by apply up_refl]. Qed.
Lemma gcalm_trans g1 g2 g3 : gcalm g1 g2 → gcalm g2 g3 → gcalm g1 g3.
Proof. intros [_ ?] [? ?]. split; [done|]. by eapply up_trans. Qed.

Lemma gcalm_world {A} ids (m : M (Backend B) A) post g : holds ids g → safe P ids [] m post → gcalm g (on_world m g).1.
Proof.
  intros [Hb Hr] Hm. destruct (Hm _ Hb) as [[? ?] _]. unfold on_world. destruct (m (rest g)) as [w' r]. by split.
Qed.
Lemma gcalm_pending {A} (m : M Pending A) g : holds [] g → p_rows P (m (scheduled g)).1 → gcalm g (on_pending m g).1.
Proof.
  intros [Hb Hr] Hm. unfold on_pending. destruct (m (scheduled g)) as [d r]. split; [done|by apply up_refl].
Qed.

(** A contact call is what [exec] of Contact.v says. *)
Lemma gcalm_contact {A} (m : M ContactState A) onErr f o g :
  holds [] g → (∀ a, o ≠ OAccounts a) → p_allowed P o (be_people (rest g)) →
  (m (be_people (rest g))).1 = exec o (be_people (rest g)) →
  gcalm g (on_world (or_reply (on_people m) onErr (λ x, mret (f x))) g).1.
Proof.
  intros [Hi Hr] Ho Hu Hm. destruct (up_people P U o (rest g) Hi Ho Hu) as [Hi' Hrel].
  unfold on_world. pose proof (or_reply_state (on_people m) onErr (λ x, mret (f x)) (rest g)) as Hs.
  destruct (or_reply _ _ _ (rest g)) as [w' r]. cbn [fst] in *.
  assert (w' = mkBackend _ (exec o (be_people (rest g))) (be_local (rest g)) (be_presence (rest g)) (be_polls (rest g))) as ->; [|done].
  rewrite Hs, <- Hm. unfold on_people. by destruct (m (be_people (rest g))) as [p [x|e]].
Qed.

(** A request at the scheduler: the target is resolved, then the rows are used. *)
Lemma gcalm_resolved i a target onErr (k : string → M (SchedState (Backend B)) (list Reply)) g :
  holds [l_id (i_look i); l_id (i_look' i)] g → a ≠ "" →
  (∀ id g', holds [] g' → p_usable P a id → gcalm g' (k id g').1) →
  gcalm g (or_reply (on_world (resolveChat (i_look i) a target)) onErr k g).1.
Proof.
  intros [Hb Hr] Ha Hk. rewrite or_reply_state. unfold on_world.
  destruct (up_resolve P U (i_look i) a target [l_id (i_look' i)] Ha (rest g) Hb) as [[Hi Hd] Hp].
  destruct (resolveChat (i_look i) a target (rest g)) as [w' r]. cbn [fst snd] in *. apply (up_weaken P U) in Hi.
  assert (gcalm g (mkSchedState (scheduled g) w')) as Hc by by split.
  destruct r as [id|e]; [|done]. eapply gcalm_trans; [exact Hc|]. apply Hk; [apply Hc|by apply Hp].
Qed.
Lemma gcalm_Schedule t newID in_ now g a :
  holds [] g → p_usable P a (SIn_ChatID in_) → gcalm g (Schedule t newID in_ now g).1.
Proof.
  intros Hg Hid. unfold Schedule. destruct (SIn_SendAt in_ <=? now); [by apply gcalm_refl|].
  rewrite (bind_Ok _ _ _ g tt) by done. destruct (_ <? _); [by apply gcalm_refl|]. rewrite (bind_Ok _ _ _ g tt) by done.
  rewrite M_bind_eq. assert (gcalm g (on_world (Chats_CanPost t (SIn_ChatID in_) (SIn_SenderID in_)) g).1) as Hc.
  { eapply gcalm_world; [exact Hg|apply safe_CanPost; by eapply up_bar]. }
  destruct (on_world _ g) as [g1 [[]|e]]; cbn [fst] in *; [|done|done]. rewrite (bind_Ok _ _ _ g1 tt) by done.
  eapply gcalm_trans; [exact Hc|]. apply (gcalm_pending (CreateScheduled _)); [apply Hc|].
  cbn. by eapply up_insert; [done|apply Hc|].
Qed.
Lemma gcalm_Cancel id a g : holds [] g → gcalm g (Cancel id a g).1.
Proof.
  intros Hg. apply gcalm_pending; [done|]. unfold CancelScheduled. rewrite (bind_Ok _ _ _ (scheduled g) (scheduled g)) by done.
  destruct (scheduled g !! id); [|apply Hg]. destruct (_ || _); [apply Hg|]. apply up_remove; [done|apply Hg].
Qed.

(** Requests come from authenticated users, with fresh ids. *)
Definition permitted (a : string) (i : Inputs) (q : Request) g : Prop :=
  a ≠ "" ∧ p_inv P [l_id (i_look i); l_id (i_look' i)] (rest g) ∧
  match q with
  | QContactAdd (Some (t, n)) => p_allowed P (OAdd a t n (i_now i)) (be_people (rest g))
  | QContactRemove (Some t) => p_allowed P (ORemove a t) (be_people (rest g))
  | QBlock (Some (t, b)) => p_allowed P (OSetBlocked a t b (i_now i)) (be_people (rest g))
  | QPollCreate (Some b) => pollable i a b
  | _ => True
  end.
Lemma gcalm_request a caps i q g : holds [] g → permitted a i q g → gcalm g (dispatch media trace i caps a q g).1.
Proof.
  intros Hg (Ha & Hf & Hq). assert (holds [l_id (i_look i); l_id (i_look' i)] g) as Hr by (split; [done|apply Hg]). unfold dispatch.
  destruct (stateChanging q && _); [by apply gcalm_refl|]. destruct (amplifying q && _); [by apply gcalm_refl|].
  destruct q as [| | |b|b|b|b|b|b|b|b|b|b|b|b|b|b|b|b|b|b|]; try (by apply gcalm_refl).
  - eapply gcalm_world; [exact Hr|by apply safe_handleSend].
  - eapply gcalm_world; [exact Hr|by apply safe_handleRead].
  - eapply gcalm_world; [exact Hr|by apply safe_handleTyping].
  - eapply gcalm_world; [exact Hr|by apply safe_handleThread].
  - eapply gcalm_world; [exact Hr|by apply safe_handleForward].
  - destruct b as [b|]; [|by apply gcalm_refl]. apply gcalm_resolved; [done..|]. intros id g' Hg' Hid. rewrite or_reply_state.
    pose proof (gcalm_Schedule (i_ticks i) (i_id i) (mkSchedInput id a (SchedB_Text b) (SchedB_MediaRef b)
      (ModelAttachment (SchedB_Attachment b)) (SchedB_ReplyTo b) (SchedB_TTLSeconds b) (SchedB_SendAt b)) (i_now i) g' a Hg' Hid) as Hs.
    by destruct (Schedule _ _ _ _ g').2.
  - destruct b as [b|]; [|by apply gcalm_refl]. apply gcalm_resolved; [done..|]. intros id g' Hg' Hid. rewrite or_reply_state.
    assert (gcalm g' (List_ a id g').1) by (apply gcalm_pending; [done|apply Hg']). by destruct (List_ a id g').2.
  - destruct b as [b|]; [|by apply gcalm_refl]. cbn [handleScheduleCancel]. rewrite or_reply_state.
    pose proof (gcalm_Cancel b a g Hg). by destruct (Cancel b a g).2.
  - eapply gcalm_world; [exact Hr|by apply safe_handleEdit].
  - eapply gcalm_world; [exact Hr|by apply safe_handleDelete].
  - eapply gcalm_world; [exact Hr|by apply safe_handleHistory].
  - destruct b as [[t n]|]; [|eapply gcalm_world; [exact Hg|apply safe_done]]. by apply (gcalm_contact _ _ _ (OAdd a t n (i_now i))).
  - destruct b as [t|]; [|eapply gcalm_world; [exact Hg|apply safe_done]]. by apply (gcalm_contact _ _ _ (ORemove a t)).
  - destruct b as [since|]; [|eapply gcalm_world; [exact Hg|apply safe_done]]. eapply gcalm_world; [exact Hg|].
    eapply (safe_then _ [] _ _ _ (λ _, True)); [|intros r _; apply safe_done]. intros w Hw. rewrite on_people_read by (by destruct (be_people w)).
    split; [|done]. split; [done|by apply up_refl].
  - destruct b as [[t b]|]; [|eapply gcalm_world; [exact Hg|apply safe_done]]. by apply (gcalm_contact _ _ _ (OSetBlocked a t b (i_now i))).
  - eapply gcalm_world; [exact Hr|]. apply safe_handlePollCreate. by intros x ->.
  - eapply gcalm_world; [exact Hr|by apply safe_handlePollVote].
  - eapply gcalm_world; [exact Hr|by apply safe_handlePollClose].
Qed.
End policy.

(** ** A blocked pair *)

Section pair.
Variables c u v : string.
Hypothesis u_v : u ≠ v.

(** The 1:1 chat [c] of [u] and [v], where [v] has blocked [u]. *)
Record blocked_chat (ids : list string) w : Prop := {
  bc_base : ordinary ids w;
  bc_chat : ∃ ch, chats (mdb w) !! c = Some ch ∧ Is1To1 (Chat_Type ch) = true;
  bc_members x : is_Some (members_of c (mdb w) !! x) ↔ x = u ∨ x = v;
  bc_index a b : directIndex (mdb w) !! directKey a b = Some c → (a = u ∧ b = v) ∨ (a = v ∧ b = u);
  bc_senders m : m ∈ messages_of c (mdb w) → Message_SenderID m = u ∨ Message_SenderID m = v;
  bc_block : blocked_in v u (contacts (be_people w)) = true;
}.

(** Some messages became tombstones. *)
Definition tombstoned (l l' : list Message) : Prop := Forall2 (λ m m', m' = m ∨ ∃ t, m' = set_deleted t m) l l'.
Abbreviation log w := (messages_of c (mdb w)).
Definition only_deleted w w' : Prop := tombstoned (log w) (log w').

Lemma tombstoned_refl l : tombstoned l l.
Proof. apply Forall2_same_length_lookup_2; [done|]. intros i x y Hx Hy. left. congruence. Qed.
Lemma tombstoned_trans l1 l2 l3 : tombstoned l1 l2 → tombstoned l2 l3 → tombstoned l1 l3.
Proof.
  intros H12. revert l3. induction H12 as [|x y l1 l2 Hxy _ IH]; intros l3 H23; [done|].
  apply Forall2_cons_inv_l in H23 as (z & l3' & Hyz & Hl & ->). constructor; [|by apply IH].
  destruct Hxy as [->|[t ->]], Hyz as [->|[t' ->]]; eauto.
Qed.
Lemma tombstoned_update id t l : tombstoned l (update_first id (set_deleted t) l).
Proof.
  induction l as [|m l IH]; [constructor|]. cbn. case_bool_decide; constructor; eauto. apply tombstoned_refl.
Qed.
Lemma tombstoned_senders l l' : tombstoned l l' → Message_SenderID <$> l' = Message_SenderID <$> l.
Proof. induction 1 as [|m m' l l' [->|[t ->]] _ IH]; [done|..]; cbn; by rewrite IH. Qed.
Lemma only_deleted_refl w : only_deleted w w.
Proof. apply tombstoned_refl. Qed.
Lemma only_deleted_trans w1 w2 w3 : only_deleted w1 w2 → only_deleted w2 w3 → only_deleted w1 w3.
Proof. apply tombstoned_trans. Qed.

(** A chat that a request of [a] may go on with. *)
Definition usable (a id : string) : Prop := no_bar id = true ∧ (a = u ∨ a = v → id ≠ c).
(** Nothing is pending for a chat whose id could not have been issued. *)
Definition rows_ok (d : Pending) : Prop := ∀ id m, d !! id = Some m → no_bar (Sched_ChatID m) = true.

(** Contact calls other than [v] unblocking [u]. *)
Definition blocking : Policy :=
  mkPolicy blocked_chat only_deleted usable (λ _ _, True) rows_ok (λ o st, unblocks v u o st = false).
Abbreviation bcalm := (calm blocking).
Abbreviation bsafe := (safe blocking).

Lemma blocked_weaken ids w : blocked_chat ids w → blocked_chat [] w.
Proof. intros []. split; [by eapply ordinary_weaken|done..]. Qed.
Lemma blocked_drop id ids w : blocked_chat (id :: ids) w → blocked_chat ids w.
Proof. intros []. split; [by eapply ordinary_drop|done..]. Qed.

Lemma blocked_framed ids w w' :
  blocked_chat ids w → reachable (be_local w').1 → be_people w' = be_people w → polls_ok w' → framed (mdb w) (mdb w') →
  tombstoned (log w) (log w') → bcalm ids w w'.
Proof.
  intros [Ho (ch & Hc & Hty) Hm Hi Hs Hb] Hg' Hp Hpo Hf Htomb. split; [|done].
  split; [by eapply ordinary_framed|..]; destruct Hf as ((Hkind & Hmem) & Hidx & Hid).
  - specialize (Hkind c). rewrite Hc in Hkind. destruct (chats (mdb w') !! c) as [ch'|]; [|done].
    injection Hkind as Hk. exists ch'. by rewrite Hk.
  - unfold members_of. rewrite Hmem. apply Hm.
  - rewrite Hidx. apply Hi.
  - intros m Hin. assert (Message_SenderID m ∈ Message_SenderID <$> log w') as Hs' by by apply list_elem_of_fmap_2.
    rewrite (tombstoned_senders _ _ Htomb) in Hs'. apply list_elem_of_fmap in Hs' as (m0 & -> & ?). auto.
  - by rewrite Hp.
Qed.
Lemma blocked_still ids w w' : blocked_chat ids w → still w w' → bcalm ids w w'.
Proof.
  intros Hw (Hp & Hsd & _ & Hd & Hg). apply blocked_framed; [done..|by eapply side_polls, Hw| |]; rewrite Hd; [done|apply tombstoned_refl].
Qed.
Lemma blocked_opened id ids a x w w' : blocked_chat (id :: ids) w → opened id a x w w' → bcalm ids w w' ∧ id ≠ c.
Proof.
  intros [Ho (ch & Hc & Hty) Hm Hi Hs Hb] Hop. assert (id ≠ c) as Hid.
  { intros ->. apply ordinary_id in Ho as [? _]. congruence. }
  split; [|done]. pose proof (ordinary_opened _ _ _ _ _ _ Ho Hop) as Ho'.
  destruct Hop as (Hp & _ & _ & (ch' & _ & Hc') & Hx & Hmem & Hmsg). split; [split|].
  - done.
  - exists ch. by rewrite Hc', lookup_insert_ne.
  - intros y. by rewrite Hmem.
  - intros y z. rewrite Hx, lookup_insert_Some. intros [[_ ?]|[_ ?]]; [done|by apply Hi].
  - unfold messages_of. rewrite Hmsg. apply Hs.
  - by rewrite Hp.
  - cbn. unfold only_deleted, messages_of. rewrite Hmsg. apply tombstoned_refl.
Qed.

(** Both see the other as the peer, and a block. *)
Lemma blocked_peer t a ids w :
  blocked_chat ids w → a = u ∨ a = v →
  ∃ w' peer, directPeer t a c w = (w', Ok (peer, true)) ∧ still w w' ∧
    on_people (BlocksBetween a peer) w' = (w', Ok true).
Proof.
  intros [Ho (ch & Hc & Hty) Hm _ _ Hb] Ha. set (peer := if decide (a = u) then v else u).
  assert (∃ s', DirectPeer t c a (be_local w).1 = (s', Ok (peer, true)) ∧ reachable s' ∧ cdb s' = cdb (be_local w).1) as (s' & Hd & Hr & Hs).
  { apply (DirectPeer_pair t c a peer _ ch); [apply Ho|done|done| |]; unfold peer; [by destruct (decide (a = u)) as [->|?]; [|destruct Ha]|].
    intros x. rewrite Hm. destruct (decide (a = u)) as [->|?]; [done|]. destruct Ha as [?| <-]; [done|]. tauto. }
  destruct (on_chats_still _ w _ _ Hd Hr Hs) as (w' & Hw' & Hst). exists w', peer. split_and!; [done..|].
  rewrite Blocks_read. destruct Hst as (-> & _). do 2 f_equal. unfold peer.
  destruct (decide (a = u)) as [->|?]; [by rewrite Hb, orb_true_r|]. destruct Ha as [?| ->]; [done|]. by rewrite Hb.
Qed.
(** The gate is shut for both of them. *)
Lemma blocked_gate t a ids w :
  blocked_chat ids w → a = u ∨ a = v → (refuseIfBlocked t a c w).2 = Err gateway_errBlocked.
Proof.
  intros Hw Ha. destruct (blocked_peer t a ids w Hw Ha) as (w' & peer & Hp & _ & Hb). unfold refuseIfBlocked.
  rewrite M_bind_eq. unfold attempt. by rewrite Hp, (bind_Ok _ _ _ _ _ Hb).
Qed.

Lemma safe_resolve l a target ids : a ≠ "" → bsafe (l_id l :: ids) ids (resolveChat l a target) (usable a).
Proof.
  intros Ha w Hw. pose proof (bc_base _ _ Hw) as Ho. destruct (ordinary_id _ _ _ Ho) as [Hn Hbar].
  destruct (resolve_cases l a target w (or_good _ _ Ho) (or_tidy _ _ Ho) Hn (or_users _ _ Ho) Ha) as (w' & r & -> & Hcase).
  cbn [fst snd]. destruct Hcase as [[Hst Hid]|[-> (x & _ & Hop)]].
  - split; [by apply blocked_still; [eapply blocked_drop|]|]. intros id Hr. destruct (Hid id Hr) as [? Hcase]. split; [done|].
    intros Hau ->. destruct Hcase as [[Ht Hok]|(x & Hi & [Hu1 Hu2] & _)]; [rewrite <- Ht in Hok; by rewrite (blocked_gate _ a _ w Hw Hau) in Hok|].
    pose proof (bc_block _ _ Hw) as Hb. apply (bc_index _ _ Hw) in Hi as [[-> ->]|[-> ->]]; congruence.
  - destruct (blocked_opened _ _ _ _ _ _ Hw Hop) as [Hc ?]. split; [done|]. by intros id [= <-].
Qed.

(** Message operations. *)
Abbreviation laws w := (backend_laws (be_people w) (be_side w)).
Lemma good_laws ids w : blocked_chat ids w → good (MessageLaws := laws w) w.
Proof. intros [[] _ _ _ _ _]. done. Qed.

Lemma safe_op {A} ids (m : M (Backend B) A) :
  (∀ w, blocked_chat ids w → keeps (H0 := laws w) w (m w).1 ∧ tombstoned (log w) (log (m w).1)) →
  bsafe ids ids m (λ _, True).
Proof.
  intros Hm w Hw. destruct (Hm w Hw) as [[(? & ? & ?) ?] ?]. split; [|done]. apply blocked_framed; [done..|by eapply side_polls, Hw|done|done].
Qed.
Lemma member_posts ids w a : blocked_chat ids w → d_post (decided (mdb w) c a) = Ok true → a = u ∨ a = v.
Proof.
  intros Hw. destruct (bc_chat _ _ Hw) as (ch & Hc & _). unfold decided. rewrite Hc. cbn. intros [= Hp].
  apply (bc_members _ _ Hw). revert Hp. unfold may_post. cbn. destruct (members_of c _ !! a); [eauto|done].
Qed.

Lemma safe_Submit ids t id obID now cmd :
  no_bar (Cmd_ChatID cmd) = true →
  Cmd_Op cmd = OpDelete ∨ usable (Cmd_ActorID cmd) (Cmd_ChatID cmd) →
  bsafe ids ids (Submit trace t id obID now cmd) (λ _, True).
Proof.
  intros Hbar Hcmd. apply safe_op. intros w Hw. pose proof (good_laws _ _ Hw) as Hg.
  split; [by apply (Submit_keeps (H0 := laws w))|].
  pose proof (Submit_changes (H0 := laws w) trace t id obID now cmd w c Hg Hbar) as Hch. cbv zeta in Hch.
  destruct (decide (log (Submit trace t id obID now cmd w).1 = log w)) as [->|Hne]; [apply tombstoned_refl|].
  destruct (Hch Hne) as (Hc & _ & [(Hop & Hp & _)|(m & Hm & [(Hop & Hs & _)|(_ & _ & ->)])]).
  - destruct Hcmd as [Hd|[_ Hu]]; [by rewrite Hd in Hop|]. destruct Hu; [|done]. by eapply member_posts.
  - destruct Hcmd as [Hd|[_ Hu]]; [by rewrite Hd in Hop|]. destruct Hu; [|done]. rewrite <- Hs.
    apply (bc_senders _ _ Hw). by apply find_msg_elem in Hm as [? _].
  - apply tombstoned_update.
Qed.
Lemma safe_Send ids t id obID now s_in :
  usable (Send_SenderID s_in) (Send_ChatID s_in) → bsafe ids ids (Send trace t id obID now s_in) (λ _, True).
Proof.
  intros [Hbar Hu]. apply safe_op. intros w Hw.
  destruct (Send_changes (H0 := laws w) trace t id obID now s_in w c (good_laws _ _ Hw) Hbar) as [Hk Hch]. split; [done|].
  destruct (decide (log (Send trace t id obID now s_in w).1 = log w)) as [->|Hne]; [apply tombstoned_refl|].
  destruct (Hch Hne) as [Hc Hp]. destruct Hu; [by eapply member_posts|done].
Qed.
Lemma safe_Forward ids t t' id obID now a src srcID dst k :
  no_bar src = true → usable a dst → bsafe ids ids (Forward trace t t' id obID now a src srcID dst k) (λ _, True).
Proof.
  intros Hsrc [Hbar Hu]. apply safe_op. intros w Hw.
  destruct (Forward_changes (H0 := laws w) trace t t' id obID now a src srcID dst k w c (good_laws _ _ Hw) Hsrc Hbar) as [Hk Hch].
  split; [done|].
  destruct (decide (log (Forward trace t t' id obID now a src srcID dst k w).1 = log w)) as [->|Hne]; [apply tombstoned_refl|].
  destruct (Hch Hne) as [Hc Hp]. destruct Hu; [by eapply member_posts|done].
Qed.
Lemma safe_MarkRead ids t now a id n : no_bar id = true → bsafe ids ids (MarkRead trace t now a id n) (λ _, True).
Proof.
  intros Hbar. apply safe_op. intros w Hw.
  destruct (MarkRead_changes (H0 := laws w) trace t now a id n w (good_laws _ _ Hw) Hbar) as [Hk Hm]. split; [done|].
  unfold messages_of. rewrite Hm. apply tombstoned_refl.
Qed.
Lemma calm_quiet ids w w' : blocked_chat ids w → quiet (MessageLaws := laws w) w w' → bcalm ids w w'.
Proof.
  intros Hw ((? & ? & ?) & Hd & _). apply blocked_framed; [done..|by eapply side_polls, Hw| |]; rewrite Hd; [done|apply tombstoned_refl].
Qed.
Lemma safe_MayPost ids t id a :
  no_bar id = true → bsafe ids ids (Chats_CanPost t id a) (λ ok, ok = true → id = c → a = u ∨ a = v).
Proof.
  intros Hb w Hw. destruct (CanPost_spec (MessageLaws := laws w) t id a w (good_laws _ _ Hw) Hb) as (w' & -> & Hq).
  split; [by apply calm_quiet|]. cbn [snd]. intros ok Hok -> ->. by eapply member_posts.
Qed.
Lemma safe_refuse ids t a id : validID id = true → bsafe ids ids (refuseIfBlocked t a id) (λ _, usable a id).
Proof.
  intros Hv w Hw. destruct (refuse_still t a id w (or_good _ _ (bc_base _ _ Hw))) as (w' & r & Hr & Hst). rewrite Hr.
  split; [by apply blocked_still|]. cbn [snd]. intros [] ->. split; [by apply validID_no_bar|]. intros Ha ->.
  pose proof (blocked_gate t a _ w Hw Ha) as Hg. by rewrite Hr in Hg.
Qed.
Lemma exec_accounts o st : (∀ a, o ≠ OAccounts a) → accounts (exec o st) = accounts st.
Proof.
  intros Ho. destruct o as [o t n now|o t|o t b now|a]; cbn [exec].
  - rewrite Add_run. cbv zeta. by repeat case_match.
  - rewrite Remove_run. by repeat case_match.
  - rewrite SetBlocked_run. by repeat case_match.
  - by destruct (Ho a).
Qed.
Lemma blocked_people o w :
  blocked_chat [] w → (∀ a, o ≠ OAccounts a) → unblocks v u o (be_people w) = false →
  bcalm [] w (mkBackend _ (exec o (be_people w)) (be_local w) (be_presence w) (be_polls w)).
Proof.
  intros [[? ? ? Hu ?] Hc Hm Hi Hs Hb] Ho Hl. split; [|apply tombstoned_refl].
  split; [|done..|by apply blocked_kept]. split; [done..| |done]. intros k x. cbn. rewrite exec_accounts by done. apply Hu.
Qed.

Lemma blocked_hushed ids w w' : blocked_chat ids w → hushed w w' → bcalm ids w w'.
Proof.
  intros Hw (Hp & _ & Hd & Hs). destruct (bc_base _ _ Hw) as [Hg _ _ _ Hpo]. destruct (Hs (conj Hg Hpo)) as [? ?].
  apply blocked_framed; [done..| |]; rewrite Hd; [done|apply tombstoned_refl].
Qed.

Lemma blocking_upheld : upheld blocking.
Proof.
  split; cbn.
  - apply only_deleted_refl.
  - apply only_deleted_trans.
  - apply blocked_weaken.
  - intros ids w Hw. apply Hw.
  - intros a id Hid. apply Hid.
  - intros. by apply safe_resolve.
  - intros. by apply safe_refuse.
  - intros id op ids w Hw. rewrite refuseIfSecret_reads. split; [|done]. split; [done|apply only_deleted_refl].
  - intros. apply safe_Submit; [|by right]. by destruct H2.
  - intros. apply safe_Submit; [done|by left].
  - intros t t' id obID now a src srcID dst k ids [Hs _] Hd _. by apply safe_Forward.
  - intros. by apply safe_MarkRead.
  - intros. by apply calm_quiet.
  - intros. by apply blocked_hushed.
  - intros id a act ids w Hw. split; [|done]. apply blocked_framed; [done|apply Hw|done|apply Hw|done|apply tombstoned_refl].
  - apply blocked_people.
  - intros d id m a Hd [Hb _] id' m'. rewrite lookup_insert_Some. intros [[_ <-]|[_ Hm]]; [done|by eapply Hd].
  - intros d id Hd id' m' [_ Hm]%lookup_delete_Some. by eapply Hd.
Qed.

(** *** Firing *)

Lemma safe_Blocked ids gt id a : bsafe ids ids (Blocked gt id a) (λ b, b = false → a = u ∨ a = v → id ≠ c).
Proof.
  intros w Hw. unfold Blocked. rewrite M_bind_eq.
  destruct (directPeer_still (gt id a) a id w (or_good _ _ (bc_base _ _ Hw))) as (w' & r & Hr & Hst). rewrite Hr.
  assert (∀ b, id = c → a = u ∨ a = v → r = Ok b → b.2 = true ∧ on_people (BlocksBetween a b.1) w' = (w', Ok true)) as Hc.
  { intros b -> Ha ->. destruct (blocked_peer (gt c a) a ids w Hw Ha) as (w1 & peer & Hp & _ & Hb).
    rewrite Hr in Hp. injection Hp as -> ->. done. }
  destruct r as [b|e]; [|split; [by apply blocked_still|done]]. destruct (negb b.2) eqn:Eb.
  - split; [by apply blocked_still|]. intros ? _ _ Ha ->. destruct (Hc b eq_refl Ha eq_refl) as [Ht _]. by rewrite Ht in Eb.
  - pose proof (Blocks_read a b.1 w') as Hbr. split; [rewrite Hbr; by apply blocked_still|]. intros x Hx -> Ha ->.
    destruct (Hc b eq_refl Ha eq_refl) as [_ Ht]. by rewrite Ht in Hx.
Qed.

Lemma safe_fire ids gt f m : no_bar (Sched_ChatID m) = true → bsafe ids ids (fire trace (Some (Blocked gt)) f m) (λ _, True).
Proof.
  intros Hbar. unfold fire. eapply (safe_bind _ blocking_upheld); [done|apply safe_attempt, safe_MayPost, Hbar|].
  intros ok _. case_bool_decide as Hok; cbn [negb]; [|by apply safe_ret; [apply blocking_upheld|]].
  eapply (safe_bind _ blocking_upheld _ ids _ _ _ (λ b, b = false → Sched_SenderID m = u ∨ Sched_SenderID m = v → Sched_ChatID m ≠ c)); [done| |].
  - eapply (safe_bind _ blocking_upheld); [done|apply safe_attempt, safe_Blocked|]. intros r Hr.
    apply safe_ret; [apply blocking_upheld|]. intros Hb Hs. apply negb_false_iff, bool_decide_eq_true in Hb. by apply (Hr _ Hb).
  - intros [] Hb; [by apply safe_ret; [apply blocking_upheld|]|].
    eapply (safe_bind _ blocking_upheld); [done|apply safe_attempt, (safe_Send ids _ _ _ _ (due_input m))|].
    { split; [done|]. by apply Hb. }
    intros r _. by apply safe_ret; [apply blocking_upheld|].
Qed.
Lemma safe_fire_all ids gt fs due :
  Forall (λ m, no_bar (Sched_ChatID m) = true) due → bsafe ids ids (fire_all trace (Some (Blocked gt)) fs due) (λ _, True).
Proof.
  induction 1 as [|m due Hm _ IH]; [by apply safe_ret; [apply blocking_upheld|]|]. cbn [fire_all].
  eapply (safe_bind _ blocking_upheld); [done|by apply safe_fire|]. done.
Qed.


(** The chat is blocked; anything may be pending. *)
Definition silenced g : Prop := holds blocking [] g.

(** The occurrence is [v] unblocking [u]. *)
Definition lifts (o : occurrence) g : bool :=
  match o with
  | ORequest a _ i (QBlock (Some (target, false))) => unblocks v u (OSetBlocked a target false (i_now i)) (be_people (rest g))
  | _ => false
  end.
(** Requests come from authenticated users, with fresh ids. *)
Definition admissible (o : occurrence) g : Prop :=
  match o with
  | ORequest a _ i _ => a ≠ "" ∧ fresh_ids [l_id (i_look i); l_id (i_look' i)] (mdb (rest g))
  | ODispatch _ _ _ => True
  end.

Lemma blocked_request a caps i q g :
  silenced g → admissible (ORequest a caps i q) g → lifts (ORequest a caps i q) g = false →
  gcalm blocking g (dispatch media trace i caps a q g).1.
Proof.
  intros Hg [Ha Hf] Hl. apply gcalm_request; [apply blocking_upheld|done|]. split_and!; [done| |].
  - destruct Hg as [[[] ? ? ? ? ?] _]. by split.
  - destruct q as [| | |b|b|b|b|b|b|b|b|b|b|b|[[t n]|]|[t|]|b|[[t []]|]|[b|]|b|b|]; try done.
    intros ids w Hw. destruct (safe_resolve (i_look i) a (PollC_ChatID b) ids Ha w Hw) as [? Hid].
    split; [done|]. intros id Hr. split; [by apply Hid|done].
Qed.

Lemma gcalm_due gt fs now g : silenced g → gcalm blocking g (dispatchDue trace (Some (Blocked gt)) fs now g).1.
Proof.
  intros Hg. unfold dispatchDue. rewrite M_bind_eq. unfold on_pending.
  destruct (Claim_run now 100 (scheduled g) ltac:(lia)) as (out & -> & Hout).
  set (taken := ztake 100 (due_rows now (scheduled g))) in *. set (d := mark_rows taken (scheduled g)).
  assert (silenced (mkSchedState d (rest g))) as Hg1.
  { split; [apply Hg|]. intros id m Hm. cbn in Hm. destruct (claimed_lookup now 100 (scheduled g) id) as [(m0 & _ & Hm0 & _ & Hm1)|[_ Hm1]];
      fold taken d in Hm1; rewrite Hm in Hm1; [injection Hm1 as ->; exact (proj2 Hg id m0 Hm0)|exact (proj2 Hg id m (eq_sym Hm1))]. }
  apply (gcalm_trans _ blocking_upheld g (mkSchedState d (rest g))); [split; [done|apply only_deleted_refl]|].
  eapply (gcalm_world _ []); [exact Hg1|]. apply safe_fire_all. rewrite Hout. apply Forall_fmap, Forall_forall. intros [id m] Hin. cbn.
  apply elem_of_ztake in Hin. apply list_elem_of_filter in Hin as [_ Hin%elem_of_range_map]. by apply Hg in Hin.
Qed.

(** What can have happened after [g], the block still standing. *)
Inductive follows g : SchedState (Backend B) → Prop :=
  | follows_refl : follows g g
  | follows_step g' o : follows g g' → admissible o g' → lifts o g' = false → follows g (happen media trace o g').

Lemma follows_calm g g' : silenced g → follows g g' → gcalm blocking g g'.
Proof.
  intros Hg. induction 1 as [|g' o _ IH Ha Hl]; [by apply gcalm_refl; [apply blocking_upheld|]|]. eapply gcalm_trans; [apply blocking_upheld|exact IH|].
  destruct IH as [Hg' _]. destruct o as [a caps i q|gt fs now]; [by apply blocked_request|by apply gcalm_due].
Qed.

(** C3: A block silences a conversation.  Take the 1:1 chat [c] of [u] and [v], direct or
    secret, where [v] has blocked [u].  Whatever any users then send, edit, delete, forward,
    poll, schedule, read or change in their contacts at any gateway, and whenever the
    scheduler dispatches what was scheduled before, as long as [v] does not unblock [u]: no
    message enters the chat and none is rewritten — the log afterwards is the log before,
    with some messages deleted — and a send by either of them, addressed by the chat's id, is
    answered with a refusal.  (Nobody joins [c] in the meantime: the requests that change
    members are not among these.) *)
Theorem blocked_pair_silent g g' :
  silenced g → follows g g' →
  tombstoned (messages_of c (mdb (rest g))) (messages_of c (mdb (rest g'))) ∧
  ∀ i a b, a = u ∨ a = v → SendB_ChatID b = c → validID c = true → HasPrefix c "@" = false →
    (handleSend media trace i a (Some b) (rest g')).2 = Ok (replyError ErrForbidden "blocked").
Proof.
  intros Hg Hf. destruct (follows_calm g g' Hg Hf) as [[Hb _] Hd]. split; [exact Hd|].
  intros i a b Ha Hc Hv Hp. cbn [handleSend]. unfold or_reply. rewrite M_bind_eq. unfold attempt, resolveChat.
  rewrite Hc, Hp, Hv. cbn [negb]. rewrite (bind_Ok _ _ _ (rest g') tt), M_bind_eq by done.
  pose proof (blocked_gate (l_ticks (i_look i)) a _ _ Hb Ha) as Hg'. destruct (refuseIfBlocked _ _ _ _) as [w' r].
  cbn [snd] in Hg'. by subst.
Qed.
End pair.

(** ** A secret chat *)

Section secret.
Variable c : string.
Hypothesis c_named : c ≠ "".

(** Secret chats are indexed apart, as [pairKey] does it; no user is called so. *)
Definition is_secret_key (k : string) : bool := String.prefix "secret:" k.
Lemma prefix_before_bar p x y : no_bar p = true → String.prefix p (x +:+ "|" +:+ y) = true → String.prefix p x = true.
Proof.
  revert x. induction p as [|a p IH]; intros x; [by destruct x|]. cbn [no_bar]. intros [Ha Hp]%andb_prop.
  destruct x as [|b x]; intros Hx.
  - apply (prefix_cons a "|" p y) in Hx as [-> _]. by rewrite bool_decide_true in Ha.
  - apply (prefix_cons a b p (x +:+ "|" +:+ y)) in Hx as [-> Hx]. cbn. destruct (ascii_dec b b); [|done]. by apply IH.
Qed.
Lemma direct_key_plain a x : is_secret_key a = false → is_secret_key x = false → is_secret_key (directKey a x) = false.
Proof.
  intros Ha Hx. unfold is_secret_key in *. apply not_true_is_false. unfold directKey.
  destruct (str_lt x a); intros Hk%prefix_before_bar; [congruence|done|congruence|done].
Qed.

Record secret_chat (ids : list string) w : Prop := {
  sc_base : ordinary ids w;
  sc_chat : ∃ ch, chats (mdb w) !! c = Some ch ∧ Chat_Type ch = ChatSecret;
  sc_index k : directIndex (mdb w) !! k = Some c → is_secret_key k = true;
  sc_users x : named x w → is_secret_key x = false;
  sc_empty : messages_of c (mdb w) = [];
}.
(** Nothing of the chat is ever in the log. *)
Definition secrecy : Policy :=
  mkPolicy secret_chat (λ _ _, True) (λ _ id, no_bar id = true) (λ _ id, id ≠ c) (λ _, True) (λ _ _, True).

Lemma secret_framed ids w w' :
  secret_chat ids w → reachable (be_local w').1 → be_people w' = be_people w → polls_ok w' → framed (mdb w) (mdb w') →
  messages_of c (mdb w') = [] → calm secrecy ids w w'.
Proof.
  intros [Ho (ch & Hc & Hty) Hx Hn _] Hg Hp Hpo Hf He. split; [|done].
  split; [by eapply ordinary_framed| |by destruct Hf as (_ & -> & _)|unfold named; by rewrite Hp|done]. destruct Hf as ((Hkind & _) & _). specialize (Hkind c). rewrite Hc in Hkind.
  destruct (chats (mdb w') !! c) as [ch'|]; [|done]. injection Hkind as Hk. exists ch'. by rewrite Hk.
Qed.
Lemma secret_still ids w w' : secret_chat ids w → still w w' → calm secrecy ids w w'.
Proof.
  intros Hw (Hp & Hsd & _ & Hd & Hg). apply secret_framed; [done..|by eapply side_polls, Hw| |]; rewrite Hd; [done|apply Hw].
Qed.
Lemma secret_op {A} ids (m : M (Backend B) A) :
  (∀ w, secret_chat ids w → keeps (H0 := backend_laws (be_people w) (be_side w)) w (m w).1 ∧ messages_of c (mdb (m w).1) = []) →
  safe secrecy ids ids m (λ _, True).
Proof.
  intros Hm w Hw. destruct (Hm w Hw) as [[(? & ? & ?) ?] ?]. split; [|done]. apply secret_framed; [done..|by eapply side_polls, Hw|done|done].
Qed.
Lemma secret_good ids w : secret_chat ids w → good (MessageLaws := backend_laws (be_people w) (be_side w)) w.
Proof. intros [[] _ _ _ _]. done. Qed.

(** A target that is not the chat's own id is another chat. *)
Lemma secret_resolve l a target ids :
  a ≠ "" →
  safe secrecy (l_id l :: ids) ids (resolveChat l a target) (λ id, no_bar id = true ∧ (is_secret_key a = false → target ≠ c → id ≠ c)).
Proof.
  intros Ha w Hw. pose proof (sc_base _ _ Hw) as Ho. destruct (ordinary_id _ _ _ Ho) as [Hn Hbar].
  destruct (resolve_cases l a target w (or_good _ _ Ho) (or_tidy _ _ Ho) Hn (or_users _ _ Ho) Ha) as (w' & r & -> & Hcase).
  destruct Hw as [_ (ch & Hc & Hty) Hx Hu He]. cbn [fst snd]. destruct Hcase as [[Hst Hid]|[-> (x & _ & Hop)]].
  - split.
    + apply secret_still; [|done]. split; [by eapply ordinary_drop|by exists ch|done..].
    + intros id Hr. destruct (Hid id Hr) as [? [[-> _]|(y & Hy & _ & Hny)]]; [done|]. split; [done|]. intros Hk _ ->. apply Hx in Hy.
      rewrite direct_key_plain in Hy; [done|done|by apply Hu].
  - assert (l_id l ≠ c) as Hne by (intros Heq; rewrite Heq in Hn; congruence).
    split; [|by intros id [= <-]]. split; [|done]. pose proof (ordinary_opened _ _ _ _ _ _ Ho Hop).
    destruct Hop as (Hp & _ & _ & (ch' & _ & Hc') & Hi & _ & Hm). split; [done| | | |].
    + exists ch. by rewrite Hc', lookup_insert_ne.
    + intros k. rewrite Hi, lookup_insert_Some. intros [[_ ?]|[_ ?]]; [done|by eapply Hx].
    + unfold named. by rewrite Hp.
    + unfold messages_of. by rewrite Hm.
Qed.
Lemma secret_refused id op ids : safe secrecy ids ids (refuseIfSecret id op) (λ r, r = None → id ≠ c).
Proof.
  intros w Hw. split; [rewrite refuseIfSecret_reads; done|]. intros r Hr -> ->. revert Hr. unfold refuseIfSecret.
  rewrite bool_decide_false by done. rewrite M_bind_eq. unfold attempt, on_chats, on_local, on_chat, Get.
  destruct (sc_chat _ _ Hw) as (ch & Hc & Hty). rewrite store_eq, GetChat_eq. cbn in *. rewrite Hc. cbn. rewrite Hty.
  unfold secretRefusal. cbn. repeat case_bool_decide; done.
Qed.
Lemma secret_Submit ids t id obID now cmd :
  no_bar (Cmd_ChatID cmd) = true → (Cmd_Op cmd = OpCreate → Cmd_ChatID cmd ≠ c) →
  safe secrecy ids ids (Submit trace t id obID now cmd) (λ _, True).
Proof.
  intros Hb Hop. apply secret_op. intros w Hw. pose proof (secret_good _ _ Hw) as Hg.
  split; [by apply (Submit_keeps (H0 := backend_laws (be_people w) (be_side w)))|].
  pose proof (Submit_changes (H0 := backend_laws (be_people w) (be_side w)) trace t id obID now cmd w c Hg Hb) as Hch.
  cbv zeta in Hch. rewrite (sc_empty _ _ Hw) in Hch.
  destruct (messages_of c (mdb (Submit trace t id obID now cmd w).1)) as [|m l]; [done|].
  destruct (Hch ltac:(done)) as (Hc & _ & [(Ho & _)|(m' & Hm & _)]); [by destruct (Hop Ho)|done].
Qed.

Lemma secret_Forward ids t t' id obID now a src srcID dst k :
  no_bar src = true → no_bar dst = true → dst ≠ c →
  safe secrecy ids ids (Forward trace t t' id obID now a src srcID dst k) (λ _, True).
Proof.
  intros Hs Hd Hne. apply secret_op. intros w Hw.
  destruct (Forward_changes (H0 := backend_laws (be_people w) (be_side w)) trace t t' id obID now a src srcID dst k w c
    (secret_good _ _ Hw) Hs Hd) as [Hk Hch]. split; [done|]. rewrite (sc_empty _ _ Hw) in Hch.
  destruct (messages_of c _) as [|m l]; [done|]. by destruct (Hch ltac:(done)) as [? _].
Qed.
Lemma secret_MarkRead ids t now a id n : no_bar id = true → safe secrecy ids ids (MarkRead trace t now a id n) (λ _, True).
Proof.
  intros Hb. apply secret_op. intros w Hw.
  destruct (MarkRead_changes (H0 := backend_laws (be_people w) (be_side w)) trace t now a id n w (secret_good _ _ Hw) Hb) as [Hk Hm].
  split; [done|]. unfold messages_of. rewrite Hm. apply Hw.
Qed.

Lemma secrecy_upheld : upheld secrecy.
Proof.
  split; cbn; try done.
  - intros ids w []. split; [by eapply ordinary_weaken|done..].
  - intros ids w Hw. apply Hw.
  - intros l a target ids Ha w Hw. destruct (secret_resolve l a target ids Ha w Hw) as [? Hid]. split; [done|].
    intros id Hr. by apply Hid.
  - intros t a id ids Hv w Hw. destruct (refuse_still t a id w (or_good _ _ (sc_base _ _ Hw))) as (w' & r & -> & Hst).
    split; [by apply secret_still|]. intros [] _. by apply validID_no_bar.
  - apply secret_refused.
  - intros. by apply secret_Submit.
  - intros t id obID now cmd ids Hb Hop. apply secret_Submit; [done|]. by rewrite Hop.
  - intros. by apply secret_Forward.
  - intros. by apply secret_MarkRead.
  - intros w w' ids Hw ((? & ? & ?) & Hd & _). apply secret_framed; [done..|by eapply side_polls, Hw| |]; rewrite Hd; [done|apply Hw].
  - intros w w' ids Hw (Hp & _ & Hd & Hs). destruct (sc_base _ _ Hw) as [Hg _ _ _ Hpo]. destruct (Hs (conj Hg Hpo)) as [? ?].
    apply secret_framed; [done..| |]; rewrite Hd; [done|apply Hw].
  - intros id a act ids w Hw. split; [|done]. apply secret_framed; [done|apply Hw|done|apply Hw|done|apply Hw].
  - intros o w [[? ? ? Hu ?] Hc Hx Hn He] Ho _. split; [|done].
    split; [|done|done|unfold named; cbn; rewrite exec_accounts by done; exact Hn|done]. split; [done..| |done]. intros k x. cbn.
    rewrite exec_accounts by done. apply Hu.
Qed.

(** Creating a poll in [c]. *)
Definition polls_here (q : Request) : bool :=
  match q with QPollCreate (Some b) => bool_decide (PollC_ChatID b = c) | _ => false end.
(** Requests only, of anybody, in any order, but no poll in [c]. *)
Inductive requested g : SchedState (Backend B) → Prop :=
  | requested_refl : requested g g
  | requested_step g' a caps i q :
      requested g g' → admissible (ORequest a caps i q) g' → is_secret_key a = false → polls_here q = false →
      requested g (happen media trace (ORequest a caps i q) g').

(** C19: Of the requests, only a poll writes a secret chat into the message log.  From a state where the log
    holds nothing of the secret chat [c], whatever anybody sends, edits, deletes, forwards,
    reads, schedules or polls, into or out of any chat and however they address it, unless a
    poll is created in [c] itself, the log of [c] is still empty. *)
Theorem secret_log_empty g g' : secret_chat [] (rest g) → requested g g' → messages_of c (mdb (rest g')) = [].
Proof.
  intros Hg Hr. assert (holds secrecy [] g') as [Hs _]; [|apply Hs].
  induction Hr as [|g' a caps i q _ IH [Ha Hf] Hk Hq]; [done|].
  apply (gcalm_request secrecy secrecy_upheld a caps i q g' IH). split_and!; [done| |].
  - destruct IH as [[[] ? ? ? ?] _]. by split.
  - destruct q as [| | |b|b|b|b|b|b|b|b|b|b|b|[[t n]|]|[t|]|b|[[t []]|]|[b|]|b|b|]; try done.
    apply bool_decide_eq_false in Hq. intros ids w Hw. destruct (secret_resolve (i_look i) a (PollC_ChatID b) ids Ha w Hw) as [? Hid].
    split; [done|]. intros id Hr. destruct (Hid id Hr) as [? Hne]. split; [done|by apply Hne].
Qed.
End secret.

(** ** Enumeration *)

(** Without lookup budget, a handle reveals nothing.  Addressing a chat as [@name] when the
    budget is spent is answered alike, and changes nothing, whether nobody has that name or
    somebody does with whom the caller has no chat and no block. *)
Theorem lookup_budget_silent l a target w :
  HasPrefix target "@" = true → l_lookup l = false →
  match (GetUserByUsername (bstring (ToLower (TrimPrefix (byteZ 64) (sbytes target)))) (accounts (be_people w))).2 with
  | Ok x => directIndex (mdb w) !! directKey a (User_ID x) = None ∧ unblocked a (User_ID x) w
  | Err e => e = store_ErrNotFound
  end →
  resolveChat l a target w = (w, Err gateway_errLookupThrottled).
Proof.
  intros Hp Hl. unfold resolveChat. rewrite Hp, Hl. cbn [negb]. set (uname := bstring _).
  rewrite M_bind_eq. unfold attempt. rewrite lookup_read.
  destruct (GetUserByUsername uname _).2 as [x|e]; [|by intros ->]. intros [Hi [Hu1 Hu2]].
  rewrite (bind_Ok _ _ _ _ _ (Blocks_read a (User_ID x) w)), Hu1, Hu2. cbn [orb negb].
  rewrite (bind_Ok _ _ _ w tt) by done. rewrite M_bind_eq. unfold attempt. rewrite FindDirect_read. unfold GetDirect.
  rewrite M_bind_eq. cbn [get]. by rewrite Hi.
Qed.
End backend.

(** ** Witnesses *)

Section witnesses.
#[local] Existing Instance canonical_order.
#[local] Existing Instance ascii_tables.
#[local] Existing Instance list_bus.

Abbreviation WBack := (Backend (list (Event EventBody))).
Abbreviation WGate := (SchedState WBack).

Definition w_no_polls : Ballots := mkBallots (mkPollTables ∅ ∅ ∅) [].

(** A 1:1 chat of two people, with one message in it. *)
Definition w_pair : Service := (EnsureDirect "u1" "u2" "77" 0 (New 0 MemChats.New)).1.
Definition w_hello : ChatDB :=
  (InsertMessage (send_row "501" 10 (mkSend "u2" "77" "k" "hello" "" "" None None 0)) "k" (λ _, None) (cdb w_pair)).1.
Definition w_talk : Service := set_cdb w_hello w_pair.
Lemma w_talk_reachable : reachable w_talk.
Proof.
  destruct (insert_frame (send_row "501" 10 (mkSend "u2" "77" "k" "hello" "" "" None None 0)) "k" (λ _, None) (cdb w_pair))
    as [Ht Hm]. apply r_store; [by apply r_direct; [apply r_new|..]| |exact Hm].
  intros cid ch Hch. specialize (Ht cid). rewrite Hch in Ht. fold w_hello in Ht.
  destruct (chats w_hello !! cid) as [ch'|]; [|done]. injection Ht as Ht. eauto.
Qed.

(** The first has blocked the second, who has a message scheduled. *)
Definition w_row : ScheduledMessage := mkScheduled "s1" "77" "u2" "later" "" None "" 0 2000 20 false.
Definition w_gate : WGate := mkSchedState {["s1" := w_row]} (mkBackend _ w_blocked (w_talk, []) (Presence.mkWorld ∅ []) w_no_polls).

Lemma w_key x y : x +:+ "|" +:+ y = "u1|u2" → x = "u1" ∧ y = "u2".
Proof.
  intros Hk. destruct x as [|a x]; [discriminate Hk|]. injection Hk as -> Hk.
  destruct x as [|a x]; [discriminate Hk|]. injection Hk as -> Hk.
  destruct x as [|a x]; [injection Hk as Hk; split; [done|exact Hk]|]. injection Hk as -> Hk.
  do 2 (destruct x as [|a x]; [discriminate Hk|]; injection Hk as -> Hk). by destruct x.
Qed.

Lemma w_gate_silenced : silenced "77" "u2" "u1" w_gate.
Proof.
  split; [split; [split|..]|].
  - exact w_talk_reachable.
  - apply (bool_decide_unpack (map_Forall (λ cid ch, Chat_ID ch = cid ∧ no_bar cid = true) (chats w_hello))). by vm_compute.
  - split; constructor.
  - apply (bool_decide_unpack (map_Forall (λ _ x, User_ID x ≠ "") (users (accounts w_blocked)))). by vm_compute.
  - by intros id p.
  - exists (mkChat "77" ChatDirect "" "u1" 0 1 ""). by vm_compute.
  - intros x. replace (members_of "77" (mdb (rest w_gate))) with
      (<["u2" := mkMember "77" "u2" RoleMember 0 false no_flags]> {["u1" := mkMember "77" "u1" RoleOwner 0 false no_flags]} : gmap string ChatMember)
      by by vm_compute.
    rewrite lookup_insert_is_Some', lookup_singleton_is_Some. split; intros [<-|<-]; auto.
  - intros a b. replace (directIndex (mdb (rest w_gate))) with ({["u1|u2" := "77"]} : gmap string string) by by vm_compute.
    rewrite lookup_singleton_Some. intros [Hk _]. unfold directKey in Hk. destruct (str_lt b a); symmetry in Hk; apply w_key in Hk as [-> ->]; auto.
  - intros m. replace (messages_of "77" (mdb (rest w_gate))) with (messages_of "77" w_hello) by done.
    assert (Forall (λ m, Message_SenderID m = "u2") (messages_of "77" w_hello)) as Hf by (by repeat constructor).
    rewrite Forall_forall in Hf. auto.
  - by vm_compute.
  - intros id m Hm. cbn in Hm. by apply lookup_singleton_Some in Hm as [_ <-].
Qed.

Definition w_look (id : string) : Look := mkLook (w_ticks 1) id 30 true true.
Definition w_in (now : Z) : Inputs :=
  mkInputs (w_look "901") (w_look "902") (w_ticks 2, w_ticks 2) (w_ticks 2, w_ticks 2) "601" "o1" now true true true true
    (mkPollInputs 5 "sess" "701" now (w_ticks 2, w_ticks 2) (w_ticks 2, w_ticks 2)).
Definition w_send (chat text : string) : SendBody := mkSendBody chat "k2" text "" "" 0 None.
Definition w_fires : string → Firing (Ticks * Ticks) := λ id, mkFiring (w_ticks 3, w_ticks 3) (w_ticks 3, w_ticks 3) ("m" +:+ id) "o2" 3000.
Definition w_gt : string → string → Ticks := λ _ _, w_ticks 3.

(** The blocked one writes, by id and by name; the schedule fires; the other deletes. *)
Definition w_later : WGate :=
  happen_all None ∅ [ORequest "u2" 0 (w_in 40) (QSend (Some (w_send "77" "again"))); ORequest "u2" 0 (w_in 41) (QSend (Some (w_send "@alice" "again")));
    ODispatch w_gt w_fires 3000; ORequest "u1" 0 (w_in 50) (QDelete (Some (mkDeleteBody "77" "501" true)))] w_gate.

Lemma w_ids_fresh (g : WGate) :
  chats (mdb (rest g)) !! "901" = None → chats (mdb (rest g)) !! "902" = None → fresh_ids ["901"; "902"] (mdb (rest g)).
Proof. intros. split; [apply (bool_decide_unpack _); by vm_compute|]. by repeat constructor. Qed.

Lemma blocked_pair_silent_witness :
  Message_Text <$> messages_of "77" (mdb (rest w_gate)) = ["hello"] ∧
  Message_Text <$> messages_of "77" (mdb (rest w_later)) = [""] ∧
  tombstoned (messages_of "77" (mdb (rest w_gate))) (messages_of "77" (mdb (rest w_later))) ∧
  (handleSend None ∅ (w_in 60) "u2" (Some (w_send "77" "hey")) (rest w_later)).2 = Ok (replyError ErrForbidden "blocked").
Proof.
  split; [by vm_compute|]. split; [by vm_compute|].
  destruct (blocked_pair_silent None ∅ "77" "u2" "u1" ltac:(done) w_gate w_later w_gate_silenced) as [Ht Hs].
  { unfold w_later, happen_all. cbn [foldl].
    repeat (apply follows_step; [|first [exact I | split; [done|apply w_ids_fresh; by vm_compute]]|by vm_compute]). apply follows_refl. }
  split; [exact Ht|]. apply Hs; [by left|done|done|done].
Defined.

(** A secret chat. *)
Definition w_secret_svc : Service := (EnsureSecret "u1" "u2" "88" 0 (New 0 MemChats.New)).1.
Definition w_vault : WGate := mkSchedState ∅ (mkBackend _ w_book (w_secret_svc, []) (Presence.mkWorld ∅ []) w_no_polls).
Lemma w_vault_secret : secret_chat "88" [] (rest w_vault).
Proof.
  split; [split| | | |].
  - by apply r_secret; [apply r_new|..].
  - apply (bool_decide_unpack (map_Forall (λ cid ch, Chat_ID ch = cid ∧ no_bar cid = true) (chats (cdb w_secret_svc)))). by vm_compute.
  - split; constructor.
  - apply (bool_decide_unpack (map_Forall (λ _ x, User_ID x ≠ "") (users (accounts w_book)))). by vm_compute.
  - by intros id p.
  - exists (mkChat "88" ChatSecret "" "u1" 0 0 ""). by vm_compute.
  - intros k. replace (directIndex (mdb (rest w_vault))) with ({["secret:u1|u2" := "88"]} : gmap string string) by by vm_compute.
    by intros [<- _]%lookup_singleton_Some.
  - intros x (k & y & Hy & <-). revert k y Hy.
    apply (bool_decide_unpack (map_Forall (λ _ x, is_secret_key (User_ID x) = false) (users (accounts w_book)))). by vm_compute.
  - by vm_compute.
Qed.
Definition w_plan (text : string) : Request := QSchedule (Some (mkScheduleBody "88" text "" None "" 0 2000)).
Definition w_ballot (chat q : string) (options : list string) : Request := QPollCreate (Some (mkPollCreate chat q options false false)).
Definition w_vault_later : WGate :=
  happen_all None ∅ [ORequest "u1" 0 (w_in 40) (QSend (Some (w_send "88" "plain"))); ORequest "u1" 0 (w_in 41) (w_plan "plain");
    ORequest "u1" 0 (w_in 42) (w_ballot "@bob" "tea?" ["yes"; "no"])] w_vault.

Lemma secret_log_empty_witness :
  (handleSend None ∅ (w_in 40) "u1" (Some (w_send "88" "plain")) (rest w_vault)).2 =
    Ok (replyError ErrForbidden (secretRefusal "send" ChatSecret)) ∧
  messages_of "88" (mdb (rest w_vault_later)) = [].
Proof.
  split; [by vm_compute|]. apply (secret_log_empty None ∅ "88" ltac:(done) w_vault w_vault_later w_vault_secret).
  unfold w_vault_later, happen_all. cbn [foldl].
  repeat (apply requested_step; [|split; [done|apply w_ids_fresh; by vm_compute]|done|done]). apply requested_refl.
Defined.


Lemma lookup_budget_silent_witness :
  resolveChat (mkLook (w_ticks 1) "901" 30 false true) "u1" "@Bob" (rest w_vault) = (rest w_vault, Err gateway_errLookupThrottled) ∧
  resolveChat (mkLook (w_ticks 1) "901" 30 false true) "u1" "@nobody" (rest w_vault) = (rest w_vault, Err gateway_errLookupThrottled).
Proof.
  split; apply lookup_budget_silent; [done|done| |done|done|]; by vm_compute.
Defined.
End witnesses.
