(* ===== verification/SecretRelay.v ===== *)
(** * The secret relay

    [internal/gateway] handlers_e2e.go and secretqueue.go: the handlers of the prekey
    directory and of the ciphertext relay with its queue.  The directory, the queue, the
    contacts and the node registry are the in-process ones of the other files; a request body
    arrives decoded, [None] standing for one that does not decode; fresh ids, clock readings
    (nanoseconds for the directory, milliseconds for the queue) and the outcome of the rate
    limiter are arguments; a handler's result is the frames it queues for its own
    connection.  [ed25519.Verify] is an argument. *)

From S2P Require Import Prelude Bytes Base64 Strconv EventBus Router Hub NodeCodec Fanout SecretPayload Delivery MemAccounts Contact KeyDir SecretQueue Gateway.

(** What the gateway publishes here: a delivery for a node, or a wake-up for a user. *)
Inductive RelayData := RFan (d : FanoutData) | RWake (userID : string).

Record Relay {B : Type} := mkRelay {
  rl_people : ContactState;
  rl_registry : memoryRouter;
  rl_queue : SecretQ;
  rl_dir : memoryDir;
  rl_bus : B;
}.
#[global] Arguments Relay : clear implicits.
#[global] Arguments mkRelay {B}.

(** The services a deployment may leave out. *)
Record Services := mkServices { has_KeyDir : bool; has_Contacts : bool; has_SecretQ : bool; has_Bus : bool }.
(** The connection a request comes from. *)
Record Caller := mkCaller { c_user : string; c_device : string; c_caps : Z }.

Inductive SReply :=
  | SPlain (r : Reply)
  | SKeyState (left ageMs accepted : Z)
  | SKeyBundle (b : KeyBundleBody)
  | SKeyBundles (userID : string) (bs : list KeyBundleBody)
  | SSecretAck (toUserID toDeviceID : string) (devices : Z) (queued : bool)
  | SSecretRecv (b : SecretMsgBody)
  | SSecretSynced (count : Z) (nextAfter : string) (done : bool).
Definition plain (rs : list Reply) : list SReply := SPlain <$> rs.

Definition ErrUnsupported : Z := 1002.
Definition x25519KeyLen : Z := 32.
Definition PublicKeySize : Z := 32.
Definition SignatureSize : Z := 64.
Definition keyFetchRetryAfterMs : Z := 2000.
Definition maxSecretSyncPage : Z := 100.

(** ** Prekey bundles *)

(** [inl] is the error's text. *)
Definition decodeKey (field value : string) (want : Z) : string + bytes :=
  match b64_DecodeString (sbytes value) with
  | None => inl (field +:+ " is not valid base64")
  | Some b =>
      if len b =? want then inr b
      else inl (field +:+ " must be " +:+ bstring (FormatInt want) +:+ " bytes, got " +:+ bstring (FormatInt (len b)))
  end.

Fixpoint decode_prekeys (i : Z) (pks : list string) : option string :=
  match pks with
  | [] => None
  | pk :: pks =>
      match decodeKey ("prekeys[" +:+ bstring (FormatInt i) +:+ "]") pk x25519KeyLen with
      | inl err => Some err
      | inr _ => decode_prekeys (i + 1) pks
      end
  end.

Section verify.
(** [ed25519.Verify] on a public key and a signature of the right sizes. *)
Variable ed25519_Verify : bytes → bytes → bytes → bool.

Definition VerifyPreKey (signingPub signedPreKeyPub sig : bytes) : bool :=
  if negb (len signingPub =? PublicKeySize) || negb (len sig =? SignatureSize) then false
  else ed25519_Verify signingPub signedPreKeyPub sig.

(** [None] is a bundle that passes. *)
Definition validateKeyBundle (b : KeyPublishBody) : option string :=
  match decodeKey "identity_key" (KP_IdentityKey b) x25519KeyLen with inl err => Some err | inr _ =>
  match decodeKey "signing_key" (KP_SigningKey b) PublicKeySize with inl err => Some err | inr signingKey =>
  match decodeKey "signed_prekey" (KP_SignedPreKey b) x25519KeyLen with inl err => Some err | inr signedPreKey =>
  match decodeKey "signed_prekey_sig" (KP_SignedPreKeySig b) SignatureSize with inl err => Some err | inr sig =>
  if negb (VerifyPreKey signingKey signedPreKey sig) then Some "signed_prekey_sig does not verify against signing_key"
  else decode_prekeys 0 (KP_PreKeys b)
  end end end end.

(** The age of the signed prekey, in milliseconds, from times in nanoseconds. *)
Definition keyStateBody (now : Z) (st : DirState) : SReply :=
  let ageMs := match SignedPreKeyFirstSeen st with
               | None => 0
               | Some t => if 0 <? now - t then (now - t) `quot` 10 ^ 6 else 0
               end in
  SKeyState (OneTimePreKeysLeft st) ageMs (Accepted st).

Section handlers.
Context {B : Type} `{Bus RelayData B} `{RangeOrder}.
Variable sv : Services.
(** The wire codec on the relayed body. *)
Variable Marshal_secret : SecretMsgBody → bytes.

Definition on_rpeople {A} (m : M ContactState A) : M (Relay B) A := λ w,
  let '(p, r) := m (rl_people w) in (mkRelay p (rl_registry w) (rl_queue w) (rl_dir w) (rl_bus w), r).
Definition on_queue {A} (m : M SecretQ A) : M (Relay B) A := λ w,
  let '(q, r) := m (rl_queue w) in (mkRelay (rl_people w) (rl_registry w) q (rl_dir w) (rl_bus w), r).
Definition on_bus {A} (m : M B A) : M (Relay B) A := λ w,
  let '(b, r) := m (rl_bus w) in (mkRelay (rl_people w) (rl_registry w) (rl_queue w) (rl_dir w) b, r).
(** A directory call does not fail. *)
Definition on_dir {A} (m : memoryDir → memoryDir * A) : M (Relay B) A := λ w,
  let '(d, a) := m (rl_dir w) in (mkRelay (rl_people w) (rl_registry w) (rl_queue w) d (rl_bus w), Ok a).

#[local] Instance relay_bus : Bus FanoutData (Relay B) := λ e,
  on_bus (EventBus.Publish (mkEvent (Event_Subject e) (Event_Key e) (RFan (Event_Data e)) (Event_Headers e))).
#[local] Instance relay_routes : Routes (Relay B) := {|
  rt_NodesFor u := gets (λ w, NodesFor (rl_registry w) u);
  rt_NodesForMany us := gets (λ w, NodesForMany (rl_registry w) us);
|}.

Definition handleKeyPublish (c : Caller) (body : option KeyPublishBody) (now now' : Z) : M (Relay B) (list SReply) :=
  if negb (has_KeyDir sv) then mret (plain (replyError ErrUnsupported "secret chats disabled"))
  else match body with
  | None => mret (plain (replyError ErrBadArg "bad key publish"))
  | Some b =>
      match validateKeyBundle b with
      | Some err => mret (plain (replyError ErrBadArg ("bad prekey bundle: " +:+ err)))
      | None => st ← on_dir (KeyDir.Publish now (c_user c) (c_device c) b); mret [keyStateBody now' st]
      end
  end.

Definition mayReadKeysOf (c : Caller) (userID : string) : M (Relay B) bool :=
  if bool_decide (userID = c_user c) || negb (has_Contacts sv) then mret true
  else blocked ← on_rpeople (BlocksBetween (c_user c) userID); mret (negb blocked).

(** The outcome of the check: [errBadKeyTarget], [errKeysHidden], or none. *)
Inductive KeyTarget := TargetOk | TargetBad | TargetHidden.
Definition checkKeyTarget (c : Caller) (userID : string) : M (Relay B) KeyTarget :=
  if negb (validID userID) then mret TargetBad
  else allowed ← mayReadKeysOf c userID; mret (if allowed : bool then TargetOk else TargetHidden).

(** [allowed] is the answer of the per-user budget. *)
Definition handleKeyFetch (c : Caller) (allowed : bool) (body : option (string * string)) (now : Z) : M (Relay B) (list SReply) :=
  if negb (has_KeyDir sv) then mret (plain (replyError ErrUnsupported "secret chats disabled"))
  else if negb allowed then mret (plain (replyErrorRetry ErrRateLimited "key fetch rate limited" keyFetchRetryAfterMs))
  else match body with
  | None => mret (plain (replyError ErrBadArg "bad key fetch"))
  | Some (userID, deviceID) =>
      if negb (validDeviceID deviceID) then mret (plain (replyError ErrBadArg "invalid device id"))
      else
        t ← attempt (checkKeyTarget c userID);
        match t with
        | Ok TargetBad => mret (plain (replyError ErrBadArg "invalid user id"))
        | Ok TargetHidden => mret (plain (replyError ErrNotFound "no keys for device"))
        | Err err => mret (plain (replyForError err))
        | Ok TargetOk =>
            bundle ← on_dir (Fetch now userID deviceID);
            match bundle with
            | None => mret (plain (replyError ErrNotFound "no keys for device"))
            | Some bundle => mret [SKeyBundle bundle]
            end
        end
  end.

Definition handleKeyFetchAll (c : Caller) (allowed : bool) (body : option string) (now : string → Z) : M (Relay B) (list SReply) :=
  if negb (has_KeyDir sv) then mret (plain (replyError ErrUnsupported "secret chats disabled"))
  else if negb allowed then mret (plain (replyErrorRetry ErrRateLimited "key fetch rate limited" keyFetchRetryAfterMs))
  else match body with
  | None => mret (plain (replyError ErrBadArg "bad key fetch"))
  | Some userID =>
      t ← attempt (checkKeyTarget c userID);
      match t with
      | Ok TargetBad => mret (plain (replyError ErrBadArg "invalid user id"))
      | Ok TargetHidden => mret [SKeyBundles userID []]
      | Err err => mret (plain (replyForError err))
      | Ok TargetOk => bundles ← on_dir (FetchAll now userID); mret [SKeyBundles userID bundles]
      end
  end.

(** ** The ciphertext queue *)

Definition queueSecret (body : SecretMsgBody) (header cipher : bytes) (id : string) (now : Z) : M (Relay B) bool :=
  if negb (has_SecretQ sv) then mret false
  else
    let env := mkSecretEnvelope id (ToUserID body) (ToDeviceID body) (FromUserID body) (FromDeviceID body)
                 header cipher now (now + secretQueueTTL) in
    r ← attempt (on_queue (EnqueueSecret env maxQueuedPerDevice));
    mret (match r with Ok _ => true | Err _ => false end).

Definition pushSecretWake (userID : string) : M (Relay B) unit :=
  if negb (has_Bus sv) then mret tt
  else attempt (on_bus (EventBus.Publish (mkEvent SubjNotifyPush userID (RWake userID) ∅)));; mret tt.

(** The registry is always there; without a bus nothing is routed. *)
Definition relay_to_device (userID deviceID : string) (body : bytes) : M (Relay B) Z :=
  if negb (has_Bus sv) then mret 0
  else routeToDevice (λ u d, gets (λ w, NodesForDevice (rl_registry w) u d)) userID deviceID MsgSecretRecv body.

Definition stamp (c : Caller) (b : SecretMsgBody) : SecretMsgBody :=
  mkSecret (ToUserID b) (ToDeviceID b) (c_user c) (c_device c) (RatchetHeader b) (Ciphertext b) (Header b) (Cipher b) "".

Definition handleSecretSend (c : Caller) (body : option SecretMsgBody) (id : string) (now : Z) : M (Relay B) (list SReply) :=
  match body with
  | None => mret (plain (replyError ErrBadArg "bad secret message"))
  | Some b =>
      if negb (validID (ToUserID b)) then mret (plain (replyError ErrBadArg "invalid recipient"))
      else if negb (validDeviceID (ToDeviceID b)) then mret (plain (replyError ErrBadArg "invalid recipient device"))
      else
        r ← (if negb (bool_decide (ToUserID b = c_user c)) && has_Contacts sv
             then attempt (on_rpeople (BlocksBetween (c_user c) (ToUserID b))) else mret (Ok false));
        match r with
        | Err err => mret (plain (replyForError err))
        | Ok true => mret (plain (replyError ErrForbidden "blocked"))
        | Ok false =>
            let b := stamp c b in
            match SecretPayload b with
            | None => mret (plain (replyError ErrBadArg "bad ratchet payload"))
            | Some (header, cipher) =>
                let relayed := SetSecretPayloadBinary b header cipher in
                delivered ← relay_to_device (ToUserID b) (ToDeviceID b) (Marshal_secret relayed);
                queued ← (if delivered =? 0 then
                            queued ← queueSecret b header cipher id now;
                            (if queued : bool then pushSecretWake (ToUserID b) else mret tt);;
                            mret queued
                          else mret false);
                if Z.land (c_caps c) CapSecretQueue =? 0 then mret []
                else mret [SSecretAck (ToUserID b) (ToDeviceID b) (i32 delivered) queued]
            end
        end
  end.

(** The frame a sync sends for one queued envelope. *)
Definition sync_frame (caps : Z) (env : SecretEnvelope) : SReply :=
  SSecretRecv (SetSecretPayloadFor
    (mkSecret (Env_ToUserID env) (Env_ToDeviceID env) (Env_FromUserID env) (Env_FromDeviceID env) [] [] [] [] (Env_ID env))
    caps (Env_Header env) (Env_Ciphertext env)).

Definition handleSecretSync (c : Caller) (body : option (string * Z)) : M (Relay B) (list SReply) :=
  if negb (has_SecretQ sv) then mret (plain (replyError ErrUnsupported "secret queue disabled"))
  else match body with
  | None => mret (plain (replyError ErrBadArg "bad secret sync"))
  | Some (after, limit) =>
      if negb (bool_decide (after = "")) && negb (validID after) then mret (plain (replyError ErrBadArg "invalid cursor"))
      else
        let limit := if (limit <=? 0) || (maxSecretSyncPage <? limit) then maxSecretSyncPage else limit in
        r ← attempt (on_queue (PendingSecrets (c_user c) (c_device c) after limit));
        match r with
        | Err err => mret (plain (replyForError err))
        | Ok envs =>
            mret ((sync_frame (c_caps c) <$> envs) ++
                  [SSecretSynced (i32 (len envs)) (default "" (Env_ID <$> last envs)) (len envs <? limit)])
        end
  end.

Definition handleSecretAcked (c : Caller) (body : option (list string)) : M (Relay B) (list SReply) :=
  if negb (has_SecretQ sv) then mret (plain (replyError ErrUnsupported "secret queue disabled"))
  else match body with
  | None => mret (plain (replyError ErrBadArg "bad secret ack"))
  | Some ids =>
      if maxSecretSyncPage <? len ids then mret (plain (replyError ErrBadArg "too many ids"))
      else if negb (forallb validID ids) then mret (plain (replyError ErrBadArg "invalid id"))
      else
        r ← attempt (on_queue (AckSecrets (c_user c) (c_device c) ids));
        match r with
        | Err err => mret (plain (replyForError err))
        | Ok n => mret [SSecretSynced (i32 n) "" true]
        end
  end.

(** ** Requests *)

Inductive SRequest :=
  | SQPublish (body : option KeyPublishBody) (now now' : Z)
  | SQFetch (allowed : bool) (body : option (string * string)) (now : Z)
  | SQFetchAll (allowed : bool) (body : option string) (now : string → Z)
  | SQSend (body : option SecretMsgBody) (id : string) (now : Z)
  | SQSync (body : option (string * Z))
  | SQAcked (body : option (list string)).
Definition serve (c : Caller) (q : SRequest) : M (Relay B) (list SReply) :=
  match q with
  | SQPublish body now now' => handleKeyPublish c body now now'
  | SQFetch allowed body now => handleKeyFetch c allowed body now
  | SQFetchAll allowed body now => handleKeyFetchAll c allowed body now
  | SQSend body id now => handleSecretSend c body id now
  | SQSync body => handleSecretSync c body
  | SQAcked body => handleSecretAcked c body
  end.
(** Requests by anybody, one after the other, with all the frames they were answered. *)
Fixpoint serve_all (qs : list (Caller * SRequest)) : M (Relay B) (list SReply) :=
  match qs with
  | [] => mret []
  | (c, q) :: qs => rs ← serve c q; rs' ← serve_all qs; mret (rs ++ rs')
  end.

End handlers.
End verify.

(** ** What the directory may hold *)

Section usable.
Variable ed25519_Verify : bytes → bytes → bytes → bool.

Definition decodes (value : string) (want : Z) (b : bytes) : Prop := b64_DecodeString (sbytes value) = Some b ∧ len b = want.
Definition key_ok (value : string) : Prop := ∃ b, decodes value x25519KeyLen b.
(** What a peer checks before it starts a session: the keys are keys, and the signature over
    the signed prekey verifies under the signing key. *)
Definition usable (identity signing signed sig : string) : Prop :=
  key_ok identity ∧ ∃ kb pb sb, decodes signing PublicKeySize kb ∧ decodes signed x25519KeyLen pb ∧
    decodes sig SignatureSize sb ∧ VerifyPreKey ed25519_Verify kb pb sb = true.
Definition keys_ok (dk : deviceKeys) : Prop :=
  usable (identityKey dk) (signingKey dk) (signedPreKey dk) (signedPreKeySig dk) ∧ Forall key_ok (oneTime dk).
Definition dir_ok (d : memoryDir) : Prop := map_Forall (λ _, keys_ok) (bundles d).
Definition bundle_ok (b : KeyBundleBody) : Prop :=
  usable (KB_IdentityKey b) (KB_SigningKey b) (KB_SignedPreKey b) (KB_SignedPreKeySig b) ∧
  (KB_OneTimePreKey b = "" ∨ key_ok (KB_OneTimePreKey b)).
Definition reply_ok (r : SReply) : Prop :=
  match r with SKeyBundle b => bundle_ok b | SKeyBundles _ bs => Forall bundle_ok bs | _ => True end.

Lemma decodeKey_ok field value want b : decodeKey field value want = inr b → decodes value want b.
Proof.
  unfold decodeKey, decodes. destruct (b64_DecodeString (sbytes value)) as [x|]; [|done].
  destruct (Z.eqb_spec (len x) want); [|done]. by intros [= ->].
Qed.
Lemma decode_prekeys_ok i pks : decode_prekeys i pks = None → Forall key_ok pks.
Proof.
  revert i. induction pks as [|pk pks IH]; intros i; cbn [decode_prekeys]; [constructor|].
  destruct (decodeKey _ pk x25519KeyLen) as [|b] eqn:E; [done|]. intros Hn. constructor; [|by eapply IH].
  exists b. by eapply decodeKey_ok.
Qed.
Lemma validateKeyBundle_ok b :
  validateKeyBundle ed25519_Verify b = None →
  usable (KP_IdentityKey b) (KP_SigningKey b) (KP_SignedPreKey b) (KP_SignedPreKeySig b) ∧ Forall key_ok (KP_PreKeys b).
Proof.
  unfold validateKeyBundle.
  destruct (decodeKey _ (KP_IdentityKey b) _) as [|ib] eqn:E1; [done|].
  destruct (decodeKey _ (KP_SigningKey b) _) as [|kb] eqn:E2; [done|].
  destruct (decodeKey _ (KP_SignedPreKey b) _) as [|pb] eqn:E3; [done|].
  destruct (decodeKey _ (KP_SignedPreKeySig b) _) as [|sb] eqn:E4; [done|].
  destruct (VerifyPreKey ed25519_Verify kb pb sb) eqn:Ev; [|done]. cbn [negb]. intros Hp%decode_prekeys_ok.
  apply decodeKey_ok in E1, E2, E3, E4. split; [|done]. split; [by exists ib|]. by exists kb, pb, sb.
Qed.

Lemma Publish_dir_ok now u d b dir : validateKeyBundle ed25519_Verify b = None → dir_ok dir → dir_ok (KeyDir.Publish now u d b dir).1.
Proof.
  intros [Hu Hp]%validateKeyBundle_ok Hd. unfold KeyDir.Publish.
  set (dk := default no_keys (bundles dir !! key u d)).
  assert (Forall key_ok (oneTime dk)) as Ho.
  { subst dk. destruct (bundles dir !! key u d) as [dk|] eqn:E; [|constructor]. apply (Hd _ _ E). }
  pose proof (appendCapped_spec (oneTime dk) (KP_PreKeys b)) as Hc. destruct (appendCapped _ _) as [out n].
  destruct Hc as ((pre & Hpre) & _). cbn [fst]. apply map_Forall_insert_2; [|done]. split; [done|]. cbn [oneTime].
  assert (Forall key_ok (oneTime dk ++ ztake MaxPreKeysPerPublish (KP_PreKeys b))) as Hall.
  { apply Forall_app. split; [done|]. by apply Forall_take. }
  rewrite Hpre in Hall. by apply Forall_app in Hall as [_ Hall].
Qed.
Lemma Fetch_dir_ok now u d dir :
  dir_ok dir → let '(dir', b) := Fetch now u d dir in dir_ok dir' ∧ ∀ x, b = Some x → bundle_ok x.
Proof.
  intros Hd. unfold Fetch. destruct (bundles dir !! key u d) as [dk|] eqn:E; [|done].
  case_bool_decide; [done|]. destruct (after_expiry now dk); [split; [by apply map_Forall_delete|done]|].
  destruct (Hd _ _ E) as [Hu Ho]. destruct (oneTime dk) as [|k rest].
  - split; [done|]. intros x [= <-]. split; [done|]. by left.
  - apply Forall_cons in Ho as [Hk Ho]. split; [by apply map_Forall_insert_2|]. intros x [= <-]. split; [done|]. by right.
Qed.
Lemma fetch_each_dir_ok now u devs dir :
  dir_ok dir → let '(dir', bs) := fetch_each now u devs dir in dir_ok dir' ∧ Forall bundle_ok bs.
Proof.
  revert dir. induction devs as [|d devs IH]; intros dir Hd; cbn [fetch_each]; [split; [done|constructor]|].
  pose proof (Fetch_dir_ok (now d) u d dir Hd) as Hf. destruct (Fetch _ _ _ _) as [d1 b]. destruct Hf as [H1 Hb].
  specialize (IH d1 H1). destruct (fetch_each _ _ _ _) as [d2 bs]. destruct IH as [H2 Hbs]. split; [done|].
  destruct b; [constructor; [by apply Hb|done]|done].
Qed.
End usable.

(** ** A call that answers, and what holds then *)

Definition answers {S A} (s : S) (m : M S A) (Q : S → A → Prop) : Prop := ∃ s' a, m s = (s', Ok a) ∧ Q s' a.

Section answers.
Context {S : Type}.
Lemma answers_ret {A} (s : S) (a : A) (Q : S → A → Prop) : Q s a → answers s (mret a : M S A) Q.
Proof. by exists s, a. Qed.
Lemma answers_bind {A B} (s : S) (m : M S A) (f : A → M S B) (P : S → A → Prop) (Q : S → B → Prop) :
  answers s m P → (∀ s' a, P s' a → answers s' (f a) Q) → answers s (m ≫= f) Q.
Proof. intros (s' & a & Hm & HP) Hf. unfold answers. rewrite (bind_Ok _ _ _ _ _ Hm). by apply Hf. Qed.
(** [attempt] answers, keeping what the call keeps. *)
Lemma answers_attempt {A} s (m : M S A) (Q : S → result A → Prop) : Q (m s).1 (m s).2 → answers s (attempt m) Q.
Proof. unfold answers, attempt. destruct (m s) as [s' r]. cbn. by exists s', r. Qed.
Lemma answers_weaken {A} s (m : M S A) (P Q : S → A → Prop) : answers s m P → (∀ s' a, P s' a → Q s' a) → answers s m Q.
Proof. intros (s' & a & Hm & HP) HPQ. exists s', a. auto. Qed.
End answers.

Lemma BlocksBetween_served a b (st : ContactState) :
  BlocksBetween a b st = (st, Ok (blocked_in a b (contacts st) || blocked_in b a (contacts st))).
Proof.
  unfold BlocksBetween, on_contacts, IsBlocked_, gets. rewrite M_bind_eq. destruct st as [ac ct]. cbn.
  by destruct (blocked_in a b ct).
Qed.

Section relay.
Context (ed25519_Verify : bytes → bytes → bytes → bool) {B : Type} `{Bus RelayData B} `{RangeOrder}
  (sv : Services) (Marshal_secret : SecretMsgBody → bytes).
Abbreviation dok w := (dir_ok ed25519_Verify (rl_dir w)).
Abbreviation good := (λ (w' : Relay B) rs, dok w' ∧ Forall (reply_ok ed25519_Verify) rs).

Lemma Forall_reply_ok_plain rs : Forall (reply_ok ed25519_Verify) (plain rs).
Proof. apply Forall_fmap, Forall_true. done. Qed.
Lemma says_plain w rs : dok w → answers w (mret (plain rs) : M (Relay B) _) good.
Proof. intros Hw. apply answers_ret. split; [done | apply Forall_reply_ok_plain]. Qed.

Lemma on_rpeople_blocks u v (w : Relay B) :
  on_rpeople (BlocksBetween u v) w = (w, Ok (blocked_in u v (contacts (rl_people w)) || blocked_in v u (contacts (rl_people w)))).
Proof. unfold on_rpeople. rewrite BlocksBetween_served. by destruct w. Qed.

Definition hidden (c : Caller) (userID : string) (w : Relay B) : bool :=
  negb (bool_decide (userID = c_user c)) && has_Contacts sv &&
  (blocked_in (c_user c) userID (contacts (rl_people w)) || blocked_in userID (c_user c) (contacts (rl_people w))).
Lemma checkKeyTarget_run c userID w :
  checkKeyTarget (B := B) sv c userID w =
  (w, Ok (if negb (validID userID) then TargetBad else if hidden c userID w then TargetHidden else TargetOk)).
Proof.
  unfold checkKeyTarget, mayReadKeysOf, hidden. destruct (validID userID); [cbn [negb]|done].
  destruct (bool_decide (userID = c_user c)); [done|]. destruct (has_Contacts sv); [cbn [negb orb andb]|done].
  rewrite !M_bind_eq, on_rpeople_blocks. cbn [mret M_ret].
  by destruct (blocked_in (c_user c) userID _), (blocked_in userID (c_user c) _).
Qed.
Lemma attempt_target c userID w :
  attempt (checkKeyTarget (B := B) sv c userID) w =
  (w, Ok (Ok (if negb (validID userID) then TargetBad else if hidden c userID w then TargetHidden else TargetOk))).
Proof. unfold attempt. by rewrite checkKeyTarget_run. Qed.

Lemma publish_good c body now now' w : dok w → answers w (handleKeyPublish (B := B) ed25519_Verify sv c body now now') good.
Proof.
  intros Hw. unfold handleKeyPublish. destruct (has_KeyDir sv); [cbn [negb]|by apply says_plain].
  destruct body as [b|]; [|by apply says_plain].
  destruct (validateKeyBundle ed25519_Verify b) as [err|] eqn:E; [by apply says_plain|].
  apply (answers_bind _ _ _ (λ w' _, dok w')).
  - unfold answers, on_dir. pose proof (Publish_dir_ok _ now (c_user c) (c_device c) b (rl_dir w) E Hw) as Hp.
    destruct (KeyDir.Publish _ _ _ _ _) as [d st]. by exists (mkRelay (rl_people w) (rl_registry w) (rl_queue w) d (rl_bus w)), st.
  - intros w' st Hw'. apply answers_ret. split; [done|]. by repeat constructor.
Qed.
Lemma fetch_good c allowed body now w : dok w → answers w (handleKeyFetch (B := B) sv c allowed body now) good.
Proof.
  intros Hw. unfold handleKeyFetch. destruct (has_KeyDir sv); [cbn [negb]|by apply says_plain].
  destruct allowed; [cbn [negb]|by apply says_plain]. destruct body as [[u d]|]; [|by apply says_plain].
  destruct (validDeviceID d); [cbn [negb]|by apply says_plain]. unfold answers. rewrite (bind_Ok _ _ _ _ _ (attempt_target c u w)).
  destruct (negb (validID u)); [by apply says_plain|]. destruct (hidden c u w); [by apply says_plain|].
  apply (answers_bind w _ _ (λ w' b, dok w' ∧ ∀ x, b = Some x → bundle_ok ed25519_Verify x)).
  - unfold answers, on_dir. pose proof (Fetch_dir_ok _ now u d (rl_dir w) Hw) as Hf. destruct (Fetch _ _ _ _) as [dir b].
    eexists _, b. split; [done|]. exact Hf.
  - intros w' b [Hw' Hb]. destruct b as [b|]; [|by apply says_plain]. apply answers_ret. split; [done|].
    constructor; [by apply Hb | constructor].
Qed.
Lemma fetchAll_good c allowed body now w : dok w → answers w (handleKeyFetchAll (B := B) sv c allowed body now) good.
Proof.
  intros Hw. unfold handleKeyFetchAll. destruct (has_KeyDir sv); [cbn [negb]|by apply says_plain].
  destruct allowed; [cbn [negb]|by apply says_plain]. destruct body as [u|]; [|by apply says_plain].
  unfold answers. rewrite (bind_Ok _ _ _ _ _ (attempt_target c u w)).
  destruct (negb (validID u)); [by apply says_plain|]. destruct (hidden c u w); [by apply answers_ret; split; [|repeat constructor]|].
  apply (answers_bind w _ _ (λ w' bs, dok w' ∧ Forall (bundle_ok ed25519_Verify) bs)).
  - unfold answers, on_dir, FetchAll. pose proof (fetch_each_dir_ok _ now u (default [] (KeyDir.devices (rl_dir w) !! u)) (rl_dir w) Hw) as Hf.
    destruct (fetch_each _ _ _ _) as [dir bs]. eexists _, bs. split; [done|]. exact Hf.
  - intros w' bs [Hw' Hb]. apply answers_ret. split; [done|]. by repeat constructor.
Qed.

(** *** Routing and queueing, exactly *)

Definition with_bus (w : Relay B) (b : B) : Relay B := mkRelay (rl_people w) (rl_registry w) (rl_queue w) (rl_dir w) b.
Definition with_queue (w : Relay B) (q : SecretQ) : Relay B := mkRelay (rl_people w) (rl_registry w) q (rl_dir w) (rl_bus w).
(** The bus after some publishes, whatever came of each. *)
Definition pub (b : B) (evs : list (Event RelayData)) : B := foldl (λ b e, (EventBus.Publish e b).1) b evs.
Definition deliveries (nodes : list string) (u d : string) (body : bytes) : list (Event RelayData) :=
  (λ n, mkEvent (DeliverSubject n) u (RFan (FNode (Encode (mkNodeDelivery [u] d (u16 MsgSecretRecv) body)))) ∅) <$> nodes.
Definition reached (w : Relay B) (u d : string) : list string := if has_Bus sv then NodesForDevice (rl_registry w) u d else [].

Lemma publish_each (f : string → Event FanoutData) nodes (w : Relay B) :
  for_each (λ n, attempt (relay_bus (f n));; mret tt) nodes w =
  (with_bus w (pub (rl_bus w) ((λ n, mkEvent (Event_Subject (f n)) (Event_Key (f n)) (RFan (Event_Data (f n))) (Event_Headers (f n))) <$> nodes)), Ok tt).
Proof.
  revert w. induction nodes as [|n nodes IH]; intros w; cbn [for_each]; [by destruct w|].
  set (e := mkEvent (Event_Subject (f n)) (Event_Key (f n)) (RFan (Event_Data (f n))) (Event_Headers (f n))).
  assert ((attempt (relay_bus (f n));; mret tt) w = (with_bus w (EventBus.Publish e (rl_bus w)).1, Ok tt)) as Hn.
  { rewrite M_bind_eq. unfold attempt, relay_bus, on_bus. fold e. by destruct (EventBus.Publish e (rl_bus w)). }
  rewrite (bind_Ok _ _ _ _ _ Hn). rewrite IH. done.
Qed.
Lemma relay_run u d body w :
  relay_to_device sv u d body w = (with_bus w (pub (rl_bus w) (deliveries (reached w u d) u d body)), Ok (len (reached w u d))).
Proof.
  unfold relay_to_device, reached. destruct (has_Bus sv); [cbn [negb]|by destruct w]. unfold routeToDevice. rewrite M_bind_eq. cbn [attempt gets].
  unfold publishToNodes. rewrite M_bind_eq. unfold EventBus.Publish at 1. rewrite (publish_each (λ n, mkEvent (DeliverSubject n) u (FNode _) ∅)). done.
Qed.
Lemma wake_run u w :
  pushSecretWake sv u w = (with_bus w (pub (rl_bus w) (if has_Bus sv then [mkEvent SubjNotifyPush u (RWake u) ∅] else [])), Ok tt).
Proof.
  unfold pushSecretWake. destruct (has_Bus sv); [cbn [negb]|by destruct w]. rewrite M_bind_eq. unfold attempt, on_bus. cbn [pub foldl].
  by destruct (EventBus.Publish _ (rl_bus w)).
Qed.

(** The envelope stored for a message, and a message the handler takes. *)
Definition envelope (c : Caller) (b : SecretMsgBody) (header cipher : bytes) (id : string) (now : Z) : SecretEnvelope :=
  mkSecretEnvelope id (ToUserID b) (ToDeviceID b) (c_user c) (c_device c) header cipher now (now + secretQueueTTL).
Definition taken_up (c : Caller) (b : SecretMsgBody) (header cipher : bytes) (w : Relay B) : Prop :=
  validID (ToUserID b) = true ∧ validDeviceID (ToDeviceID b) = true ∧ hidden c (ToUserID b) w = false ∧
  SecretPayload b = Some (header, cipher).
Definition ack (c : Caller) (b : SecretMsgBody) (n : Z) (queued : bool) : list SReply :=
  if Z.land (c_caps c) CapSecretQueue =? 0 then [] else [SSecretAck (ToUserID b) (ToDeviceID b) (i32 n) queued].

Lemma queueSecret_run b header cipher id now w :
  has_SecretQ sv = true →
  queueSecret (B := B) sv b header cipher id now w =
  (with_queue w (EnqueueSecret (mkSecretEnvelope id (ToUserID b) (ToDeviceID b) (FromUserID b) (FromDeviceID b) header cipher now (now + secretQueueTTL))
                   maxQueuedPerDevice (rl_queue w)).1, Ok true).
Proof. intros Hq. unfold queueSecret. rewrite Hq. done. Qed.

Lemma send_refuse_or_go c b id now w :
  validID (ToUserID b) = true → validDeviceID (ToDeviceID b) = true → hidden c (ToUserID b) w = false →
  handleSecretSend (B := B) sv Marshal_secret c (Some b) id now w =
  (match SecretPayload (stamp c b) with
   | None => mret (plain (replyError ErrBadArg "bad ratchet payload"))
   | Some (header, cipher) =>
       delivered ← relay_to_device sv (ToUserID b) (ToDeviceID b) (Marshal_secret (SetSecretPayloadBinary (stamp c b) header cipher));
       queued ← (if delivered =? 0 then
                   queued ← queueSecret sv (stamp c b) header cipher id now;
                   (if queued : bool then pushSecretWake sv (ToUserID b) else mret tt);; mret queued
                 else mret false);
       mret (ack c b delivered queued)
   end) w.
Proof.
  intros Hv Hd Hh. unfold handleSecretSend. rewrite Hv, Hd. cbn [negb]. unfold hidden in Hh.
  assert ((if negb (bool_decide (ToUserID b = c_user c)) && has_Contacts sv
           then attempt (on_rpeople (BlocksBetween (c_user c) (ToUserID b))) else mret (Ok false)) w = (w, Ok (Ok false) : result (result bool))) as Hr.
  { destruct (negb (bool_decide (ToUserID b = c_user c)) && has_Contacts sv); [|done]. cbn [andb] in Hh.
    unfold attempt. by rewrite on_rpeople_blocks, Hh. }
  rewrite (bind_Ok _ _ _ _ _ Hr). destruct (SecretPayload (stamp c b)) as [[h ci]|]; [|done]. unfold ack. cbn [ToUserID ToDeviceID stamp].
  rewrite !M_bind_eq. destruct (relay_to_device _ _ _ _ w) as [w1 [n|]]; [|done]. rewrite !M_bind_eq.
  match goal with |- context [(if n =? 0 then ?x else ?y) w1] => destruct ((if n =? 0 then x else y) w1) as [w2 [q|]] end;
    [by destruct (Z.land _ _ =? 0)|done].
Qed.
Lemma send_run c b header cipher id now w :
  has_SecretQ sv = true → taken_up c b header cipher w →
  let nodes := reached w (ToUserID b) (ToDeviceID b) in
  let w1 := with_bus w (pub (rl_bus w) (deliveries nodes (ToUserID b) (ToDeviceID b) (Marshal_secret (SetSecretPayloadBinary (stamp c b) header cipher)))) in
  handleSecretSend (B := B) sv Marshal_secret c (Some b) id now w =
  if bool_decide (nodes = []) then
    let w2 := with_queue w1 (EnqueueSecret (envelope c b header cipher id now) maxQueuedPerDevice (rl_queue w)).1 in
    (with_bus w2 (pub (rl_bus w2) (if has_Bus sv then [mkEvent SubjNotifyPush (ToUserID b) (RWake (ToUserID b)) ∅] else [])), Ok (ack c b 0 true))
  else (w1, Ok (ack c b (len nodes) false)).
Proof.
  intros Hq (Hv & Hd & Hh & Hp) nodes w1. rewrite send_refuse_or_go by done. change (SecretPayload (stamp c b)) with (SecretPayload b). rewrite Hp.
  rewrite (bind_Ok _ _ _ _ _ (relay_run _ _ _ w)). fold nodes w1. destruct (bool_decide_reflect (nodes = [])) as [He|He].
  - assert (len nodes = 0) as -> by by rewrite He. cbn [Z.eqb]. rewrite !M_bind_eq, queueSecret_run by done. cbn [FromUserID FromDeviceID ToUserID ToDeviceID stamp].
    rewrite M_bind_eq, wake_run. done.
  - destruct nodes as [|n nodes]; [done|]. rewrite (proj2 (Z.eqb_neq _ _)); [done|]. rewrite len_cons. pose proof (len_nonneg nodes). lia.
Qed.

(** *** The relay leaves the directory alone *)

Lemma ack_good c b n q w : dok w → answers w (mret (ack c b n q) : M (Relay B) _) good.
Proof. intros Hw. apply answers_ret. split; [done|]. unfold ack. case_match; by repeat constructor. Qed.
Lemma send_good c body id now w : dok w → answers w (handleSecretSend (B := B) sv Marshal_secret c body id now) good.
Proof.
  intros Hw. destruct body as [b|]; [|by apply says_plain].
  destruct (validID (ToUserID b)) eqn:Hv; [|unfold handleSecretSend; rewrite Hv; by apply says_plain].
  destruct (validDeviceID (ToDeviceID b)) eqn:Hd; [|unfold handleSecretSend; rewrite Hv, Hd; by apply says_plain].
  destruct (hidden c (ToUserID b) w) eqn:Hh.
  { unfold handleSecretSend, answers. rewrite Hv, Hd. cbn [negb]. unfold hidden in Hh. apply andb_prop in Hh as [-> Hh].
    unfold attempt. rewrite M_bind_eq, on_rpeople_blocks, Hh. by apply says_plain. }
  unfold answers. rewrite send_refuse_or_go by done. destruct (SecretPayload (stamp c b)) as [[h ci]|]; [|by apply says_plain].
  rewrite (bind_Ok _ _ _ _ _ (relay_run _ _ _ w)). set (w1 := with_bus w _). set (n := len _). clearbody n.
  assert (dok w1) as Hw1 by done. clearbody w1. apply (answers_bind w1 _ _ (λ w' _, dok w')); [|intros; by apply ack_good].
  destruct (n =? 0); [|by apply answers_ret]. apply (answers_bind w1 _ _ (λ w' _, dok w')).
  - unfold queueSecret. destruct (has_SecretQ sv); [cbn [negb]|by apply answers_ret].
    by eexists _, true.
  - intros w2 q Hw2. apply (answers_bind w2 _ _ (λ w' _, dok w')); [|intros; by apply answers_ret].
    destruct q; [|by apply answers_ret]. unfold answers. rewrite wake_run. by eexists _, tt.
Qed.
Lemma sync_good c body w : dok w → answers w (handleSecretSync (B := B) sv c body) good.
Proof.
  intros Hw. unfold handleSecretSync. destruct (has_SecretQ sv); [cbn [negb]|by apply says_plain].
  destruct body as [[after limit]|]; [|by apply says_plain]. destruct (_ && _); [by apply says_plain|].
  unfold answers. rewrite M_bind_eq. unfold attempt, on_queue, PendingSecrets, gets. cbv beta iota zeta.
  eexists _, _. split; [reflexivity|]. split; [done|]. apply Forall_app. split; [apply Forall_fmap, Forall_true; done | by repeat constructor].
Qed.
Lemma acked_good c body w : dok w → answers w (handleSecretAcked (B := B) sv c body) good.
Proof.
  intros Hw. unfold handleSecretAcked. destruct (has_SecretQ sv); [cbn [negb]|by apply says_plain].
  destruct body as [ids|]; [|by apply says_plain]. case_match; [by apply says_plain|]. destruct (negb _); [by apply says_plain|].
  unfold answers. rewrite M_bind_eq. unfold attempt, on_queue. destruct (AckSecrets _ _ _ _) as [q [n|err]]; [|by apply says_plain].
  eexists _, _. split; [reflexivity|]. split; [done|]. by repeat constructor.
Qed.
Lemma serve_good c q w : dok w → answers w (serve (B := B) ed25519_Verify sv Marshal_secret c q) good.
Proof.
  destruct q; [apply publish_good | apply fetch_good | apply fetchAll_good | apply send_good | apply sync_good | apply acked_good].
Qed.

(** A bundle among the frames answered. *)
Definition handed (b : KeyBundleBody) (rs : list SReply) : Prop :=
  SKeyBundle b ∈ rs ∨ ∃ u bs, SKeyBundles u bs ∈ rs ∧ b ∈ bs.

(** C20: the directory serves only usable keys.  Whatever publishes, fetches, sends, syncs and
    acknowledgements anybody made since the directory was empty, every request is answered,
    and every bundle ever handed out is made of keys of the right sizes, with a signed-prekey
    signature that verifies, and a one-time key (if any) of the right size. *)
Theorem directory_usable qs (w : Relay B) :
  rl_dir w = KeyDir.NewMemory →
  ∃ w' rs, serve_all ed25519_Verify sv Marshal_secret qs w = (w', Ok rs) ∧
    ∀ b, handed b rs → bundle_ok ed25519_Verify b.
Proof.
  intros He. assert (answers w (serve_all ed25519_Verify sv Marshal_secret qs) good) as (w' & rs & Hs & _ & Hrs).
  { assert (dok w) as Hw by (rewrite He; apply map_Forall_empty). clear He. revert w Hw. induction qs as [|[c q] qs IH]; intros w Hw; cbn [serve_all].
    - apply answers_ret. split; [done|constructor].
    - eapply answers_bind; [by apply serve_good|]. intros w1 rs [Hw1 Hrs]. eapply answers_bind; [by apply IH|].
      intros w2 rs' [Hw2 Hrs']. apply answers_ret. split; [done|]. by apply Forall_app. }
  exists w', rs. split; [done|]. rewrite Forall_forall in Hrs. intros b [Hb|(u & bs & Hb & Hin)]; apply Hrs in Hb; [done|].
  cbn in Hb. rewrite Forall_forall in Hb. by apply Hb.
Qed.

(** a block hides a person's keys.  To a caller on either side of a block, a key request is
    answered exactly as it would be, without the block, for a person who never published any
    device, and it consumes nothing. *)
Theorem blocked_keys_hidden c allowed u d now nows (w w0 : Relay B) :
  hidden c u w = true → hidden c u w0 = false → rl_dir w0 = KeyDir.NewMemory →
  handleKeyFetch sv c allowed (Some (u, d)) now w = (w, (handleKeyFetch sv c allowed (Some (u, d)) now w0).2) ∧
  handleKeyFetchAll sv c allowed (Some u) nows w = (w, (handleKeyFetchAll sv c allowed (Some u) nows w0).2).
Proof.
  intros Hh Hh0 He. unfold handleKeyFetch, handleKeyFetchAll. destruct (has_KeyDir sv); [cbn [negb]|done].
  destruct allowed; [cbn [negb]|done]. split.
  - destruct (validDeviceID d); [cbn [negb]|done].
    rewrite (bind_Ok _ _ _ _ _ (attempt_target c u w)), (bind_Ok _ _ _ _ _ (attempt_target c u w0)), Hh, Hh0.
    destruct (validID u); [cbn [negb]|done]. unfold on_dir. by rewrite !M_bind_eq, He.
  - rewrite (bind_Ok _ _ _ _ _ (attempt_target c u w)), (bind_Ok _ _ _ _ _ (attempt_target c u w0)), Hh, Hh0.
    destruct (validID u); [cbn [negb]|done]. unfold on_dir. by rewrite !M_bind_eq, He.
Qed.

(** *** Ciphertext is kept *)

Lemma enqueued_last (e : SecretEnvelope) (m : SecretQ) :
  no_bar (Env_ToUserID e) = true →
  last (queue (Env_ToUserID e) (Env_ToDeviceID e) (EnqueueSecret e maxQueuedPerDevice m).1) = Some e.
Proof.
  intros Hu. rewrite EnqueueSecret_put, queue_put, bool_decide_true by done. cbv zeta. set (q := queue _ _ m).
  case_match; [|by rewrite last_snoc]. unfold zdrop, len, maxQueuedPerDevice. rewrite length_app. cbn [length].
  rewrite tail_drop by lia. by rewrite last_snoc.
Qed.
Lemma sync_run c w :
  has_SecretQ sv = true → len (queue (c_user c) (c_device c) (rl_queue w)) ≤ maxSecretSyncPage →
  ∃ r, handleSecretSync (B := B) sv c (Some ("", 0)) w =
    (w, Ok ((sync_frame (c_caps c) <$> queue (c_user c) (c_device c) (rl_queue w)) ++ [r])).
Proof.
  intros Hq Hl. unfold handleSecretSync. rewrite Hq. cbn [negb orb andb Z.leb Z.compare].
  rewrite bool_decide_true by done. cbn [negb andb]. rewrite M_bind_eq. unfold attempt, on_queue. rewrite PendingSecrets_run by done.
  rewrite bool_decide_true by done. unfold ztake. rewrite take_ge by (unfold len, maxSecretSyncPage in *; lia).
  eexists. by destruct w.
Qed.


(** a message to every device of a person with none connected is lost.  The sender is told
    it is queued, but no device will be sent it: what any device's sync returns is what it was
    before. *)
Theorem every_device_lost c b header cipher id now (w : Relay B) :
  has_SecretQ sv = true → taken_up c b header cipher w → ToDeviceID b = "" → reached w (ToUserID b) "" = [] →
  ∃ w', handleSecretSend sv Marshal_secret c (Some b) id now w = (w', Ok (ack c b 0 true)) ∧
    ∀ c' q, validID (c_user c') = true → c_device c' ≠ "" →
      (handleSecretSync sv c' q w').2 = (handleSecretSync sv c' q w).2.
Proof.
  intros Hq Ht Hd Hn. pose proof (send_run c b header cipher id now w Hq Ht) as Hrun. cbv zeta in Hrun.
  rewrite Hd, Hn, bool_decide_true in Hrun by done. eexists. split; [exact Hrun|]. set (w' := with_bus _ _).
  intros c' q Hv Hdev. assert (queue (c_user c') (c_device c') (rl_queue w') = queue (c_user c') (c_device c') (rl_queue w)) as Hsame.
  { change (rl_queue w') with (EnqueueSecret (envelope c b header cipher id now) maxQueuedPerDevice (rl_queue w)).1.
    rewrite EnqueueSecret_put, queue_put by (apply validID_no_bar; [done || apply Ht]). cbn [Env_ToUserID Env_ToDeviceID envelope].
    rewrite bool_decide_false; [done|]. intros [_ He]. congruence. }
  unfold handleSecretSync. destruct (has_SecretQ sv); [cbn [negb]|done]. destruct q as [[after limit]|]; [|done]. destruct (_ && _); [done|].
  rewrite !M_bind_eq. unfold attempt, on_queue, PendingSecrets, gets. cbv beta iota zeta. by rewrite Hsame.
Qed.

(** a message the bus refuses is lost.  When the bus is down, a message to a connected
    device leaves no trace: nothing is published and nothing queued, while the sender is told
    how many nodes it reached. *)
Theorem refused_publish_lost c b header cipher id now (w : Relay B) :
  (∀ e x, ∃ err, EventBus.Publish e x = (x, Err err)) →
  has_SecretQ sv = true → taken_up c b header cipher w → reached w (ToUserID b) (ToDeviceID b) ≠ [] →
  handleSecretSend sv Marshal_secret c (Some b) id now w =
  (w, Ok (ack c b (len (reached w (ToUserID b) (ToDeviceID b))) false)).
Proof.
  intros Hdown Hq Ht Hn. rewrite (send_run c b header cipher id now w Hq Ht). cbv zeta. rewrite bool_decide_false by done.
  assert (∀ evs x, pub x evs = x) as ->; [|by destruct w].
  induction evs as [|e evs IH]; intros x; [done|]. cbn [pub foldl]. destruct (Hdown e x) as [err ->]. apply IH.
Qed.
End relay.

(** ** Concrete relays *)

Section witnesses.
#[local] Existing Instance canonical_order.
#[local] Instance log_bus : Bus RelayData (list (Event RelayData)) := λ e, modify (λ l, l ++ [e]).
#[local] Instance down_bus : Bus RelayData unit := λ _, fail other_error.

Definition w_services : Services := mkServices true true true true.
Definition w_relay {B} (b : B) (blocked : bool) : Relay B :=
  mkRelay (mkContactState MemAccounts.New (if blocked then put_contact "2" "1" (mkContact "2" "1" "" true 5 5) ∅ else ∅))
    (Bind Router.NewMemory "2" "phone" "n1") ∅ KeyDir.NewMemory b.
Definition w_log (blocked : bool) : Relay (list (Event RelayData)) := w_relay [] blocked.
Definition w_caller : Caller := mkCaller "1" "web" CapSecretQueue.
(** 32 and 64 zero bytes, in base64. *)
Definition w_key32 : string := bstring (b64_EncodeToString (replicate 32 Byte.x00)).
Definition w_key64 : string := bstring (b64_EncodeToString (replicate 64 Byte.x00)).
Definition w_bundle : KeyPublishBody := mkKeyPublish w_key32 w_key32 w_key32 w_key64 [w_key32].
Definition w_requests : list (Caller * SRequest) :=
  [(mkCaller "2" "phone" 0, SQPublish (Some w_bundle) 5 6); (w_caller, SQFetch true (Some ("2", "phone")) 7)].
Definition w_secret (d : string) : SecretMsgBody := mkSecret "2" d "9" "x" [] [] [Byte.x01] [Byte.x02] "77".
Definition w_marshal_secret (b : SecretMsgBody) : bytes := Header b ++ Cipher b.

Lemma directory_usable_witness :
  ∃ w' rs, serve_all (λ _ _ _, true) w_services w_marshal_secret w_requests (w_log false) = (w', Ok rs) ∧
    ∀ b, handed b rs → bundle_ok (λ _ _ _, true) b.
Proof. apply (directory_usable (λ _ _ _, true) w_services w_marshal_secret w_requests (w_log false)). reflexivity. Defined.

Lemma blocked_keys_hidden_witness :
  handleKeyFetch w_services w_caller true (Some ("2", "phone")) 7 (w_log true)
    = (w_log true, Ok (plain (replyError ErrNotFound "no keys for device"))) ∧
  handleKeyFetchAll w_services w_caller true (Some "2") (λ _, 7) (w_log true) = (w_log true, Ok [SKeyBundles "2" []]).
Proof.
  exact (blocked_keys_hidden w_services w_caller true "2" "phone" 7 (λ _, 7) (w_log true) (w_log false)
           eq_refl eq_refl eq_refl).
Defined.


Lemma every_device_lost_witness :
  ∃ w', handleSecretSend w_services w_marshal_secret w_caller (Some (mkSecret "3" "" "" "" [] [] [Byte.x01] [Byte.x02] "")) "88" 9 (w_log false)
      = (w', Ok [SSecretAck "3" "" 0 true]) ∧
    ∀ c' q, validID (c_user c') = true → c_device c' ≠ "" →
      (handleSecretSync w_services c' q w').2 = (handleSecretSync w_services c' q (w_log false)).2.
Proof.
  exact (every_device_lost w_services w_marshal_secret w_caller (mkSecret "3" "" "" "" [] [] [Byte.x01] [Byte.x02] "") [Byte.x01] [Byte.x02] "88" 9
           (w_log false) eq_refl (conj eq_refl (conj eq_refl (conj eq_refl eq_refl))) eq_refl eq_refl).
Defined.

Lemma refused_publish_lost_witness :
  handleSecretSend w_services w_marshal_secret w_caller (Some (w_secret "phone")) "88" 9 (w_relay tt false)
    = (w_relay tt false, Ok [SSecretAck "2" "phone" 1 false]).
Proof.
  assert (@reached unit canonical_order w_services (w_relay tt false) "2" "phone" ≠ []) as Hn by (vm_compute; discriminate).
  exact (refused_publish_lost w_services w_marshal_secret w_caller (w_secret "phone") [Byte.x01] [Byte.x02] "88" 9 (w_relay tt false)
           (λ _ x, ex_intro _ other_error eq_refl) eq_refl (conj eq_refl (conj eq_refl (conj eq_refl eq_refl))) Hn).
Defined.
End witnesses.
