(* ===== verification/Erasure.v ===== *)
(** * Account erasure

    [internal/store/memory] users.go [DeleteAccount], which reaches every map of the store,
    and [internal/auth] sessions.go [DeleteAccount] above it.  [FullStore] puts the maps the
    other files model side by side. *)

From S2P Require Import Prelude Bytes GoStrings Password Model MemChats MemAccounts TwoFactor Auth AuthRules AuthSessions ChatService Invite Reaction Contact Pin Poll Call Schedule Billing SecretQueue.

Record FullStore := mkFull {
  fs_accounts : AccountDB;
  fs_chats : ChatDB;
  fs_contacts : Contacts;
  fs_pins : PinTables;
  fs_scheduled : Pending;
  fs_invites : gmap string InviteLink;
  fs_reactions : Reactions;
  fs_polls : PollTables;
  fs_calls : CallTables;
  fs_secrets : SecretQ;
  fs_billing : BillingDB;
}.

(** [delete(byUser, userID)] in every inner map, and the inner maps left empty dropped. *)
Definition forget_user {A} (userID : string) (m : gmap string (gmap string A)) : gmap string (gmap string A) := delete userID <$> m.
Definition drop_empty {A} (m : gmap string (gmap string A)) : gmap string (gmap string A) := filter (λ kv, kv.2 ≠ ∅) m.

(** The body of the loop over the messages. *)
Definition anonymise (userID : string) (now : Z) (m : Message) : Message :=
  let m := if bool_decide (Message_SenderID m = userID)
           then mkMessage (Message_ID m) (Message_ChatID m) "" (Message_Seq m) "" "" None (Message_ReplyTo m) (Message_ThreadRoot m)
                  (Message_ReplyCount m) (Message_Forward m) (Message_ExpiresAt m) (Message_Edited m) true (Message_CreatedAt m) now
           else m in
  let fwd := match Message_Forward m with
             | Some f => Some (if bool_decide (Origin_SenderID f = userID) then mkOrigin (Origin_ChatID f) (Origin_MessageID f) "" else f)
             | None => None
             end in
  mkMessage (Message_ID m) (Message_ChatID m) (Message_SenderID m) (Message_Seq m) (Message_Text m) (Message_MediaRef m) (Message_Attachment m)
    (Message_ReplyTo m) (Message_ThreadRoot m) (Message_ReplyCount m) fwd (Message_ExpiresAt m) (Message_Edited m) (Message_Deleted m)
    (Message_CreatedAt m) (Message_EditedAt m).

Definition anonymise_log (userID : string) (now : Z) (ms : list Message) : list Message := anonymise userID now <$> ms.
Definition others_pins (userID : string) (m : gmap string PinnedMessage) : gmap string PinnedMessage :=
  filter (λ kv, Pinned_PinnedBy kv.2 ≠ userID) m.

Section erase.
Context `{RangeOrder} `{Argon2}.

Definition erase_account (userID : string) (u : User) (a : AccountDB) : AccountDB :=
  let gone := filter (λ s, Session_UserID s = userID) (range_map (sessions a)).*2 in
  mkAccountDB (delete userID (users a)) (delete (User_Username u) (usersByName a))
    (filter (λ kv, Device_UserID kv.2 ≠ userID) (MemAccounts.devices a))
    (filter (λ kv, Session_UserID kv.2 ≠ userID) (sessions a))
    (foldl (λ ix s, delete (Session_Token s) ix) (tokenIndex a) gone)
    (foldl (λ ix s, delete (Session_ResumeToken s) ix) (resumeIndex a) gone)
    (prevResumeIndex a) (delete userID (platformRoles a)) (twoFactor a).

Definition DeleteAccount_ (userID : string) (now : Z) : M FullStore unit := λ st,
  match users (fs_accounts st) !! userID with
  | None => (st, Err store_ErrNotFound)
  | Some u =>
      let c := fs_chats st in
      (mkFull (erase_account userID u (fs_accounts st))
         (mkChatDB (chats c) (directIndex c) (drop_empty (forget_user userID (members c))) (anonymise_log userID now <$> messages c)
            (dedup c) (forget_user userID (reads c)) (outbox c) (outboxSent c))
         (drop_empty (forget_user userID (delete userID (fs_contacts st))))
         (mkPinTables (drop_empty (others_pins userID <$> pins (fs_pins st))) (delete userID (drafts (fs_pins st))))
         (filter (λ kv, Sched_SenderID kv.2 ≠ userID) (fs_scheduled st))
         (filter (λ kv, Invite_CreatedBy kv.2 ≠ userID) (fs_invites st))
         (forget_user userID (fs_reactions st))
         (mkPollTables (polls (fs_polls st)) (pollByMsg (fs_polls st)) (forget_user userID (pollVotes (fs_polls st))))
         (mkCallTables (calls (fs_calls st)) (forget_user userID (callParts (fs_calls st))))
         (fs_secrets st) (fs_billing st), Ok tt)
  end.

Definition on_accounts {A} (m : M AccountDB A) : M FullStore A := λ st,
  let '(a, r) := m (fs_accounts st) in
  (mkFull a (fs_chats st) (fs_contacts st) (fs_pins st) (fs_scheduled st) (fs_invites st) (fs_reactions st) (fs_polls st) (fs_calls st)
     (fs_secrets st) (fs_billing st), r).

(** The service: the password, then the sessions, then the store. *)
Definition DeleteAccount (clock : Session → Z) (now now' : Z) (userID password : string) : M FullStore unit :=
  on_accounts (VerifyPassword userID password);;
  on_accounts (RevokeAll clock now userID "");;
  DeleteAccount_ userID now'.
End erase.

(** ** What erasure means *)

(** No row of the store is about the user: no account, name, role, device or session; no
    contact or block in either direction; no draft, scheduled message, invite link, read mark,
    reaction, vote, pin, place in a call or membership; no message names the user as sender or
    as origin. *)
Record forgotten (u : string) (st : FullStore) : Prop := mkForgotten {
  f_user : users (fs_accounts st) !! u = None;
  f_name n : usersByName (fs_accounts st) !! n ≠ Some u;
  f_role : platformRoles (fs_accounts st) !! u = None;
  f_device id d : MemAccounts.devices (fs_accounts st) !! id = Some d → Device_UserID d ≠ u;
  f_session id s : sessions (fs_accounts st) !! id = Some s → Session_UserID s ≠ u;
  f_contacts : fs_contacts st !! u = None;
  f_contact o m : fs_contacts st !! o = Some m → m !! u = None;
  f_draft : drafts (fs_pins st) !! u = None;
  f_scheduled id x : fs_scheduled st !! id = Some x → Sched_SenderID x ≠ u;
  f_invite c x : fs_invites st !! c = Some x → Invite_CreatedBy x ≠ u;
  f_read c m : reads (fs_chats st) !! c = Some m → m !! u = None;
  f_reaction c m : fs_reactions st !! c = Some m → m !! u = None;
  f_vote c m : pollVotes (fs_polls st) !! c = Some m → m !! u = None;
  f_pin c m id x : pins (fs_pins st) !! c = Some m → m !! id = Some x → Pinned_PinnedBy x ≠ u;
  f_call c m : callParts (fs_calls st) !! c = Some m → m !! u = None;
  f_member c m : members (fs_chats st) !! c = Some m → m !! u = None;
  f_message c ms m : messages (fs_chats st) !! c = Some ms → m ∈ ms →
    Message_SenderID m ≠ u ∧ ∀ f, Message_Forward m = Some f → Origin_SenderID f ≠ u;
}.

(** What others see: every log keeps its messages, with their ids and numbers, and a message
    neither sent nor first written by the user is the same message; other members, accounts and
    contacts are as before. *)
Record spared (u : string) (st st' : FullStore) : Prop := mkSpared {
  s_log c : (λ ms, (λ m, (Message_ID m, Message_Seq m)) <$> ms) <$> (messages (fs_chats st') !! c) =
            (λ ms, (λ m, (Message_ID m, Message_Seq m)) <$> ms) <$> (messages (fs_chats st) !! c);
  s_message c ms i m : messages (fs_chats st) !! c = Some ms → ms !! i = Some m → Message_SenderID m ≠ u →
    (∀ f, Message_Forward m = Some f → Origin_SenderID f ≠ u) → (messages (fs_chats st') !! c ≫= (.!! i)) = Some m;
  s_user v : v ≠ u → users (fs_accounts st') !! v = users (fs_accounts st) !! v;
  s_member c v : v ≠ u → (members (fs_chats st') !! c ≫= (.!! v)) = (members (fs_chats st) !! c ≫= (.!! v));
  s_contact o v : o ≠ u → v ≠ u → (fs_contacts st' !! o ≫= (.!! v)) = (fs_contacts st !! o ≫= (.!! v));
}.

(** ** Lemmas *)

Lemma forget_user_None {A} u (m : gmap string (gmap string A)) k x : forget_user u m !! k = Some x → x !! u = None.
Proof. unfold forget_user. rewrite lookup_fmap. intros (y & _ & ->)%fmap_Some. apply lookup_delete_eq. Qed.
Lemma drop_empty_Some {A} (m : gmap string (gmap string A)) k x : drop_empty m !! k = Some x → m !! k = Some x.
Proof. unfold drop_empty. by intros [? _]%map_lookup_filter_Some. Qed.
Lemma drop_empty_row {A} (m : gmap string (gmap string A)) k v : (drop_empty m !! k ≫= (.!! v)) = (m !! k ≫= (.!! v)).
Proof.
  unfold drop_empty. destruct (m !! k) as [x|] eqn:E.
  - destruct (decide (x = ∅)) as [->|Hx].
    + assert (filter (λ kv, kv.2 ≠ ∅) m !! k = None) as ->; [|done]. apply map_lookup_filter_None. right. intros y Hy. rewrite E in Hy. injection Hy as <-. intros Hne. by apply Hne.
    + assert (filter (λ kv, kv.2 ≠ ∅) m !! k = Some x) as ->; [|done]. by apply map_lookup_filter_Some.
  - assert (filter (λ kv, kv.2 ≠ ∅) m !! k = None) as ->; [|done]. apply map_lookup_filter_None. by left.
Qed.
Lemma forget_user_row {A} u (m : gmap string (gmap string A)) k v : v ≠ u → (forget_user u m !! k ≫= (.!! v)) = (m !! k ≫= (.!! v)).
Proof. intros Hv. unfold forget_user. rewrite lookup_fmap. destruct (m !! k); [|done]. cbn. by rewrite lookup_delete_ne. Qed.

Lemma anonymise_gone u now m : u ≠ "" →
  Message_SenderID (anonymise u now m) ≠ u ∧ ∀ f, Message_Forward (anonymise u now m) = Some f → Origin_SenderID f ≠ u.
Proof.
  intros Hu. unfold anonymise. destruct m as [id c sd sq tx mr at_ rt tr rc fw ex ed del cr ea]. cbn. split; [by case_bool_decide|].
  destruct (bool_decide (sd = u)); cbn; (destruct fw as [f0|]; [|done]); intros f [= <-]; by case_bool_decide.
Qed.
Lemma anonymise_other u now m :
  Message_SenderID m ≠ u → (∀ f, Message_Forward m = Some f → Origin_SenderID f ≠ u) → anonymise u now m = m.
Proof.
  intros Hs Hf. unfold anonymise. destruct m as [id c sd sq tx mr at_ rt tr rc fw ex ed del cr ea]. cbn in *. rewrite bool_decide_false by done. cbn.
  destruct fw as [f|]; [|done]. by rewrite bool_decide_false by by apply Hf.
Qed.
Lemma anonymise_place u now m : (Message_ID (anonymise u now m), Message_Seq (anonymise u now m)) = (Message_ID m, Message_Seq m).
Proof. unfold anonymise. by case_bool_decide. Qed.

Section erased.
Context `{Unicode} `{Argon2} `{!Argon2Laws} `{AEAD} `{RangeOrder} (totp_env : bytes) (attached : bool).

Lemma store_erased u now st st' :
  u ≠ "" → (∀ n, usersByName (fs_accounts st) !! n = Some u → ∃ r, users (fs_accounts st) !! u = Some r ∧ User_Username r = n) → DeleteAccount_ u now st = (st', Ok tt) → forgotten u st' ∧ spared u st st'.
Proof.
  intros Hu Hname. unfold DeleteAccount_. destruct (users (fs_accounts st) !! u) as [row|] eqn:Erow; [|done]. intros [= <-]. split.
  - split; cbn.
    + apply lookup_delete_eq.
    + intros n Hn. apply lookup_delete_Some in Hn as [Hne Hn]. destruct (Hname n Hn) as (r & [= <-] & Hrn). congruence.
    + apply lookup_delete_eq.
    + by intros id d [_ ?]%map_lookup_filter_Some.
    + by intros id s [_ ?]%map_lookup_filter_Some.
    + unfold drop_empty. apply map_lookup_filter_None. left. unfold forget_user. by rewrite lookup_fmap, lookup_delete_eq.
    + by intros o m Hm%drop_empty_Some%forget_user_None.
    + apply lookup_delete_eq.
    + by intros id x [_ ?]%map_lookup_filter_Some.
    + by intros id x [_ ?]%map_lookup_filter_Some.
    + by intros c m Hm%forget_user_None.
    + by intros c m Hm%forget_user_None.
    + by intros c m Hm%forget_user_None.
    + intros c m id x Hm%drop_empty_Some Hx. rewrite lookup_fmap in Hm. apply fmap_Some in Hm as (y & _ & ->). by apply map_lookup_filter_Some in Hx as [_ ?].
    + by intros c m Hm%forget_user_None.
    + by intros c m Hm%drop_empty_Some%forget_user_None.
    + intros c ms m Hms Hm. rewrite lookup_fmap in Hms. apply fmap_Some in Hms as (ms0 & _ & ->). apply list_elem_of_fmap in Hm as (m0 & -> & _). by apply anonymise_gone.
  - split; cbn.
    + intros c. rewrite lookup_fmap. destruct (messages (fs_chats st) !! c) as [ms|]; [|done]. cbn. f_equal. unfold anonymise_log. rewrite <- list_fmap_compose.
      apply list_fmap_ext. intros i m _. apply anonymise_place.
    + intros c ms i m Hms Hi Hs Hf. rewrite lookup_fmap, Hms. cbn. unfold anonymise_log. rewrite list_lookup_fmap, Hi. cbn. by rewrite anonymise_other.
    + intros v Hv. by rewrite lookup_delete_ne.
    + intros c v Hv. by rewrite drop_empty_row, forget_user_row.
    + intros o v Ho Hv. rewrite drop_empty_row, forget_user_row by done. by rewrite lookup_delete_ne.
Qed.

End erased.

(** ** A concrete deletion *)

Section witnesses.
#[local] Existing Instance toy_argon.
#[local] Existing Instance toy_laws.
#[local] Existing Instance canonical_order.
#[local] Existing Instance ascii_tables.
#[local] Existing Instance w_aead.

(** Alice's account, with a message of hers and one of somebody else. *)
Definition w_messages : list Message :=
  [mkMessage "m1" "7" "u1" 1 "mine" "" None "" "" 0 None 0 false false 5 0; mkMessage "m2" "7" "u2" 2 "yours" "" None "" "" 0 None 0 false false 6 0].
Definition w_full : FullStore :=
  mkFull w_db1 (mkChatDB ∅ ∅ ∅ {["7" := w_messages]} ∅ ∅ [] ∅) ∅ (mkPinTables ∅ ∅) ∅ ∅ ∅ (mkPollTables ∅ ∅ ∅) (mkCallTables ∅ ∅) ∅
    (mkBillingDB ∅ ∅ ∅ ∅).
End witnesses.
