(* ===== verification/Media.v ===== *)
(** * Media: signed uploads and downloads, and the collector

    [internal/media] media.go, http.go, store.go and gc.go, with the download gate of
    [internal/gateway] media_authz.go and the reference queries of the in-memory store.
    The object store is a directory of files; HMAC-SHA256 and the encodings are computed.
    Clock readings are nanoseconds since the epoch.  The snowflake id and the random suffix
    of a reference, and whether the disk takes a staged upload, are arguments. *)

From S2P Require Import Prelude Bytes Base64 GoStrings Strconv Sha Model EventBus MemChats MemMessages ChatService MessageService MemAccounts.

(** ** The object store *)

Record File := mkFile { F_data : bytes; F_mtime : Z }.

(** The files of the store's directory; [None] when the directory itself is gone.  A staged
    upload is in the directory only while its [Put] runs. *)
Abbreviation Blobs := (option (gmap string File)).

Definition slash : byte := byteZ 47.

(** [filepath.Base]. *)
Definition filepath_Base (path : bytes) : bytes :=
  match path with
  | [] => sbytes "."
  | _ => match default [] (last (Split slash (TrimRight slash path))) with
         | [] => sbytes "/"
         | base => base
         end
  end.

(** What [filepath.Join(f.dir, safe)] names: an entry of the directory, the directory
    itself, or the one it is in, which holds it and so is never empty. *)
Inductive Place := TheDir | ParentDir | InDir (name : string).

Definition path (ref : string) : Place :=
  let safe := bstring (filepath_Base (sbytes ref)) in
  if bool_decide (safe = "." ∨ safe = "/") then TheDir
  else if bool_decide (safe = "..") then ParentDir
  else InDir safe.

(** A name the file system takes: at most 255 bytes, none of them NUL. *)
Definition name_ok (n : string) : bool :=
  (len (sbytes n) <=? 255) && forallb (λ c, negb (Zbyte c =? 0)) (sbytes n).

(** [disk] is the outcome of staging the temporary file. *)
Definition fs_Put (disk : result unit) (now : Z) (ref : string) (data : bytes) : M Blobs unit := λ st,
  match st, disk with
  | None, _ => (st, Err os_error)
  | _, Err e => (st, Err e)
  | Some files, Ok _ =>
      match path ref with
      | TheDir | ParentDir => (st, Err media_ErrExists)
      | InDir n =>
          if negb (name_ok n) then (st, Err os_error)
          else match files !! n with
               | Some _ => (st, Err media_ErrExists)
               | None => (Some (<[n := mkFile data now]> files), Ok tt)
               end
      end
  end.

Definition fs_Get (ref : string) (st : Blobs) : result bytes :=
  match path ref, st with
  | InDir n, Some files => match files !! n with Some f => Ok (F_data f) | None => Err os_error end
  | _, _ => Err os_error
  end.

Definition fs_Exists (ref : string) (st : Blobs) : bool :=
  match path ref, st with
  | ParentDir, _ => true
  | TheDir, Some _ => true
  | InDir n, Some files => bool_decide (is_Some (files !! n))
  | _, None => false
  end.

(** [os.Remove] takes a file, or a directory that is empty; what is not there is no error. *)
Definition fs_Delete (ref : string) : M Blobs unit := λ st,
  match path ref, st with
  | ParentDir, _ => (st, Err os_error)
  | _, None => (st, Ok tt)
  | InDir n, Some files => (Some (delete n files), Ok tt)
  | TheDir, Some files => if bool_decide (files = ∅) then (None, Ok tt) else (st, Err os_error)
  end.

Definition tmpPrefix : string := ".upload-".

(** [os.ReadDir] sorts by name. *)
Definition by_name (a b : string) : Prop := Is_true (String.leb a b).
#[global] Instance by_name_dec : RelDecision by_name := λ a b, Is_true_dec (String.leb a b).
Definition older (t : Z) (files : gmap string File) (n : string) : bool :=
  negb (HasPrefix n tmpPrefix) && match files !! n with Some f => F_mtime f <? t | None => false end.
Definition fs_ListOlderThan (t : Z) (st : Blobs) : result (list string) :=
  match st with
  | None => Err os_error
  | Some files => Ok (filter (λ n, Is_true (older t files n)) (merge_sort by_name (map_to_list files).*1))
  end.

(** ** The service *)

Definition second : Z := 10 ^ 9.
Definition Unix (t : Z) : Z := t / second.
Definition ttl : Z := 15 * 60 * second.
Definition gcMinAge : Z := 15 * 60 * second.
Definition defaultMaxSize : Z := 4 * 2 ^ 30.

Fixpoint bytes_Contains (b sub : bytes) : bool :=
  bool_decide (sub `prefix_of` b) || match b with [] => false | _ :: b => bytes_Contains b sub end.

Definition eicar : bytes := sbytes "X5O!P%@AP[4\PZX54(P^)7CC)7}$EICAR-STANDARD-ANTIVIRUS-TEST-FILE!$H+H*".
(** [HeuristicScanner.Scan]. *)
Definition Scan (data : bytes) : result unit := if bytes_Contains data eicar then Err media_malware else Ok tt.

Record MediaService := mkMedia {
  S_secret : bytes;
  S_baseURL : string;
  S_maxSize : Z;
  S_scanner : option (bytes → result unit);
}.
Definition media_New (secret : bytes) (baseURL : string) : MediaService :=
  mkMedia secret (bstring (TrimRight slash (sbytes baseURL))) defaultMaxSize (Some Scan).
Definition WithMaxSize (n : Z) (s : MediaService) : MediaService :=
  if 0 <? n then mkMedia (S_secret s) (S_baseURL s) n (S_scanner s) else s.
Definition WithScanner (sc : option (bytes → result unit)) (s : MediaService) : MediaService :=
  mkMedia (S_secret s) (S_baseURL s) (S_maxSize s) sc.

Record Ticket := mkTicket { T_MediaRef : string; T_UploadURL : string; T_ExpiresAt : Z }.

Definition media_ref (id : Z) (suffix : bytes) : string :=
  "m" +:+ bstring (FormatInt id) +:+ "-" +:+ RawURL_EncodeToString suffix.

(** [%s|%s|%d|%d] *)
Definition signed_text (ref op : string) (size exp : Z) : bytes :=
  sbytes ref ++ [byteZ 124] ++ sbytes op ++ [byteZ 124] ++ FormatInt size ++ [byteZ 124] ++ FormatInt exp.
Definition sign (s : MediaService) (ref op : string) (size exp : Z) : string :=
  RawURL_EncodeToString (hmac_sha256 (S_secret s) (signed_text ref op size exp)).

Definition upload_query (exp size : Z) (sig : string) : bytes :=
  sbytes "exp=" ++ FormatInt exp ++ sbytes "&sz=" ++ FormatInt size ++ sbytes "&sig=" ++ sbytes sig.
Definition download_query (exp : Z) (sig : string) : bytes :=
  sbytes "exp=" ++ FormatInt exp ++ sbytes "&sig=" ++ sbytes sig.

(** The caller's id, the file's name and its type are not looked at. *)
Definition InitUpload (s : MediaService) (suffix : result bytes) (id now size limit : Z) : result Ticket :=
  if size <=? 0 then Err media_size_out_of_range
  else if S_maxSize s <? size then Err media_size_out_of_range
  else if (0 <? limit) && (limit <? size) then Err media_ErrTooLargeForTier
  else
    suffix ← suffix;
    let ref := media_ref id suffix in
    let exp := Unix (now + ttl) in
    let sig := sign s ref "put" size exp in
    Ok (mkTicket ref (S_baseURL s +:+ "/media/upload/" +:+ ref +:+ "?" +:+ bstring (upload_query exp size sig)) (exp * 1000)).

(** [auth] is the authorizer attached, if any; [W] is what it works on. *)
Definition DownloadURL {W} (s : MediaService) (auth : option (string → string → M W bool)) (st : Blobs)
    (now : Z) (userID ref : string) : M W (string * Z) :=
  guard_or (fs_Exists ref st) media_not_found;;
  match auth with
  | None => mret tt
  | Some MayFetch =>
      r ← attempt (MayFetch userID ref);
      match r with
      | Err _ => fail media_not_found
      | Ok ok => guard_or ok media_not_found
      end
  end;;
  let exp := Unix (now + ttl) in
  let sig := sign s ref "get" 0 exp in
  mret (S_baseURL s +:+ "/media/download/" +:+ ref +:+ "?" +:+ bstring (download_query exp sig), exp * 1000).

Definition verify (s : MediaService) (now : Z) (ref op expStr sizeStr sig : string) : result Z :=
  match ParseInt (sbytes expStr) with
  | NumOk exp =>
      size ← (if bool_decide (sizeStr = "") then Ok 0
              else match ParseInt (sbytes sizeStr) with NumOk size => Ok size | _ => Err media_bad_size end);
      if exp <? Unix now then Err media_url_expired
      else if bool_decide (sign s ref op size exp = sig) then Ok size else Err media_bad_signature
  | _ => Err media_bad_expiry
  end.

(** ** HTTP *)

Record Request := mkRequest {
  R_Method : string;
  R_Path : string;
  R_RawQuery : bytes;
  R_Body : bytes;
  R_Broken : bool;  (* the connection breaks after the body's bytes *)
}.
Record Response := mkResponse { Status : Z; ContentType : string; Disposition : string; Content : bytes }.
Definition http_Error (code : Z) : Response := mkResponse code "text/plain; charset=utf-8" "" [].

Definition unhex (c : byte) : option Z :=
  let z := Zbyte c in
  if (48 <=? z) && (z <=? 57) then Some (z - 48)
  else if (97 <=? z) && (z <=? 102) then Some (z - 87)
  else if (65 <=? z) && (z <=? 70) then Some (z - 55) else None.
Fixpoint QueryUnescape (b : bytes) : option bytes :=
  match b with
  | [] => Some []
  | c :: r =>
      if Zbyte c =? 37 then
        match r with
        | h :: l :: r' => x ← unhex h; y ← unhex l; cons (byteZ (16 * x + y)) <$> QueryUnescape r'
        | _ => None
        end
      else cons (if Zbyte c =? 43 then byteZ 32 else c) <$> QueryUnescape r
  end.

(** [strings.Cut] at one byte: what is before it and, if it is there, what is after. *)
Fixpoint Cut (c : byte) (b : bytes) : bytes * bytes :=
  match b with
  | [] => ([], [])
  | x :: b => if bool_decide (x = c) then ([], b) else let '(p, q) := Cut c b in (x :: p, q)
  end.

(** One piece of a query; a piece with a semicolon or a bad escape is dropped. *)
Definition query_pair (piece : bytes) : option (bytes * bytes) :=
  if bool_decide (byteZ 59 ∈ piece) || bool_decide (piece = []) then None
  else let '(k, v) := Cut (byteZ 61) piece in
       k ← QueryUnescape k; v ← QueryUnescape v; Some (k, v).
(** [r.URL.Query().Get(key)]. *)
Definition query_Get (raw : bytes) (key : string) : string :=
  match find (λ kv : bytes * bytes, bool_decide (kv.1 = sbytes key)) (omap query_pair (Split (byteZ 38) raw)) with
  | Some (_, v) => bstring v
  | None => ""
  end.

(** [strings.TrimPrefix]. *)
Definition cut_prefix (p s : string) : string :=
  if HasPrefix s p then bstring (drop (length (sbytes p)) (sbytes s)) else s.

Definition handleUpload (s : MediaService) (disk : result unit) (now : Z) (r : Request) : M Blobs Response :=
  if negb (bool_decide (R_Method r = "PUT")) && negb (bool_decide (R_Method r = "POST")) then mret (http_Error 405)
  else
    let ref := cut_prefix "/media/upload/" (R_Path r) in
    let q := query_Get (R_RawQuery r) in
    match verify s now ref "put" (q "exp") (q "sz") (q "sig") with
    | Err _ => mret (http_Error 403)
    | Ok size =>
        let limit := i64 (size + 1) in
        let body := ztake limit (R_Body r) in
        if (R_Broken r && (len (R_Body r) <? limit)) || (size <? len body) then mret (http_Error 413)
        else if negb (len body =? size) then mret (http_Error 400)
        else
          match match S_scanner s with Some scan => scan body | None => Ok tt end with
          | Err _ => mret (http_Error 422)
          | Ok _ =>
              put ← attempt (fs_Put disk now ref body);
              match put with
              | Ok _ => mret (mkResponse 201 "text/plain; charset=utf-8" "" (sbytes ref))
              | Err media_ErrExists => mret (http_Error 409)
              | Err _ => mret (http_Error 500)
              end
          end
    end.

(** The image types [http.DetectContentType] can give that are served inline.  Its other
    signatures start with other bytes, so these four tests decide. *)
Definition masked_webp (data : bytes) : bool :=
  bool_decide (sbytes "RIFF" `prefix_of` data) && bool_decide (sbytes "WEBPVP" `prefix_of` zdrop 8 data).
Definition imageContentType (data : bytes) : string :=
  if bool_decide (sbytes "GIF87a" `prefix_of` data) || bool_decide (sbytes "GIF89a" `prefix_of` data) then "image/gif"
  else if masked_webp data then "image/webp"
  else if bool_decide ((byteZ <$> [137; 80; 78; 71; 13; 10; 26; 10]) `prefix_of` data) then "image/png"
  else if bool_decide ((byteZ <$> [255; 216; 255]) `prefix_of` data) then "image/jpeg"
  else "".

Definition handleDownload (s : MediaService) (now : Z) (r : Request) (st : Blobs) : Response :=
  let ref := cut_prefix "/media/download/" (R_Path r) in
  let q := query_Get (R_RawQuery r) in
  match verify s now ref "get" (q "exp") "" (q "sig") with
  | Err _ => http_Error 403
  | Ok _ =>
      match fs_Get ref st with
      | Err _ => http_Error 404
      | Ok data =>
          let img := imageContentType data in
          if bool_decide (img = "") then mkResponse 200 "application/octet-stream" "attachment" data
          else mkResponse 200 img "inline" data
      end
  end.

(** ** The collector *)

(** [refs] answers whether a live message points at a reference. *)
Fixpoint delete_each (used : string → result bool) (refs : list string) : M Blobs unit :=
  match refs with
  | [] => mret tt
  | ref :: rest =>
      st ← get;
      (if bool_decide (ref = "") || negb (fs_Exists ref st) then mret tt
       else match used ref with
            | Err _ => mret tt
            | Ok true => mret tt
            | Ok false => attempt (fs_Delete ref);; mret tt
            end);;
      delete_each used rest
  end.
Definition media_DeleteIfUnreferenced (refs : option (string → result bool)) (reason : string) (l : list string) : M Blobs unit :=
  match refs with None => mret tt | Some used => delete_each used l end.

(** The sweep over what was listed; [stop] is how many objects are looked at before the
    context is cancelled, if it is. *)
Fixpoint sweep_loop (used : string → result bool) (stop : option nat) (refs : list string) (n : Z) : M Blobs Z :=
  match refs with
  | [] => mret n
  | ref :: rest =>
      match stop with
      | Some O => fail other_error
      | _ =>
          let stop := pred <$> stop in
          match used ref with
          | Err _ => sweep_loop used stop rest n
          | Ok true => sweep_loop used stop rest n
          | Ok false =>
              d ← attempt (fs_Delete ref);
              match d with
              | Err _ => sweep_loop used stop rest n
              | Ok _ => sweep_loop used stop rest (n + 1)
              end
          end
      end
  end.
Definition SweepOrphans (refs : option (string → result bool)) (now : Z) (stop : option nat) : M Blobs Z :=
  match refs with
  | None => mret 0
  | Some used =>
      st ← get;
      l ← lift (fs_ListOlderThan (now - gcMinAge) st);
      sweep_loop used stop l 0
  end.

(** ** Who may download *)

Section gate.
Context `{RangeOrder}.

(** [AvatarRefExists] of the in-memory store. *)
Definition AvatarRefExists (ref : string) (us : gmap string User) : bool :=
  if bool_decide (ref = "") then false
  else existsb (λ e, bool_decide (User_AvatarRef e.2 = ref)) (range_map us).

Definition mediaAuthChatLimit : Z := 32.

(** [tk c] are the readings of the call about chat [c]; each is asked about once. *)
Fixpoint any_member (tk : string → Ticks * Ticks) (userID : string) (cs : list string) : M Service bool :=
  match cs with
  | [] => mret false
  | c :: cs =>
      r ← attempt (IsMember (tk c).1 (tk c).2 c userID);
      match r with
      | Ok true => mret true
      | _ => any_member tk userID cs
      end
  end.

(** [us] is the user store, if there is one; [resolver] says whether the message store can
    name the chats of a reference. *)
Definition MayFetch (us : option (gmap string User)) (resolver : bool) (tk : string → Ticks * Ticks)
    (userID ref : string) : M Service bool :=
  if bool_decide (userID = "") || bool_decide (ref = "") then mret false
  else if match us with Some us => AvatarRefExists ref us | None => false end then mret true
  else if negb resolver then mret true
  else
    s ← get;
    cs ← lift (MediaRefChats ref mediaAuthChatLimit (cdb s)).2;
    any_member tk userID cs.

(** The collector asks the message log. *)
Definition log_refs (db : ChatDB) : string → result bool := λ ref, (MediaRefExists ref db).2.
End gate.
