(* ===== verification/MediaRules.v ===== *)
(** * Media: what tickets, downloads and the collector guarantee

    Theorems about Media.v: a ticket's upload and the downloads after it, what may be in the
    store at all, the exact effect of the collector on its own and behind the message
    service, the download gate, and where references that are not plain names, avatars and
    leaked references break the promises. *)

From S2P Require Import Prelude Bytes Base64 GoStrings Strconv Sha Model EventBus MemChats MemMessages MessageLog ChatService MessageService MemAccounts Media.

(** ** References and signed texts *)

(** The characters references, numbers and signatures are made of. *)
Definition word_char (c : byte) : bool :=
  let z := Zbyte c in
  is_digit c || ((65 <=? z) && (z <=? 90)) || ((97 <=? z) && (z <=? 122)) || (z =? 45) || (z =? 95).
Abbreviation word := (Forall (λ c, word_char c = true)).

Lemma word_avoids z b : word_char (byteZ z) = false → word b → Forall (λ c, c ≠ byteZ z) b.
Proof. intros Hz Hw. eapply Forall_impl; [exact Hw|]. intros c Hc ->. congruence. Qed.

Lemma word_url_char v : 0 ≤ v < 64 → word_char (url_char v) = true.
Proof. intros Hv. apply (seqZ_forall (λ v, word_char (url_char v) = true) 0 64); [by vm_compute | lia]. Qed.

Lemma word_raw src : word (raw_encode url_char src).
Proof.
  assert (∀ a b c, 0 ≤ a < 256 → 0 ≤ b < 256 → 0 ≤ c < 256 →
    let '(d0, d1, d2, d3) := b64_split a b c in word (url_char <$> [d0; d1; d2; d3])) as Hq.
  { intros a b c Ha Hb Hc. pose proof (b64_split_range a b c Ha Hb Hc) as Hr.
    destruct (b64_split a b c) as [[[d0 d1] d2] d3]. destruct Hr as (? & ? & ? & ?).
    repeat constructor; by apply word_url_char. }
  pose proof Zbyte_range as Hz.
  induction src as [|a|a b|a b c src IH] using bytes_ind3; [constructor|..]; cbn [raw_encode].
  - specialize (Hq (Zbyte a) 0 0 (Hz a) ltac:(lia) ltac:(lia)). destruct (b64_split _ _ _) as [[[d0 d1] d2] d3].
    rewrite !fmap_cons, !Forall_cons in Hq. repeat constructor; tauto.
  - specialize (Hq (Zbyte a) (Zbyte b) 0 (Hz a) (Hz b) ltac:(lia)). destruct (b64_split _ _ _) as [[[d0 d1] d2] d3].
    rewrite !fmap_cons, !Forall_cons in Hq. repeat constructor; tauto.
  - specialize (Hq _ _ _ (Hz a) (Hz b) (Hz c)). destruct (b64_split _ _ _) as [[[d0 d1] d2] d3].
    rewrite !fmap_cons, !Forall_cons in Hq. repeat constructor; tauto.
Qed.

Lemma word_FormatInt z : word (FormatInt z).
Proof.
  assert (∀ n, 0 ≤ n → word (FormatUint n)) as Hu.
  { intros n Hn. eapply Forall_impl; [by apply FormatUint_digits|]. intros c Hc. unfold word_char. by rewrite Hc. }
  unfold FormatInt. destruct (Z.ltb_spec z 0); [|apply Hu; lia].
  constructor; [by vm_compute | apply Hu; lia].
Qed.

Lemma word_ref id suffix : word (sbytes (media_ref id suffix)).
Proof.
  unfold media_ref. rewrite !sbytes_app. unfold RawURL_EncodeToString. rewrite !sbytes_bstring.
  repeat first [apply Forall_app; split | apply word_FormatInt | apply word_raw | by repeat constructor].
Qed.

(** A name without separators stands for itself. *)
Lemma path_word n : n ≠ "" → word (sbytes n) → path n = InDir n.
Proof.
  intros Hn Hw. pose proof (word_avoids 47 _ eq_refl Hw) as Hs. unfold path, filepath_Base.
  assert (sbytes n ≠ []) as Hne by (intros E; apply Hn; by rewrite <- (bstring_sbytes n), E).
  destruct (sbytes n) as [|c b] eqn:E; [done|]. fold slash in Hs.
  rewrite (TrimRight_none slash) by exact Hs. rewrite (Split_none slash) by exact Hs. cbn [last default from_option id].
  rewrite <- E, bstring_sbytes. rewrite !bool_decide_false; [done|..].
  - intros ->. rewrite <- E in Hw. by apply Forall_cons in Hw as [? _].
  - intros [-> | ->]; rewrite <- E in Hw; by apply Forall_cons in Hw as [? _].
Qed.

Lemma media_ref_path id suffix : path (media_ref id suffix) = InDir (media_ref id suffix).
Proof. apply path_word; [done | apply word_ref]. Qed.

(** Reference names are short. *)
Lemma length_digits fuel n : (length (digits fuel n []) ≤ fuel)%nat.
Proof.
  revert n. induction fuel as [|fuel IH]; intros n; [done|]. cbn [digits].
  destruct (n <? 10); [simpl; lia|]. rewrite digits_app, length_app. specialize (IH (n / 10)). simpl. lia.
Qed.
Lemma length_FormatInt z : 0 ≤ z < 2 ^ 63 → (length (FormatInt z) ≤ 64)%nat.
Proof.
  intros Hz. unfold FormatInt. destruct (Z.ltb_spec z 0); [lia|]. unfold FormatUint.
  etrans; [apply length_digits|]. destruct (decide (z = 0)) as [->|]; [by vm_compute; lia|].
  assert (Z.log2 z < 63) by (apply Z.log2_lt_pow2; lia). pose proof (Z.log2_nonneg z). lia.
Qed.
Lemma length_raw char src : (length (raw_encode char src) ≤ 2 * length src)%nat.
Proof.
  induction src as [|a|a b|a b c src IH] using bytes_ind3; [done|..]; cbn [raw_encode];
    destruct (b64_split _ _ _) as [[[d0 d1] d2] d3]; simpl in *; lia.
Qed.

Lemma media_ref_name_ok id suffix : 0 ≤ id < 2 ^ 63 → length suffix = 16%nat → name_ok (media_ref id suffix) = true.
Proof.
  intros Hid Hs. unfold name_ok. apply andb_true_iff. split.
  - apply Z.leb_le. unfold media_ref. rewrite !sbytes_app. unfold RawURL_EncodeToString. rewrite !sbytes_bstring.
    unfold len. rewrite !length_app. pose proof (length_FormatInt id Hid). pose proof (length_raw url_char suffix).
    simpl. lia.
  - apply forallb_forall. intros c Hc%list_elem_of_In. pose proof (word_ref id suffix) as Hw.
    rewrite Forall_forall in Hw. apply Hw in Hc. apply negb_true_iff, Z.eqb_neq. intros E.
    unfold word_char, is_digit in Hc. by rewrite E in Hc.
Qed.

(** *** The signed text determines what was signed *)

Definition bar_byte : byte := byteZ 124.

Lemma bar_split (a b x y : bytes) :
  Forall (λ c, c ≠ bar_byte) x → Forall (λ c, c ≠ bar_byte) y →
  a ++ bar_byte :: x = b ++ bar_byte :: y → a = b ∧ x = y.
Proof.
  intros Hx Hy. revert b. induction a as [|c a IH]; intros [|d b] E; simpl in *.
  - by injection E.
  - injection E as _ ->. apply Forall_app in Hx as [_ Hx]. by apply Forall_cons in Hx as [? _].
  - injection E as _ <-. apply Forall_app in Hy as [_ Hy]. by apply Forall_cons in Hy as [? _].
  - injection E as -> E. destruct (IH b E) as [-> ->]. done.
Qed.

Lemma FormatInt_inj x y : - 2 ^ 63 ≤ x < 2 ^ 63 → - 2 ^ 63 ≤ y < 2 ^ 63 → FormatInt x = FormatInt y → x = y.
Proof. intros Hx Hy E. pose proof (ParseInt_FormatInt x Hx). rewrite E, ParseInt_FormatInt in H by done. congruence. Qed.

Definition int64 (z : Z) : Prop := - 2 ^ 63 ≤ z < 2 ^ 63.

Lemma signed_text_inj ref op size exp ref' op' size' exp' :
  word (sbytes op) → word (sbytes op') → int64 size → int64 size' → int64 exp → int64 exp' →
  signed_text ref op size exp = signed_text ref' op' size' exp' → ref = ref' ∧ op = op' ∧ size = size' ∧ exp = exp'.
Proof.
  intros Hop Hop' Hs Hs' He He' E.
  assert (∀ r o s e, signed_text r o s e =
    ((sbytes r ++ bar_byte :: sbytes o) ++ bar_byte :: FormatInt s) ++ bar_byte :: FormatInt e) as Hst.
  { intros. unfold signed_text. fold bar_byte. cbn [app]. by rewrite <- !app_assoc. }
  assert (∀ b, word b → Forall (λ c, c ≠ bar_byte) b) as Hnb by (intros b; by apply word_avoids).
  rewrite !Hst in E. apply bar_split in E as [E Ee]; [|apply Hnb, word_FormatInt..].
  apply bar_split in E as [E Es]; [|apply Hnb, word_FormatInt..].
  apply bar_split in E as [Er Eo]; [|by apply Hnb..].
  split_and!; [| |by apply FormatInt_inj..].
  - by rewrite <- (bstring_sbytes ref), Er, bstring_sbytes.
  - by rewrite <- (bstring_sbytes op), Eo, bstring_sbytes.
Qed.

(** *** Queries *)

Lemma QueryUnescape_word b : word b → QueryUnescape b = Some b.
Proof.
  induction 1 as [|c b Hc _ IH]; [done|]. cbn [QueryUnescape]. rewrite IH.
  assert (Zbyte c ≠ 37 ∧ Zbyte c ≠ 43) as [H1 H2].
  { split; intros E; unfold word_char, is_digit in Hc; by rewrite E in Hc. }
  by rewrite (proj2 (Z.eqb_neq _ _) H1), (proj2 (Z.eqb_neq _ _) H2).
Qed.

Lemma Cut_app c p q : Forall (λ x, x ≠ c) p → Cut c (p ++ c :: q) = (p, q).
Proof.
  induction 1 as [|x p Hx _ IH]; simpl; [by rewrite bool_decide_true|]. by rewrite bool_decide_false, IH.
Qed.

(** [k=v] *)
Definition field (k : string) (v : bytes) : bytes := sbytes k ++ byteZ 61 :: v.

Lemma query_pair_field k v : k ≠ "" → word (sbytes k) → word v → query_pair (field k v) = Some (sbytes k, v).
Proof.
  intros Hne Hk Hv. unfold query_pair, field. rewrite bool_decide_false, bool_decide_false; cbn [orb].
  - rewrite Cut_app by by apply word_avoids. cbn. by rewrite !QueryUnescape_word.
  - by destruct (sbytes k).
  - rewrite elem_of_app, elem_of_cons. intros [Hin|[E|Hin]]; [| by apply (f_equal Zbyte) in E |].
    + rewrite Forall_forall in Hk. by apply Hk in Hin.
    + rewrite Forall_forall in Hv. by apply Hv in Hin.
Qed.

Lemma field_plain k v : word (sbytes k) → word v → Forall (λ c, c ≠ byteZ 38) (field k v).
Proof.
  intros Hk Hv. unfold field. apply Forall_app. split; [by apply word_avoids|].
  constructor; [by intros E%(f_equal Zbyte)|]. by apply word_avoids.
Qed.

Lemma query_Get_hd k v rest : k ≠ "" → word (sbytes k) → word v → query_Get (field k v ++ byteZ 38 :: rest) k = bstring v.
Proof.
  intros Hne Hk Hv. unfold query_Get. rewrite Split_app by by apply field_plain. cbn [omap list_omap].
  rewrite query_pair_field by done. cbn [find fst]. by rewrite bool_decide_true.
Qed.
Lemma query_Get_last k v : k ≠ "" → word (sbytes k) → word v → query_Get (field k v) k = bstring v.
Proof.
  intros Hne Hk Hv. unfold query_Get. rewrite Split_none by by apply field_plain. cbn [omap list_omap].
  rewrite query_pair_field by done. cbn [find fst]. by rewrite bool_decide_true.
Qed.
Lemma query_Get_tl k k' v rest :
  k ≠ "" → word (sbytes k) → word v → k ≠ k' → query_Get (field k v ++ byteZ 38 :: rest) k' = query_Get rest k'.
Proof.
  intros Hne Hk Hv Hkk. unfold query_Get. rewrite Split_app by by apply field_plain. cbn [omap list_omap].
  rewrite query_pair_field by done. cbn [find fst]. rewrite bool_decide_false; [done|].
  intros E. apply Hkk. by rewrite <- (bstring_sbytes k), E, bstring_sbytes.
Qed.

Lemma word_sign s ref op size exp : word (sbytes (sign s ref op size exp)).
Proof. unfold sign, RawURL_EncodeToString. rewrite sbytes_bstring. apply word_raw. Qed.

Lemma word_eval b : forallb word_char b = true → word b.
Proof. intros Hb. apply Forall_forall. intros c Hc. rewrite forallb_forall in Hb. by apply Hb, list_elem_of_In. Qed.
Ltac word_solve := first [done | apply word_sign | apply word_FormatInt | apply word_ref | by apply word_eval].

Lemma upload_query_Get s ref op exp size :
  let q := query_Get (upload_query exp size (sign s ref op size exp)) in
  q "exp" = bstring (FormatInt exp) ∧ q "sz" = bstring (FormatInt size) ∧ q "sig" = sign s ref op size exp.
Proof.
  unfold upload_query. set (sig := sign _ _ _ _ _).
  change (let q := query_Get (field "exp" (FormatInt exp) ++ byteZ 38 :: field "sz" (FormatInt size) ++ byteZ 38 :: field "sig" (sbytes sig)) in
    q "exp" = bstring (FormatInt exp) ∧ q "sz" = bstring (FormatInt size) ∧ q "sig" = sig).
  cbv zeta. split_and!.
  - apply query_Get_hd; word_solve.
  - rewrite query_Get_tl by word_solve. apply query_Get_hd; word_solve.
  - rewrite !query_Get_tl by word_solve. rewrite query_Get_last by word_solve. apply bstring_sbytes.
Qed.

Lemma download_query_Get s ref op size exp :
  let q := query_Get (download_query exp (sign s ref op size exp)) in
  q "exp" = bstring (FormatInt exp) ∧ q "sig" = sign s ref op size exp.
Proof.
  unfold download_query. set (sig := sign _ _ _ _ _).
  change (let q := query_Get (field "exp" (FormatInt exp) ++ byteZ 38 :: field "sig" (sbytes sig)) in
    q "exp" = bstring (FormatInt exp) ∧ q "sig" = sig).
  cbv zeta. split; [apply query_Get_hd; word_solve|]. rewrite query_Get_tl by word_solve.
  rewrite query_Get_last by word_solve. apply bstring_sbytes.
Qed.

(** ** Tickets *)

(** The request a client makes of a URL of the service. *)
Definition request_at (s : MediaService) (method url : string) (body : bytes) : Request :=
  let '(p, q) := Cut (byteZ 63) (sbytes (cut_prefix (S_baseURL s) url)) in mkRequest method (bstring p) q body false.

Definition scanned (s : MediaService) (data : bytes) : Prop :=
  match S_scanner s with Some scan => scan data = Ok tt | None => True end.

Lemma prefix_self p x : String.prefix p (p +:+ x) = true.
Proof. induction p as [|a p IH]; [by destruct x|]. change (String a p +:+ x) with (String a (p +:+ x)). cbn. by destruct (ascii_dec a a). Qed.
Lemma cut_prefix_app p x : cut_prefix p (p +:+ x) = x.
Proof.
  unfold cut_prefix, HasPrefix. rewrite prefix_self, sbytes_app, drop_app_length. apply bstring_sbytes.
Qed.

Lemma request_at_url s method p ref q body :
  word (sbytes ref) → forallb (λ c, negb (bool_decide (c = byteZ 63))) (sbytes p) = true →
  request_at s method (S_baseURL s +:+ p +:+ ref +:+ "?" +:+ bstring q) body = mkRequest method (p +:+ ref) q body false.
Proof.
  intros Hr Hp. unfold request_at. rewrite cut_prefix_app, !sbytes_app, sbytes_bstring.
  rewrite app_assoc. change (sbytes "?" ++ q) with (byteZ 63 :: q). rewrite Cut_app.
  - by rewrite <- sbytes_app, bstring_sbytes.
  - apply Forall_app. split; [|by apply word_avoids].
    apply Forall_forall. intros c Hc. rewrite forallb_forall in Hp. apply list_elem_of_In, Hp in Hc.
    by apply negb_true_iff, bool_decide_eq_false in Hc.
Qed.

Lemma FormatInt_string z : bstring (FormatInt z) ≠ "".
Proof.
  intros E%(f_equal sbytes). rewrite sbytes_bstring in E. unfold FormatInt in E.
  destruct (z <? 0); [done|]. by apply FormatUint_nonempty in E.
Qed.

Lemma verify_put s now ref size exp :
  int64 size → int64 exp → Unix now ≤ exp →
  verify s now ref "put" (bstring (FormatInt exp)) (bstring (FormatInt size)) (sign s ref "put" size exp) = Ok size.
Proof.
  intros Hs He Hn. unfold verify. rewrite !sbytes_bstring, !ParseInt_FormatInt by done.
  rewrite bool_decide_false by apply FormatInt_string. cbn [mbind result_bind].
  rewrite (proj2 (Z.ltb_ge _ _)) by done. by rewrite bool_decide_true.
Qed.
Lemma verify_get s now ref exp :
  int64 exp → Unix now ≤ exp → verify s now ref "get" (bstring (FormatInt exp)) "" (sign s ref "get" 0 exp) = Ok 0.
Proof.
  intros He Hn. unfold verify. rewrite !sbytes_bstring, !ParseInt_FormatInt by done.
  rewrite bool_decide_true by done. cbn [mbind result_bind].
  rewrite (proj2 (Z.ltb_ge _ _)) by done. by rewrite bool_decide_true.
Qed.

Lemma InitUpload_Ok s suffix id now size limit t :
  InitUpload s suffix id now size limit = Ok t →
  0 < size ≤ S_maxSize s ∧ (0 < limit → size ≤ limit) ∧ ∃ sfx, suffix = Ok sfx ∧ T_MediaRef t = media_ref id sfx ∧
    let exp := Unix (now + ttl) in
    T_UploadURL t = S_baseURL s +:+ "/media/upload/" +:+ T_MediaRef t +:+ "?" +:+
      bstring (upload_query exp size (sign s (T_MediaRef t) "put" size exp)).
Proof.
  unfold InitUpload. destruct (Z.leb_spec size 0); [done|]. destruct (Z.ltb_spec (S_maxSize s) size); [done|].
  destruct ((0 <? limit) && (limit <? size)) eqn:El; [done|]. destruct suffix as [sfx|]; [|done].
  intros [= <-]. split_and!; [lia|lia| |by exists sfx].
  intros Hl. destruct (Z.ltb_spec 0 limit), (Z.ltb_spec limit size); [done|lia..].
Qed.

(** What an upload under a valid signature does. *)
Lemma handleUpload_signed s disk now r ref size :
  R_Method r = "PUT" → cut_prefix "/media/upload/" (R_Path r) = ref → R_Broken r = false → 0 < size < 2 ^ 63 - 1 →
  (let q := query_Get (R_RawQuery r) in verify s now ref "put" (q "exp") (q "sz") (q "sig") = Ok size) →
  ∀ st, handleUpload s disk now r st =
    if negb (len (R_Body r) =? size) then (st, Ok (http_Error (if size <? len (R_Body r) then 413 else 400)))
    else match match S_scanner s with Some scan => scan (R_Body r) | None => Ok tt end with
         | Err _ => (st, Ok (http_Error 422))
         | Ok _ =>
             match fs_Put disk now ref (R_Body r) st with
             | (st', Ok _) => (st', Ok (mkResponse 201 "text/plain; charset=utf-8" "" (sbytes ref)))
             | (st', Err media_ErrExists) => (st', Ok (http_Error 409))
             | (st', Err _) => (st', Ok (http_Error 500))
             end
         end.
Proof.
  intros Hm Href Hb Hs Hv st. unfold handleUpload. rewrite Hm, Href, Hb. cbv zeta in Hv. cbn [negb andb orb bool_decide].
  rewrite bool_decide_true by done. cbn [negb andb orb]. rewrite Hv, i64_small by lia.
  destruct (Z.eqb_spec (len (R_Body r)) size) as [Hl|Hl]; cbn [negb].
  - assert (ztake (size + 1) (R_Body r) = R_Body r) as -> by (apply take_ge; unfold len in *; lia).
    rewrite Hl, Z.ltb_irrefl, Z.eqb_refl. cbn [negb].
    destruct (match S_scanner s with Some _ => _ | None => _ end) as [|]; [|done].
    rewrite M_bind_eq. unfold attempt. destruct (fs_Put _ _ _ _ _) as [st' [?|e]]; [done|]. by destruct e.
  - destruct (Z.ltb_spec size (len (R_Body r))).
    + rewrite (len_ztake (size + 1)) by lia. by rewrite (proj2 (Z.ltb_lt _ _)) by lia.
    + assert (ztake (size + 1) (R_Body r) = R_Body r) as -> by (apply take_ge; unfold len in *; lia).
      rewrite (proj2 (Z.ltb_ge _ _)) by lia. by rewrite (proj2 (Z.eqb_neq _ _)).
Qed.

Lemma imageContentType_cases data :
  imageContentType data ∈ [""; "image/gif"; "image/webp"; "image/png"; "image/jpeg"].
Proof. unfold imageContentType. repeat case_match; set_solver. Qed.

(** A request at a ticket's own URL. *)
Lemma upload_at_ticket s suffix id now size limit t disk now1 body st :
  S_maxSize s < 2 ^ 63 - 1 → int64 (Unix (now + ttl)) → InitUpload s suffix id now size limit = Ok t →
  Unix now1 ≤ Unix (now + ttl) →
  handleUpload s disk now1 (request_at s "PUT" (T_UploadURL t) body) st =
    if negb (len body =? size) then (st, Ok (http_Error (if size <? len body then 413 else 400)))
    else match match S_scanner s with Some scan => scan body | None => Ok tt end with
         | Err _ => (st, Ok (http_Error 422))
         | Ok _ =>
             match fs_Put disk now1 (T_MediaRef t) body st with
             | (st', Ok _) => (st', Ok (mkResponse 201 "text/plain; charset=utf-8" "" (sbytes (T_MediaRef t))))
             | (st', Err media_ErrExists) => (st', Ok (http_Error 409))
             | (st', Err _) => (st', Ok (http_Error 500))
             end
         end.
Proof.
  intros Hmax He (Hsize & Hlim & sfx & -> & Href & Hurl)%InitUpload_Ok Hn. rewrite Hurl.
  rewrite request_at_url; [|rewrite Href; apply word_ref|done].
  destruct (upload_query_Get s (T_MediaRef t) "put" (Unix (now + ttl)) size) as (Hqe & Hqs & Hqg).
  erewrite handleUpload_signed; [done|done|cbn [R_Path]; apply cut_prefix_app|done| |].
  - cbn; lia.
  - cbn [R_RawQuery]. cbv zeta in *. rewrite Hqe, Hqs, Hqg. apply verify_put; [unfold int64; lia|done..].
Qed.

(** A ticket is honoured, once.  Until it expires, a body of exactly the declared
    size that passes the scan is stored under the ticket's reference and acknowledged; no
    upload under the same ticket changes the object after that.  Whoever is then given a
    download URL gets, until that expires, exactly those bytes, as an attachment or, if they
    are an image, inline under one of four image types. *)
Theorem ticket_honoured {W} s suffix id now size limit t now1 body files :
  0 ≤ id < 2 ^ 63 → length suffix = 16%nat → S_maxSize s < 2 ^ 63 - 1 → int64 (Unix (now + ttl)) →
  InitUpload s (Ok suffix) id now size limit = Ok t →
  Unix now1 ≤ Unix (now + ttl) → len body = size → scanned s body → files !! T_MediaRef t = None →
  let upload := request_at s "PUT" (T_UploadURL t) in
  let files' := <[T_MediaRef t := mkFile body now1]> files in
  handleUpload s (Ok tt) now1 (upload body) (Some files) =
    (Some files', Ok (mkResponse 201 "text/plain; charset=utf-8" "" (sbytes (T_MediaRef t)))) ∧
  (∀ disk now2 body2, Unix now2 ≤ Unix (now + ttl) → (handleUpload s disk now2 (upload body2) (Some files')).1 = Some files') ∧
  ∀ auth (w w' : W) now2 now3 u url e,
    DownloadURL s auth (Some files') now2 u (T_MediaRef t) w = (w', Ok (url, e)) →
    int64 (Unix (now2 + ttl)) → Unix now3 ≤ Unix (now2 + ttl) →
    let got := handleDownload s now3 (request_at s "GET" url []) (Some files') in
    Status got = 200 ∧ Content got = body ∧
    (Disposition got = "attachment" ∨
     Disposition got = "inline" ∧ ContentType got ∈ ["image/gif"; "image/webp"; "image/png"; "image/jpeg"]).
Proof.
  intros Hid Hsl Hmax He Hinit Hn Hlen Hscan Hnew upload files'.
  destruct (InitUpload_Ok _ _ _ _ _ _ _ Hinit) as (_ & _ & sfx & [= <-] & Href & _).
  pose proof (media_ref_path id suffix) as Hpath. pose proof (media_ref_name_ok id suffix Hid Hsl) as Hname.
  rewrite <- Href in Hpath, Hname. split_and!.
  - unfold upload. erewrite upload_at_ticket by done. rewrite Hlen, Z.eqb_refl. cbn [negb].
    assert (match S_scanner s with Some scan => scan body | None => Ok tt end = Ok tt) as ->.
    { unfold scanned in Hscan. by destruct (S_scanner s). }
    unfold fs_Put. by rewrite Hpath, Hname, Hnew.
  - intros disk now2 body2 Hn2. unfold upload. erewrite upload_at_ticket by done.
    destruct (negb _); [done|]. destruct (match S_scanner s with Some _ => _ | None => _ end); [|done].
    unfold fs_Put. destruct disk as [[]|e]; [|by destruct e]. rewrite Hpath, Hname. cbn [negb].
    unfold files'. by rewrite lookup_insert_eq.
  - intros auth w w' now2 now3 u url e Hd He2 Hn3.
    assert (url = S_baseURL s +:+ "/media/download/" +:+ T_MediaRef t +:+ "?" +:+
      bstring (download_query (Unix (now2 + ttl)) (sign s (T_MediaRef t) "get" 0 (Unix (now2 + ttl))))) as ->.
    { unfold DownloadURL in Hd. rewrite M_bind_eq in Hd. destruct (guard_or _ _ w) as [w1 [[]|]]; [|done].
      apply M_bind_Ok in Hd as (w2 & [] & _ & Hd). by injection Hd. }
    rewrite request_at_url; [|rewrite Href; apply word_ref|done]. unfold handleDownload. cbn [R_Path R_RawQuery].
    rewrite cut_prefix_app. destruct (download_query_Get s (T_MediaRef t) "get" 0 (Unix (now2 + ttl))) as [-> ->].
    rewrite verify_get by done. unfold fs_Get. rewrite Hpath. unfold files'. rewrite lookup_insert_eq.
    pose proof (imageContentType_cases body) as Hi. cbn [F_data]. case_bool_decide; cbn; [by auto|].
    split_and!; [done..|]. right. by apply elem_of_cons in Hi as [?|Hi].
Qed.

(** ** What can be in the store *)

(** The store with the texts the service has signed and the tickets it has issued, each with
    the size declared and the caller's ceiling. *)
Record Ledger := mkLedger { l_blobs : Blobs; l_signed : list bytes; l_tickets : list (string * Z * Z) }.

(** The size and the expiry a request claims to be signed for. *)
Definition claimed (r : Request) : option (Z * Z) :=
  let q := query_Get (R_RawQuery r) in
  match ParseInt (sbytes (q "exp")) with
  | NumOk exp =>
      if bool_decide (q "sz" = "") then Some (0, exp)
      else match ParseInt (sbytes (q "sz")) with NumOk size => Some (size, exp) | _ => None end
  | _ => None
  end.
(** An upload does not carry the signature of a text the service never signed. *)
Definition unforged (s : MediaService) (signed : list bytes) (r : Request) : Prop :=
  let ref := cut_prefix "/media/upload/" (R_Path r) in
  ∀ size exp, claimed r = Some (size, exp) → query_Get (R_RawQuery r) "sig" = sign s ref "put" size exp →
    signed_text ref "put" size exp ∈ signed.

Inductive media_step (s : MediaService) : Ledger → Ledger → Prop :=
  | step_ticket suffix id now size limit t b tx tk :
      0 ≤ now + ttl < 2 ^ 63 → InitUpload s suffix id now size limit = Ok t →
      media_step s (mkLedger b tx tk)
        (mkLedger b (signed_text (T_MediaRef t) "put" size (Unix (now + ttl)) :: tx) ((T_MediaRef t, size, limit) :: tk))
  | step_url ref now b tx tk :
      0 ≤ now + ttl < 2 ^ 63 →
      media_step s (mkLedger b tx tk) (mkLedger b (signed_text ref "get" 0 (Unix (now + ttl)) :: tx) tk)
  | step_upload disk now r b tx tk :
      unforged s tx r → media_step s (mkLedger b tx tk) (mkLedger (handleUpload s disk now r b).1 tx tk)
  | step_collect refs reason l b tx tk :
      media_step s (mkLedger b tx tk) (mkLedger (media_DeleteIfUnreferenced refs reason l b).1 tx tk)
  | step_sweep refs now stop b tx tk :
      media_step s (mkLedger b tx tk) (mkLedger (SweepOrphans refs now stop b).1 tx tk).

Lemma ParseInt_int64 b z : ParseInt b = NumOk z → int64 z.
Proof.
  unfold ParseInt, int64. destruct b as [|c rest]; [done|].
  assert (∀ d n, 0 ≤ n → match uint_loop n d with NumOk un | NumRange un => 0 ≤ un | NumSyntax => True end) as Hu.
  { induction d as [|x d IH]; intros n Hn; cbn [uint_loop]; [done|]. pose proof (Zbyte_range x).
    destruct (negb (is_digit x)) eqn:Ed; [done|]. destruct (2 ^ 64 <=? _); [lia|]. apply IH.
    apply negb_false_iff in Ed. unfold is_digit in Ed. lia. }
  set (d := if bool_decide (c = byteZ 45) || bool_decide (c = byteZ 43) then rest else c :: rest).
  assert (match ParseUint d with NumOk un | NumRange un => 0 ≤ un | NumSyntax => True end) as Hd.
  { unfold ParseUint. destruct (len d =? 0); [done|]. by apply Hu. }
  destruct (bool_decide (c = byteZ 45)); destruct (ParseUint d) as [un| |un]; cbn [negb andb]; try done.
  all: repeat case_match; intros [= <-]; lia.
Qed.

Lemma verify_Ok s now ref op r size :
  let q := query_Get (R_RawQuery r) in
  verify s now ref op (q "exp") (q "sz") (q "sig") = Ok size →
  ∃ exp, claimed r = Some (size, exp) ∧ int64 size ∧ int64 exp ∧ q "sig" = sign s ref op size exp.
Proof.
  cbv zeta. unfold verify, claimed. destruct (ParseInt (sbytes (_ "exp"))) as [exp| |] eqn:Ee; [|done..].
  apply ParseInt_int64 in Ee. destruct (bool_decide (_ = "")).
  - cbn [mbind result_bind]. destruct (exp <? Unix now); [done|].
    case_bool_decide; [|done]. intros [= <-]. exists exp. by split_and!; [|unfold int64; lia|..].
  - destruct (ParseInt (sbytes (_ "sz"))) as [sz| |] eqn:Ez; [|done..]. apply ParseInt_int64 in Ez.
    cbn [mbind result_bind]. destruct (exp <? Unix now); [done|].
    case_bool_decide; [|done]. intros [= <-]. by exists exp.
Qed.

(** An upload stores nothing, or the whole body under a signature for its size. *)
Lemma handleUpload_effect s disk now r st :
  let ref := cut_prefix "/media/upload/" (R_Path r) in
  let st' := (handleUpload s disk now r st).1 in
  st' = st ∨
  ∃ files n body size exp, st = Some files ∧ path ref = InDir n ∧ files !! n = None ∧ len body = size ∧ scanned s body ∧
    st' = Some (<[n := mkFile body now]> files) ∧ claimed r = Some (size, exp) ∧ int64 size ∧ int64 exp ∧
    query_Get (R_RawQuery r) "sig" = sign s ref "put" size exp.
Proof.
  cbv zeta. unfold handleUpload. destruct (negb _ && _); [by left|].
  destruct (verify _ _ _ _ _ _ _) as [size|] eqn:Ev; [|by left].
  destruct (_ || _); [by left|]. set (body := ztake _ _). destruct (Z.eqb_spec (len body) size) as [Hl|]; [|by left].
  cbn [negb]. destruct (match S_scanner s with Some _ => _ | None => _ end) as [[]|] eqn:Es; [|by left].
  rewrite M_bind_eq. unfold attempt, fs_Put. destruct st as [files|]; [|by left].
  destruct disk as [[]|e]; [|left; by destruct e]. destruct (path _) as [| |n] eqn:Ep; [by left..|].
  destruct (name_ok n); cbn [negb]; [|by left]. destruct (files !! n) eqn:En; [by left|]. right.
  apply verify_Ok in Ev as (exp & Hcl & Hs & He & Hsig). exists files, n, body, size, exp.
  split_and!; try done. unfold scanned. by destruct (S_scanner s).
Qed.

(** Collecting only removes. *)
Definition shrinks (st st' : Blobs) : Prop :=
  ∀ files', st' = Some files' → ∃ files, st = Some files ∧ files' ⊆ files.
#[local] Instance shrinks_po : PreOrder shrinks.
Proof.
  split; [intros st files ->; by exists files|]. intros a b c Hab Hbc files Hc.
  destruct (Hbc _ Hc) as (fb & Hb & ?). destruct (Hab _ Hb) as (fa & Ha & ?). exists fa. split; [done|]. by transitivity fb.
Qed.
Lemma fs_Delete_shrinks ref st : shrinks st (fs_Delete ref st).1.
Proof.
  unfold fs_Delete. destruct (path ref), st as [files|]; try case_bool_decide; cbn [fst]; try reflexivity.
  - by intros ?.
  - intros ? [= <-]. exists files. split; [done|]. apply delete_subseteq.
Qed.
Lemma delete_each_shrinks used l st : shrinks st (delete_each used l st).1.
Proof.
  revert st. induction l as [|ref l IH]; intros st; [reflexivity|]. cbn [delete_each].
  rewrite M_bind_eq. cbn [get]. rewrite M_bind_eq. destruct (_ || _); [apply IH|].
  destruct (used ref) as [[]|]; [apply IH| |apply IH]. rewrite M_bind_eq. unfold attempt.
  pose proof (fs_Delete_shrinks ref st) as Hd. destruct (fs_Delete ref st) as [st' r]. cbn [mret M_ret].
  etransitivity; [exact Hd|apply IH].
Qed.
Lemma sweep_loop_shrinks used stop l n st : shrinks st (sweep_loop used stop l n st).1.
Proof.
  revert stop n st. induction l as [|ref l IH]; intros stop n st; [reflexivity|]. cbn [sweep_loop].
  destruct stop as [[|k]|]; [reflexivity|..].
  all: destruct (used ref) as [[]|]; [apply IH| |apply IH]; rewrite M_bind_eq; unfold attempt;
    pose proof (fs_Delete_shrinks ref st) as Hd; destruct (fs_Delete ref st) as [st' [?|]]; cbn [fst] in *;
    (etransitivity; [exact Hd|apply IH]).
Qed.

Lemma collect_shrinks refs reason l st : shrinks st (media_DeleteIfUnreferenced refs reason l st).1.
Proof. unfold media_DeleteIfUnreferenced. destruct refs; [apply delete_each_shrinks|reflexivity]. Qed.
Lemma sweep_shrinks refs now stop st : shrinks st (SweepOrphans refs now stop st).1.
Proof.
  unfold SweepOrphans. destruct refs as [used|]; [|reflexivity]. rewrite M_bind_eq. cbn [get].
  rewrite M_bind_eq. unfold lift. destruct (fs_ListOlderThan _ _); [apply sweep_loop_shrinks|reflexivity].
Qed.

(** What a signed text stands for, what a ticket allows, what an object came from. *)
Definition text_ok (tk : list (string * Z * Z)) (text : bytes) : Prop :=
  (∃ ref size limit exp, text = signed_text ref "put" size exp ∧ (ref, size, limit) ∈ tk ∧ int64 size ∧ int64 exp) ∨
  (∃ ref exp, text = signed_text ref "get" 0 exp ∧ int64 exp).
Definition ticket_ok (s : MediaService) (e : string * Z * Z) : Prop :=
  let '(ref, size, limit) := e in 0 < size ≤ S_maxSize s ∧ (0 < limit → size ≤ limit) ∧ path ref = InDir ref.
Definition object_ok (s : MediaService) (tk : list (string * Z * Z)) (n : string) (f : File) : Prop :=
  scanned s (F_data f) ∧ ∃ limit, (n, len (F_data f), limit) ∈ tk.
Record ledger_ok (s : MediaService) (L : Ledger) : Prop := {
  ok_texts : Forall (text_ok (l_tickets L)) (l_signed L);
  ok_tickets : Forall (ticket_ok s) (l_tickets L);
  ok_objects files n f : l_blobs L = Some files → files !! n = Some f → object_ok s (l_tickets L) n f;
}.

Lemma text_ok_more e tk text : text_ok tk text → text_ok (e :: tk) text.
Proof. intros [(ref & size & limit & exp & ? & ? & ?)|?]; [left|by right]. exists ref, size, limit, exp. by rewrite elem_of_cons; auto. Qed.

Lemma Unix_int64 t : 0 ≤ t < 2 ^ 63 → int64 (Unix t).
Proof. intros Ht. unfold int64, Unix, second. pose proof (Z.div_pos t (10 ^ 9)). pose proof (Z.div_le_upper_bound t (10 ^ 9) t). lia. Qed.

Lemma shrinks_ok s b b' tx tk : shrinks b b' → ledger_ok s (mkLedger b tx tk) → ledger_ok s (mkLedger b' tx tk).
Proof.
  intros Hs [Ht Hk Ho]. split; [done..|]. cbn [l_blobs l_signed l_tickets] in *. intros files' n f Hb Hf.
  destruct (Hs _ Hb) as (files & Hb0 & Hsub). eapply Ho; [done|]. by eapply lookup_weaken.
Qed.

Lemma ledger_step s L L' : S_maxSize s < 2 ^ 63 → media_step s L L' → ledger_ok s L → ledger_ok s L'.
Proof.
  intros Hmax Hstep Hok. destruct Hstep as [suffix id now size limit t b tx tk Hnow Hi|ref now b tx tk Hnow|disk now r b tx tk Hu| |].
  - apply InitUpload_Ok in Hi as (Hsize & Hlim & sfx & _ & Href & _). destruct Hok as [Ht Hk Ho]. cbn [l_blobs l_signed l_tickets] in *. split; cbn [l_blobs l_signed l_tickets].
    + constructor; [|eapply Forall_impl; [exact Ht|]; intros ?; by apply text_ok_more].
      left. exists (T_MediaRef t), size, limit, (Unix (now + ttl)). split_and!; [done|left|unfold int64; lia|by apply Unix_int64].
    + constructor; [|done]. split_and!; [lia..|done|]. rewrite Href. apply media_ref_path.
    + intros files n f Hb Hf. destruct (Ho _ _ _ Hb Hf) as (? & limit' & ?). split; [done|]. exists limit'. by right.
  - destruct Hok as [Ht Hk Ho]. split; cbn [l_blobs l_signed l_tickets] in *; [|done..]. constructor; [|done]. right. exists ref, (Unix (now + ttl)).
    split; [done|]. by apply Unix_int64.
  - destruct (handleUpload_effect s disk now r b) as [->|(files & n & body & size & exp & -> & Hp & Hn & <- & Hsc & -> & Hcl & Hs & He & Hsig)]; [done|].
    destruct Hok as [Ht Hk Ho]. split; cbn [l_blobs l_signed l_tickets] in *; [done..|]. intros files' n' f [= <-] Hf.
    destruct (decide (n = n')) as [<-|Hne]; [|rewrite lookup_insert_ne in Hf by done; by eapply Ho].
    rewrite lookup_insert_eq in Hf. injection Hf as <-. cbn [F_data]. split; [done|].
    apply (Hu _ _ Hcl) in Hsig. rewrite Forall_forall in Ht. rewrite Forall_forall in Hk.
    destruct (Ht _ Hsig) as [(ref' & size' & limit & exp' & E & Hin & Hs' & He')|(ref' & exp' & E & He')].
    + apply signed_text_inj in E as (<- & _ & <- & _); [|by apply word_eval|by apply word_eval|done..].
      destruct (Hk _ Hin) as (_ & _ & Hpath). rewrite Hpath in Hp. injection Hp as <-. exists limit. exact Hin.
    + apply signed_text_inj in E as (_ & E & _); [done|by apply word_eval|by apply word_eval|done|unfold int64; lia|done..].
  - by eapply shrinks_ok; [apply collect_shrinks|].
  - by eapply shrinks_ok; [apply sweep_shrinks|].
Qed.


(** ** The collector *)

(** A live message of the log points at the object. *)
Definition live_ref (n : string) (db : ChatDB) : Prop := ∃ c m, m ∈ messages_of c db ∧ refers n m = true.

(** Names as directories have them: each stands for itself. *)
Definition entries_ok (files : gmap string File) : Prop := ∀ n, is_Some (files !! n) → path n = InDir n.

Section collect.
Context `{RangeOrder}.

Lemma log_refs_live db n : n ≠ "" → ∃ b, log_refs db n = Ok b ∧ (b = true ↔ live_ref n db).
Proof.
  intros Hn. unfold log_refs, MediaRefExists. rewrite bool_decide_false by done. eexists. split; [done|].
  rewrite existsb_exists. unfold live_ref. split.
  - intros ([c l] & Hin%list_elem_of_In%elem_of_range_map & Hl). cbn [snd] in Hl.
    apply existsb_exists in Hl as (m & Hm%list_elem_of_In & ?). exists c, m. unfold messages_of. by rewrite Hin.
  - intros (c & m & Hm & Hr). unfold messages_of in Hm. destruct (messages db !! c) as [l|] eqn:E; [|by apply elem_of_nil in Hm].
    exists (c, l). split; [by apply list_elem_of_In, elem_of_range_map|]. cbn [snd]. apply existsb_exists.
    exists m. split; [by apply list_elem_of_In|done].
Qed.
End collect.

Lemma fs_Exists_plain n files : path n = InDir n → fs_Exists n (Some files) = bool_decide (is_Some (files !! n)).
Proof. intros Hp. unfold fs_Exists. by rewrite Hp. Qed.
Lemma fs_Delete_plain n files : path n = InDir n → fs_Delete n (Some files) = (Some (delete n files), Ok tt).
Proof. intros Hp. unfold fs_Delete. by rewrite Hp. Qed.

(** Collecting plain references removes exactly the named objects nothing points at. *)
Definition collectable (used : string → result bool) (l : list string) (n : string) : Prop :=
  n ∈ l ∧ n ≠ "" ∧ used n = Ok false.
#[local] Instance collectable_dec used l n : Decision (collectable used l n).
Proof. unfold collectable. apply _. Defined.

(** Decide what the goal asks, and refute what cannot be. *)
Ltac by_cases := repeat case_decide; try done; subst; intuition congruence.

Lemma delete_each_plain used l files :
  Forall (λ r, path r = InDir r) l →
  ∃ files', delete_each used l (Some files) = (Some files', Ok tt) ∧
    ∀ n, files' !! n = if decide (collectable used l n) then None else files !! n.
Proof.
  intros Hl. revert files. induction Hl as [|ref l Hp _ IH]; intros files.
  { exists files. split; [done|]. intros n. rewrite decide_False; [done|]. by intros (?%elem_of_nil & _). }
  cbn [delete_each]. rewrite M_bind_eq. cbn [get]. rewrite fs_Exists_plain by done.
  assert (∃ files1, (if bool_decide (ref = "") || negb (bool_decide (is_Some (files !! ref))) then mret tt
     else match used ref with Err _ => mret tt | Ok true => mret tt
          | Ok false => attempt (fs_Delete ref);; mret tt end) (Some files) = (Some files1, Ok tt) ∧
     ∀ n, files1 !! n = if decide (collectable used [ref] n) then None else files !! n) as (files1 & Hone & Hf1).
  { unfold collectable. assert (∀ n, n ∈ [ref] ↔ n = ref) as Hin by (intros; apply list_elem_of_singleton).
    destruct (bool_decide_reflect (ref = "")) as [->|Hne]; cbn [orb].
    { exists files. split; [done|]. intros n. rewrite decide_False; [done|]. by intros (->%Hin & ? & _). }
    destruct (bool_decide_reflect (is_Some (files !! ref))) as [Hs|Hno]; cbn [negb].
    - destruct (used ref) as [[]|e] eqn:Eu.
      1,3: exists files; split; [done|]; intros n; rewrite decide_False; [done|]; intros (->%Hin & _ & ?); congruence.
      exists (delete ref files). split; [rewrite M_bind_eq; unfold attempt; by rewrite fs_Delete_plain|].
      intros n. destruct (decide (n = ref)) as [->|Hnr].
      + rewrite decide_True by (rewrite Hin; done). by rewrite lookup_delete_eq.
      + rewrite decide_False by (by intros (?%Hin & _)). by rewrite lookup_delete_ne.
    - exists files. split; [done|]. intros n. case_decide as Hc; [|done]. rewrite Hin in Hc.
      destruct Hc as [-> _]. apply eq_None_not_Some. exact Hno. }
  rewrite (bind_Ok _ _ _ _ _ Hone). destruct (IH files1) as (files' & -> & Hf'). exists files'. split; [done|].
  intros n. rewrite Hf', Hf1. unfold collectable.
  pose proof (list_elem_of_singleton n ref) as H1. pose proof (elem_of_cons l n ref) as H2. by_cases.
Qed.

(** The same for the sweep, which also counts. *)
Lemma sweep_loop_plain used l k files :
  Forall (λ r, path r = InDir r) l → Forall (λ r, is_Some (files !! r)) l → NoDup l →
  ∃ files', sweep_loop used None l k (Some files) = (Some files', Ok (k + (maplen files - maplen files'))) ∧
    ∀ n, files' !! n = if decide (n ∈ l ∧ used n = Ok false) then None else files !! n.
Proof.
  intros Hl. revert k files. induction Hl as [|ref l Hp _ IH]; intros k files Hs Hnd.
  { exists files. split; [by rewrite Z.sub_diag, Z.add_0_r|]. intros n. rewrite decide_False; [done|]. by intros [?%elem_of_nil _]. }
  apply Forall_cons in Hs as [[f Hf] Hs]. apply NoDup_cons in Hnd as [Hnin Hnd]. cbn [sweep_loop].
  destruct (used ref) as [[]|e] eqn:Eu.
  1,3: destruct (IH k files Hs Hnd) as (files' & Hrun & Hf'); exists files'; split; [exact Hrun|]; intros n; rewrite Hf';
    pose proof (elem_of_cons l n ref) as H2; by_cases.
  rewrite M_bind_eq. unfold attempt. rewrite fs_Delete_plain by done.
  destruct (IH (k + 1) (delete ref files)) as (files' & Hrun & Hf'); [|done|].
  { rewrite Forall_forall in *. intros r Hr. rewrite lookup_delete_ne by (intros ->; done). by apply Hs. }
  exists files'. split.
  - change (fmap pred None) with (@None nat). rewrite Hrun. f_equal. f_equal.
    assert (maplen files = maplen (delete ref files) + 1); [|lia].
    unfold maplen. rewrite (map_size_delete_Some ref files) by by exists f.
    assert (size files ≠ 0%nat) by (intros E%map_size_empty_iff; subst; by rewrite lookup_empty in Hf). lia.
  - intros n. rewrite Hf'. pose proof (elem_of_cons l n ref) as H2. destruct (decide (n = ref)) as [->|Hne].
    + rewrite lookup_delete_eq. by_cases.
    + rewrite lookup_delete_ne by done. by_cases.
Qed.

Lemma fs_ListOlderThan_spec t files :
  ∃ l, fs_ListOlderThan t (Some files) = Ok l ∧ NoDup l ∧ ∀ n, n ∈ l ↔ older t files n = true.
Proof.
  eexists. split; [done|]. split.
  - apply NoDup_filter. rewrite merge_sort_Permutation. apply NoDup_fst_map_to_list.
  - intros n. rewrite list_elem_of_filter, Is_true_true, merge_sort_Permutation. split; [by intros [? _]|].
    intros Ho. split; [done|]. unfold older in Ho. destruct (files !! n) as [f|] eqn:E; [|by rewrite andb_false_r in Ho].
    apply list_elem_of_fmap. exists (n, f). split; [done|]. by apply elem_of_map_to_list.
Qed.

Lemma older_Some t files n : older t files n = true → is_Some (files !! n).
Proof. unfold older. destruct (files !! n); [done|]. by rewrite andb_false_r. Qed.

Lemma sweep_spec `{RangeOrder} db now files :
  entries_ok files →
  ∃ files', SweepOrphans (Some (log_refs db)) now None (Some files) = (Some files', Ok (maplen files - maplen files')) ∧
    ∀ n, (older (now - gcMinAge) files n = true ∧ ¬ live_ref n db → files' !! n = None) ∧
         (older (now - gcMinAge) files n = false ∨ live_ref n db → files' !! n = files !! n).
Proof.
  intros He. destruct (fs_ListOlderThan_spec (now - gcMinAge) files) as (l & Hl & Hnd & Hin).
  destruct (sweep_loop_plain (log_refs db) l 0 files) as (files' & Hrun & Hf'); [..|done|].
  { apply Forall_forall. intros n Hn%Hin. by apply He, (older_Some (now - gcMinAge)). }
  { apply Forall_forall. intros n Hn%Hin. by eapply older_Some. }
  exists files'. split.
  { unfold SweepOrphans. rewrite M_bind_eq. cbn [get]. rewrite M_bind_eq. unfold lift. by rewrite Hl. }
  intros n. rewrite Hf'. assert (older (now - gcMinAge) files n = true → n ≠ "") as Hne.
  { intros Ho ->. by specialize (He "" (older_Some _ _ _ Ho)). }
  split.
  - intros [Ho Hlive]. destruct (log_refs_live db n (Hne Ho)) as ([] & Hr & Hiff); [by destruct Hlive; apply Hiff|].
    by rewrite decide_True by (by rewrite Hin).
  - intros Hor. rewrite decide_False; [done|]. rewrite Hin. intros [Ho Hr].
    destruct (log_refs_live db n (Hne Ho)) as ([] & Hr' & Hiff); [congruence|].
    destruct Hor as [Hno|Hlive]; [congruence|]. by apply Hiff in Hlive.
Qed.

(** The sweep is exact.  Over the message log, and not cancelled, it removes precisely
    the stored objects at least fifteen minutes old that no live message points at, staged
    uploads apart, and returns how many it removed; every other object is as it was. *)
Theorem sweep_exact `{RangeOrder} db now files :
  entries_ok files →
  ∃ files', SweepOrphans (Some (log_refs db)) now None (Some files) = (Some files', Ok (maplen files - maplen files')) ∧
    ∀ n, (older (now - gcMinAge) files n = true ∧ ¬ live_ref n db → files' !! n = None) ∧
         (older (now - gcMinAge) files n = false ∨ live_ref n db → files' !! n = files !! n).
Proof. apply sweep_spec. Qed.

(** A picture in use is swept.  The collector asks only the message log, so the
    profile picture of an account, which anybody may fetch, is removed by the first sweep
    after it is fifteen minutes old, unless it was also sent in a message; every later fetch
    of it is refused. *)
Theorem avatar_collected `{RangeOrder} s db us u now files n f tk v (w : Service) now' :
  entries_ok files → us !! u = Some v → User_AvatarRef v = n → files !! n = Some f →
  HasPrefix n tmpPrefix = false → F_mtime f < now - gcMinAge → ¬ live_ref n db →
  (∀ caller, caller ≠ "" → (MayFetch (Some us) true tk caller n w).2 = Ok true) ∧
  ∃ files' k, SweepOrphans (Some (log_refs db)) now None (Some files) = (Some files', Ok k) ∧
    ∀ caller, (DownloadURL s (Some (MayFetch (Some us) true tk)) (Some files') now' caller n w).2 = Err media_not_found.
Proof.
  intros He Hu <- Hf Hp Ht Hlive. set (n := User_AvatarRef v) in *.
  assert (path n = InDir n) as Hpath by (apply He; by exists f).
  assert (n ≠ "") as Hne by (intros E; by rewrite E in Hpath). split.
  - intros caller Hc. unfold MayFetch. rewrite !bool_decide_false by done. cbn [orb].
    assert (AvatarRefExists n us = true) as ->; [|done]. unfold AvatarRefExists. rewrite bool_decide_false by done.
    apply existsb_exists. exists (u, v). split; [by apply list_elem_of_In, elem_of_range_map|]. by apply bool_decide_eq_true.
  - destruct (sweep_spec db now files He) as (files' & Hrun & Hf'). exists files', (maplen files - maplen files').
    split; [done|]. intros caller. unfold DownloadURL. rewrite M_bind_eq. rewrite fs_Exists_plain by done.
    rewrite (proj1 (Hf' n)); [done|]. split; [|done]. unfold older. rewrite Hf, Hp. cbn [negb andb]. by apply Z.ltb_lt.
Qed.

(** ** The download gate *)

Section fetch.
Context `{RangeOrder}.

(** [u] is a member of a chat whose log has a live message pointing at the object. *)
Definition sees (u n : string) (db : ChatDB) : Prop :=
  ∃ c m, m ∈ messages_of c db ∧ refers n m = true ∧ d_member (decided db c u) = Ok true.
Definition is_avatar (n : string) (us : gmap string User) : Prop := ∃ u v, us !! u = Some v ∧ User_AvatarRef v = n.
(** At most as many chats point at the object as the gate looks at. *)
Definition few_chats (n : string) (db : ChatDB) : Prop :=
  len (filter (λ e, existsb (refers n) e.2 = true) (range_map (messages db))) ≤ mediaAuthChatLimit.
Definition chat_ids_ok (db : ChatDB) : Prop := ∀ c, messages_of c db ≠ [] → no_bar c = true.

Lemma any_member_spec tk u cs s :
  reachable s → Forall (λ c, no_bar c = true) cs →
  ∃ b, (any_member tk u cs s).2 = Ok b ∧ (b = true ↔ Exists (λ c, d_member (decided (cdb s) c u) = Ok true) cs).
Proof.
  intros Hs Hcs. revert s Hs. induction Hcs as [|c cs Hc _ IH]; intros s Hs.
  { exists false. split; [done|]. by rewrite Exists_nil. }
  cbn [any_member]. rewrite M_bind_eq. unfold attempt.
  destruct (local_ask (tk c).1 (tk c).2 c u s tt Hs Hc) as (_ & Hans & _ & Hg & Hd). cbv zeta in Hg, Hd. cbn [fst] in Hg, Hd.
  destruct (asks_roleOf (tk c).1 (tk c).2 c u s) as (_ & Hst & _).
  destruct (IsMember (tk c).1 (tk c).2 c u s) as [s1 r]. cbn [fst snd] in *. subst s1 r.
  destruct (IH _ Hg) as (b & Hb & Hiff). rewrite Hd in Hiff.
  destruct (d_member (decided (cdb s) c u)) as [[]|e] eqn:Ed.
  - exists true. split; [done|]. split; [|done]. intros _. by left.
  - exists b. split; [done|]. rewrite Exists_cons, Ed. rewrite Hiff. split; [by right|]. by intros [?|?].
  - exists b. split; [done|]. rewrite Exists_cons, Ed. rewrite Hiff. split; [by right|]. by intros [?|?].
Qed.

Lemma MayFetch_spec us tk u n s :
  reachable s → chat_ids_ok (cdb s) → u ≠ "" → n ≠ "" → few_chats n (cdb s) →
  ∃ b, (MayFetch (Some us) true tk u n s).2 = Ok b ∧ (b = true ↔ is_avatar n us ∨ sees u n (cdb s)).
Proof.
  intros Hs Hids Hu Hn Hfew. unfold MayFetch. rewrite !bool_decide_false by done. cbn [orb negb].
  destruct (AvatarRefExists n us) eqn:Ea.
  { exists true. split; [done|]. split; [|done]. intros _. left. unfold AvatarRefExists in Ea. rewrite bool_decide_false in Ea by done.
    apply existsb_exists in Ea as ([x v] & Hin%list_elem_of_In%elem_of_range_map & Hv%bool_decide_eq_true). by exists x, v. }
  rewrite M_bind_eq. cbn [get]. rewrite M_bind_eq. unfold lift, MediaRefChats. rewrite bool_decide_false by done.
  change (mediaAuthChatLimit <=? 0) with false. cbn [gets snd]. set (l := filter _ _) in *.
  assert (ztake mediaAuthChatLimit (fst <$> l) = fst <$> l) as ->.
  { apply take_ge. rewrite length_fmap. unfold few_chats, len in Hfew. fold l in Hfew. unfold mediaAuthChatLimit in *. lia. }
  assert (∀ c, c ∈ fst <$> l ↔ ∃ m, m ∈ messages_of c (cdb s) ∧ refers n m = true) as Hl.
  { intros c. rewrite list_elem_of_fmap. unfold l, messages_of. split.
    - intros ([c' ms] & -> & [He Hin%elem_of_range_map]%list_elem_of_filter). cbn [fst snd] in *.
      apply existsb_exists in He as (m & Hm%list_elem_of_In & Hr). exists m. by rewrite Hin.
    - intros (m & Hm & Hr). destruct (messages (cdb s) !! c) as [ms|] eqn:E; [|by apply elem_of_nil in Hm].
      exists (c, ms). split; [done|]. apply list_elem_of_filter. split; [|by apply elem_of_range_map].
      apply existsb_exists. exists m. split; [by apply list_elem_of_In|done]. }
  destruct (any_member_spec tk u (fst <$> l) s Hs) as (b & Hb & Hiff).
  { apply Forall_forall. intros c (m & Hm & _)%Hl. apply Hids. intros E. rewrite E in Hm. by apply elem_of_nil in Hm. }
  exists b. split; [done|]. rewrite Hiff, Exists_exists. unfold sees. split.
  - intros (c & (m & ? & ?)%Hl & Hd). right. by exists c, m.
  - intros [(x & v & Hx & Hv)|(c & m & ? & ? & Hd)]; [|exists c; split; [apply Hl; eauto|done]].
    exfalso. unfold AvatarRefExists in Ea. rewrite bool_decide_false in Ea by done. apply not_true_iff_false in Ea. apply Ea.
    apply existsb_exists. exists (x, v). split; [by apply list_elem_of_In, elem_of_range_map|]. by apply bool_decide_eq_true.
Qed.

(** Who is given a download URL. *)
Lemma DownloadURL_gate sv us tk u n s st now :
  reachable s → chat_ids_ok (cdb s) → u ≠ "" → n ≠ "" → few_chats n (cdb s) →
  let r := (DownloadURL sv (Some (MayFetch (Some us) true tk)) st now u n s).2 in
  (fs_Exists n st = true ∧ (is_avatar n us ∨ sees u n (cdb s)) →
     r = Ok (S_baseURL sv +:+ "/media/download/" +:+ n +:+ "?" +:+
             bstring (download_query (Unix (now + ttl)) (sign sv n "get" 0 (Unix (now + ttl)))), Unix (now + ttl) * 1000)) ∧
  (fs_Exists n st = false ∨ ¬ (is_avatar n us ∨ sees u n (cdb s)) → r = Err media_not_found).
Proof.
  intros Hs Hids Hu Hn Hfew. cbv zeta. unfold DownloadURL. rewrite M_bind_eq. unfold guard_or at 1 3.
  destruct (MayFetch_spec us tk u n s Hs Hids Hu Hn Hfew) as (b & Hb & Hiff).
  destruct (fs_Exists n st); cbn [mret M_ret fail]; [|by split; [intros [? _]|]].
  rewrite !M_bind_eq. unfold attempt. destruct (MayFetch (Some us) true tk u n s) as [s1 r1]. cbn [snd] in Hb. subst r1.
  split.
  - intros [_ Hok]. by apply Hiff in Hok as ->.
  - intros [?|Hno]; [done|]. destruct b; [|done]. by destruct Hno; apply Hiff.
Qed.

End fetch.

(** ** Behind the message service *)

Section service.
Context `{RangeOrder} {B : Type} `{Bus EventBody B}.
Variable trace : gmap string string.

(** Beside the chat service and the log: the bus and the object store. *)
Definition Rest : Type := B * Blobs.
#[local] Instance rest_Bus : Bus EventBody Rest := λ e w, let '(b, r) := Publish e w.1 in ((b, w.2), r).
Definition collector : option (string → list string → ChatDB → M Rest unit) :=
  Some (λ reason l db w, let '(st, r) := media_DeleteIfUnreferenced (Some (log_refs db)) reason l w.2 in ((w.1, st), r)).
Abbreviation World := (Local (B := Rest)).
#[local] Instance world_media : MediaCollector World := local_media collector.
#[local] Instance world_laws : MessageLaws (Ticks * Ticks) World := local_laws collector.
Implicit Types w : World.

Definition blobs_of w : Blobs := w.2.2.

Lemma world_ask_rest {A} (m : M Service A) w : (on_chat m w).1.2 = w.2.
Proof. unfold on_chat. by destruct (m w.1). Qed.
Lemma world_store_rest {A} (m : M ChatDB A) w : (on_store m w).1.2 = w.2.
Proof. unfold on_store. by destruct (m (mdb w)). Qed.

(** Sending leaves the objects alone. *)
Lemma Send_blobs t id obID now s_in w : blobs_of (Send trace t id obID now s_in w).1 = blobs_of w.
Proof.
  unfold blobs_of, Send. rewrite M_bind_eq, authorized_eq. cbn [Chats_CanPost local_Chats].
  pose proof (world_ask_rest (CanPost t.1 t.2 (Send_ChatID s_in) (Send_SenderID s_in)) w) as Ha.
  destruct (on_chat _ w) as [w1 [[]|e]]; cbn [fst snd] in *; [|by rewrite Ha..].
  rewrite M_bind_eq. destruct (bool_decide (Send_ReplyTo s_in = "")).
  { cbn [mret M_ret]. by rewrite world_store_rest, Ha. }
  rewrite M_bind_eq. unfold attempt. pose proof (world_store_rest (GetMessage (Send_ChatID s_in) (Send_ReplyTo s_in)) w1) as Hg.
  destruct (on_store _ w1) as [w2 [p|e]]; cbn [fst mret M_ret] in *; by rewrite world_store_rest, Hg, Ha.
Qed.

Lemma DeleteMessage_run c id now ob db m :
  find_msg id (messages_of c db) = Some m → ∃ db', DeleteMessage c id now ob db = (db', Ok (set_deleted now m)).
Proof. intros Hm. unfold DeleteMessage, update_message. rewrite M_bind_eq. cbn [get]. rewrite Hm. by eexists. Qed.

(** Deleting runs the collector on what the message pointed at, over the log without it. *)
Lemma Delete_collects t obID now u c id w m :
  good w → no_bar c = true → find_msg id (messages_of c (mdb w)) = Some m → may_delete w u c m = Ok true →
  let w' := (Delete trace t obID now u c id w).1 in
  blobs_of w' = (media_DeleteIfUnreferenced (Some (log_refs (mdb w'))) "message" (mediaRefsOf m) (blobs_of w)).1.
Proof.
  intros Hg Hb Hm Hmay. pose proof (Delete_effect trace t obID now u c id w Hg Hb) as He. cbv zeta in He.
  rewrite Hm, Hmay in He. destruct He as [(_ & _ & Hdb) _]. cbv zeta. rewrite Hdb. clear Hdb.
  unfold Delete. rewrite M_bind_eq, on_store_GetMessage, Hm.
  set (w0 := set_mdb (mdb w) w). assert (mdb w0 = mdb w ∧ w0.2 = w.2) as [Hd0 Hr0] by done. rewrite M_bind_eq.
  assert (∀ w1, mdb w1 = mdb w → w1.2 = w.2 →
    blobs_of ((m1 ← on_store (DeleteMessage c id now (outboxFor trace obID SubjMessageDeleted));
      match DeleteIfUnreferenced, mediaRefsOf m with
      | Some del, _ :: _ => attempt (del "message" (mediaRefsOf m));; mret m1
      | _, _ => mret m1
      end) w1).1 =
    (media_DeleteIfUnreferenced (Some (log_refs (DeleteMessage c id now (outboxFor trace obID SubjMessageDeleted) (mdb w)).1))
       "message" (mediaRefsOf m) (blobs_of w)).1) as Hrest.
  { intros w1 Hd1 Hr1. rewrite M_bind_eq, on_store_eq, Hd1. unfold blobs_of. rewrite <- Hr1.
    destruct (DeleteMessage_run c id now (outboxFor trace obID SubjMessageDeleted) (mdb w) m Hm) as (db1 & ->). cbn [fst snd].
    destruct (mediaRefsOf m) as [|r rs]; [done|].
    change (DeleteIfUnreferenced (W := World)) with (Some (λ reason l w, on_rest ((default (λ _ _ _, mret tt) collector) reason l (cdb w.1)) w)).
    cbv beta iota. rewrite M_bind_eq. unfold attempt, on_rest. cbn [default from_option collector].
    change (cdb (set_mdb db1 w1).1) with db1. change ((set_mdb db1 w1).2) with w1.2.
    unfold Datatypes.id. by destruct (media_DeleteIfUnreferenced _ _ _ _). }
  unfold may_delete in Hmay. destruct (bool_decide _); [by apply Hrest|].
  rewrite authorized_eq. destruct (CanModerate_spec t c u w0) as (w1 & Hask & _ & Hd1 & _); [apply quiet_same; done|done|].
  pose proof (world_ask_rest (CanModerate t.1 t.2 c u) w0) as Ha. cbn [Chats_CanModerate local_Chats] in Hask |- *.
  rewrite Hask in Ha |- *. cbn [fst snd] in *.
  assert (d_moderate (authority w0 c u) = Ok true) as -> by done. apply Hrest; congruence.
Qed.

(** The message [u] sends to [c] with nothing but a media reference. *)
Definition only_media (u c ref : string) : SendInput := mkSend u c "" "" ref "" None None 0.

Lemma post_media t id obID now u c ref w :
  good w → no_bar c = true → d_post (authority w c u) = Ok true →
  let w' := (Send trace t id obID now (only_media u c ref) w).1 in
  good w' ∧ (∀ c' u', authority w' c' u' = authority w c' u') ∧ blobs_of w' = blobs_of w ∧
  (∃ n, messages_of c (mdb w') = messages_of c (mdb w) ++ [set_Seq n (set_ThreadRoot "" (send_row id now (only_media u c ref)))]) ∧
  (∀ c', c' ≠ c → messages_of c' (mdb w') = messages_of c' (mdb w)).
Proof.
  intros Hg Hb Hpost. pose proof (Send_effect trace t id obID now (only_media u c ref) w Hg Hb) as He. cbv zeta in He.
  cbn [Send_ChatID Send_SenderID only_media] in He. rewrite Hpost in He. destruct He as [(Hg' & Ha & Hdb) _]. cbv zeta.
  assert (∃ ch, chats (mdb w) !! c = Some ch) as [ch Hch].
  { cbn [authority world_laws local_laws] in Hpost. unfold decided in Hpost. cbn [mdb local_store].
    destruct (chats (cdb w.1) !! c) as [ch|]; [by exists ch|done]. }
  split_and!; [done|done|apply Send_blobs|..]; rewrite Hdb; unfold insert_of.
  - eexists. etransitivity; [|reflexivity]. exact (InsertMessage_messages (set_ThreadRoot (root_of (only_media u c ref) (mdb w))
      (send_row id now (only_media u c ref))) "" (outboxFor trace obID SubjMessageCreated) (mdb w) ch eq_refl Hch).
  - intros c' Hc'. destruct (InsertMessage_new (set_ThreadRoot (root_of (only_media u c ref) (mdb w)) (send_row id now (only_media u c ref)))
      "" (outboxFor trace obID SubjMessageCreated) (mdb w) ch) as (db' & out & Hi & _ & _ & _ & _ & _ & _ & _ & Hm & _); [done|done|].
    cbn [Send_DedupKey only_media]. rewrite Hi. by apply Hm.
Qed.

Lemma refers_media ref n id now u c k :
  refers n (set_Seq k (set_ThreadRoot "" (send_row id now (only_media u c ref)))) = bool_decide (ref = n).
Proof. unfold refers. cbn. by rewrite orb_false_r. Qed.

Lemma find_msg_snoc id l m : find_msg id l = None → Message_ID m = id → find_msg id (l ++ [m]) = Some m.
Proof. intros Hl Hm. unfold find_msg in *. rewrite find_app, Hl. cbn. by rewrite bool_decide_true. Qed.
Lemma update_first_snoc id f l m : find_msg id l = None → Message_ID m = id → update_first id f (l ++ [m]) = l ++ [f m].
Proof.
  intros Hl Hm. induction l as [|x l IH]; cbn; [by rewrite bool_decide_true|]. cbn in Hl.
  destruct (bool_decide (Message_ID x = id)); [done|]. by rewrite IH.
Qed.
(** Posting a reference and deleting the message leaves the rest of the log. *)
Lemma post_delete t t' id obID obID' now now' u c ref w :
  good w → no_bar c = true → d_post (authority w c u) = Ok true → find_msg id (messages_of c (mdb w)) = None → ref ≠ "" →
  let w1 := (Send trace t id obID now (only_media u c ref) w).1 in
  let w2 := (Delete trace t' obID' now' u c id w1).1 in
  (∀ n, live_ref n (mdb w2) ↔ live_ref n (mdb w)) ∧
  blobs_of w2 = (media_DeleteIfUnreferenced (Some (log_refs (mdb w2))) "message" [ref] (blobs_of w)).1.
Proof.
  intros Hg Hb Hpost Hid Href w1 w2. destruct (post_media t id obID now u c ref w Hg Hb Hpost) as (Hg1 & Ha1 & Hbl & (k & Hc1) & Ho1).
  fold w1 in Hg1, Ha1, Hbl, Hc1, Ho1. set (row := set_Seq k _) in Hc1.
  assert (find_msg id (messages_of c (mdb w1)) = Some row) as Hf by (rewrite Hc1; by apply find_msg_snoc).
  assert (may_delete w1 u c row = Ok true) as Hmay by (unfold may_delete; by rewrite bool_decide_true).
  split.
  - pose proof (Delete_effect trace t' obID' now' u c id w1 Hg1 Hb) as He. cbv zeta in He. rewrite Hf, Hmay in He.
    destruct He as [(_ & _ & Hdb) _]. fold w2 in Hdb.
    assert (∀ c', messages_of c' (mdb w2) = if decide (c = c') then messages_of c (mdb w) ++ [set_deleted now' row] else messages_of c' (mdb w)) as Hm.
    { intros c'. rewrite Hdb. unfold DeleteMessage. rewrite update_message_messages. destruct (decide (c = c')) as [<-|Hne].
      - rewrite Hc1. by apply update_first_snoc.
      - by apply Ho1. }
    intros n. unfold live_ref. split; intros (c' & m & Hin & Hr).
    + rewrite Hm in Hin. destruct (decide (c = c')) as [<-|]; [|by eauto].
      apply elem_of_app in Hin as [?|Hrow%list_elem_of_singleton]; [by eauto|]. by rewrite Hrow in Hr.
    + exists c', m. split; [|done]. rewrite Hm. destruct (decide (c = c')) as [<-|]; [|done]. apply elem_of_app. by left.
  - pose proof (Delete_collects t' obID' now' u c id w1 row Hg1 Hb Hf Hmay) as Hd. cbv zeta in Hd. fold w2 in Hd.
    assert (mediaRefsOf row = [ref]) as Hrefs by (unfold mediaRefsOf, row; cbn; by rewrite bool_decide_false).
    by rewrite Hd, Hbl, Hrefs.
Qed.

(** A reference that is not a plain name reaches another one's object.  The store reads
    [x/n] as [n], the message log does not.  So a user who may post anywhere posts [x/n] and
    deletes that message: the object [n] is removed although a live message points at it, and
    whoever holds the still valid upload ticket of [n] puts other bytes in its place. *)
Theorem alias_swaps_content t t' id obID obID' now now' u c a n files w :
  good w → no_bar c = true → d_post (authority w c u) = Ok true → find_msg id (messages_of c (mdb w)) = None →
  path a = InDir n → a ≠ "" → ¬ live_ref a (mdb w) →
  blobs_of w = Some files → is_Some (files !! n) → live_ref n (mdb w) →
  let w1 := (Send trace t id obID now (only_media u c a) w).1 in
  let w2 := (Delete trace t' obID' now' u c id w1).1 in
  live_ref n (mdb w2) ∧ blobs_of w2 = Some (delete n files) ∧
  ∀ s suffix sid tnow size limit tick now1 body,
    0 ≤ sid < 2 ^ 63 → length suffix = 16%nat → S_maxSize s < 2 ^ 63 - 1 → int64 (Unix (tnow + ttl)) →
    InitUpload s (Ok suffix) sid tnow size limit = Ok tick → T_MediaRef tick = n →
    Unix now1 ≤ Unix (tnow + ttl) → len body = size → scanned s body →
    (handleUpload s (Ok tt) now1 (request_at s "PUT" (T_UploadURL tick) body) (blobs_of w2)).1 =
      Some (<[n := mkFile body now1]> (delete n files)).
Proof.
  intros Hg Hb Hpost Hid Hpa Ha Hna Hw Hn Hlive. cbv zeta.
  destruct (post_delete t t' id obID obID' now now' u c a w Hg Hb Hpost Hid Ha) as [Hl ->].
  set (w2 := (Delete _ _ _ _ _ _ _ _).1) in *.
  destruct (log_refs_live (mdb w2) a Ha) as (b & Hr & Hiff). rewrite Hl in Hiff.
  assert (b = false) as -> by (destruct b; [by destruct Hna; apply Hiff|done]). rewrite Hw.
  assert ((media_DeleteIfUnreferenced (Some (log_refs (mdb w2))) "message" [a] (Some files)).1 = Some (delete n files)) as ->.
  { unfold media_DeleteIfUnreferenced. cbn [delete_each]. rewrite M_bind_eq. cbn [get]. rewrite bool_decide_false by done.
    assert (fs_Exists a (Some files) = true) as -> by (unfold fs_Exists; rewrite Hpa; by apply bool_decide_eq_true).
    cbn [negb orb]. rewrite Hr. rewrite !M_bind_eq. unfold attempt, fs_Delete. by rewrite Hpa. }
  split_and!; [by apply Hl|done|].
  intros s suffix sid tnow size limit tick now1 body Hsid Hsl Hmax He Hi <- Hn1 Hlen Hsc.
  destruct (InitUpload_Ok _ _ _ _ _ _ _ Hi) as (_ & _ & sfx & [= <-] & Href & _).
  erewrite upload_at_ticket by done. rewrite Hlen, Z.eqb_refl. cbn [negb].
  assert (match S_scanner s with Some scan => scan body | None => Ok tt end = Ok tt) as ->.
  { unfold scanned in Hsc. by destruct (S_scanner s). }
  unfold fs_Put. rewrite Href, media_ref_path, media_ref_name_ok by done. cbn [negb]. by rewrite lookup_delete_eq.
Qed.

(** A reference can take the store away.  The name [.] is the store's directory.  While
    it is empty, whoever may post anywhere posts that reference and deletes the message: the
    directory is removed and every upload from then on fails. *)
Theorem store_removed t t' id obID obID' now now' u c w :
  good w → no_bar c = true → d_post (authority w c u) = Ok true → find_msg id (messages_of c (mdb w)) = None →
  ¬ live_ref "." (mdb w) → blobs_of w = Some ∅ →
  let w1 := (Send trace t id obID now (only_media u c ".") w).1 in
  let w2 := (Delete trace t' obID' now' u c id w1).1 in
  blobs_of w2 = None ∧ ∀ s disk now2 r, ∃ resp, handleUpload s disk now2 r (blobs_of w2) = (None, Ok resp) ∧ Status resp ≠ 201.
Proof.
  intros Hg Hb Hpost Hid Hna Hw. cbv zeta.
  destruct (post_delete t t' id obID obID' now now' u c "." w Hg Hb Hpost Hid) as [Hl ->]; [done|].
  set (w2 := (Delete _ _ _ _ _ _ _ _).1) in *.
  destruct (log_refs_live (mdb w2) ".") as (b & Hr & Hiff); [done|]. rewrite Hl in Hiff.
  assert (b = false) as -> by (destruct b; [by destruct Hna; apply Hiff|done]). rewrite Hw.
  assert ((media_DeleteIfUnreferenced (Some (log_refs (mdb w2))) "message" ["."] (Some ∅)).1 = None) as ->.
  { unfold media_DeleteIfUnreferenced. cbn [delete_each]. rewrite M_bind_eq. cbn [get]. rewrite bool_decide_false by done.
    change (fs_Exists "." (Some ∅)) with true. cbn [negb orb]. by rewrite Hr. }
  split; [done|]. intros s disk now2 r. unfold handleUpload.
  repeat first [rewrite M_bind_eq; unfold attempt, fs_Put | match goal with |- context [if ?b then _ else _] => destruct b end | case_match]; eauto.
Qed.
(** Possession of a reference is enough after all.  A user who got hold of a reference
    from a chat they are not in is refused a download URL; they post the reference into a
    chat of their own, which nothing checks, and are given one. *)
Theorem leaked_ref_fetchable t id obID now u c n w sv us tk now2 :
  good w → no_bar c = true → d_post (authority w c u) = Ok true → d_member (authority w c u) = Ok true →
  u ≠ "" → n ≠ "" → chat_ids_ok (mdb w) → fs_Exists n (blobs_of w) = true →
  ¬ is_avatar n us → ¬ sees u n (mdb w) →
  let w1 := (Send trace t id obID now (only_media u c n) w).1 in
  few_chats n (mdb w) → few_chats n (mdb w1) →
  let url w := (DownloadURL sv (Some (MayFetch (Some us) true tk)) (blobs_of w) now2 u n w.1).2 in
  url w = Err media_not_found ∧ ∃ link, url w1 = Ok link.
Proof.
  intros Hg Hb Hpost Hmem Hu Hn Hids Hex Hav Hno w1 Hfew Hfew1. cbv zeta.
  destruct (post_media t id obID now u c n w Hg Hb Hpost) as (Hg1 & Ha1 & Hbl & (k & Hc1) & Ho1). fold w1 in Hg1, Ha1, Hbl, Hc1, Ho1.
  split.
  - destruct (DownloadURL_gate sv us tk u n w.1 (blobs_of w) now2 Hg Hids Hu Hn Hfew) as [_ Hr]. apply Hr. right. by intros [?|?].
  - assert (chat_ids_ok (mdb w1)) as Hids1.
    { intros c' Hc'. destruct (decide (c' = c)) as [->|Hne]; [done|]. apply Hids. by rewrite Ho1 in Hc'. }
    destruct (DownloadURL_gate sv us tk u n w1.1 (blobs_of w1) now2 Hg1 Hids1 Hu Hn Hfew1) as [Hr _].
    eexists. apply Hr. rewrite Hbl. split; [done|]. right. exists c. eexists. split_and!.
    + change (cdb w1.1) with (mdb w1). rewrite Hc1. apply elem_of_app. right. by apply list_elem_of_singleton.
    + rewrite refers_media. by apply bool_decide_eq_true.
    + change (decided (cdb w1.1) c u) with (authority w1 c u). by rewrite Ha1.
Qed.
End service.

(** ** Witnesses *)

Section witnesses.
#[local] Existing Instance canonical_order.

Definition w_media : MediaService := media_New (sbytes "key") "http://host/".
Definition w_suffix : bytes := replicate 16 (byteZ 7).
Definition w_noon : Z := 1700000000 * second.
Definition w_text : bytes := sbytes "hello".
Definition w_ticket : Ticket :=
  match InitUpload w_media (Ok w_suffix) 42 w_noon 5 100 with Ok t => t | Err _ => mkTicket "" "" 0 end.
Lemma w_ticket_issued : InitUpload w_media (Ok w_suffix) 42 w_noon 5 100 = Ok w_ticket.
Proof. by vm_compute. Qed.
Definition w_put (body : bytes) : Request := request_at w_media "PUT" (T_UploadURL w_ticket) body.

Lemma ticket_honoured_witness :
  (handleUpload w_media (Ok tt) w_noon (w_put w_text) (Some ∅)).1 = Some (<[T_MediaRef w_ticket := mkFile w_text w_noon]> ∅).
Proof.
  refine (f_equal fst (proj1 (ticket_honoured (W := unit) w_media w_suffix 42 w_noon 5 100 w_ticket w_noon w_text ∅ _ _ _ _ w_ticket_issued _ _ _ _)));
    first [by vm_compute | by split; vm_compute].
Defined.

Definition w_before : Ledger :=
  mkLedger (Some ∅) [signed_text (T_MediaRef w_ticket) "put" 5 (Unix (w_noon + ttl))] [(T_MediaRef w_ticket, 5, 100)].
Definition w_after : Ledger :=
  mkLedger (handleUpload w_media (Ok tt) w_noon (w_put w_text) (Some ∅)).1 (l_signed w_before) (l_tickets w_before).

Lemma w_run : rtc (media_step w_media) (mkLedger (Some ∅) [] []) w_after.
Proof.
  eapply rtc_l; [apply (step_ticket w_media (Ok w_suffix) 42 w_noon 5 100 w_ticket)|].
  { by split; vm_compute. }
  { exact w_ticket_issued. }
  eapply rtc_l; [apply (step_upload w_media (Ok tt) w_noon (w_put w_text))|done].
  intros size exp Hc _. assert (claimed (w_put w_text) = Some (5, Unix (w_noon + ttl))) as E by by vm_compute.
  rewrite E in Hc. injection Hc as <- <-. apply list_elem_of_singleton. by vm_compute.
Qed.

#[local] Existing Instances rest_Bus world_media world_laws.

(** A channel of [u1] with a picture posted in it, and a group of [u3]. *)
Abbreviation w_events := (list (Event EventBody)).
#[local] Instance w_media_bus : Bus EventBody w_events := λ e b, (b ++ [e], Ok tt).
Definition w_ref : string := T_MediaRef w_ticket.
Definition w_files : gmap string File := <[w_ref := mkFile w_text w_noon]> ∅.
Definition w_tk : Ticks * Ticks := (w_ticks 2, w_ticks 3).
Definition w_chats : Service := (CreateGroup "u3" "own" ChatGroup ["u3"] "c2" 5 w_channel).1.
Lemma w_media_reachable : reachable w_chats.
Proof. apply r_group; [exact w_channel_reachable | done | done | by repeat constructor]. Qed.
Definition w_bare (files : gmap string File) : Local (B := Rest (B := w_events)) := (w_chats, ([], Some files)).
Definition w_world : Local (B := Rest (B := w_events)) :=
  (Send ∅ w_tk "m1" "o1" 1000 (only_media "u1" "c1" w_ref) (w_bare w_files)).1.

Lemma w_world_good : good (MessageLaws := world_laws) w_world.
Proof. exact (proj1 (post_media ∅ w_tk "m1" "o1" 1000 "u1" "c1" w_ref (w_bare w_files) w_media_reachable eq_refl eq_refl)). Qed.

Lemma not_live db n : n ≠ "" → log_refs db n = Ok false → ¬ live_ref n db.
Proof. intros Hn Hr Hlive. destruct (log_refs_live db n Hn) as (b & Hb & Hiff). apply Hiff in Hlive. congruence. Qed.
Lemma is_live db n : n ≠ "" → log_refs db n = Ok true → live_ref n db.
Proof. intros Hn Hr. destruct (log_refs_live db n Hn) as (b & Hb & Hiff). apply Hiff. congruence. Qed.

Lemma w_entries : entries_ok w_files.
Proof.
  intros n [f Hf]. unfold w_files in Hf. destruct (decide (w_ref = n)) as [<-|Hne]; [by vm_compute|].
  by rewrite lookup_insert_ne in Hf.
Qed.

Lemma sweep_exact_witness :
  ∃ files', SweepOrphans (Some (log_refs (mdb w_world))) (w_noon + 2 * gcMinAge) None (Some w_files) = (Some files', Ok (maplen w_files - maplen files')) ∧
    files' !! w_ref = w_files !! w_ref.
Proof.
  destruct (sweep_exact (mdb w_world) (w_noon + 2 * gcMinAge) w_files w_entries) as (files' & Hrun & Hf').
  exists files'. split; [exact Hrun|]. apply (Hf' w_ref). right. by apply is_live; vm_compute.
Defined.

Definition w_face : gmap string User := {[ "u1" := mkUser "u1" "ann" "Ann" w_ref "" 0 zero_Privacy ]}.

Lemma avatar_collected_witness :
  (MayFetch (Some w_face) true (λ _, w_tk) "u9" w_ref w_chats).2 = Ok true ∧
  ∃ files' k, SweepOrphans (Some (log_refs (mdb (w_bare w_files)))) (w_noon + 2 * gcMinAge) None (Some w_files) = (Some files', Ok k) ∧
    (DownloadURL w_media (Some (MayFetch (Some w_face) true (λ _, w_tk))) (Some files') w_noon "u1" w_ref w_chats).2 = Err media_not_found.
Proof.
  destruct (avatar_collected w_media (mdb (w_bare w_files)) w_face "u1" (w_noon + 2 * gcMinAge) w_files w_ref (mkFile w_text w_noon) (λ _, w_tk)
    (mkUser "u1" "ann" "Ann" w_ref "" 0 zero_Privacy) w_chats w_noon w_entries) as (Hmay & files' & k & Hrun & Hno);
    [by vm_compute..|by apply not_live; vm_compute|].
  split; [by apply Hmay|]. exists files', k. split; [exact Hrun|apply Hno].
Defined.


Definition w_alias : string := "x/" +:+ w_ref.
Definition w_posted (ref : string) (w : Local (B := Rest (B := w_events))) : Local (B := Rest (B := w_events)) :=
  (Delete ∅ w_tk "o3" 3000 "u3" "c2" "m2" (Send ∅ w_tk "m2" "o2" 2000 (only_media "u3" "c2" ref) w).1).1.
Lemma alias_swaps_content_witness :
  live_ref w_ref (mdb (w_posted w_alias w_world)) ∧
  (handleUpload w_media (Ok tt) w_noon (w_put (sbytes "WORLD")) (blobs_of (w_posted w_alias w_world))).1 =
    Some (<[w_ref := mkFile (sbytes "WORLD") w_noon]> (delete w_ref w_files)).
Proof.
  destruct (alias_swaps_content ∅ w_tk w_tk "m2" "o2" "o3" 2000 3000 "u3" "c2" w_alias w_ref w_files w_world w_world_good eq_refl)
    as (Hlive & _ & Hput); [by vm_compute..|by apply not_live; vm_compute|by vm_compute|
    by exists (mkFile w_text w_noon); vm_compute|by apply is_live; vm_compute|].
  split; [exact Hlive|].
  apply (Hput w_media w_suffix 42 w_noon 5 100 w_ticket w_noon); first [exact w_ticket_issued | by vm_compute | by split; vm_compute].
Defined.

Lemma store_removed_witness : blobs_of (w_posted "." (w_bare ∅)) = None.
Proof.
  apply (store_removed ∅ w_tk w_tk "m2" "o2" "o3" 2000 3000 "u3" "c2" (w_bare ∅) w_media_reachable eq_refl);
    [by vm_compute..|by apply not_live; vm_compute|by vm_compute].
Defined.
(** All messages of [w_world] are in [c1]. *)
Lemma w_world_messages c : c ≠ "c1" → messages_of c (mdb w_world) = [].
Proof.
  intros Hc. destruct (post_media ∅ w_tk "m1" "o1" 1000 "u1" "c1" w_ref (w_bare w_files) w_media_reachable eq_refl eq_refl)
    as (_ & _ & _ & _ & Ho). unfold w_world. rewrite (Ho c Hc). unfold messages_of.
  assert (messages (mdb (w_bare w_files)) = ∅) as -> by by vm_compute. by rewrite lookup_empty.
Qed.
Lemma w_world_ids : chat_ids_ok (mdb w_world).
Proof. intros c Hc. destruct (decide (c = "c1")) as [->|Hne]; [done|]. by rewrite w_world_messages in Hc. Qed.
Lemma w_unseen : ¬ sees "u3" w_ref (mdb w_world).
Proof.
  intros (c & m & Hin & _ & Hd). destruct (decide (c = "c1")) as [->|Hne]; [by vm_compute in Hd|].
  rewrite w_world_messages in Hin by done. by apply elem_of_nil in Hin.
Qed.
Lemma w_faceless us : us = ∅ → ¬ is_avatar w_ref us.
Proof. intros -> (u & v & Hu & _). by rewrite lookup_empty in Hu. Qed.


Lemma leaked_ref_fetchable_witness :
  ∃ link, (DownloadURL w_media (Some (MayFetch (Some ∅) true (λ _, w_tk))) (Some w_files) w_noon "u3" w_ref
    (Send ∅ w_tk "m2" "o2" 2000 (only_media "u3" "c2" w_ref) w_world).1.1).2 = Ok link.
Proof.
  destruct (leaked_ref_fetchable ∅ w_tk "m2" "o2" 2000 "u3" "c2" w_ref w_world w_media ∅ (λ _, w_tk) w_noon w_world_good eq_refl)
    as [_ Hlink]; [by vm_compute..|exact w_world_ids|by vm_compute|by apply w_faceless|exact w_unseen|by vm_compute|by vm_compute|].
  destruct Hlink as [link Hlink]. exists link. rewrite <- Hlink. by vm_compute.
Defined.
End witnesses.
