(* ===== verification/Search.v ===== *)
(** * Search

    [internal/search] search.go and memory.go: the inverted index fed by message events, and
    queries scoped to the chats of the caller. *)

From S2P Require Import Prelude Bytes GoStrings Model MemAccounts EventBus MemChats ChatService Erasure.

Definition defaultLimit : Z := 20.
Definition maxLimit : Z := 50.
Definition maxDocs : Z := 100000.

Record Doc := mkDoc {
  Doc_MessageID : string;
  Doc_ChatID : string;
  Doc_SenderID : string;
  Doc_Seq : Z;
  Doc_Text : string;
  Doc_CreatedAt : Z;
}.
#[global] Instance Doc_eq_dec : EqDecision Doc.
Proof. solve_decision. Defined.

Record SearchQuery := mkQuery {
  Q_Text : string;
  Q_UserID : string;
  Q_ChatIDs : list string;
  Q_ChatID : string;
  Q_SenderID : string;
  Q_Limit : Z;
}.

Record memoryBackend := mkBackend {
  docs : gmap string Doc;
  inverted : gmap string (gset string);
  order : list string;
}.
Definition NewMemoryBackend : memoryBackend := mkBackend ∅ ∅ [].

(** The separator test of [tokenize]; a byte above 127 is part of a rune that is none. *)
Definition separator (c : byte) : bool :=
  let z := Zbyte c in negb ((97 <=? z) && (z <=? 122)) && negb ((48 <=? z) && (z <=? 57)) && (z <? 128).
(** [strings.FieldsFunc]: the runs of other characters; [cur] is the one being read. *)
Fixpoint FieldsFunc (sep : byte → bool) (cur b : bytes) : list bytes :=
  match b with
  | [] => match cur with [] => [] | _ => [cur] end
  | c :: b =>
      if sep c then match cur with [] => FieldsFunc sep [] b | _ => cur :: FieldsFunc sep [] b end
      else FieldsFunc sep (cur ++ [c]) b
  end.
(** The fields of at least two bytes, each at its first occurrence. *)
Fixpoint dedup_fields (seen : list bytes) (fields : list bytes) : list string :=
  match fields with
  | [] => []
  | f :: fields =>
      if (len f <? 2) || bool_decide (f ∈ seen) then dedup_fields seen fields
      else bstring f :: dedup_fields (f :: seen) fields
  end.

Section search.
Context `{Unicode} `{RangeOrder}.

Definition tokenize (text : string) : list string :=
  dedup_fields [] (FieldsFunc separator [] (ToLower (sbytes text))).

Definition add_token (id tok : string) (inv : gmap string (gset string)) : gmap string (gset string) :=
  <[tok := {[id]} ∪ default ∅ (inv !! tok)]> inv.
Definition remove_token (id tok : string) (inv : gmap string (gset string)) : gmap string (gset string) :=
  match inv !! tok with
  | None => inv
  | Some set => let set := set ∖ {[id]} in if bool_decide (set = ∅) then delete tok inv else <[tok := set]> inv
  end.
Definition removeTokensLocked (d : Doc) (inv : gmap string (gset string)) : gmap string (gset string) :=
  foldl (λ inv tok, remove_token (Doc_MessageID d) tok inv) inv (tokenize (Doc_Text d)).

(** [for len(s.docs) > maxDocs && len(s.order) > 0]: each turn drops a name. *)
Fixpoint evict_docs (ord : list string) (s : memoryBackend) : memoryBackend :=
  if maxDocs <? maplen (docs s) then
    match ord with
    | [] => mkBackend (docs s) (inverted s) []
    | oldest :: ord =>
        evict_docs ord
          match docs s !! oldest with
          | Some od => mkBackend (delete oldest (docs s)) (removeTokensLocked od (inverted s)) (order s)
          | None => s
          end
    end
  else mkBackend (docs s) (inverted s) ord.

Definition Index (d : Doc) (s : memoryBackend) : memoryBackend :=
  let id := Doc_MessageID d in
  let old := docs s !! id in
  let inv := match old with Some o => removeTokensLocked o (inverted s) | None => inverted s end in
  let inv := foldl (λ inv tok, add_token id tok inv) inv (tokenize (Doc_Text d)) in
  let s := mkBackend (<[id := d]> (docs s)) inv (order s) in
  match old with
  | Some _ => s
  | None => evict_docs (order s ++ [id]) s
  end.

Definition search_Delete (messageID : string) (s : memoryBackend) : memoryBackend :=
  match docs s !! messageID with
  | Some d => mkBackend (delete messageID (docs s)) (removeTokensLocked d (inverted s)) (order s)
  | None => s
  end.

(** The documents that have every token: an intersection, given up at a token none has. *)
Fixpoint candidates (inv : gmap string (gset string)) (acc : gset string) (tokens : list string) : option (gset string) :=
  match tokens with
  | [] => Some acc
  | tok :: tokens => match inv !! tok with None => None | Some set => candidates inv (acc ∩ set) tokens end
  end.
Definition all_candidates (inv : gmap string (gset string)) (tokens : list string) : option (gset string) :=
  match tokens with
  | [] => None
  | tok :: rest => match inv !! tok with None => None | Some set => candidates inv set rest end
  end.

(** Newest first, then the greater id. *)
Definition not_later (a b : Doc) : Prop :=
  Doc_CreatedAt b < Doc_CreatedAt a ∨ (Doc_CreatedAt a = Doc_CreatedAt b ∧ String.le (Doc_MessageID b) (Doc_MessageID a)).
#[global] Instance not_later_dec : RelDecision not_later.
Proof. intros a b. unfold not_later. apply _. Defined.

Definition in_scope (q : SearchQuery) (d : Doc) : bool :=
  bool_decide (Doc_ChatID d ∈ Q_ChatIDs q) &&
  (bool_decide (Q_ChatID q = "") || bool_decide (Doc_ChatID d = Q_ChatID q)) &&
  (bool_decide (Q_SenderID q = "") || bool_decide (Doc_SenderID d = Q_SenderID q)).

Definition Search (q : SearchQuery) (s : memoryBackend) : list Doc :=
  let tokens := tokenize (Q_Text q) in
  let limit := if Q_Limit q <=? 0 then defaultLimit else Q_Limit q in
  if bool_decide (tokens = []) || bool_decide (Q_ChatIDs q = []) then []
  else match all_candidates (inverted s) tokens with
       | None => []
       | Some ids =>
           let out := filter (λ d, Is_true (in_scope q d)) (omap (λ id, docs s !! id) (elements ids)) in
           let out := merge_sort not_later out in
           if limit <? len out then ztake limit out else out
       end.

(** ** The service *)

(** [onUpsert] and [onDelete] on the decoded body. *)
Definition onUpsert (b : NewMessageBody) (s : memoryBackend) : memoryBackend :=
  if NM_Deleted b then search_Delete (NM_MessageID b) s
  else Index (mkDoc (NM_MessageID b) (NM_ChatID b) (NM_SenderID b) (NM_ChatSeq b) (NM_Text b) (NM_Timestamp b)) s.
Definition onDelete (b : NewMessageBody) (s : memoryBackend) : memoryBackend := search_Delete (NM_MessageID b) s.

Definition QueryFiltered (t : Ticks * Ticks) (q : SearchQuery) (ix : memoryBackend) : M Service (list Doc) :=
  let limit := if Q_Limit q <=? 0 then defaultLimit else Q_Limit q in
  let limit := if maxLimit <? limit then maxLimit else limit in
  let scoped ids := mkQuery (Q_Text q) (Q_UserID q) ids (Q_ChatID q) (Q_SenderID q) limit in
  if bool_decide (Q_UserID q = "") then mret []
  else if negb (bool_decide (Q_ChatID q = "")) then
    ok ← IsMember t.1 t.2 (Q_ChatID q) (Q_UserID q);
    mret (if (ok : bool) then Search (scoped [Q_ChatID q]) ix else [])
  else
    ids ← UserChatIDs (Q_UserID q);
    mret (match (ids : list string) with [] => [] | _ => Search (scoped ids) ix end).
End search.

(** ** The index as a list of documents *)

(** What reaches the index: the calls the two handlers make. *)
Inductive IndexOp := Upsert (d : Doc) | Remove (id : string).
Definition apply_op `{Unicode} (s : memoryBackend) (op : IndexOp) : memoryBackend :=
  match op with Upsert d => Index d s | Remove id => search_Delete id s end.
Definition run_index `{Unicode} (ops : list IndexOp) : memoryBackend := foldl apply_op NewMemoryBackend ops.

(** The last version of each message that has not been removed since. *)
Definition latest_op (m : gmap string Doc) (op : IndexOp) : gmap string Doc :=
  match op with Upsert d => <[Doc_MessageID d := d]> m | Remove id => delete id m end.
Definition latest (ops : list IndexOp) : gmap string Doc := foldl latest_op ∅ ops.

(** The events of the bus that reach the service, and the call each amounts to. *)
Inductive IndexEvent := Upserted (b : NewMessageBody) | Dropped (b : NewMessageBody).
Definition on_event `{Unicode} (s : memoryBackend) (e : IndexEvent) : memoryBackend :=
  match e with Upserted b => onUpsert b s | Dropped b => onDelete b s end.
Definition op_of (e : IndexEvent) : IndexOp :=
  match e with
  | Upserted b =>
      if NM_Deleted b then Remove (NM_MessageID b)
      else Upsert (mkDoc (NM_MessageID b) (NM_ChatID b) (NM_SenderID b) (NM_ChatSeq b) (NM_Text b) (NM_Timestamp b))
  | Dropped b => Remove (NM_MessageID b)
  end.
Definition fed `{Unicode} (evs : list IndexEvent) : memoryBackend := foldl on_event NewMemoryBackend evs.

(** Every word of the query is a word of the text. *)
Definition matching `{Unicode} (text : string) (d : Doc) : bool :=
  negb (bool_decide (tokenize text = [])) && forallb (λ tok, bool_decide (tok ∈ tokenize (Doc_Text d))) (tokenize text).
(** The reference: look at every document. *)
Definition scan (limit : Z) (keep : Doc → bool) (m : gmap string Doc) : list Doc :=
  ztake limit (merge_sort not_later (filter (λ d, Is_true (keep d)) (map_to_list m).*2)).

(** ** Lemmas *)

#[global] Instance not_later_trans : Transitive not_later.
Proof.
  intros a b c [?|[? Hab]] [?|[? Hbc]]; unfold not_later; [left; lia..|right; split; [lia|]].
  by transitivity (Doc_MessageID b).
Qed.
#[global] Instance not_later_total : Total not_later.
Proof.
  intros a b. unfold not_later.
  destruct (total String.le (Doc_MessageID a) (Doc_MessageID b)), (Z.lt_trichotomy (Doc_CreatedAt a) (Doc_CreatedAt b)) as [|[|]]; auto.
Qed.

Definition keyed (m : gmap string Doc) : Prop := ∀ id d, m !! id = Some d → Doc_MessageID d = id.

Lemma not_later_antisymm m a b : keyed m → (∃ i, m !! i = Some a) → (∃ i, m !! i = Some b) → not_later a b → not_later b a → a = b.
Proof.
  intros Hk [i Hi] [j Hj] [?|[E L]] [?|[E2 L']]; try lia.
  assert (Doc_MessageID a = Doc_MessageID b) as E' by exact (anti_symm String.le _ _ L' L).
  pose proof (Hk _ _ Hi). pose proof (Hk _ _ Hj). congruence.
Qed.

(** Sorted, the documents of a keyed map come in one order only. *)
Lemma sorted_same m l1 l2 : keyed m → l1 ≡ₚ l2 → (∀ d, d ∈ l1 → ∃ i, m !! i = Some d) → merge_sort not_later l1 = merge_sort not_later l2.
Proof.
  intros Hk Hp Hin. apply (StronglySorted_unique_strong not_later).
  - intros a b Ha Hb. rewrite merge_sort_Permutation in Ha. rewrite merge_sort_Permutation, <- Hp in Hb. apply (not_later_antisymm m); auto.
  - apply StronglySorted_merge_sort; apply _.
  - apply StronglySorted_merge_sort; apply _.
  - by rewrite !merge_sort_Permutation.
Qed.

Lemma keyed_values_NoDup m : keyed m → NoDup (map_to_list m).*2.
Proof.
  intros Hk. apply NoDup_fmap_2_strong; [|apply NoDup_map_to_list].
  intros [i d] [j d'] Hi%elem_of_map_to_list Hj%elem_of_map_to_list. cbn. intros <-. f_equal. by rewrite <- (Hk _ _ Hi), <- (Hk _ _ Hj).
Qed.
Lemma elem_of_values (m : gmap string Doc) d : d ∈ (map_to_list m).*2 ↔ ∃ i, m !! i = Some d.
Proof.
  rewrite list_elem_of_fmap. split.
  - intros ([i d'] & -> & Hi%elem_of_map_to_list). by exists i.
  - intros [i Hi]. exists (i, d). by rewrite elem_of_map_to_list.
Qed.
Lemma keyed_picks_NoDup m ids : keyed m → NoDup ids → NoDup (omap (λ id, m !! id) ids).
Proof.
  intros Hk. induction 1 as [|id ids Hid Hnd IH]; cbn; [constructor|]. destruct (m !! id) as [d|] eqn:E; [|done]. constructor; [|done].
  intros (j & Hj & Ej)%list_elem_of_omap. apply Hid. by rewrite <- (Hk _ _ E), (Hk _ _ Ej).
Qed.

Section index.
Context `{Unicode}.
Implicit Types inv : gmap string (gset string).

Definition post inv (tok : string) : gset string := default ∅ (inv !! tok).
Definition no_empty inv : Prop := ∀ tok, inv !! tok ≠ Some ∅.

Lemma add_token_post id tok inv t : post (add_token id tok inv) t = if decide (t = tok) then {[id]} ∪ post inv t else post inv t.
Proof. unfold post, add_token. destruct (decide (t = tok)) as [->|]; [by rewrite lookup_insert_eq|by rewrite lookup_insert_ne]. Qed.
Lemma remove_token_post id tok inv t : post (remove_token id tok inv) t = if decide (t = tok) then post inv t ∖ {[id]} else post inv t.
Proof.
  unfold post, remove_token. destruct (inv !! tok) as [set|] eqn:E; [case_bool_decide as Hs|]; destruct (decide (t = tok)) as [->|].
  - rewrite lookup_delete_eq, E. cbn. set_solver.
  - by rewrite lookup_delete_ne.
  - by rewrite lookup_insert_eq, E.
  - by rewrite lookup_insert_ne.
  - rewrite E. cbn. set_solver.
  - done.
Qed.
Lemma add_token_full id tok inv : no_empty inv → no_empty (add_token id tok inv).
Proof.
  intros Hn t. unfold add_token. destruct (decide (t = tok)) as [->|]; [rewrite lookup_insert_eq|by rewrite lookup_insert_ne].
  intros E. assert (id ∈ (∅ : gset string)) as []%not_elem_of_empty. injection E as <-. apply elem_of_union_l. by apply elem_of_singleton.
Qed.
Lemma remove_token_full id tok inv : no_empty inv → no_empty (remove_token id tok inv).
Proof.
  intros Hn t. unfold remove_token. destruct (inv !! tok) as [set|] eqn:E; [|done]. case_bool_decide as Hs; destruct (decide (t = tok)) as [->|].
  - by rewrite lookup_delete_eq.
  - by rewrite lookup_delete_ne.
  - rewrite lookup_insert_eq. congruence.
  - by rewrite lookup_insert_ne.
Qed.

Lemma add_tokens_post id toks inv t x :
  x ∈ post (foldl (λ inv tok, add_token id tok inv) inv toks) t ↔ x ∈ post inv t ∨ (x = id ∧ t ∈ toks).
Proof.
  revert inv. induction toks as [|tok toks IH]; intros inv; cbn; [rewrite elem_of_nil; tauto|].
  rewrite IH, add_token_post, elem_of_cons. destruct (decide (t = tok)); [rewrite elem_of_union, elem_of_singleton|]; tauto.
Qed.
Lemma remove_tokens_post id toks inv t x :
  x ∈ post (foldl (λ inv tok, remove_token id tok inv) inv toks) t ↔ x ∈ post inv t ∧ ¬ (x = id ∧ t ∈ toks).
Proof.
  revert inv. induction toks as [|tok toks IH]; intros inv; cbn; [rewrite elem_of_nil; tauto|].
  rewrite IH, remove_token_post, elem_of_cons. destruct (decide (t = tok)); [rewrite elem_of_difference, elem_of_singleton|]; tauto.
Qed.
Lemma tokens_full (f : string → gmap string (gset string) → gmap string (gset string)) toks inv :
  (∀ tok inv, no_empty inv → no_empty (f tok inv)) → no_empty inv → no_empty (foldl (λ inv tok, f tok inv) inv toks).
Proof. intros Hf. revert inv. induction toks as [|tok toks IH]; cbn; auto. Qed.

(** The inverted lists say which texts have which words. *)
Record inverts (m : gmap string Doc) inv : Prop := mkInverts {
  i_keyed : keyed m;
  i_full : no_empty inv;
  i_post tok id : id ∈ post inv tok ↔ ∃ d, m !! id = Some d ∧ tok ∈ tokenize (Doc_Text d);
}.

Lemma remove_inverts m inv id d : m !! id = Some d → inverts m inv → inverts (delete id m) (removeTokensLocked d inv).
Proof.
  intros Hd [Hk Hf Hp]. pose proof (Hk _ _ Hd) as Hid. split.
  - intros i x [_ Hx]%lookup_delete_Some. eauto.
  - apply tokens_full; [|done]. intros. by apply remove_token_full.
  - intros tok i. unfold removeTokensLocked. rewrite remove_tokens_post, Hp, Hid. setoid_rewrite lookup_delete_Some. naive_solver.
Qed.
Lemma insert_inverts m inv d : m !! Doc_MessageID d = None → inverts m inv →
  inverts (<[Doc_MessageID d := d]> m) (foldl (λ inv tok, add_token (Doc_MessageID d) tok inv) inv (tokenize (Doc_Text d))).
Proof.
  intros Hd [Hk Hf Hp]. split.
  - intros i x [[<- <-]|[_ Hx]]%lookup_insert_Some; [done|eauto].
  - apply tokens_full; [|done]. intros. by apply add_token_full.
  - intros tok i. rewrite add_tokens_post, Hp. setoid_rewrite lookup_insert_Some. split; [naive_solver|].
    intros (x & [[<- <-]|[? ?]] & ?); naive_solver.
Qed.

Record index_wf (s : memoryBackend) : Prop := mkIndexWf {
  x_inverts : inverts (docs s) (inverted s);
  x_order id : is_Some (docs s !! id) → id ∈ order s;
  x_bound : maplen (docs s) ≤ maxDocs;
}.

Lemma evict_docs_wf ord s :
  inverts (docs s) (inverted s) → (∀ id, is_Some (docs s !! id) → id ∈ ord) → index_wf (evict_docs ord s) ∧ docs (evict_docs ord s) ⊆ docs s.
Proof.
  revert s. induction ord as [|o ord IH]; intros s Hi Ho; cbn; destruct (maxDocs <? maplen (docs s)) eqn:E.
  - apply Z.ltb_lt in E. exfalso. assert (docs s = ∅) as Hs.
    { apply map_eq. intros id. rewrite lookup_empty. destruct (docs s !! id) as [d|] eqn:Ed; [|done]. specialize (Ho id (mk_is_Some _ _ Ed)). set_solver. }
    rewrite Hs in E. unfold maplen in E. rewrite map_size_empty in E. unfold maxDocs in E. lia.
  - apply Z.ltb_ge in E. by split.
  - destruct (docs s !! o) as [od|] eqn:Eo.
    + destruct (IH (mkBackend (delete o (docs s)) (removeTokensLocked od (inverted s)) (order s))) as [Hw Hsub]; [by apply remove_inverts| |split; [done|]].
      * cbn. intros id [d [Hne Hd]%lookup_delete_Some]. specialize (Ho id (mk_is_Some _ _ Hd)). set_solver.
      * etrans; [done|]. apply delete_subseteq.
    + apply IH; [done|]. intros id [d Hd]. specialize (Ho id (mk_is_Some _ _ Hd)). set_solver.
  - apply Z.ltb_ge in E. by split.
Qed.
Lemma evict_docs_small ord s : maplen (docs s) ≤ maxDocs → docs (evict_docs ord s) = docs s.
Proof. intros Hs. destruct ord; cbn; by rewrite (proj2 (Z.ltb_ge _ _) Hs). Qed.

Lemma index_docs_inverts d s : inverts (docs s) (inverted s) →
  inverts (<[Doc_MessageID d := d]> (docs s))
    (foldl (λ inv tok, add_token (Doc_MessageID d) tok inv)
       match docs s !! Doc_MessageID d with Some o => removeTokensLocked o (inverted s) | None => inverted s end (tokenize (Doc_Text d))).
Proof.
  intros Hi. destruct (docs s !! Doc_MessageID d) as [o|] eqn:E; [|by apply insert_inverts].
  rewrite <- insert_delete_eq. apply insert_inverts; [apply lookup_delete_eq|by apply remove_inverts].
Qed.
Lemma Index_wf d s : index_wf s → index_wf (Index d s) ∧ docs (Index d s) ⊆ <[Doc_MessageID d := d]> (docs s).
Proof.
  intros [Hi Ho Hb]. pose proof (index_docs_inverts d s Hi) as Hi'. unfold Index. destruct (docs s !! Doc_MessageID d) as [o|] eqn:E.
  - split; [|done]. split; [done| |]; cbn.
    + intros id [x [[<- _]|[_ Hx]]%lookup_insert_Some]; apply Ho; by eexists.
    + unfold maplen. rewrite map_size_insert, E. exact Hb.
  - apply evict_docs_wf; [done|]. cbn. intros id [x [[<- _]|[_ Hx]]%lookup_insert_Some]; apply elem_of_app; [right; by apply list_elem_of_singleton|left].
    apply Ho. by eexists.
Qed.
Lemma search_Delete_wf id s : index_wf s → index_wf (search_Delete id s) ∧ docs (search_Delete id s) = delete id (docs s).
Proof.
  intros Hs. unfold search_Delete. destruct (docs s !! id) as [d|] eqn:E; [|split; [done|by rewrite delete_id]].
  split; [|done]. destruct Hs as [Hi Ho Hb]. split; cbn.
  - by apply remove_inverts.
  - intros i [x [_ Hx]%lookup_delete_Some]. apply Ho. by eexists.
  - unfold maplen in *. rewrite map_size_delete. destruct (docs s !! id); cbn; lia.
Qed.
Lemma latest_size ops : maplen (latest ops) ≤ len ops.
Proof.
  induction ops as [|op ops IH] using rev_ind; [done|]. unfold latest in *. rewrite foldl_snoc, len_app. change (len [op]) with 1.
  unfold maplen in *. destruct op as [d|id]; cbn; [rewrite map_size_insert|rewrite map_size_delete]; case_match; unfold Datatypes.id; lia.
Qed.
Lemma run_index_latest ops :
  index_wf (run_index ops) ∧ docs (run_index ops) ⊆ latest ops ∧ (len ops ≤ maxDocs → docs (run_index ops) = latest ops).
Proof.
  induction ops as [|op ops (Hw & Hs & He)] using rev_ind.
  - split; [|done]. split; cbn; [|intros id [d Hd]; by rewrite lookup_empty in Hd|done].
    split; [by intros id d Hd; rewrite lookup_empty in Hd|by intros tok; rewrite lookup_empty|].
    intros tok id. unfold post. rewrite lookup_empty. split; [by intros ?%not_elem_of_empty|intros (d & Hd & _); by rewrite lookup_empty in Hd].
  - pose proof (latest_size (ops ++ [op])) as Hsz. revert Hsz. unfold run_index, latest in *. rewrite !foldl_snoc, len_app. change (len [op]) with 1.
    destruct op as [d|id]; cbn [apply_op latest_op]; intros Hsz.
    + destruct (Index_wf d _ Hw) as [Hw' Hs']. split; [done|]. split; [etrans; [done|]; by apply insert_mono|]. intros Hl. rewrite <- He in Hsz |- * by lia.
      unfold Index. destruct (docs _ !! _); [done|]. rewrite evict_docs_small; [done|]. cbn. lia.
    + destruct (search_Delete_wf id _ Hw) as [Hw' ->]. split; [done|]. split; [by apply delete_mono|]. intros Hl. by rewrite He by lia.
Qed.

(** *** Queries *)

Lemma candidates_spec inv acc toks :
  match candidates inv acc toks with
  | Some ids => ∀ id, id ∈ ids ↔ id ∈ acc ∧ ∀ tok, tok ∈ toks → id ∈ post inv tok
  | None => ∃ tok, tok ∈ toks ∧ post inv tok = ∅
  end.
Proof.
  revert acc. induction toks as [|tok toks IH]; intros acc; cbn.
  - intros id. split; [intros ?; split; [done|by intros tok ?%elem_of_nil]|by intros [? _]].
  - destruct (inv !! tok) as [set|] eqn:E.
    + assert (post inv tok = set) as Hset by (unfold post; by rewrite E). specialize (IH (acc ∩ set)). destruct (candidates _ _ _) as [ids|].
      * intros id. rewrite IH, elem_of_intersection. setoid_rewrite elem_of_cons. rewrite <- Hset. naive_solver.
      * destruct IH as (t & Ht & Hp). exists t. rewrite elem_of_cons. auto.
    + exists tok. rewrite elem_of_cons. split; [by left|]. unfold post. by rewrite E.
Qed.
Lemma all_candidates_spec inv toks : toks ≠ [] →
  match all_candidates inv toks with
  | Some ids => ∀ id, id ∈ ids ↔ ∀ tok, tok ∈ toks → id ∈ post inv tok
  | None => ∃ tok, tok ∈ toks ∧ post inv tok = ∅
  end.
Proof.
  destruct toks as [|tok toks]; [done|]. intros _. cbn. destruct (inv !! tok) as [set|] eqn:E.
  - assert (post inv tok = set) as Hset by (unfold post; by rewrite E). pose proof (candidates_spec inv set toks) as IH. destruct (candidates _ _ _) as [ids|].
    + intros id. rewrite IH. setoid_rewrite elem_of_cons. rewrite <- Hset. naive_solver.
    + destruct IH as (t & Ht & Hp). exists t. rewrite elem_of_cons. auto.
  - exists tok. rewrite elem_of_cons. split; [by left|]. unfold post. by rewrite E.
Qed.
End index.

Section queries.
Context `{Unicode} `{RangeOrder}.

Definition hits (q : SearchQuery) (d : Doc) : bool := matching (Q_Text q) d && in_scope q d.
Definition limit_of (n : Z) : Z := if n <=? 0 then defaultLimit else n.

Lemma matching_spec text d : matching text d = true ↔ tokenize text ≠ [] ∧ ∀ tok, tok ∈ tokenize text → tok ∈ tokenize (Doc_Text d).
Proof.
  unfold matching. rewrite andb_true_iff, negb_true_iff, bool_decide_eq_false, forallb_forall.
  split; (intros [? Hall]; split; [done|]); intros tok Htok.
  - apply list_elem_of_In in Htok. apply Hall in Htok. by apply bool_decide_eq_true in Htok.
  - apply bool_decide_eq_true, Hall. by apply list_elem_of_In.
Qed.
Lemma scan_none limit keep m : (∀ id d, m !! id = Some d → keep d = false) → scan limit keep m = [].
Proof.
  intros Hk. unfold scan. assert (filter (λ d, Is_true (keep d)) (map_to_list m).*2 = []) as ->; [|apply take_nil].
  apply elem_of_nil_inv. intros d [Hd (i & Hi)%elem_of_values]%list_elem_of_filter. by rewrite (Hk _ _ Hi) in Hd.
Qed.
Lemma scan_perm limit keep m l : keyed m → NoDup l → (∀ d, d ∈ l ↔ (∃ i, m !! i = Some d) ∧ keep d = true) →
  ztake limit (merge_sort not_later l) = scan limit keep m.
Proof.
  intros Hk Hnd Hl. unfold scan. f_equal. apply (sorted_same m); [done| |by intros d [? _]%Hl]. apply NoDup_Permutation; [done| |].
  - apply NoDup_filter. by apply keyed_values_NoDup.
  - intros d. rewrite Hl, list_elem_of_filter, elem_of_values, Is_true_true. tauto.
Qed.

Lemma Search_scan q s : index_wf s → Search q s = scan (limit_of (Q_Limit q)) (hits q) (docs s).
Proof.
  intros [[Hk Hf Hp] _ _]. unfold Search. fold (limit_of (Q_Limit q)).
  assert (∀ text d, tokenize text = [] → matching text d = false) as Hm by (intros text d E; unfold matching; by rewrite E).
  case_bool_decide as Et; [symmetry; apply scan_none; intros id d _; unfold hits; by rewrite Hm|].
  case_bool_decide as Ec; [symmetry; apply scan_none; intros id d _; unfold hits, in_scope; rewrite Ec; apply andb_false_r|]. cbn [orb].
  pose proof (all_candidates_spec (inverted s) _ Et) as Hc. destruct (all_candidates _ _) as [ids|].
  - match goal with |- (if _ then ztake ?n ?l else _) = _ => assert (∀ b : bool, b = (n <? len l) → (if b then ztake n l else l) = ztake n l) as Hz end.
    { intros b ->. case_match eqn:E; [done|]. symmetry. apply take_ge. apply Z.ltb_ge in E. unfold len in E. lia. }
    rewrite (Hz _ eq_refl). apply scan_perm; [done| |].
    + apply NoDup_filter, keyed_picks_NoDup; [done|apply NoDup_elements].
    + intros d. rewrite list_elem_of_filter, Is_true_true, list_elem_of_omap. setoid_rewrite elem_of_elements. unfold hits. rewrite andb_true_iff, matching_spec. split.
      * intros [Hs (id & Hid & Hd)]. split; [by exists id|]. split; [|done]. split; [done|]. intros tok Htok. apply (Hc id) in Htok; [|done].
        apply Hp in Htok as (d' & Hd' & ?). congruence.
      * intros [[id Hd] [[_ Hall] Hs]]. split; [done|]. exists id. split; [|done]. apply Hc. intros tok Htok. apply Hp. eauto.
  - symmetry. apply scan_none. intros id d Hd. unfold hits. destruct (matching (Q_Text q) d) eqn:E; [|done]. apply matching_spec in E as [_ E].
    destruct Hc as (tok & Htok & Hempty). exfalso. assert (id ∈ post (inverted s) tok) as Hin by (apply Hp; eauto). rewrite Hempty in Hin. by apply not_elem_of_empty in Hin.
Qed.

Lemma scan_ext limit keep keep' m : keyed m → (∀ id d, m !! id = Some d → keep d = keep' d) → scan limit keep m = scan limit keep' m.
Proof.
  intros Hk He. unfold scan at 1. apply scan_perm; [done|apply NoDup_filter; by apply keyed_values_NoDup|].
  intros d. rewrite list_elem_of_filter, elem_of_values, Is_true_true. split; intros [Ha Hb].
  - split; [done|]. destruct Hb as [i Hi]. by rewrite <- (He _ _ Hi).
  - split; [|done]. destruct Ha as [i Hi]. by rewrite (He _ _ Hi).
Qed.

(** What a caller may be shown: a match in a chat they are in, of the chat and the author they
    asked for. *)
Definition visible (db : ChatDB) (q : SearchQuery) (d : Doc) : bool :=
  matching (Q_Text q) d && bool_decide (is_Some (members_of (Doc_ChatID d) db !! Q_UserID q)) &&
  (bool_decide (Q_ChatID q = "") || bool_decide (Doc_ChatID d = Q_ChatID q)) &&
  (bool_decide (Q_SenderID q = "") || bool_decide (Doc_SenderID d = Q_SenderID q)).
Definition query_limit (n : Z) : Z := Z.min maxLimit (limit_of n).

Lemma UserChatIDs_members u s : ∃ ids, UserChatIDs u s = (s, Ok ids) ∧ ∀ c, c ∈ ids ↔ is_Some (members_of c (cdb s) !! u).
Proof.
  eexists. split; [by destruct s|]. intros c. rewrite list_elem_of_fmap. setoid_rewrite list_elem_of_filter. unfold members_of. split.
  - intros ([c' m] & -> & Hm & Hin%elem_of_range_map). cbn in *. by rewrite Hin.
  - destruct (members (cdb s) !! c) as [m|] eqn:E; cbn; [|intros [x Hx]; by rewrite lookup_empty in Hx].
    intros Hm. exists (c, m). split; [done|]. split; [done|]. by apply elem_of_range_map.
Qed.

Lemma limit_capped n : (if maxLimit <? limit_of n then maxLimit else limit_of n) = query_limit n ∧ limit_of (query_limit n) = query_limit n.
Proof.
  unfold query_limit, limit_of, maxLimit, defaultLimit. split; [case_match eqn:E|]; repeat case_match; lia.
Qed.

Definition scoped (q : SearchQuery) (ids : list string) : SearchQuery :=
  mkQuery (Q_Text q) (Q_UserID q) ids (Q_ChatID q) (Q_SenderID q) (query_limit (Q_Limit q)).
Lemma Search_scoped q ids ix keep : index_wf ix → (∀ d, hits (scoped q ids) d = keep d) →
  Search (scoped q ids) ix = scan (query_limit (Q_Limit q)) keep (docs ix).
Proof.
  intros Hw Hh. rewrite Search_scan by done. unfold scoped at 1. cbn [Q_Limit]. rewrite (proj2 (limit_capped _)).
  apply scan_ext; [apply (i_keyed _ _ (x_inverts _ Hw))|auto].
Qed.
Lemma hits_member db q ids d : (Doc_ChatID d ∈ ids ↔ is_Some (members_of (Doc_ChatID d) db !! Q_UserID q)) → hits (scoped q ids) d = visible db q d.
Proof. intros Hi. unfold hits, visible, in_scope, scoped. cbn. by rewrite (bool_decide_ext _ _ Hi), !andb_assoc. Qed.
Lemma hits_named db q d : Q_ChatID q ≠ "" → is_Some (members_of (Q_ChatID q) db !! Q_UserID q) → hits (scoped q [Q_ChatID q]) d = visible db q d.
Proof.
  intros Hc Hm. unfold hits, visible, in_scope, scoped. cbn. rewrite (bool_decide_false (Q_ChatID q = "")) by done. cbn [orb].
  destruct (decide (Doc_ChatID d = Q_ChatID q)) as [->|Hne].
  - rewrite (bool_decide_true (is_Some _)), (bool_decide_true (_ ∈ _)) by (done || by apply list_elem_of_singleton). by rewrite !andb_assoc.
  - rewrite (bool_decide_false (Doc_ChatID d = _)) by done. by rewrite !andb_false_r.
Qed.
Lemma visible_elsewhere db q d : Q_ChatID q ≠ "" → ¬ is_Some (members_of (Q_ChatID q) db !! Q_UserID q) → visible db q d = false.
Proof.
  intros Hc Hm. unfold visible. rewrite (bool_decide_false (Q_ChatID q = "")) by done. cbn [orb].
  destruct (decide (Doc_ChatID d = Q_ChatID q)) as [->|Hne];
    [rewrite (bool_decide_false (is_Some _)) by done|rewrite (bool_decide_false (Doc_ChatID d = _)) by done]; by rewrite !andb_false_r.
Qed.

Lemma query_answer t q ix s :
  coherent s → no_bar (Q_ChatID q) = true → index_wf ix → Q_UserID q ≠ "" →
  (QueryFiltered t q ix s).2 =
    if bool_decide (Q_ChatID q ≠ "" ∧ chats (cdb s) !! Q_ChatID q = None) then Err store_ErrNotFound
    else Ok (scan (query_limit (Q_Limit q)) (visible (cdb s) q) (docs ix)).
Proof.
  intros Hs Hb Hw Hu. unfold QueryFiltered. fold (limit_of (Q_Limit q)). rewrite (proj1 (limit_capped _)). fold (scoped q).
  rewrite (bool_decide_false (Q_UserID q = "")) by done. destruct (decide (Q_ChatID q = "")) as [Ec|Ec].
  - rewrite (bool_decide_true (Q_ChatID q = "")), (bool_decide_false (_ ∧ _)) by naive_solver. cbn [negb].
    destruct (UserChatIDs_members (Q_UserID q) s) as (ids & Hids & Hin). rewrite M_bind_eq, Hids. cbn. f_equal.
    rewrite <- (Search_scoped q ids) by (done || intros d; by apply hits_member). destruct ids; [|done]. unfold Search. by rewrite orb_true_r.
  - rewrite (bool_decide_false (Q_ChatID q = "")) by done. cbn [negb]. rewrite M_bind_eq.
    pose proof (decisions_exact s t.1 t.2 (Q_ChatID q) (Q_UserID q) Hs Hb) as Hd. cbv zeta in Hd.
    destruct (IsMember t.1 t.2 (Q_ChatID q) (Q_UserID q) s) as [s' r]. cbn [snd] in Hd |- *.
    destruct (chats (cdb s) !! Q_ChatID q) as [c|]; destruct Hd as (_ & -> & _); [|by rewrite (bool_decide_true (_ ∧ _))].
    rewrite (bool_decide_false (_ ∧ _)) by naive_solver. cbn. f_equal. case_bool_decide as Hm.
    + apply Search_scoped; [done|]. intros d. by apply hits_named.
    + symmetry. apply scan_none. intros id d _. by apply visible_elsewhere.
Qed.

Lemma fed_run evs : fed evs = run_index (op_of <$> evs).
Proof.
  unfold fed, run_index. generalize NewMemoryBackend. induction evs as [|e evs IH]; intros s; [done|]. cbn. rewrite <- IH. f_equal.
  destruct e as [b|b]; [|done]. cbn. unfold onUpsert. by destruct (NM_Deleted b).
Qed.
Lemma fed_wf evs : index_wf (fed evs).
Proof. rewrite fed_run. apply run_index_latest. Qed.

(** C18: The inverted index answers as a look at every document would.  After any events, a search
    returns the newest documents with all the words of the query, within the scope and up to
    the limit; the documents are last versions of messages not deleted since, never more than
    the cap, and all of them while no more events than the cap have come. *)
Theorem search_exact evs q :
  let ix := fed evs in
  let last := latest (op_of <$> evs) in
  Search q ix = scan (limit_of (Q_Limit q)) (λ d, matching (Q_Text q) d && in_scope q d) (docs ix) ∧
  docs ix ⊆ last ∧ maplen (docs ix) ≤ maxDocs ∧ (len evs ≤ maxDocs → docs ix = last).
Proof.
  cbv zeta. destruct (run_index_latest (op_of <$> evs)) as (Hw & Hs & He). rewrite <- fed_run in Hw, Hs, He.
  split; [by apply Search_scan|]. split; [done|]. split; [by apply x_bound|]. intros Hl. apply He. unfold len in *. by rewrite length_fmap.
Qed.

(** C17: A search shows what the caller may read and nothing else.  In every state of the chat
    service the answer is the newest matches, at most fifty, among the indexed messages of the
    chats the caller is a member of at that moment, of the chat and author asked for; a named
    chat that does not exist is reported, and no caller means no answer. *)
Theorem query_exact evs t q s :
  reachable s → no_bar (Q_ChatID q) = true →
  (QueryFiltered t q (fed evs) s).2 =
    if bool_decide (Q_UserID q = "") then Ok []
    else if bool_decide (Q_ChatID q ≠ "" ∧ chats (cdb s) !! Q_ChatID q = None) then Err store_ErrNotFound
    else Ok (scan (query_limit (Q_Limit q)) (visible (cdb s) q) (docs (fed evs))).
Proof.
  intros Hs%reachable_coherent Hb. case_bool_decide as Hu; [|apply query_answer; auto using fed_wf].
  unfold QueryFiltered. by rewrite (bool_decide_true (Q_UserID q = "")).
Qed.

Lemma coherent_fresh now db : members_ok db → coherent (ChatService.New now db).
Proof. intros Hm. split; [exact Hm|..]; cbn; intros *; rewrite ?lookup_empty; intros; simplify_eq. Qed.
Lemma erased_members u now st st' : DeleteAccount_ u now st = (st', Ok tt) →
  chats (fs_chats st') = chats (fs_chats st) ∧ outbox (fs_chats st') = outbox (fs_chats st) ∧
  members (fs_chats st') = drop_empty (forget_user u (members (fs_chats st))).
Proof. unfold DeleteAccount_. destruct (users _ !! u); [|done]. by intros [= <-]. Qed.
Lemma erased_row u db c v : v ≠ u →
  default ∅ (drop_empty (forget_user u (members db)) !! c) !! v = members_of c db !! v.
Proof.
  intros Hv. unfold members_of. pose proof (drop_empty_row (forget_user u (members db)) c v) as E. rewrite forget_user_row in E by done.
  destruct (drop_empty _ !! c), (members db !! c); cbn in *; by rewrite ?lookup_empty.
Qed.

(** Erasing an account does not reach the search index.  The store stages no event for the
    messages it empties, so the index is not told, and every other user's search returns after
    the erasure exactly what it returned before: the erased author's texts and id included. *)
Theorem erasure_keeps_hits evs t q u now now' st st' :
  members_ok (fs_chats st) → no_bar (Q_ChatID q) = true → Q_UserID q ≠ u → DeleteAccount_ u now st = (st', Ok tt) →
  outbox (fs_chats st') = outbox (fs_chats st) ∧
  (QueryFiltered t q (fed evs) (ChatService.New now' (fs_chats st'))).2 = (QueryFiltered t q (fed evs) (ChatService.New now' (fs_chats st))).2.
Proof.
  intros Hm Hb Hu Hd. destruct (erased_members u now st st' Hd) as (Hc & Ho & Hmm). split; [done|].
  assert (∀ c v, v ≠ u → members_of c (fs_chats st') !! v = members_of c (fs_chats st) !! v) as Hrow by (intros c v Hv; unfold members_of at 1; rewrite Hmm; by apply erased_row).
  assert (members_ok (fs_chats st')) as Hm'.
  { intros c v m Hv. destruct (decide (v = u)) as [->|Hne]; [|rewrite Hrow in Hv by done; by apply (Hm c)].
    exfalso. unfold members_of in Hv. rewrite Hmm in Hv. destruct (drop_empty _ !! c) as [x|] eqn:E; cbn in Hv; [|by rewrite lookup_empty in Hv].
    apply drop_empty_Some, forget_user_None in E. congruence. }
  destruct (decide (Q_UserID q = "")) as [E|E]; [unfold QueryFiltered; by rewrite (bool_decide_true (Q_UserID q = ""))|].
  rewrite !query_answer by auto using coherent_fresh, fed_wf. cbn [cdb ChatService.New]. rewrite Hc. case_bool_decide; [done|]. f_equal.
  apply scan_ext; [apply (i_keyed _ _ (x_inverts _ (fed_wf evs)))|]. intros id d _. unfold visible. by rewrite Hrow.
Qed.
End queries.

(** ** Witnesses *)

Section witnesses.
#[local] Existing Instance ascii_tables.
#[local] Existing Instance canonical_order.

(** A message of "u1" in the chat "c1", and one in a chat "u2" is not in. *)
Definition w_body (id chat text : string) (at_ : Z) : NewMessageBody := mkNewMessage id chat "u1" 1 text "" "" None None 0 "" 0 false false at_.
Definition w_events : list IndexEvent :=
  [Upserted (w_body "m1" "c1" "The meeting, at nine" 5); Upserted (w_body "m2" "c2" "another MEETING" 6);
   Upserted (w_body "m3" "c1" "meeting moved" 7); Dropped (w_body "m3" "c1" "" 7)].
Definition w_query : SearchQuery := mkQuery "Meeting" "u2" [] "" "" 0.
Definition w_hit : Doc := mkDoc "m1" "c1" "u1" 1 "The meeting, at nine" 5.

Lemma query_exact_witness :
  (QueryFiltered (w_ticks 2, w_ticks 2) w_query (fed w_events) w_channel).2 = Ok [w_hit].
Proof.
  rewrite (query_exact w_events (w_ticks 2, w_ticks 2) w_query w_channel w_channel_reachable eq_refl). vm_compute. reflexivity.
Defined.

Definition w_erasable : FullStore :=
  mkFull (fs_accounts w_full) (cdb w_channel) (fs_contacts w_full) (fs_pins w_full) (fs_scheduled w_full) (fs_invites w_full) (fs_reactions w_full)
    (fs_polls w_full) (fs_calls w_full) (fs_secrets w_full) (fs_billing w_full).
Definition w_erased : FullStore := (DeleteAccount_ "u1" 9 w_erasable).1.

Lemma erasure_keeps_hits_witness :
  DeleteAccount_ "u1" 9 w_erasable = (w_erased, Ok tt) ∧
  (QueryFiltered (w_ticks 9, w_ticks 9) w_query (fed w_events) (ChatService.New 9 (fs_chats w_erased))).2 = Ok [w_hit].
Proof.
  assert (DeleteAccount_ "u1" 9 w_erasable = (w_erased, Ok tt)) as Hd by (vm_compute; reflexivity). split; [exact Hd|].
  rewrite (proj2 (erasure_keeps_hits w_events (w_ticks 9, w_ticks 9) w_query "u1" 9 9 w_erasable w_erased
    (co_members _ (reachable_coherent _ w_channel_reachable)) eq_refl ltac:(discriminate) Hd)).
  vm_compute. reflexivity.
Defined.
End witnesses.
