(* ===== verification/Edge.v ===== *)
(** * The edge: addresses, proxies and the accept guard

    [internal/gateway] clientip.go (whose address a request is charged to), proxyproto.go (the
    PROXY protocol v2 header of a trusted balancer) and ipguard.go (connections per address),
    with the parts of Go's [net] and [net/netip] they use. *)

From S2P Require Import Prelude Bytes GoStrings Strconv.

(** ** Addresses *)

Definition IndexByte (c : byte) (b : bytes) : option nat := fst <$> list_find (λ x, x = c) b.
Definition contains_byte (c : byte) (b : bytes) : bool := bool_decide (c ∈ b).
Definition LastIndexByte (c : byte) (b : bytes) : option nat :=
  (λ i, (length b - 1 - i)%nat) <$> IndexByte c (reverse b).
Definition at_char (z : Z) (b : bytes) (i : nat) : bool := bool_decide (b !! i = Some (byteZ z)).

(** [net.SplitHostPort]; [None] is an error. *)
Definition SplitHostPort (hostport : bytes) : option (bytes * bytes) :=
  i ← LastIndexByte (byteZ 58) hostport;
  '(host, j, k) ← (if at_char 91 hostport 0 then
                     close ← IndexByte (byteZ 93) hostport;
                     if bool_decide (S close = length hostport) then None
                     else if bool_decide (S close = i) then Some (take (close - 1) (drop 1 hostport), 1%nat, S close)
                     else None
                   else
                     let host := take i hostport in
                     if contains_byte (byteZ 58) host then None else Some (host, 0%nat, 0%nat));
  if contains_byte (byteZ 91) (drop j hostport) then None
  else if contains_byte (byteZ 93) (drop k hostport) then None
  else Some (host, drop (S i) hostport).

Definition hostOf (remote : bytes) : bytes :=
  match SplitHostPort remote with Some (h, _) => h | None => remote end.

(** [netip.parseIPv4Fields]: the value and the digits of the octet being read, the octets before
    it. *)
Fixpoint parseIPv4Fields (val digLen : Z) (fields s : bytes) : option bytes :=
  match s with
  | [] => if len fields <? 3 then None else Some (fields ++ [byteZ val])
  | c :: s =>
      if is_digit c then
        if (digLen =? 1) && (val =? 0) then None
        else let val := val * 10 + (Zbyte c - 48) in
             if 255 <? val then None else parseIPv4Fields val (digLen + 1) fields s
      else if bool_decide (c = byteZ 46) then
        if (digLen =? 0) || (len s =? 0) then None
        else if len fields =? 3 then None
        else parseIPv4Fields 0 0 (fields ++ [byteZ val]) s
      else None
  end.

Definition hex_digit (c : byte) : option Z :=
  let z := Zbyte c in
  if is_digit c then Some (z - 48)
  else if (97 <=? z) && (z <=? 102) then Some (z - 97 + 10)
  else if (65 <=? z) && (z <=? 70) then Some (z - 65 + 10)
  else None.
(** The digits of one group: how many, their value, and the text after them. *)
Fixpoint hex_group (off acc : Z) (s : bytes) : option (Z * Z * bytes) :=
  match s with
  | [] => Some (off, acc, [])
  | c :: s' =>
      match hex_digit c with
      | None => Some (off, acc, s)
      | Some d => let acc := Z.shiftl acc 4 + d in
                  if (3 <? off) || (65535 <? acc) then None else hex_group (off + 1) acc s'
      end
  end.
(** The loop over groups: the bytes so far, where the ellipsis is, and the text left.  A turn
    adds two bytes to at most sixteen. *)
Fixpoint ipv6_groups (fuel : nat) (ip : bytes) (ellipsis : option nat) (s : bytes) : option (bytes * option nat * bytes) :=
  match fuel with
  | O => Some (ip, ellipsis, s)
  | S fuel =>
      '(off, acc, rest) ← hex_group 0 0 s;
      if off =? 0 then None
      else if at_char 46 rest 0 then
        if bool_decide (ellipsis = None) && negb (len ip =? 12) then None
        else if 16 <? len ip + 4 then None
        else v4 ← parseIPv4Fields 0 0 [] s; Some (ip ++ v4, ellipsis, [])
      else
        let ip := ip ++ [byteZ (Z.shiftr acc 8); byteZ acc] in
        match rest with
        | [] => Some (ip, ellipsis, [])
        | c :: s =>
            if negb (bool_decide (c = byteZ 58)) then None
            else match s with
                 | [] => None
                 | c :: s' =>
                     if bool_decide (c = byteZ 58) then
                       if bool_decide (is_Some ellipsis) then None
                       else match s' with
                            | [] => Some (ip, Some (length ip), [])
                            | _ => ipv6_groups fuel ip (Some (length ip)) s'
                            end
                     else ipv6_groups fuel ip ellipsis s
                 end
        end
  end.
Definition zeros (n : nat) : bytes := replicate n (byteZ 0).
Definition v4InV6Prefix : bytes := zeros 10 ++ [byteZ 255; byteZ 255].

(** [netip.Addr]: sixteen bytes, whether it is a plain IPv4 address, and the zone. *)
Record Addr := mkAddr { Addr_As16 : bytes; Addr_Is4 : bool; Addr_Zone : bytes }.

Definition parseIPv6 (s : bytes) : option Addr :=
  '(s, zone) ← (match IndexByte (byteZ 37) s with
                | None => Some (s, [])
                | Some i => let zone := drop (S i) s in if len zone =? 0 then None else Some (take i s, zone)
                end);
  let colons := at_char 58 s 0 && at_char 58 s 1 in
  let s := if colons then drop 2 s else s in
  if colons && (len s =? 0) then Some (mkAddr (zeros 16) false zone)
  else
    '(ip, ellipsis, rest) ← ipv6_groups 8 [] (if colons then Some 0%nat else None) s;
    if negb (len rest =? 0) then None
    else if len ip <? 16 then
      match ellipsis with
      | None => None
      | Some e => Some (mkAddr (take e ip ++ zeros (16 - length ip) ++ drop e ip) false zone)
      end
    else if bool_decide (is_Some ellipsis) then None else Some (mkAddr ip false zone).

Fixpoint ParseAddr_from (all s : bytes) : option Addr :=
  match s with
  | [] => None
  | c :: s =>
      if bool_decide (c = byteZ 46) then v4 ← parseIPv4Fields 0 0 [] all; Some (mkAddr (v4InV6Prefix ++ v4) true [])
      else if bool_decide (c = byteZ 58) then parseIPv6 all
      else if bool_decide (c = byteZ 37) then None
      else ParseAddr_from all s
  end.
Definition ParseAddr (s : bytes) : option Addr := ParseAddr_from s s.

(** [net.ParseIP]: sixteen bytes. *)
Definition ParseIP (s : bytes) : option bytes :=
  a ← ParseAddr s; if len (Addr_Zone a) =? 0 then Some (Addr_As16 a) else None.

Definition To4 (ip : bytes) : option bytes :=
  if len ip =? 4 then Some ip
  else if (len ip =? 16) && bool_decide (take 12 ip = v4InV6Prefix) then Some (drop 12 ip)
  else None.

Record IPNet := mkIPNet { Net_IP : bytes; Net_Mask : bytes }.
Definition and_bytes (a b : bytes) : bytes := zip_with (λ x y, byteZ (Z.land (Zbyte x) (Zbyte y))) a b.

(** [net.CIDRMask(ones, bits)] for [0 <= ones <= bits], a multiple of eight. *)
Definition CIDRMask (ones bits : Z) : bytes :=
  be_put (Z.to_nat (bits / 8)) (2 ^ bits - 2 ^ (bits - ones)).
(** [IP.Mask]. *)
Definition ip_Mask (ip mask : bytes) : bytes :=
  let mask := if (len mask =? 16) && (len ip =? 4) && bool_decide (take 12 mask = replicate 12 (byteZ 255)) then drop 12 mask else mask in
  let ip := if (len mask =? 4) && (len ip =? 16) && bool_decide (take 12 ip = v4InV6Prefix) then drop 12 ip else ip in
  if len ip =? len mask then and_bytes ip mask else [].

(** [dtoi]: the digits at the start of the text. *)
Fixpoint dtoi (n : Z) (i : Z) (s : bytes) : option (Z * Z) :=
  match s with
  | [] => if i =? 0 then None else Some (n, i)
  | c :: s =>
      if is_digit c then
        let n := n * 10 + (Zbyte c - 48) in
        if 16777215 <=? n then None else dtoi n (i + 1) s
      else if i =? 0 then None else Some (n, i)
  end.
Definition ParseCIDR (s : bytes) : option IPNet :=
  at_ ← IndexByte (byteZ 47) s;
  let mask := drop (S at_) s in
  a ← ParseAddr (take at_ s);
  '(n, i) ← dtoi 0 0 mask;
  let bits := if Addr_Is4 a then 32 else 128 in
  if negb (len (Addr_Zone a) =? 0) || negb (i =? len mask) || (bits <? n) then None
  else Some (mkIPNet (ip_Mask (Addr_As16 a) (CIDRMask n bits)) (CIDRMask n bits)).

(** [networkNumberAndMask] and [IPNet.Contains]. *)
Definition networkNumberAndMask (n : IPNet) : bytes * bytes :=
  match To4 (Net_IP n) with
  | None => if negb (len (Net_IP n) =? 16) then ([], []) else if len (Net_Mask n) =? 16 then (Net_IP n, Net_Mask n) else ([], [])
  | Some ip => if len (Net_Mask n) =? 4 then (ip, Net_Mask n) else if len (Net_Mask n) =? 16 then (ip, drop 12 (Net_Mask n)) else ([], [])
  end.
Definition Contains (n : IPNet) (ip : bytes) : bool :=
  let '(nn, m) := networkNumberAndMask n in
  let ip := default ip (To4 ip) in
  (len ip =? len nn) && bool_decide (and_bytes nn m = and_bytes ip m).

(** ** Whose address *)

Section clientip.
Context `{Unicode}.

Fixpoint parseTrustedProxies (entries : list bytes) : list IPNet * list bytes :=
  match entries with
  | [] => ([], [])
  | raw :: entries =>
      let '(nets, bad) := parseTrustedProxies entries in
      let entry := TrimSpace raw in
      if len entry =? 0 then (nets, bad)
      else match ParseCIDR entry with
           | Some n => (n :: nets, bad)
           | None =>
               match ParseIP entry with
               | Some ip => let bits := if bool_decide (To4 ip = None) then 128 else 32 in (mkIPNet ip (CIDRMask bits bits) :: nets, bad)
               | None => (nets, entry :: bad)
               end
           end
  end.

Definition isTrustedProxy (addr : bytes) (trusted : list IPNet) : bool :=
  if len trusted =? 0 then false
  else match ParseIP addr with None => false | Some ip => existsb (λ n, Contains n ip) trusted end.

(** The entries of the [X-Forwarded-For] values, left to right. *)
Definition chain_of (values : list bytes) : list bytes :=
  filter (λ p, p ≠ []) (TrimSpace <$> (values ≫= Split (byteZ 44))).
(** The walk from the right end; [rev] is the chain reversed. *)
Fixpoint walk_chain (trusted : list IPNet) (peer : bytes) (rev : list bytes) : bytes :=
  match rev with
  | [] => peer
  | e :: rev =>
      let candidate := hostOf e in
      if bool_decide (ParseIP candidate = None) then peer
      else if negb (isTrustedProxy candidate trusted) then candidate
      else walk_chain trusted peer rev
  end.
Definition clientIP (remoteAddr : bytes) (values : list bytes) (trusted : list IPNet) : bytes :=
  let peer := hostOf remoteAddr in
  if negb (isTrustedProxy peer trusted) then peer else walk_chain trusted peer (reverse (chain_of values)).
End clientip.

(** ** The PROXY header *)

Definition proxyV2Signature : bytes := byteZ <$> [13; 10; 13; 10; 0; 13; 10; 81; 85; 73; 84; 10].
(** [net.TCPAddr] as the header gives it. *)
Record TCPAddr := mkTCPAddr { TCP_IP : bytes; TCP_Port : Z }.

(** [io.ReadFull] of [n] bytes: they and the rest of the stream. *)
Definition ReadFull (n : Z) (r : bytes) : option (bytes * bytes) :=
  if len r <? n then None else Some (ztake n r, zdrop n r).
Definition byte_at (b : bytes) (i : nat) : Z := default 0 (Zbyte <$> b !! i).

(** The answer and what is left of the stream; [inr tt] is [errProxyHeader], after which the
    connection is closed. *)
Definition readProxyV2 (r : bytes) : (option TCPAddr + unit) * bytes :=
  match ReadFull 16 r with
  | None => (inr tt, [])
  | Some (hdr, r) =>
      if negb (bool_decide (take 12 hdr = proxyV2Signature)) || negb (Z.shiftr (byte_at hdr 12) 4 =? 2) then (inr tt, r)
      else match ReadFull (be_get (take 2 (drop 14 hdr))) r with
           | None => (inr tt, [])
           | Some (body, r) =>
               let cmd := Z.land (byte_at hdr 12) 15 in
               if cmd =? 0 then (inl None, r)
               else if negb (cmd =? 1) then (inr tt, r)
               else if byte_at hdr 13 =? 17 then
                 if len body <? 12 then (inr tt, r)
                 else (inl (Some (mkTCPAddr (take 4 body) (be_get (take 2 (drop 8 body))))), r)
               else if byte_at hdr 13 =? 33 then
                 if len body <? 36 then (inr tt, r)
                 else (inl (Some (mkTCPAddr (take 16 body) (be_get (take 2 (drop 32 body))))), r)
               else (inl None, r)
           end
  end.

(** A connection of a trusted proxy: its stream, the proxy's own address, and what [once] found. *)
Record proxyConn := mkProxyConn {
  pc_stream : bytes;
  pc_peer : TCPAddr;
  pc_once : option (option TCPAddr + unit);
}.
Definition resolve (p : proxyConn) : proxyConn :=
  match pc_once p with
  | Some _ => p
  | None => let '(a, r) := readProxyV2 (pc_stream p) in mkProxyConn r (pc_peer p) (Some a)
  end.
Definition pc_RemoteAddr (p : proxyConn) : proxyConn * TCPAddr :=
  let p := resolve p in
  (p, match pc_once p with Some (inl (Some remote)) => remote | _ => pc_peer p end).
(** [Read] into a buffer of [n] bytes; [None] is the header's error. *)
Definition pc_Read (n : Z) (p : proxyConn) : proxyConn * option bytes :=
  let p := resolve p in
  match pc_once p with
  | Some (inr _) => (p, None)
  | _ => (mkProxyConn (zdrop n (pc_stream p)) (pc_peer p) (pc_once p), Some (ztake n (pc_stream p)))
  end.
Definition proxyHeaderErr (p : proxyConn) : proxyConn * bool :=
  let p := resolve p in (p, match pc_once p with Some (inr _) => true | _ => false end).

(** [Accept]: the connection as it is, or a wrapped one. *)
Definition Accept (trusted : list IPNet) (remote : bytes) (peer : TCPAddr) (stream : bytes) : bytes + proxyConn :=
  if negb (isTrustedProxy (hostOf remote) trusted) then inl stream else inr (mkProxyConn stream peer None).

(** ** The accept guard *)

(** [rated] says whether an accept rate is set; the limiter's answer is an argument. *)
Record ipGuard := mkGuard { rated : bool; maxPerIP : Z; concurrent : gmap string Z }.
Definition newIPGuard (rated : bool) (maxPerIP : Z) : ipGuard := mkGuard rated maxPerIP ∅.

(** A nil guard admits everything. *)
Definition acquire (allow : string → bool) (remote : bytes) (g : option ipGuard) : option ipGuard * (string * bool) :=
  match g with
  | None => (None, ("", true))
  | Some g =>
      let host := bstring (hostOf remote) in
      if rated g && negb (allow host) then (Some g, (host, false))
      else if 0 <? maxPerIP g then
        let n := default 0 (concurrent g !! host) in
        if maxPerIP g <=? n then (Some g, (host, false))
        else (Some (mkGuard (rated g) (maxPerIP g) (<[host := n + 1]> (concurrent g))), (host, true))
      else (Some g, (host, true))
  end.
Definition release (host : string) (g : option ipGuard) : option ipGuard :=
  match g with
  | None => None
  | Some g =>
      if (maxPerIP g <=? 0) || bool_decide (host = "") then Some g
      else let n := default 0 (concurrent g !! host) in
           Some (mkGuard (rated g) (maxPerIP g) (if n <=? 1 then delete host (concurrent g) else <[host := n - 1]> (concurrent g)))
  end.

(** ** Lemmas *)

Lemma Split_nonempty c b : Split c b ≠ [].
Proof. induction b as [|x b IH]; [done|]. cbn. case_bool_decide; [done|]. by destruct (Split c b). Qed.
Lemma Split_sep c a b : Split c (a ++ c :: b) = Split c a ++ Split c b.
Proof.
  induction a as [|x a IH]; cbn; [by rewrite bool_decide_true|]. rewrite IH. case_bool_decide; [done|].
  pose proof (Split_nonempty c a). by destruct (Split c a).
Qed.

Section edge.
Context `{Unicode} (trusted : list IPNet).

Lemma chain_app vs ws : chain_of (vs ++ ws) = chain_of vs ++ chain_of ws.
Proof. unfold chain_of. by rewrite bind_app, fmap_app, filter_app. Qed.
Lemma chain_comma v w : chain_of [v ++ byteZ 44 :: w] = chain_of [v] ++ chain_of [w].
Proof. unfold chain_of. cbn. by rewrite !app_nil_r, Split_sep, fmap_app, filter_app. Qed.
Lemma trusted_parses a : isTrustedProxy a trusted = true → ParseIP a ≠ None.
Proof. unfold isTrustedProxy. case_match; [done|]. by destruct (ParseIP a). Qed.

(** The value our own proxies wrote: the client they saw, then each other. *)
Definition own_entry (own a : bytes) : Prop :=
  ∃ hops, chain_of [own] = a :: hops ∧ ParseIP (hostOf a) ≠ None ∧ isTrustedProxy (hostOf a) trusted = false ∧
    Forall (λ h, isTrustedProxy (hostOf h) trusted = true) hops.

Lemma walk_hops peer hops rest : Forall (λ h, isTrustedProxy (hostOf h) trusted = true) hops →
  walk_chain trusted peer (hops ++ rest) = walk_chain trusted peer rest.
Proof.
  induction 1 as [|h hops Hh _ IH]; [done|]. cbn. rewrite bool_decide_false by by apply trusted_parses. by rewrite Hh.
Qed.
Lemma clientIP_own remote vs v own a : isTrustedProxy (hostOf remote) trusted = true → own_entry own a →
  clientIP remote (vs ++ [v ++ byteZ 44 :: own]) trusted = hostOf a.
Proof.
  intros Hr (hops & Hc & Hp & Hu & Hh). unfold clientIP. rewrite Hr. cbn [negb]. rewrite chain_app, chain_comma, Hc, !reverse_app, reverse_cons, <- !app_assoc.
  rewrite walk_hops by by apply Forall_reverse. cbn. by rewrite bool_decide_false, Hu.
Qed.

(** *** The counts of the guard *)

Definition count (h : string) (live : list (bool * string)) : Z := len (filter (λ e, e.2 = h) live).
Definition ours (live : list (bool * string)) : Z := len (filter (λ e, e.1 = true) live).

Lemma count_cons h e live : count h (e :: live) = (if bool_decide (e.2 = h) then 1 else 0) + count h live.
Proof. unfold count, len. rewrite filter_cons. case_decide as E; [rewrite bool_decide_true by done|rewrite bool_decide_false by done]; cbn [length]; lia. Qed.
Lemma count_app h l l' : count h (l ++ l') = count h l + count h l'.
Proof. unfold count, len. rewrite filter_app, length_app. lia. Qed.
Lemma count_pos h l : 0 ≤ count h l.
Proof. unfold count, len. lia. Qed.

(** One node's guard and the connections it has admitted that have not ended: those of one
    client behind our proxies, flagged, who may send any header of its own, and all others. *)
Inductive traffic (own : bytes) : option ipGuard → list (bool * string) → Prop :=
  | t_new r n : traffic own (Some (newIPGuard r n)) []
  | t_client allow remote vs v g live : traffic own g live → isTrustedProxy (hostOf remote) trusted = true →
      let res := acquire allow (clientIP remote (vs ++ [v ++ byteZ 44 :: own]) trusted) g in
      traffic own res.1 (if res.2.2 then (true, res.2.1) :: live else live)
  | t_other allow remote g live : traffic own g live →
      let res := acquire allow remote g in
      traffic own res.1 (if res.2.2 then (false, res.2.1) :: live else live)
  | t_release g live1 e live2 : traffic own g (live1 ++ e :: live2) → traffic own (release e.2 g) (live1 ++ live2).

Record counted (g : ipGuard) (live : list (bool * string)) : Prop := mkCounted {
  ct_exact h : h ≠ "" → concurrent g !! h = (if count h live =? 0 then None else Some (count h live));
  ct_cap h : h ≠ "" → count h live ≤ maxPerIP g;
}.

Lemma counted_acquire allow remote g live b : 0 < maxPerIP g → counted g live →
  let res := acquire allow remote (Some g) in
  ∃ g', res.1 = Some g' ∧ maxPerIP g' = maxPerIP g ∧ counted g' (if res.2.2 then (b, res.2.1) :: live else live).
Proof.
  intros Hm [He Hc]. cbn. destruct (rated g && _); [by exists g|]. rewrite (proj2 (Z.ltb_lt _ _) Hm). destruct (maxPerIP g <=? _) eqn:E; [by exists g|].
  eexists. split; [done|]. split; [done|]. apply Z.leb_gt in E. set (host := bstring (hostOf remote)) in *.
  assert (host ≠ "" → default 0 (concurrent g !! host) = count host live) as Hn by (intros Hh; rewrite He by done; case_match; cbn; lia).
  pose proof (count_pos host live). split; cbn; intros h Hh; rewrite count_cons; cbn; case_bool_decide as Eh.
  - subst h. rewrite lookup_insert_eq, Hn by done. destruct (1 + count host live =? 0) eqn:E'; [lia|]. f_equal. lia.
  - rewrite lookup_insert_ne by done. by apply He.
  - subst h. rewrite Hn in E by done. lia.
  - by apply Hc.
Qed.
Lemma counted_release g live1 e live2 : 0 < maxPerIP g → counted g (live1 ++ e :: live2) →
  ∃ g', release e.2 (Some g) = Some g' ∧ maxPerIP g' = maxPerIP g ∧ counted g' (live1 ++ live2).
Proof.
  intros Hm [He Hc]. cbn. rewrite (proj2 (Z.leb_gt _ _) Hm). cbn [orb].
  assert (∀ h, count h (live1 ++ e :: live2) = (if bool_decide (e.2 = h) then 1 else 0) + count h (live1 ++ live2)) as Hx by (intros h; rewrite !count_app, count_cons; lia).
  assert (∀ h, 0 ≤ count h (live1 ++ live2)) as Hp by (intros; apply count_pos).
  case_bool_decide as E0; (eexists; split; [done|]; split; [done|]); split; cbn; intros h Hh; specialize (He h Hh); specialize (Hc h Hh); rewrite (Hx h) in He, Hc; specialize (Hp h).
  - rewrite bool_decide_false, Z.add_0_l in He by congruence. exact He.
  - case_bool_decide; lia.
  - destruct (decide (e.2 = h)) as [<-|Hne]; [|rewrite bool_decide_false, Z.add_0_l in He by done; destruct (_ <=? 1); by rewrite ?lookup_delete_ne, ?lookup_insert_ne].
    rewrite bool_decide_true in He by done. rewrite (proj2 (Z.eqb_neq _ _)) in He by lia. rewrite He. cbn [from_option]. unfold Datatypes.id.
    destruct (_ <=? 1) eqn:E2; [rewrite lookup_delete_eq|rewrite lookup_insert_eq]; destruct (count _ _ =? 0) eqn:E3; try done; [lia|lia|]. f_equal. lia.
  - case_bool_decide; lia.
Qed.

Lemma traffic_counted own g live : traffic own g live → ∃ gd, g = Some gd ∧ (0 < maxPerIP gd → counted gd live).
Proof.
  induction 1 as [r n|allow remote vs v g live _ (gd & -> & Hc) Ht res|allow remote g live _ (gd & -> & Hc) res|g live1 e live2 _ (gd & -> & Hc)].
  - eexists. split; [done|]. cbn. intros Hn. split; cbn; intros h Hh; [by rewrite lookup_empty|]. unfold count, len. cbn. lia.
  - destruct (decide (0 < maxPerIP gd)) as [Hm|Hm].
    + destruct (counted_acquire allow (clientIP remote (vs ++ [v ++ byteZ 44 :: own]) trusted) gd live true Hm (Hc Hm)) as (g' & Hg & _ & Hcg). by exists g'.
    + exists gd. split; [|lia]. unfold res. cbn. case_match; [done|]. by rewrite (proj2 (Z.ltb_ge _ _)) by lia.
  - destruct (decide (0 < maxPerIP gd)) as [Hm|Hm].
    + destruct (counted_acquire allow remote gd live false Hm (Hc Hm)) as (g' & Hg & _ & Hcg). by exists g'.
    + exists gd. split; [|lia]. unfold res. cbn. case_match; [done|]. by rewrite (proj2 (Z.ltb_ge _ _)) by lia.
  - destruct (decide (0 < maxPerIP gd)) as [Hm|Hm].
    + destruct (counted_release gd live1 e live2 Hm (Hc Hm)) as (g' & Hg & _ & Hcg). by exists g'.
    + exists gd. split; [|lia]. cbn. by rewrite (proj2 (Z.leb_le _ _)) by lia.
Qed.

Lemma ours_count own a g live : own_entry own a → traffic own g live →
  ∀ e, e ∈ live → e.1 = true → e.2 = bstring (hostOf (hostOf a)).
Proof.
  intros Ho. induction 1 as [r n|allow remote vs v g live Ht IH Hr res|allow remote g live Ht IH res|g live1 e live2 Ht IH].
  - by intros e ?%elem_of_nil.
  - destruct (traffic_counted own g live Ht) as (gd & -> & _). unfold res. rewrite (clientIP_own remote vs v own a) by done. intros e He He1.
    assert ((acquire allow (hostOf a) (Some gd)).2.1 = bstring (hostOf (hostOf a))) as Hk by (cbn; repeat case_match; done).
    destruct (acquire allow (hostOf a) (Some gd)).2.2; [|auto]. apply elem_of_cons in He as [->|?]; auto.
  - intros e He He1. destruct res.2.2; [|auto]. apply elem_of_cons in He as [->|?]; [done|auto].
  - intros x Hx. apply IH. set_solver.
Qed.

(** C27: A client behind our proxies cannot exceed its share.  Whatever the headers it sends, as long
    as each request reaches us through a trusted proxy that appends the client's address, the
    guard charges the same address for all of them; so however its connections and everybody
    else's are opened and closed, at most the cap of them are live at once. *)
Theorem client_capped own a g live :
  own_entry own a → bstring (hostOf (hostOf a)) ≠ "" → traffic own (Some g) live → 0 < maxPerIP g → ours live ≤ maxPerIP g.
Proof.
  intros Ho Hne Ht Hm. destruct (traffic_counted own (Some g) live Ht) as (gd & [= <-] & Hc). destruct (Hc Hm) as [_ Hcap].
  etrans; [|exact (Hcap _ Hne)]. pose proof (ours_count own a (Some g) live Ho Ht) as Hall. clear -Hall. unfold ours, count, len. apply Nat2Z.inj_le.
  induction live as [|e live IH]; [done|]. assert (length (filter (λ e, e.1 = true) live) ≤ length (filter (λ e, e.2 = bstring (hostOf (hostOf a))) live))%nat as IH'.
  { apply IH. intros x Hx. apply Hall. by right. }
  rewrite !filter_cons. destruct (decide (e.1 = true)) as [E|E]; [rewrite decide_True by (apply Hall; [by left|done]); cbn; lia|]. case_decide; cbn; lia.
Qed.
End edge.

(** ** The header *)

(** What the protocol says a balancer sends: version 2, command PROXY, the two addresses and
    ports, and any extensions. *)
Definition proxy_header (family : Z) (src dst : bytes) (sport dport : Z) (tlvs : bytes) : bytes :=
  let body := src ++ dst ++ be_put 2 sport ++ be_put 2 dport ++ tlvs in
  proxyV2Signature ++ [byteZ 33; byteZ family] ++ be_put 2 (len body) ++ body.

Lemma read_exactly_app n a b : len a = n → ReadFull n (a ++ b) = Some (a, b).
Proof.
  intros <-. unfold ReadFull. rewrite (proj2 (Z.ltb_ge _ _)) by (rewrite len_app; unfold len; lia). by rewrite ztake_app_len, zdrop_app_len.
Qed.

Definition tcp_family (family : Z) (src dst : bytes) : Prop :=
  (family = 17 ∧ len src = 4 ∧ len dst = 4) ∨ (family = 33 ∧ len src = 16 ∧ len dst = 16).
Lemma readProxyV2_header family src dst sport dport tlvs rest : tcp_family family src dst → 0 ≤ sport < 65536 → len tlvs ≤ 65499 →
  readProxyV2 (proxy_header family src dst sport dport tlvs ++ rest) = (inl (Some (mkTCPAddr src sport)), rest).
Proof.
  intros Hf Hp Ht. unfold proxy_header. set (body := src ++ dst ++ _ ++ _ ++ tlvs).
  assert (len body = len src + len dst + 4 + len tlvs) as Hb by (unfold body; rewrite !len_app, !len_be_put; lia).
  assert (len body < 65536) as Hlt by (destruct Hf as [(_ & ? & ?)|(_ & ? & ?)]; lia).
  set (hdr := proxyV2Signature ++ [byteZ 33; byteZ family] ++ be_put 2 (len body)).
  assert ((proxyV2Signature ++ [byteZ 33; byteZ family] ++ be_put 2 (len body) ++ body) ++ rest = hdr ++ body ++ rest) as ->
    by (unfold hdr; by rewrite <- !app_assoc).
  unfold readProxyV2. rewrite read_exactly_app by done.
  assert (take 12 hdr = proxyV2Signature) as -> by done. assert (byte_at hdr 12 = 33) as -> by done.
  assert (take 2 (drop 14 hdr) = be_put 2 (len body)) as -> by done.
  assert (byte_at hdr 13 = family) as Hfam by (change (Zbyte (byteZ family) = family); destruct Hf as [[-> _]|[-> _]]; done).
  rewrite be_get_put. rewrite Z.mod_small by (unfold len in *; lia). rewrite read_exactly_app by done. rewrite Hfam.
  assert (be_get (be_put 2 sport) = sport) as Hs by (rewrite be_get_put; by apply Z.mod_small).
  assert (∀ k, length src = k → length dst = k → take k body = src ∧ take 2 (drop (k + k) body) = be_put 2 sport) as Hparts.
  { intros k Hk Hk'. unfold body. split; [by rewrite take_app_length'|].
    rewrite app_assoc, drop_app_length' by (rewrite length_app; lia). by rewrite take_app_length' by (by rewrite length_be_put). }
  destruct Hf as [(-> & Hsrc & Hdst)|(-> & Hsrc & Hdst)].
  - destruct (Hparts 4%nat) as [-> E]; [unfold len in *; lia..|]. change (4 + 4)%nat with 8%nat in E. cbn -[be_get be_put Z.ltb drop].
    rewrite (proj2 (Z.ltb_ge _ _)) by (unfold len in *; lia). by rewrite E, Hs.
  - destruct (Hparts 16%nat) as [-> E]; [unfold len in *; lia..|]. change (16 + 16)%nat with 32%nat in E. cbn -[be_get be_put Z.ltb drop].
    rewrite (proj2 (Z.ltb_ge _ _)) by (unfold len in *; lia). by rewrite E, Hs.
Qed.

(** The client's address comes through a balancer unharmed.  For either address family, the
    address and port a trusted proxy's header carries are what the connection reports, the
    extensions are skipped, and the client's own bytes are what is read next, whether the
    address is asked for first or not. *)
Theorem proxy_address_read peer src dst sport dport tlvs rest n family :
  tcp_family family src dst → 0 ≤ sport < 65536 → len tlvs ≤ 65499 →
  let p := mkProxyConn (proxy_header family src dst sport dport tlvs ++ rest) peer None in
  (pc_RemoteAddr p).2 = mkTCPAddr src sport ∧
  (pc_Read n p).2 = Some (ztake n rest) ∧ (pc_Read n (pc_RemoteAddr p).1).2 = Some (ztake n rest).
Proof.
  intros Hf Hp Ht p. unfold pc_RemoteAddr, pc_Read, resolve, p. cbn [pc_once pc_stream pc_peer]. by rewrite (readProxyV2_header family).
Qed.

(** ** Witnesses *)

Section witnesses.
#[local] Existing Instance ascii_tables.

Definition w_nets : list IPNet := (parseTrustedProxies [sbytes "10.0.0.0/8"; sbytes " fd00::/16"; sbytes "192.0.2.7"]).1.
Definition w_own : bytes := sbytes " 203.0.113.9, 10.0.0.2".
(** Two requests with forged chains, the first closed in between; the cap is one. *)
Definition w_request (forged : string) (g : option ipGuard) : option ipGuard * (string * bool) :=
  acquire (λ _, true) (clientIP (sbytes "[fd00::5]:443") ([] ++ [sbytes forged ++ byteZ 44 :: w_own]) w_nets) g.
Definition w_guard : ipGuard := default (newIPGuard false 1) (w_request "1.2.3.4" (Some (newIPGuard false 1))).1.

Lemma w_own_entry : own_entry w_nets w_own (sbytes "203.0.113.9").
Proof. exists [sbytes "10.0.0.2"]. split; [vm_compute; reflexivity|]. split; [vm_compute; discriminate|]. split; [vm_compute; reflexivity|]. by repeat constructor. Qed.
Lemma w_traffic : traffic w_nets w_own (Some w_guard) [(true, "203.0.113.9")].
Proof.
  pose proof (t_client w_nets w_own (λ _, true) (sbytes "[fd00::5]:443") [] (sbytes "1.2.3.4") (Some (newIPGuard false 1)) [] (t_new _ _ false 1)) as Ht.
  vm_compute in Ht. vm_compute. exact (Ht eq_refl).
Qed.

Lemma client_capped_witness :
  ours [(true, "203.0.113.9")] ≤ maxPerIP w_guard ∧ (w_request "5.6.7.8, 9.9.9.9" (Some w_guard)).2 = ("203.0.113.9", false).
Proof.
  split; [|vm_compute; reflexivity].
  apply (client_capped w_nets w_own (sbytes "203.0.113.9") w_guard _ w_own_entry); [vm_compute; discriminate|exact w_traffic|reflexivity].
Defined.

Definition w_v6 : bytes := default [] (ParseIP (sbytes "2001:db8::17")).
Definition w_conn : proxyConn :=
  mkProxyConn (proxy_header 33 w_v6 (zeros 16) 5000 443 (sbytes "tlv") ++ sbytes "hello") (mkTCPAddr (byteZ <$> [10; 0; 0; 2]) 1) None.
Lemma proxy_address_read_witness : (pc_RemoteAddr w_conn).2 = mkTCPAddr w_v6 5000 ∧ (pc_Read 4 w_conn).2 = Some (sbytes "hell").
Proof.
  destruct (proxy_address_read (mkTCPAddr (byteZ <$> [10; 0; 0; 2]) 1) w_v6 (zeros 16) 5000 443 (sbytes "tlv") (sbytes "hello") 4 33) as (H1 & H2 & _).
  - right. split; [reflexivity|]. split; vm_compute; reflexivity.
  - lia.
  - vm_compute. discriminate.
  - split; [exact H1|exact H2].
Defined.
End witnesses.
