(* ===== verification/Rpc.v ===== *)
(** * The split deployment

    [internal/rpc]: convert.go and errors.go (what crosses the wire), server.go (a service
    behind gRPC) and client.go (the same interface over a connection).  The generated messages
    are records; gRPC itself is the class [Grpc]. *)

From S2P Require Import Prelude Bytes GoStrings Password Totp Model MemAccounts TwoFactor Auth EventBus MemChats MemMessages ChatService Summaries MessageService Erasure.

From Stdlib Require Import FunctionalExtensionality.

(** ** Messages on the wire ([services.proto]) *)

Module pb.
Record User := mkUser {
  Id : string; Username : string; DisplayName : string; AvatarRef : string; CreatedAt : Z;
  PrivacyLastSeen : string; PrivacyAvatar : string; PrivacyGroups : string; PrivacyPushPreview : bool }.
Record Session := mkSession {
  SId : string; UserId : string; DeviceId : string; Token : string; ResumeToken : string; SCreatedAt : Z; ExpiresAt : Z;
  RevokedAt : Z; PrevResumeToken : string; ResumeRotatedAt : Z }.
Record SessionRow := mkRow { RId : string; RUserId : string; RDeviceId : string; RCreatedAt : Z; RExpiresAt : Z; RRevokedAt : Z }.
Record Chat := mkChat {
  CId : string; CType : string; Title : string; OwnerId : string; CCreatedAt : Z; LastSeq : Z; CUsername : string }.
Record ChatMember := mkMember {
  MChatId : string; MUserId : string; Role : string; JoinedAt : Z; Muted : bool; MutedUntil : Z; Pinned : bool; Archived : bool }.
Record Attachment := mkAttachment {
  Kind : string; MediaRef : string; Filename : string; Mime : string; Size : Z; DurationMs : Z; Waveform : list Z;
  Width : Z; Height : Z; ThumbRef : string }.
Record ForwardOrigin := mkForward { FChatId : string; FMessageId : string; FSenderId : string }.
Record Message := mkMessage {
  MsId : string; MsChatId : string; MsSenderId : string; MsSeq : Z; MsText : string; MsMediaRef : string; MsReplyTo : string;
  MsEdited : bool; MsDeleted : bool; MsCreatedAt : Z; MsEditedAt : Z; MsAttachment : option Attachment; MsThreadRoot : string;
  MsReplyCount : Z; MsForward : option ForwardOrigin; MsExpiresAt : Z }.
Record ChatSummary := mkSummary {
  SuChat : option Chat; SuMyRole : string; SuPeerId : string; SuLastMessage : option Message; SuUnreadCount : Z;
  SuLastActivityAt : Z; SuMutedUntil : Z; SuPinned : bool; SuArchived : bool }.
Inductive Op := OP_UNSPECIFIED | OP_CREATE | OP_EDIT | OP_DELETE.
Record SubmitRequest := mkSubmit {
  SOp : Op; ActorId : string; ChatId : string; MessageId : string; DedupKey : string; Text : string; SMediaRef : string;
  ReplyTo : string; SAttachment : option Attachment; TtlSeconds : Z }.
Record SubmitReply := mkSubmitReply { RMessage : Message; Duplicate : bool }.
Record Flags := mkFlags { FlMutedUntil : Z; FlPinned : bool; FlArchived : bool }.
Record TwoFactorState := mkTwoFactorState { Enabled : bool; RecoveryLeft : Z }.
End pb.

(** ** convert.go *)

Definition opToPB (op : string) : pb.Op :=
  if bool_decide (op = OpCreate) then pb.OP_CREATE
  else if bool_decide (op = OpEdit) then pb.OP_EDIT
  else if bool_decide (op = OpDelete) then pb.OP_DELETE else pb.OP_UNSPECIFIED.
Definition opFromPB (op : pb.Op) : string :=
  match op with pb.OP_CREATE => OpCreate | pb.OP_EDIT => OpEdit | pb.OP_DELETE => OpDelete | pb.OP_UNSPECIFIED => "" end.

Definition pbUser (u : User) : pb.User :=
  pb.mkUser (User_ID u) (User_Username u) (User_DisplayName u) (User_AvatarRef u) (User_CreatedAt u)
    (Privacy_LastSeen (User_Privacy u)) (Privacy_Avatar (User_Privacy u)) (Privacy_Groups (User_Privacy u)) (Privacy_PushPreview (User_Privacy u)).
Definition modelUser (u : pb.User) : User :=
  mkUser (pb.Id u) (pb.Username u) (pb.DisplayName u) (pb.AvatarRef u) "" (pb.CreatedAt u)
    (mkPrivacy (pb.PrivacyLastSeen u) (pb.PrivacyAvatar u) (pb.PrivacyGroups u) (pb.PrivacyPushPreview u)).

Definition pbSession (s : Session) : pb.Session :=
  pb.mkSession (Session_ID s) (Session_UserID s) (Session_DeviceID s) (Session_Token s) (Session_ResumeToken s) (Session_CreatedAt s)
    (Session_ExpiresAt s) (Session_RevokedAt s) (Session_PrevResumeToken s) (Session_ResumeRotatedAt s).
Definition modelSession (s : pb.Session) : Session :=
  mkSession (pb.SId s) (pb.UserId s) (pb.DeviceId s) (pb.Token s) (pb.ResumeToken s) (pb.SCreatedAt s) (pb.ExpiresAt s) (pb.RevokedAt s)
    (pb.PrevResumeToken s) (pb.ResumeRotatedAt s).

Definition pbChat (c : Chat) : pb.Chat :=
  pb.mkChat (Chat_ID c) (Chat_Type c) (Chat_Title c) (Chat_OwnerID c) (Chat_CreatedAt c) (Chat_LastSeq c) (Chat_Username c).
Definition modelChat (c : pb.Chat) : Chat :=
  mkChat (pb.CId c) (pb.CType c) (pb.Title c) (pb.OwnerId c) (pb.CCreatedAt c) (pb.LastSeq c) (pb.CUsername c).

Definition pbMember (m : ChatMember) : pb.ChatMember :=
  pb.mkMember (Member_ChatID m) (Member_UserID m) (Member_Role m) (Member_JoinedAt m) (Member_Muted m)
    (Flags_MutedUntil (Member_Flags m)) (Flags_Pinned (Member_Flags m)) (Flags_Archived (Member_Flags m)).
Definition modelMember (m : pb.ChatMember) : ChatMember :=
  mkMember (pb.MChatId m) (pb.MUserId m) (pb.Role m) (pb.JoinedAt m) (pb.Muted m) (mkFlags (pb.MutedUntil m) (pb.Pinned m) (pb.Archived m)).

Definition pbAttachment (a : option Attachment) : option pb.Attachment :=
  match a with
  | None => None
  | Some a => Some (pb.mkAttachment (Attach_Kind a) (Attach_MediaRef a) (Attach_Filename a) (Attach_MIME a) (Attach_Size a) (Attach_DurationMs a)
                      (Attach_Waveform a) (Attach_Width a) (Attach_Height a) (Attach_ThumbRef a))
  end.
Definition modelAttachment (a : option pb.Attachment) : option Attachment :=
  match a with
  | None => None
  | Some a => Some (mkAttachment (pb.Kind a) (pb.MediaRef a) (pb.Filename a) (pb.Mime a) (pb.Size a) (pb.DurationMs a)
                      (pb.Waveform a) (pb.Width a) (pb.Height a) (pb.ThumbRef a))
  end.
Definition pbForward (f : option ForwardOrigin) : option pb.ForwardOrigin :=
  match f with None => None | Some f => Some (pb.mkForward (Origin_ChatID f) (Origin_MessageID f) (Origin_SenderID f)) end.
Definition modelForward (f : option pb.ForwardOrigin) : option ForwardOrigin :=
  match f with None => None | Some f => Some (mkOrigin (pb.FChatId f) (pb.FMessageId f) (pb.FSenderId f)) end.

Definition pbMessage (m : Message) : pb.Message :=
  pb.mkMessage (Message_ID m) (Message_ChatID m) (Message_SenderID m) (Message_Seq m) (Message_Text m) (Message_MediaRef m) (Message_ReplyTo m)
    (Message_Edited m) (Message_Deleted m) (Message_CreatedAt m) (Message_EditedAt m) (pbAttachment (Message_Attachment m)) (Message_ThreadRoot m)
    (Message_ReplyCount m) (pbForward (Message_Forward m)) (Message_ExpiresAt m).
Definition modelMessage (m : pb.Message) : Message :=
  mkMessage (pb.MsId m) (pb.MsChatId m) (pb.MsSenderId m) (pb.MsSeq m) (pb.MsText m) (pb.MsMediaRef m) (modelAttachment (pb.MsAttachment m))
    (pb.MsReplyTo m) (pb.MsThreadRoot m) (pb.MsReplyCount m) (modelForward (pb.MsForward m)) (pb.MsExpiresAt m) (pb.MsEdited m) (pb.MsDeleted m)
    (pb.MsCreatedAt m) (pb.MsEditedAt m).

Definition pbChatSummary (s : ChatSummary) : pb.ChatSummary :=
  pb.mkSummary (pbChat <$> Sum_Chat s) (Sum_MyRole s) (Sum_PeerID s) (pbMessage <$> Sum_LastMessage s) (Sum_UnreadCount s) (Sum_LastActivityAt s)
    (Flags_MutedUntil (Sum_Flags s)) (Flags_Pinned (Sum_Flags s)) (Flags_Archived (Sum_Flags s)).
Definition modelChatSummary (s : pb.ChatSummary) : ChatSummary :=
  mkSummary (modelChat <$> pb.SuChat s) (pb.SuMyRole s) (pb.SuPeerId s) (modelMessage <$> pb.SuLastMessage s) (pb.SuUnreadCount s)
    (pb.SuLastActivityAt s) (mkFlags (pb.SuMutedUntil s) (pb.SuPinned s) (pb.SuArchived s)).

(** ** errors.go and gRPC *)

Inductive Code := NotFound | PermissionDenied | InvalidArgument | Unknown | OtherCode (n : Z).
Record Status := mkStatus { st_code : Code; st_message : string }.

(** What gRPC makes of the error a handler returns: a status is sent as it is, anything else
    as [Unknown] with the error's text. *)
Class Grpc := {
  error_text : error → string;
  on_wire : Status + error → Status;
  on_wire_status s : on_wire (inl s) = s;
  on_wire_plain e : on_wire (inr e) = mkStatus Unknown (error_text e);
}.

(** How one call fares: it is served; it does not arrive; its reply does not. *)
Inductive Net := Up | Lost (s : Status) | ReplyLost (s : Status).

Section rpc.
Context `{Grpc}.

Definition toStatus (err : error) : Status + error :=
  match err with
  | store_ErrNotFound => inl (mkStatus NotFound (error_text err))
  | message_ErrForbidden => inl (mkStatus PermissionDenied (error_text err))
  | message_ErrEmptyMessage => inl (mkStatus InvalidArgument "empty")
  | message_ErrTooLong => inl (mkStatus InvalidArgument "too_long")
  | message_ErrBadCommand => inl (mkStatus InvalidArgument "bad_command")
  | _ => inr err
  end.
(** A status that is none of the five stays what it is, which no sentinel equals. *)
Definition fromStatus (st : Status) : error :=
  match st_code st with
  | NotFound => store_ErrNotFound
  | PermissionDenied => message_ErrForbidden
  | InvalidArgument =>
      if bool_decide (st_message st = "empty") then message_ErrEmptyMessage
      else if bool_decide (st_message st = "too_long") then message_ErrTooLong
      else if bool_decide (st_message st = "bad_command") then message_ErrBadCommand
      else rpc_status
  | _ => rpc_status
  end.

(** A server method: the service's answer converted, or its error as a status. *)
Definition Handler (S B : Type) : Type := S → S * (B + (Status + error)).
Definition serve {S A B} (m : M S A) (conv : A → B) : Handler S B := λ s,
  match m s with
  | (s, Ok a) => (s, inl (conv a))
  | (s, Err e) => (s, inr (toStatus e))
  end.
(** A client method: the reply converted, or the status as an error. *)
Definition remote {S A B} (net : Net) (h : Handler S B) (conv : B → A) : M S A := λ s,
  match net with
  | Lost st => (s, Err (fromStatus st))
  | ReplyLost st => ((h s).1, Err (fromStatus st))
  | Up => match h s with
          | (s, inl b) => (s, Ok (conv b))
          | (s, inr e) => (s, Err (fromStatus (on_wire e)))
          end
  end.

(** ** The chat service *)

Section chat.
Context `{RangeOrder}.
Implicit Types t : Ticks.

Definition ChatServer_EnsureDirect (newID : string) (now : Z) (a b : string) := serve (EnsureDirect a b newID now) pbChat.
Definition ChatServer_EnsureSecret (newID : string) (now : Z) (a b : string) := serve (EnsureSecret a b newID now) pbChat.
Definition ChatServer_FindDirect (a b : string) := serve (FindDirect a b) pbChat.
Definition ChatServer_CreateGroup (newID : string) (now : Z) (owner title typ : string) (ms : list string) :=
  serve (CreateGroup owner title typ ms newID now) pbChat.
Definition ChatServer_Get (c : string) := serve (ChatService.Get c) pbChat.
Definition ChatServer_Members (c : string) := serve (Members c) (fmap pbMember).
Definition ChatServer_UserChats (u after : string) (limit : Z) := serve (UserChats u after limit) (fmap pbChatSummary).
Definition ChatServer_UserChatPage (u : string) (p : ChatPage) := serve (UserChatPage u p) (fmap pbChatSummary).
Definition ChatServer_SetChatFlags (c u : string) (f : pb.Flags) :=
  serve (SetChatFlags c u (mkFlags (pb.FlMutedUntil f) (pb.FlPinned f) (pb.FlArchived f)))
    (λ f, pb.mkFlags (Flags_MutedUntil f) (Flags_Pinned f) (Flags_Archived f)).
Definition ChatServer_UserChatIDs (u : string) := serve (UserChatIDs u) id.
Definition ChatServer_MemberIDs (fuel : nat) t (c : string) := serve (MemberIDs fuel t c) id.
Definition ChatServer_MemberIDsPage (c after : string) (limit : Z) := serve (MemberIDsPage c after limit) id.
Definition ChatServer_CanPost t t' (c u : string) := serve (CanPost t t' c u) id.
Definition ChatServer_IsMember t t' (c u : string) := serve (IsMember t t' c u) id.
Definition ChatServer_CanModerate t t' (c u : string) := serve (CanModerate t t' c u) id.
Definition ChatServer_CountPinnedChatsExcept (u c : string) := serve (ChatService.CountPinnedChatsExcept u c) i32.

Definition ChatClient_EnsureDirect net newID now a b := remote net (ChatServer_EnsureDirect newID now a b) modelChat.
Definition ChatClient_EnsureSecret net newID now a b := remote net (ChatServer_EnsureSecret newID now a b) modelChat.
Definition ChatClient_FindDirect net a b := remote net (ChatServer_FindDirect a b) modelChat.
Definition ChatClient_CreateGroup net newID now owner title typ ms := remote net (ChatServer_CreateGroup newID now owner title typ ms) modelChat.
Definition ChatClient_Get net c := remote net (ChatServer_Get c) modelChat.
Definition ChatClient_ChatType net c : M Service ChatType := ch ← ChatClient_Get net c; mret (Chat_Type ch).
Definition ChatClient_Members net c := remote net (ChatServer_Members c) (fmap modelMember).
Definition ChatClient_UserChats net u after limit := remote net (ChatServer_UserChats u after (i32 limit)) (fmap modelChatSummary).
Definition ChatClient_UserChatPage net u (p : ChatPage) :=
  remote net (ChatServer_UserChatPage u (mkChatPage (AfterActivity p) (After p) (i32 (Limit p)) (IncludeArchived p))) (fmap modelChatSummary).
Definition ChatClient_SetChatFlags net c u (f : MemberFlags) :=
  remote net (ChatServer_SetChatFlags c u (pb.mkFlags (Flags_MutedUntil f) (Flags_Pinned f) (Flags_Archived f)))
    (λ r, mkFlags (pb.FlMutedUntil r) (pb.FlPinned r) (pb.FlArchived r)).
Definition ChatClient_UserChatIDs net u := remote net (ChatServer_UserChatIDs u) id.
Definition ChatClient_MemberIDs net fuel t c := remote net (ChatServer_MemberIDs fuel t c) id.
Definition ChatClient_MemberIDsPage net c after limit := remote net (ChatServer_MemberIDsPage c after (i32 limit)) id.
Definition ChatClient_CanPost net t t' c u := remote net (ChatServer_CanPost t t' c u) id.
Definition ChatClient_IsMember net t t' c u := remote net (ChatServer_IsMember t t' c u) id.
Definition ChatClient_CanModerate net t t' c u := remote net (ChatServer_CanModerate t t' c u) id.
Definition ChatClient_CountPinnedChatsExcept net u c := remote net (ChatServer_CountPinnedChatsExcept u c) id.
End chat.

(** ** The message service *)

Section message.
Context `{HasStore W} `{Chats T W} `{Bus EventBody W} `{MediaCollector W}.
Variable trace : gmap string string.

Definition reply_of (r : Message * bool) : pb.SubmitReply := pb.mkSubmitReply (pbMessage r.1) r.2.
Definition of_reply (r : pb.SubmitReply) : Message * bool := (modelMessage (pb.RMessage r), pb.Duplicate r).

Definition MessageServer_Submit (t : T) (id obID : string) (now : Z) (r : pb.SubmitRequest) : Handler W pb.SubmitReply :=
  serve (Submit trace t id obID now
           (mkCommand (opFromPB (pb.SOp r)) (pb.ActorId r) (pb.ChatId r) (pb.MessageId r) (pb.DedupKey r) (pb.Text r) (pb.SMediaRef r) (pb.ReplyTo r)
              (modelAttachment (pb.SAttachment r)) (pb.TtlSeconds r))) reply_of.
Definition MessageServer_History (t : T) (u c : string) (before limit : Z) : Handler W (list pb.Message) :=
  serve (History t u c before limit) (fmap pbMessage).
Definition MessageServer_MarkRead (t : T) (now : Z) (u c : string) (upTo : Z) : Handler W unit := serve (MarkRead trace t now u c upTo) id.
Definition MessageServer_Thread (t : T) (u c root : string) (after limit : Z) : Handler W (list pb.Message) :=
  serve (Thread t u c root after limit) (fmap pbMessage).
Definition MessageServer_Forward (t t' : T) (id obID : string) (now : Z) (u src msg dst key : string) : Handler W pb.SubmitReply :=
  serve (Forward trace t t' id obID now u src msg dst key) reply_of.

Definition MessageClient_Submit (net : Net) (t : T) (id obID : string) (now : Z) (cmd : Command) : M W (Message * bool) :=
  remote net
    (MessageServer_Submit t id obID now
       (pb.mkSubmit (opToPB (Cmd_Op cmd)) (Cmd_ActorID cmd) (Cmd_ChatID cmd) (Cmd_MessageID cmd) (Cmd_DedupKey cmd) (Cmd_Text cmd) (Cmd_MediaRef cmd)
          (Cmd_ReplyTo cmd) (pbAttachment (Cmd_Attachment cmd)) (Cmd_TTLSeconds cmd))) of_reply.
Definition MessageClient_History (net : Net) (t : T) (u c : string) (before limit : Z) : M W (list Message) :=
  remote net (MessageServer_History t u c before (i32 limit)) (fmap modelMessage).
Definition MessageClient_MarkRead (net : Net) (t : T) (now : Z) (u c : string) (upTo : Z) : M W unit :=
  remote net (MessageServer_MarkRead t now u c upTo) id.
Definition MessageClient_Thread (net : Net) (t : T) (u c root : string) (after limit : Z) : M W (list Message) :=
  remote net (MessageServer_Thread t u c root after (i32 limit)) (fmap modelMessage).
Definition MessageClient_Forward (net : Net) (t t' : T) (id obID : string) (now : Z) (u src msg dst key : string) : M W (Message * bool) :=
  remote net (MessageServer_Forward t t' id obID now u src msg dst key) of_reply.
End message.
End rpc.

(** ** Lemmas *)

Lemma attachment_whole a : modelAttachment (pbAttachment a) = a.
Proof. by destruct a as [[]|]. Qed.
Lemma forward_whole f : modelForward (pbForward f) = f.
Proof. by destruct f as [[]|]. Qed.
Lemma message_whole m : modelMessage (pbMessage m) = m.
Proof. destruct m. unfold modelMessage, pbMessage. cbn. by rewrite attachment_whole, forward_whole. Qed.
Lemma messages_whole (l : list Message) : modelMessage <$> (pbMessage <$> l) = l.
Proof. induction l as [|m l IH]; [done|]. cbn. f_equal; [apply message_whole|exact IH]. Qed.
Lemma reply_whole r : of_reply (reply_of r) = r.
Proof. destruct r as [m d]. unfold of_reply. cbn. by rewrite message_whole. Qed.
Lemma session_whole s : modelSession (pbSession s) = s.
Proof. by destruct s. Qed.

(** The errors whose identity survives the trip. *)
Definition sentinel (e : error) : Prop :=
  e = store_ErrNotFound ∨ e = message_ErrForbidden ∨ e = message_ErrEmptyMessage ∨ e = message_ErrTooLong ∨ e = message_ErrBadCommand.
#[global] Instance sentinel_dec e : Decision (sentinel e).
Proof. unfold sentinel. apply _. Defined.

(** What a call may fail with, and what it returns otherwise. *)
Definition ends {S A} (m : M S A) (E : error → Prop) (Q : A → Prop) : Prop :=
  ∀ s, match (m s).2 with Ok a => Q a | Err e => E e end.
Abbreviation fails m := (ends m sentinel (λ _, True)) (only parsing).

Section ends.
Context {S : Type}.

Lemma ends_bind {A B} (m : M S A) (k : A → M S B) E (Q : A → Prop) R : ends m E Q → (∀ a, Q a → ends (k a) E R) → ends (m ≫= k) E R.
Proof. intros Hm Hk s. rewrite M_bind_eq. specialize (Hm s). destruct (m s) as [s' [a|e]]; cbn in *; [by apply Hk|done]. Qed.
Lemma fails_bind {A B} (m : M S A) (k : A → M S B) : fails m → (∀ a, fails (k a)) → fails (m ≫= k).
Proof. intros Hm Hk. eapply ends_bind; [done|auto]. Qed.
Lemma fails_ret {A} (a : A) : fails (mret a : M S A).
Proof. done. Qed.
Lemma fails_fail {A} e : sentinel e → fails (fail e : M S A).
Proof. intros ? s. done. Qed.
Lemma fails_get : fails (get : M S S).
Proof. done. Qed.
Lemma fails_gets {A} (f : S → A) : fails (gets f).
Proof. done. Qed.
Lemma fails_modify (f : S → S) : fails (modify f).
Proof. done. Qed.
Lemma fails_attempt {A} (m : M S A) : fails (attempt m).
Proof. intros s. unfold attempt. by destruct (m s). Qed.
Lemma fails_lift {A} (r : result A) : (∀ e, r = Err e → sentinel e) → fails (lift r : M S A).
Proof. intros Hr s. cbn. destruct r; auto. Qed.
Lemma fails_guard b e : sentinel e → fails (guard_or b e : M S unit).
Proof. intros ? s. by destruct b. Qed.
End ends.

Create HintDb ends.
#[export] Hint Resolve fails_ret fails_get fails_gets fails_modify fails_attempt fails_guard : ends.
(** Walk through a body, one call at a time. *)
Ltac ends_step :=
  match goal with
  | |- ends (_ ≫= _) _ _ => apply fails_bind
  | |- ends (if ?b then _ else _) _ _ => destruct b
  | |- ends (let '(_, _) := ?x in _) _ _ => destruct x
  | |- ends (match ?x with _ => _ end) _ _ => destruct x
  | |- ends (fail _) _ _ => apply fails_fail; unfold sentinel; tauto
  | |- ends (guard_or _ _) _ _ => apply fails_guard; unfold sentinel; tauto
  | |- ∀ _, _ => intro
  | |- _ => solve [auto with ends]
  end.

Section errors.
Context `{RangeOrder}.

Lemma fails_store {A} (m : M ChatDB A) : fails m → fails (store m).
Proof. intros Hm s. specialize (Hm (cdb s)). unfold store. by destruct (m (cdb s)) as [? []]. Qed.
Lemma fails_GetChat c : fails (GetChat c).
Proof. unfold GetChat. repeat ends_step. Qed.
Lemma ends_attempt {S A} (m : M S A) : fails m → ends (attempt m) sentinel (λ r, ∀ e, r = Err e → sentinel e).
Proof. intros Hm s. specialize (Hm s). unfold attempt. destruct (m s) as [s' r]. cbn in *. intros e ->. done. Qed.
Lemma fails_GetMember c u : fails (GetMember c u).
Proof. unfold GetMember. repeat ends_step. Qed.
Lemma fails_authView t c : fails (authView t c).
Proof. unfold authView. repeat first [apply fails_store, fails_GetChat|apply fails_store; done|ends_step]. Qed.
Lemma fails_roleOf t t' c u : fails (roleOf t t' c u).
Proof.
  unfold roleOf. apply fails_bind; [apply fails_authView|]. intros e. destruct (negb (large e)); [done|]. apply fails_bind; [done|]. intros s.
  set (probe := _ ≫= _). assert (fails probe) as Hp.
  { eapply ends_bind; [apply ends_attempt, fails_store, fails_GetMember|]. intros r Hr. apply fails_bind; [|intros mr; repeat ends_step].
    apply fails_lift. intros err. destruct r as [m|err']; [done|]. case_bool_decide; [done|]. intros [= <-]. by apply Hr. }
  repeat ends_step; done.
Qed.
Lemma fails_CanPost t t' c u : fails (CanPost t t' c u).
Proof. unfold CanPost. apply fails_bind; [apply fails_roleOf|]. repeat ends_step. Qed.
Lemma fails_IsMember t t' c u : fails (IsMember t t' c u).
Proof. unfold IsMember. apply fails_bind; [apply fails_roleOf|]. repeat ends_step. Qed.
Lemma fails_CanModerate t t' c u : fails (CanModerate t t' c u).
Proof. unfold CanModerate. apply fails_bind; [apply fails_roleOf|]. repeat ends_step. Qed.
End errors.

Section carried.
Context `{Grpc}.

(** What is left of an error after the trip. *)
Definition carried (e : error) : error := if decide (sentinel e) then e else rpc_status.
Lemma carry e : fromStatus (on_wire (toStatus e)) = carried e.
Proof.
  unfold carried. destruct (decide (sentinel e)) as [[->|[->|[->|[->| ->]]]]|Hn]; cbn; rewrite ?on_wire_status; try done.
  destruct e; cbn; rewrite ?on_wire_plain; try done; destruct Hn; unfold sentinel; tauto.
Qed.
Lemma remote_serve {S A B} (m : M S A) (f : A → B) (g : B → A) s :
  remote Up (serve m f) g s = ((m s).1, match (m s).2 with Ok a => Ok (g (f a)) | Err e => Err (carried e) end).
Proof. unfold remote, serve. destruct (m s) as [s' [a|e]]; cbn; [done|by rewrite carry]. Qed.
Lemma remote_same {S A B} (m : M S A) (f : A → B) g s : fails m → (∀ a, g (f a) = a) → remote Up (serve m f) g s = m s.
Proof.
  intros Hm Hgf. rewrite remote_serve. specialize (Hm s). destruct (m s) as [s' [a|e]]; cbn in *; [by rewrite Hgf|].
  unfold carried. by rewrite decide_True.
Qed.
End carried.

(** *** The message service *)

Section message_errors.
Context `{HasStore W} `{Chats T W} `{Bus EventBody W} `{MediaCollector W}.
Variable trace : gmap string string.
Hypothesis post_fails : ∀ t c u, fails (Chats_CanPost t c u : M W bool).
Hypothesis member_fails : ∀ t c u, fails (Chats_IsMember t c u : M W bool).
Hypothesis moderate_fails : ∀ t c u, fails (Chats_CanModerate t c u : M W bool).

Lemma fails_on_store {A} (m : M ChatDB A) : fails m → fails (on_store m : M W A).
Proof. intros Hm w. specialize (Hm (mdb w)). unfold on_store. by destruct (m (mdb w)) as [? []]. Qed.
Lemma fails_authorized (m : M W bool) : fails m → fails (authorized m).
Proof. intros Hm. unfold authorized. apply fails_bind; [done|]. repeat ends_step. Qed.
Lemma fails_GetMessage c id : fails (GetMessage c id).
Proof. unfold GetMessage. repeat ends_step. Qed.
Lemma fails_InsertMessage m k ob : fails (InsertMessage m k ob).
Proof. unfold InsertMessage. repeat first [apply fails_modify|ends_step]. Qed.
Lemma fails_update c id f ob : fails (update_message c id f ob).
Proof. unfold update_message. repeat first [apply fails_modify|ends_step]. Qed.

Lemma fails_Send t id obID now s_in : fails (Send trace t id obID now s_in).
Proof.
  unfold Send. apply fails_bind; [apply fails_authorized, post_fails|]. intros _. apply fails_bind; [|intros m; apply fails_on_store, fails_InsertMessage].
  repeat ends_step.
Qed.
Lemma fails_Edit obID now u c id text : fails (Edit trace obID now u c id text).
Proof. unfold Edit. apply fails_bind; [apply fails_on_store, fails_GetMessage|]. intros cur. repeat first [apply fails_on_store, fails_update|ends_step]. Qed.
Lemma fails_Delete t obID now u c id : fails (Delete trace t obID now u c id).
Proof.
  unfold Delete. apply fails_bind; [apply fails_on_store, fails_GetMessage|]. intros cur.
  apply fails_bind; [destruct (bool_decide _); [done|apply fails_authorized, moderate_fails]|]. intros _. cbv zeta.
  apply fails_bind; [apply fails_on_store, fails_update|]. intros m. repeat ends_step.
Qed.
Lemma validate_fails cmd e : validate cmd = Err e → sentinel e.
Proof. unfold validate, sentinel. repeat case_match; intros [= <-]; tauto. Qed.
Lemma fails_Submit t id obID now cmd : fails (Submit trace t id obID now cmd).
Proof.
  unfold Submit. apply fails_bind; [apply fails_lift, validate_fails|]. intros _.
  repeat first [apply fails_Send|apply fails_Edit|apply fails_Delete|ends_step].
Qed.
Lemma fails_History t u c before limit : fails (History t u c before limit).
Proof. unfold History. apply fails_bind; [apply fails_authorized, member_fails|]. intros _. by apply fails_on_store. Qed.
Lemma fails_Thread t u c root after limit : fails (Thread t u c root after limit).
Proof. unfold Thread. apply fails_bind; [apply fails_authorized, member_fails|]. intros _. by apply fails_on_store. Qed.
Lemma fails_MarkRead t now u c upTo : fails (MarkRead trace t now u c upTo).
Proof. unfold MarkRead. apply fails_bind; [apply fails_authorized, member_fails|]. intros _. apply fails_bind; [by apply fails_on_store|]. repeat ends_step. Qed.
Lemma fails_Forward t t' id obID now u src msg dst k : fails (Forward trace t t' id obID now u src msg dst k).
Proof.
  unfold Forward. apply fails_bind; [apply fails_authorized, member_fails|]. intros _. apply fails_bind; [apply fails_on_store, fails_GetMessage|].
  intros m. repeat first [apply fails_Send|ends_step].
Qed.

Definition crossed (cmd : Command) : Command :=
  mkCommand (opFromPB (opToPB (Cmd_Op cmd))) (Cmd_ActorID cmd) (Cmd_ChatID cmd) (Cmd_MessageID cmd) (Cmd_DedupKey cmd) (Cmd_Text cmd)
    (Cmd_MediaRef cmd) (Cmd_ReplyTo cmd) (Cmd_Attachment cmd) (Cmd_TTLSeconds cmd).
(** An operation the wire has no name for arrives as none, and is refused all the same. *)
Lemma Submit_crossed t id obID now cmd w : Submit trace t id obID now (crossed cmd) w = Submit trace t id obID now cmd w.
Proof.
  destruct (decide (Cmd_Op cmd = OpCreate ∨ Cmd_Op cmd = OpEdit ∨ Cmd_Op cmd = OpDelete)) as [Ho|Ho].
  - assert (crossed cmd = cmd) as ->; [|done]. destruct cmd as [op a c mid k tx mr rt at_ ttl]. cbn in Ho. by destruct Ho as [->|[->| ->]].
  - assert (opToPB (Cmd_Op cmd) = pb.OP_UNSPECIFIED) as E by (unfold opToPB; rewrite !bool_decide_false by tauto; done).
    unfold crossed. rewrite E. unfold Submit. rewrite !M_bind_eq. unfold lift, validate. cbn. by rewrite !bool_decide_false by (done || tauto).
Qed.
End message_errors.

(** ** Two processes and one *)

Section split.
Context `{Grpc} `{RangeOrder} {B : Type} `{Bus EventBody B}.
Variable media : option (string → list string → ChatDB → M B unit).
Abbreviation W := (Local (B := B)).
#[local] Instance the_media : MediaCollector W := local_media media.

(** The message service with the chat service beside it. *)
Definition mono_Submit trace t id obID now cmd : M W (Message * bool) := Submit trace t id obID now cmd.
Definition mono_History t u c n limit : M W (list Message) := History t u c n limit.
Definition mono_Thread t u c root n limit : M W (list Message) := Thread t u c root n limit.
Definition mono_MarkRead trace t now u c n : M W unit := MarkRead trace t now u c n.
Definition mono_Forward trace t t' id obID now u src msg dst key : M W (Message * bool) := Forward trace t t' id obID now u src msg dst key.

(** [messaged] asks [chatd]. *)
#[local] Instance split_Chats : Chats (Ticks * Ticks) W := {|
  Chats_CanPost t c u := on_chat (ChatClient_CanPost Up t.1 t.2 c u);
  Chats_IsMember t c u := on_chat (ChatClient_IsMember Up t.1 t.2 c u);
  Chats_CanModerate t c u := on_chat (ChatClient_CanModerate Up t.1 t.2 c u);
|}.
Definition split_Submit trace t id obID now cmd : M W (Message * bool) := MessageClient_Submit trace Up t id obID now cmd.
Definition split_History t u c n limit : M W (list Message) := MessageClient_History Up t u c n limit.
Definition split_Thread t u c root n limit : M W (list Message) := MessageClient_Thread Up t u c root n limit.
Definition split_MarkRead trace t now u c n : M W unit := MessageClient_MarkRead trace Up t now u c n.
Definition split_Forward trace t t' id obID now u src msg dst key : M W (Message * bool) :=
  MessageClient_Forward trace Up t t' id obID now u src msg dst key.

Lemma on_chat_ext {A} (m m' : M Service A) : (∀ s, m s = m' s) → on_chat (B := B) m = on_chat m'.
Proof. intros Hm. apply functional_extensionality. intros w. unfold on_chat. by rewrite Hm. Qed.
Lemma split_Chats_local : split_Chats = local_Chats.
Proof.
  unfold split_Chats, local_Chats. f_equal; apply functional_extensionality; intros t; apply functional_extensionality; intros c;
    apply functional_extensionality; intros u; apply on_chat_ext; intros s; apply remote_same; auto using fails_CanPost, fails_IsMember, fails_CanModerate.
Qed.
Lemma fails_on_chat {A} (m : M Service A) : fails m → fails (on_chat (B := B) m).
Proof. intros Hm w. specialize (Hm w.1). unfold on_chat. by destruct (m w.1) as [? []]. Qed.

(** C5: The split deployment is the monolith, as far as messages go.  With the calls delivered,
    sending, editing, deleting, history, threads, read marks and forwarding through the message
    service's client, with that service asking the chat service through its own, do to the
    stores and answer exactly what they do and answer in one process, errors included. *)
Theorem split_identical trace t t' id obID now cmd u c root src msg dst key n limit w :
  - 2 ^ 31 ≤ limit < 2 ^ 31 →
  split_Submit trace t id obID now cmd w = mono_Submit trace t id obID now cmd w ∧
  split_History t u c n limit w = mono_History t u c n limit w ∧
  split_Thread t u c root n limit w = mono_Thread t u c root n limit w ∧
  split_MarkRead trace t now u c n w = mono_MarkRead trace t now u c n w ∧
  split_Forward trace t t' id obID now u src msg dst key w = mono_Forward trace t t' id obID now u src msg dst key w.
Proof.
  intros Hl. unfold split_Submit, split_History, split_Thread, split_MarkRead, split_Forward. rewrite split_Chats_local.
  assert (∀ t c u, fails (Chats_CanPost (Chats := local_Chats) t c u : M W bool)) as Hp by (intros; apply fails_on_chat, fails_CanPost).
  assert (∀ t c u, fails (Chats_IsMember (Chats := local_Chats) t c u : M W bool)) as Hm by (intros; apply fails_on_chat, fails_IsMember).
  assert (∀ t c u, fails (Chats_CanModerate (Chats := local_Chats) t c u : M W bool)) as Hd by (intros; apply fails_on_chat, fails_CanModerate).
  assert (i32 limit = limit) as Hi by (by apply i32_small). split_and!.
  - unfold MessageClient_Submit, MessageServer_Submit. etransitivity; [apply remote_same; [by apply fails_Submit|apply reply_whole]|]. cbn. rewrite attachment_whole. apply Submit_crossed.
  - unfold MessageClient_History, MessageServer_History. rewrite Hi. apply remote_same; [by apply fails_History|apply messages_whole].
  - unfold MessageClient_Thread, MessageServer_Thread. rewrite Hi. apply remote_same; [by apply fails_Thread|apply messages_whole].
  - apply remote_same; [by apply fails_MarkRead|done].
  - apply remote_same; [by apply fails_Forward|apply reply_whole].
Qed.
End split.

(** ** Witnesses *)

Section witnesses.
#[local] Existing Instance canonical_order.
#[local] Instance w_bus : Bus EventBody (list (Event EventBody)) := λ e b, (b ++ [e], Ok tt).
#[local] Instance w_grpc : Grpc.
Proof.
  refine {| error_text _ := ""; on_wire x := match x with inl s => s | inr e => mkStatus Unknown "" end |}; done.
Defined.

(** A post by the owner of a channel, and one by a subscriber. *)
Definition w_start : Local (B := list (Event EventBody)) := (w_channel, []).
Lemma split_identical_witness :
  (split_Submit None ∅ (w_ticks 2, w_ticks 3) "m1" "o1" 1000 (w_post "u2") w_start).2 = Err message_ErrForbidden ∧
  split_Submit None ∅ (w_ticks 2, w_ticks 3) "m1" "o1" 1000 (w_post "u1") w_start =
  mono_Submit None ∅ (w_ticks 2, w_ticks 3) "m1" "o1" 1000 (w_post "u1") w_start.
Proof.
  split; [vm_compute; reflexivity|].
  refine (proj1 (split_identical None ∅ (w_ticks 2, w_ticks 3) (w_ticks 2, w_ticks 3) "m1" "o1" 1000 (w_post "u1") "" "" "" "" "" "" "" 0 0 w_start _)).
  lia.
Defined.
End witnesses.
