(* ===== verification/RpcAuth.v ===== *)
(** * The split deployment: accounts, presence and keys

    The rest of [internal/rpc] client.go and server.go, and what the gateway answers to a login
    ([internal/gateway] conn.go [doAuth], handlers.go [authByPasswordWithCode]) over either form
    of the auth service. *)

From S2P Require Import Prelude Bytes GoStrings KeyDir Presence Password Totp Model MemAccounts TwoFactor Auth Erasure Utf8 Rpc.

(** [pb.KeyBundle]. *)
Record KeyBundle := mkBundle {
  Bu_UserId : string; Bu_DeviceId : string; Bu_IdentityKey : string; Bu_SigningKey : string; Bu_SignedPrekey : string;
  Bu_SignedPrekeySig : string; Bu_OneTimePrekey : string }.
Definition pbKeyBundle (b : KeyBundleBody) : KeyBundle :=
  mkBundle (KB_UserID b) (KB_DeviceID b) (KB_IdentityKey b) (KB_SigningKey b) (KB_SignedPreKey b) (KB_SignedPreKeySig b) (KB_OneTimePreKey b).
Definition wireKeyBundle (b : KeyBundle) : KeyBundleBody :=
  mkKeyBundle (Bu_UserId b) (Bu_DeviceId b) (Bu_IdentityKey b) (Bu_SigningKey b) (Bu_SignedPrekey b) (Bu_SignedPrekeySig b) (Bu_OneTimePrekey b).

Section adapters.
Context `{Grpc} `{Unicode} `{Argon2} `{AEAD} `{RangeOrder}.
Variable totp_env : bytes.
Variable attached : bool.

(** ** Accounts *)

Definition pb_pair (r : Session * User) : pb.Session * pb.User := (pbSession r.1, pbUser r.2).
Definition model_pair (r : pb.Session * pb.User) : Session * User := (modelSession r.1, modelUser r.2).
Definition pb_identity (i : Identity) : pb.Session * pb.User := (pbSession (Identity_Session i), pbUser (Identity_User i)).
Definition model_identity (r : pb.Session * pb.User) : Identity := mkIdentity (modelSession r.1) (modelUser r.2).

Definition AuthServer_Register salt userID now d (username password displayName deviceID platform : string) :=
  serve (Register salt userID now d username password displayName deviceID platform) pb_pair.
Definition AuthServer_Login secs d (username password deviceID platform : string) :=
  serve (Login totp_env attached secs d username password deviceID platform) pb_pair.
Definition AuthServer_LoginWithCode secs d (username password code deviceID platform : string) :=
  serve (LoginWithCode totp_env attached secs d username password (sbytes code) deviceID platform) pb_pair.
Definition AuthServer_ChangePassword salt clock now (u old new keep : string) := serve (ChangePassword salt clock now u old new keep) i32.
Definition AuthServer_BeginTOTP secret_rand nonce now (u issuer : string) :=
  serve (BeginTOTP totp_env attached secret_rand nonce now u issuer) (λ r, (bstring r.1, bstring r.2)).
Definition AuthServer_ConfirmTOTP rands secs now (u code : string) :=
  serve (ConfirmTOTP totp_env attached rands secs now u (sbytes code)) (fmap bstring).
Definition AuthServer_DisableTOTP secs (u password code : string) := serve (DisableTOTP totp_env attached secs u password (sbytes code)) id.
Definition AuthServer_TwoFactorState (u : string) : Handler AccountDB pb.TwoFactorState := λ db,
  let '(db, e) := TwoFactorEnabled attached u db in
  let '(db, n) := RecoveryCodesLeft attached u db in
  (db, inl (pb.mkTwoFactorState (bool_decide (e = Ok true)) (i32 (match n with Ok n => n | Err _ => 0 end)))).
Definition AuthServer_Authenticate now now1 now2 store_now (token : string) := serve (Authenticate now now1 now2 store_now token) pb_identity.
Definition AuthServer_Resume rand now now' now'' (token : string) := serve (Resume rand now now' now'' token) pb_identity.
Definition AuthServer_ListSessions clock (u : string) :=
  serve (Auth.ListSessions clock u)
    (fmap (λ s, pb.mkRow (Session_ID s) (Session_UserID s) (Session_DeviceID s) (Session_CreatedAt s) (Session_ExpiresAt s) (Session_RevokedAt s))).
Definition AuthServer_RevokeOwned now (u sid : string) := serve (RevokeOwned now u sid) id.
Definition AuthServer_RevokeAll clock now (u keep : string) := serve (RevokeAll clock now u keep) i32.
Definition AuthServer_DeleteAccount clock now now' (u password : string) := serve (DeleteAccount clock now now' u password) id.

Definition AuthClient_Register net salt userID now d username password displayName deviceID platform :=
  remote net (AuthServer_Register salt userID now d username password displayName deviceID platform) model_pair.
Definition AuthClient_Login net secs d username password deviceID platform := remote net (AuthServer_Login secs d username password deviceID platform) model_pair.
Definition AuthClient_LoginWithCode net secs d username password code deviceID platform :=
  remote net (AuthServer_LoginWithCode secs d username password code deviceID platform) model_pair.
Definition AuthClient_ChangePassword net salt clock now u old new keep := remote net (AuthServer_ChangePassword salt clock now u old new keep) id.
Definition AuthClient_BeginTOTP net secret_rand nonce now u issuer := remote net (AuthServer_BeginTOTP secret_rand nonce now u issuer) id.
Definition AuthClient_ConfirmTOTP net rands secs now u code := remote net (AuthServer_ConfirmTOTP rands secs now u code) id.
Definition AuthClient_DisableTOTP net secs u password code := remote net (AuthServer_DisableTOTP secs u password code) id.
(** An unreachable service reads as no factor, and no codes. *)
Definition AuthClient_TwoFactorEnabled (net : Net) (u : string) : M AccountDB bool :=
  r ← attempt (remote net (AuthServer_TwoFactorState u) id); mret (match r with Ok st => pb.Enabled st | Err _ => false end).
Definition AuthClient_RecoveryCodesLeft (net : Net) (u : string) : M AccountDB Z :=
  r ← attempt (remote net (AuthServer_TwoFactorState u) id); mret (match r with Ok st => pb.RecoveryLeft st | Err _ => 0 end).
Definition AuthClient_Authenticate net now now1 now2 store_now token := remote net (AuthServer_Authenticate now now1 now2 store_now token) model_identity.
Definition AuthClient_Resume net rand now now' now'' token := remote net (AuthServer_Resume rand now now' now'' token) model_identity.
(** The rows carry no tokens. *)
Definition AuthClient_ListSessions net clock u :=
  remote net (AuthServer_ListSessions clock u)
    (fmap (λ r, mkSession (pb.RId r) (pb.RUserId r) (pb.RDeviceId r) "" "" (pb.RCreatedAt r) (pb.RExpiresAt r) (pb.RRevokedAt r) "" 0)).
Definition AuthClient_RevokeOwned net now u sid := remote net (AuthServer_RevokeOwned now u sid) id.
Definition AuthClient_RevokeAll net clock now u keep := remote net (AuthServer_RevokeAll clock now u keep) id.
Definition AuthClient_DeleteAccount net clock now now' u password := remote net (AuthServer_DeleteAccount clock now now' u password) id.

(** ** Presence: the service's own error is returned as it is, and the memory store has none *)

Definition PresenceServer_Online now now' (u : string) : Handler World unit := λ w, (Online u now now' w, inl tt).
Definition PresenceServer_Heartbeat now (u : string) : Handler World unit := λ w, (Heartbeat u now w, inl tt).
Definition PresenceServer_Offline now (u : string) : Handler World unit := λ w, (Offline u now w, inl tt).
Definition PresenceServer_Typing headers (c u : string) (active : bool) : Handler World unit := λ w, (Typing headers c u active w, inl tt).
Definition PresenceClient_Online net now now' u := remote net (PresenceServer_Online now now' u) id.
Definition PresenceClient_Heartbeat net now u := remote net (PresenceServer_Heartbeat now u) id.
Definition PresenceClient_Offline net now u := remote net (PresenceServer_Offline now u) id.
Definition PresenceClient_Typing net headers c u active := remote net (PresenceServer_Typing headers c u active) id.

(** ** Keys: no error crosses, a failed call reads as no answer *)

(** Times are nanoseconds; the wire has milliseconds, and zero for no time. *)
Definition KeyDirServer_Publish now (u d : string) (b : KeyPublishBody) : Handler memoryDir (Z * Z * Z) := λ dir,
  let '(dir, st) := KeyDir.Publish now u d b dir in
  (dir, inl (i32 (OneTimePreKeysLeft st), i32 (Accepted st), match SignedPreKeyFirstSeen st with None => 0 | Some t => t / 1000000 end)).
Definition KeyDirServer_Fetch now (u d : string) : Handler memoryDir (option KeyBundle) := λ dir,
  let '(dir, b) := KeyDir.Fetch now u d dir in (dir, inl (pbKeyBundle <$> b)).
Definition KeyDirServer_FetchAll now (u : string) : Handler memoryDir (list KeyBundle) := λ dir,
  let '(dir, bs) := KeyDir.FetchAll now u dir in (dir, inl (pbKeyBundle <$> bs)).
Definition KeyDirClient_Publish net now u d b : M memoryDir DirState :=
  r ← attempt (remote net (KeyDirServer_Publish now u d b) id);
  mret (match r with
        | Err _ => mkDirState 0 0 None
        | Ok (n, accepted, ms) => mkDirState n accepted (if 0 <? ms then Some (ms * 1000000) else None)
        end).
Definition KeyDirClient_Fetch net now u d : M memoryDir (option KeyBundleBody) :=
  r ← attempt (remote net (KeyDirServer_Fetch now u d) id); mret (match r with Ok b => wireKeyBundle <$> b | Err _ => None end).
Definition KeyDirClient_FetchAll net now u : M memoryDir (list KeyBundleBody) :=
  r ← attempt (remote net (KeyDirServer_FetchAll now u) id); mret (match r with Ok bs => wireKeyBundle <$> bs | Err _ => [] end).
End adapters.

(** ** Logging in *)

Definition ErrUnauthenticated : Z := 2000.
Definition ErrTwoFactorRequired : Z := 2004.
Definition ErrBadArg : Z := 3003.
Definition ErrTwoFactorInvalid : Z := 3004.
Definition ErrRateLimited : Z := 4000.
Definition maxDisplayName : Z := 64.

(** A control character or U+FFFD, in valid UTF-8. *)
Fixpoint spoofing (b : bytes) : bool :=
  match b with
  | [] => false
  | c :: rest =>
      let z := Zbyte c in
      (z <? 32) || (z =? 127) ||
      match rest with
      | d :: rest' => ((z =? 194) && (Zbyte d <? 160)) ||
                      match rest' with e :: _ => (z =? 239) && (Zbyte d =? 191) && (Zbyte e =? 189) | [] => false end
      | [] => false
      end || spoofing rest
  end.
Definition validDisplayName (s : bytes) : bool := negb ((maxDisplayName <? len s) || negb (ValidString s)) && negb (spoofing s).

Record authIdentity := mkAuthIdentity {
  ai_userID : string; ai_deviceID : string; ai_sessionID : string; ai_token : string; ai_resumeToken : string;
  ai_username : string; ai_displayName : string; ai_avatarRef : string }.
(** [AuthService] of the gateway, as far as logging in goes. *)
Record AuthService (W : Type) := mkAuthService {
  as_Authenticate : string → M W Identity;
  as_Register : string → string → string → string → string → M W (Session * User);
  as_LoginWithCode : string → string → string → string → string → M W (Session * User);
}.
Arguments as_Authenticate {W}.
Arguments as_Register {W}.
Arguments as_LoginWithCode {W}.

(** The fields of a connection a login sets. *)
Record AuthConn := mkAuthConn { ac_userID : string; ac_sessionID : string; ac_deviceID : string; ac_platform : string; ac_authed : bool }.
Record AuthBody := mkAuthBody {
  AB_Token : string; AB_Username : string; AB_Password : string; AB_TOTPCode : string; AB_DisplayName : string; AB_Register : bool }.
Inductive AuthReply :=
  | AuthOK (i : authIdentity) (deviceID : string)
  | AuthErr (code retryMs : Z).

Section login.
Context `{Unicode} {W : Type} (svc : AuthService W).
(** The login limiter's answer for a name, and what registering the connection does. *)
Variable allow : string → bool.
Variable register : AuthConn → M W unit.

Definition authByToken (token : string) : M W authIdentity :=
  id ← as_Authenticate svc token;
  let s := Identity_Session id in
  let u := Identity_User id in
  mret (mkAuthIdentity (User_ID u) (Session_DeviceID s) (Session_ID s) token (Session_ResumeToken s) (User_Username u) (User_DisplayName u) (User_AvatarRef u)).

Definition authByPasswordWithCode (c : AuthConn) (username password code displayName : string) (reg : bool) : M W authIdentity :=
  let platform := if bool_decide (ac_platform c = "") then "unknown" else ac_platform c in
  guard_or (reg || allow (bstring (ToLower (sbytes username)))) gateway_errLoginThrottled;;
  '(sess, user) ← (if reg then
                     let name := TrimSpace (sbytes displayName) in
                     guard_or ((len name =? 0) || validDisplayName name) gateway_errBadDisplayName;;
                     as_Register svc username password (bstring name) (ac_deviceID c) platform
                   else as_LoginWithCode svc username password code (ac_deviceID c) platform);
  mret (mkAuthIdentity (User_ID user) (Session_DeviceID sess) (Session_ID sess) (Session_Token sess) (Session_ResumeToken sess) (User_Username user)
          (User_DisplayName user) (User_AvatarRef user)).

Definition auth_error (err : error) : AuthReply :=
  match err with
  | gateway_errLoginThrottled => AuthErr ErrRateLimited 2000
  | gateway_errBadDisplayName => AuthErr ErrBadArg 0
  | auth_ErrBadUsername => AuthErr ErrBadArg 0
  | auth_ErrTwoFactorRequired => AuthErr ErrTwoFactorRequired 0
  | auth_ErrBadTOTPCode => AuthErr ErrTwoFactorInvalid 0
  | _ => AuthErr ErrUnauthenticated 0
  end.
Definition logged_in (c : AuthConn) (i : authIdentity) : AuthConn :=
  let dev := if bool_decide (ai_deviceID i = "") then ac_deviceID c else ai_deviceID i in
  let dev := if bool_decide (dev = "") then ai_sessionID i else dev in
  mkAuthConn (ai_userID i) (ai_sessionID i) dev (ac_platform c) true.

Definition doAuth (c : AuthConn) (body : AuthBody) : M W (AuthConn * AuthReply) :=
  r ← attempt (if negb (bool_decide (AB_Token body = "")) then authByToken (AB_Token body)
               else if negb (bool_decide (AB_Username body = "")) then
                 authByPasswordWithCode c (AB_Username body) (AB_Password body) (AB_TOTPCode body) (AB_DisplayName body) (AB_Register body)
               else fail gateway_no_credentials);
  match r with
  | Err e => mret (c, auth_error e)
  | Ok i => let c := logged_in c i in register c;; mret (c, AuthOK i (ac_deviceID c))
  end.
End login.

(** ** One process and two *)

Section compared.
Context `{Grpc} `{Unicode} `{Argon2} `{AEAD} `{RangeOrder}.
Variable totp_env : bytes.
Variable attached : bool.
(** What the service draws and reads of the clock during one call. *)
Variable salt : option bytes.
Variable userID : string.
Variable d : Draw.
Variable secs now now1 now2 store_now : Z.

Definition mono_auth : AuthService AccountDB :=
  mkAuthService AccountDB (Authenticate now now1 now2 store_now) (Register salt userID now d)
    (λ u p code dev plat, LoginWithCode totp_env attached secs d u p (sbytes code) dev plat).
Definition split_auth : AuthService AccountDB :=
  mkAuthService AccountDB (AuthClient_Authenticate Up now now1 now2 store_now) (AuthClient_Register Up salt userID now d)
    (AuthClient_LoginWithCode totp_env attached Up secs d).

Definition password_login (username password code : string) : AuthBody := mkAuthBody "" username password code "" false.

Definition identity_of (r : Session * User) : authIdentity :=
  mkAuthIdentity (User_ID r.2) (Session_DeviceID r.1) (Session_ID r.1) (Session_Token r.1) (Session_ResumeToken r.1) (User_Username r.2)
    (User_DisplayName r.2) (User_AvatarRef r.2).
Definition platform_of (c : AuthConn) : string := if bool_decide (ac_platform c = "") then "unknown" else ac_platform c.

Lemma doAuth_password {W} (svc : AuthService W) allow register c username password code w :
  username ≠ "" → allow (bstring (ToLower (sbytes username))) = true →
  doAuth svc allow register c (password_login username password code) w =
  match as_LoginWithCode svc username password code (ac_deviceID c) (platform_of c) w with
  | (w, Ok r) => (register (logged_in c (identity_of r));; mret (logged_in c (identity_of r), AuthOK (identity_of r) (ac_deviceID (logged_in c (identity_of r))))) w
  | (w, Err e) => (w, Ok (c, auth_error e))
  end.
Proof.
  intros Hu Ha. unfold doAuth, password_login. cbn [AB_Token AB_Username AB_Password AB_TOTPCode AB_DisplayName AB_Register].
  rewrite (bool_decide_true ("" = "")), (bool_decide_false (username = "")) by done. cbn [negb].
  unfold authByPasswordWithCode. rewrite Ha. fold (platform_of c). rewrite !M_bind_eq. unfold attempt. rewrite !M_bind_eq. cbn [orb guard_or].
  unfold mret at 1, M_ret at 1. rewrite M_bind_eq. destruct (as_LoginWithCode svc _ _ _ _ _ w) as [w' [[s u]|e]]; done.
Qed.
Lemma identity_whole r : identity_of (model_pair (pb_pair r)) = identity_of r.
Proof. by destruct r as [[] []]. Qed.
Lemma auth_error_carried e : auth_error (carried e) = AuthErr ErrUnauthenticated 0.
Proof. unfold carried. destruct (decide (sentinel e)) as [[->|[->|[->|[->| ->]]]]|]; done. Qed.

(** C40: A login that fails says less in the split deployment.  A password login the limiter lets
    through and that succeeds is answered as in one process.  But no error of the auth service
    keeps its identity over gRPC, so every failed one is reported as a rejected credential, a
    missing or mistyped second factor included: an account with a second factor is never asked
    for its code. *)
Theorem split_login_opaque allow register c username password code db :
  username ≠ "" → allow (bstring (ToLower (sbytes username))) = true →
  let mono := doAuth mono_auth allow register c (password_login username password code) db in
  let split := doAuth split_auth allow register c (password_login username password code) db in
  match (LoginWithCode totp_env attached secs d username password (sbytes code) (ac_deviceID c) (platform_of c) db).2 with
  | Ok _ => split = mono
  | Err e => split = (mono.1, Ok (c, AuthErr ErrUnauthenticated 0)) ∧ mono.2 = Ok (c, auth_error e)
  end.
Proof.
  intros Hu Ha mono split. unfold mono, split. rewrite !doAuth_password by done. cbn [as_LoginWithCode mono_auth split_auth].
  unfold AuthClient_LoginWithCode, AuthServer_LoginWithCode. rewrite remote_serve.
  destruct (LoginWithCode _ _ _ _ _ _ _ _ _ _) as [db' [r|e]]; cbn [fst snd]; [by rewrite identity_whole|by rewrite auth_error_carried].
Qed.
End compared.

(** ** Witnesses *)

Section witnesses.
#[local] Existing Instance toy_argon.
#[local] Existing Instance canonical_order.
#[local] Existing Instance ascii_tables.
#[local] Existing Instance toy_aead.
#[local] Existing Instance w_grpc.

(** Alice has a second factor and gives her password without a code. *)
Definition w_two : AccountDB := set_usersByName {["alice" := "u1"]} w_enrolled.
Definition w_conn : AuthConn := mkAuthConn "" "" "phone" "ios" false.
Definition w_draws : Draw := mkDraw "d1" "d2" "s1" None None 1000.
Definition w_login (svc : AuthService AccountDB) : AccountDB * result (AuthConn * AuthReply) :=
  doAuth svc (λ _, true) (λ _, mret tt) w_conn (password_login "alice" "secret" "") w_two.
Lemma split_login_opaque_witness :
  (w_login (mono_auth w_env true None "" w_draws 1 1 1 1 1)).2 = Ok (w_conn, AuthErr ErrTwoFactorRequired 0) ∧
  (w_login (split_auth w_env true None "" w_draws 1 1 1 1 1)).2 = Ok (w_conn, AuthErr ErrUnauthenticated 0).
Proof.
  pose proof (split_login_opaque w_env true None "" w_draws 1 1 1 1 1 (λ _, true) (λ _, mret tt) w_conn "alice" "secret" "" w_two
    ltac:(discriminate) eq_refl) as Ht.
  assert ((LoginWithCode w_env true 1 w_draws "alice" "secret" (sbytes "") (ac_deviceID w_conn) (platform_of w_conn) w_two).2 =
    Err auth_ErrTwoFactorRequired) as E by (vm_compute; reflexivity).
  rewrite E in Ht. destruct Ht as [Hs Hm]. split; [exact Hm|]. unfold w_login. rewrite Hs. reflexivity.
Defined.
End witnesses.
